(* ===== verification/_CoqProject ===== *)
-Q . S2P
Prelude.v
RustStr.v
Records.v
Effects.v
Json.v
Protocol.v
Continuity.v
InputState.v
SessionEvents.v
Errors.v
TargetPolicy.v
Contracts.v
SessionHealth.v
HostAction.v
Confirmation.v
Platform.v
TaskGrant.v
CapturePreparation.v
TaskAuthorization.v
Admission.v
Request.v
SecretVault.v
RuntimeSession.v
ActionPolicy.v
ExtensionInput.v
BrowserEvidence.v
Runs.v
ExtensionRegistry.v
ExtensionPairings.v
BrowserSession.v
RecordingFence.v
Broker.v
CrossClient.v
SharedImage.v
HostSession.v
Calls.v
Images.v
DesktopCommand.v
DesktopSession.v
DesktopInput.v
AuthorizationScope.v
WindowWorld.v
WindowRequests.v
WindowMutations.v
WindowQueries.v
WindowActions.v
WindowDispatch.v
WindowPermissions.v
WindowInput.v
WindowSamples.v
Ledger.v
Cancellation.v
SessionOpening.v
Ordered.v
SemanticProfiles.v
ProfilePackages.v
ProfileStore.v
ProfileCatalog.v
ProfileContext.v
HostClient.v
NativeInput.v
PhysicalInput.v
CapturePopupInput.v
GuardedEvidence.v
GuardedTransaction.v
GuardedInput.v
