(* ===== verification/Prelude.v ===== *)
(** * dcc-cua: a verification library for the Computer Use Host

    dcc-cua lets a client (an agent) see and drive desktop applications through a local
    Host process.  A client opens a session for one exact window, or for the whole
    desktop, with a task grant; it observes the window, acts in it, drives the browser in
    it, and every one of its requests is gated by the grant, by a trusted lease if the
    session runs under one, and by fresh evidence of what the window shows.  This library
    models the Rust code that decides: what is admitted, on what evidence, with whose
    consent, and what is reported afterwards; and around the Host the paired browser
    extensions, the client's connection, and the profiles that tell a client how an
    application is operated; and below it the guard around the physical input of Windows.
    Code that draws, captures or records, and the calls of the operating system, are
    parameters or answers of an oracle.

    ** The parts and the files

    Foundations, which model no code of the repository: this file (lemmas on lists,
    options, results and integers; the Rust [Result] with its [?], machine-width
    arithmetic, the tactics [open_ok], [reflect_all]), RustStr (strings as UTF-8 bytes),
    Json (values of [serde_json]), Records (assignment to a field), Effects (operations
    on a mutable object that may fail or panic; loops; the relations every run respects;
    totality), Runs (a component as a step function, and facts about all its runs), Calls
    (operations that ask an oracle, with the history of what was asked), Ledger (the
    balance of the calls that take a resource and those that give it back) and Ordered
    ([BTreeMap], [BTreeSet] and stable sorting).

    The wire ([crates/dcc-cua-protocol]): Protocol (handles, envelopes, method traits and
    the frame codec of [lib.rs]), Continuity ([continuity.rs]), CapturePreparation
    ([capture_preparation.rs]), Errors (the error contracts of the core and of the Host,
    [contracts.rs], [error_contract.rs], [wire.rs]), and Request (every request of the
    Host's [lib.rs], its routing and the checks of its parameters).

    The core ([crates/dcc-cua-core]): InputState, SessionHealth, TargetPolicy, Contracts
    (payloads and their validation), RuntimeSession (the window session of
    [runtime/session.rs] as a state: observation, element tokens, native metadata, and
    the epoch that dates them), ActionPolicy ([policy.rs]: validation of an action and its
    translation into a driver command).

    Consent ([crates/dcc-cua-host], [crates/dcc-cua-showcase]): HostAction (the wire
    action, its safety tier and category), Confirmation (the user's word on one action),
    Platform and TaskGrant (origins, output directories, the grant of a client),
    TaskAuthorization (the lease, and the interface a trusted authority promises the
    Host), RecordingFence, Broker (the authority inside the process) and CrossClient
    (approvals signed by another client); AuthorizationScope (agreement of grant and
    lease, and the check in front of every handler).  TaskAuthorization states what an
    authority promises as a class of laws; Broker proves that it keeps the promise.

    Evidence: SessionEvents (the bounded event queue), BrowserEvidence and BrowserSession
    ([crates/dcc-cua-browser]), ExtensionInput and ExtensionRegistry (the observations and
    the commands of a paired browser extension, [browser_extension.rs], with its theorems
    in ExtensionPairings), SharedImage ([crates/dcc-cua-shm]) and
    Images (tool results and their transport), HostSession ([session_state.rs]: the
    Host's copy of the evidence, synchronised with the core's epoch).

    Requests ([request_handler.rs] and its modules): DesktopSession, from the core's
    desktop session to its handlers; and for a window session WindowWorld (the calls a
    handler makes: the operations of the core session, clocks, vault, queue of physical
    input), WindowRequests, WindowMutations, WindowQueries and WindowActions (one
    definition per arm of the match), and WindowDispatch (the whole request, from the
    check of the transport to the synchronisation after it).  WindowPermissions and
    WindowInput hold the theorems on these handlers, WindowSamples a world and runs in it.
    SessionOpening is the handlers that launch applications and open window sessions, and
    Cancellation the registry of the waits that a client can cancel.

    The client ([crates/dcc-cua-client]): HostClient, the other end of the wire, which
    correlates responses with requests.

    Physical input ([crates/dcc-cua-platform-windows], [physical_input_fence.rs]):
    NativeInput (the native calls and what they answer), PhysicalInput (the proof of the
    window, the transaction of events, and the four operations over a backend),
    CapturePopupInput (the backend of a captured popup, [capture_popup.rs]).
    GuardedTransaction states what a backend promises as a class of laws, and proves the
    transaction and the operations against it; GuardedInput proves that both backends keep
    the promise, and draws the conclusions for the functions the crate exports.

    Profiles ([crates/dcc-cua-semantic-profiles], [crates/dcc-cua-profiles]):
    SemanticProfiles (a profile, its validation and inheritance, and what it matches),
    ProfilePackages (a package on disk), ProfileStore (the packages of a directory and the
    catalog over the built-in profiles), ProfileCatalog (the profile of a window) and
    ProfileContext (the documents that apply to a request).

    ** How code becomes definitions

    A method on [&mut self] is a function from the object to its result and the object it
    leaves, [None] being a panic; [?] keeps the changes made so far.  A definition keeps
    the name of the function it models; what a Rust function does in one body is split
    where the proofs need a name, and composed again in the same order.  Integers are [Z]
    with the bounds and the wrap-around of their width written out where the code can
    reach them; a float is a [spec_float] of binary64.  A [Mutex] is a field of the state:
    a run of a component is the order in which the lock serialises its operations.  Time is
    a parameter of the operation that reads the clock: an [Instant] is a number of
    milliseconds, a deadline the milliseconds that remain until it.  What other code
    answers is an argument, a class of parameters with laws (shared memory, URL parsing,
    digests, file metadata), or a call of an oracle which a theorem quantifies over, so
    that it holds for whatever the driver, the user or the vault answers.

    ** What the theorems show

    - Admission.  A window request uses the core session only for operations of its own
      method that its grant, its lease and its mode permit, and leaves other sessions and
      the grant alone (WindowPermissions); it passes the check in front of the handlers
      only within the lease (AuthorizationScope); opening a session gives a running
      session, under a lease for the window that was opened if the grant claims one, or
      leaves the connection as it was and stops the core sessions it started
      (SessionOpening); a wait is
      cancelled by its holder only (Cancellation).  An action reaches the core, or the driver of the
      desktop, at most once, confirmed where its tier asks for it, on the latest evidence
      (WindowInput, DesktopSession); a secret is captured only with consent and never
      returned (WindowInput).
    - Authority.  A broker authorization that ended stays ended, has at most one lease,
      and its leases satisfy the Host's validation (Broker); a signed decision is consumed
      at most once and only for what was signed; a revoked key or a clock that went
      backwards confers nothing (CrossClient); a fence closes for good (RecordingFence).
    - Evidence.  What the Host accepts as current is current in the core (HostSession); a
      browser mutation consumes its snapshot (BrowserSession), and receipts and downloads
      are what the request was for (BrowserEvidence); the result of an extension's command
      is what the paired provider completed it with, and a pairing has one owner
      (ExtensionRegistry, ExtensionPairings); the event page misses nothing or asks
      for a resynchronisation, and refines an unbounded log (SessionEvents); a report of a
      failed dispatch says what is known (RuntimeSession); images arrive as they were sent
      (SharedImage, Images); a completed target is not offered again (Continuity).
    - The connection.  A usable connection answers every call or fails it, and an unusable
      one stays so; the answers to a batch come in the order of its requests, however the
      Host sent them (HostClient).
    - Physical input.  Every native mutation directly follows a proof of the window and of
      the point it aims at, or is the last release; nothing stays pressed that the system
      lets go of; a success sent exactly the events of the request (GuardedInput).
    - Profiles.  A profile is accepted exactly if it is well formed, and inheritance is the
      child over its parent (SemanticProfiles); an accepted package is bounded
      (ProfilePackages); the store is the greatest consistent part of its directory
      (ProfileStore); the narrowest profile of a window is selected, or a tie reported
      (ProfileCatalog); a context is the documents that apply (ProfileContext).
    - Termination.  The loops of window and desktop sessions, of the store, of the
      client's receiving end and of physical input (WindowQueries, DesktopSession,
      ProfileStore, HostClient, GuardedInput).
    - Bounds and codecs: frames (Protocol), commands (ActionPolicy), leases
      (TaskAuthorization).

    ** Bounds and fuel

    Loops that wait or read have fuel.  [wait_rounds], [poll_rounds] and the rounds of the
    desktop's delay are computed from the timeout and the interval of the request;
    [window_waits_end] and [desktop_action_returns] show that this many rounds suffice in
    a world in which a sleep is not shorter than it was asked to be, and that more fuel
    would change nothing.  The rounds of [receive_for_request_raw] are the bytes that
    arrive, those of the profile store its packages and entries, and both are proved to be
    enough; [inspect_tree] has the depth of a directory tree as fuel, and its theorem
    assumes that the trees of the package are no deeper.  The waits of physical input have
    the rounds that their duration takes, and the check of a closing popup twenty-one; they
    suffice with a clock that does not go back and sleeps that are not cut short.  Everything else recurs on its
    data.  The panics that remain
    possible ([None]) are those of the code: an exhausted epoch counter, an index into a
    JSON value of the wrong kind.

    ** What is not modelled

    The operating system layers (capture, the packets of injected input, the enumeration of
    windows, the proof of a popup as it is read, overlay, recorder, named pipes,
    shared memory regions), the command line, the MCP server and the code in other
    languages: they are input and output around the decisions modelled here.  Of the
    request handler, the arms that discover windows and call global tools, and the
    connection loop that runs requests in parallel; each handler runs to its end before
    the next request, except the waits of Cancellation and the calls of ExtensionRegistry,
    whose steps other requests may separate.  Of the client, connecting to an endpoint,
    starting the Host and resolving shared memory; what an interrupted operation leaves in
    the streams is arbitrary.  Of the profiles, the contents of the built-in ones, and
    installing and removing packages, which copies and renames directories.  Wiping a
    secret's memory has no counterpart.  The configuration is the Windows one where the
    code depends on the platform; the path operations are those of a Unix build. *)

From stdpp Require Export base tactics option list list_numbers strings gmap pretty.
From Stdlib Require Export ZArith Lia Bool ZifyBool.

#[global] Set Default Proof Using "Type".
#[global] Open Scope string_scope.
#[global] Open Scope list_scope.
#[global] Open Scope Z_scope.

(** ** Results: Rust's [Result<A, E>] and the [?] operator *)

Inductive result (E A : Type) : Type :=
| Ok (a : A)
| Err (e : E).
Arguments Ok {E A} a.
Arguments Err {E A} e.

#[export] Instance result_eq_dec E A `{EqDecision E, EqDecision A} :
  EqDecision (result E A).
Proof. solve_decision. Defined.

Definition rbind {E A B} (m : result E A) (k : A -> result E B) : result E B :=
  match m with Ok a => k a | Err e => Err e end.

Definition rmap_err {E F A} (f : E -> F) (m : result E A) : result F A :=
  match m with Ok a => Ok a | Err e => Err (f e) end.

(** [Option::ok_or]. *)
Definition ok_or {E A} (o : option A) (e : E) : result E A :=
  match o with Some a => Ok a | None => Err e end.

Definition is_ok {E A} (m : result E A) : bool :=
  match m with Ok _ => true | Err _ => false end.
Definition is_err {E A} (m : result E A) : bool := negb (is_ok m).

(** Rust early returns: a [for] loop whose body may return an error. *)
Fixpoint try_each {E A} (f : A -> result E unit) (l : list A) : result E unit :=
  match l with
  | [] => Ok tt
  | a :: l => rbind (f a) (fun _ => try_each f l)
  end.

Declare Scope rust_scope.
Delimit Scope rust_scope with rust.

Notation "'let?' x := m 'in' k" := (rbind m (fun x => k))
  (at level 10, x pattern, m at level 100, k at level 200,
   format "'[v' 'let?'  x  :=  m  'in' '/' k ']'") : rust_scope.
Notation "'check?' m 'in' k" := (rbind m (fun _ => k))
  (at level 10, m at level 100, k at level 200,
   format "'[v' 'check?'  m  'in' '/' k ']'") : rust_scope.
(** Boolean equality and membership, as the source's [==], [!=] and
    [matches!]/[contains]. *)
Notation "x == y" := (bool_decide (x = y)) (at level 70, no associativity) : rust_scope.
Notation "x != y" := (negb (bool_decide (x = y))) (at level 70, no associativity) : rust_scope.
Notation "x ∈? l" := (bool_decide (x ∈ l)) (at level 70, no associativity) : rust_scope.

#[global] Open Scope rust_scope.

(** ** Options *)

Definition is_some {A} (o : option A) : bool :=
  match o with Some _ => true | None => false end.
Definition is_none {A} (o : option A) : bool := negb (is_some o).
(** [Option::is_some_and] and [Option::is_none_or]. *)
Definition is_some_and {A} (f : A -> bool) (o : option A) : bool :=
  match o with Some a => f a | None => false end.
Definition is_none_or {A} (f : A -> bool) (o : option A) : bool :=
  match o with Some a => f a | None => true end.
Definition or_else {A} (o o' : option A) : option A :=
  match o with Some a => Some a | None => o' end.
Definition unwrap_or {A} (o : option A) (d : A) : A :=
  match o with Some a => a | None => d end.

(** ** Machine integers: [u64] and [u32] values are [Z] in range *)

Definition U64_MAX : Z := 2 ^ 64 - 1.
Definition U32_MAX : Z := 2 ^ 32 - 1.
Definition is_u64 (n : Z) : Prop := 0 <= n <= U64_MAX.
Definition is_u32 (n : Z) : Prop := 0 <= n <= U32_MAX.

Definition saturating_add (a b : Z) : Z := Z.min U64_MAX (a + b).
Definition saturating_sub (a b : Z) : Z := Z.max 0 (a - b).
Definition checked_add (a b : Z) : option Z :=
  if a + b <=? U64_MAX then Some (a + b) else None.
Definition wrapping_add (a b : Z) : Z := (a + b) mod 2 ^ 64.

(** [Vec::len] as a [Z]. *)
Definition len {A} (l : list A) : Z := Z.of_nat (length l).

(** The number of elements of [iter().collect::<BTreeSet<_>>()]. *)
Definition set_len {A} `{EqDecision A} (l : list A) : Z := len (remove_dups l).

(** ** Reflection of boolean conditions *)

Lemma is_some_true {A} (o : option A) : is_some o = true <-> is_Some o.
Proof. destruct o; simpl; [naive_solver | split; [done | by intros [? ?]]]. Qed.
Lemma is_some_false {A} (o : option A) : is_some o = false <-> o = None.
Proof. destruct o; naive_solver. Qed.
Lemma is_none_true {A} (o : option A) : is_none o = true <-> o = None.
Proof. destruct o; naive_solver. Qed.
Lemma is_none_false {A} (o : option A) : is_none o = false <-> is_Some o.
Proof. destruct o; simpl; [naive_solver | split; [done | by intros [? ?]]]. Qed.
Lemma is_some_and_true {A} (f : A -> bool) (o : option A) :
  is_some_and f o = true <-> exists a, o = Some a /\ f a = true.
Proof. destruct o; naive_solver. Qed.
Lemma is_some_and_false {A} (f : A -> bool) (o : option A) :
  is_some_and f o = false <-> forall a, o = Some a -> f a = false.
Proof. destruct o; naive_solver. Qed.
Lemma is_none_or_true {A} (f : A -> bool) (o : option A) :
  is_none_or f o = true <-> forall a, o = Some a -> f a = true.
Proof. destruct o; naive_solver. Qed.
Lemma is_none_or_false {A} (f : A -> bool) (o : option A) :
  is_none_or f o = false <-> exists a, o = Some a /\ f a = false.
Proof. destruct o; naive_solver. Qed.
Lemma is_ok_true {E A} (m : result E A) : is_ok m = true <-> exists a, m = Ok a.
Proof. destruct m; naive_solver. Qed.
Lemma is_err_false {E A} (m : result E A) : is_err m = false <-> exists a, m = Ok a.
Proof. destruct m; naive_solver. Qed.

Lemma forallb_true {A} (f : A -> bool) (l : list A) :
  forallb f l = true <-> forall x, x ∈ l -> f x = true.
Proof. rewrite forallb_forall. by setoid_rewrite list_elem_of_In. Qed.
Lemma existsb_true {A} (f : A -> bool) (l : list A) :
  existsb f l = true <-> exists x, x ∈ l /\ f x = true.
Proof. rewrite existsb_exists. by setoid_rewrite list_elem_of_In. Qed.
Lemma existsb_false {A} (f : A -> bool) (l : list A) :
  existsb f l = false <-> forall x, x ∈ l -> f x = false.
Proof.
  rewrite <- not_true_iff_false, existsb_true. split.
  - intros H x Hx. apply not_true_iff_false. eauto.
  - intros H (x & Hx & Hf). rewrite H in Hf; done.
Qed.

Create Rewrite HintDb reflect_bool.
#[export] Hint Rewrite andb_true_iff andb_false_iff orb_true_iff orb_false_iff
  negb_true_iff negb_false_iff
  @bool_decide_eq_true @bool_decide_eq_false
  Z.ltb_lt Z.ltb_ge Z.leb_le Z.leb_gt Z.eqb_eq Z.eqb_neq
  @is_some_true @is_some_false @is_none_true @is_none_false
  @is_some_and_true @is_some_and_false @is_none_or_true @is_none_or_false
  @is_ok_true @is_err_false @forallb_true @existsb_true @existsb_false
  : reflect_bool.

(** [reflect_in H] turns a boolean fact into propositions; [reflect_all] does
    it everywhere and splits the conjunctions it finds. *)
Ltac reflect_in H := autorewrite with reflect_bool in H.
Ltac reflect_goal := autorewrite with reflect_bool.
Ltac split_facts :=
  repeat match goal with
  | H : _ /\ _ |- _ => destruct H
  | H : exists _, _ |- _ => destruct H
  | H : is_Some _ |- _ => destruct H
  end.
Ltac reflect_all :=
  repeat match goal with
  | H : @eq bool _ _ |- _ => progress reflect_in H
  end; split_facts.

(** Decides the equality tests between constants of the goal. *)
Ltac decide_eqs :=
  repeat match goal with
  | |- context [bool_decide (?a = ?b)] =>
      first [rewrite (bool_decide_eq_true_2 (a = b)) by done
            |rewrite (bool_decide_eq_false_2 (a = b)) by done]
  end.

(** One early return of a function that succeeded. *)
Ltac guard_step H :=
  match type of H with
  | context [if ?b then _ else _] => destruct b eqn:?; try discriminate H
  | context [match ?x with _ => _ end] => destruct x eqn:?; try discriminate H
  end.

Ltac inv_ok H :=
  match type of H with
  | Ok _ = Ok _ => injection H as H; try subst
  | Err _ = Err _ => injection H as H; try subst
  | Some _ = Some _ => injection H as H; try subst
  end.

(** ** Results: reasoning *)

Lemma rbind_ok {E A B} (m : result E A) (k : A -> result E B) b :
  rbind m k = Ok b <-> exists a, m = Ok a /\ k a = Ok b.
Proof. destruct m; naive_solver. Qed.

Lemma rbind_err {E A B} (m : result E A) (k : A -> result E B) e :
  rbind m k = Err e <-> m = Err e \/ exists a, m = Ok a /\ k a = Err e.
Proof. destruct m; naive_solver. Qed.

Lemma rmap_err_ok {E F A} (f : E -> F) (m : result E A) a :
  rmap_err f m = Ok a <-> m = Ok a.
Proof. destruct m; naive_solver. Qed.

Lemma ok_or_ok {E A} (o : option A) (e : E) a :
  ok_or o e = Ok a <-> o = Some a.
Proof. destruct o; naive_solver. Qed.

Lemma guard_ok {E A} (b : bool) (e : E) (k : result E A) a :
  (if b then Err e else k) = Ok a <-> b = false /\ k = Ok a.
Proof. destruct b; naive_solver. Qed.

Lemma test_ok {E A} (b : bool) (e : E) (a a' : A) :
  (if b then Ok a else Err e) = Ok a' <-> b = true /\ a = a'.
Proof. destruct b; naive_solver. Qed.

Lemma try_each_ok {E A} (f : A -> result E unit) (l : list A) :
  try_each f l = Ok tt <-> forall x, x ∈ l -> f x = Ok tt.
Proof.
  induction l as [|a l IH]; simpl.
  - split; [|done]. intros _ x Hx. by apply not_elem_of_nil in Hx.
  - rewrite rbind_ok. split.
    + intros ([] & Ha & Hl) x [->|Hx]%elem_of_cons; [done|]. by apply IH.
    + intros H. exists tt. split; [apply H; left|]. apply IH. intros; apply H; by right.
Qed.

Create Rewrite HintDb result_ok.
#[export] Hint Rewrite @rbind_ok @rmap_err_ok @ok_or_ok @guard_ok @test_ok @try_each_ok
  : result_ok.

(** Opens every success hypothesis into the facts its guards establish. *)
Ltac open_ok :=
  repeat (match goal with
  | H : _ = Ok _ |- _ => progress autorewrite with result_ok in H
  | H : () |- _ => destruct H
  end; split_facts).

(** ** Lists *)

Lemma cons_app_eq {A} (c : A) (l1 l2 l3 l4 : list A) :
  l1 ++ l2 = l3 ++ c :: l4 ->
  (exists x, l1 = l3 ++ c :: x /\ l4 = x ++ l2) \/ exists x, l3 = l1 ++ x /\ l2 = x ++ c :: l4.
Proof.
  intros [x [[-> E]|[-> E]]]%app_eq_app; [|by right; eauto].
  destruct x as [|c' x]; simpl in E.
  - right. exists []. by rewrite !app_nil_r.
  - injection E as -> ->. left. eauto.
Qed.

Lemma last_cons_default {A} (x : A) l : forall d, List.last (x :: l) d = List.last l x.
Proof.
  revert x. induction l as [|y l IH]; [done|]. intros x d.
  change (List.last (y :: l) d = List.last (y :: l) x). by rewrite !IH.
Qed.

(** ** Filters *)

Lemma filter_none {A} (f : A -> bool) l :
  (forall x, x ∈ l -> f x = false) -> List.filter f l = [].
Proof.
  induction l as [|x l IH]; intros H; [done|]. simpl.
  rewrite (H x) by (by left). apply IH. intros; apply H; by right.
Qed.

(** ** Sets collected from vectors *)

Lemma length_remove_dups_le {A} `{EqDecision A} (l : list A) :
  (length (remove_dups l) <= length l)%nat.
Proof. induction l as [|x l IH]; simpl; [lia|]. case_decide; simpl; lia. Qed.

Lemma set_len_unique {A} `{EqDecision A} (l : list A) :
  set_len l = len l <-> NoDup l.
Proof.
  unfold set_len, len. split.
  - intros H%Nat2Z.inj. revert H.
    induction l as [|x l IH]; simpl; [intros; constructor|].
    pose proof (length_remove_dups_le l).
    case_decide; simpl; intros; [lia|].
    constructor; [done|]. apply IH; lia.
  - intros H. f_equal. induction H as [|x l Hx Hl IH]; simpl; [done|].
    destruct (decide_rel _ x l); [done|]. simpl. by rewrite IH.
Qed.

Lemma set_len_nonneg {A} `{EqDecision A} (l : list A) : 0 <= set_len l.
Proof. unfold set_len, len. lia. Qed.

Lemma len_nonneg {A} (l : list A) : 0 <= len l.
Proof. unfold len. lia. Qed.

Lemma set_len_zero {A} `{EqDecision A} (l : list A) : set_len l = 0 <-> l = [].
Proof.
  split; [|by intros ->]. unfold set_len, len.
  destruct l as [|x l]; [done|]. simpl. case_decide as Hx; simpl; [|lia].
  intros H. exfalso. apply elem_of_remove_dups in Hx.
  destruct (remove_dups l); [by apply not_elem_of_nil in Hx | simpl in H; lia].
Qed.

#[export] Hint Resolve set_len_nonneg len_nonneg : core.
