(* ===== verification/RustStr.v ===== *)
(** * Rust strings

    A Rust [str] is a UTF-8 byte sequence: it is modelled by a Coq [string] (a
    list of 8-bit characters, the bytes).  This file defines the operations of
    the Rust standard library that the modelled source uses on strings: byte
    length, decoding into [char]s, [char::is_control], [str::trim], ASCII case
    folding, searching and splitting.  Nothing here is specific to the program. *)

From Stdlib Require Ascii.
From S2P Require Import Prelude.

Abbreviation ascii := Ascii.ascii.

(** ** Bytes and characters *)

Definition byte_of (a : ascii) : Z := Z.of_N (Ascii.N_of_ascii a).
Definition ascii_of (b : Z) : ascii := Ascii.ascii_of_N (Z.to_N b).

(** [str::len]: the number of bytes. *)
Definition str_len (s : string) : Z := Z.of_nat (String.length s).
Definition str_is_empty (s : string) : bool := s == "".

(** UTF-8 decoding, keeping with each [char] the bytes that encode it.  A Rust
    [str] is always valid UTF-8; a stray byte of an invalid sequence stands for
    itself, so that the function is total. *)
Definition cont (b : ascii) : Z := Z.land (byte_of b) 63.

Fixpoint char_chunks (s : string) : list (Z * string) :=
  match s with
  | EmptyString => []
  | String a s1 =>
      let b := byte_of a in
      if b <? 192 then (b, String a "") :: char_chunks s1 else
      match s1 with
      | EmptyString => [(b, String a "")]
      | String a1 s2 =>
          if b <? 224
          then (Z.lor (Z.shiftl (Z.land b 31) 6) (cont a1),
                String a (String a1 "")) :: char_chunks s2
          else match s2 with
          | EmptyString => (b, String a "") :: char_chunks s1
          | String a2 s3 =>
              if b <? 240
              then (Z.lor (Z.shiftl (Z.land b 15) 12)
                      (Z.lor (Z.shiftl (cont a1) 6) (cont a2)),
                    String a (String a1 (String a2 ""))) :: char_chunks s3
              else match s3 with
              | EmptyString => (b, String a "") :: char_chunks s1
              | String a3 s4 =>
                  (Z.lor (Z.shiftl (Z.land b 7) 18)
                     (Z.lor (Z.shiftl (cont a1) 12)
                        (Z.lor (Z.shiftl (cont a2) 6) (cont a3))),
                   String a (String a1 (String a2 (String a3 "")))) :: char_chunks s4
              end
          end
      end
  end.

(** [str::chars]. *)
Definition chars (s : string) : list Z := map fst (char_chunks s).
(** [str::chars().count()]. *)
Definition chars_count (s : string) : Z := len (chars s).
(** [str::encode_utf16().count()]. *)
Definition utf16_count (s : string) : Z :=
  fold_right (fun c n => (if c <? 65536 then 1 else 2) + n) 0 (chars s).

(** ** Character classes *)

(** [char::is_control]: the general category Cc. *)
Definition is_control (c : Z) : bool :=
  (0 <=? c) && (c <=? 31) || (127 <=? c) && (c <=? 159).

(** [char::is_whitespace]: the property White_Space. *)
Definition is_whitespace (c : Z) : bool :=
  (9 <=? c) && (c <=? 13) || (c =? 32) || (c =? 133) || (c =? 160)
  || (c =? 5760) || (8192 <=? c) && (c <=? 8202) || (c =? 8232) || (c =? 8233)
  || (c =? 8239) || (c =? 8287) || (c =? 12288).

Definition is_ascii_digit (c : Z) : bool := (48 <=? c) && (c <=? 57).
Definition is_ascii_upper (c : Z) : bool := (65 <=? c) && (c <=? 90).
Definition is_ascii_lower (c : Z) : bool := (97 <=? c) && (c <=? 122).
Definition is_ascii_alphanumeric (c : Z) : bool :=
  is_ascii_digit c || is_ascii_upper c || is_ascii_lower c.

(** ** Trimming *)

Fixpoint skip_while {A} (p : A -> bool) (l : list A) : list A :=
  match l with
  | [] => []
  | a :: l => if p a then skip_while p l else a :: l
  end.
Definition skip_while_end {A} (p : A -> bool) (l : list A) : list A :=
  reverse (skip_while p (reverse l)).

Definition of_chunks (l : list (Z * string)) : string :=
  fold_right (fun c s => String.append (snd c) s) "" l.

(** [str::trim_matches] for a predicate on [char]s. *)
Definition trim_matches (p : Z -> bool) (s : string) : string :=
  of_chunks (skip_while_end (fun c => p (fst c))
               (skip_while (fun c => p (fst c)) (char_chunks s))).
(** [str::trim]. *)
Definition trim (s : string) : string := trim_matches is_whitespace s.

(** ** ASCII case *)

Definition lower_byte (a : ascii) : ascii :=
  if is_ascii_upper (byte_of a) then ascii_of (byte_of a + 32) else a.
Definition upper_byte (a : ascii) : ascii :=
  if is_ascii_lower (byte_of a) then ascii_of (byte_of a - 32) else a.

Fixpoint map_bytes (f : ascii -> ascii) (s : string) : string :=
  match s with
  | EmptyString => EmptyString
  | String a s => String (f a) (map_bytes f s)
  end.
(** [str::to_ascii_lowercase], [str::to_ascii_uppercase] and
    [str::eq_ignore_ascii_case]. *)
Definition to_ascii_lowercase : string -> string := map_bytes lower_byte.
Definition to_ascii_uppercase : string -> string := map_bytes upper_byte.
Definition eq_ignore_ascii_case (s t : string) : bool :=
  to_ascii_lowercase s == to_ascii_lowercase t.

(** ** Searching and splitting *)

(** [str::starts_with] and [str::strip_prefix] for a string pattern. *)
Fixpoint strip_prefix (p s : string) : option string :=
  match p, s with
  | EmptyString, _ => Some s
  | String _ _, EmptyString => None
  | String a p, String b s => if a == b then strip_prefix p s else None
  end.
Definition starts_with (p s : string) : bool := is_some (strip_prefix p s).

(** [str::contains] for a string pattern. *)
Fixpoint contains (p s : string) : bool :=
  starts_with p s ||
  match s with EmptyString => false | String _ s => contains p s end.

(** [str::strip_suffix] for a string pattern. *)
Fixpoint strip_suffix (p s : string) : option string :=
  if s == p then Some "" else
  match s with
  | EmptyString => None
  | String a s => option_map (String a) (strip_suffix p s)
  end.
Definition ends_with (p s : string) : bool := is_some (strip_suffix p s).

(** [str::split] on single-byte separators. *)
Fixpoint split_on (sep : ascii -> bool) (s : string) : list string :=
  match s with
  | EmptyString => [""]
  | String a s =>
      if sep a then "" :: split_on sep s
      else match split_on sep s with
           | [] => [String a ""]
           | w :: ws => String a w :: ws
           end
  end.

Definition any_char (p : Z -> bool) (s : string) : bool := existsb p (chars s).
Definition all_chars (p : Z -> bool) (s : string) : bool := forallb p (chars s).
(** The bytes of [s.chars().filter(p).collect::<String>()]. *)
Definition filter_chars (p : Z -> bool) (s : string) : string :=
  of_chunks (List.filter (fun c => p (fst c)) (char_chunks s)).

(** A decimal rendering, as [format!] prints an unsigned integer. *)
Definition show (n : Z) : string := pretty n.

(** ** The identity fields of the Host

    Several modules of the source check the same shape: non-empty, no
    surrounding whitespace, bounded, without control characters. *)
Definition identity_shape (value : string) (max_chars : Z) : bool :=
  negb (str_is_empty value || (value != trim value)
        || (max_chars <? chars_count value) || any_char is_control value).

(** ** Lemmas *)

Lemma str_is_empty_true s : str_is_empty s = true <-> s = "".
Proof. apply bool_decide_eq_true. Qed.
Lemma str_is_empty_false s : str_is_empty s = false <-> s <> "".
Proof. apply bool_decide_eq_false. Qed.
#[export] Hint Rewrite str_is_empty_true str_is_empty_false : reflect_bool.

Lemma of_chunks_cons c w l :
  of_chunks ((c, w) :: l) = String.append w (of_chunks l).
Proof. done. Qed.

Lemma of_chunks_char_chunks s : of_chunks (char_chunks s) = s.
Proof.
  assert (forall n s, (String.length s <= n)%nat -> of_chunks (char_chunks s) = s)
    as H; [| by apply (H (String.length s))].
  clear s. induction n as [|n IH]; intros s Hle;
    [by destruct s; simpl in Hle; [|lia]|].
  destruct s as [|a s1]; [done|]. cbn [char_chunks].
  repeat (case_match; simpl in Hle; try done; rewrite ?of_chunks_cons; simpl;
    try (rewrite IH by (simpl; lia); done)).
Qed.

Lemma byte_of_bounds a : 0 <= byte_of a < 256.
Proof.
  unfold byte_of. pose proof (Ascii.N_ascii_bounded a). lia.
Qed.
Lemma ascii_of_byte_of a : ascii_of (byte_of a) = a.
Proof. unfold ascii_of, byte_of. rewrite N2Z.id. apply Ascii.ascii_N_embedding. Qed.
Lemma byte_of_ascii_of b : 0 <= b < 256 -> byte_of (ascii_of b) = b.
Proof.
  intros Hb. unfold ascii_of, byte_of.
  rewrite Ascii.N_ascii_embedding by lia. lia.
Qed.

Lemma map_bytes_idemp (f : ascii -> ascii) s :
  (forall a, f (f a) = f a) -> map_bytes f (map_bytes f s) = map_bytes f s.
Proof. intros Hf. induction s as [|a s IH]; simpl; congruence. Qed.

Lemma lower_byte_idemp a : lower_byte (lower_byte a) = lower_byte a.
Proof.
  unfold lower_byte at 2 3. destruct (is_ascii_upper (byte_of a)) eqn:E.
  - unfold is_ascii_upper in E. reflect_all. unfold lower_byte.
    rewrite byte_of_ascii_of by lia. unfold is_ascii_upper.
    replace (byte_of a + 32 <=? 90) with false by lia. by rewrite andb_false_r.
  - unfold lower_byte. by rewrite E.
Qed.

Lemma to_ascii_lowercase_idemp s :
  to_ascii_lowercase (to_ascii_lowercase s) = to_ascii_lowercase s.
Proof. apply map_bytes_idemp, lower_byte_idemp. Qed.

Lemma append_nil_l s : String.append "" s = s.
Proof. done. Qed.
Lemma append_cons a s t : String.append (String a s) t = String a (String.append s t).
Proof. done. Qed.

Lemma strip_prefix_some p s r : strip_prefix p s = Some r <-> s = String.append p r.
Proof.
  revert s. induction p as [|a p IH]; intros [|b s];
    cbn [strip_prefix]; rewrite ?append_nil_l, ?append_cons; try (split; congruence).
  destruct (decide (a = b)) as [->|Hab].
  - rewrite bool_decide_eq_true_2 by done. rewrite IH. split; congruence.
  - rewrite bool_decide_eq_false_2 by done. split; congruence.
Qed.

Lemma starts_with_true p s : starts_with p s = true <-> exists r, s = String.append p r.
Proof.
  unfold starts_with. rewrite is_some_true. unfold is_Some.
  by setoid_rewrite strip_prefix_some.
Qed.

Lemma identity_shape_true value max_chars :
  identity_shape value max_chars = true <->
  value <> "" /\ value = trim value /\ chars_count value <= max_chars
  /\ forall c, c ∈ chars value -> is_control c = false.
Proof.
  unfold identity_shape, any_char. reflect_goal. naive_solver.
Qed.

Lemma identity_shape_nonempty value max_chars :
  identity_shape value max_chars = true -> value <> "".
Proof. rewrite identity_shape_true. naive_solver. Qed.

#[export] Hint Resolve identity_shape_nonempty : core.

Example chars_ascii : chars "ab:1" = [97; 98; 58; 49].
Proof. reflexivity. Qed.
Example trim_example : trim "  a b	" = "a b".
Proof. reflexivity. Qed.
Example split_example : split_on (fun a => byte_of a =? 46) "a.bc." = ["a"; "bc"; ""].
Proof. reflexivity. Qed.
