(* ===== verification/Records.v ===== *)
(** * Records: assignment to one field

    [self <| field := v |>] is the record [self] after the source's
    [self.field = v].  A record type that supports it has a [Settable] instance that
    rebuilds a value from its fields. *)

From S2P Require Import Prelude.

Class Settable (R : Type) : Type := rebuild : R -> R.

Class Setter {R A : Type} (field : R -> A) : Type := assign : A -> R -> R.
Arguments assign {R A} field {Setter} v r /.

(** The assignment to a field is the rebuilt record with the read of that field
    replaced. *)
Ltac solve_setter :=
  lazymatch goal with
  | |- @Setter ?R ?A ?field =>
      let inst := constr:(_ : Settable R) in
      let body := eval hnf in inst in
      lazymatch eval pattern field in body with
      | ?f _ =>
          let t := eval cbv beta in (fun (v : A) (r : R) => f (fun _ => v) r) in
          exact t
      end
  end.

#[export] Hint Extern 0 (Setter _) => solve_setter : typeclass_instances.

Notation "r '<|' field ':=' v '|>'" := (assign field v r)
  (at level 1, left associativity, field at level 9, v at level 200,
   format "r  '<|'  field  ':='  v  '|>'") : rust_scope.

(** ** A check of the mechanism *)

Module Point.
Record Point : Type := { x : Z; y : Z; name : string }.

#[global] Instance Point_settable : Settable Point :=
  fun r => {| x := x r; y := y r; name := name r |}.
End Point.

Example assign_point (p : Point.Point) :
  p <| Point.y := 3 |> <| Point.name := "q" |>
  = {| Point.x := Point.x p; Point.y := 3; Point.name := "q" |}.
Proof. reflexivity. Qed.
