(* ===== verification/Effects.v ===== *)
(** * Effects: operations on a mutable object that may fail or panic

    A method [fn op(&mut self, ..) -> Result<A, E>] is a function from the object to
    the result and the object left behind; [None] is a panic.  An early return with
    [?] keeps the changes made so far, so an error comes with a state as well. *)

From S2P Require Import Prelude.

Definition eff (S E A : Type) : Type := S -> option (result E A * S).

Definition ret {S E A} (a : A) : eff S E A := fun s => Some (Ok a, s).
Definition throw {S E A} (e : E) : eff S E A := fun s => Some (Err e, s).
Definition panic {S E A} : eff S E A := fun _ => None.
(** A value computed without touching the object. *)
Definition lift {S E A} (r : result E A) : eff S E A := fun s => Some (r, s).
(** A field, or any function of the object. *)
Definition read {S E A} (f : S -> A) : eff S E A := fun s => Some (Ok (f s), s).
(** A change that may panic, and one that cannot. *)
Definition update {S E} (f : S -> option S) : eff S E unit :=
  fun s => match f s with Some s' => Some (Ok tt, s') | None => None end.
Definition modify {S E} (f : S -> S) : eff S E unit := fun s => Some (Ok tt, f s).

Definition bind {S E A B} (m : eff S E A) (k : A -> eff S E B) : eff S E B := fun s =>
  match m s with
  | Some (Ok a, s') => k a s'
  | Some (Err e, s') => Some (Err e, s')
  | None => None
  end.

(** [let result = op(..)] without the [?]: the error becomes a value. *)
Definition attempt {S E F A} (m : eff S E A) : eff S F (result E A) := fun s =>
  match m s with Some (r, s') => Some (Ok r, s') | None => None end.
Definition map_error {S E F A} (f : E -> F) (m : eff S E A) : eff S F A := fun s =>
  match m s with Some (r, s') => Some (rmap_err f r, s') | None => None end.

(** An operation of a part of the object. *)
Definition on_part {S T E A} (get : T -> S) (set : S -> T -> T) (m : eff S E A)
    : eff T E A := fun t =>
  match m (get t) with Some (r, s') => Some (r, set s' t) | None => None end.

Notation "'do?' x := m 'in' k" := (bind m (fun x => k))
  (at level 10, x pattern, m at level 100, k at level 200,
   format "'[v' 'do?'  x  :=  m  'in' '/' k ']'") : rust_scope.
Notation "'run?' m 'in' k" := (bind m (fun _ => k))
  (at level 10, m at level 100, k at level 200,
   format "'[v' 'run?'  m  'in' '/' k ']'") : rust_scope.

(** [if b { return Err(e) }]. *)
Definition refuse_if {S E} (b : bool) (e : E) : eff S E unit :=
  if b then throw e else ret tt.

(** [loop { .. }]: a round either goes on with a new loop state or ends the loop; [None]
    is a loop that its fuel did not suffice for. *)
Fixpoint loop {S E A B} (fuel : nat) (round : A -> eff S E (A + B)) (a : A)
    : eff S E (option B) :=
  match fuel with
  | O => ret None
  | S fuel => bind (round a) (fun next =>
      match next with
      | inl a => loop fuel round a
      | inr b => ret (Some b)
      end)
  end.

(** ** Inversion *)

Lemma bind_some {S E A B} (m : eff S E A) (k : A -> eff S E B) s out :
  bind m k s = Some out ->
  (exists e s', m s = Some (Err e, s') /\ out = (Err e, s'))
  \/ (exists a s', m s = Some (Ok a, s') /\ k a s' = Some out).
Proof. unfold bind. destruct (m s) as [[[a|e] s']|]; naive_solver. Qed.

Lemma bind_ok {S E A B} (m : eff S E A) (k : A -> eff S E B) s b s' :
  bind m k s = Some (Ok b, s') <->
  exists a s1, m s = Some (Ok a, s1) /\ k a s1 = Some (Ok b, s').
Proof. unfold bind. destruct (m s) as [[[a|e] s1]|]; naive_solver. Qed.

Lemma bind_err {S E A B} (m : eff S E A) (k : A -> eff S E B) s e s' :
  bind m k s = Some (Err e, s') <->
  m s = Some (Err e, s')
  \/ exists a s1, m s = Some (Ok a, s1) /\ k a s1 = Some (Err e, s').
Proof. unfold bind. destruct (m s) as [[[a|e'] s1]|]; naive_solver. Qed.

Lemma attempt_some {S E F A} (m : eff S E A) s (r : result F (result E A)) s' :
  attempt m s = Some (r, s') <-> exists r', m s = Some (r', s') /\ r = Ok r'.
Proof. unfold attempt. destruct (m s) as [[r1 s1]|]; naive_solver. Qed.

Lemma map_error_some {S E F A} (f : E -> F) (m : eff S E A) s r s' :
  map_error f m s = Some (r, s') <->
  exists r', m s = Some (r', s') /\ r = rmap_err f r'.
Proof. unfold map_error. destruct (m s) as [[r1 s1]|]; naive_solver. Qed.

Lemma refuse_if_ok {S E} (b : bool) (e : E) (s : S) u s' :
  refuse_if b e s = Some (Ok u, s') <-> b = false /\ s' = s.
Proof.
  unfold refuse_if, ret, throw. destruct b; split; intros H; destruct u; naive_solver.
Qed.

Lemma refuse_if_state {S E} b (e : E) (s : S) r s' : refuse_if b e s = Some (r, s') -> s = s'.
Proof. unfold refuse_if, throw, ret. destruct b; naive_solver. Qed.

Lemma read_some {S E A} (f : S -> A) (s : S) (r : result E A) s' :
  read f s = Some (r, s') <-> r = Ok (f s) /\ s' = s.
Proof. unfold read. naive_solver. Qed.

Lemma lift_some {S E A} (x : result E A) (s : S) r s' :
  lift x s = Some (r, s') <-> r = x /\ s' = s.
Proof. unfold lift. naive_solver. Qed.

Lemma update_some {S E} (f : S -> option S) s (r : result E unit) s' :
  update f s = Some (r, s') <-> r = Ok tt /\ f s = Some s'.
Proof. unfold update. destruct (f s); naive_solver. Qed.

(** A loop whose rounds lower a measure ends before its fuel does. *)
Lemma loop_ends {S E A B} (round : A -> eff S E (A + B)) (measure : A -> nat) :
  (forall a s a' s', round a s = Some (Ok (inl a'), s') -> (measure a' < measure a)%nat) ->
  forall fuel a s s', (measure a < fuel)%nat -> loop fuel round a s <> Some (Ok None, s').
Proof.
  intros Hm. induction fuel as [|fuel IH]; intros a s s' Hf; [lia|].
  cbn [loop]. rewrite bind_ok. intros ([a'|b] & s1 & H1 & H2); [|done].
  apply Hm in H1. revert H2. apply IH. lia.
Qed.

(** More fuel than the measure changes nothing. *)
Lemma loop_enough {S E A B} (round : A -> eff S E (A + B)) (measure : A -> nat) :
  (forall a s a' s', round a s = Some (Ok (inl a'), s') -> (measure a' < measure a)%nat) ->
  forall fuel fuel' a s, (measure a < fuel)%nat -> (measure a < fuel')%nat ->
  loop fuel round a s = loop fuel' round a s.
Proof.
  intros Hm. induction fuel as [|fuel IH]; intros [|fuel'] a s Hf Hf'; try lia.
  cbn [loop]. unfold bind. destruct (round a s) as [[[[a'|b]|e] s1]|] eqn:Er; try done.
  apply Hm in Er. apply IH; lia.
Qed.

(** ** Relations every run of an operation respects *)

(** [respects R m]: whatever [m] returns, the object it leaves is related to the
    one it was given. *)
Definition respects {S E A} (R : S -> S -> Prop) (m : eff S E A) : Prop :=
  forall s r s', m s = Some (r, s') -> R s s'.

#[local] Set Default Proof Using "Type*".

Section Respects.
Context {S : Type} (R : S -> S -> Prop) `{!PreOrder R}.

Lemma respects_ret {E A} (a : A) : respects R (ret (E := E) a).
Proof. intros s r s' [= _ <-]. reflexivity. Qed.
Lemma respects_throw {E A} (e : E) : respects R (throw (A := A) e).
Proof. intros s r s' [= _ <-]. reflexivity. Qed.
Lemma respects_panic {E A} : respects R (panic (E := E) (A := A)).
Proof. intros s r s' [=]. Qed.
Lemma respects_lift {E A} (x : result E A) : respects R (lift x).
Proof. intros s r s' [= _ <-]. reflexivity. Qed.
Lemma respects_read {E A} (f : S -> A) : respects R (read (E := E) f).
Proof. intros s r s' [= _ <-]. reflexivity. Qed.
Lemma respects_refuse_if {E} b (e : E) : respects R (refuse_if b e).
Proof. destruct b; [apply respects_throw | apply respects_ret]. Qed.
Lemma respects_bind {E A B} (m : eff S E A) (k : A -> eff S E B) :
  respects R m -> (forall a, respects R (k a)) -> respects R (bind m k).
Proof.
  intros Hm Hk s r s' [(e & s1 & H1 & [= -> ->]) | (a & s1 & H1 & H2)]%bind_some.
  - by eapply Hm.
  - etrans; [by eapply Hm | by eapply Hk].
Qed.
(** A value computed before: the rest runs only if it is one. *)
Lemma respects_bind_lift {E A B} (x : result E A) (k : A -> eff S E B) :
  (forall a, x = Ok a -> respects R (k a)) -> respects R (bind (lift x) k).
Proof.
  intros Hk s r s' [(e & s1 & [_ ->]%lift_some & [= -> ->]) | (a & s1 & [Ha ->]%lift_some & H)]%bind_some.
  - reflexivity.
  - by eapply Hk.
Qed.
Lemma respects_attempt {E F A} (m : eff S E A) :
  respects R m -> respects R (attempt (F := F) m).
Proof. intros Hm s r s' (r' & H & _)%attempt_some. by eapply Hm. Qed.
Lemma respects_map_error {E F A} (f : E -> F) (m : eff S E A) :
  respects R m -> respects R (map_error f m).
Proof. intros Hm s r s' (r' & H & _)%map_error_some. by eapply Hm. Qed.
Lemma respects_loop {E A B} (round : A -> eff S E (A + B)) fuel a :
  (forall a, respects R (round a)) -> respects R (loop fuel round a).
Proof.
  intros Hr. revert a. induction fuel as [|fuel IH]; intros a; [apply respects_ret|].
  apply respects_bind; [apply Hr|]. intros [a'|b]; [apply IH | apply respects_ret].
Qed.
Lemma respects_update {E} (f : S -> option S) :
  (forall s s', f s = Some s' -> R s s') -> respects R (update (E := E) f).
Proof. intros Hf s r s' [_ H]%update_some. by apply Hf. Qed.
Lemma respects_modify {E} (f : S -> S) :
  (forall s, R s (f s)) -> respects R (modify (E := E) f).
Proof. intros Hf s r s' [= _ <-]. apply Hf. Qed.
End Respects.

Lemma bind_assoc {S E A B C} (m : eff S E A) (f : A -> eff S E B) (k : B -> eff S E C) s :
  bind (bind m f) k s = bind m (fun a => bind (f a) k) s.
Proof. unfold bind. by destruct (m s) as [[[a|e] s']|]. Qed.

Lemma respects_assoc {S E A B C} (R : S -> S -> Prop) (m : eff S E A)
    (f : A -> eff S E B) (k : B -> eff S E C) :
  respects R (bind m (fun a => bind (f a) k)) -> respects R (bind (bind m f) k).
Proof. intros H s r s' Hs. rewrite bind_assoc in Hs. by eapply H. Qed.

(** The changes a development names: [respects R (update f)] for its own [f]. *)
Create HintDb respects.

(** Walks through the operations of a composed one; what remains are the changes. *)
Ltac respects_step :=
  lazymatch goal with
  | |- PreOrder _ => typeclasses eauto
  | |- respects _ (ret _) => apply respects_ret
  | |- respects _ (throw _) => apply respects_throw
  | |- respects _ panic => apply respects_panic
  | |- respects _ (lift _) => apply respects_lift
  | |- respects _ (read _) => apply respects_read
  | |- respects _ (refuse_if _ _) => apply respects_refuse_if
  | |- respects _ (bind _ _) => apply respects_bind; [typeclasses eauto .. | | intros ?]
  | |- respects _ (attempt _) => apply respects_attempt
  | |- respects _ (map_error _ _) => apply respects_map_error
  | |- respects _ (loop _ _ _) => apply respects_loop; [typeclasses eauto .. | intros ?]
  | |- respects _ (if ?b then _ else _) => destruct b
  | |- respects _ (match ?x with _ => _ end) => destruct x
  | |- respects _ _ => solve [eauto with respects]
  end.
Ltac respects := repeat respects_step.

(** ** Operations that return from every state *)

Definition total {S E A} (m : eff S E A) : Prop := forall s, m s <> None.

Section Total.
Context {S : Type}.

Lemma total_ret {E A} (a : A) : total (S := S) (E := E) (ret a).
Proof. by intros s. Qed.
Lemma total_throw {E A} (e : E) : total (S := S) (A := A) (throw e).
Proof. by intros s. Qed.
Lemma total_lift {E A} (x : result E A) : total (S := S) (lift x).
Proof. by intros s. Qed.
Lemma total_read {E A} (f : S -> A) : total (E := E) (read f).
Proof. by intros s. Qed.
Lemma total_modify {E} (f : S -> S) : total (E := E) (modify f).
Proof. by intros s. Qed.

(** What follows has to return only for the results the first operation has. *)
Lemma total_bind_at {E A B} (m : eff S E A) (k : A -> eff S E B) s :
  m s <> None -> (forall a s', m s = Some (Ok a, s') -> k a s' <> None) ->
  bind m k s <> None.
Proof. unfold bind. intros Hm Hk. destruct (m s) as [[[a|e] s']|]; by eauto. Qed.
Lemma total_bind {E A B} (m : eff S E A) (k : A -> eff S E B) :
  total m -> (forall a, total (k a)) -> total (bind m k).
Proof. intros Hm Hk s. apply total_bind_at; [apply Hm | intros; apply Hk]. Qed.
Lemma total_attempt {E F A} (m : eff S E A) : total m -> total (attempt (F := F) m).
Proof. intros Hm s. specialize (Hm s). unfold attempt. by destruct (m s) as [[??]|]. Qed.
Lemma total_map_error {E F A} (f : E -> F) (m : eff S E A) :
  total m -> total (map_error f m).
Proof. intros Hm s. specialize (Hm s). unfold map_error. by destruct (m s) as [[??]|]. Qed.
Lemma total_on_part {T E A} (get : T -> S) (set : S -> T -> T) (m : eff S E A) :
  total m -> total (on_part get set m).
Proof. intros Hm t. specialize (Hm (get t)). unfold on_part. by destruct (m _) as [[??]|]. Qed.
End Total.

Create HintDb total.
#[export] Hint Resolve total_ret total_throw total_lift total_read total_modify : total.

Ltac total_step :=
  lazymatch goal with
  | |- total (ret _) => apply total_ret
  | |- total (throw _) => apply total_throw
  | |- total (lift _) => apply total_lift
  | |- total (read _) => apply total_read
  | |- total (modify _) => apply total_modify
  | |- total (bind _ _) => apply total_bind; [| intros ?]
  | |- total (attempt _) => apply total_attempt
  | |- total (map_error _ _) => apply total_map_error
  | |- total (on_part _ _ _) => apply total_on_part
  | |- total (if ?b then _ else _) => destruct b
  | |- total (match ?x with _ => _ end) => destruct x
  | |- total _ => solve [eauto with total]
  end.
Ltac total := repeat total_step.
