(* ===== verification/Json.v ===== *)
(** * JSON values

    The part of [serde_json::Value] the modelled source observes: the variants,
    field lookup ([get] and the index operator), and the typed accessors.  An
    object is the list of its fields; a key occurs at most once in a value that
    [serde_json] builds, and a lookup returns the first occurrence. *)

From Corelib Require Export SpecFloat.
From S2P Require Import Prelude.

(** [f64]: IEEE binary64 data, without arithmetic. *)
Definition f64 : Type := spec_float.

(** [serde_json::Number]: an unsigned integer, a negative one, or a float. *)
Inductive number : Type :=
| PosInt (n : Z)
| NegInt (n : Z)
| Float (x : f64).

Inductive value : Type :=
| Null
| Bool (b : bool)
| Number (n : number)
| Str (s : string)
| Array (values : list value)
| Object (fields : list (string * value)).

#[export] Instance f64_eq_dec : EqDecision f64.
Proof. unfold f64. solve_decision. Defined.
#[export] Instance number_eq_dec : EqDecision number.
Proof. solve_decision. Defined.

(** [f64::is_finite], and [json!(f64)]: a number that is not finite becomes null. *)
Definition is_finite (x : f64) : bool :=
  match x with S754_zero _ | S754_finite _ _ _ => true | _ => false end.
Definition json_f64 (x : f64) : value := if is_finite x then Number (Float x) else Null.

(** [Value::get] with a string index, and [Value[key]]. *)
Fixpoint field (fields : list (string * value)) (key : string) : option value :=
  match fields with
  | [] => None
  | (k, v) :: fields => if k == key then Some v else field fields key
  end.
Definition get (v : value) (key : string) : option value :=
  match v with Object fields => field fields key | _ => None end.
Definition index (v : value) (key : string) : value := unwrap_or (get v key) Null.

Notation "v .[ key ]" := (index v key)
  (at level 2, key at level 200, left associativity, format "v .[ key ]") : rust_scope.

(** [PartialEq] of values: two objects are equal when they have the same fields,
    in whatever order. *)
Fixpoint value_eqb (v w : value) {struct v} : bool :=
  match v, w with
  | Null, Null => true
  | Bool b, Bool c => Bool.eqb b c
  | Number n, Number m => n == m
  | Str s, Str t => s == t
  | Array vs, Array ws =>
      (fix same vs ws := match vs, ws with
        | [], [] => true
        | v :: vs, w :: ws => value_eqb v w && same vs ws
        | _, _ => false
        end) vs ws
  | Object fs, Object gs =>
      (len fs =? len gs)
      && (fix found fs := match fs with
          | [] => true
          | (k, v) :: fs =>
              is_some_and (value_eqb v) (field gs k) && found fs
          end) fs
  | _, _ => false
  end.

(** [Value::as_str], [as_bool], [as_u64], [as_array], [as_object]. *)
Definition as_str (v : value) : option string :=
  match v with Str s => Some s | _ => None end.
Definition as_bool (v : value) : option bool :=
  match v with Bool b => Some b | _ => None end.
Definition as_u64 (v : value) : option Z :=
  match v with Number (PosInt n) => Some n | _ => None end.
Definition as_array (v : value) : option (list value) :=
  match v with Array vs => Some vs | _ => None end.
Definition as_object (v : value) : option (list (string * value)) :=
  match v with Object fs => Some fs | _ => None end.
Definition is_object (v : value) : bool := is_some (as_object v).
Definition is_null (v : value) : bool :=
  match v with Null => true | _ => false end.
(** [value == true], [value == b] and [value == s] for a boolean and a string. *)
Definition is_true_value (v : value) : bool :=
  match v with Bool true => true | _ => false end.
Definition is_bool (v : value) (b : bool) : bool := as_bool v == Some b.
Definition is_str (v : value) (s : string) : bool := as_str v == Some s.

(** [Map::insert] (a replaced field keeps its place; the order of fields is not
    observed by the modelled code). *)
Fixpoint set_field (fields : list (string * value)) (key : string) (v : value)
    : list (string * value) :=
  match fields with
  | [] => [(key, v)]
  | (k, w) :: fields =>
      if k == key then (k, v) :: fields else (k, w) :: set_field fields key v
  end.
(** [value[key] = v] on an object. *)
Definition set_index (obj : value) (key : string) (v : value) : value :=
  match obj with
  | Object fields => Object (set_field fields key v)
  | Null => Object [(key, v)]
  | other => other
  end.

(** [if let Some(v) = o { object[key] = json!(v) }]. *)
Definition set_some {A} (obj : value) (key : string) (f : A -> value) (o : option A)
    : value :=
  match o with Some a => set_index obj key (f a) | None => obj end.

(** [Map::remove]. *)
Fixpoint remove_field (fields : list (string * value)) (key : string)
    : list (string * value) :=
  match fields with
  | [] => []
  | (k, v) :: fields =>
      if k == key then remove_field fields key else (k, v) :: remove_field fields key
  end.
Definition remove_index (obj : value) (key : string) : value :=
  match obj with Object fields => Object (remove_field fields key) | other => other end.

Lemma field_set_field fields key v : field (set_field fields key v) key = Some v.
Proof.
  induction fields as [|[k w] fields IH]; cbn [set_field field].
  - by rewrite bool_decide_eq_true_2.
  - destruct (decide (k = key)) as [->|Hne].
    + rewrite bool_decide_eq_true_2 by done. cbn [field].
      by rewrite bool_decide_eq_true_2.
    + rewrite bool_decide_eq_false_2 by done. cbn [field].
      by rewrite bool_decide_eq_false_2.
Qed.

Lemma field_set_field_ne fields key key' v :
  key <> key' -> field (set_field fields key v) key' = field fields key'.
Proof.
  intros Hne. induction fields as [|[k w] fields IH]; cbn [set_field field].
  - by rewrite bool_decide_eq_false_2.
  - destruct (decide (k = key)) as [->|Hk].
    + rewrite bool_decide_eq_true_2 by done. cbn [field].
      by rewrite bool_decide_eq_false_2.
    + rewrite (bool_decide_eq_false_2 (k = key)) by done. cbn [field]. by rewrite IH.
Qed.

Lemma as_object_get v fields key :
  as_object v = Some fields -> get v key = field fields key.
Proof. destruct v; simpl; congruence. Qed.

Lemma get_set_index_ne v key key' w :
  key <> key' -> get (set_index v key w) key' = get v key'.
Proof.
  intros Hne. destruct v; try done; cbn [set_index get].
  - cbn [field]. by rewrite bool_decide_eq_false_2.
  - by rewrite field_set_field_ne.
Qed.

Lemma get_set_index v key w : is_object v = true -> get (set_index v key w) key = Some w.
Proof. destruct v; try done. intros _. simpl. by rewrite field_set_field. Qed.

Lemma index_set_index_ne v key key' w :
  key <> key' -> (set_index v key w).[key'] = v.[key'].
Proof. intros Hne. unfold index. by rewrite get_set_index_ne. Qed.

Lemma index_set_index v key w : is_object v = true -> (set_index v key w).[key] = w.
Proof. intros Hv. unfold index. by rewrite get_set_index. Qed.

Lemma is_object_set_index v key w : is_object v = true -> is_object (set_index v key w) = true.
Proof. by destruct v. Qed.
#[export] Hint Resolve is_object_set_index : core.

Lemma get_set_some_ne {A} obj key key' (f : A -> value) o :
  key <> key' -> get (set_some obj key f o) key' = get obj key'.
Proof. destruct o; [apply get_set_index_ne | done]. Qed.
Lemma index_set_some_ne {A} obj key key' (f : A -> value) o :
  key <> key' -> (set_some obj key f o).[key'] = obj.[key'].
Proof. intros Hne. unfold index. by rewrite get_set_some_ne. Qed.
Lemma is_object_set_some {A} obj key (f : A -> value) o :
  is_object obj = true -> is_object (set_some obj key f o) = true.
Proof. destruct o; [apply is_object_set_index | done]. Qed.
#[export] Hint Resolve is_object_set_some : core.

Lemma is_str_true v s : is_str v s = true <-> v = Str s.
Proof. unfold is_str. rewrite bool_decide_eq_true. destruct v; naive_solver. Qed.
Lemma is_bool_true v b : is_bool v b = true <-> v = Bool b.
Proof. unfold is_bool. rewrite bool_decide_eq_true. destruct v; naive_solver. Qed.
Lemma as_str_some v s : as_str v = Some s <-> v = Str s.
Proof. destruct v; naive_solver. Qed.
Lemma as_bool_some v b : as_bool v = Some b <-> v = Bool b.
Proof. destruct v; naive_solver. Qed.
#[export] Hint Rewrite is_str_true is_bool_true as_str_some as_bool_some : reflect_bool.

Lemma field_remove_field fields key key' :
  field (remove_field fields key) key' = if key == key' then None else field fields key'.
Proof.
  induction fields as [|[k v] fields IH]; cbn [remove_field field]; [by case_match|].
  destruct (decide (k = key)) as [->|Hk].
  - rewrite bool_decide_eq_true_2, IH by done. cbn [field]. by case_bool_decide.
  - rewrite bool_decide_eq_false_2 by done. cbn [field]. rewrite IH.
    destruct (decide (k = key')) as [->|Hk'].
    + rewrite !(bool_decide_eq_true_2 (key' = key')) by done.
      by rewrite bool_decide_eq_false_2 by congruence.
    + by rewrite !(bool_decide_eq_false_2 (k = key')) by done.
Qed.

Lemma get_remove_index v key : get (remove_index v key) key = None.
Proof. destruct v; try done. simpl. rewrite field_remove_field. by rewrite bool_decide_eq_true_2. Qed.
Lemma get_remove_index_ne v key key' :
  key <> key' -> get (remove_index v key) key' = get v key'.
Proof.
  intros Hne. destruct v; try done. simpl. rewrite field_remove_field.
  by rewrite bool_decide_eq_false_2.
Qed.
Lemma is_object_remove_index v key : is_object v = true -> is_object (remove_index v key) = true.
Proof. by destruct v. Qed.
#[export] Hint Resolve is_object_remove_index : core.

(** Looks up a field that an insertion or a removal set, or left alone. *)
Ltac lookup_fields :=
  repeat first
    [ rewrite get_set_index by auto
    | rewrite get_set_index_ne by done
    | rewrite get_set_some_ne by done
    | rewrite get_remove_index
    | rewrite get_remove_index_ne by done ].
