(* ===== verification/Protocol.v ===== *)
(** * The Host wire protocol ([crates/dcc-cua-protocol/src/lib.rs])

    Handles and identities on the wire, request envelopes, the traits of a Host
    method, and the length-prefixed frame codec over a byte transport. *)

From S2P Require Import Prelude RustStr Json.

(** ** Limits *)

Definition HOST_PROTOCOL_VERSION : Z := 1.
Definition MAX_JSON_FRAME_BYTES : Z := 4 * 1024 * 1024.
Definition MAX_BINARY_FRAME_BYTES : Z := 64 * 1024 * 1024.
Definition MAX_LOCAL_PATH_CHARS : Z := 4096.
Definition MAX_REQUEST_ID_CHARS : Z := 128.
Definition MAX_SECRET_HANDLE_CHARS : Z := 128.
Definition MAX_HOST_CONNECTIONS : Z := 32.
Definition MAX_SESSIONS_PER_CONNECTION : Z := 16.
Definition MAX_PARALLEL_DISCOVERY_REQUESTS : Z := 32.
Definition DEFAULT_SESSION_IDLE_TIMEOUT_MS : Z := 15 * 60 * 1000.
Definition MIN_SESSION_IDLE_TIMEOUT_MS : Z := 1000.
Definition MAX_SESSION_IDLE_TIMEOUT_MS : Z := 24 * 60 * 60 * 1000.

(** ** Secret handles and local paths *)

Inductive SecretHandleError : Type := SecretHandleInvalid.

(** The characters [.], [_], [-] and [:] that a handle may hold after its first. *)
Definition secret_handle_punctuation (c : Z) : bool :=
  (c =? 46) || (c =? 95) || (c =? 45) || (c =? 58).

Definition validate_secret_handle (handle : string) : result SecretHandleError unit :=
  if str_is_empty handle
     || (MAX_SECRET_HANDLE_CHARS <? chars_count handle)
     || negb (is_some_and is_ascii_alphanumeric (head (chars handle)))
     || negb (all_chars (fun c => is_ascii_alphanumeric c
                                  || secret_handle_punctuation c) handle)
  then Err SecretHandleInvalid
  else Ok tt.

Inductive LocalPathError : Type :=
| PathEmpty | PathTooLong | PathContainsNul | PathNotAbsolute.

Section LocalPaths.
(** [std::path::Path::is_absolute], which depends on the platform. *)
Variable path_is_absolute : string -> bool.

(** The path returned is a borrow of the argument, so the result is [path]. *)
Definition validate_absolute_local_path (path : string)
    : result LocalPathError string :=
  if str_is_empty path then Err PathEmpty
  else if MAX_LOCAL_PATH_CHARS <? chars_count path then Err PathTooLong
  else if any_char (fun c => c =? 0) path then Err PathContainsNul
  else if negb (path_is_absolute path) then Err PathNotAbsolute
  else Ok path.
End LocalPaths.

(** ** Request envelopes *)

Module Envelope.
Record RequestEnvelope : Type := {
  request_id : option string;
  method : string;
  params : value;
}.
End Envelope.

Inductive RequestEnvelopeError : Type :=
| NotObject
| RequestIdNotString
| InvalidRequestId
| MissingMethod
| ParamsNotObject.

Definition validate_request_id (request_id : string) : result RequestEnvelopeError unit :=
  if str_is_empty request_id || (MAX_REQUEST_ID_CHARS <? chars_count request_id)
  then Err InvalidRequestId
  else Ok tt.

Definition from_value (v : value) : result RequestEnvelopeError Envelope.RequestEnvelope :=
  let? object := ok_or (as_object v) NotObject in
  let? request_id :=
    match field object "request_id" with
    | None => Ok None
    | Some v =>
        let? request_id := ok_or (as_str v) RequestIdNotString in
        check? validate_request_id request_id in
        Ok (Some request_id)
    end in
  let? method :=
    ok_or (match field object "method" with
           | Some v =>
               match as_str v with
               | Some m => if str_is_empty m then None else Some m
               | None => None
               end
           | None => None
           end) MissingMethod in
  let params := unwrap_or (field object "params") (Object []) in
  if negb (is_object params) then Err ParamsNotObject
  else Ok {| Envelope.request_id := request_id; Envelope.method := method;
            Envelope.params := params |}.

(** ** Host methods *)

Module Traits.
Record HostMethodTraits : Type := {
  action : bool;
  standalone_snapshot : bool;
  semantic_observation : bool;
  pipeline_safe : bool;
  parallel_discovery : bool;
}.
End Traits.

Definition action_methods : list string :=
  ["execute_action"; "execute_desktop_action"; "browser_click"; "browser_type";
   "browser_pointer"; "browser_navigate"; "browser_set_input_files";
   "browser_dialog"; "clipboard_capture_secret"].
Definition standalone_snapshot_methods : list string :=
  ["snapshot"; "desktop_snapshot"; "desktop_session_snapshot"; "browser_snapshot"].
Definition semantic_observation_methods : list string :=
  ["accessibility_snapshot"; "find"; "get_session_state"; "get_input_state";
   "session_health"; "poll_session_events"; "get_window_state"; "verify_state";
   "wait_for"].
Definition parallel_discovery_methods : list string :=
  ["ping"; "list_apps"; "list_tools"; "list_windows"; "screen_size"; "cursor_position"].
Definition pipeline_safe_extra_methods : list string :=
  ["desktop_snapshot"; "get_window_state"; "snapshot"; "accessibility_snapshot";
   "verify_state"; "get_session_state"; "get_input_state"; "session_health";
   "find"; "browser_snapshot"; "recording_state"; "live_observation_state";
   "clipboard_read"; "desktop_session_snapshot"].

Definition host_method_traits (method : string) : Traits.HostMethodTraits :=
  let parallel := method ∈? parallel_discovery_methods in
  {| Traits.action := method ∈? action_methods;
     Traits.standalone_snapshot := method ∈? standalone_snapshot_methods;
     Traits.semantic_observation := method ∈? semantic_observation_methods;
     Traits.pipeline_safe := parallel || (method ∈? pipeline_safe_extra_methods);
     Traits.parallel_discovery := parallel |}.

(** ** Frames

    A frame is a four-byte big-endian length followed by that many bytes.  The
    transport is an asynchronous byte stream: a reader holds the bytes that will
    arrive before the stream ends, and how it ends; a writer holds the bytes
    written so far and, when the transport breaks, after how many. *)

Inductive ErrorKind : Type := UnexpectedEof | OtherIo (code : Z).

Inductive FrameError : Type :=
| Io (kind : ErrorKind)
| FrameProtocol (message : string).

#[export] Instance ErrorKind_eq_dec : EqDecision ErrorKind.
Proof. solve_decision. Defined.

Module Reader.
Record AsyncRead : Type := {
  arriving : list Z;
  (** [UnexpectedEof] when the peer closes the stream. *)
  ending : ErrorKind;
}.
End Reader.

Module Writer.
Record AsyncWrite : Type := {
  written : list Z;
  breaks_after : option Z;
}.
End Writer.

(** [AsyncReadExt::read_exact]. *)
Definition read_exact (r : Reader.AsyncRead) (n : Z)
    : Reader.AsyncRead * result ErrorKind (list Z) :=
  let bytes := Reader.arriving r in
  if n <=? len bytes
  then ({| Reader.arriving := drop (Z.to_nat n) bytes; Reader.ending := Reader.ending r |},
        Ok (take (Z.to_nat n) bytes))
  else ({| Reader.arriving := []; Reader.ending := Reader.ending r |},
        Err (Reader.ending r)).

(** [AsyncWriteExt::write_all]. *)
Definition write_all (w : Writer.AsyncWrite) (bytes : list Z)
    : Writer.AsyncWrite * result ErrorKind unit :=
  let all := Writer.written w ++ bytes in
  match Writer.breaks_after w with
  | Some limit =>
      if len all <=? limit
      then ({| Writer.written := all; Writer.breaks_after := Some limit |}, Ok tt)
      else ({| Writer.written := take (Z.to_nat limit) all;
               Writer.breaks_after := Some limit |}, Err (OtherIo 32))
  | None => ({| Writer.written := all; Writer.breaks_after := None |}, Ok tt)
  end.

(** [u32::from_be_bytes] and [u32::to_be_bytes]. *)
Definition u32_from_be_bytes (bytes : list Z) : Z :=
  fold_left (fun acc b => acc * 256 + b) bytes 0.
Definition u32_to_be_bytes (n : Z) : list Z :=
  [n / 2 ^ 24 mod 256; n / 2 ^ 16 mod 256; n / 2 ^ 8 mod 256; n mod 256].

Definition frame_length_message (length : Z) : string :=
  "frame length " +:+ show length +:+ " exceeds the configured limit".

Definition read_frame (r : Reader.AsyncRead) (max : Z)
    : Reader.AsyncRead * result FrameError (option (list Z)) :=
  match read_exact r 4 with
  | (r, Err UnexpectedEof) => (r, Ok None)
  | (r, Err kind) => (r, Err (Io kind))
  | (r, Ok prefix) =>
      let length := u32_from_be_bytes prefix in
      if (length =? 0) || (max <? length)
      then (r, Err (FrameProtocol (frame_length_message length)))
      else match read_exact r length with
           | (r, Err kind) => (r, Err (Io kind))
           | (r, Ok body) => (r, Ok (Some body))
           end
  end.

Definition write_frame_unflushed (w : Writer.AsyncWrite) (body : list Z) (max : Z)
    : Writer.AsyncWrite * result FrameError unit :=
  if (len body =? 0) || (max <? len body) || (U32_MAX <? len body)
  then (w, Err (FrameProtocol "frame payload is outside the configured limit"))
  else match write_all w (u32_to_be_bytes (len body)) with
       | (w, Err kind) => (w, Err (Io kind))
       | (w, Ok _) =>
           match write_all w body with
           | (w, Err kind) => (w, Err (Io kind))
           | (w, Ok _) => (w, Ok tt)
           end
       end.

(** Flushing moves no bytes of this transport: [write_frame] differs from
    [write_frame_unflushed] only in calling [flush] on the writer. *)
Definition write_frame (w : Writer.AsyncWrite) (body : list Z) (max : Z)
    : Writer.AsyncWrite * result FrameError unit :=
  match write_frame_unflushed w body max with
  | (w, Err e) => (w, Err e)
  | (w, Ok _) => (w, Ok tt)
  end.

(** Writing and reading a whole conversation. *)
Fixpoint write_frames (w : Writer.AsyncWrite) (bodies : list (list Z)) (max : Z)
    : Writer.AsyncWrite * result FrameError unit :=
  match bodies with
  | [] => (w, Ok tt)
  | body :: bodies =>
      match write_frame w body max with
      | (w, Err e) => (w, Err e)
      | (w, Ok _) => write_frames w bodies max
      end
  end.

Fixpoint read_frames (r : Reader.AsyncRead) (n : nat) (max : Z)
    : Reader.AsyncRead * result FrameError (list (list Z)) :=
  match n with
  | O => (r, Ok [])
  | S n =>
      match read_frame r max with
      | (r, Err e) => (r, Err e)
      | (r, Ok None) => (r, Ok [])
      | (r, Ok (Some body)) =>
          match read_frames r n max with
          | (r, Err e) => (r, Err e)
          | (r, Ok bodies) => (r, Ok (body :: bodies))
          end
      end
  end.

(** ** Properties *)

Lemma u32_be_roundtrip n :
  is_u32 n -> u32_from_be_bytes (u32_to_be_bytes n) = n.
Proof.
  unfold is_u32, U32_MAX. intros Hn. cbn [u32_from_be_bytes u32_to_be_bytes fold_left].
  Z.div_mod_to_equations. lia.
Qed.

Lemma length_u32_to_be_bytes n : length (u32_to_be_bytes n) = 4%nat.
Proof. done. Qed.

Lemma read_exact_app bytes rest ending n :
  n = len bytes ->
  read_exact {| Reader.arriving := bytes ++ rest; Reader.ending := ending |} n
  = ({| Reader.arriving := rest; Reader.ending := ending |}, Ok bytes).
Proof.
  intros ->. unfold read_exact, len. cbn [Reader.arriving Reader.ending].
  rewrite length_app. replace (_ <=? _) with true by lia.
  by rewrite Nat2Z.id, take_app_length, drop_app_length.
Qed.

(** A payload the codec accepts. *)
Definition valid_payload (max : Z) (body : list Z) : Prop :=
  1 <= len body <= max /\ len body <= U32_MAX.

Lemma write_frame_unbroken written body max :
  valid_payload max body ->
  write_frame {| Writer.written := written; Writer.breaks_after := None |} body max
  = ({| Writer.written := written ++ u32_to_be_bytes (len body) ++ body;
        Writer.breaks_after := None |}, Ok tt).
Proof.
  intros [[Hpos Hmax] Hu]. unfold write_frame, write_frame_unflushed, write_all.
  replace (_ || _ || _) with false by lia.
  cbn [Writer.breaks_after Writer.written]. by rewrite <- app_assoc.
Qed.

Lemma read_frame_app body rest ending max :
  valid_payload max body ->
  read_frame {| Reader.arriving := (u32_to_be_bytes (len body) ++ body) ++ rest;
                Reader.ending := ending |} max
  = ({| Reader.arriving := rest; Reader.ending := ending |}, Ok (Some body)).
Proof.
  intros [[Hpos Hmax] Hu]. unfold read_frame. rewrite <- app_assoc.
  rewrite read_exact_app by done.
  rewrite u32_be_roundtrip by (unfold is_u32; lia).
  replace (_ || _) with false by lia. by rewrite read_exact_app.
Qed.

Lemma write_frames_unbroken written bodies max :
  Forall (valid_payload max) bodies ->
  write_frames {| Writer.written := written; Writer.breaks_after := None |} bodies max
  = ({| Writer.written :=
          written ++ concat (map (fun b => u32_to_be_bytes (len b) ++ b) bodies);
        Writer.breaks_after := None |}, Ok tt).
Proof.
  intros H. revert written. induction H as [|body bodies Hb Hbs IH]; intros written;
    cbn [write_frames map concat]; [by rewrite app_nil_r|].
  rewrite write_frame_unbroken by done. rewrite IH. by rewrite <- app_assoc.
Qed.

(** C37: the frame codec is lossless and self-delimiting.  Whatever payloads the
    sender frames one after the other, a receiver with the same limit reads
    exactly those payloads back, in order, and leaves exactly the bytes that
    follow them on the stream. *)
Theorem frames_roundtrip (bodies : list (list Z)) (max : Z) (rest : list Z)
    (ending : ErrorKind) :
  Forall (valid_payload max) bodies ->
  exists sent,
    write_frames {| Writer.written := []; Writer.breaks_after := None |} bodies max
    = (sent, Ok tt) /\
    read_frames {| Reader.arriving := Writer.written sent ++ rest;
                   Reader.ending := ending |} (length bodies) max
    = ({| Reader.arriving := rest; Reader.ending := ending |}, Ok bodies).
Proof.
  intros H. rewrite write_frames_unbroken by done. eexists. split; [done|].
  cbn [Writer.written app].
  induction H as [|body bodies Hb Hbs IH]; cbn [map concat length read_frames]; [done|].
  rewrite <- app_assoc. rewrite read_frame_app by done. by rewrite IH.
Qed.

Lemma frames_roundtrip_witness :
  Forall (valid_payload 10) [[1; 2; 3]; [255]] /\
  exists sent,
    write_frames {| Writer.written := []; Writer.breaks_after := None |}
      [[1; 2; 3]; [255]] 10 = (sent, Ok tt) /\
    read_frames {| Reader.arriving := Writer.written sent ++ [7; 7];
                   Reader.ending := UnexpectedEof |} 2 10
    = ({| Reader.arriving := [7; 7]; Reader.ending := UnexpectedEof |},
       Ok [[1; 2; 3]; [255]]).
Proof.
  assert (Forall (valid_payload 10) [[1; 2; 3]; [255]]) as H.
  { repeat constructor; vm_compute; congruence. }
  split; [exact H | exact (frames_roundtrip _ 10 [7; 7] UnexpectedEof H)].
Defined.

(** the method classes that steer request scheduling cannot overlap unsafely.
    No method that dispatches input is ever pipelined, run in parallel, or
    counted as an observation; and everything run in parallel is pipeline-safe. *)
Theorem action_methods_are_never_pipelined (method : string) :
  let traits := host_method_traits method in
  (Traits.action traits = true ->
     Traits.pipeline_safe traits = false /\ Traits.parallel_discovery traits = false
     /\ Traits.standalone_snapshot traits = false
     /\ Traits.semantic_observation traits = false)
  /\ (Traits.parallel_discovery traits = true -> Traits.pipeline_safe traits = true).
Proof.
  assert (forallb (fun m => let t := host_method_traits m in
      negb (Traits.pipeline_safe t) && negb (Traits.parallel_discovery t)
      && negb (Traits.standalone_snapshot t) && negb (Traits.semantic_observation t))
      action_methods = true) as Htable by (vm_compute; reflexivity).
  rewrite forallb_true in Htable. split.
  - intros H. apply bool_decide_eq_true in H. specialize (Htable _ H).
    cbv beta zeta in Htable. reflect_all. auto.
  - intros H. change (Traits.parallel_discovery (host_method_traits method) = true) in H.
    unfold host_method_traits in *. cbn in *. by rewrite H.
Qed.

(** A witness on a method of the first kind and one of the second. *)
Lemma action_methods_are_never_pipelined_witness :
  Traits.action (host_method_traits "browser_click") = true
  /\ Traits.pipeline_safe (host_method_traits "browser_click") = false
  /\ Traits.pipeline_safe (host_method_traits "ping") = true.
Proof.
  split; [vm_compute; reflexivity|]. split.
  - refine (proj1 (proj1 (action_methods_are_never_pipelined "browser_click") _)).
    vm_compute; reflexivity.
  - refine (proj2 (action_methods_are_never_pipelined "ping") _).
    vm_compute; reflexivity.
Defined.
