(* ===== verification/Continuity.v ===== *)
(** * Chained observations and receipts ([crates/dcc-cua-protocol/src/continuity.rs])

    The bookkeeping of a long-running visual task: which candidate targets are
    pending or completed, and the validation of a batch of actions, each followed
    by the observation that must consume its receipt. *)

From S2P Require Import Prelude RustStr.

(** ** Data *)

Module TargetBinding.
Record TargetBinding : Type := {
  process_id : Z;
  window_handle : Z;
}.
End TargetBinding.

Module ObservationFrame.
Record ObservationFrame : Type := {
  frame_id : string;
  observation_id : string;
  action_evidence_epoch : Z;
  target : TargetBinding.TargetBinding;
  parent_frame_id : option string;
  image_ref : option string;
  semantic_state_id : option string;
}.
End ObservationFrame.

Module ActionReceipt.
Record ActionReceipt : Type := {
  receipt_id : string;
  action_id : string;
  target : TargetBinding.TargetBinding;
  completed : bool;
  post_observation_id : string;
  post_action_evidence_epoch : Z;
  transition_fence : string;
}.
End ActionReceipt.

Module BatchPolicy.
Record BatchPolicy : Type := {
  max_actions : Z;
  abort_on_failure : bool;
}.
End BatchPolicy.

Module ObservationDelta.
Record ObservationDelta : Type := {
  added_candidates : list string;
  removed_candidates : list string;
  changed : bool;
}.
End ObservationDelta.

Module ContinuityState.
Record ContinuityState : Type := {
  latest_frame_id : option string;
  latest_observation_id : option string;
  latest_action_evidence_epoch : option Z;
  pending_candidates : list string;
  completed_targets : list string;
}.
End ContinuityState.

Inductive ChainError : Type :=
| CapacityExceeded
| BatchLimitExceeded
| IncompleteReceipt
| TargetChanged
| ObservationNotChained
| EpochNotAdvanced.

#[export] Instance TargetBinding_eq_dec : EqDecision TargetBinding.TargetBinding.
Proof. solve_decision. Defined.
#[export] Instance ChainError_eq_dec : EqDecision ChainError.
Proof. solve_decision. Defined.

Definition MAX_RETAINED_CANDIDATES : Z := 1024.

(** [ContinuityState::default()]. *)
Definition initial_state : ContinuityState.ContinuityState := {|
  ContinuityState.latest_frame_id := None;
  ContinuityState.latest_observation_id := None;
  ContinuityState.latest_action_evidence_epoch := None;
  ContinuityState.pending_candidates := [];
  ContinuityState.completed_targets := [];
|}.

(** ** Candidates *)

(** The loop over [delta.added_candidates]. *)
Fixpoint add_candidates (completed pending : list string) (added : list string)
    : result ChainError (list string) :=
  match added with
  | [] => Ok pending
  | id :: added =>
      if negb (id ∈? pending) && negb (id ∈? completed)
      then if MAX_RETAINED_CANDIDATES <=? len pending + len completed
           then Err CapacityExceeded
           else add_candidates completed (pending ++ [id]) added
      else add_candidates completed pending added
  end.

Definition apply_observation (self : ContinuityState.ContinuityState)
    (frame : ObservationFrame.ObservationFrame)
    (delta : ObservationDelta.ObservationDelta)
    : ContinuityState.ContinuityState * result ChainError unit :=
  let pending :=
    List.filter (fun id => negb (id ∈? ObservationDelta.removed_candidates delta))
      (ContinuityState.pending_candidates self) in
  match add_candidates (ContinuityState.completed_targets self) pending
          (ObservationDelta.added_candidates delta) with
  | Err e => (self, Err e)
  | Ok pending =>
      ({| ContinuityState.latest_frame_id := Some (ObservationFrame.frame_id frame);
          ContinuityState.latest_observation_id :=
            Some (ObservationFrame.observation_id frame);
          ContinuityState.latest_action_evidence_epoch :=
            Some (ObservationFrame.action_evidence_epoch frame);
          ContinuityState.pending_candidates := pending;
          ContinuityState.completed_targets := ContinuityState.completed_targets self |},
       Ok tt)
  end.

Definition mark_completed (self : ContinuityState.ContinuityState) (target_id : string)
    : ContinuityState.ContinuityState * result ChainError unit :=
  let pending := List.filter (fun id => id != target_id)
                   (ContinuityState.pending_candidates self) in
  let completed := ContinuityState.completed_targets self in
  let retained := len pending in
  let finish completed :=
    ({| ContinuityState.latest_frame_id := ContinuityState.latest_frame_id self;
        ContinuityState.latest_observation_id :=
          ContinuityState.latest_observation_id self;
        ContinuityState.latest_action_evidence_epoch :=
          ContinuityState.latest_action_evidence_epoch self;
        ContinuityState.pending_candidates := pending;
        ContinuityState.completed_targets := completed |}, Ok tt) in
  if negb (target_id ∈? completed)
  then if MAX_RETAINED_CANDIDATES <=? retained + len completed
       then (self, Err CapacityExceeded)
       else finish (completed ++ [target_id])
  else finish completed.

(** ** Metrics *)

Module ContinuityMetrics.
Record ContinuityMetrics : Type := {
  actions : Z;
  observations : Z;
  model_calls : Z;
  input_tokens : Z;
  output_tokens : Z;
  stale_rejections : Z;
  recovery_attempts : Z;
}.
End ContinuityMetrics.

Definition total_tokens (self : ContinuityMetrics.ContinuityMetrics) : Z :=
  saturating_add (ContinuityMetrics.input_tokens self)
    (ContinuityMetrics.output_tokens self).

Definition record_model_call (self : ContinuityMetrics.ContinuityMetrics)
    (input_tokens output_tokens : Z) : ContinuityMetrics.ContinuityMetrics := {|
  ContinuityMetrics.actions := ContinuityMetrics.actions self;
  ContinuityMetrics.observations := ContinuityMetrics.observations self;
  ContinuityMetrics.model_calls := saturating_add (ContinuityMetrics.model_calls self) 1;
  ContinuityMetrics.input_tokens :=
    saturating_add (ContinuityMetrics.input_tokens self) input_tokens;
  ContinuityMetrics.output_tokens :=
    saturating_add (ContinuityMetrics.output_tokens self) output_tokens;
  ContinuityMetrics.stale_rejections := ContinuityMetrics.stale_rejections self;
  ContinuityMetrics.recovery_attempts := ContinuityMetrics.recovery_attempts self;
|}.

(** ** Chains *)

Definition validate_next_observation (receipt : ActionReceipt.ActionReceipt)
    (next : ObservationFrame.ObservationFrame) : result ChainError unit :=
  if negb (ActionReceipt.completed receipt) then Err IncompleteReceipt
  else if ActionReceipt.target receipt != ObservationFrame.target next
  then Err TargetChanged
  else if str_is_empty (ActionReceipt.transition_fence receipt)
  then Err ObservationNotChained
  else if ObservationFrame.parent_frame_id next
          != Some (ActionReceipt.post_observation_id receipt)
  then Err ObservationNotChained
  else match checked_add (ActionReceipt.post_action_evidence_epoch receipt) 1 with
       | None => Err EpochNotAdvanced
       | Some expected_epoch =>
           if ObservationFrame.action_evidence_epoch next != expected_epoch
           then Err EpochNotAdvanced
           else Ok tt
       end.

(** The loop over the steps of a batch, with [previous] as it advances. *)
Fixpoint validate_steps (previous : ObservationFrame.ObservationFrame)
    (steps : list (ActionReceipt.ActionReceipt * ObservationFrame.ObservationFrame))
    : result ChainError unit :=
  match steps with
  | [] => Ok tt
  | (receipt, next) :: steps =>
      if ActionReceipt.post_observation_id receipt
         != ObservationFrame.observation_id previous
      then Err ObservationNotChained
      else if ActionReceipt.target receipt != ObservationFrame.target previous
      then Err TargetChanged
      else check? validate_next_observation receipt next in
           validate_steps next steps
  end.

Definition validate_batch (policy : BatchPolicy.BatchPolicy)
    (initial : ObservationFrame.ObservationFrame)
    (steps : list (ActionReceipt.ActionReceipt * ObservationFrame.ObservationFrame))
    : result ChainError unit :=
  if BatchPolicy.max_actions policy <? len steps then Err BatchLimitExceeded
  else validate_steps initial steps.

(** ** Candidate bookkeeping is consistent *)

Definition well_formed (s : ContinuityState.ContinuityState) : Prop :=
  let pending := ContinuityState.pending_candidates s in
  let completed := ContinuityState.completed_targets s in
  NoDup pending /\ NoDup completed
  /\ (forall id, id ∈ pending -> id ∉ completed)
  /\ len pending + len completed <= MAX_RETAINED_CANDIDATES.

(** One call on the state, whatever it answers. *)
Inductive step (s : ContinuityState.ContinuityState)
    : ContinuityState.ContinuityState -> Prop :=
| step_observe frame delta : step s (fst (apply_observation s frame delta))
| step_complete target_id : step s (fst (mark_completed s target_id)).

Lemma elem_of_filter_bool {A} (f : A -> bool) (l : list A) x :
  x ∈ List.filter f l <-> f x = true /\ x ∈ l.
Proof. rewrite !list_elem_of_In, filter_In. tauto. Qed.

Lemma NoDup_filter_bool {A} (f : A -> bool) (l : list A) :
  NoDup l -> NoDup (List.filter f l).
Proof. rewrite !NoDup_ListNoDup. apply List.NoDup_filter. Qed.

Lemma len_filter_le {A} (f : A -> bool) (l : list A) : len (List.filter f l) <= len l.
Proof. unfold len. pose proof (filter_length_le f l). lia. Qed.

Lemma len_snoc {A} (l : list A) x : len (l ++ [x]) = len l + 1.
Proof. unfold len. rewrite length_app. simpl. lia. Qed.

Lemma add_candidates_ok completed pending added pending' :
  NoDup pending ->
  (forall id, id ∈ pending -> id ∉ completed) ->
  len pending + len completed <= MAX_RETAINED_CANDIDATES ->
  add_candidates completed pending added = Ok pending' ->
  NoDup pending' /\ (forall id, id ∈ pending' -> id ∉ completed)
  /\ len pending' + len completed <= MAX_RETAINED_CANDIDATES.
Proof.
  revert pending. induction added as [|id added IH]; intros pending Hnd Hdis Hcap H;
    cbn [add_candidates] in H; [by inv_ok H|].
  repeat guard_step H; [|by eapply IH]. reflect_all.
  eapply IH in H; [done | | |].
  - apply NoDup_app. split_and!; [done| |apply NoDup_singleton].
    intros x Hx Hx'%list_elem_of_singleton. by subst.
  - intros x [Hx|Hx%list_elem_of_singleton]%elem_of_app; subst; auto.
  - rewrite len_snoc. lia.
Qed.

Lemma step_well_formed s s' : well_formed s -> step s s' -> well_formed s'.
Proof.
  intros (Hp & Hc & Hdis & Hcap) [frame delta | target_id].
  - unfold apply_observation.
    destruct (add_candidates _ _ _) as [pending'|e] eqn:E; simpl; [|done].
    apply add_candidates_ok in E as (? & ? & ?); [done | | |].
    + by apply NoDup_filter_bool.
    + intros id [_ Hid]%elem_of_filter_bool. auto.
    + pose proof (len_filter_le (fun id => negb (id ∈? ObservationDelta.removed_candidates
        delta)) (ContinuityState.pending_candidates s)). lia.
  - unfold mark_completed.
    set (pending := List.filter _ _).
    assert (NoDup pending) as Hp' by by apply NoDup_filter_bool.
    assert (forall id, id ∈ pending -> id ∉ ContinuityState.completed_targets s
              /\ id <> target_id) as Hdis'.
    { intros id [Hne Hid]%elem_of_filter_bool. reflect_all. auto. }
    repeat case_match; reflect_all; [done | |]; split_and!; simpl; try done.
    + apply NoDup_app. split_and!; [done| |apply NoDup_singleton].
      intros x Hx Hx'%list_elem_of_singleton. by subst.
    + intros id Hid [?|?%list_elem_of_singleton]%elem_of_app;
        specialize (Hdis' _ Hid); tauto.
    + rewrite len_snoc. lia.
    + intros id Hid. apply Hdis'. done.
    + pose proof (len_filter_le (fun id => id != target_id)
        (ContinuityState.pending_candidates s)) as Hle. fold pending in Hle. lia.
Qed.

Lemma step_completed_grows s s' :
  step s s' ->
  ContinuityState.completed_targets s ⊆ ContinuityState.completed_targets s'.
Proof.
  intros [frame delta | target_id].
  - unfold apply_observation. by destruct (add_candidates _ _ _).
  - unfold mark_completed. repeat case_match; simpl; set_solver.
Qed.

(** C34: no work is redone or lost track of.  In every state reachable from the
    initial one by any sequence of observations and completions, successful or
    refused, the pending and completed targets are duplicate-free, disjoint and
    together within the retention limit; and a target that was completed at any
    point is never pending again later. *)
Theorem continuity_never_reopens_completed_targets
    (s s' : ContinuityState.ContinuityState) :
  rtc step initial_state s -> rtc step s s' ->
  well_formed s' /\
  forall id, id ∈ ContinuityState.completed_targets s ->
    id ∈ ContinuityState.completed_targets s'
    /\ id ∉ ContinuityState.pending_candidates s'.
Proof.
  intros Hs Hs'.
  assert (well_formed s') as Hwf.
  { assert (well_formed initial_state) as H0.
    { split_and!; [constructor | constructor | set_solver | vm_compute; congruence]. }
    assert (rtc step initial_state s') as H by (etrans; eauto).
    clear Hs Hs'. induction H; eauto using step_well_formed. }
  split; [done|]. intros id Hid.
  assert (id ∈ ContinuityState.completed_targets s') as Hid'.
  { clear Hs Hwf. induction Hs' as [|s0 s1 s2 Hstep _ IH]; [done|].
    apply IH. by apply (step_completed_grows s0). }
  split; [done|]. intros Hpend. by apply (proj1 (proj2 (proj2 Hwf)) id Hpend).
Qed.

(** The frame used by the witnesses below. *)
Definition sample_frame (epoch : Z) (id : string) (parent : option string)
    : ObservationFrame.ObservationFrame := {|
  ObservationFrame.frame_id := id; ObservationFrame.observation_id := id;
  ObservationFrame.action_evidence_epoch := epoch;
  ObservationFrame.target :=
    {| TargetBinding.process_id := 7; TargetBinding.window_handle := 9 |};
  ObservationFrame.parent_frame_id := parent;
  ObservationFrame.image_ref := None; ObservationFrame.semantic_state_id := None |}.

Lemma continuity_never_reopens_completed_targets_witness :
  exists s s',
    rtc step initial_state s /\ rtc step s s'
    /\ ContinuityState.completed_targets s = ["b"]
    /\ ContinuityState.pending_candidates s' = ["a"]
    /\ well_formed s'.
Proof.
  pose (delta := {| ObservationDelta.added_candidates := ["a"; "b"];
                    ObservationDelta.removed_candidates := [];
                    ObservationDelta.changed := true |}).
  pose (f := sample_frame 1 "o1" None).
  pose (s1 := fst (apply_observation initial_state f delta)).
  pose (s2 := fst (mark_completed s1 "b")).
  pose (s3 := fst (apply_observation s2 f delta)).
  assert (rtc step initial_state s2) as H2.
  { eapply rtc_l; [exact (step_observe initial_state f delta)|].
    apply rtc_once. exact (step_complete s1 "b"). }
  assert (rtc step s2 s3) as H3 by (apply rtc_once; exact (step_observe s2 f delta)).
  exists s2, s3. split; [exact H2|]. split; [exact H3|].
  split; [vm_compute; reflexivity|]. split; [vm_compute; reflexivity|].
  exact (proj1 (continuity_never_reopens_completed_targets s2 s3 H2 H3)).
Defined.

(** ** Batches are chained *)

Lemma validate_next_observation_ok receipt next :
  validate_next_observation receipt next = Ok tt <->
  ActionReceipt.completed receipt = true
  /\ ActionReceipt.target receipt = ObservationFrame.target next
  /\ ActionReceipt.transition_fence receipt <> ""
  /\ ObservationFrame.parent_frame_id next
     = Some (ActionReceipt.post_observation_id receipt)
  /\ ObservationFrame.action_evidence_epoch next
     = ActionReceipt.post_action_evidence_epoch receipt + 1
  /\ ActionReceipt.post_action_evidence_epoch receipt < U64_MAX.
Proof.
  unfold validate_next_observation, checked_add. split.
  - intros H. repeat guard_step H; simplify_eq; reflect_all; split_and!; auto; lia.
  - intros (-> & -> & Hf & -> & -> & Hlt). simpl.
    rewrite !bool_decide_eq_true_2 by done. simpl.
    replace (str_is_empty _) with false by (symmetry; by apply str_is_empty_false).
    replace (_ <=? _) with true by lia. by rewrite bool_decide_eq_true_2.
Qed.

(** The observations of a batch in order, the initial one first. *)
Definition batch_frames (initial : ObservationFrame.ObservationFrame)
    (steps : list (ActionReceipt.ActionReceipt * ObservationFrame.ObservationFrame))
    : list ObservationFrame.ObservationFrame := initial :: map snd steps.

Lemma validate_steps_ok previous steps :
  validate_steps previous steps = Ok tt ->
  forall i before receipt after,
    batch_frames previous steps !! i = Some before ->
    steps !! i = Some (receipt, after) ->
    ActionReceipt.post_observation_id receipt = ObservationFrame.observation_id before
    /\ ActionReceipt.target receipt = ObservationFrame.target before
    /\ validate_next_observation receipt after = Ok tt.
Proof.
  revert previous. induction steps as [|[receipt next] steps IH]; intros previous H
    i before r after Hb Hr; [done|].
  cbn [validate_steps] in H. repeat guard_step H. open_ok. reflect_all.
  destruct i as [|i]; simpl in Hb, Hr; simplify_eq; [done|].
  eapply IH; [done| |done]. by destruct i.
Qed.

(** an accepted batch is one unbroken chain on one window.  It respects the
    action limit, every action in it completed behind a transition fence on the
    target of the initial observation, and each observation names as its parent
    the observation the preceding action was issued against. *)
Theorem validated_batch_is_a_chain (policy : BatchPolicy.BatchPolicy)
    (initial : ObservationFrame.ObservationFrame)
    (steps : list (ActionReceipt.ActionReceipt * ObservationFrame.ObservationFrame)) :
  validate_batch policy initial steps = Ok tt ->
  len steps <= BatchPolicy.max_actions policy /\
  forall i before receipt after,
    batch_frames initial steps !! i = Some before ->
    steps !! i = Some (receipt, after) ->
    ActionReceipt.completed receipt = true
    /\ ActionReceipt.transition_fence receipt <> ""
    /\ ObservationFrame.parent_frame_id after
       = Some (ObservationFrame.observation_id before)
    /\ ObservationFrame.target before = ObservationFrame.target initial
    /\ ActionReceipt.target receipt = ObservationFrame.target initial
    /\ ObservationFrame.target after = ObservationFrame.target initial
    /\ ObservationFrame.action_evidence_epoch after
       = ActionReceipt.post_action_evidence_epoch receipt + 1.
Proof.
  intros H. unfold validate_batch in H. guard_step H. reflect_all.
  pose proof (validate_steps_ok _ _ H) as Hchain. split; [done|].
  assert (forall i frame, batch_frames initial steps !! i = Some frame ->
    ObservationFrame.target frame = ObservationFrame.target initial) as Htarget.
  { induction i as [|i IH]; intros frame Hi; [by simplify_eq/=|].
    unfold batch_frames in Hi. simpl in Hi.
    rewrite list_lookup_fmap in Hi. destruct (steps !! i) as [[receipt after]|] eqn:Es;
      simplify_eq/=.
    destruct (batch_frames initial steps !! i) as [before|] eqn:Eb.
    - destruct (Hchain _ _ _ _ Eb Es) as (_ & Ht & Hv%validate_next_observation_ok).
      rewrite <- (IH before) by done. destruct Hv as (_ & Ht' & _). congruence.
    - apply lookup_ge_None in Eb. apply lookup_lt_Some in Es.
      unfold batch_frames in Eb. simpl in Eb. rewrite length_map in Eb. lia. }
  intros i before receipt after Hb Hs.
  destruct (Hchain _ _ _ _ Hb Hs) as (Hpost & Ht & Hv%validate_next_observation_ok).
  destruct Hv as (? & Ht' & ? & ? & ? & _).
  rewrite (Htarget i before) in Ht by done. split_and!; try congruence. by eapply Htarget.
Qed.

(** A receipt consumed by [next] and issued against [previous]. *)
Definition sample_receipt (previous : string) (epoch : Z) : ActionReceipt.ActionReceipt := {|
  ActionReceipt.receipt_id := "r"; ActionReceipt.action_id := "a";
  ActionReceipt.target :=
    {| TargetBinding.process_id := 7; TargetBinding.window_handle := 9 |};
  ActionReceipt.completed := true; ActionReceipt.post_observation_id := previous;
  ActionReceipt.post_action_evidence_epoch := epoch;
  ActionReceipt.transition_fence := "fence" |}.

Definition sample_policy : BatchPolicy.BatchPolicy :=
  {| BatchPolicy.max_actions := 4; BatchPolicy.abort_on_failure := true |}.

Definition sample_steps :
    list (ActionReceipt.ActionReceipt * ObservationFrame.ObservationFrame) :=
  [(sample_receipt "o0" 10, sample_frame 11 "o1" (Some "o0"));
   (sample_receipt "o1" 11, sample_frame 12 "o2" (Some "o1"))].

Lemma validated_batch_is_a_chain_witness :
  validate_batch sample_policy (sample_frame 10 "o0" None) sample_steps = Ok tt
  /\ ObservationFrame.parent_frame_id (sample_frame 12 "o2" (Some "o1")) = Some "o1".
Proof.
  assert (validate_batch sample_policy (sample_frame 10 "o0" None) sample_steps = Ok tt)
    as H by (vm_compute; reflexivity).
  split; [exact H|].
  exact (proj1 (proj2 (proj2
    (proj2 (validated_batch_is_a_chain _ _ _ H) 1%nat
       (sample_frame 11 "o1" (Some "o0")) (sample_receipt "o1" 11)
       (sample_frame 12 "o2" (Some "o1")) eq_refl eq_refl)))).
Defined.

(** the epochs of a batch are tied to the receipts, not to each other: the
    epoch of a receipt is never compared with that of the observation it was
    issued against.  A batch is accepted although its second observation carries
    a strictly older evidence epoch than the one it follows. *)
Theorem validated_batch_epoch_can_regress :
  exists policy initial receipt1 after1 receipt2 after2,
    validate_batch policy initial [(receipt1, after1); (receipt2, after2)] = Ok tt
    /\ ObservationFrame.action_evidence_epoch after1
       < ObservationFrame.action_evidence_epoch initial
    /\ ObservationFrame.action_evidence_epoch after2
       < ObservationFrame.action_evidence_epoch after1.
Proof.
  exists sample_policy, (sample_frame 100 "o0" None),
    (sample_receipt "o0" 10), (sample_frame 11 "o1" (Some "o0")),
    (sample_receipt "o1" 4), (sample_frame 5 "o2" (Some "o1")).
  split; [vm_compute; reflexivity | split; vm_compute; reflexivity].
Qed.
