(* ===== verification/InputState.v ===== *)
(** * Input and target readiness ([crates/dcc-cua-core/src/input_state.rs])

    The data a session publishes about whether input can be sent at all (the
    interactive desktop) and whether its exact target window is available, with
    the functions that read them from the diagnostics of the desktop back end. *)

From S2P Require Import Prelude Json.

(** ** Input readiness *)

Module ComputerUseInputStatus.
Inductive t : Type := Ready | Suspended.
End ComputerUseInputStatus.

Module ComputerUseInputReadiness.
Record ComputerUseInputReadiness : Type := {
  status : ComputerUseInputStatus.t;
  code : string;
  reason : option string;
}.
End ComputerUseInputReadiness.

Definition from_diagnostic (diagnostic : value)
    : ComputerUseInputReadiness.ComputerUseInputReadiness :=
  let ready := is_true_value (index diagnostic "success")
               && is_true_value (index diagnostic "input_ready") in
  let code :=
    unwrap_or
      (if ready then as_str (index diagnostic "code")
       else or_else (as_str (index diagnostic "input_code"))
                    (as_str (index diagnostic "code")))
      (if ready then "interactive_desktop_ready"
       else "interactive_desktop_unavailable") in
  let reason :=
    if ready then None
    else Some (unwrap_or
      (or_else (as_str (index diagnostic "input_message"))
               (as_str (index diagnostic "message")))
      "Windows input surface is unavailable") in
  {| ComputerUseInputReadiness.status :=
       if ready then ComputerUseInputStatus.Ready else ComputerUseInputStatus.Suspended;
     ComputerUseInputReadiness.code := code;
     ComputerUseInputReadiness.reason := reason |}.

Module ComputerUseInputTarget.
Record ComputerUseInputTarget : Type := {
  session_id : string;
  process_id : Z;
  window_handle : Z;
}.
End ComputerUseInputTarget.

Module ComputerUseSessionInputState.
Record ComputerUseSessionInputState : Type := {
  status : ComputerUseInputStatus.t;
  code : string;
  reason : option string;
  observed_at : Z;
  sequence : Z;
  target : ComputerUseInputTarget.ComputerUseInputTarget;
}.

Definition initial (target : ComputerUseInputTarget.ComputerUseInputTarget)
    (readiness : ComputerUseInputReadiness.ComputerUseInputReadiness) (observed_at : Z)
    : ComputerUseSessionInputState := {|
  status := ComputerUseInputReadiness.status readiness;
  code := ComputerUseInputReadiness.code readiness;
  reason := ComputerUseInputReadiness.reason readiness;
  observed_at := observed_at;
  sequence := 1;
  target := target;
|}.
End ComputerUseSessionInputState.

(** ** Target availability *)

Module ComputerUseTargetStatus.
Inductive t : Type := Available | Minimized | Unavailable.
End ComputerUseTargetStatus.

Module ComputerUseTargetAvailability.
Record ComputerUseTargetAvailability : Type := {
  status : ComputerUseTargetStatus.t;
  code : string;
  visible : bool;
  minimized : bool;
  foreground : bool;
}.
End ComputerUseTargetAvailability.

(** A flag under its current name, else under its legacy name, else false. *)
Definition state_flag (state : value) (name legacy : string) : bool :=
  unwrap_or (or_else (as_bool (index state name)) (as_bool (index state legacy))) false.

Definition from_window_state (state : value)
    : ComputerUseTargetAvailability.ComputerUseTargetAvailability :=
  let minimized := state_flag state "minimized" "is_minimized" in
  let visible := state_flag state "visible" "is_on_screen" in
  let foreground := state_flag state "foreground" "is_foreground" in
  {| ComputerUseTargetAvailability.status :=
       if minimized then ComputerUseTargetStatus.Minimized
       else if visible then ComputerUseTargetStatus.Available
       else ComputerUseTargetStatus.Unavailable;
     ComputerUseTargetAvailability.code :=
       match minimized, visible with
       | true, _ => "target_minimized"
       | false, true => "target_available"
       | false, false => "target_unavailable"
       end;
     ComputerUseTargetAvailability.visible := visible;
     ComputerUseTargetAvailability.minimized := minimized;
     ComputerUseTargetAvailability.foreground := foreground |}.

Module ComputerUseSessionTargetState.
Record ComputerUseSessionTargetState : Type := {
  status : ComputerUseTargetStatus.t;
  code : string;
  visible : bool;
  minimized : bool;
  foreground : bool;
  observed_at : Z;
  sequence : Z;
  target : ComputerUseInputTarget.ComputerUseInputTarget;
}.

Definition initial (target : ComputerUseInputTarget.ComputerUseInputTarget)
    (availability : ComputerUseTargetAvailability.ComputerUseTargetAvailability)
    (observed_at : Z) : ComputerUseSessionTargetState := {|
  status := ComputerUseTargetAvailability.status availability;
  code := ComputerUseTargetAvailability.code availability;
  visible := ComputerUseTargetAvailability.visible availability;
  minimized := ComputerUseTargetAvailability.minimized availability;
  foreground := ComputerUseTargetAvailability.foreground availability;
  observed_at := observed_at;
  sequence := 1;
  target := target;
|}.
End ComputerUseSessionTargetState.

(** ** Events *)

Module ComputerUseSessionEventKind.
Inductive t : Type := InputSuspended | InputResumed.
End ComputerUseSessionEventKind.

Module ComputerUseInputResumeRequirements.
Record ComputerUseInputResumeRequirements : Type := {
  automatic_input : bool;
  exact_target_revalidation : bool;
  fresh_observation : bool;
  foreground_or_explicit_activation : bool;
  upstream_session_refresh_may_be_required : bool;
}.

Definition safe_continuation : ComputerUseInputResumeRequirements := {|
  automatic_input := false;
  exact_target_revalidation := true;
  fresh_observation := true;
  foreground_or_explicit_activation := true;
  upstream_session_refresh_may_be_required := true;
|}.
End ComputerUseInputResumeRequirements.

Module ComputerUseSessionEvent.
Record ComputerUseSessionEvent : Type := {
  kind : ComputerUseSessionEventKind.t;
  sequence : Z;
  previous : ComputerUseSessionInputState.ComputerUseSessionInputState;
  current : ComputerUseSessionInputState.ComputerUseSessionInputState;
  resume_requirements :
    option ComputerUseInputResumeRequirements.ComputerUseInputResumeRequirements;
}.
End ComputerUseSessionEvent.

Module ComputerUseSessionTargetEventKind.
Inductive t : Type := TargetMinimized | TargetRestored | TargetUnavailable | TargetAvailable.
End ComputerUseSessionTargetEventKind.

Module ComputerUseTargetRecoveryRequirements.
Record ComputerUseTargetRecoveryRequirements : Type := {
  automatic_input : bool;
  explicit_request_required : bool;
  operation : string;
  exact_target_revalidation : bool;
  fresh_observation : bool;
  foreground_validation : bool;
  blind_retry : bool;
}.

Definition explicit_restore_activate : ComputerUseTargetRecoveryRequirements := {|
  automatic_input := false;
  explicit_request_required := true;
  operation := "restore_activate";
  exact_target_revalidation := true;
  fresh_observation := true;
  foreground_validation := true;
  blind_retry := false;
|}.
End ComputerUseTargetRecoveryRequirements.

Module ComputerUseSessionTargetEvent.
Record ComputerUseSessionTargetEvent : Type := {
  kind : ComputerUseSessionTargetEventKind.t;
  sequence : Z;
  previous : ComputerUseSessionTargetState.ComputerUseSessionTargetState;
  current : ComputerUseSessionTargetState.ComputerUseSessionTargetState;
  recovery_requirements :
    option ComputerUseTargetRecoveryRequirements.ComputerUseTargetRecoveryRequirements;
  continuation_requirements :
    option ComputerUseInputResumeRequirements.ComputerUseInputResumeRequirements;
}.
End ComputerUseSessionTargetEvent.

Inductive ComputerUseSessionEventEnvelope : Type :=
| Input (event : ComputerUseSessionEvent.ComputerUseSessionEvent)
| Target (event : ComputerUseSessionTargetEvent.ComputerUseSessionTargetEvent).

Definition envelope_sequence (self : ComputerUseSessionEventEnvelope) : Z :=
  match self with
  | Input event => ComputerUseSessionEvent.sequence event
  | Target event => ComputerUseSessionTargetEvent.sequence event
  end.

Module ComputerUseSessionEventsPage.
Record ComputerUseSessionEventsPage : Type := {
  after_sequence : Z;
  latest_sequence : Z;
  oldest_available_sequence : option Z;
  resync_required : bool;
  timed_out : bool;
  current_state : ComputerUseSessionInputState.ComputerUseSessionInputState;
  current_target_state : ComputerUseSessionTargetState.ComputerUseSessionTargetState;
  events : list ComputerUseSessionEventEnvelope;
}.
End ComputerUseSessionEventsPage.

#[export] Instance ComputerUseInputStatus_eq_dec : EqDecision ComputerUseInputStatus.t.
Proof. solve_decision. Defined.
#[export] Instance ComputerUseTargetStatus_eq_dec : EqDecision ComputerUseTargetStatus.t.
Proof. solve_decision. Defined.

(** ** Readiness is fail-closed *)

(** Input is reported ready only on two explicit true flags, and a suspended
    input always carries a reason. *)
Lemma from_diagnostic_ready diagnostic :
  ComputerUseInputReadiness.status (from_diagnostic diagnostic)
    = ComputerUseInputStatus.Ready
  <-> index diagnostic "success" = Bool true /\ index diagnostic "input_ready" = Bool true.
Proof.
  unfold from_diagnostic. simpl. split.
  - intros H. destruct (_ && _) eqn:E; [|done]. apply andb_true_iff in E as [H1 H2].
    destruct (index diagnostic "success") as [|[]| | | |]; try done.
    by destruct (index diagnostic "input_ready") as [|[]| | | |].
  - by intros [-> ->].
Qed.

Lemma from_diagnostic_reason diagnostic :
  ComputerUseInputReadiness.reason (from_diagnostic diagnostic) = None
  <-> ComputerUseInputReadiness.status (from_diagnostic diagnostic)
      = ComputerUseInputStatus.Ready.
Proof. unfold from_diagnostic. simpl. by destruct (_ && _). Qed.
