(* ===== verification/SessionEvents.v ===== *)
(** * The bounded session event stream ([crates/dcc-cua-host/src/session_events.rs])

    Every transition of the input readiness or of the target availability of a
    session is published as an event with a sequence number, in one queue of
    bounded capacity.  A client reads the events after its cursor, and is told
    when it must resynchronise because events it has not seen were dropped. *)

From S2P Require Import Prelude Json InputState.

Module InS := ComputerUseSessionInputState.
Module TgS := ComputerUseSessionTargetState.
Module Rdy := ComputerUseInputReadiness.
Module Avl := ComputerUseTargetAvailability.
Module Page := ComputerUseSessionEventsPage.

(** [crate::MAX_SESSION_INPUT_EVENTS]. *)
Definition MAX_SESSION_INPUT_EVENTS : Z := 64.

Module SessionEventQueue.
Record SessionEventQueue : Type := {
  input_current : InS.ComputerUseSessionInputState;
  target_current : TgS.ComputerUseSessionTargetState;
  events : list ComputerUseSessionEventEnvelope;
  latest_sequence : Z;
  restore_activate_available : bool;
  capacity : Z;
}.
End SessionEventQueue.

Module Q := SessionEventQueue.

Definition with_capacity (target : ComputerUseInputTarget.ComputerUseInputTarget)
    (readiness : Rdy.ComputerUseInputReadiness)
    (target_availability : Avl.ComputerUseTargetAvailability)
    (restore_activate_available : bool) (observed_at capacity : Z)
    : Q.SessionEventQueue := {|
  Q.input_current := InS.initial target readiness observed_at;
  Q.target_current := TgS.initial target target_availability observed_at;
  Q.events := [];
  Q.latest_sequence := 1;
  Q.restore_activate_available := restore_activate_available;
  Q.capacity := Z.max capacity 1;
|}.

Definition new_with_restore_capability
    (target : ComputerUseInputTarget.ComputerUseInputTarget)
    (readiness : Rdy.ComputerUseInputReadiness)
    (target_availability : Avl.ComputerUseTargetAvailability)
    (restore_activate_available : bool) (observed_at : Z) : Q.SessionEventQueue :=
  with_capacity target readiness target_availability restore_activate_available
    observed_at MAX_SESSION_INPUT_EVENTS.

(** [while self.events.len() > self.capacity { self.events.pop_front(); }] *)
Fixpoint pop_excess (capacity : Z) (events : list ComputerUseSessionEventEnvelope)
    : list ComputerUseSessionEventEnvelope :=
  match events with
  | [] => []
  | _ :: rest => if capacity <? len events then pop_excess capacity rest else events
  end.

(** The publication of an event, common to the two kinds of observation. *)
Definition publish (self : Q.SessionEventQueue)
    (input_current : InS.ComputerUseSessionInputState)
    (target_current : TgS.ComputerUseSessionTargetState) (sequence : Z)
    (event : ComputerUseSessionEventEnvelope) : Q.SessionEventQueue := {|
  Q.input_current := input_current;
  Q.target_current := target_current;
  Q.events := pop_excess (Q.capacity self) (Q.events self ++ [event]);
  Q.latest_sequence := sequence;
  Q.restore_activate_available := Q.restore_activate_available self;
  Q.capacity := Q.capacity self;
|}.

(** A sample that is not a transition only refreshes the current state. *)
Definition refresh (self : Q.SessionEventQueue)
    (input_current : InS.ComputerUseSessionInputState)
    (target_current : TgS.ComputerUseSessionTargetState) : Q.SessionEventQueue := {|
  Q.input_current := input_current;
  Q.target_current := target_current;
  Q.events := Q.events self;
  Q.latest_sequence := Q.latest_sequence self;
  Q.restore_activate_available := Q.restore_activate_available self;
  Q.capacity := Q.capacity self;
|}.

Definition observe (self : Q.SessionEventQueue)
    (readiness : Rdy.ComputerUseInputReadiness) (observed_at : Z)
    : Q.SessionEventQueue * option ComputerUseSessionEvent.ComputerUseSessionEvent :=
  let previous := Q.input_current self in
  if InS.status previous == Rdy.status readiness
  then (refresh self
          {| InS.status := InS.status previous;
             InS.code := Rdy.code readiness;
             InS.reason := Rdy.reason readiness;
             InS.observed_at := observed_at;
             InS.sequence := InS.sequence previous;
             InS.target := InS.target previous |}
          (Q.target_current self), None)
  else
    let sequence := saturating_add (Q.latest_sequence self) 1 in
    let current :=
      {| InS.status := Rdy.status readiness;
         InS.code := Rdy.code readiness;
         InS.reason := Rdy.reason readiness;
         InS.observed_at := observed_at;
         InS.sequence := sequence;
         InS.target := InS.target previous |} in
    let ready := InS.status current == ComputerUseInputStatus.Ready in
    let event :=
      {| ComputerUseSessionEvent.kind :=
           if ready then ComputerUseSessionEventKind.InputResumed
           else ComputerUseSessionEventKind.InputSuspended;
         ComputerUseSessionEvent.sequence := InS.sequence current;
         ComputerUseSessionEvent.previous := previous;
         ComputerUseSessionEvent.current := current;
         ComputerUseSessionEvent.resume_requirements :=
           if ready then Some ComputerUseInputResumeRequirements.safe_continuation
           else None |} in
    (publish self current (Q.target_current self) sequence (Input event), Some event).

(** The kind of a target transition. *)
Definition target_event_kind (previous current : ComputerUseTargetStatus.t)
    : ComputerUseSessionTargetEventKind.t :=
  match previous, current with
  | _, ComputerUseTargetStatus.Minimized =>
      ComputerUseSessionTargetEventKind.TargetMinimized
  | ComputerUseTargetStatus.Minimized, ComputerUseTargetStatus.Available =>
      ComputerUseSessionTargetEventKind.TargetRestored
  | _, ComputerUseTargetStatus.Available =>
      ComputerUseSessionTargetEventKind.TargetAvailable
  | _, ComputerUseTargetStatus.Unavailable =>
      ComputerUseSessionTargetEventKind.TargetUnavailable
  end.

Definition observe_target (self : Q.SessionEventQueue)
    (availability : Avl.ComputerUseTargetAvailability) (observed_at : Z)
    : Q.SessionEventQueue * option ComputerUseSessionEventEnvelope :=
  let previous := Q.target_current self in
  if TgS.status previous == Avl.status availability
  then (refresh self (Q.input_current self)
          {| TgS.status := TgS.status previous;
             TgS.code := Avl.code availability;
             TgS.visible := Avl.visible availability;
             TgS.minimized := Avl.minimized availability;
             TgS.foreground := Avl.foreground availability;
             TgS.observed_at := observed_at;
             TgS.sequence := TgS.sequence previous;
             TgS.target := TgS.target previous |}, None)
  else
    let sequence := saturating_add (Q.latest_sequence self) 1 in
    let current :=
      {| TgS.status := Avl.status availability;
         TgS.code := Avl.code availability;
         TgS.visible := Avl.visible availability;
         TgS.minimized := Avl.minimized availability;
         TgS.foreground := Avl.foreground availability;
         TgS.observed_at := observed_at;
         TgS.sequence := sequence;
         TgS.target := TgS.target previous |} in
    let event := Target
      {| ComputerUseSessionTargetEvent.kind :=
           target_event_kind (TgS.status previous) (TgS.status current);
         ComputerUseSessionTargetEvent.sequence := sequence;
         ComputerUseSessionTargetEvent.previous := previous;
         ComputerUseSessionTargetEvent.current := current;
         ComputerUseSessionTargetEvent.recovery_requirements :=
           if (TgS.status current == ComputerUseTargetStatus.Minimized)
              && Q.restore_activate_available self
           then Some ComputerUseTargetRecoveryRequirements.explicit_restore_activate
           else None;
         ComputerUseSessionTargetEvent.continuation_requirements :=
           if TgS.status current == ComputerUseTargetStatus.Available
           then Some ComputerUseInputResumeRequirements.safe_continuation
           else None |} in
    (publish self (Q.input_current self) current sequence event, Some event).

(** [refresh_target_availability] with the time it samples. *)
Definition refresh_target_availability (queue : Q.SessionEventQueue)
    (availability : Avl.ComputerUseTargetAvailability) (observed_at_millis : Z)
    : Q.SessionEventQueue * bool :=
  let '(queue, event) := observe_target queue availability observed_at_millis in
  (queue, is_some event).

Definition events_after (self : Q.SessionEventQueue) (sequence : Z)
    : list ComputerUseSessionEventEnvelope :=
  List.filter (fun event => sequence <? envelope_sequence event) (Q.events self).

Definition page_after (self : Q.SessionEventQueue) (after_sequence : Z) (timed_out : bool)
    : Page.ComputerUseSessionEventsPage :=
  let oldest_available_sequence := option_map envelope_sequence (head (Q.events self)) in
  let resync_required :=
    (Q.latest_sequence self <? after_sequence)
    || is_some_and (fun oldest => saturating_add after_sequence 1 <? oldest)
         oldest_available_sequence in
  {| Page.after_sequence := after_sequence;
     Page.latest_sequence := Q.latest_sequence self;
     Page.oldest_available_sequence := oldest_available_sequence;
     Page.resync_required := resync_required;
     Page.timed_out := timed_out && negb resync_required;
     Page.current_state := Q.input_current self;
     Page.current_target_state := Q.target_current self;
     Page.events := events_after self after_sequence |}.

(** ** Abstract specification: the unbounded log

    A run of the queue over a sequence of samples, with the log of everything it
    ever published. *)

Inductive observation : Type :=
| ObserveInput (readiness : Rdy.ComputerUseInputReadiness) (observed_at : Z)
| ObserveTarget (availability : Avl.ComputerUseTargetAvailability) (observed_at : Z).

Definition apply (q : Q.SessionEventQueue) (o : observation)
    : Q.SessionEventQueue * list ComputerUseSessionEventEnvelope :=
  match o with
  | ObserveInput readiness observed_at =>
      let '(q, event) := observe q readiness observed_at in
      (q, match event with Some event => [Input event] | None => [] end)
  | ObserveTarget availability observed_at =>
      let '(q, event) := observe_target q availability observed_at in
      (q, match event with Some event => [event] | None => [] end)
  end.

Fixpoint run (q : Q.SessionEventQueue) (os : list observation)
    : Q.SessionEventQueue * list ComputerUseSessionEventEnvelope :=
  match os with
  | [] => (q, [])
  | o :: os =>
      let '(q, out) := apply q o in
      let '(q, log) := run q os in
      (q, out ++ log)
  end.

(** What a client with an unbounded log would read after a cursor. *)
Definition log_after (log : list ComputerUseSessionEventEnvelope) (sequence : Z)
    : list ComputerUseSessionEventEnvelope :=
  List.filter (fun event => sequence <? envelope_sequence event) log.

(** The queue holds the last [capacity] events of the log, which are numbered
    from 2 without gaps. *)
Definition retains (q : Q.SessionEventQueue)
    (log : list ComputerUseSessionEventEnvelope) : Prop :=
  map envelope_sequence log = seqZ 2 (len log)
  /\ Q.latest_sequence q = 1 + len log
  /\ 1 <= Q.capacity q
  /\ Q.events q = drop (length log - Z.to_nat (Q.capacity q)) log.

Lemma pop_excess_drop capacity l :
  0 <= capacity ->
  pop_excess capacity l = drop (length l - Z.to_nat capacity) l.
Proof.
  intros Hc. induction l as [|e l IH]; [done|]. cbn [pop_excess].
  unfold len. cbn [length]. case_match; reflect_all.
  - rewrite IH.
    replace (S (length l) - Z.to_nat capacity)%nat
      with (S (length l - Z.to_nat capacity)) by lia. done.
  - by replace (S (length l) - Z.to_nat capacity)%nat with 0%nat by lia.
Qed.

Lemma publish_retains q log i t event :
  retains q log -> len log + 2 <= U64_MAX ->
  envelope_sequence event = saturating_add (Q.latest_sequence q) 1 ->
  retains (publish q i t (saturating_add (Q.latest_sequence q) 1) event) (log ++ [event]).
Proof.
  intros (Hseq & Hlatest & Hcap & Hev) Hmax He. unfold retains. simpl.
  assert (saturating_add (Q.latest_sequence q) 1 = 2 + len log) as Hs
    by (unfold saturating_add; lia).
  rewrite Hs in *. unfold len in *. rewrite length_app. cbn [length].
  split_and!; [| lia | lia |].
  - rewrite map_app, Hseq. simpl. rewrite He.
    replace (Z.of_nat (length log + 1)) with (Z.of_nat (length log) + 1) by lia.
    by rewrite seqZ_app by lia.
  - rewrite pop_excess_drop, Hev by lia. rewrite length_app, length_drop. cbn [length].
    destruct (decide (Z.to_nat (Q.capacity q) <= length log)%nat).
    + rewrite drop_app_le by (rewrite length_drop; lia).
      rewrite drop_drop. rewrite drop_app_le by lia. do 2 f_equal. lia.
    + by rewrite !(proj2 (Nat.sub_0_le _ _)) by lia.
Qed.

Lemma apply_retains q log o q' out :
  apply q o = (q', out) -> retains q log -> len log + 2 <= U64_MAX ->
  retains q' (log ++ out) /\ len out <= 1.
Proof.
  intros H Hr Hmax. destruct o as [r at_ | a at_]; cbn [apply] in H.
  - unfold observe in H. destruct (_ == _); simplify_eq/=.
    + by rewrite app_nil_r.
    + split; [by apply publish_retains | done].
  - unfold observe_target in H. destruct (_ == _); simplify_eq/=.
    + by rewrite app_nil_r.
    + split; [by apply publish_retains | done].
Qed.

Lemma run_retains q log os q' out :
  run q os = (q', out) -> retains q log -> len log + len os + 1 <= U64_MAX ->
  retains q' (log ++ out).
Proof.
  revert q log out. induction os as [|o os IH]; intros q log out H Hr Hmax;
    cbn [run] in H; simplify_eq/=; [by rewrite app_nil_r|].
  destruct (apply q o) as [q1 out1] eqn:E1. destruct (run q1 os) as [q2 out2] eqn:E2.
  simplify_eq. unfold len in Hmax. cbn [length] in Hmax.
  eapply apply_retains in E1 as [Hr1 Hout]; [| done | unfold len; lia].
  rewrite app_assoc. eapply IH; [done | done |].
  unfold len in *. rewrite length_app. lia.
Qed.

Lemma log_after_split log c k :
  map envelope_sequence log = seqZ 2 (len log) -> (k <= length log)%nat ->
  Z.of_nat k + 1 <= c -> log_after log c = log_after (drop k log) c.
Proof.
  intros Hseq Hk Hc. unfold log_after. rewrite <- (take_drop k log) at 1.
  rewrite List.filter_app. rewrite (filter_none _ (take k log)); [done|].
  intros e (i & Hi)%list_elem_of_lookup.
  assert (i < k)%nat by (apply lookup_lt_Some in Hi; rewrite length_take in Hi; lia).
  rewrite lookup_take_lt in Hi by done.
  assert (envelope_sequence e = 2 + Z.of_nat i); [|lia].
  apply (f_equal (lookup i)) in Hseq. rewrite list_lookup_fmap, Hi in Hseq.
  simpl in Hseq. apply eq_sym, lookup_seqZ in Hseq. lia.
Qed.

Lemma retains_lookup q log i e :
  retains q log -> log !! i = Some e -> envelope_sequence e = 2 + Z.of_nat i.
Proof.
  intros (Hseq & _) Hi. apply (f_equal (lookup i)) in Hseq.
  rewrite list_lookup_fmap, Hi in Hseq. simpl in Hseq.
  apply eq_sym, lookup_seqZ in Hseq. lia.
Qed.

Lemma elem_of_log_after log c e :
  e ∈ log_after log c <-> c < envelope_sequence e /\ e ∈ log.
Proof.
  unfold log_after. rewrite !list_elem_of_In, filter_In, Z.ltb_lt. tauto.
Qed.

(** A cursor resynchronises exactly when the page would not be the whole
    continuation of the log. *)
Lemma retains_page q log c timed_out :
  retains q log -> 1 + len log <= U64_MAX -> 0 <= c ->
  let page := page_after q c timed_out in
  (Page.resync_required page = false -> Page.events page = log_after log c)
  /\ (Page.resync_required page = true ->
      1 + len log < c \/ c = 0 \/ Page.events page <> log_after log c).
Proof.
  intros Hr Hmax Hc page. destruct (Hr) as (Hseq & Hlatest & Hcap & Hev).
  set (k := (length log - Z.to_nat (Q.capacity q))%nat) in Hev.
  assert (Page.events page = log_after (drop k log) c) as Hpage
    by (unfold page; simpl; unfold events_after; by rewrite Hev).
  rewrite Hpage. unfold len in *.
  destruct (log !! k) as [e|] eqn:Ek.
  - assert (envelope_sequence e = 2 + Z.of_nat k) as He by by eapply retains_lookup.
    pose proof (lookup_lt_Some _ _ _ Ek) as Hklt.
    unfold page. cbn [page_after Page.resync_required]. rewrite Hev.
    rewrite (drop_S _ _ _ Ek). cbn [head option_map is_some_and].
    rewrite He, Hlatest. unfold saturating_add. split; intros Hres; reflect_all.
    + rewrite (drop_S _ _ _ Ek) in *. rewrite <- (drop_S _ _ _ Ek).
      symmetry. apply log_after_split; [done | lia | lia].
    + destruct Hres as [Hres|Hres]; [lia|]. right.
      destruct (decide (c = 0)); [by left|]. right.
      destruct (log !! (k - 1)%nat) as [e'|] eqn:Ek';
        [|apply lookup_ge_None in Ek'; lia].
      pose proof (retains_lookup _ _ _ _ Hr Ek') as He'.
      intros Heq. assert (e' ∈ log_after (drop k log) c) as Hin.
      { rewrite (drop_S _ _ _ Ek), Heq. apply elem_of_log_after.
        split; [lia|]. by eapply list_elem_of_lookup_2. }
      apply elem_of_log_after in Hin as [_ (j & Hj)%list_elem_of_lookup].
      rewrite lookup_drop in Hj. pose proof (retains_lookup _ _ _ _ Hr Hj). lia.
  - apply lookup_ge_None in Ek. assert (log = []) as -> by
      (destruct log; [done | unfold k in Ek; simpl in Ek; lia]).
    split; [by destruct k|]. unfold page. rewrite drop_nil in Hev. simpl. rewrite Hev. simpl.
    rewrite orb_false_r, Hlatest. intros; reflect_all. left. unfold len in *. simpl in *. lia.
Qed.

Lemma with_capacity_retains target readiness availability restore at_ capacity :
  retains (with_capacity target readiness availability restore at_ capacity) [].
Proof. split_and!; simpl; [done | done | lia | done]. Qed.

(** C16: no transition is lost silently.  After any run of samples, the published
    log is numbered from 2 without gaps up to [latest_sequence], the queue keeps
    at most [capacity] events, and the page for a cursor either is exactly the
    log after that cursor, or announces [resync_required]; and it announces it
    only for a cursor from the future, for the initial cursor 0, or when an
    event after the cursor was really dropped. *)
Theorem page_is_complete_or_resync
    (target : ComputerUseInputTarget.ComputerUseInputTarget)
    (readiness : Rdy.ComputerUseInputReadiness)
    (availability : Avl.ComputerUseTargetAvailability)
    (restore : bool) (at_ capacity : Z) (os : list observation)
    (q : Q.SessionEventQueue) (log : list ComputerUseSessionEventEnvelope)
    (c : Z) (timed_out : bool) :
  run (with_capacity target readiness availability restore at_ capacity) os = (q, log) ->
  len os + 1 <= U64_MAX -> is_u64 c ->
  let page := page_after q c timed_out in
  map envelope_sequence log = seqZ 2 (len log)
  /\ Page.latest_sequence page = 1 + len log
  /\ len (Q.events q) <= Z.max capacity 1
  /\ (Page.resync_required page = false -> Page.events page = log_after log c)
  /\ (Page.resync_required page = true ->
      Page.latest_sequence page < c \/ c = 0 \/ Page.events page <> log_after log c).
Proof.
  intros Hrun Hmax [Hc _] page.
  assert (Q.capacity q = Z.max capacity 1 /\ len log <= len os) as [Hcap Hlen].
  { assert (forall os q q' out, run q os = (q', out) ->
      Q.capacity q' = Q.capacity q /\ len out <= len os) as Haux;
      [|by apply Haux in Hrun].
    clear. induction os as [|o os IH]; intros q q' out H; simpl in H; simplify_eq; [done|].
    destruct (apply q o) as [q1 out1] eqn:E1, (run q1 os) as [q2 out2] eqn:E2.
    simplify_eq. apply IH in E2 as [-> Hle].
    unfold len in *. rewrite length_app. cbn [length].
    destruct o; cbn [apply] in E1; [unfold observe in E1 | unfold observe_target in E1];
      destruct (_ == _); simplify_eq/=; split; try done; lia. }
  eapply run_retains in Hrun as Hr;
    [| apply with_capacity_retains | unfold len in *; simpl; lia].
  cbn [app] in Hr. pose proof Hr as (Hseq & Hlatest & _ & Hev).
  destruct (retains_page q log c timed_out Hr) as [H1 H2]; [lia | done |].
  change (Page.latest_sequence page) with (Q.latest_sequence q). rewrite Hlatest.
  split_and!; [done | done | | done | done].
  rewrite Hev, Hcap. unfold len. rewrite length_drop. lia.
Qed.

(** ** Replaying the events *)

(** A client that tracks the two statuses from the event kinds alone. *)
Definition replay_event
    (s : ComputerUseInputStatus.t * ComputerUseTargetStatus.t)
    (e : ComputerUseSessionEventEnvelope)
    : option (ComputerUseInputStatus.t * ComputerUseTargetStatus.t) :=
  let '(i, t) := s in
  match e with
  | Input event =>
      match ComputerUseSessionEvent.kind event, i with
      | ComputerUseSessionEventKind.InputSuspended, ComputerUseInputStatus.Ready =>
          Some (ComputerUseInputStatus.Suspended, t)
      | ComputerUseSessionEventKind.InputResumed, ComputerUseInputStatus.Suspended =>
          Some (ComputerUseInputStatus.Ready, t)
      | _, _ => None
      end
  | Target event =>
      match ComputerUseSessionTargetEvent.kind event, t with
      | ComputerUseSessionTargetEventKind.TargetMinimized,
        (ComputerUseTargetStatus.Available | ComputerUseTargetStatus.Unavailable) =>
          Some (i, ComputerUseTargetStatus.Minimized)
      | ComputerUseSessionTargetEventKind.TargetRestored,
        ComputerUseTargetStatus.Minimized
      | ComputerUseSessionTargetEventKind.TargetAvailable,
        ComputerUseTargetStatus.Unavailable =>
          Some (i, ComputerUseTargetStatus.Available)
      | ComputerUseSessionTargetEventKind.TargetUnavailable,
        (ComputerUseTargetStatus.Available | ComputerUseTargetStatus.Minimized) =>
          Some (i, ComputerUseTargetStatus.Unavailable)
      | _, _ => None
      end
  end.

Definition replay (s : ComputerUseInputStatus.t * ComputerUseTargetStatus.t)
    (log : list ComputerUseSessionEventEnvelope)
    : option (ComputerUseInputStatus.t * ComputerUseTargetStatus.t) :=
  fold_left (fun s e => s ≫= fun s => replay_event s e) log (Some s).

Definition statuses (q : Q.SessionEventQueue)
    : ComputerUseInputStatus.t * ComputerUseTargetStatus.t :=
  (InS.status (Q.input_current q), TgS.status (Q.target_current q)).

Lemma apply_replay q o q' out :
  apply q o = (q', out) -> replay (statuses q) out = Some (statuses q').
Proof.
  intros H. destruct o as [r ? | a ?]; cbn [apply] in H.
  - unfold observe in H. destruct (decide (InS.status (Q.input_current q) = Rdy.status r))
      as [Heq|Hne];
      [rewrite bool_decide_eq_true_2 in H by done
      |rewrite bool_decide_eq_false_2 in H by done]; simplify_eq/=; [done|].
    unfold statuses. simpl. by destruct (InS.status _), (Rdy.status r).
  - unfold observe_target in H.
    destruct (decide (TgS.status (Q.target_current q) = Avl.status a)) as [Heq|Hne];
      [rewrite bool_decide_eq_true_2 in H by done
      |rewrite bool_decide_eq_false_2 in H by done]; simplify_eq/=; [done|].
    unfold statuses. simpl. by destruct (TgS.status _), (Avl.status a).
Qed.

Lemma replay_app s l1 l2 s1 :
  replay s l1 = Some s1 -> replay s (l1 ++ l2) = replay s1 l2.
Proof. unfold replay. intros H. by rewrite fold_left_app, H. Qed.

(** the event stream is a faithful state machine.  Whatever the samples, a
    client that starts from the initial statuses and follows only the event
    kinds always finds the next event to be a legal transition (no repeated
    suspension, no restoration of a window that was not minimized), and ends in
    the statuses the session reports as current. *)
Theorem replaying_events_reproduces_state
    (target : ComputerUseInputTarget.ComputerUseInputTarget)
    (readiness : Rdy.ComputerUseInputReadiness)
    (availability : Avl.ComputerUseTargetAvailability)
    (restore : bool) (at_ capacity : Z) (os : list observation) :
  let '(q, log) :=
    run (with_capacity target readiness availability restore at_ capacity) os in
  replay (Rdy.status readiness, Avl.status availability) log = Some (statuses q).
Proof.
  set (q0 := with_capacity _ _ _ _ _ _).
  replace (Rdy.status readiness, Avl.status availability) with (statuses q0) by done.
  generalize q0. clear. induction os as [|o os IH]; intros q; [done|]. cbn [run].
  destruct (apply q o) as [q1 out] eqn:E. specialize (IH q1).
  destruct (run q1 os) as [q2 log]. apply apply_replay in E.
  by rewrite (replay_app _ _ _ _ E).
Qed.

(** A session on an available window, suspended and resumed once, then minimized. *)
Definition sample_target : ComputerUseInputTarget.ComputerUseInputTarget := {|
  ComputerUseInputTarget.session_id := "s"; ComputerUseInputTarget.process_id := 7;
  ComputerUseInputTarget.window_handle := 9 |}.
Definition sample_readiness (status : ComputerUseInputStatus.t)
    : Rdy.ComputerUseInputReadiness :=
  {| Rdy.status := status; Rdy.code := "c"; Rdy.reason := None |}.
Definition sample_availability (minimized : bool) : Avl.ComputerUseTargetAvailability :=
  from_window_state (Object [("minimized", Bool minimized); ("visible", Bool true)]).
Definition sample_run : Q.SessionEventQueue * list ComputerUseSessionEventEnvelope :=
  run (with_capacity sample_target (sample_readiness ComputerUseInputStatus.Ready)
         (sample_availability false) true 0 2)
    [ObserveInput (sample_readiness ComputerUseInputStatus.Suspended) 1;
     ObserveInput (sample_readiness ComputerUseInputStatus.Ready) 2;
     ObserveInput (sample_readiness ComputerUseInputStatus.Ready) 3;
     ObserveTarget (sample_availability true) 4].

Lemma page_is_complete_or_resync_witness :
  let page := page_after (fst sample_run) 2 false in
  Page.resync_required page = false
  /\ Page.events page = log_after (snd sample_run) 2
  /\ len (Page.events page) = 2
  /\ Page.resync_required (page_after (fst sample_run) 1 false) = true.
Proof.
  split; [vm_compute; reflexivity|].
  split; [|split; vm_compute; reflexivity].
  apply (page_is_complete_or_resync sample_target
    (sample_readiness ComputerUseInputStatus.Ready) (sample_availability false) true 0 2
    [ObserveInput (sample_readiness ComputerUseInputStatus.Suspended) 1;
     ObserveInput (sample_readiness ComputerUseInputStatus.Ready) 2;
     ObserveInput (sample_readiness ComputerUseInputStatus.Ready) 3;
     ObserveTarget (sample_availability true) 4]
    (fst sample_run) (snd sample_run) 2 false).
  - vm_compute; reflexivity.
  - vm_compute; congruence.
  - vm_compute; split; congruence.
  - vm_compute; reflexivity.
Defined.
