(* ===== verification/Errors.v ===== *)
(** * Error contracts ([crates/dcc-cua-core/src/contracts.rs],
    [crates/dcc-cua-host/src/error_contract.rs] and [wire.rs])

    The errors of the core runtime and of the Host, the codes they have on the
    wire, and the correlation of a response with the request it answers. *)

From S2P Require Import Prelude Records RustStr Json Protocol.

(** ** Core errors *)

Module ComputerUseErrorCode.
Inductive t : Type :=
| BackendUnavailable
| OverlayExclusionUnavailable
| NoAccessibilityProvider
| BrowserRefused
| ClipboardRefused
| RecordingRefused
| MissingWindow
| InvalidTarget
| TargetMinimized
| TargetUnavailable
| TargetModalChanged
| StaleObservation
| UserInterrupted
| InvalidAction
| InteractiveDesktopUnavailable
| InputFailed
| SessionRefreshRequired
| CompletionUnknown
| CaptureFailed
| ForegroundActivationRefused.

(** The derived [Debug] rendering. *)
Definition debug (code : t) : string :=
  match code with
  | BackendUnavailable => "BackendUnavailable"
  | OverlayExclusionUnavailable => "OverlayExclusionUnavailable"
  | NoAccessibilityProvider => "NoAccessibilityProvider"
  | BrowserRefused => "BrowserRefused"
  | ClipboardRefused => "ClipboardRefused"
  | RecordingRefused => "RecordingRefused"
  | MissingWindow => "MissingWindow"
  | InvalidTarget => "InvalidTarget"
  | TargetMinimized => "TargetMinimized"
  | TargetUnavailable => "TargetUnavailable"
  | TargetModalChanged => "TargetModalChanged"
  | StaleObservation => "StaleObservation"
  | UserInterrupted => "UserInterrupted"
  | InvalidAction => "InvalidAction"
  | InteractiveDesktopUnavailable => "InteractiveDesktopUnavailable"
  | InputFailed => "InputFailed"
  | SessionRefreshRequired => "SessionRefreshRequired"
  | CompletionUnknown => "CompletionUnknown"
  | CaptureFailed => "CaptureFailed"
  | ForegroundActivationRefused => "ForegroundActivationRefused"
  end.
End ComputerUseErrorCode.

(** ** Error details *)

Module ComputerUseErrorPhase.
Inductive t : Type :=
| PreDispatch
| ActionDispatch
| LocalMutationDispatch
| ActivationDispatch
| UpstreamSessionRefresh
| EvidenceDispatch.

Definition as_str (self : t) : string :=
  match self with
  | PreDispatch => "pre_dispatch"
  | ActionDispatch => "action_dispatch"
  | LocalMutationDispatch => "local_mutation_dispatch"
  | ActivationDispatch => "activation_dispatch"
  | UpstreamSessionRefresh => "upstream_session_refresh"
  | EvidenceDispatch => "evidence_dispatch"
  end.
End ComputerUseErrorPhase.

Module ComputerUseInputState.
Inductive t : Type := NotSent | Sent | Unknown.

Definition as_str (self : t) : string :=
  match self with NotSent => "not_sent" | Sent => "sent" | Unknown => "unknown" end.
End ComputerUseInputState.

Module ComputerUseCompletionState.
Inductive t : Type := Known | Unknown.

Definition as_str (self : t) : string :=
  match self with Known => "known" | Unknown => "unknown" end.
End ComputerUseCompletionState.

Module ComputerUseTargetScope.
Record ComputerUseTargetScope : Type := {
  process_id : option Z;
  window_handle : option Z;
  window_title : option string;
}.

(** The derived [Serialize]. *)
Definition to_value (self : ComputerUseTargetScope) : value :=
  let number o := match o with Some n => Number (PosInt n) | None => Null end in
  Object [("process_id", number (process_id self));
          ("window_handle", number (window_handle self));
          ("window_title",
           match window_title self with Some t => Str t | None => Null end)].
End ComputerUseTargetScope.

#[export] Instance ErrorCode_eq_dec : EqDecision ComputerUseErrorCode.t.
Proof. solve_decision. Defined.
#[export] Instance ErrorPhase_eq_dec : EqDecision ComputerUseErrorPhase.t.
Proof. solve_decision. Defined.
#[export] Instance InputState_eq_dec : EqDecision ComputerUseInputState.t.
Proof. solve_decision. Defined.
#[export] Instance CompletionState_eq_dec : EqDecision ComputerUseCompletionState.t.
Proof. solve_decision. Defined.

Module Phase := ComputerUseErrorPhase.
Module InputSent := ComputerUseInputState.
Module Completion := ComputerUseCompletionState.
Module TargetScope := ComputerUseTargetScope.

(** The diagnostics of the capture and input back ends are carried as JSON. *)
Module ComputerUseErrorDetails.
Record ComputerUseErrorDetails : Type := {
  native_input_fence : option value;
  capture : option value;
  capture_preparation : option value;
  foreground_activation : option value;
  timed_out : option bool;
  phase : option Phase.t;
  action_attempted : option bool;
  focus_mutation_attempted : option bool;
  input_sent : option InputSent.t;
  completion : option Completion.t;
  effect_unknown : option bool;
  local_session_invalidated : option bool;
  session_remains_active : option bool;
  automatic_input : option bool;
  blind_retry : option bool;
  fresh_observation_required : option bool;
  exact_target_revalidation_required : option bool;
  automatic_rebind : option bool;
  explicit_rebind_required : option bool;
  suggested_target : option TargetScope.ComputerUseTargetScope;
  background_delivery_viable : option bool;
  suggested_delivery_mode : option string;
}.

(** The derived [Default]. *)
Definition default : ComputerUseErrorDetails := {|
  native_input_fence := None;
  capture := None;
  capture_preparation := None;
  foreground_activation := None;
  timed_out := None;
  phase := None;
  action_attempted := None;
  focus_mutation_attempted := None;
  input_sent := None;
  completion := None;
  effect_unknown := None;
  local_session_invalidated := None;
  session_remains_active := None;
  automatic_input := None;
  blind_retry := None;
  fresh_observation_required := None;
  exact_target_revalidation_required := None;
  automatic_rebind := None;
  explicit_rebind_required := None;
  suggested_target := None;
  background_delivery_viable := None;
  suggested_delivery_mode := None;
|}.

#[global] Instance ComputerUseErrorDetails_settable : Settable ComputerUseErrorDetails :=
  fun d => {|
  native_input_fence := native_input_fence d;
  capture := capture d;
  capture_preparation := capture_preparation d;
  foreground_activation := foreground_activation d;
  timed_out := timed_out d;
  phase := phase d;
  action_attempted := action_attempted d;
  focus_mutation_attempted := focus_mutation_attempted d;
  input_sent := input_sent d;
  completion := completion d;
  effect_unknown := effect_unknown d;
  local_session_invalidated := local_session_invalidated d;
  session_remains_active := session_remains_active d;
  automatic_input := automatic_input d;
  blind_retry := blind_retry d;
  fresh_observation_required := fresh_observation_required d;
  exact_target_revalidation_required := exact_target_revalidation_required d;
  automatic_rebind := automatic_rebind d;
  explicit_rebind_required := explicit_rebind_required d;
  suggested_target := suggested_target d;
  background_delivery_viable := background_delivery_viable d;
  suggested_delivery_mode := suggested_delivery_mode d;
|}.

(** A field with [skip_serializing_if = "Option::is_none"]. *)
Definition opt_field {A} (name : string) (f : A -> value) (o : option A)
    : list (string * value) :=
  match o with Some a => [(name, f a)] | None => [] end.

(** The derived [Serialize]. *)
Definition to_value (self : ComputerUseErrorDetails) : value :=
  let flag name o := opt_field name Bool o in
  Object
    (opt_field "native_input_fence" id (native_input_fence self)
     ++ opt_field "capture" id (capture self)
     ++ opt_field "capture_preparation" id (capture_preparation self)
     ++ opt_field "foreground_activation" id (foreground_activation self)
     ++ flag "timed_out" (timed_out self)
     ++ opt_field "phase" (fun p => Str (Phase.as_str p)) (phase self)
     ++ flag "action_attempted" (action_attempted self)
     ++ flag "focus_mutation_attempted" (focus_mutation_attempted self)
     ++ opt_field "input_sent" (fun i => Str (InputSent.as_str i)) (input_sent self)
     ++ opt_field "completion" (fun c => Str (Completion.as_str c)) (completion self)
     ++ flag "effect_unknown" (effect_unknown self)
     ++ flag "local_session_invalidated" (local_session_invalidated self)
     ++ flag "session_remains_active" (session_remains_active self)
     ++ flag "automatic_input" (automatic_input self)
     ++ flag "blind_retry" (blind_retry self)
     ++ flag "fresh_observation_required" (fresh_observation_required self)
     ++ flag "exact_target_revalidation_required"
          (exact_target_revalidation_required self)
     ++ flag "automatic_rebind" (automatic_rebind self)
     ++ flag "explicit_rebind_required" (explicit_rebind_required self)
     ++ opt_field "suggested_target" TargetScope.to_value (suggested_target self)
     ++ flag "background_delivery_viable" (background_delivery_viable self)
     ++ opt_field "suggested_delivery_mode" Str (suggested_delivery_mode self)).
End ComputerUseErrorDetails.

Module Details := ComputerUseErrorDetails.

Module ComputerUseError.
Record ComputerUseError : Type := {
  code : ComputerUseErrorCode.t;
  message : string;
  details : option Details.ComputerUseErrorDetails;
}.

Definition new (code : ComputerUseErrorCode.t) (message : string) : ComputerUseError :=
  {| code := code; message := message; details := None |}.

Definition with_details (self : ComputerUseError) (details : Details.ComputerUseErrorDetails)
    : ComputerUseError :=
  {| code := code self; message := message self; details := Some details |}.

Definition to_string (self : ComputerUseError) : string :=
  ComputerUseErrorCode.debug (code self) +:+ ": " +:+ message self.
End ComputerUseError.

(** ** Host errors *)

Module HostProtocolErrorCode.
Inductive t : Type :=
| ProtocolMismatch
| RawInputNotGranted
| AppLaunchNotGranted
| AppTerminateNotGranted
| BrowserInputNotGranted
| BrowserPrepareNotGranted
| BrowserDownloadNotGranted
| ClipboardReadNotGranted
| ClipboardWriteNotGranted
| SecretVaultUnavailable
| SecretNotFound
| SecretCaptureFailed
| TaskAuthorizationRequired
| TaskAuthorizationDenied
| TaskAuthorizationExpired
| TaskAuthorizationRevoked
| RecordingNotGranted
| NativeToolNotGranted
| MenuInvokeNotGranted
| SessionEscalationNotGranted
| SessionLimitReached
| SessionNotFound
| RequestInProgress
| RequestNotFound
| Forbidden
| Unsupported.

Definition as_wire_code (self : t) : string :=
  match self with
  | ProtocolMismatch => "protocol_mismatch"
  | RawInputNotGranted => "raw_input_not_granted"
  | AppLaunchNotGranted => "app_launch_not_granted"
  | AppTerminateNotGranted => "app_terminate_not_granted"
  | BrowserInputNotGranted => "browser_input_not_granted"
  | BrowserPrepareNotGranted => "browser_prepare_not_granted"
  | BrowserDownloadNotGranted => "browser_download_not_granted"
  | ClipboardReadNotGranted => "clipboard_read_not_granted"
  | ClipboardWriteNotGranted => "clipboard_write_not_granted"
  | SecretVaultUnavailable => "secret_vault_unavailable"
  | SecretNotFound => "secret_not_found"
  | SecretCaptureFailed => "secret_capture_failed"
  | TaskAuthorizationRequired => "task_authorization_required"
  | TaskAuthorizationDenied => "task_authorization_denied"
  | TaskAuthorizationExpired => "task_authorization_expired"
  | TaskAuthorizationRevoked => "task_authorization_revoked"
  | RecordingNotGranted => "recording_not_granted"
  | NativeToolNotGranted => "native_tool_not_granted"
  | MenuInvokeNotGranted => "menu_invoke_not_granted"
  | SessionEscalationNotGranted => "session_escalation_not_granted"
  | SessionLimitReached => "session_limit_reached"
  | SessionNotFound => "session_not_found"
  | RequestInProgress => "request_in_progress"
  | RequestNotFound => "request_not_found"
  | Forbidden => "forbidden"
  | Unsupported => "unsupported"
  end.
End HostProtocolErrorCode.

(** An [std::io::Error] is observed through its message only. *)
Module HostError.
Inductive HostError : Type :=
| Io (error : string)
| EndpointHijacked (endpoint : string) (source : string)
| Protocol (message : string)
| CodedProtocol (code : HostProtocolErrorCode.t) (message : string)
| ComputerUse (error : ComputerUseError.ComputerUseError).

Definition coded_protocol (code : HostProtocolErrorCode.t) (message : string) : HostError :=
  CodedProtocol code message.

Definition session_not_found : HostError :=
  coded_protocol HostProtocolErrorCode.SessionNotFound
    "session not found on this Host connection; keep the connection that opened the session alive, or open a new authorized session and take a fresh observation; session IDs and capabilities cannot resume another connection's session".

Definition to_string (self : HostError) : string :=
  match self with
  | Io error => "host transport failed: " +:+ error
  | EndpointHijacked endpoint _ =>
      "host endpoint security failed: " +:+ endpoint
      +:+ " was pre-created before the first Host instance"
  | Protocol message => "host protocol failed: " +:+ message
  | CodedProtocol _ message => "host protocol failed: " +:+ message
  | ComputerUse error => ComputerUseError.to_string error
  end.
End HostError.

Abbreviation hresult := (result HostError.HostError).

(** ** The wire *)

Definition error_code (error : HostError.HostError) : string :=
  match error with
  | HostError.ComputerUse error =>
      match ComputerUseError.code error with
      | ComputerUseErrorCode.StaleObservation => "stale_observation"
      | ComputerUseErrorCode.UserInterrupted => "user_interrupted"
      | ComputerUseErrorCode.InvalidTarget => "invalid_target"
      | ComputerUseErrorCode.TargetMinimized => "target_minimized"
      | ComputerUseErrorCode.TargetUnavailable => "target_unavailable"
      | ComputerUseErrorCode.TargetModalChanged => "target_modal_changed"
      | ComputerUseErrorCode.BrowserRefused => "browser_refused"
      | ComputerUseErrorCode.ClipboardRefused => "clipboard_refused"
      | ComputerUseErrorCode.RecordingRefused => "recording_refused"
      | ComputerUseErrorCode.CaptureFailed => "capture_failed"
      | ComputerUseErrorCode.InteractiveDesktopUnavailable =>
          "interactive_desktop_unavailable"
      | ComputerUseErrorCode.InputFailed => "input_failed"
      | ComputerUseErrorCode.SessionRefreshRequired => "session_refresh_required"
      | ComputerUseErrorCode.CompletionUnknown => "completion_unknown"
      | ComputerUseErrorCode.InvalidAction => "invalid_request"
      | ComputerUseErrorCode.MissingWindow => "target_unavailable"
      | ComputerUseErrorCode.BackendUnavailable => "backend_unavailable"
      | ComputerUseErrorCode.OverlayExclusionUnavailable =>
          "overlay_exclusion_unavailable"
      | ComputerUseErrorCode.NoAccessibilityProvider => "no_accessibility_provider"
      | ComputerUseErrorCode.ForegroundActivationRefused =>
          "foreground_activation_refused"
      end
  | HostError.Io _ | HostError.EndpointHijacked _ _ => "backend_unavailable"
  | HostError.CodedProtocol code _ => HostProtocolErrorCode.as_wire_code code
  | HostError.Protocol _ => "invalid_request"
  end.

Definition error_response (code message : string) : value :=
  Object [("type", Str "error"); ("code", Str code); ("message", Str message)].

Definition host_error_response (error : HostError.HostError) : value :=
  let response := error_response (error_code error) (HostError.to_string error) in
  match error with
  | HostError.ComputerUse error =>
      match ComputerUseError.details error with
      | Some details => set_index response "details" (Details.to_value details)
      | None => response
      end
  | _ => response
  end.

Definition target_wire (target : value) : value :=
  Object [("process_id", index target "pid");
          ("window_handle", index target "window_id");
          ("window_title", index target "title")].

(** The rendering of [RequestEnvelopeError]. *)
Definition envelope_error_to_string (error : RequestEnvelopeError) : string :=
  match error with
  | NotObject => "request envelope must be an object"
  | RequestIdNotString => "request_id must be a string"
  | InvalidRequestId =>
      "request_id must contain 1.." +:+ show MAX_REQUEST_ID_CHARS +:+ " characters"
  | MissingMethod => "request envelope requires a non-empty method"
  | ParamsNotObject => "request params must be an object"
  end.

Definition request_id_from (v : value) : result string (option string) :=
  match get v "request_id" with
  | None => Ok None
  | Some request_id =>
      let? request_id := ok_or (as_str request_id) "request_id must be a string" in
      check? rmap_err envelope_error_to_string (validate_request_id request_id) in
      Ok (Some request_id)
  end.

Definition with_request_id (response : value) (request_id : option string) : value :=
  match request_id with
  | Some request_id => set_index response "request_id" (Str request_id)
  | None => response
  end.

Definition frame_error (error : FrameError) (io_message : ErrorKind -> string)
    : HostError.HostError :=
  match error with
  | Io kind => HostError.Io (io_message kind)
  | FrameProtocol message => HostError.Protocol message
  end.

Section RequestFrames.
(** [serde_json::from_slice] and the derived deserializer of the requests. *)
Context {Request : Type}.
Variable from_slice : list Z -> result string value.
Variable request_from_value : value -> result string Request.

Definition parse_request_frame (frame : list Z)
    : result (option string * string) (option string * Request) :=
  match from_slice frame with
  | Err error => Err (None, error)
  | Ok envelope =>
      match request_id_from envelope with
      | Err error => Err (None, error)
      | Ok request_id =>
          match from_value envelope with
          | Err error => Err (request_id, envelope_error_to_string error)
          | Ok _ =>
              match request_from_value envelope with
              | Ok request => Ok (request_id, request)
              | Err error => Err (request_id, error)
              end
          end
      end
  end.
End RequestFrames.

Section Responses.
(** [serde_json::to_vec]. *)
Variable to_vec : value -> result string (list Z).
(** The message of a transport error. *)
Variable io_message : ErrorKind -> string.

Definition host_write_frame (w : Writer.AsyncWrite) (body : list Z) (max : Z)
    : Writer.AsyncWrite * hresult unit :=
  let '(w, r) := write_frame w body max in
  (w, rmap_err (fun e => frame_error e io_message) r).

Definition host_write_frame_unflushed (w : Writer.AsyncWrite) (body : list Z) (max : Z)
    : Writer.AsyncWrite * hresult unit :=
  let '(w, r) := write_frame_unflushed w body max in
  (w, rmap_err (fun e => frame_error e io_message) r).

Definition host_read_frame (r : Reader.AsyncRead) (max : Z)
    : Reader.AsyncRead * hresult (option (list Z)) :=
  let '(r, res) := read_frame r max in
  (r, rmap_err (fun e => frame_error e io_message) res).

Definition write_json (w : Writer.AsyncWrite) (v : value)
    : Writer.AsyncWrite * hresult unit :=
  match to_vec v with
  | Err error => (w, Err (HostError.Protocol error))
  | Ok body => host_write_frame w body MAX_JSON_FRAME_BYTES
  end.

Definition write_response (w : Writer.AsyncWrite) (v : value)
    (attachment : option (list Z)) : Writer.AsyncWrite * hresult unit :=
  match to_vec v with
  | Err error => (w, Err (HostError.Protocol error))
  | Ok body =>
      match host_write_frame_unflushed w body MAX_JSON_FRAME_BYTES with
      | (w, Err e) => (w, Err e)
      | (w, Ok _) =>
          match attachment with
          | Some bytes => host_write_frame_unflushed w bytes MAX_BINARY_FRAME_BYTES
          | None => (w, Ok tt)
          end
      end
  end.
End Responses.

(** ** Correlation *)

(** The request id a response to the frame carries, whether the frame parsed or
    was rejected. *)
Definition outcome_id {Request}
    (outcome : result (option string * string) (option string * Request)) : option string :=
  match outcome with Ok (id, _) => id | Err (id, _) => id end.

Lemma request_id_from_some v r :
  request_id_from v = Ok (Some r)
  <-> get v "request_id" = Some (Str r) /\ validate_request_id r = Ok tt.
Proof.
  unfold request_id_from. destruct (get v "request_id") as [w|]; [|split; naive_solver].
  split.
  - intros H. open_ok. destruct w; simplify_eq/=; done.
  - intros [[= ->] Hv]. simpl. by rewrite Hv.
Qed.

(** The two decoders of an envelope agree on its request id. *)
Lemma request_id_agrees v e :
  from_value v = Ok e -> request_id_from v = Ok (Envelope.request_id e).
Proof.
  unfold from_value, request_id_from. intros H.
  apply rbind_ok in H as (object & Hobj%ok_or_ok & H).
  rewrite (as_object_get _ object) by done.
  apply rbind_ok in H as (id & Hid & H). apply rbind_ok in H as (method & _ & H).
  cbv zeta in H. apply guard_ok in H as [_ H]. injection H as <-.
  cbn [Envelope.request_id].
  destruct (field object "request_id") as [w|]; [|by simplify_eq].
  destruct (as_str w) as [r|]; simpl in *; [|done].
  destruct (validate_request_id r); by simplify_eq/=.
Qed.

Lemma validate_request_id_ok r :
  validate_request_id r = Ok tt <-> r <> "" /\ chars_count r <= MAX_REQUEST_ID_CHARS.
Proof.
  unfold validate_request_id. split.
  - intros H. guard_step H. reflect_all. auto.
  - intros [Hne Hle]. apply str_is_empty_false in Hne. rewrite Hne. simpl.
    by replace (_ <? _) with false by lia.
Qed.

(** responses are correlated with requests, errors included.  The response to
    a frame carries a request id exactly when the frame is JSON whose [request_id]
    is a string of 1 to 128 characters, and then that very id, whatever makes the
    request fail afterwards; a frame that parses carries the id its envelope
    has; and the peer reads back from the response exactly that id. *)
Theorem responses_are_correlated {Request : Type}
    (from_slice : list Z -> result string value)
    (request_from_value : value -> result string Request)
    (frame : list Z) (fields : list (string * value)) :
  field fields "request_id" = None ->
  let outcome := parse_request_frame from_slice request_from_value frame in
  (forall r, outcome_id outcome = Some r <->
     exists v, from_slice frame = Ok v /\ get v "request_id" = Some (Str r)
               /\ r <> "" /\ chars_count r <= MAX_REQUEST_ID_CHARS)
  /\ (forall id request, outcome = Ok (id, request) ->
        exists v e, from_slice frame = Ok v /\ from_value v = Ok e
                    /\ Envelope.request_id e = id /\ request_from_value v = Ok request)
  /\ request_id_from (with_request_id (Object fields) (outcome_id outcome))
     = Ok (outcome_id outcome).
Proof.
  intros Hnone outcome.
  assert (forall r, outcome_id outcome = Some r <->
     exists v, from_slice frame = Ok v /\ get v "request_id" = Some (Str r)
               /\ r <> "" /\ chars_count r <= MAX_REQUEST_ID_CHARS) as Hid.
  { intros r. setoid_rewrite <- validate_request_id_ok.
    setoid_rewrite <- request_id_from_some.
    unfold outcome, parse_request_frame.
    destruct (from_slice frame) as [v|?]; [|naive_solver].
    split.
    - intros H. exists v. split; [done|].
      destruct (request_id_from v) as [id|]; [|done]. f_equal.
      destruct (from_value v); [destruct (request_from_value v)|]; done.
    - intros (? & [= <-] & ->).
      destruct (from_value v); [destruct (request_from_value v)|]; done. }
  split; [done|]. split.
  - intros id request H. unfold outcome, parse_request_frame in H.
    destruct (from_slice frame) as [v|?] eqn:Ev; [|done].
    destruct (request_id_from v) as [id'|?] eqn:Ei; [|done].
    destruct (from_value v) as [e|?] eqn:Ee; [|done].
    destruct (request_from_value v) as [r|?] eqn:Er; simplify_eq.
    exists v, e. split_and!; [done | done | | done].
    apply request_id_agrees in Ee. congruence.
  - destruct (outcome_id outcome) as [r|] eqn:E.
    + apply request_id_from_some. simpl. rewrite field_set_field. split; [done|].
      destruct (proj1 (Hid r) eq_refl) as (v & _ & _ & H). by apply validate_request_id_ok.
    + unfold request_id_from. simpl. by rewrite Hnone.
Qed.

(** A decoder that reads any frame as the given value. *)
Lemma responses_are_correlated_witness :
  outcome_id (parse_request_frame (Request := unit)
    (fun _ => Ok (Object [("request_id", Str "r-1"); ("params", Null)]))
    (fun _ => Ok tt) []) = Some "r-1"
  /\ request_id_from (with_request_id (error_response "invalid_request" "m") (Some "r-1"))
     = Ok (Some "r-1").
Proof.
  pose proof (responses_are_correlated (Request := unit)
    (fun _ => Ok (Object [("request_id", Str "r-1"); ("params", Null)]))
    (fun _ => Ok tt) []
    [("type", Str "error"); ("code", Str "invalid_request"); ("message", Str "m")]
    eq_refl) as (H & _ & H').
  split; [|vm_compute; reflexivity].
  apply H. eexists. split; [reflexivity|]. vm_compute. split_and!; congruence.
Defined.
