(* ===== verification/TargetPolicy.v ===== *)
(** * Sensitive application identities
    ([crates/dcc-cua-core/src/sensitive_target_policy.rs])

    Which application identities may be launched, observed or authorized. *)

From S2P Require Import Prelude RustStr Errors.

Abbreviation cerror := ComputerUseError.ComputerUseError.
Abbreviation cresult := (result cerror).

Definition SENSITIVE_IDENTITY_MARKERS : list string :=
  ["password"; "credential"; "authentication"; "sign in"; "login"; "terminal";
   "command prompt"; "security"; "consent"].

Definition RESTRICTED_EXECUTABLE_STEMS : list string :=
  ["alacritty"; "bash"; "cmd"; "conhost"; "consent"; "credentialuibroker"; "cscript";
   "fish"; "gdm"; "gdm-password"; "gdm-session-worker"; "gnome-terminal";
   "gnome-terminal-server"; "konsole"; "lightdm"; "login"; "loginwindow"; "logonui";
   "lsass"; "mintty"; "mshta"; "node"; "nodejs"; "powershell"; "pwsh"; "regsvr32";
   "rundll32"; "sh"; "sddm"; "terminal"; "wezterm"; "winlogon"; "windowsterminal";
   "wscript"; "wsl"; "wt"; "xterm"; "zsh"].

Definition invalid_target (message : string) : ComputerUseError.ComputerUseError :=
  ComputerUseError.new ComputerUseErrorCode.InvalidTarget message.

(** The quotes stripped around an identity, and the path separators. *)
Definition is_quote (c : Z) : bool := (c =? 39) || (c =? 34).
Definition is_path_separator (a : ascii) : bool :=
  (byte_of a =? 47) || (byte_of a =? 92).

(** [rsplit(..).next()] is the last piece. *)
Definition executable_stem (identity : string) : string :=
  let leaf := List.last (split_on is_path_separator (trim_matches is_quote identity)) "" in
  unwrap_or (or_else (strip_suffix ".exe" leaf) (strip_suffix ".app" leaf)) leaf.

Definition is_python_interpreter (stem : string) : bool :=
  match strip_prefix "python" stem with
  | None => false
  | Some version =>
      str_is_empty version || (version == "w")
      || all_chars (fun c => is_ascii_digit c || (c =? 46))
           (unwrap_or (strip_prefix "w" version) version)
  end.

Definition validate_application_identity (identity : string)
    (normal_login_authorized : bool) : cresult unit :=
  let lowercase := to_ascii_lowercase identity in
  let stem := executable_stem lowercase in
  let compact := filter_chars is_ascii_alphanumeric lowercase in
  if (stem ∈? RESTRICTED_EXECUTABLE_STEMS)
     || contains "windowsterminal" compact
     || contains "credentialuibroker" compact
     || contains "loginwindow" compact
     || is_python_interpreter stem
     || existsb (fun marker => contains marker lowercase)
          ["security"; "consent"; "authentication"]
     || (negb normal_login_authorized
         && existsb (fun marker => contains marker lowercase) SENSITIVE_IDENTITY_MARKERS)
  then Err (invalid_target
    "system, terminal, command interpreter, authentication, password, and security applications are not allowed")
  else Ok tt.

Definition validate_sensitive_application_identity (identity : string) : cresult unit :=
  validate_application_identity identity false.

Definition validate_observed_application_identity (identity : string) : cresult unit :=
  let identity := trim identity in
  if str_is_empty identity || eq_ignore_ascii_case identity "native-window"
  then Err (invalid_target "target application identity could not be verified")
  else validate_sensitive_application_identity identity.

Definition validate_launch_application_identity (identity : string) : cresult unit :=
  let identity := trim identity in
  if str_is_empty identity
  then Err (invalid_target "launch application identity is empty")
  else validate_sensitive_application_identity identity.

Definition validate_authorized_application_identity (identity : string) : cresult unit :=
  let identity := trim identity in
  if str_is_empty identity || eq_ignore_ascii_case identity "native-window"
  then Err (invalid_target "target application identity could not be verified")
  else validate_application_identity identity true.

(** ** Properties *)

(** The verdict depends on the identity only up to ASCII case. *)
Lemma validate_application_identity_case identity authorized :
  validate_application_identity (to_ascii_lowercase identity) authorized
  = validate_application_identity identity authorized.
Proof. unfold validate_application_identity. by rewrite to_ascii_lowercase_idemp. Qed.

Lemma restricted_stem_rejected identity authorized :
  executable_stem (to_ascii_lowercase identity) ∈ RESTRICTED_EXECUTABLE_STEMS ->
  validate_application_identity identity authorized
  = Err (invalid_target
    "system, terminal, command interpreter, authentication, password, and security applications are not allowed").
Proof.
  intros H. unfold validate_application_identity.
  by rewrite (bool_decide_eq_true_2 _ H).
Qed.

Lemma sensitive_implies_authorized identity :
  validate_application_identity identity false = Ok tt ->
  validate_application_identity identity true = Ok tt.
Proof.
  unfold validate_application_identity. intros H. guard_step H.
  apply orb_false_iff in Heqb as [-> _]. done.
Qed.

(** no authorization unlocks a command interpreter or a credential surface.
    An identity whose executable (its last path component, quotes and a [.exe]
    or [.app] extension removed, in any case) is restricted is rejected by every
    policy; and what may be launched or observed is always a subset of what a
    login authorization may reach, which never includes an unverifiable
    identity. *)
Theorem restricted_targets_are_never_allowed (identity : string) :
  (executable_stem (to_ascii_lowercase (trim identity)) ∈ RESTRICTED_EXECUTABLE_STEMS ->
     is_err (validate_observed_application_identity identity) = true
     /\ is_err (validate_launch_application_identity identity) = true
     /\ is_err (validate_authorized_application_identity identity) = true)
  /\ (validate_observed_application_identity identity = Ok tt ->
      validate_authorized_application_identity identity = Ok tt
      /\ validate_launch_application_identity identity = Ok tt)
  /\ (validate_authorized_application_identity identity = Ok tt ->
      trim identity <> "" /\ to_ascii_lowercase (trim identity) <> "native-window").
Proof.
  unfold validate_observed_application_identity, validate_launch_application_identity,
    validate_authorized_application_identity, validate_sensitive_application_identity.
  split_and!.
  - intros H. rewrite !restricted_stem_rejected by done.
    split_and!; by destruct (_ || _) || destruct (str_is_empty _).
  - intros H. guard_step H. apply orb_false_iff in Heqb as [Hempty Hnative].
    split; [by apply sensitive_implies_authorized|]. by rewrite Hempty.
  - intros H. guard_step H. unfold eq_ignore_ascii_case in Heqb. reflect_all.
    split; [done|]. by replace "native-window" with (to_ascii_lowercase "native-window").
Qed.

Lemma restricted_targets_are_never_allowed_witness :
  is_err (validate_authorized_application_identity
            " C:\Windows\System32\CMD.exe ") = true
  /\ validate_authorized_application_identity "maya.exe" = Ok tt
  /\ validate_authorized_application_identity "Sign In Helper" = Ok tt
  /\ is_err (validate_observed_application_identity "Sign In Helper") = true.
Proof.
  split; [|split; [|split; vm_compute; reflexivity]].
  - refine (proj2 (proj2 (proj1 (restricted_targets_are_never_allowed _) _))).
    apply (proj1 (bool_decide_eq_true _)). vm_compute. reflexivity.
  - refine (proj1 (proj1 (proj2 (restricted_targets_are_never_allowed _)) _)).
    vm_compute. reflexivity.
Defined.
