(* ===== verification/Contracts.v ===== *)
(** * Payloads of the core's contracts ([crates/dcc-cua-core/src/contracts.rs])

    The requests that the Host decodes and hands to the core session, with the checks
    they carry: selectors and bounds of a window wait, the frame of a window, a menu
    path, a zoom region, the clipboard, a live observation and the start of a session. *)

From S2P Require Import Prelude RustStr Json Errors TargetPolicy.

(** ** [f64]: the IEEE operations of the standard library's specification *)

Definition f64_prec : Z := 53.
Definition f64_emax : Z := 1024.
Definition f64_of_Z (n : Z) : f64 := binary_normalize f64_prec f64_emax n 0 false.
Definition f64_zero : f64 := S754_zero false.
Definition f64_lt (a b : f64) : bool := SFltb a b.
Definition f64_le (a b : f64) : bool := SFleb a b.

Definition contract_error {A} (code : ComputerUseErrorCode.t) (message : string)
    : cresult A :=
  Err (ComputerUseError.new code message).

(** [if b { return Err(..) }] of a check without a value. *)
Definition contract_check (b : bool) (code : ComputerUseErrorCode.t) (message : string)
    : cresult unit :=
  if b then contract_error code message else Ok tt.

(** ** Targets and windows *)

Definition MAX_WINDOW_QUERY_CHARS : Z := 512.
Definition MAX_WINDOW_WAIT_TIMEOUT_MS : Z := 30000.
Definition MAX_WINDOW_WAIT_INTERVAL_MS : Z := 1000.

Definition validate_target_scope (self : TargetScope.ComputerUseTargetScope)
    : cresult unit :=
  if is_none (TargetScope.process_id self) && is_none (TargetScope.window_handle self)
     && is_none (TargetScope.window_title self)
  then contract_error ComputerUseErrorCode.MissingWindow
    "Computer Use requires an exact process_id, window_handle, or window_title"
  else contract_check
    (is_some_and (fun title =>
       str_is_empty title || (MAX_WINDOW_QUERY_CHARS <? chars_count title))
       (TargetScope.window_title self))
    ComputerUseErrorCode.InvalidTarget
    ("window_title must contain 1.." +:+ show MAX_WINDOW_QUERY_CHARS +:+ " characters").

Module ComputerUseSessionStartRequest.
Record ComputerUseSessionStartRequest : Type := {
  activate_before : bool;
  indicator_motion : value;
}.
End ComputerUseSessionStartRequest.

Module StartRequest := ComputerUseSessionStartRequest.

Definition validate_for_scope (self : StartRequest.ComputerUseSessionStartRequest)
    (scope : TargetScope.ComputerUseTargetScope) : cresult unit :=
  contract_check (StartRequest.activate_before self
      && (is_none (TargetScope.process_id scope) || is_none (TargetScope.window_handle scope)))
    ComputerUseErrorCode.InvalidTarget
    "activate_before requires an exact process_id and window_handle".

Module ComputerUseWindowQuery.
Record ComputerUseWindowQuery : Type := {
  app : option string;
  process_id : option Z;
  window_handle : option Z;
  window_title : option string;
  on_screen_only : bool;
}.
End ComputerUseWindowQuery.

Module WindowQuery := ComputerUseWindowQuery.

Definition validate_selectors (self : WindowQuery.ComputerUseWindowQuery) : cresult unit :=
  check? contract_check
    (is_some_and str_is_empty (WindowQuery.app self)
     || is_some_and str_is_empty (WindowQuery.window_title self))
    ComputerUseErrorCode.InvalidTarget "window query selectors cannot be empty" in
  try_each (fun '(name, selector) => contract_check
      (is_some_and (fun s => MAX_WINDOW_QUERY_CHARS <? chars_count s) selector)
      ComputerUseErrorCode.InvalidTarget
      (name +:+ " exceeds " +:+ show MAX_WINDOW_QUERY_CHARS +:+ " characters"))
    [("app", WindowQuery.app self); ("window_title", WindowQuery.window_title self)].

Definition validate_window_query (self : WindowQuery.ComputerUseWindowQuery)
    : cresult unit :=
  check? validate_selectors self in
  contract_check
    (is_none (WindowQuery.app self) && is_none (WindowQuery.process_id self)
     && is_none (WindowQuery.window_handle self) && is_none (WindowQuery.window_title self))
    ComputerUseErrorCode.MissingWindow
    "window query requires app, process_id, window_handle, or window_title".

Definition matches_window (self : WindowQuery.ComputerUseWindowQuery) (window : value)
    : bool :=
  is_none_or (fun app =>
      is_some_and (fun name => eq_ignore_ascii_case name app)
        (as_str window.["app_name"])) (WindowQuery.app self)
  && is_none_or (fun pid => value_eqb window.["pid"] (Number (PosInt pid)))
       (WindowQuery.process_id self)
  && is_none_or (fun handle => value_eqb window.["window_id"] (Number (PosInt handle)))
       (WindowQuery.window_handle self)
  && is_none_or (fun title => as_str window.["title"] == Some title)
       (WindowQuery.window_title self).

Module ComputerUseWindowWaitRequest.
Record ComputerUseWindowWaitRequest : Type := {
  query : WindowQuery.ComputerUseWindowQuery;
  timeout_ms : option Z;
  interval_ms : option Z;
}.
End ComputerUseWindowWaitRequest.

Module WindowWait := ComputerUseWindowWaitRequest.

(** The timeout and the interval, in milliseconds. *)
Definition limits (self : WindowWait.ComputerUseWindowWaitRequest) : cresult (Z * Z) :=
  check? validate_window_query (WindowWait.query self) in
  Ok (Z.min (unwrap_or (WindowWait.timeout_ms self) 5000) MAX_WINDOW_WAIT_TIMEOUT_MS,
      Z.min (Z.max (unwrap_or (WindowWait.interval_ms self) 100) 10)
        MAX_WINDOW_WAIT_INTERVAL_MS).

(** ** Operations on a window *)

Module ComputerUseWindowFrameRequest.
Record ComputerUseWindowFrameRequest : Type := {
  x : f64;
  y : f64;
  width : f64;
  height : f64;
}.
End ComputerUseWindowFrameRequest.

Module WindowFrame := ComputerUseWindowFrameRequest.

Definition validate_window_frame (self : WindowFrame.ComputerUseWindowFrameRequest)
    : cresult unit :=
  contract_check
    (negb (forallb is_finite [WindowFrame.x self; WindowFrame.y self;
                              WindowFrame.width self; WindowFrame.height self])
     || f64_lt (WindowFrame.width self) (f64_of_Z 1)
     || f64_lt (WindowFrame.height self) (f64_of_Z 1))
    ComputerUseErrorCode.InvalidAction
    "window frame coordinates must be finite and dimensions must be at least 1".

Definition MAX_MENU_PATH_SEGMENTS : Z := 16.
Definition MAX_MENU_PATH_SEGMENT_CHARS : Z := 200.

Module ComputerUseMenuRequest.
Record ComputerUseMenuRequest : Type := { path : list string }.
End ComputerUseMenuRequest.

Module Menu := ComputerUseMenuRequest.

Definition validate_menu_request (self : Menu.ComputerUseMenuRequest) : cresult unit :=
  contract_check
    (match Menu.path self with [] => true | _ => false end
     || (MAX_MENU_PATH_SEGMENTS <? len (Menu.path self))
     || existsb (fun segment => str_is_empty (trim segment)
                   || (MAX_MENU_PATH_SEGMENT_CHARS <? chars_count segment))
          (Menu.path self))
    ComputerUseErrorCode.InvalidAction
    ("menu path requires 1.." +:+ show MAX_MENU_PATH_SEGMENTS
     +:+ " non-empty segments of at most " +:+ show MAX_MENU_PATH_SEGMENT_CHARS
     +:+ " characters").

Module ComputerUseZoomRequest.
Record ComputerUseZoomRequest : Type := {
  observation_id : string;
  x1 : f64;
  y1 : f64;
  x2 : f64;
  y2 : f64;
}.
End ComputerUseZoomRequest.

Module Zoom := ComputerUseZoomRequest.

Module ComputerUseClipboardWriteRequest.
Record ComputerUseClipboardWriteRequest : Type := {
  text : option string;
  image_path : option string;
  file_path : option string;
}.
End ComputerUseClipboardWriteRequest.

Module ClipboardWriteRequest := ComputerUseClipboardWriteRequest.

Module ComputerUseRecordingStartRequest.
Record ComputerUseRecordingStartRequest : Type := {
  output_dir : string;
  record_video : bool;
}.
End ComputerUseRecordingStartRequest.

Module RecStart := ComputerUseRecordingStartRequest.

Definition DEFAULT_LIVE_OBSERVATION_FPS : Z := 10.
Definition MAX_LIVE_OBSERVATION_FPS : Z := 30.
Definition DEFAULT_LIVE_OBSERVATION_MAX_DIMENSION : Z := 1568.
Definition MIN_LIVE_OBSERVATION_MAX_DIMENSION : Z := 256.
Definition MAX_LIVE_OBSERVATION_MAX_DIMENSION : Z := 4096.

Module ComputerUseLiveObservationStartRequest.
Record ComputerUseLiveObservationStartRequest : Type := { fps : Z; max_dimension : Z }.

Definition default : ComputerUseLiveObservationStartRequest :=
  {| fps := DEFAULT_LIVE_OBSERVATION_FPS;
     max_dimension := DEFAULT_LIVE_OBSERVATION_MAX_DIMENSION |}.
End ComputerUseLiveObservationStartRequest.

Module LiveStart := ComputerUseLiveObservationStartRequest.

Definition validate_live_start (self : LiveStart.ComputerUseLiveObservationStartRequest)
    : cresult unit :=
  check? contract_check
    (negb ((1 <=? LiveStart.fps self) && (LiveStart.fps self <=? MAX_LIVE_OBSERVATION_FPS)))
    ComputerUseErrorCode.InvalidAction
    ("live observation fps must be 1..=" +:+ show MAX_LIVE_OBSERVATION_FPS) in
  contract_check
    (negb ((MIN_LIVE_OBSERVATION_MAX_DIMENSION <=? LiveStart.max_dimension self)
           && (LiveStart.max_dimension self <=? MAX_LIVE_OBSERVATION_MAX_DIMENSION)))
    ComputerUseErrorCode.InvalidAction
    ("live observation max_dimension must be " +:+ show MIN_LIVE_OBSERVATION_MAX_DIMENSION
     +:+ "..=" +:+ show MAX_LIVE_OBSERVATION_MAX_DIMENSION).

(** ** What the checks establish *)

(** A window wait is bounded whatever it was asked for. *)
Lemma limits_bounded self timeout interval :
  limits self = Ok (timeout, interval) ->
  timeout <= MAX_WINDOW_WAIT_TIMEOUT_MS /\ 10 <= interval <= MAX_WINDOW_WAIT_INTERVAL_MS.
Proof.
  unfold limits. destruct (validate_window_query _); [|done]. simpl.
  intros H. injection H as <- <-. unfold MAX_WINDOW_WAIT_TIMEOUT_MS, MAX_WINDOW_WAIT_INTERVAL_MS.
  lia.
Qed.
