(* ===== verification/SessionHealth.v ===== *)
(** * The pre-input health check ([crates/dcc-cua-core/src/session_health.rs])

    Before input is dispatched, a session is evaluated: input readiness, target
    state, interruption, and, when the policy asks for it, the health and the
    progress of the recording.  Input is safe only when no blocker is found. *)

From S2P Require Import Prelude RustStr Json InputState.

(** ** Action evidence epochs ([contracts.rs]) *)

Module ActionEvidenceEpoch.
Record ActionEvidenceEpoch : Type := Epoch { value : Z }.

Definition default : ActionEvidenceEpoch := Epoch 0.

(** [None] is the panic of [expect("action evidence epoch exhausted")]. *)
Definition advanced (self : ActionEvidenceEpoch) : option ActionEvidenceEpoch :=
  option_map Epoch (checked_add (value self) 1).

(** The lowercase hexadecimal digit of [0 <= d < 16]. *)
Definition hex_digit (d : Z) : ascii :=
  ascii_of (if d <? 10 then 48 + d else 87 + d).

(** [{:016x}]: the 16 hexadecimal digits of a [u64]. *)
Fixpoint hex_digits (width : nat) (n : Z) : string :=
  match width with
  | O => ""
  | S width => hex_digits width (n / 16) +:+ String (hex_digit (n mod 16)) ""
  end.

Definition opaque_token (self : ActionEvidenceEpoch) : string :=
  "action-evidence-v1:" +:+ hex_digits 16 (value self).
End ActionEvidenceEpoch.

(** ** Data *)

Module ComputerUseRecordingProgressLane.
Inductive t : Type := Trajectory | Video.
End ComputerUseRecordingProgressLane.

Module Fingerprint.
Record ComputerUseRecordingProgressFingerprint : Type := {
  lane : ComputerUseRecordingProgressLane.t;
  trajectory_turn : option Z;
  finalized_segments : Z;
  current_partial_size_bytes : option Z;
  current_partial_modified_at_unix_ms : option Z;
}.
End Fingerprint.

Module ComputerUseSessionHealthPolicy.
Record ComputerUseSessionHealthPolicy : Type := {
  require_recording_healthy : bool;
  require_recording_progress : bool;
  previous_recording_progress : option Fingerprint.ComputerUseRecordingProgressFingerprint;
}.
End ComputerUseSessionHealthPolicy.

Module ComputerUseRecordingStatus.
Inductive t : Type := NotGranted | Unavailable | Stopped | Active | Paused | Degraded.
End ComputerUseRecordingStatus.

Module ComputerUseRecordingProgressStatus.
Inductive t : Type :=
| NotRequested | BaselineRequired | Advanced | Stalled | Regressed | Unavailable.
End ComputerUseRecordingProgressStatus.

Module ComputerUseRecordingHealth.
Record ComputerUseRecordingHealth : Type := {
  granted : bool;
  status : ComputerUseRecordingStatus.t;
  healthy : option bool;
  issues : list string;
  progress : option Fingerprint.ComputerUseRecordingProgressFingerprint;
  progress_status : ComputerUseRecordingProgressStatus.t;
}.
End ComputerUseRecordingHealth.

Module Blocker.
Inductive ComputerUseSessionHealthBlocker : Type :=
| StateChangedDuringProbe
| InputSuspended
| TargetUnavailable
| TargetMinimized
| TargetNotForeground
| TargetProbeFailed
| SessionInterrupted
| RecordingNotGranted
| RecordingInactive
| RecordingPaused
| RecordingDegraded
| RecordingProbeFailed
| RecordingProgressBaselineRequired
| RecordingProgressStalled
| RecordingProgressRegressed
| RecordingProgressUnavailable.
End Blocker.

Module Evaluation.
Record ComputerUseSessionHealthEvaluation : Type := {
  policy : ComputerUseSessionHealthPolicy.ComputerUseSessionHealthPolicy;
  input_state : ComputerUseSessionInputState.ComputerUseSessionInputState;
  target_state : ComputerUseSessionTargetState.ComputerUseSessionTargetState;
  recording : ComputerUseRecordingHealth.ComputerUseRecordingHealth;
  action_evidence_epoch : ActionEvidenceEpoch.ActionEvidenceEpoch;
  transition_sequence : Z;
  state_changed_during_probe : bool;
  interrupted : bool;
  target_probe_failed : bool;
}.
End Evaluation.

Module ComputerUseSessionHealth.
Record ComputerUseSessionHealth : Type := {
  schema_version : Z;
  safe_to_input : bool;
  authority : string;
  automatic_activation : bool;
  automatic_input : bool;
  fresh_observation_required : bool;
  policy : ComputerUseSessionHealthPolicy.ComputerUseSessionHealthPolicy;
  input_state : ComputerUseSessionInputState.ComputerUseSessionInputState;
  target_state : ComputerUseSessionTargetState.ComputerUseSessionTargetState;
  recording : ComputerUseRecordingHealth.ComputerUseRecordingHealth;
  action_evidence_epoch : string;
  transition_sequence : Z;
  blockers : list Blocker.ComputerUseSessionHealthBlocker;
}.
End ComputerUseSessionHealth.

Module Lane := ComputerUseRecordingProgressLane.
Module Progress := ComputerUseRecordingProgressStatus.
Module RecStatus := ComputerUseRecordingStatus.
Module Policy := ComputerUseSessionHealthPolicy.
Module Recording := ComputerUseRecordingHealth.
Module Health := ComputerUseSessionHealth.

#[export] Instance Lane_eq_dec : EqDecision Lane.t.
Proof. solve_decision. Defined.
#[export] Instance RecStatus_eq_dec : EqDecision RecStatus.t.
Proof. solve_decision. Defined.
#[export] Instance Progress_eq_dec : EqDecision Progress.t.
Proof. solve_decision. Defined.

(** ** Recording progress *)

Section FileMetadata.
(** [std::fs::metadata]: the length of a file and its modification time in
    milliseconds since the epoch, when they can be read. *)
Variable metadata : string -> option (Z * option Z).

Definition recording_progress_fingerprint (state : value)
    : option Fingerprint.ComputerUseRecordingProgressFingerprint :=
  let trajectory :=
    option_map (fun v => unwrap_or (get v "structuredContent") v)
      (get state "trajectory") in
  let trajectory_turn :=
    (trajectory ≫= (fun v => get v "next_turn")) ≫= as_u64 in
  let video :=
    match get state "video" with
    | Some v => if is_null v then None else Some v
    | None => None
    end in
  let segments := (video ≫= (fun v => get v "segments")) ≫= as_array in
  let finalized_segments :=
    match segments with
    | None => 0
    | Some segments =>
        Z.min U64_MAX (len (List.filter (fun segment =>
          (get segment "finalized" ≫= as_bool) == Some true) segments))
    end in
  let current_partial := (video ≫= (fun v => get v "current_partial")) ≫= as_str in
  let metadata := current_partial ≫= metadata in
  let lane := if is_some video then Lane.Video else Lane.Trajectory in
  if is_some video || is_some trajectory_turn
  then Some {|
    Fingerprint.lane := lane;
    Fingerprint.trajectory_turn := trajectory_turn;
    Fingerprint.finalized_segments := finalized_segments;
    Fingerprint.current_partial_size_bytes := option_map fst metadata;
    Fingerprint.current_partial_modified_at_unix_ms :=
      metadata ≫= fun m => option_map (Z.min U64_MAX) (snd m) |}
  else None.
End FileMetadata.

Definition option_advanced (previous current : option Z) : bool :=
  match previous, current with
  | Some previous, Some current => previous <? current
  | None, Some _ => true
  | _, None => false
  end.

Definition option_regressed (previous current : option Z) : bool :=
  match previous, current with
  | Some previous, Some current => current <? previous
  | Some _, None => true
  | None, _ => false
  end.

Definition compare_recording_progress
    (previous current : Fingerprint.ComputerUseRecordingProgressFingerprint)
    : Progress.t :=
  if Fingerprint.lane current != Fingerprint.lane previous
  then Progress.BaselineRequired
  else match Fingerprint.lane current with
  | Lane.Trajectory =>
      if option_regressed (Fingerprint.trajectory_turn previous)
           (Fingerprint.trajectory_turn current)
      then Progress.Regressed
      else if option_advanced (Fingerprint.trajectory_turn previous)
                (Fingerprint.trajectory_turn current)
      then Progress.Advanced
      else Progress.Stalled
  | Lane.Video =>
      if (Fingerprint.finalized_segments current
            <? Fingerprint.finalized_segments previous)
         || (Fingerprint.finalized_segments current
               =? Fingerprint.finalized_segments previous)
            && (option_regressed (Fingerprint.current_partial_size_bytes previous)
                  (Fingerprint.current_partial_size_bytes current)
                || option_regressed
                     (Fingerprint.current_partial_modified_at_unix_ms previous)
                     (Fingerprint.current_partial_modified_at_unix_ms current))
      then Progress.Regressed
      else if (Fingerprint.finalized_segments previous
                 <? Fingerprint.finalized_segments current)
              || option_advanced (Fingerprint.current_partial_size_bytes previous)
                   (Fingerprint.current_partial_size_bytes current)
              || option_advanced
                   (Fingerprint.current_partial_modified_at_unix_ms previous)
                   (Fingerprint.current_partial_modified_at_unix_ms current)
      then Progress.Advanced
      else Progress.Stalled
  end.

Definition recording_progress_status (policy : Policy.ComputerUseSessionHealthPolicy)
    (current : option Fingerprint.ComputerUseRecordingProgressFingerprint) : Progress.t :=
  if negb (Policy.require_recording_progress policy) then Progress.NotRequested
  else match current with
  | None => Progress.Unavailable
  | Some current =>
      match Policy.previous_recording_progress policy with
      | None => Progress.BaselineRequired
      | Some previous => compare_recording_progress previous current
      end
  end.

(** The status named by the state of the recorder. *)
Definition recording_status (state : value) : RecStatus.t :=
  match get state "status" ≫= as_str with
  | Some "stopped" => RecStatus.Stopped
  | Some "active" => RecStatus.Active
  | Some "paused" => RecStatus.Paused
  | Some "degraded" => RecStatus.Degraded
  | _ => RecStatus.Unavailable
  end.

Definition from_state (metadata : string -> option (Z * option Z)) (granted : bool)
    (state : value) (policy : Policy.ComputerUseSessionHealthPolicy)
    : Recording.ComputerUseRecordingHealth :=
  if negb granted
  then {|
    Recording.granted := false;
    Recording.status := RecStatus.NotGranted;
    Recording.healthy := None;
    Recording.issues := [];
    Recording.progress := None;
    Recording.progress_status :=
      if Policy.require_recording_progress policy then Progress.Unavailable
      else Progress.NotRequested |}
  else
    let progress := recording_progress_fingerprint metadata state in
    {| Recording.granted := true;
       Recording.status := recording_status state;
       Recording.healthy := get state "healthy" ≫= as_bool;
       Recording.issues :=
         omap as_str (unwrap_or (get state "issues" ≫= as_array) []);
       Recording.progress := progress;
       Recording.progress_status := recording_progress_status policy progress |}.

(** ** Evaluation *)

(** A reached [unreachable!()]. *)
Inductive panic : Type := Unreachable.

Definition target_blockers
    (target_state : ComputerUseSessionTargetState.ComputerUseSessionTargetState)
    : list Blocker.ComputerUseSessionHealthBlocker :=
  if (ComputerUseSessionTargetState.status target_state
        == ComputerUseTargetStatus.Minimized)
     || ComputerUseSessionTargetState.minimized target_state
  then [Blocker.TargetMinimized]
  else if (ComputerUseSessionTargetState.status target_state
             == ComputerUseTargetStatus.Unavailable)
          || negb (ComputerUseSessionTargetState.visible target_state)
  then [Blocker.TargetUnavailable]
  else if negb (ComputerUseSessionTargetState.foreground target_state)
  then [Blocker.TargetNotForeground]
  else [].

Definition recording_blocker (policy : Policy.ComputerUseSessionHealthPolicy)
    (recording : Recording.ComputerUseRecordingHealth)
    : result panic (option Blocker.ComputerUseSessionHealthBlocker) :=
  if negb (Recording.granted recording)
     || (Recording.status recording == RecStatus.NotGranted)
  then Ok (Some Blocker.RecordingNotGranted)
  else match Recording.status recording with
  | RecStatus.Unavailable => Ok (Some Blocker.RecordingProbeFailed)
  | RecStatus.Stopped => Ok (Some Blocker.RecordingInactive)
  | RecStatus.Paused => Ok (Some Blocker.RecordingPaused)
  | RecStatus.Degraded => Ok (Some Blocker.RecordingDegraded)
  | RecStatus.Active =>
      if Recording.healthy recording != Some true
      then Ok (Some Blocker.RecordingDegraded)
      else if Policy.require_recording_progress policy
      then match Recording.progress_status recording with
        | Progress.BaselineRequired => Ok (Some Blocker.RecordingProgressBaselineRequired)
        | Progress.Stalled => Ok (Some Blocker.RecordingProgressStalled)
        | Progress.Regressed => Ok (Some Blocker.RecordingProgressRegressed)
        | Progress.Unavailable | Progress.NotRequested =>
            Ok (Some Blocker.RecordingProgressUnavailable)
        | Progress.Advanced => Ok None
        end
      else Ok None
  | RecStatus.NotGranted => Err Unreachable
  end.

Definition push_if (b : bool) (blocker : Blocker.ComputerUseSessionHealthBlocker)
    : list Blocker.ComputerUseSessionHealthBlocker :=
  if b then [blocker] else [].

Definition evaluate (evaluation : Evaluation.ComputerUseSessionHealthEvaluation)
    : result panic Health.ComputerUseSessionHealth :=
  let policy := Evaluation.policy evaluation in
  let? recording_blockers :=
    if Policy.require_recording_healthy policy || Policy.require_recording_progress policy
    then let? blocker := recording_blocker policy (Evaluation.recording evaluation) in
         Ok (option_list blocker)
    else Ok [] in
  let blockers :=
    push_if (Evaluation.state_changed_during_probe evaluation)
      Blocker.StateChangedDuringProbe
    ++ push_if (ComputerUseSessionInputState.status (Evaluation.input_state evaluation)
                == ComputerUseInputStatus.Suspended) Blocker.InputSuspended
    ++ target_blockers (Evaluation.target_state evaluation)
    ++ push_if (Evaluation.target_probe_failed evaluation) Blocker.TargetProbeFailed
    ++ push_if (Evaluation.interrupted evaluation) Blocker.SessionInterrupted
    ++ recording_blockers in
  Ok {| Health.schema_version := 1;
        Health.safe_to_input := match blockers with [] => true | _ => false end;
        Health.authority := "preflight_only";
        Health.automatic_activation := false;
        Health.automatic_input := false;
        Health.fresh_observation_required := true;
        Health.policy := policy;
        Health.input_state := Evaluation.input_state evaluation;
        Health.target_state := Evaluation.target_state evaluation;
        Health.recording := Evaluation.recording evaluation;
        Health.action_evidence_epoch :=
          ActionEvidenceEpoch.opaque_token (Evaluation.action_evidence_epoch evaluation);
        Health.transition_sequence := Evaluation.transition_sequence evaluation;
        Health.blockers := blockers |}.

(** ** Properties *)

(** What the policy asks of the recording. *)
Definition recording_acceptable (policy : Policy.ComputerUseSessionHealthPolicy)
    (recording : Recording.ComputerUseRecordingHealth) : Prop :=
  Policy.require_recording_healthy policy = true
  \/ Policy.require_recording_progress policy = true ->
  Recording.granted recording = true
  /\ Recording.status recording = RecStatus.Active
  /\ Recording.healthy recording = Some true
  /\ (Policy.require_recording_progress policy = true ->
      Recording.progress_status recording = Progress.Advanced).

Lemma recording_blocker_none policy recording :
  (exists b, recording_blocker policy recording = Ok b) /\
  (recording_blocker policy recording = Ok None <->
   Recording.granted recording = true
   /\ Recording.status recording = RecStatus.Active
   /\ Recording.healthy recording = Some true
   /\ (Policy.require_recording_progress policy = true ->
       Recording.progress_status recording = Progress.Advanced)).
Proof.
  unfold recording_blocker.
  destruct (Recording.granted recording), (Recording.status recording);
    simpl; try (split; [by eexists | naive_solver]).
  destruct (decide (Recording.healthy recording = Some true)) as [Hh|Hh];
    [rewrite bool_decide_eq_true_2 by done | rewrite bool_decide_eq_false_2 by done];
    simpl; [|split; [by eexists | naive_solver]].
  destruct (Policy.require_recording_progress policy);
    [destruct (Recording.progress_status recording)|];
    split; try (by eexists); naive_solver.
Qed.

Lemma target_blockers_nil t :
  target_blockers t = [] <->
  ComputerUseSessionTargetState.status t = ComputerUseTargetStatus.Available
  /\ ComputerUseSessionTargetState.minimized t = false
  /\ ComputerUseSessionTargetState.visible t = true
  /\ ComputerUseSessionTargetState.foreground t = true.
Proof.
  unfold target_blockers. destruct (ComputerUseSessionTargetState.status t),
    (ComputerUseSessionTargetState.minimized t), (ComputerUseSessionTargetState.visible t),
    (ComputerUseSessionTargetState.foreground t); simpl; naive_solver.
Qed.

Lemma push_if_nil b blocker : push_if b blocker = [] <-> b = false.
Proof. destruct b; naive_solver. Qed.

(** the health check fails closed.  It never panics, and declares input safe
    exactly when nothing changed during the probe, input is ready, the exact
    target is available, visible, not minimized and in the foreground, its probe
    succeeded, the session is not interrupted, and a recording the policy asks
    for is granted, active, healthy and (where asked) has advanced.  It never
    offers automatic input. *)
Theorem safe_to_input_fails_closed
    (e : Evaluation.ComputerUseSessionHealthEvaluation) :
  exists health, evaluate e = Ok health
  /\ Health.automatic_input health = false
  /\ Health.automatic_activation health = false
  /\ Health.fresh_observation_required health = true
  /\ (Health.safe_to_input health = true <->
      Evaluation.state_changed_during_probe e = false
      /\ ComputerUseSessionInputState.status (Evaluation.input_state e)
         = ComputerUseInputStatus.Ready
      /\ ComputerUseSessionTargetState.status (Evaluation.target_state e)
         = ComputerUseTargetStatus.Available
      /\ ComputerUseSessionTargetState.minimized (Evaluation.target_state e) = false
      /\ ComputerUseSessionTargetState.visible (Evaluation.target_state e) = true
      /\ ComputerUseSessionTargetState.foreground (Evaluation.target_state e) = true
      /\ Evaluation.target_probe_failed e = false
      /\ Evaluation.interrupted e = false
      /\ recording_acceptable (Evaluation.policy e) (Evaluation.recording e)).
Proof.
  destruct (recording_blocker_none (Evaluation.policy e) (Evaluation.recording e))
    as [[b Hb] Hnone].
  unfold evaluate. rewrite Hb. cbn [rbind].
  set (recording_blockers := if _ || _ then Ok (option_list b) else Ok []).
  assert (exists l, recording_blockers = Ok l
            /\ (l = [] <-> recording_acceptable (Evaluation.policy e) (Evaluation.recording e)))
    as (l & -> & Hl).
  { unfold recording_blockers, recording_acceptable. rewrite Hb in Hnone.
    assert (option_list b = [] <-> Ok (E := panic) b = Ok None) as Hnil
      by (destruct b; simpl; split; congruence).
    rewrite Hnone in Hnil.
    destruct (Policy.require_recording_healthy _), (Policy.require_recording_progress _);
      simpl; eexists; (split; [done|]); rewrite ?Hnil; tauto || intuition congruence. }
  cbn [rbind]. eexists. split; [done|]. split_and!; try done.
  cbn [Health.safe_to_input].
  set (bs := push_if _ _ ++ _).
  assert (bs = [] <-> (match bs with [] => true | _ => false end) = true) as <-
    by (destruct bs; naive_solver).
  unfold bs. rewrite !app_nil, !push_if_nil, target_blockers_nil, Hl.
  rewrite bool_decide_eq_false.
  destruct (ComputerUseSessionInputState.status _); naive_solver.
Qed.

(** ** Progress is a strict order *)

Lemma option_regressed_advanced p c : option_regressed p c = option_advanced c p.
Proof. by destruct p, c. Qed.

Lemma option_not_regressed_trans a b c :
  option_regressed a b = false -> option_regressed b c = false ->
  option_regressed a c = false.
Proof. destruct a, b, c; simpl; lia. Qed.

Lemma option_advanced_trans_l a b c :
  option_advanced a b = true -> option_regressed b c = false ->
  option_advanced a c = true.
Proof. destruct a, b, c; simpl; lia. Qed.

Lemma option_advanced_trans_r a b c :
  option_regressed a b = false -> option_advanced b c = true ->
  option_advanced a c = true.
Proof. destruct a, b, c; simpl; lia. Qed.

(** [Advanced], as a relation on the fingerprints. *)
Definition advances (a b : Fingerprint.ComputerUseRecordingProgressFingerprint) : Prop :=
  Fingerprint.lane a = Fingerprint.lane b /\
  match Fingerprint.lane b with
  | Lane.Trajectory =>
      option_advanced (Fingerprint.trajectory_turn a) (Fingerprint.trajectory_turn b) = true
  | Lane.Video =>
      Fingerprint.finalized_segments a < Fingerprint.finalized_segments b
      \/ Fingerprint.finalized_segments a = Fingerprint.finalized_segments b
         /\ option_regressed (Fingerprint.current_partial_size_bytes a)
              (Fingerprint.current_partial_size_bytes b) = false
         /\ option_regressed (Fingerprint.current_partial_modified_at_unix_ms a)
              (Fingerprint.current_partial_modified_at_unix_ms b) = false
         /\ (option_advanced (Fingerprint.current_partial_size_bytes a)
               (Fingerprint.current_partial_size_bytes b) = true
             \/ option_advanced (Fingerprint.current_partial_modified_at_unix_ms a)
                  (Fingerprint.current_partial_modified_at_unix_ms b) = true)
  end.

Lemma option_advanced_not_regressed a b :
  option_advanced a b = true -> option_regressed a b = false.
Proof. destruct a, b; simpl; lia. Qed.

Lemma compare_advanced a b :
  compare_recording_progress a b = Progress.Advanced <-> advances a b.
Proof.
  unfold compare_recording_progress, advances.
  destruct a as [la ta fa sa ma], b as [lb tb fb sb mb]; simpl.
  destruct la, lb; simpl; try naive_solver.
  - destruct (option_regressed ta tb) eqn:Er, (option_advanced ta tb) eqn:Ea;
      try naive_solver.
    apply option_advanced_not_regressed in Ea. congruence.
  - destruct (option_regressed sa sb), (option_regressed ma mb),
      (option_advanced sa sb), (option_advanced ma mb); simpl;
      repeat case_match; reflect_all; split; intros; try done; lia || naive_solver lia.
Qed.

Lemma advances_trans a b c : advances a b -> advances b c -> advances a c.
Proof.
  unfold advances. intros [Hab H1] [Hbc H2]. split; [congruence|].
  rewrite Hbc in H1. destruct (Fingerprint.lane c).
  - eapply option_advanced_trans_l; [done | by apply option_advanced_not_regressed].
  - destruct H1 as [?|(E1 & Hs1 & Hm1 & H1)], H2 as [?|(E2 & Hs2 & Hm2 & H2)];
      [left; lia | left; lia | left; lia |]. right.
    split_and!; [lia | by eapply option_not_regressed_trans
                | by eapply option_not_regressed_trans |].
    destruct H1 as [H1|H1]; [left | right]; by eapply option_advanced_trans_l.
Qed.

Lemma advances_irrefl a : ~ advances a a.
Proof.
  assert (forall o, option_advanced o o = false) as Hirr by (intros []; simpl; lia).
  unfold advances. rewrite !Hirr. intros [_ H].
  destruct (Fingerprint.lane a); [done|]. destruct H as [?|(_ & _ & _ & [?|?])]; [lia | done..].
Qed.

Lemma advances_regressed a b :
  advances a b -> compare_recording_progress b a = Progress.Regressed.
Proof.
  unfold advances, compare_recording_progress. intros [Hlane H].
  rewrite Hlane, bool_decide_eq_true_2 by done. simpl.
  rewrite !option_regressed_advanced. destruct (Fingerprint.lane b).
  - by rewrite H.
  - destruct H as [?|(-> & _ & _ & H)]; [by replace (_ <? _) with true by lia|].
    rewrite Z.ltb_irrefl, Z.eqb_refl. cbn [orb andb].
    by destruct H as [->| ->]; rewrite ?orb_true_r.
Qed.

(** recording progress cannot be faked by going round in circles.  In a
    sequence of recording fingerprints where each one is judged to have advanced
    over the one before, every later fingerprint has advanced over every earlier
    one, is never equal to it, and judged in the opposite direction it has
    regressed. *)
Theorem recording_progress_never_repeats
    (fs : list Fingerprint.ComputerUseRecordingProgressFingerprint) :
  (forall i a b, fs !! i = Some a -> fs !! S i = Some b ->
     compare_recording_progress a b = Progress.Advanced) ->
  forall i j a b, (i < j)%nat -> fs !! i = Some a -> fs !! j = Some b ->
    compare_recording_progress a b = Progress.Advanced
    /\ a <> b
    /\ compare_recording_progress b a = Progress.Regressed.
Proof.
  intros Hstep i j a b Hij Ha Hb.
  assert (advances a b) as H.
  { revert b Hb. induction Hij as [|j Hij IH]; intros b Hb.
    - apply compare_advanced. by eapply Hstep.
    - destruct (fs !! j) as [c|] eqn:Hc.
      + eapply advances_trans; [by apply IH|]. apply compare_advanced. by eapply Hstep.
      + apply lookup_ge_None in Hc. apply lookup_lt_Some in Hb. lia. }
  split_and!; [by apply compare_advanced | | by apply advances_regressed].
  intros ->. by apply (advances_irrefl b).
Qed.

(** Three fingerprints of a video: a grown partial file, then a finalized segment. *)
Definition sample_fingerprint (segments : Z) (size : option Z)
    : Fingerprint.ComputerUseRecordingProgressFingerprint :=
  {| Fingerprint.lane := Lane.Video; Fingerprint.trajectory_turn := None;
     Fingerprint.finalized_segments := segments;
     Fingerprint.current_partial_size_bytes := size;
     Fingerprint.current_partial_modified_at_unix_ms := size |}.

Lemma recording_progress_never_repeats_witness :
  let a := sample_fingerprint 1 (Some 10) in
  let c := sample_fingerprint 2 None in
  compare_recording_progress a c = Progress.Advanced /\ a <> c
  /\ compare_recording_progress c a = Progress.Regressed.
Proof.
  apply (recording_progress_never_repeats
    [sample_fingerprint 1 (Some 10); sample_fingerprint 1 (Some 20);
     sample_fingerprint 2 None]) with (i := 0%nat) (j := 2%nat).
  - intros [|[|[|i]]] a b Ha Hb; simpl in Ha, Hb; simplify_eq; vm_compute; reflexivity.
  - lia.
  - reflexivity.
  - reflexivity.
Defined.

(** ** Epoch tokens *)

Lemma hex_digit_inj d d' :
  0 <= d < 16 -> 0 <= d' < 16 ->
  ActionEvidenceEpoch.hex_digit d = ActionEvidenceEpoch.hex_digit d' -> d = d'.
Proof.
  unfold ActionEvidenceEpoch.hex_digit. intros Hd Hd' H.
  apply (f_equal byte_of) in H.
  destruct (d <? 10) eqn:?, (d' <? 10) eqn:?;
    rewrite !byte_of_ascii_of in H by lia; lia.
Qed.

Lemma string_app_snoc_inj s t a b :
  s +:+ String a "" = t +:+ String b "" -> s = t /\ a = b.
Proof.
  revert t. induction s as [|c s IH]; intros [|d t];
    rewrite ?append_nil_l, ?append_cons; intros H.
  - by injection H.
  - injection H as _ H. by destruct t.
  - injection H as _ H. by destruct s.
  - injection H as -> H. by destruct (IH _ H) as [-> ->].
Qed.

Lemma hex_digits_inj width n m :
  0 <= n < 16 ^ Z.of_nat width -> 0 <= m < 16 ^ Z.of_nat width ->
  ActionEvidenceEpoch.hex_digits width n = ActionEvidenceEpoch.hex_digits width m ->
  n = m.
Proof.
  revert n m. induction width as [|width IH]; intros n m Hn Hm H;
    [change (16 ^ Z.of_nat 0) with 1 in *; lia|].
  cbn [ActionEvidenceEpoch.hex_digits] in H.
  apply string_app_snoc_inj in H as [H1 H2].
  rewrite Nat2Z.inj_succ, Z.pow_succ_r in Hn, Hm by lia.
  apply IH in H1; [| split; [apply Z.div_pos | apply Z.div_lt_upper_bound]; lia
                   | split; [apply Z.div_pos | apply Z.div_lt_upper_bound]; lia].
  apply hex_digit_inj in H2; [| apply Z.mod_pos_bound; lia | apply Z.mod_pos_bound; lia].
  rewrite (Z.div_mod n 16), (Z.div_mod m 16) by lia. congruence.
Qed.

(** the opaque token a client holds identifies the evidence epoch: two [u64]
    epochs with the same token are the same epoch; so a token taken before an
    advance is never equal to the current one. *)
Theorem epoch_token_identifies_epoch (a b : ActionEvidenceEpoch.ActionEvidenceEpoch) :
  is_u64 (ActionEvidenceEpoch.value a) -> is_u64 (ActionEvidenceEpoch.value b) ->
  (ActionEvidenceEpoch.opaque_token a = ActionEvidenceEpoch.opaque_token b -> a = b)
  /\ (ActionEvidenceEpoch.advanced a = Some b ->
      ActionEvidenceEpoch.opaque_token a <> ActionEvidenceEpoch.opaque_token b).
Proof.
  intros Ha Hb.
  assert (ActionEvidenceEpoch.opaque_token a = ActionEvidenceEpoch.opaque_token b -> a = b)
    as Hinj.
  { destruct a as [a], b as [b]. unfold ActionEvidenceEpoch.opaque_token. simpl in *.
    intros H. f_equal. apply (inj (String.append _)) in H.
    apply (hex_digits_inj 16); [| | done]; unfold is_u64, U64_MAX in *; simpl; lia. }
  split; [done|]. intros Hadv Heq. apply Hinj in Heq as ->.
  destruct b as [b]. unfold ActionEvidenceEpoch.advanced, checked_add in Hadv.
  simpl in Hadv. destruct (_ <=? _); simpl in Hadv; [|done]. injection Hadv. lia.
Qed.

Lemma epoch_token_identifies_epoch_witness :
  ActionEvidenceEpoch.opaque_token (ActionEvidenceEpoch.Epoch 255)
    = "action-evidence-v1:00000000000000ff"
  /\ ActionEvidenceEpoch.opaque_token (ActionEvidenceEpoch.Epoch 255)
     <> ActionEvidenceEpoch.opaque_token (ActionEvidenceEpoch.Epoch 256).
Proof.
  split; [vm_compute; reflexivity|].
  apply epoch_token_identifies_epoch; [vm_compute; split; congruence..|].
  vm_compute; reflexivity.
Defined.
