(* ===== verification/HostAction.v ===== *)
(** * Host actions and their safety tier
    ([crates/dcc-cua-host/src/lib.rs] and [action_policy.rs])

    An action as a client requests it, the tier of consent it needs, the category
    it is authorized under, its conversion to a runtime action, and the queries
    over an accessibility snapshot. *)

From S2P Require Import Prelude Records RustStr Json Protocol Errors.
From S2P Require Import TargetPolicy.

(** ** Data *)

Module ComputerUsePoint.
Record ComputerUsePoint : Type := { x : f64; y : f64 }.
End ComputerUsePoint.

Module HostAction.
Record HostAction : Type := {
  action : string;
  element_index : option Z;
  element_token : option string;
  delivery_mode : option string;
  input_backend_id : option string;
  input_kind : string;
  intent : string;
  x : option f64;
  y : option f64;
  button : option string;
  scroll_x : option Z;
  scroll_y : option Z;
  scroll_by : option string;
  path : list ComputerUsePoint.ComputerUsePoint;
  text : option string;
  secret_handle : option string;
  delay_ms : option Z;
  type_chars_only : bool;
  checked : option bool;
  keys : list string;
  modifiers : list string;
  duration_ms : option Z;
  steps : option Z;
}.

#[global] Instance HostAction_settable : Settable HostAction := fun a => {|
  action := action a;
  element_index := element_index a;
  element_token := element_token a;
  delivery_mode := delivery_mode a;
  input_backend_id := input_backend_id a;
  input_kind := input_kind a;
  intent := intent a;
  x := x a;
  y := y a;
  button := button a;
  scroll_x := scroll_x a;
  scroll_y := scroll_y a;
  scroll_by := scroll_by a;
  path := path a;
  text := text a;
  secret_handle := secret_handle a;
  delay_ms := delay_ms a;
  type_chars_only := type_chars_only a;
  checked := checked a;
  keys := keys a;
  modifiers := modifiers a;
  duration_ms := duration_ms a;
  steps := steps a;
|}.
End HostAction.

Module ComputerUseAction.
Record ComputerUseAction : Type := {
  action : string;
  observation_id : option string;
  element_index : option Z;
  element_token : option string;
  delivery_mode : option string;
  input_backend_id : option string;
  x : option f64;
  y : option f64;
  button : option string;
  scroll_x : option Z;
  scroll_y : option Z;
  scroll_by : option string;
  path : list ComputerUsePoint.ComputerUsePoint;
  text : option string;
  delay_ms : option Z;
  duration_ms : option Z;
  steps : option Z;
  type_chars_only : bool;
  keys : list string;
  modifiers : list string;
}.

#[global] Instance ComputerUseAction_settable : Settable ComputerUseAction := fun a => {|
  action := action a;
  observation_id := observation_id a;
  element_index := element_index a;
  element_token := element_token a;
  delivery_mode := delivery_mode a;
  input_backend_id := input_backend_id a;
  x := x a;
  y := y a;
  button := button a;
  scroll_x := scroll_x a;
  scroll_y := scroll_y a;
  scroll_by := scroll_by a;
  path := path a;
  text := text a;
  delay_ms := delay_ms a;
  duration_ms := duration_ms a;
  steps := steps a;
  type_chars_only := type_chars_only a;
  keys := keys a;
  modifiers := modifiers a;
|}.
End ComputerUseAction.

Module FindQuery.
Record FindQuery : Type := {
  text : option string;
  role : option string;
  element_index : option Z;
  max_results : option Z;
}.
End FindQuery.

Module WaitCondition.
Record WaitCondition : Type := {
  kind : string;
  element_index : option Z;
  text : option string;
  value : option string;
  timeout_ms : option Z;
  interval_ms : option Z;
}.
End WaitCondition.

Module HA := HostAction.
Module CA := ComputerUseAction.

Definition clamp (n lo hi : Z) : Z := Z.min (Z.max n lo) hi.

(** ** Snapshot transport negotiation *)

Module HelloParams.
Record HelloParams : Type := {
  protocol_version : Z;
  client_name : string;
  snapshot_transport : option string;
}.
End HelloParams.

Inductive SnapshotTransport : Type := SharedMemory | BinaryFrame.

Definition from_hello (params : HelloParams.HelloParams) : hresult SnapshotTransport :=
  if negb (HelloParams.protocol_version params =? HOST_PROTOCOL_VERSION)
  then Err (HostError.coded_protocol HostProtocolErrorCode.ProtocolMismatch
    ("protocol version " +:+ show (HelloParams.protocol_version params)
     +:+ " is not supported"))
  else
    let transport := unwrap_or (HelloParams.snapshot_transport params) "binary_frame" in
    if transport == "binary_frame" then Ok BinaryFrame
    else if transport == "shared_memory" then Ok SharedMemory
    else Err (HostError.Protocol
           ("snapshot transport " +:+ transport +:+ " is not supported")).

(** ** Elements *)

(** The index of an accessibility element, under either of its names. *)
Definition element_index_of (element : value) : option Z :=
  or_else (as_u64 (index element "element_index")) (as_u64 (index element "index")).

(** [root["elements"].as_array()]. *)
Definition elements (root : value) : option (list value) :=
  as_array (index root "elements").

Definition semantic_element (self : HA.HostAction) (root : value) : option value :=
  if is_none (HA.element_index self) && is_none (HA.element_token self)
  then None
  else elements root ≫= List.find (fun element =>
    is_none_or (fun expected => element_index_of element == Some expected)
      (HA.element_index self)
    && is_none_or (fun expected =>
         as_str (index element "element_token") == Some expected)
      (HA.element_token self)).

(** ** Safety tiers *)

Inductive HostActionSafetyTier : Type :=
| HardDeny | ActionConfirmation | PreApproval | TaskGrant.

#[export] Instance HostActionSafetyTier_eq_dec : EqDecision HostActionSafetyTier.
Proof. solve_decision. Defined.

Definition from_wire (value : string) : HostActionSafetyTier :=
  if value == "hard_deny" then HardDeny
  else if value == "action_confirmation" then ActionConfirmation
  else if value == "pre_approval" then PreApproval
  else if value == "task_grant" then TaskGrant
  else HardDeny.

Definition requires_confirmation (self : HostActionSafetyTier) : bool :=
  match self with ActionConfirmation | PreApproval => true | _ => false end.

Definition rejection (self : HostActionSafetyTier) : option (string * string * string) :=
  match self with
  | HardDeny => Some ("hard_deny", "hard_denied",
                      "the host policy denies this Computer Use action")
  | _ => None
  end.

Definition is_empty {A} (l : list A) : bool := match l with [] => true | _ => false end.

Definition physical_keyboard_actions : list string :=
  ["keypress"; "press"; "press_key"; "keyboard_shortcut"; "hotkey"].

Definition uses_physical_keyboard (self : HA.HostAction) : bool :=
  (HA.action self ∈? physical_keyboard_actions)
  || negb (is_empty (HA.keys self)) || negb (is_empty (HA.modifiers self)).

Definition is_task_granted_pointer_input (self : HA.HostAction) : bool :=
  if negb (HA.intent self ∈? ["navigate"; "ordinary_edit"])
     || (HA.delivery_mode self != Some "foreground")
     || is_some (HA.text self)
     || is_some (HA.secret_handle self)
     || negb (is_empty (HA.modifiers self))
  then false
  else if HA.action self ∈? ["click"; "double_click"; "right_click"; "toggle"]
  then is_some (HA.x self) && is_some (HA.y self) && is_empty (HA.keys self)
  else if HA.action self == "drag"
  then (2 <=? len (HA.path self)) && is_empty (HA.keys self)
  else false.

Definition safe_named_keys : list string :=
  ["ENTER"; "RETURN"; "TAB"; "ESCAPE"; "ESC"; "SPACE"; "UP"; "DOWN"; "LEFT"; "RIGHT";
   "HOME"; "END"; "PAGEUP"; "PGUP"; "PAGEDOWN"; "PGDN"].

Definition is_safe_unmodified_key (key : string) : bool :=
  let normalized := to_ascii_uppercase (trim key) in
  match normalized with
  | String a EmptyString => is_ascii_alphanumeric (byte_of a)
  | _ => false
  end || (normalized ∈? safe_named_keys).

Definition is_safe_movement_key (key : string) : bool :=
  to_ascii_uppercase (trim key)
    ∈? ["W"; "A"; "S"; "D"; "UP"; "DOWN"; "LEFT"; "RIGHT"].

(** No key repeats an earlier one, up to case and surrounding whitespace. *)
Definition keys_are_distinct (keys : list string) : bool :=
  forallb (fun p : nat * string =>
    forallb (fun previous =>
      negb (eq_ignore_ascii_case (trim previous) (trim (snd p)))) (take (fst p) keys))
    (imap pair keys).

Definition is_task_granted_keyboard_input (self : HA.HostAction) : bool :=
  if negb (HA.intent self ∈? ["navigate"; "ordinary_edit"])
     || (HA.delivery_mode self != Some "foreground")
     || is_some (HA.text self)
     || is_some (HA.secret_handle self)
     || is_some (HA.input_backend_id self)
     || is_some (HA.element_index self)
     || is_some (HA.element_token self)
     || is_some (HA.x self)
     || is_some (HA.y self)
     || is_some (HA.button self)
     || is_some (HA.scroll_x self)
     || is_some (HA.scroll_y self)
     || is_some (HA.scroll_by self)
     || negb (is_empty (HA.path self))
     || is_empty (HA.keys self)
     || negb (is_empty (HA.modifiers self))
     || is_some (HA.delay_ms self)
     || HA.type_chars_only self
     || is_some (HA.checked self)
     || is_some (HA.steps self)
  then false
  else match HA.duration_ms self with
  | Some duration_ms =>
      ((1 <=? duration_ms) && (duration_ms <=? 10000))
      && (HA.action self ∈? ["keypress"; "press"; "press_key"])
      && (len (HA.keys self) <=? 2)
      && forallb is_safe_movement_key (HA.keys self)
      && keys_are_distinct (HA.keys self)
  | None =>
      (len (HA.keys self) =? 1)
      && is_some_and is_safe_unmodified_key (head (HA.keys self))
  end.

Definition pointer_actions : list string :=
  ["click"; "double_click"; "right_click"; "toggle"; "drag"].
Definition text_actions : list string :=
  ["type"; "type_chars"; "set_text"; "set_value"; "set_checked"].

Definition base_tier (self : HA.HostAction) (accessibility_root : option value)
    : HostActionSafetyTier :=
  if uses_physical_keyboard self
  then if (HA.input_kind self == "raw_input") && is_task_granted_keyboard_input self
       then TaskGrant else ActionConfirmation
  else if HA.input_kind self == "semantic"
  then match (accessibility_root ≫= semantic_element self) ≫= (fun element =>
               as_str (index element "policy_tier")) with
       | None => HardDeny
       | Some tier => from_wire tier
       end
  else if HA.input_kind self == "raw_input"
  then if HA.action self ∈? ["move"; "scroll"] then TaskGrant
       else if (HA.action self ∈? pointer_actions) && is_task_granted_pointer_input self
       then TaskGrant
       else if HA.action self ∈? (pointer_actions ++ text_actions)
       then ActionConfirmation
       else HardDeny
  else HardDeny.

Definition safety_tier (self : HA.HostAction) (accessibility_root : option value)
    : HostActionSafetyTier :=
  let base := base_tier self accessibility_root in
  if is_some (HA.secret_handle self) && (base != HardDeny)
  then ActionConfirmation
  else base.

(** ** Validation and conversion *)

Definition invalid_action (message : string) : ComputerUseError.ComputerUseError :=
  ComputerUseError.new ComputerUseErrorCode.InvalidAction message.

Definition validate_secret_source (self : HA.HostAction) : cresult unit :=
  if is_some (HA.text self) && is_some (HA.secret_handle self)
  then Err (invalid_action "text and secret_handle are mutually exclusive")
  else match HA.secret_handle self with
  | Some handle =>
      check? rmap_err (fun _ => invalid_action "secret_handle is invalid")
               (validate_secret_handle handle) in
      if negb (HA.action self ∈? ["type"; "type_chars"; "set_text"; "set_value"])
      then Err (invalid_action "secret_handle is supported only for text input actions")
      else Ok tt
  | None => Ok tt
  end.

Definition sensitive_categories : list string :=
  ["account_access"; "account_security"; "content_change"; "credential"; "destructive";
   "destructive_write"; "external_effect"; "payment"; "publishing"].

Definition authorization_category (self : HA.HostAction)
    (accessibility_root : option value) : string :=
  if is_some (HA.secret_handle self) then "credential"
  else if (HA.input_kind self == "raw_input") || uses_physical_keyboard self
  then "raw_input"
  else
    let element := accessibility_root ≫= semantic_element self in
    let fallback :=
      if is_some_and (fun element =>
           as_str (index element "policy_tier") == Some "task_grant") element
      then "task_grant" else "unclassified_sensitive" in
    match element ≫= (fun element => as_str (index element "policy_category")) with
    | Some category => if category ∈? sensitive_categories then category else fallback
    | None => fallback
    end.

(** The canonical name of an action alias. *)
Definition canonical_action (action : string) : string :=
  if action == "set_checked" then "set_value"
  else if action ∈? ["press"; "press_key"] then "keypress"
  else if action == "hotkey" then "keyboard_shortcut"
  else action.

Definition into_computer_use (self : HA.HostAction) (observation_id : string)
    : cresult CA.ComputerUseAction :=
  check? validate_secret_source self in
  if is_some (HA.secret_handle self)
  then Err (invalid_action
    "secret_handle must be resolved by the constructor-owned Host vault")
  else if negb (HA.input_kind self ∈? ["raw_input"; "semantic"])
  then Err (invalid_action "input_kind must be raw_input or semantic")
  else if (HA.input_kind self != "raw_input") && is_none (HA.element_index self)
          && is_none (HA.element_token self)
  then Err (invalid_action
    "semantic actions require a current CUA element_index or element_token")
  else
    let action := canonical_action (HA.action self) in
    let text :=
      if (action == "set_value") && is_some (HA.checked self)
      then option_map (fun checked : bool => if checked then "true" else "false")
             (HA.checked self)
      else HA.text self in
    Ok {| CA.action := action;
          CA.observation_id := Some observation_id;
          CA.element_index := HA.element_index self;
          CA.element_token := HA.element_token self;
          CA.delivery_mode := HA.delivery_mode self;
          CA.input_backend_id := HA.input_backend_id self;
          CA.x := HA.x self;
          CA.y := HA.y self;
          CA.button := HA.button self;
          CA.scroll_x := HA.scroll_x self;
          CA.scroll_y := HA.scroll_y self;
          CA.scroll_by := HA.scroll_by self;
          CA.path := HA.path self;
          CA.text := text;
          CA.delay_ms := HA.delay_ms self;
          CA.duration_ms := HA.duration_ms self;
          CA.steps := HA.steps self;
          CA.type_chars_only := HA.type_chars_only self;
          CA.keys := HA.keys self;
          CA.modifiers := HA.modifiers self |}.

(** ** Queries over a snapshot *)

(** [FindQuery::validate] and [WaitCondition::validate]. *)
Definition validate_find (self : FindQuery.FindQuery) : hresult Z :=
  if is_none_or str_is_empty (FindQuery.text self)
     && is_none_or str_is_empty (FindQuery.role self)
     && is_none (FindQuery.element_index self)
  then Err (HostError.Protocol "find requires text, role, or element_index")
  else Ok (clamp (unwrap_or (FindQuery.max_results self) 10) 1 50).

Definition wait_kinds : list string :=
  ["element_present"; "text_contains"; "text_equals"; "value_equals"].

Definition validate_wait (self : WaitCondition.WaitCondition) : hresult (Z * Z) :=
  if negb (WaitCondition.kind self ∈? wait_kinds)
  then Err (HostError.Protocol "wait condition kind is unsupported")
  else if (WaitCondition.kind self ∈? ["text_contains"; "text_equals"])
          && is_none (WaitCondition.text self)
  then Err (HostError.Protocol "text wait conditions require text")
  else if (WaitCondition.kind self == "value_equals") && is_none (WaitCondition.value self)
  then Err (HostError.Protocol "value_equals wait conditions require value")
  else Ok (Z.min (unwrap_or (WaitCondition.timeout_ms self) 5000) 30000,
           clamp (unwrap_or (WaitCondition.interval_ms self) 100) 10 1000).

(** The strings an element holds under the given fields. *)
Definition element_strings (element : value) (fields : list string) : list string :=
  omap (fun name => as_str (index element name)) fields.

Definition find_matches (query : FindQuery.FindQuery) (element : value) : bool :=
  is_none_or (fun expected => element_index_of element == Some expected)
    (FindQuery.element_index query)
  && is_none_or (fun expected =>
       is_some_and (fun actual => eq_ignore_ascii_case actual expected)
         (as_str (index element "role"))) (FindQuery.role query)
  && is_none_or (fun expected =>
       let expected := to_ascii_lowercase expected in
       existsb (fun actual => contains expected (to_ascii_lowercase actual))
         (element_strings element
            ["name"; "label"; "title"; "text"; "value"; "automation_id"]))
     (FindQuery.text query).

Definition find_elements (root : value) (query : FindQuery.FindQuery) (max_results : Z)
    : list value :=
  take (Z.to_nat max_results)
    (List.filter (find_matches query) (unwrap_or (elements root) [])).

Definition wait_matches (condition : WaitCondition.WaitCondition) (element : value) : bool :=
  if is_some_and (fun index => element_index_of element != Some index)
       (WaitCondition.element_index condition)
  then false
  else if WaitCondition.kind condition == "element_present" then true
  else if WaitCondition.kind condition == "text_contains"
  then is_some_and (fun expected =>
         existsb (fun actual => contains expected actual)
           (element_strings element ["name"; "label"; "title"; "text"; "value"]))
       (WaitCondition.text condition)
  else if WaitCondition.kind condition == "text_equals"
  then is_some_and (fun expected =>
         existsb (fun actual => actual == expected)
           (element_strings element ["name"; "label"; "title"; "text"]))
       (WaitCondition.text condition)
  else if WaitCondition.kind condition == "value_equals"
  then is_some_and (fun expected => as_str (index element "value") == Some expected)
       (WaitCondition.value condition)
  else false.

Definition wait_condition_matches (root : value) (condition : WaitCondition.WaitCondition)
    : bool :=
  is_some_and (existsb (wait_matches condition)) (elements root).

(** ** Properties of the tiers *)

Lemma is_empty_true {A} (l : list A) : is_empty l = true <-> l = [].
Proof. destruct l; naive_solver. Qed.
Lemma is_empty_false {A} (l : list A) : is_empty l = false <-> l <> [].
Proof. destruct l; naive_solver. Qed.
#[export] Hint Rewrite @is_empty_true @is_empty_false : reflect_bool.

Lemma uses_physical_keyboard_false a :
  uses_physical_keyboard a = false <->
  HA.action a ∉ physical_keyboard_actions /\ HA.keys a = [] /\ HA.modifiers a = [].
Proof. unfold uses_physical_keyboard. reflect_goal. tauto. Qed.

(** The keyboard input a task grant covers: one harmless key, or up to two
    different movement keys held for at most ten seconds. *)
Definition harmless_keys (a : HA.HostAction) : Prop :=
  match HA.duration_ms a with
  | None => exists key, HA.keys a = [key] /\ is_safe_unmodified_key key = true
  | Some duration_ms =>
      1 <= duration_ms <= 10000 /\ 1 <= len (HA.keys a) <= 2
      /\ forall key, key ∈ HA.keys a -> is_safe_movement_key key = true
  end.

(** Foreground navigation or ordinary editing, without text of its own. *)
Definition ordinary_input (a : HA.HostAction) : Prop :=
  HA.intent a ∈ ["navigate"; "ordinary_edit"]
  /\ HA.delivery_mode a = Some "foreground" /\ HA.text a = None.

Lemma pointer_input_ordinary a :
  is_task_granted_pointer_input a = true -> ordinary_input a.
Proof. unfold is_task_granted_pointer_input. intros H. guard_step H. reflect_all. done. Qed.

Lemma len_pos {A} (l : list A) : l <> [] -> 1 <= len l.
Proof. destruct l; [done|]. unfold len. simpl. lia. Qed.

Lemma keyboard_input_harmless a :
  is_task_granted_keyboard_input a = true ->
  ordinary_input a /\ HA.modifiers a = [] /\ HA.element_index a = None
  /\ HA.element_token a = None /\ harmless_keys a.
Proof.
  unfold is_task_granted_keyboard_input, harmless_keys. intros H. guard_step H.
  apply orb_false_iff in Heqb as [Heqb _]. reflect_all.
  destruct (HA.duration_ms a) as [d|]; reflect_all; split_and!; try done.
  - by apply len_pos.
  - destruct (HA.keys a) as [|key [|]]; unfold len in *; simpl in *; try done; try lia.
    simplify_eq. eauto.
Qed.

Lemma semantic_tier_element a root :
  match (root ≫= semantic_element a) ≫= (fun element =>
    as_str (index element "policy_tier")) with
  | None => HardDeny
  | Some tier => from_wire tier
  end = TaskGrant ->
  exists r element, root = Some r /\ semantic_element a r = Some element
    /\ index element "policy_tier" = Str "task_grant".
Proof.
  intros H. destruct root as [r|]; simpl in H; [|done].
  destruct (semantic_element a r) as [element|] eqn:Ee; simpl in H; [|done].
  exists r, element. split_and!; [done..|].
  destruct (index element "policy_tier") as [| | |s| |]; simpl in H; try done.
  unfold from_wire in H. repeat guard_step H. reflect_all. congruence.
Qed.

(** what runs without a per-action confirmation is harmless.  An action in
    the task-grant tier never carries a secret or a key modifier; a semantic one
    resolves to an element of the current snapshot that the backend classified
    as [task_grant]; a raw one is a pointer move, a scroll, an ordinary
    foreground click or drag without text, or harmless keys.  Any other kind of
    input is never in this tier. *)
Theorem task_grant_tier_is_harmless (a : HA.HostAction) (root : option value) :
  safety_tier a root = TaskGrant ->
  HA.secret_handle a = None /\ HA.modifiers a = []
  /\ ((HA.input_kind a = "semantic" /\ HA.keys a = []
       /\ HA.action a ∉ physical_keyboard_actions
       /\ exists r element, root = Some r /\ semantic_element a r = Some element
            /\ index element "policy_tier" = Str "task_grant")
      \/ (HA.input_kind a = "raw_input"
          /\ (HA.action a ∈ ["move"; "scroll"] /\ HA.keys a = []
              \/ HA.action a ∈ pointer_actions /\ HA.keys a = [] /\ ordinary_input a
              \/ ordinary_input a /\ harmless_keys a))).
Proof.
  unfold safety_tier. intros H.
  assert (base_tier a root = TaskGrant /\ HA.secret_handle a = None) as [Hb Hs].
  { destruct (HA.secret_handle a); simpl in H; [|done].
    destruct (base_tier a root); done. }
  split; [done|]. clear H. unfold base_tier in Hb.
  destruct (uses_physical_keyboard a) eqn:Ek.
  - guard_step Hb. reflect_all.
    apply keyboard_input_harmless in H0 as (? & ? & _ & _ & ?). tauto.
  - apply uses_physical_keyboard_false in Ek as (Ha & Hk & Hm). split; [done|].
    destruct (decide (HA.input_kind a = "semantic")) as [Es|Es];
      [rewrite bool_decide_eq_true_2 in Hb by done
      |rewrite bool_decide_eq_false_2 in Hb by done].
    + left. apply semantic_tier_element in Hb. auto.
    + right. repeat guard_step Hb; reflect_all; split; auto.
      right. left. auto using pointer_input_ordinary.
Qed.

(** The click of the witness below. *)
Definition sample_click (keys : list string) (secret : option string) : HA.HostAction := {|
  HA.action := "click"; HA.element_index := None; HA.element_token := None;
  HA.delivery_mode := Some "foreground"; HA.input_backend_id := None;
  HA.input_kind := "raw_input"; HA.intent := "navigate";
  HA.x := Some (S754_zero false); HA.y := Some (S754_zero false);
  HA.button := None; HA.scroll_x := None; HA.scroll_y := None; HA.scroll_by := None;
  HA.path := []; HA.text := None; HA.secret_handle := secret; HA.delay_ms := None;
  HA.type_chars_only := false; HA.checked := None; HA.keys := keys;
  HA.modifiers := []; HA.duration_ms := None; HA.steps := None |}.

Lemma task_grant_tier_is_harmless_witness :
  safety_tier (sample_click [] None) None = TaskGrant
  /\ HA.secret_handle (sample_click [] None) = None
  /\ safety_tier (sample_click ["A"] None) None = ActionConfirmation
  /\ safety_tier (sample_click [] (Some "h")) None = ActionConfirmation.
Proof.
  split; [vm_compute; reflexivity|]. split; [|split; vm_compute; reflexivity].
  refine (proj1 (task_grant_tier_is_harmless (sample_click [] None) None _)).
  vm_compute; reflexivity.
Defined.

(** ** Properties of the conversion *)

Lemma canonical_action_keyboard action :
  canonical_action action ∈ ["keypress"; "keyboard_shortcut"]
  <-> action ∈ physical_keyboard_actions.
Proof.
  unfold canonical_action, physical_keyboard_actions.
  repeat case_match; reflect_all; set_solver.
Qed.

Lemma canonical_action_idemp action :
  canonical_action (canonical_action action) = canonical_action action.
Proof.
  unfold canonical_action at 2 3. repeat case_match; try by vm_compute.
  unfold canonical_action. by rewrite H, H0, H1.
Qed.

Lemma validate_secret_source_none a :
  HA.secret_handle a = None -> validate_secret_source a = Ok tt.
Proof. unfold validate_secret_source. intros ->. by rewrite andb_false_r. Qed.

(** what is dispatched is what was classified.  An action is converted for
    the runtime exactly when it carries no unresolved secret, has a known input
    kind, and, if semantic, names an element; the result is bound to the given
    observation, uses a canonical action name, and uses the physical keyboard
    exactly when the safety tier was computed for keyboard input. *)
Theorem conversion_preserves_classification (a : HA.HostAction) (observation_id : string) :
  (is_ok (into_computer_use a observation_id) = true <->
     HA.secret_handle a = None
     /\ (HA.input_kind a = "raw_input"
         \/ HA.input_kind a = "semantic"
            /\ (is_Some (HA.element_index a) \/ is_Some (HA.element_token a))))
  /\ (forall c, into_computer_use a observation_id = Ok c ->
      CA.observation_id c = Some observation_id
      /\ CA.element_index c = HA.element_index a
      /\ CA.element_token c = HA.element_token a
      /\ CA.keys c = HA.keys a /\ CA.modifiers c = HA.modifiers a
      /\ canonical_action (CA.action c) = CA.action c
      /\ (CA.text c <> HA.text a -> CA.action c = "set_value")
      /\ (uses_physical_keyboard a = true <->
          CA.action c ∈ ["keypress"; "keyboard_shortcut"] \/ CA.keys c <> []
          \/ CA.modifiers c <> [])).
Proof.
  split.
  - unfold into_computer_use. destruct (HA.secret_handle a) as [h|] eqn:Es.
    + destruct (validate_secret_source a); simpl; split; [done | by intros [? _] | done |
        by intros [? _]].
    + rewrite validate_secret_source_none by done. simpl.
      destruct (decide (HA.input_kind a ∈ ["raw_input"; "semantic"])) as [Hk|Hk];
        [rewrite bool_decide_eq_true_2 by done | rewrite bool_decide_eq_false_2 by done];
        simpl; [|split; [done | set_solver]].
      destruct (decide (HA.input_kind a = "raw_input")) as [->|Hne]; [by split; auto|].
      rewrite bool_decide_eq_false_2 by done. simpl.
      assert (HA.input_kind a = "semantic") as -> by set_solver.
      destruct (HA.element_index a), (HA.element_token a); simpl; split; intros; eauto 6.
      * done.
      * destruct H as (_ & [?|[_ [[? ?]|[? ?]]]]); done.
  - intros c H. unfold into_computer_use in H.
    apply rbind_ok in H as (_ & _ & H). repeat apply guard_ok in H as [_ H].
    cbv zeta in H. injection H as <-. cbn.
    split_and!; try done; [by apply canonical_action_idemp | |].
    + intros Ht. guard_step Ht; [|done]. reflect_all. done.
    + unfold uses_physical_keyboard. rewrite canonical_action_keyboard. reflect_goal. tauto.
Qed.

Lemma conversion_preserves_classification_witness :
  exists c, into_computer_use (sample_click ["A"] None) "o" = Ok c
  /\ CA.keys c = ["A"] /\ uses_physical_keyboard (sample_click ["A"] None) = true.
Proof.
  eexists. split; [reflexivity|].
  destruct (proj2 (conversion_preserves_classification (sample_click ["A"] None) "o")
              _ eq_refl) as (_ & _ & _ & Hk & _ & _ & _ & Hp).
  split; [exact Hk|]. apply Hp. right; left. rewrite Hk. discriminate.
Defined.

(** ** Properties of the queries *)

Lemma contains_refl s : contains s s = true.
Proof.
  assert (starts_with s s = true) as H.
  { unfold starts_with. assert (strip_prefix s s = Some "") as ->; [|done].
    apply strip_prefix_some. induction s as [|a s IH]; [done|].
    rewrite append_cons. by f_equal. }
  destruct s; cbn [contains]; by rewrite H.
Qed.

(** A query for the same text, at the other strictness. *)
Definition with_kind (c : WaitCondition.WaitCondition) (kind : string)
    : WaitCondition.WaitCondition := {|
  WaitCondition.kind := kind;
  WaitCondition.element_index := WaitCondition.element_index c;
  WaitCondition.text := WaitCondition.text c;
  WaitCondition.value := WaitCondition.value c;
  WaitCondition.timeout_ms := WaitCondition.timeout_ms c;
  WaitCondition.interval_ms := WaitCondition.interval_ms c |}.

Lemma wait_equals_contains c element :
  wait_matches (with_kind c "text_equals") element = true ->
  wait_matches (with_kind c "text_contains") element = true.
Proof.
  unfold wait_matches. cbn [WaitCondition.element_index with_kind WaitCondition.kind
    WaitCondition.text]. destruct (is_some_and _ _); [done|].
  decide_eqs. cbn [WaitCondition.text with_kind].
  destruct (WaitCondition.text c) as [expected|]; [|done]. cbn [is_some_and].
  rewrite !existsb_true. intros (s & Hin & Heq). reflect_all. subst s.
  exists expected. split; [|apply contains_refl].
  unfold element_strings in *. apply list_elem_of_omap in Hin as (f & Hf & Hs). apply list_elem_of_omap.
  exists f. split; [set_solver | done].
Qed.

Lemma wait_contains_present c element :
  wait_matches (with_kind c "text_contains") element = true ->
  wait_matches (with_kind c "element_present") element = true.
Proof. unfold wait_matches. cbn. by destruct (is_some_and _ _). Qed.

Lemma existsb_mono {A} (f g : A -> bool) l :
  (forall x, f x = true -> g x = true) -> existsb f l = true -> existsb g l = true.
Proof. rewrite !existsb_true. naive_solver. Qed.

(** a bounded search misses nothing it should return.  For an accepted
    query the limit is between 1 and 50, every element returned is one of the
    snapshot that matches, at most [limit] are returned, and a matching element
    is left out only when the limit is reached; and the wait conditions on a
    text are ordered by strictness: a snapshot that satisfies [text_equals]
    satisfies [text_contains], which satisfies [element_present]. *)
Theorem queries_are_sound_and_complete (root : value) (query : FindQuery.FindQuery)
    (limit : Z) (condition : WaitCondition.WaitCondition) :
  (validate_find query = Ok limit ->
     1 <= limit <= 50
     /\ len (find_elements root query limit) <= limit
     /\ (forall e, e ∈ find_elements root query limit ->
          find_matches query e = true /\ exists es, elements root = Some es /\ e ∈ es)
     /\ (forall es e, elements root = Some es -> e ∈ es -> find_matches query e = true ->
          e ∈ find_elements root query limit
          \/ len (find_elements root query limit) = limit))
  /\ (wait_condition_matches root (with_kind condition "text_equals") = true ->
      wait_condition_matches root (with_kind condition "text_contains") = true)
  /\ (wait_condition_matches root (with_kind condition "text_contains") = true ->
      wait_condition_matches root (with_kind condition "element_present") = true).
Proof.
  split_and!.
  - intros H. unfold validate_find in H. apply guard_ok in H as [_ [= <-]].
    set (n := clamp _ 1 50). assert (1 <= n <= 50) as Hn by (unfold n, clamp; lia).
    clearbody n. unfold find_elements, len. split_and!; try lia.
    + rewrite length_take. lia.
    + intros e He%elem_of_take. destruct He as (i & Hi & _).
      apply list_elem_of_lookup_2 in Hi.
      rewrite list_elem_of_In, filter_In, <- list_elem_of_In in Hi.
      destruct (elements root) as [es|]; [naive_solver|].
      destruct Hi as [Hi _]. by apply not_elem_of_nil in Hi.
    + intros es e -> He Hm. cbn [unwrap_or]. set (matches := List.filter _ _).
      destruct (decide (Z.to_nat n <= length matches)%nat).
      * right. rewrite length_take. lia.
      * left. rewrite take_ge by lia. unfold matches.
        rewrite list_elem_of_In, filter_In, <- list_elem_of_In. done.
  - unfold wait_condition_matches. destruct (elements root); [|done]. simpl.
    apply existsb_mono. intros e. apply wait_equals_contains.
  - unfold wait_condition_matches. destruct (elements root); [|done]. simpl.
    apply existsb_mono. intros e. apply wait_contains_present.
Qed.

Definition sample_root : value :=
  Object [("elements", Array
    [Object [("index", Number (PosInt 1)); ("name", Str "Save"); ("role", Str "button")];
     Object [("index", Number (PosInt 2)); ("name", Str "Save As"); ("role", Str "button")]])].
Definition sample_query : FindQuery.FindQuery :=
  {| FindQuery.text := Some "SAVE"; FindQuery.role := Some "Button";
     FindQuery.element_index := None; FindQuery.max_results := Some 1 |}.
Definition sample_condition : WaitCondition.WaitCondition :=
  {| WaitCondition.kind := "text_equals"; WaitCondition.element_index := Some 2;
     WaitCondition.text := Some "Save As"; WaitCondition.value := None;
     WaitCondition.timeout_ms := None; WaitCondition.interval_ms := None |}.

Lemma queries_are_sound_and_complete_witness :
  len (find_elements sample_root sample_query 1) = 1
  /\ 1 <= 1 <= 50
  /\ wait_condition_matches sample_root (with_kind sample_condition "text_contains") = true.
Proof.
  pose proof (queries_are_sound_and_complete sample_root sample_query 1 sample_condition)
    as (Hfind & Hwait & _).
  split; [vm_compute; reflexivity|]. split.
  - exact (proj1 (Hfind eq_refl)).
  - apply Hwait. vm_compute. reflexivity.
Defined.
