(* ===== verification/Confirmation.v ===== *)
(** * Trusted action confirmation ([crates/dcc-cua-host/src/action_confirmation.rs])

    An action that needs consent is described to the embedding host in a request
    whose digest binds the decision to one session, target, observation and
    action. *)

From S2P Require Import Prelude RustStr Json Errors HostAction.

Definition TRUSTED_ACTION_CONFIRMATION_SCHEMA : string :=
  "dcc-cua-trusted-action-confirmation-request-v2".

Module TrustedActionConfirmationRequest.
Record TrustedActionConfirmationRequest : Type := {
  schema : string;
  request_id : string;
  session_id : string;
  task_grant_id : string;
  window_capability : string;
  target_process_id : option Z;
  target_window_handle : option Z;
  observation_id : string;
  accessibility_state_id : option string;
  intent : string;
  action : value;
  request_digest : string;
}.
End TrustedActionConfirmationRequest.

Module UnsignedConfirmationRequest.
Record UnsignedConfirmationRequest : Type := {
  schema : string;
  request_id : string;
  session_id : string;
  task_grant_id : string;
  window_capability : string;
  target_process_id : option Z;
  target_window_handle : option Z;
  observation_id : string;
  accessibility_state_id : option string;
  intent : string;
  action : value;
}.
End UnsignedConfirmationRequest.

Module ConfirmationWindowIdentity.
Record ConfirmationWindowIdentity : Type := {
  process_id : Z;
  window_handle : Z;
}.
End ConfirmationWindowIdentity.

Module ConfirmationBinding.
Record ConfirmationBinding : Type := {
  session_id : string;
  task_grant_id : string;
  window_capability : string;
  target : option ConfirmationWindowIdentity.ConfirmationWindowIdentity;
  observation_id : string;
  accessibility_state_id : option string;
}.

Definition window (session_id task_grant_id window_capability : string)
    (target : ConfirmationWindowIdentity.ConfirmationWindowIdentity)
    (observation_id : string) (accessibility_state_id : option string)
    : ConfirmationBinding := {|
  session_id := session_id;
  task_grant_id := task_grant_id;
  window_capability := window_capability;
  target := Some target;
  observation_id := observation_id;
  accessibility_state_id := accessibility_state_id |}.

Definition desktop (session_id task_grant_id desktop_capability observation_id : string)
    : ConfirmationBinding := {|
  session_id := session_id;
  task_grant_id := task_grant_id;
  window_capability := desktop_capability;
  target := None;
  observation_id := observation_id;
  accessibility_state_id := None |}.
End ConfirmationBinding.

Module Req := TrustedActionConfirmationRequest.
Module Unsigned := UnsignedConfirmationRequest.
Module Binding := ConfirmationBinding.
Module Window := ConfirmationWindowIdentity.

(** [TrustedActionConfirmationAction]: the decision of the user. *)
Module Decision.
Inductive TrustedActionConfirmationAction : Type := Allow | Deny | Cancel.
Record TrustedActionConfirmationDecision : Type := {
  action : TrustedActionConfirmationAction;
  request_digest : string;
}.
End Decision.

Inductive ActionConfirmationOutcome : Type :=
| Allowed
| Required
| Denied
| Cancelled
| TaskAuthorizationRequired
| TaskAuthorizationOutOfScope
| TaskAuthorizationExpired
| TaskAuthorizationRevoked.

#[export] Instance ActionConfirmationOutcome_eq_dec :
  EqDecision ActionConfirmationOutcome.
Proof. solve_decision. Defined.

(** [TrustedActionConfirmationHost]: the embedding host, which may fail. *)
Definition TrustedActionConfirmationHost : Type :=
  Req.TrustedActionConfirmationRequest ->
  result string Decision.TrustedActionConfirmationDecision.

Section Requests.
(** The hexadecimal SHA-256 of the JSON encoding of the unsigned request, when
    it can be encoded, and the JSON encoding of an action. *)
Variable sha256_json : Unsigned.UnsignedConfirmationRequest -> result string string.
Variable to_value : HA.HostAction -> result string value.

(** [Uuid::new_v4] is the argument [uuid]. *)
Definition new_value (uuid : string) (binding : Binding.ConfirmationBinding)
    (intent : string) (action_value : value)
    : hresult Req.TrustedActionConfirmationRequest :=
  let target_process_id := option_map Window.process_id (Binding.target binding) in
  let target_window_handle := option_map Window.window_handle (Binding.target binding) in
  let unsigned :=
    {| Unsigned.schema := TRUSTED_ACTION_CONFIRMATION_SCHEMA;
       Unsigned.request_id := uuid;
       Unsigned.session_id := Binding.session_id binding;
       Unsigned.task_grant_id := Binding.task_grant_id binding;
       Unsigned.window_capability := Binding.window_capability binding;
       Unsigned.target_process_id := target_process_id;
       Unsigned.target_window_handle := target_window_handle;
       Unsigned.observation_id := Binding.observation_id binding;
       Unsigned.accessibility_state_id := Binding.accessibility_state_id binding;
       Unsigned.intent := intent;
       Unsigned.action := action_value |} in
  let? digest :=
    rmap_err (fun error =>
      HostError.Protocol ("could not digest action confirmation: " +:+ error))
      (sha256_json unsigned) in
  Ok {| Req.schema := TRUSTED_ACTION_CONFIRMATION_SCHEMA;
        Req.request_id := uuid;
        Req.session_id := Binding.session_id binding;
        Req.task_grant_id := Binding.task_grant_id binding;
        Req.window_capability := Binding.window_capability binding;
        Req.target_process_id := target_process_id;
        Req.target_window_handle := target_window_handle;
        Req.observation_id := Binding.observation_id binding;
        Req.accessibility_state_id := Binding.accessibility_state_id binding;
        Req.intent := intent;
        Req.action := action_value;
        Req.request_digest := "sha256:" +:+ digest |}.

Definition for_bound_window_action_value (uuid : string)
    (binding : Binding.ConfirmationBinding) (intent : string) (action : value)
    : hresult Req.TrustedActionConfirmationRequest :=
  new_value uuid binding intent action.

Definition new (uuid : string) (binding : Binding.ConfirmationBinding)
    (action : HA.HostAction) : hresult Req.TrustedActionConfirmationRequest :=
  let? action_value :=
    rmap_err (fun error =>
      HostError.Protocol ("could not bind action confirmation: " +:+ error))
      (to_value action) in
  new_value uuid binding (HA.intent action) action_value.

Definition for_desktop_action (uuid session_id task_grant_id desktop_capability
    observation_id : string) (action : HA.HostAction)
    : hresult Req.TrustedActionConfirmationRequest :=
  new uuid (Binding.desktop session_id task_grant_id desktop_capability observation_id)
    action.
End Requests.

Definition authorize_action_confirmation (host : option TrustedActionConfirmationHost)
    (grant_allows_confirmation : bool) (request : Req.TrustedActionConfirmationRequest)
    : ActionConfirmationOutcome :=
  if negb grant_allows_confirmation then Required
  else match host with
  | None => Required
  | Some host =>
      match host request with
      | Err _ => Required
      | Ok decision =>
          if Decision.request_digest decision != Req.request_digest request
          then Required
          else match Decision.action decision with
          | Decision.Allow => Allowed
          | Decision.Deny => Denied
          | Decision.Cancel => Cancelled
          end
      end
  end.

(** ** Properties *)

(** The content of a request that its digest covers: everything else. *)
Definition unsigned_of (r : Req.TrustedActionConfirmationRequest)
    : Unsigned.UnsignedConfirmationRequest := {|
  Unsigned.schema := Req.schema r;
  Unsigned.request_id := Req.request_id r;
  Unsigned.session_id := Req.session_id r;
  Unsigned.task_grant_id := Req.task_grant_id r;
  Unsigned.window_capability := Req.window_capability r;
  Unsigned.target_process_id := Req.target_process_id r;
  Unsigned.target_window_handle := Req.target_window_handle r;
  Unsigned.observation_id := Req.observation_id r;
  Unsigned.accessibility_state_id := Req.accessibility_state_id r;
  Unsigned.intent := Req.intent r;
  Unsigned.action := Req.action r |}.

Lemma new_value_digest sha256_json uuid binding intent action r :
  new_value sha256_json uuid binding intent action = Ok r ->
  exists digest, sha256_json (unsigned_of r) = Ok digest
    /\ Req.request_digest r = "sha256:" +:+ digest.
Proof.
  unfold new_value. intros H. apply rbind_ok in H as (digest & Hd%rmap_err_ok & H).
  injection H as <-. exists digest. done.
Qed.

Lemma authorize_allowed host grant request :
  authorize_action_confirmation host grant request = Allowed <->
  grant = true /\ exists confirm decision, host = Some confirm
    /\ confirm request = Ok decision
    /\ Decision.action decision = Decision.Allow
    /\ Decision.request_digest decision = Req.request_digest request.
Proof.
  unfold authorize_action_confirmation. split.
  - intros H. repeat guard_step H. reflect_all. split; [done|]. eauto 6.
  - intros (-> & confirm & decision & -> & -> & Ha & Hd). simpl.
    rewrite bool_decide_eq_true_2 by done. simpl. by rewrite Ha.
Qed.

(** consent is explicit and bound to one request.  An action is allowed only
    if the grant permits confirmations and the embedding host answered [Allow]
    for this very request; no failure, missing host or stale answer allows it.
    An answer given for a request is accepted for another one only when the two
    agree on everything: identity, session, grant, capability, target window,
    observation, intent and action, unless the two contents collide under
    SHA-256. *)
Theorem confirmation_is_explicit_and_bound
    (sha256_json : Unsigned.UnsignedConfirmationRequest -> result string string)
    (host : option TrustedActionConfirmationHost) (grant : bool)
    (uuid1 uuid2 : string) (b1 b2 : Binding.ConfirmationBinding)
    (intent1 intent2 : string) (action1 action2 : value)
    (r1 r2 : Req.TrustedActionConfirmationRequest)
    (answer : Decision.TrustedActionConfirmationDecision) :
  new_value sha256_json uuid1 b1 intent1 action1 = Ok r1 ->
  new_value sha256_json uuid2 b2 intent2 action2 = Ok r2 ->
  (forall confirm, host = Some confirm -> confirm r1 = Ok answer) ->
  Decision.request_digest answer = Req.request_digest r2 ->
  (sha256_json (unsigned_of r1) = sha256_json (unsigned_of r2) ->
     unsigned_of r1 = unsigned_of r2) ->
  authorize_action_confirmation host grant r1 = Allowed ->
  grant = true /\ Decision.action answer = Decision.Allow
  /\ uuid1 = uuid2 /\ b1 = b2 /\ intent1 = intent2 /\ action1 = action2.
Proof.
  intros H1 H2 Hhost Hanswer Hcoll Hallow.
  apply authorize_allowed in Hallow as (-> & confirm & d & -> & Hc & Ha & Hd).
  rewrite (Hhost confirm) in Hc by done. injection Hc as <-.
  destruct (new_value_digest _ _ _ _ _ _ H1) as (d1 & Hd1 & Hr1).
  destruct (new_value_digest _ _ _ _ _ _ H2) as (d2 & Hd2 & Hr2).
  assert (d1 = d2) as <- by (apply (inj (String.append "sha256:")); congruence).
  assert (unsigned_of r1 = unsigned_of r2) as Hu by (apply Hcoll; congruence).
  unfold new_value in H1, H2.
  apply rbind_ok in H1 as (? & _ & H1), H2 as (? & _ & H2).
  injection H1 as <-. injection H2 as <-. unfold unsigned_of in Hu. simpl in Hu.
  injection Hu as -> Es Eg Ec Ep Ew Eo Ea -> ->.
  split_and!; try done. destruct b1 as [s1 g1 c1 t1 o1 a1], b2 as [s2 g2 c2 t2 o2 a2].
  simpl in *. subst. f_equal.
  destruct t1 as [[p1 w1]|], t2 as [[p2 w2]|]; simpl in *; congruence.
Qed.

(** A toy digest for the witness: the request id. *)
Definition sample_sha256 (u : Unsigned.UnsignedConfirmationRequest)
    : result string string := Ok (Unsigned.request_id u).
Definition sample_binding : Binding.ConfirmationBinding :=
  Binding.window "s" "g" "c" {| Window.process_id := 7; Window.window_handle := 9 |} "o" None.
Definition sample_request : Req.TrustedActionConfirmationRequest :=
  match new_value sample_sha256 "u" sample_binding "navigate" Null with
  | Ok r => r
  | Err _ => {| Req.schema := ""; Req.request_id := ""; Req.session_id := "";
      Req.task_grant_id := ""; Req.window_capability := ""; Req.target_process_id := None;
      Req.target_window_handle := None; Req.observation_id := "";
      Req.accessibility_state_id := None; Req.intent := ""; Req.action := Null;
      Req.request_digest := "" |}
  end.
Definition sample_host : TrustedActionConfirmationHost := fun request =>
  Ok {| Decision.action := Decision.Allow;
        Decision.request_digest := Req.request_digest request |}.

Lemma confirmation_is_explicit_and_bound_witness :
  authorize_action_confirmation (Some sample_host) true sample_request = Allowed
  /\ true = true.
Proof.
  assert (authorize_action_confirmation (Some sample_host) true sample_request = Allowed)
    as H by (vm_compute; reflexivity).
  split; [exact H|].
  refine (proj1 (confirmation_is_explicit_and_bound sample_sha256 (Some sample_host) true
    "u" "u" sample_binding sample_binding "navigate" "navigate" Null Null
    sample_request sample_request
    {| Decision.action := Decision.Allow; Decision.request_digest := "sha256:u" |}
    _ _ _ _ _ H)).
  - reflexivity.
  - reflexivity.
  - intros confirm [= <-]. reflexivity.
  - reflexivity.
  - reflexivity.
Defined.
