(* ===== verification/Platform.v ===== *)
(** * The platform of the Host

    What the Host asks of its platform and of third-party crates: file metadata,
    URL parsing and content digests.  They are parameters of the model, grouped
    in type classes; the path operations of the standard library are defined, for
    a Unix build.  On top of them, the checks on browser origins and on output
    directories ([crates/dcc-cua-host/src/task_authorization.rs] and
    [task_grant.rs]). *)

From S2P Require Import Prelude RustStr Json Errors.

(** ** Parameters *)

(** The parts of a parsed URL that are observed ([url::Url]). *)
Module Url.
Record Url : Type := {
  scheme : string;
  has_host : bool;
  username : string;
  password : option string;
  path : string;
  query : option string;
  fragment : option string;
  origin_ascii_serialization : string;
}.
End Url.

(** The parts of [std::fs::Metadata] that are observed. *)
Module Metadata.
Record Metadata : Type := { is_dir : bool; is_symlink : bool }.
End Metadata.

Class Platform : Type := {
  (** [url::Url::parse]. *)
  url_parse : string -> option Url.Url;
  (** [std::fs::symlink_metadata]: does not follow a final symbolic link. *)
  symlink_metadata : string -> option Metadata.Metadata;
}.

(** The platform while its files are the given ones: a later look may find others. *)
Definition at_files `{P : Platform} (files : string -> option Metadata.Metadata) : Platform :=
  {| url_parse := url_parse; symlink_metadata := files |}.

(** The SHA-256, in hexadecimal, of the JSON encoding of a value, when the value
    can be encoded ([serde_json::to_vec] and [sha2]). *)
Class Digestible (A : Type) : Type := sha256_json : A -> result string string.

Definition digest {A} `{Digestible A} (v : A) (context : string) : hresult string :=
  let? encoded :=
    rmap_err (fun error =>
      HostError.Protocol ("could not digest " +:+ context +:+ ": " +:+ error))
      (sha256_json v) in
  Ok ("sha256:" +:+ encoded).

(** ** Unix paths *)

(** The byte [/]. *)
Definition slash : ascii := Ascii.Ascii true true true true false true false false.
Definition is_slash (a : ascii) : bool := byte_of a =? 47.

Inductive Component : Type :=
| RootDir
| CurDir
| ParentDir
| Normal (name : string).

(** [Path::components]: repeated separators and inner [.] parts are skipped. *)
Definition part_component (part : string) : option Component :=
  if str_is_empty part || (part == ".") then None
  else if part == ".." then Some ParentDir
  else Some (Normal part).

Definition components (path : string) : list Component :=
  if starts_with "/" path
  then RootDir :: omap part_component (split_on is_slash path)
  else match split_on is_slash path with
  | "." :: parts => CurDir :: omap part_component parts
  | parts => omap part_component parts
  end.

Definition path_is_absolute (path : string) : bool := starts_with "/" path.

(** Drops the longest suffix of bytes that satisfy [p]. *)
Fixpoint drop_end (p : ascii -> bool) (s : string) : string :=
  match s with
  | EmptyString => EmptyString
  | String a s =>
      let rest := drop_end p s in
      if str_is_empty rest && p a then EmptyString else String a rest
  end.

(** [Path::parent] of an absolute path without [.] parts. *)
Definition path_parent (path : string) : option string :=
  let path := drop_end is_slash path in
  if str_is_empty path then None
  else
    let parent := drop_end is_slash (drop_end (fun a => negb (is_slash a)) path) in
    Some (if str_is_empty parent then "/" else parent).

(** [Path::ancestors]: the path itself, as it is written, then its parents. *)
Fixpoint ancestors_fuel (fuel : nat) (path : string) : list string :=
  match fuel with
  | O => [path]
  | S fuel =>
      path :: match path_parent path with
              | Some parent => ancestors_fuel fuel parent
              | None => []
              end
  end.
Definition ancestors (path : string) : list string :=
  ancestors_fuel (String.length path) path.

(** ** Browser origins *)

Section Checks.
Context `{P : Platform}.

Definition valid_browser_origin (value : string) : bool :=
  if str_is_empty value || (2048 <? str_len value) then false
  else match url_parse value with
  | None => false
  | Some origin =>
      (Url.scheme origin ∈? ["http"; "https"])
      && Url.has_host origin
      && str_is_empty (Url.username origin)
      && is_none (Url.password origin)
      && (Url.path origin == "/")
      && is_none (Url.query origin)
      && is_none (Url.fragment origin)
      && (Url.origin_ascii_serialization origin == value)
  end.

(** ** Output directories *)

(** A component that may not occur in an output directory. *)
Definition forbidden_component (component : Component) : bool :=
  match component with
  | CurDir | ParentDir => true
  | Normal name => contains ":" name || ends_with "." name || ends_with " " name
  | RootDir => false
  end.

Definition is_separator (a : ascii) : bool := (byte_of a =? 47) || (byte_of a =? 92).

Definition validate_recording_output_dir (value : string) : hresult unit :=
  if str_is_empty value
     || (value != trim value)
     || (4096 <? str_len value)
     || any_char is_control value
     || existsb (fun part => part ∈? ["."; ".."]) (split_on is_separator value)
     || negb (path_is_absolute value)
     || existsb forbidden_component (components value)
  then Err (HostError.Protocol
    "recording_output_dir must be an exact absolute directory without traversal or alternate streams")
  else Ok tt.

Definition validate_ancestor (path : string) : hresult unit :=
  let? metadata :=
    ok_or (symlink_metadata path)
      (HostError.Protocol
        "recording output must be a pre-created directory with ordinary ancestors") in
  if negb (Metadata.is_dir metadata) || Metadata.is_symlink metadata
  then Err (HostError.Protocol
    "recording output cannot traverse a file, symlink or reparse directory")
  else Ok tt.

Definition validate_recording_output_location (value : string) : hresult unit :=
  check? validate_recording_output_dir value in
  try_each validate_ancestor (ancestors value).
End Checks.

(** ** Properties *)

Lemma drop_end_length p s : (String.length (drop_end p s) <= String.length s)%nat.
Proof. induction s as [|a s IH]; simpl; [lia|]. case_match; simpl; lia. Qed.

Example ancestors_of_a_path :
  ancestors "/srv//out/rec/" = ["/srv//out/rec/"; "/srv//out"; "/srv"; "/"].
Proof. reflexivity. Qed.

Lemma drop_end_snoc p u b :
  p b = true -> drop_end p (u +:+ String b "") = drop_end p u.
Proof.
  intros Hb. induction u as [|c u IH].
  - rewrite append_nil_l. simpl. by rewrite Hb.
  - rewrite append_cons. simpl. by rewrite IH.
Qed.

(** What is left ends with a byte that is kept. *)
Lemma drop_end_last p s :
  drop_end p s <> "" ->
  exists u b, drop_end p s = u +:+ String b "" /\ p b = false.
Proof.
  induction s as [|a s IH]; [done|]. cbn [drop_end]. intros H.
  destruct (decide (drop_end p s = "")) as [Hd|Hd].
  - rewrite Hd in *. destruct (p a) eqn:Ha; [done|].
    exists "", a. by rewrite append_nil_l.
  - destruct (IH Hd) as (u & b & Hu & Hb). exists (String a u), b.
    apply str_is_empty_false in Hd. rewrite Hd, append_cons. simpl. by rewrite Hu.
Qed.

Lemma length_snoc u b : String.length (u +:+ String b "") = S (String.length u).
Proof.
  induction u as [|c u IH]; [by rewrite append_nil_l|].
  rewrite append_cons. simpl. by rewrite IH.
Qed.

Lemma absolute_cons s :
  path_is_absolute s = true <-> exists r, s = String slash r.
Proof.
  unfold path_is_absolute. rewrite starts_with_true.
  setoid_rewrite append_cons. by setoid_rewrite append_nil_l.
Qed.

Lemma path_parent_absolute path q :
  path_is_absolute path = true -> path_parent path = Some q ->
  path_is_absolute q = true /\ (String.length q < String.length path)%nat.
Proof.
  intros (r & ->)%absolute_cons H. unfold path_parent in H.
  set (q0 := drop_end is_slash (String slash r)) in H.
  destruct (decide (q0 = "")) as [E|Hne]; [by rewrite E in H|].
  pose proof (drop_end_length is_slash (String slash r)) as Hlen. fold q0 in Hlen.
  assert (exists r0, q0 = String slash r0) as (r0 & Hq0).
  { unfold q0 in *. cbn [drop_end] in *. case_match; [done | eauto]. }
  destruct (drop_end_last _ _ Hne) as (u & b & Hu & Hb). fold q0 in Hu.
  apply str_is_empty_false in Hne. rewrite Hne in H. clear Hne.
  assert (String.length (drop_end (fun a => negb (is_slash a)) q0) <= String.length u)%nat
    as Hlt by (rewrite Hu, drop_end_snoc by (by rewrite Hb); apply drop_end_length).
  rewrite Hu, length_snoc in Hlen.
  assert (exists r1, drop_end (fun a => negb (is_slash a)) q0 = String slash r1) as (r1 & Hr1).
  { rewrite Hq0. cbn [drop_end]. change (negb (is_slash slash)) with false.
    rewrite andb_false_r. eauto. }
  rewrite Hr1 in H, Hlt. pose proof (drop_end_length is_slash (String slash r1)) as Hlen1.
  cbn [String.length] in *.
  destruct (drop_end is_slash (String slash r1)) as [|a q1] eqn:Eq; injection H as <-.
  - split; [done|]. simpl. lia.
  - cbn [drop_end] in Eq. case_match; [done|]. injection Eq as <- _.
    split; [apply absolute_cons; eauto|]. simpl in *. lia.
Qed.

(** The fuel is enough: the ancestors are closed under [path_parent]. *)
Lemma ancestors_closed path :
  path_is_absolute path = true ->
  path ∈ ancestors path /\
  forall p q, p ∈ ancestors path -> path_parent p = Some q -> q ∈ ancestors path.
Proof.
  intros Habs. split; [unfold ancestors; destruct (String.length path); by left|].
  unfold ancestors. generalize (le_n (String.length path)).
  generalize (String.length path) at 2 3 4. intros fuel. revert path Habs.
  induction fuel as [|fuel IH]; intros path Habs Hfuel p q Hp Hq.
  - apply absolute_cons in Habs as (r & ->). simpl in Hfuel. lia.
  - cbn [ancestors_fuel] in *. destruct (path_parent path) as [parent|] eqn:E.
    + destruct (path_parent_absolute _ _ Habs E) as [Habs' Hlt].
      apply elem_of_cons in Hp as [->|Hp]; right.
      * assert (q = parent) as -> by congruence. destruct fuel; by left.
      * eapply IH; [done | lia | done | done].
    + apply elem_of_cons in Hp as [->|Hp]; [congruence|]. by apply not_elem_of_nil in Hp.
Qed.

(** an accepted output location cannot leave its directory.  The path is
    absolute, has no [.] or [..] part under either separator, and every path on
    the way to it, the path itself and its parents up to the root, exists and is
    a real directory, not a symbolic link, when looked up as written. *)
Theorem accepted_output_location_is_ordinary `{P : Platform} (value : string) :
  validate_recording_output_location value = Ok tt ->
  path_is_absolute value = true
  /\ "." ∉ split_on is_separator value /\ ".." ∉ split_on is_separator value
  /\ value ∈ ancestors value
  /\ (forall p q, p ∈ ancestors value -> path_parent p = Some q -> q ∈ ancestors value)
  /\ (forall p, p ∈ ancestors value ->
      symlink_metadata p
      = Some {| Metadata.is_dir := true; Metadata.is_symlink := false |}).
Proof.
  unfold validate_recording_output_location. intros H.
  apply rbind_ok in H as ([] & Hdir & Hanc).
  unfold validate_recording_output_dir in Hdir. guard_step Hdir.
  repeat match goal with H : _ || _ = false |- _ => apply orb_false_iff in H as [? ?] end.
  match goal with H : negb (path_is_absolute value) = false |- _ =>
    apply negb_false_iff in H as Habs end.
  match goal with H : existsb _ (split_on is_separator value) = false |- _ =>
    rewrite existsb_false in H; rename H into Hparts end.
  destruct (ancestors_closed value Habs) as [Hself Hclosed].
  split_and!; [done | | | done | done |].
  - intros Hin%Hparts. by apply bool_decide_eq_false in Hin; set_solver.
  - intros Hin%Hparts. by apply bool_decide_eq_false in Hin; set_solver.
  - intros p Hp. rewrite try_each_ok in Hanc. specialize (Hanc p Hp).
    unfold validate_ancestor in Hanc. apply rbind_ok in Hanc as (m & Hm%ok_or_ok & Hanc).
    guard_step Hanc. destruct m as [dir link]. simpl in *. reflect_all. by subst.
Qed.

(** Every path on the way to a directory is a directory and not a link. *)
Definition ordinary_way (files : string -> option Metadata.Metadata) (path : string) : Prop :=
  forall p, p ∈ ancestors path ->
    files p = Some {| Metadata.is_dir := true; Metadata.is_symlink := false |}.

(** What the check asks of the text of the path, and what of the files of the moment. *)
Lemma output_location_ok `{P : Platform} files value :
  validate_recording_output_location (P := at_files files) value = Ok tt
  <-> validate_recording_output_dir value = Ok tt /\ ordinary_way files value.
Proof.
  unfold validate_recording_output_location. rewrite rbind_ok. split.
  - intros ([] & Hdir & Hanc). split; [done|]. intros p Hp. rewrite try_each_ok in Hanc.
    specialize (Hanc p Hp). unfold validate_ancestor in Hanc. cbn in Hanc.
    apply rbind_ok in Hanc as (m & Hm%ok_or_ok & Hanc). apply guard_ok in Hanc as [Hk _].
    destruct m as [dir link]. rewrite Hm. cbn in Hk. by destruct dir, link.
  - intros [Hdir Hway]. exists tt. split; [done|]. apply try_each_ok. intros p Hp.
    unfold validate_ancestor. cbn. by rewrite (Hway p Hp).
Qed.

(** A platform with a small file tree, whose look-ups follow POSIX: a trailing
    slash makes [lstat] follow a final symbolic link. *)
Inductive node : Type := Directory | Link (target : string).

Definition posix_lstat (tree : string -> option node) (path : string)
    : option Metadata.Metadata :=
  let bare := drop_end is_slash path in
  let directory := {| Metadata.is_dir := true; Metadata.is_symlink := false |} in
  match tree (if str_is_empty bare then "/" else bare) with
  | None => None
  | Some Directory => Some directory
  | Some (Link target) =>
      if ends_with "/" path
      then match tree target with Some Directory => Some directory | _ => None end
      else Some {| Metadata.is_dir := false; Metadata.is_symlink := true |}
  end.

Definition sample_tree (path : string) : option node :=
  if path ∈? ["/"; "/srv"; "/home"; "/srv/out"] then Some Directory
  else if path == "/srv/rec" then Some (Link "/home") else None.

(** URLs of the sample platform: an origin parses to itself. *)
Definition sample_platform : Platform := {|
  url_parse value :=
    if starts_with "https://" value
    then Some {| Url.scheme := "https"; Url.has_host := true; Url.username := "";
                 Url.password := None; Url.path := "/"; Url.query := None;
                 Url.fragment := None; Url.origin_ascii_serialization := value |}
    else None;
  symlink_metadata := posix_lstat sample_tree |}.

Lemma accepted_output_location_is_ordinary_witness :
  validate_recording_output_location (P := sample_platform) "/srv/out" = Ok tt
  /\ posix_lstat sample_tree "/srv"
     = Some {| Metadata.is_dir := true; Metadata.is_symlink := false |}.
Proof.
  assert (validate_recording_output_location (P := sample_platform) "/srv/out" = Ok tt)
    as H by (vm_compute; reflexivity).
  split; [exact H|].
  refine (proj2 (proj2 (proj2 (proj2 (proj2
    (accepted_output_location_is_ordinary (P := sample_platform) "/srv/out" H)))))
    "/srv" _).
  change (ancestors "/srv/out") with ["/srv/out"; "/srv"; "/"]. right. left.
Defined.

(** on a POSIX platform the rejection of symbolic links can be bypassed: a
    directory nominated with a trailing slash is accepted although its last
    component is a symbolic link, which the same path without the slash shows. *)
Theorem trailing_slash_hides_a_symlink :
  validate_recording_output_location (P := sample_platform) "/srv/rec/" = Ok tt
  /\ is_err (validate_recording_output_location (P := sample_platform) "/srv/rec") = true
  /\ posix_lstat sample_tree "/srv/rec"
     = Some {| Metadata.is_dir := false; Metadata.is_symlink := true |}.
Proof. split_and!; vm_compute; reflexivity. Qed.
