(* ===== verification/TaskGrant.v ===== *)
(** * Task grants ([crates/dcc-cua-host/src/task_grant.rs])

    The grant a client presents when it opens a session: the exact target, the
    permissions, and the trusted task authorization it claims. *)

From S2P Require Import Prelude Records RustStr Json Errors Confirmation Platform.

Definition MAX_APPLICATION_LABEL_CHARS : Z := 80.
Definition MAX_TASK_GRANT_ID_CHARS : Z := 128.
(** [task_authorization.rs]. *)
Definition MAX_TASK_AUTHORIZATION_ID_CHARS : Z := 128.

(** ** Observation modes *)

Inductive TaskObservationMode : Type := Semantic | PixelsOnly.

#[export] Instance TaskObservationMode_eq_dec : EqDecision TaskObservationMode.
Proof. solve_decision. Defined.

Definition pixels_only_methods : list string :=
  ["get_window_state"; "change_window_state"; "minimize_window"; "set_window_frame";
   "snapshot"; "execute_action"; "get_session_state"; "get_input_state";
   "session_health"; "poll_session_events"; "live_observation_start";
   "live_observation_state"; "live_observation_stop"; "recording_start";
   "recording_state"; "recording_stop"; "capture_preparation_begin";
   "capture_preparation_state"; "capture_preparation_stop";
   "capture_preparation_snapshot"].

Definition permits_method (self : TaskObservationMode) (method : string) : bool :=
  (self == Semantic) || (method ∈? pixels_only_methods).

(** ** Owned browsers ([dcc-cua-core/src/contracts.rs]) *)

Inductive ComputerUseOwnedBrowserFamily : Type := Chromium.
Inductive ComputerUseOwnedBrowserProfile : Type := IsolatedNew.

Module ComputerUseOwnedBrowserLaunchSpec.
Record ComputerUseOwnedBrowserLaunchSpec : Type := {
  browser : ComputerUseOwnedBrowserFamily;
  profile : ComputerUseOwnedBrowserProfile;
}.
End ComputerUseOwnedBrowserLaunchSpec.

(** ** The grant *)

Module TaskGrant.
Record TaskGrant : Type := {
  task_grant_id : string;
  application_label : string;
  observation_mode : TaskObservationMode;
  process_id : option Z;
  window_handle : option Z;
  window_title : option string;
  owned_browser_launch :
    option ComputerUseOwnedBrowserLaunchSpec.ComputerUseOwnedBrowserLaunchSpec;
  allowed_browser_origins : list string;
  allow_raw_input : bool;
  allow_app_launch : bool;
  allow_app_terminate : bool;
  allow_clipboard_read : bool;
  allow_clipboard_write : bool;
  allow_recording : bool;
  allow_capture_preparation : bool;
  showcase_output_dir : option string;
  recording_output_dir : option string;
  allow_live_observation : bool;
  allow_browser_input : bool;
  allow_browser_prepare : bool;
  allow_browser_download : bool;
  allow_native_tool : bool;
  allow_menu_invoke : bool;
  allow_session_escalation : bool;
  allow_trusted_confirmation : bool;
  task_authorization_id : option string;
  task_authorization_window_capability : option string;
}.

#[global] Instance TaskGrant_settable : Settable TaskGrant := fun s => {|
  task_grant_id := task_grant_id s;
  application_label := application_label s;
  observation_mode := observation_mode s;
  process_id := process_id s;
  window_handle := window_handle s;
  window_title := window_title s;
  owned_browser_launch := owned_browser_launch s;
  allowed_browser_origins := allowed_browser_origins s;
  allow_raw_input := allow_raw_input s;
  allow_app_launch := allow_app_launch s;
  allow_app_terminate := allow_app_terminate s;
  allow_clipboard_read := allow_clipboard_read s;
  allow_clipboard_write := allow_clipboard_write s;
  allow_recording := allow_recording s;
  allow_capture_preparation := allow_capture_preparation s;
  showcase_output_dir := showcase_output_dir s;
  recording_output_dir := recording_output_dir s;
  allow_live_observation := allow_live_observation s;
  allow_browser_input := allow_browser_input s;
  allow_browser_prepare := allow_browser_prepare s;
  allow_browser_download := allow_browser_download s;
  allow_native_tool := allow_native_tool s;
  allow_menu_invoke := allow_menu_invoke s;
  allow_session_escalation := allow_session_escalation s;
  allow_trusted_confirmation := allow_trusted_confirmation s;
  task_authorization_id := task_authorization_id s;
  task_authorization_window_capability := task_authorization_window_capability s;
|}.
End TaskGrant.

Module Grant := TaskGrant.

Definition validate_identity_field (value : string) (max_chars : Z) (name : string)
    : hresult unit :=
  if negb (identity_shape value max_chars)
  then Err (HostError.Protocol
    (name +:+ " must contain 1.." +:+ show max_chars
     +:+ " printable characters without surrounding whitespace"))
  else Ok tt.

(** [task_authorization::validate_authorization_id]. *)
Definition validate_authorization_id (value : string) : hresult unit :=
  if negb (identity_shape value MAX_TASK_AUTHORIZATION_ID_CHARS)
  then Err (HostError.Protocol
    ("task_authorization_id must contain 1.." +:+ show MAX_TASK_AUTHORIZATION_ID_CHARS
     +:+ " printable characters without surrounding whitespace"))
  else Ok tt.

(** [matches!(id, Some(id) if id != 0)]. *)
Definition nonzero (id : option Z) : bool := is_some_and (fun id => negb (id =? 0)) id.

(** An early return of the validation: [Err] when the condition holds. *)
Definition reject_if (b : bool) (message : string) : hresult unit :=
  if b then Err (HostError.Protocol message) else Ok tt.

Section Validation.
Context `{P : Platform}.

Definition validate_identity (self : Grant.TaskGrant) : hresult unit :=
  check? validate_identity_field (Grant.task_grant_id self) MAX_TASK_GRANT_ID_CHARS
           "task_grant_id" in
  check? validate_identity_field (Grant.application_label self)
           MAX_APPLICATION_LABEL_CHARS "application_label" in
  check? reject_if
    ((Grant.observation_mode self == PixelsOnly)
     && (negb (nonzero (Grant.process_id self))
         || negb (nonzero (Grant.window_handle self))
         || is_some (Grant.window_title self)
         || is_some (Grant.owned_browser_launch self)))
    "pixels_only requires an exact nonzero process_id/window_handle without a title or owned browser launch" in
  check? match Grant.task_authorization_id self with
         | Some authorization_id => validate_authorization_id authorization_id
         | None => Ok tt
         end in
  check? match Grant.task_authorization_id self,
               Grant.task_authorization_window_capability self with
         | Some _, Some capability =>
             validate_identity_field capability 512 "task_authorization_window_capability"
         | Some _, None => Err (HostError.Protocol
             "task_authorization_id requires task_authorization_window_capability")
         | None, Some _ => Err (HostError.Protocol
             "task_authorization_window_capability requires task_authorization_id")
         | None, None => Ok tt
         end in
  check? if is_some (Grant.owned_browser_launch self)
         then
           check? reject_if
             (is_some (Grant.process_id self) || is_some (Grant.window_handle self)
              || is_some (Grant.window_title self) || Grant.allow_app_launch self
              || Grant.allow_browser_prepare self)
             "owned_browser_launch cannot nominate a target, launch an app, or grant browser_prepare" in
           reject_if (is_none (Grant.task_authorization_id self))
             "owned_browser_launch requires trusted task authorization"
         else Ok tt in
  check? reject_if
    (Grant.allow_capture_preparation self
     && ((Grant.observation_mode self != PixelsOnly)
         || is_none (Grant.task_authorization_id self)))
    "capture preparation requires a trusted pixels_only exact-window task" in
  check? reject_if
    (is_some (Grant.showcase_output_dir self) && negb (Grant.allow_recording self))
    "showcase_output_dir requires allow_recording" in
  check? reject_if
    (is_some (Grant.recording_output_dir self) && negb (Grant.allow_recording self))
    "recording_output_dir requires allow_recording" in
  check? match Grant.recording_output_dir self with
         | Some output_dir => validate_recording_output_dir output_dir
         | None => Ok tt
         end in
  check? reject_if
    ((Grant.observation_mode self == PixelsOnly) && Grant.allow_recording self
     && (is_none (Grant.recording_output_dir self)
         || is_none (Grant.task_authorization_id self)
         || is_some (Grant.showcase_output_dir self)
         || negb (Grant.allow_live_observation self)))
    "pixels_only recording requires trusted manual output authorization and live observation; automatic showcase attach is unavailable" in
  reject_if
    ((32 <? len (Grant.allowed_browser_origins self))
     || existsb (fun origin => negb (valid_browser_origin origin))
          (Grant.allowed_browser_origins self)
     || negb (set_len (Grant.allowed_browser_origins self)
              =? len (Grant.allowed_browser_origins self)))
    "allowed_browser_origins must contain at most 32 unique exact HTTP(S) origins".
End Validation.

Definition reject_task_authorization (self : Grant.TaskGrant) (route : string)
    : hresult unit :=
  if Grant.observation_mode self == PixelsOnly
  then Err (HostError.Protocol
    ("pixels_only cannot authorize the global " +:+ route +:+ " route"))
  else if is_some (Grant.task_authorization_id self)
  then Err (HostError.coded_protocol HostProtocolErrorCode.TaskAuthorizationDenied
    ("task authorization cannot authorize the global " +:+ route +:+ " route"))
  else Ok tt.

Definition reject_task_authorization_activation (self : Grant.TaskGrant)
    (activate_before : bool) : hresult unit :=
  if is_some (Grant.task_authorization_id self) && activate_before
  then Err (HostError.coded_protocol HostProtocolErrorCode.TaskAuthorizationDenied
    "task-authorized sessions cannot activate a window during open_session")
  else Ok tt.

Definition task_authorization_preflight_target (self : Grant.TaskGrant)
    : hresult (option Window.ConfirmationWindowIdentity) :=
  if is_none (Grant.task_authorization_id self)
     || is_some (Grant.owned_browser_launch self)
  then Ok None
  else
    let required := Err (HostError.coded_protocol
      HostProtocolErrorCode.TaskAuthorizationRequired
      "task authorization requires an exact nonzero process_id and window_handle before opening the session") in
    match Grant.process_id self, Grant.window_handle self with
    | Some process_id, Some window_handle =>
        if negb (process_id =? 0) && negb (window_handle =? 0)
        then Ok (Some {| Window.process_id := process_id;
                         Window.window_handle := window_handle |})
        else required
    | _, _ => required
    end.

(** ** Properties *)

Lemma reject_if_ok b message : reject_if b message = Ok tt <-> b = false.
Proof. destruct b; naive_solver. Qed.
#[export] Hint Rewrite reject_if_ok : result_ok.

Lemma validate_identity_field_ok value max name :
  validate_identity_field value max name = Ok tt <-> identity_shape value max = true.
Proof. unfold validate_identity_field. destruct (identity_shape value max); naive_solver. Qed.
Lemma validate_authorization_id_ok value :
  validate_authorization_id value = Ok tt
  <-> identity_shape value MAX_TASK_AUTHORIZATION_ID_CHARS = true.
Proof. unfold validate_authorization_id. destruct (identity_shape value _); naive_solver. Qed.
#[export] Hint Rewrite validate_identity_field_ok validate_authorization_id_ok : result_ok.

Lemma nonzero_true id : nonzero id = true <-> exists n, id = Some n /\ n <> 0.
Proof.
  unfold nonzero. rewrite is_some_and_true. setoid_rewrite negb_true_iff.
  by setoid_rewrite Z.eqb_neq.
Qed.

(** a validated grant is coherent.  A pixels-only grant names one exact
    non-zero window, which a claimed authorization then binds; an authorization
    claim always comes with its window capability; an owned browser is launched
    only under an authorization and names no target of its own; capture
    preparation needs a pixels-only authorized grant; output directories need the
    recording permission; the browser origins are at most 32 distinct exact
    origins.  And a pixels-only or authorized grant never opens a global route. *)
Theorem validated_grant_is_coherent `{P : Platform} (g : Grant.TaskGrant) :
  validate_identity g = Ok tt ->
  (Grant.observation_mode g = PixelsOnly ->
     exists p w, Grant.process_id g = Some p /\ p <> 0
       /\ Grant.window_handle g = Some w /\ w <> 0
       /\ Grant.window_title g = None /\ Grant.owned_browser_launch g = None
       /\ (is_Some (Grant.task_authorization_id g) ->
           task_authorization_preflight_target g
           = Ok (Some {| Window.process_id := p; Window.window_handle := w |})))
  /\ (is_Some (Grant.task_authorization_id g)
      <-> is_Some (Grant.task_authorization_window_capability g))
  /\ (is_Some (Grant.owned_browser_launch g) ->
        is_Some (Grant.task_authorization_id g) /\ Grant.process_id g = None
        /\ Grant.window_handle g = None /\ Grant.window_title g = None
        /\ Grant.allow_app_launch g = false)
  /\ (Grant.allow_capture_preparation g = true ->
        Grant.observation_mode g = PixelsOnly /\ is_Some (Grant.task_authorization_id g))
  /\ (is_Some (Grant.recording_output_dir g) \/ is_Some (Grant.showcase_output_dir g) ->
        Grant.allow_recording g = true)
  /\ (len (Grant.allowed_browser_origins g) <= 32
      /\ NoDup (Grant.allowed_browser_origins g)
      /\ forall o, o ∈ Grant.allowed_browser_origins g -> valid_browser_origin o = true)
  /\ (forall route, Grant.observation_mode g = PixelsOnly
        \/ is_Some (Grant.task_authorization_id g) ->
        is_err (reject_task_authorization g route) = true).
Proof.
  unfold validate_identity. intros H. open_ok.
  rename H1 into Hpixels, H3 into Hclaim, H4 into Hlaunch, H5 into Hprep, H6 into Hshow,
    H7 into Hrec, H10 into Horigins.
  split_and!.
  - intros Hm. rewrite Hm, bool_decide_eq_true_2 in Hpixels by done. cbn [andb] in Hpixels.
    apply orb_false_iff in Hpixels as [Hpixels Hl]. apply orb_false_iff in Hpixels as [Hpixels Ht].
    apply orb_false_iff in Hpixels as [Hp%negb_false_iff Hw%negb_false_iff].
    apply nonzero_true in Hp as (p & Hp & Hp0), Hw as (w & Hw & Hw0).
    apply is_some_false in Ht, Hl.
    exists p, w. split_and!; try done. intros [id Hid].
    unfold task_authorization_preflight_target. rewrite Hid, Hl, Hp, Hw. simpl.
    by rewrite !(proj2 (Z.eqb_neq _ 0)).
  - destruct (Grant.task_authorization_id g),
      (Grant.task_authorization_window_capability g); by rewrite ?is_Some_alt.
  - intros [spec Hs]. rewrite Hs in Hlaunch. simpl in Hlaunch. open_ok.
    reflect_all. naive_solver.
  - intros Hp. rewrite Hp in Hprep. reflect_all. naive_solver.
  - destruct (Grant.allow_recording g); [done|].
    destruct (Grant.recording_output_dir g), (Grant.showcase_output_dir g); try done.
    by intros [[? ?]|[? ?]].
  - apply orb_false_iff in Horigins as [Horigins _].
    apply orb_false_iff in Horigins as [Hlen _]. by apply Z.ltb_ge.
  - apply orb_false_iff in Horigins as [_ Hset]. apply set_len_unique. by apply negb_false_iff, Z.eqb_eq in Hset.
  - apply orb_false_iff in Horigins as [Horigins _].
    apply orb_false_iff in Horigins as [_ Hvalid].
    intros o Ho. rewrite existsb_false in Hvalid. by apply negb_false_iff, Hvalid.
  - intros route [Hm|[id Hid]]; unfold reject_task_authorization.
    + by rewrite Hm.
    + rewrite Hid. by destruct (_ == _).
Qed.

(** A pixels-only grant with a trusted authorization. *)
Definition sample_grant : Grant.TaskGrant := {|
  Grant.task_grant_id := "grant-1"; Grant.application_label := "Maya";
  Grant.observation_mode := PixelsOnly; Grant.process_id := Some 7;
  Grant.window_handle := Some 9; Grant.window_title := None;
  Grant.owned_browser_launch := None;
  Grant.allowed_browser_origins := ["https://example.com"];
  Grant.allow_raw_input := true; Grant.allow_app_launch := false;
  Grant.allow_app_terminate := false; Grant.allow_clipboard_read := false;
  Grant.allow_clipboard_write := false; Grant.allow_recording := true;
  Grant.allow_capture_preparation := false; Grant.showcase_output_dir := None;
  Grant.recording_output_dir := Some "/srv/out"; Grant.allow_live_observation := true;
  Grant.allow_browser_input := false; Grant.allow_browser_prepare := false;
  Grant.allow_browser_download := false; Grant.allow_native_tool := false;
  Grant.allow_menu_invoke := false; Grant.allow_session_escalation := false;
  Grant.allow_trusted_confirmation := false;
  Grant.task_authorization_id := Some "auth-1";
  Grant.task_authorization_window_capability := Some "cap-1" |}.

Lemma validated_grant_is_coherent_witness :
  validate_identity (P := sample_platform) sample_grant = Ok tt
  /\ is_err (reject_task_authorization sample_grant "desktop") = true.
Proof.
  assert (validate_identity (P := sample_platform) sample_grant = Ok tt) as H
    by (vm_compute; reflexivity).
  split; [exact H|].
  destruct (validated_grant_is_coherent (P := sample_platform) sample_grant H)
    as (_ & _ & _ & _ & _ & _ & Hroute).
  apply Hroute. left. reflexivity.
Defined.
