(* ===== verification/CapturePreparation.v ===== *)
(** * Capture preparation contract
    ([crates/dcc-cua-protocol/src/capture_preparation.rs])

    The permission, the request and the exact specification of a temporary
    passive capture preparation, with their validation. *)

From S2P Require Import Prelude RustStr Platform.

Module CapturePreparationAuthorization.
Record CapturePreparationAuthorization : Type := {
  journal_directory : string;
  max_lifetime_ms : Z;
}.
End CapturePreparationAuthorization.

Module CapturePreparationBeginRequest.
Record CapturePreparationBeginRequest : Type := {
  window_state_id : string;
  lifetime_ms : Z;
}.
End CapturePreparationBeginRequest.

Definition MAX_PREPARATION_LIFETIME_MS : Z := 30000.
Definition MAX_AFFECTED_WINDOWS : Z := 32.

Module PreparationNativeInstance.
Record PreparationNativeInstance : Type := {
  process_creation_time_100ns : Z;
  window_thread_id : Z;
  window_class_hash : Z;
  owner_window_handle : Z;
}.
End PreparationNativeInstance.

(** [file_id] is a 16-byte array. *)
Module PreparationExecutableIdentity.
Record PreparationExecutableIdentity : Type := {
  canonical_image_path : string;
  volume_serial_number : Z;
  file_id : list Z;
}.
End PreparationExecutableIdentity.

Module PreparationWindowIdentity.
Record PreparationWindowIdentity : Type := {
  process_id : Z;
  window_handle : Z;
  native_instance : PreparationNativeInstance.PreparationNativeInstance;
  executable : PreparationExecutableIdentity.PreparationExecutableIdentity;
}.
End PreparationWindowIdentity.

Module CapturePreparationSpec.
Record CapturePreparationSpec : Type := {
  preparation_id : list Z;
  target : PreparationWindowIdentity.PreparationWindowIdentity;
  allowed_affected_scope : list PreparationWindowIdentity.PreparationWindowIdentity;
  lifetime_ms : Z;
  authorization_deadline_ms : Z;
  journal_directory : string;
}.
End CapturePreparationSpec.

Module PrepAuth := CapturePreparationAuthorization.
Module BeginRequest := CapturePreparationBeginRequest.
Module Instance := PreparationNativeInstance.
Module Executable := PreparationExecutableIdentity.
Module Identity := PreparationWindowIdentity.
Module Spec := CapturePreparationSpec.

Module PreparationFailure.
Inductive t : Type :=
| InvalidBinding
| AuthorizationDenied
| ParentUnavailable
| SupervisorNotIndependent
| TargetUnavailable
| TargetOutsideDesktop
| IdentityChanged
| AffectedScopeChanged
| EnumerationIncomplete
| DesktopUnavailable
| GeometryChanged
| AnchorChanged
| MutationFailed
| ReadbackFailed
| JournalFailed
| GateBusy
| Expired
| Stopped
| ParentDied
| Disconnected
| WorkerLost
| ProtocolMismatch
| NotActive
| CaptureFailed.
End PreparationFailure.

Module PreparationError.
Record PreparationError : Type := {
  reason : PreparationFailure.t;
  os_error : option Z;
}.

Definition new (reason : PreparationFailure.t) : PreparationError :=
  {| reason := reason; os_error := None |}.
End PreparationError.

(** [[0; 16]]. *)
Definition zero_id : list Z := repeat 0 16.

Definition invalid_binding {A} : result PreparationError.PreparationError A :=
  Err (PreparationError.new PreparationFailure.InvalidBinding).

(** [CapturePreparationBeginRequest::validate]. *)
Definition validate_begin (self : BeginRequest.CapturePreparationBeginRequest)
    : result PreparationError.PreparationError unit :=
  if str_is_empty (BeginRequest.window_state_id self)
     || (128 <? str_len (BeginRequest.window_state_id self))
     || (BeginRequest.lifetime_ms self =? 0)
     || (MAX_PREPARATION_LIFETIME_MS <? BeginRequest.lifetime_ms self)
  then invalid_binding
  else Ok tt.

(** The identities that the specification nominates; [handles] holds the window
    handles already seen. *)
Fixpoint validate_identities (handles : list Z)
    (identities : list Identity.PreparationWindowIdentity)
    : result PreparationError.PreparationError unit :=
  match identities with
  | [] => Ok tt
  | identity :: identities =>
      let instance := Identity.native_instance identity in
      let executable := Identity.executable identity in
      if (Identity.process_id identity =? 0)
         || (Identity.window_handle identity =? 0)
         || (Instance.process_creation_time_100ns instance =? 0)
         || (Instance.window_thread_id instance =? 0)
         || (Instance.window_class_hash instance =? 0)
         || str_is_empty (Executable.canonical_image_path executable)
         || (Executable.file_id executable == zero_id)
         || (Identity.window_handle identity ∈? handles)
      then invalid_binding
      else validate_identities (Identity.window_handle identity :: handles) identities
  end.

(** [CapturePreparationSpec::validate]. *)
Definition validate_spec (self : Spec.CapturePreparationSpec)
    : result PreparationError.PreparationError unit :=
  if (Spec.preparation_id self == zero_id)
     || (Spec.lifetime_ms self =? 0)
     || (MAX_PREPARATION_LIFETIME_MS <? Spec.lifetime_ms self)
     || (Spec.authorization_deadline_ms self =? 0)
     || (MAX_AFFECTED_WINDOWS <=? len (Spec.allowed_affected_scope self))
     || negb (path_is_absolute (Spec.journal_directory self))
  then invalid_binding
  else validate_identities [] (Spec.target self :: Spec.allowed_affected_scope self).

(** ** Properties *)

(** The windows that a specification may touch. *)
Definition affected_windows (spec : Spec.CapturePreparationSpec)
    : list Identity.PreparationWindowIdentity :=
  Spec.target spec :: Spec.allowed_affected_scope spec.

(** A window identified exactly, in every respect. *)
Definition exact_identity (i : Identity.PreparationWindowIdentity) : Prop :=
  Identity.process_id i <> 0 /\ Identity.window_handle i <> 0
  /\ Instance.process_creation_time_100ns (Identity.native_instance i) <> 0
  /\ Instance.window_thread_id (Identity.native_instance i) <> 0
  /\ Instance.window_class_hash (Identity.native_instance i) <> 0
  /\ Executable.canonical_image_path (Identity.executable i) <> ""
  /\ Executable.file_id (Identity.executable i) <> zero_id.

Lemma validate_identities_ok handles identities :
  validate_identities handles identities = Ok tt <->
  Forall exact_identity identities
  /\ NoDup (map Identity.window_handle identities)
  /\ forall h, h ∈ handles -> h ∉ map Identity.window_handle identities.
Proof.
  revert handles. induction identities as [|i identities IH]; intros handles.
  - cbn. split; [|done]. intros _. split_and!; [constructor | constructor | set_solver].
  - cbn [validate_identities map].
    destruct (_ || _) eqn:E; reflect_all.
    + split; [done|]. intros (Hf & _ & Hh). apply Forall_cons_1 in Hf as [Hi _].
      destruct Hi as (? & ? & ? & ? & ? & ? & ?).
      specialize (Hh (Identity.window_handle i)). set_solver.
    + rewrite IH, Forall_cons, NoDup_cons. unfold exact_identity at 2. set_solver.
Qed.

(** capture preparation is confined.  A specification is accepted exactly
    when it nominates between one and 32 windows, each identified by process,
    thread, class and executable, no window twice, for a positive lifetime of at
    most 30 seconds under a fixed deadline and an absolute journal directory. *)
Theorem preparation_scope_is_exact_and_bounded (spec : Spec.CapturePreparationSpec) :
  validate_spec spec = Ok tt <->
  Spec.preparation_id spec <> zero_id
  /\ Spec.lifetime_ms spec <> 0 /\ Spec.lifetime_ms spec <= 30000
  /\ Spec.authorization_deadline_ms spec <> 0
  /\ path_is_absolute (Spec.journal_directory spec) = true
  /\ 1 <= len (affected_windows spec) <= 32
  /\ Forall exact_identity (affected_windows spec)
  /\ NoDup (map Identity.window_handle (affected_windows spec)).
Proof.
  assert (len (affected_windows spec) = 1 + len (Spec.allowed_affected_scope spec))
    as Hlen by (unfold len; simpl; lia).
  pose proof (len_nonneg (Spec.allowed_affected_scope spec)) as Hpos.
  unfold validate_spec. destruct (_ || _) eqn:E; reflect_all.
  - split; [done|]. intros (? & ? & ? & ? & ? & ? & _).
    unfold MAX_PREPARATION_LIFETIME_MS, MAX_AFFECTED_WINDOWS in *.
    destruct E as [[[[[?|?]|?]|?]|?]|?]; congruence || lia.
  - rewrite validate_identities_ok.
    unfold MAX_PREPARATION_LIFETIME_MS, MAX_AFFECTED_WINDOWS in *.
    split.
    + intros (? & ? & _). split_and!; try done; lia.
    + intros (_ & _ & _ & _ & _ & _ & ? & ?). split_and!; [done | done | set_solver].
Qed.
