(* ===== verification/TaskAuthorization.v ===== *)
(** * Trusted task authorization ([crates/dcc-cua-host/src/task_authorization.rs])

    A session may run under a lease that a trusted embedding issued for one exact
    window, session and connection.  The lease bounds the methods, the actions,
    the browser origins, the recording directory and the time; the Host validates
    it when it is issued, before each method, and for each sensitive action. *)

From S2P Require Import Prelude RustStr Json Errors HostAction Confirmation Platform.
From S2P Require Import CapturePreparation TaskGrant.

Definition TRUSTED_TASK_AUTHORIZATION_SCHEMA : string :=
  "dcc-cua-trusted-task-authorization-v1".
Definition TRUSTED_TASK_AUTHORIZATION_VALIDATION_SCHEMA : string :=
  "dcc-cua-trusted-task-authorization-validation-v1".
Definition TRUSTED_TASK_AUTHORIZATION_LEASE_VALIDATION_SCHEMA : string :=
  "dcc-cua-trusted-task-authorization-lease-validation-v1".
Definition MAX_TASK_AUTHORIZATION_ACTIONS : Z := 32.
Definition MAX_TASK_AUTHORIZATION_TTL_MS : Z := 24 * 60 * 60 * 1000.

(** ** Scopes *)

Module TrustedTaskActionScope.
Record TrustedTaskActionScope : Type := {
  action : string;
  input_kind : string;
  secret_input : bool;
  authorization_category : string;
  browser_origin : option string;
}.
End TrustedTaskActionScope.

Module TrustedTaskAuthorizationBrowserScope.
Record TrustedTaskAuthorizationBrowserScope : Type := {
  host_target_id : string;
  tab_id : string;
  document_generation : string;
  origin : string;
}.
End TrustedTaskAuthorizationBrowserScope.

Module Scope := TrustedTaskActionScope.
Module BrowserScope := TrustedTaskAuthorizationBrowserScope.

#[export] Instance Scope_eq_dec : EqDecision Scope.TrustedTaskActionScope.
Proof. solve_decision. Defined.
#[export] Instance BrowserScope_eq_dec :
  EqDecision BrowserScope.TrustedTaskAuthorizationBrowserScope.
Proof. solve_decision. Defined.

(** The closed window-state scope for one action name. *)
Definition is_window_state_scope (self : Scope.TrustedTaskActionScope) (name : string)
    : bool :=
  (Scope.action self == name)
  && (Scope.input_kind self == "window_state")
  && negb (Scope.secret_input self)
  && (Scope.authorization_category self == "window_state")
  && is_none (Scope.browser_origin self).

Definition is_native_capture_popup_keyboard (self : Scope.TrustedTaskActionScope) : bool :=
  is_window_state_scope self "native_capture_popup_keyboard".
Definition is_window_minimize (self : Scope.TrustedTaskActionScope) : bool :=
  is_window_state_scope self "minimize_window".
Definition is_window_frame (self : Scope.TrustedTaskActionScope) : bool :=
  is_window_state_scope self "set_window_frame".
Definition is_native_menu_dismiss (self : Scope.TrustedTaskActionScope) : bool :=
  is_window_state_scope self "dismiss_menu".
Definition is_capture_preparation (self : Scope.TrustedTaskActionScope) : bool :=
  is_window_state_scope self "capture_preparation_begin".

Definition PIXELS_INPUT_ACTIONS : list string :=
  ["click"; "double_click"; "right_click"; "toggle"; "drag"; "keypress";
   "keyboard_shortcut"; "type"; "type_chars"].

Definition is_pixels_input (self : Scope.TrustedTaskActionScope) : bool :=
  (Scope.action self ∈? PIXELS_INPUT_ACTIONS)
  && (Scope.input_kind self == "raw_input")
  && negb (Scope.secret_input self)
  && (Scope.authorization_category self == "raw_input")
  && is_none (Scope.browser_origin self).

Definition NATIVE_ACTIONS : list string :=
  ["move"; "scroll"; "click"; "double_click"; "right_click"; "toggle"; "drag"; "type";
   "type_chars"; "set_text"; "set_value"; "set_checked"; "keypress"; "press";
   "press_key"; "keyboard_shortcut"; "hotkey"].
Definition RAW_INPUT_CATEGORIES : list string := ["raw_input"; "credential"].
Definition SEMANTIC_CATEGORIES : list string :=
  ["task_grant"; "account_access"; "account_security"; "content_change"; "credential";
   "destructive"; "destructive_write"; "external_effect"; "payment"; "publishing"].

Section Scopes.
Context `{P : Platform}.

(** [TrustedTaskAuthorizationBrowserScope::validate]. *)
Definition validate_browser_scope
    (self : BrowserScope.TrustedTaskAuthorizationBrowserScope) : bool :=
  forallb (fun value => identity_shape value 256)
    [BrowserScope.host_target_id self; BrowserScope.tab_id self;
     BrowserScope.document_generation self]
  && valid_browser_origin (BrowserScope.origin self).

(** [TrustedTaskActionScope::validate]. *)
Definition validate_action_scope (self : Scope.TrustedTaskActionScope) : bool :=
  let kind := Scope.input_kind self in
  if kind == "window_state"
  then is_window_minimize self || is_native_capture_popup_keyboard self
       || is_window_frame self || is_native_menu_dismiss self
       || is_capture_preparation self
  else if kind == "browser"
  then ((Scope.action self == "browser_type") && Scope.secret_input self
        && (Scope.authorization_category self == "credential")
        || (Scope.action self == "browser_extension_navigate")
           && negb (Scope.secret_input self)
           && (Scope.authorization_category self == "external_effect"))
       && is_some_and valid_browser_origin (Scope.browser_origin self)
  else if kind == "clipboard"
  then (Scope.action self == "clipboard_capture_secret") && Scope.secret_input self
       && (Scope.authorization_category self == "credential")
       && is_none (Scope.browser_origin self)
  else if kind == "raw_input"
  then (Scope.action self ∈? NATIVE_ACTIONS)
       && (Scope.authorization_category self ∈? RAW_INPUT_CATEGORIES)
       && is_none (Scope.browser_origin self)
  else if kind == "semantic"
  then (Scope.action self ∈? NATIVE_ACTIONS)
       && (Scope.authorization_category self ∈? SEMANTIC_CATEGORIES)
       && ((Scope.authorization_category self != "task_grant")
           || negb (Scope.secret_input self))
       && is_none (Scope.browser_origin self)
  else false.
End Scopes.

(** [action.get(name)?.as_str()?]. *)
Definition get_str (v : value) (name : string) : option string := get v name ≫= as_str.

Definition from_confirmation (request : Req.TrustedActionConfirmationRequest)
    : option Scope.TrustedTaskActionScope :=
  let v := Req.action request in
  if get_str v "method" == Some "browser_type"
  then
    browser_origin ← get_str v "browser_origin";
    Some {| Scope.action := "browser_type"; Scope.input_kind := "browser";
            Scope.secret_input := true; Scope.authorization_category := "credential";
            Scope.browser_origin := Some browser_origin |}
  else
    action ← get_str v "action";
    if action == "browser_extension_navigate"
    then
      browser_origin ← get_str v "browser_origin";
      Some {| Scope.action := action; Scope.input_kind := "browser";
              Scope.secret_input := false;
              Scope.authorization_category := "external_effect";
              Scope.browser_origin := Some browser_origin |}
    else if action == "clipboard_capture_secret"
    then Some {| Scope.action := action; Scope.input_kind := "clipboard";
                 Scope.secret_input := true;
                 Scope.authorization_category := "credential";
                 Scope.browser_origin := None |}
    else
      input_kind ← get_str v "input_kind";
      authorization_category ← get_str v "authorization_category";
      Some {| Scope.action := action; Scope.input_kind := input_kind;
              Scope.secret_input := is_some (get v "secret_handle");
              Scope.authorization_category := authorization_category;
              Scope.browser_origin := None |}.

(** ** Requests, leases and decisions *)

Module TrustedTaskAuthorizationRequest.
Record TrustedTaskAuthorizationRequest : Type := {
  schema : string;
  request_id : string;
  connection_id : string;
  authorization_id : string;
  session_id : string;
  task_grant_id : string;
  application_label : string;
  window_capability : string;
  target_process_id : Z;
  target_window_handle : Z;
  request_digest : string;
}.
End TrustedTaskAuthorizationRequest.

Module UnsignedTaskAuthorizationRequest.
Record UnsignedTaskAuthorizationRequest : Type := {
  schema : string;
  request_id : string;
  connection_id : string;
  authorization_id : string;
  session_id : string;
  task_grant_id : string;
  application_label : string;
  window_capability : string;
  target_process_id : Z;
  target_window_handle : Z;
}.
End UnsignedTaskAuthorizationRequest.

Module TrustedTaskAuthorizationLease.
Record TrustedTaskAuthorizationLease : Type := {
  connection_id : string;
  authorization_id : string;
  session_id : string;
  task_grant_id : string;
  application_label : string;
  window_capability : string;
  target_process_id : Z;
  target_window_handle : Z;
  allowed_host_methods : list string;
  allowed_actions : list Scope.TrustedTaskActionScope;
  allowed_browser_origins : list string;
  browser_scope : option BrowserScope.TrustedTaskAuthorizationBrowserScope;
  recording_output_dir : option string;
  capture_preparation : option PrepAuth.CapturePreparationAuthorization;
  issued_at_unix_ms : Z;
  expires_at_unix_ms : Z;
  request_digest : string;
}.
End TrustedTaskAuthorizationLease.

Module TrustedTaskAuthorizationValidationRequest.
Record TrustedTaskAuthorizationValidationRequest : Type := {
  schema : string;
  request_id : string;
  connection_id : string;
  authorization_id : string;
  session_id : string;
  task_grant_id : string;
  application_label : string;
  window_capability : string;
  target_process_id : Z;
  target_window_handle : Z;
  action_scope : Scope.TrustedTaskActionScope;
  action_request_digest : string;
  lease_request_digest : string;
  request_digest : string;
}.
End TrustedTaskAuthorizationValidationRequest.

Module UnsignedTaskAuthorizationValidationRequest.
Record UnsignedTaskAuthorizationValidationRequest : Type := {
  schema : string;
  request_id : string;
  connection_id : string;
  authorization_id : string;
  session_id : string;
  task_grant_id : string;
  application_label : string;
  window_capability : string;
  target_process_id : Z;
  target_window_handle : Z;
  action_scope : Scope.TrustedTaskActionScope;
  action_request_digest : string;
  lease_request_digest : string;
}.
End UnsignedTaskAuthorizationValidationRequest.

Module TrustedTaskAuthorizationLeaseValidationRequest.
Record TrustedTaskAuthorizationLeaseValidationRequest : Type := {
  schema : string;
  request_id : string;
  connection_id : string;
  authorization_id : string;
  session_id : string;
  task_grant_id : string;
  application_label : string;
  window_capability : string;
  target_process_id : Z;
  target_window_handle : Z;
  lease_request_digest : string;
  request_digest : string;
}.
End TrustedTaskAuthorizationLeaseValidationRequest.

Module UnsignedTaskAuthorizationLeaseValidationRequest.
Record UnsignedTaskAuthorizationLeaseValidationRequest : Type := {
  schema : string;
  request_id : string;
  connection_id : string;
  authorization_id : string;
  session_id : string;
  task_grant_id : string;
  application_label : string;
  window_capability : string;
  target_process_id : Z;
  target_window_handle : Z;
  lease_request_digest : string;
}.
End UnsignedTaskAuthorizationLeaseValidationRequest.

Module AuthReq := TrustedTaskAuthorizationRequest.
Module UnsignedAuth := UnsignedTaskAuthorizationRequest.
Module Lease := TrustedTaskAuthorizationLease.
Module ValReq := TrustedTaskAuthorizationValidationRequest.
Module UnsignedVal := UnsignedTaskAuthorizationValidationRequest.
Module LeaseReq := TrustedTaskAuthorizationLeaseValidationRequest.
Module UnsignedLease := UnsignedTaskAuthorizationLeaseValidationRequest.

Inductive TrustedTaskAuthorizationStatus : Type := Active | Revoked.

Module TrustedTaskAuthorizationValidationDecision.
Record TrustedTaskAuthorizationValidationDecision : Type := {
  status : TrustedTaskAuthorizationStatus;
  request_digest : string;
}.
End TrustedTaskAuthorizationValidationDecision.

Module ValDecision := TrustedTaskAuthorizationValidationDecision.

Module TrustedTaskAuthorizationHostError.
Inductive TrustedTaskAuthorizationHostError : Type :=
| Denied
| Unavailable (reason : string).
End TrustedTaskAuthorizationHostError.

Module AuthHostError := TrustedTaskAuthorizationHostError.

(** The embedding's authorization authority: an interface that the Host calls,
    implemented by the broker and by the cross-client authority.  Only its
    answers are observed here. *)
Module TrustedTaskAuthorizationHost.
Record TrustedTaskAuthorizationHost : Type := {
  authorize : AuthReq.TrustedTaskAuthorizationRequest ->
    result AuthHostError.TrustedTaskAuthorizationHostError
      Lease.TrustedTaskAuthorizationLease;
  validate : ValReq.TrustedTaskAuthorizationValidationRequest ->
    result AuthHostError.TrustedTaskAuthorizationHostError
      ValDecision.TrustedTaskAuthorizationValidationDecision;
  validate_lease : LeaseReq.TrustedTaskAuthorizationLeaseValidationRequest ->
    result AuthHostError.TrustedTaskAuthorizationHostError
      ValDecision.TrustedTaskAuthorizationValidationDecision;
}.
End TrustedTaskAuthorizationHost.

Module AuthHost := TrustedTaskAuthorizationHost.

Module TaskAuthorizationBinding.
Record TaskAuthorizationBinding : Type := {
  connection_id : string;
  authorization_id : string;
  session_id : string;
  task_grant_id : string;
  application_label : string;
  window_capability : string;
  target : Window.ConfirmationWindowIdentity;
}.
End TaskAuthorizationBinding.

Module AuthBinding := TaskAuthorizationBinding.

Inductive TaskAuthorizationOutcome : Type :=
| OutcomeAllowed | NotConfigured | OutOfScope | Expired | OutcomeRevoked | OutcomeRequired.

#[export] Instance TrustedTaskAuthorizationStatus_eq_dec :
  EqDecision TrustedTaskAuthorizationStatus.
Proof. solve_decision. Defined.

(** [task_authorization_scope::is_task_authorizable_host_method]. *)
Definition task_authorizable_host_methods : list string :=
  ["browser_extension_status"; "browser_extension_call"; "terminate_app";
   "clipboard_read"; "clipboard_capture_secret"; "clipboard_write"; "recording_start";
   "recording_stop"; "recording_state"; "capture_preparation_begin";
   "capture_preparation_state"; "capture_preparation_stop";
   "capture_preparation_snapshot"; "live_observation_start"; "live_observation_state";
   "live_observation_stop"; "get_window_state"; "change_window_state";
   "minimize_window"; "set_window_frame"; "invoke_menu"; "snapshot"; "zoom";
   "accessibility_snapshot"; "verify_state"; "call_tool"; "browser_snapshot";
   "browser_prepare"; "browser_navigate"; "browser_click"; "browser_type";
   "browser_pointer"; "browser_set_input_files"; "browser_download"; "browser_dialog";
   "find"; "wait_for"; "execute_action"; "resume_session"; "get_session_state";
   "get_input_state"; "session_health"; "poll_session_events"; "cursor_tool";
   "escalate_session"].
Definition is_task_authorizable_host_method (method : string) : bool :=
  method ∈? task_authorizable_host_methods.

Definition task_authorization_required (message : string) : HostError.HostError :=
  HostError.coded_protocol HostProtocolErrorCode.TaskAuthorizationRequired message.

(** ** Issuing and validating a lease *)

Section Authorization.
Context `{P : Platform}.
Context `{DA : !Digestible UnsignedAuth.UnsignedTaskAuthorizationRequest}.
Context `{DV : !Digestible UnsignedVal.UnsignedTaskAuthorizationValidationRequest}.
Context `{DL : !Digestible UnsignedLease.UnsignedTaskAuthorizationLeaseValidationRequest}.

(** [TaskAuthorizationBinding::request]; [uuid] is [Uuid::new_v4]. *)
Definition binding_request (uuid : string) (self : AuthBinding.TaskAuthorizationBinding)
    : hresult AuthReq.TrustedTaskAuthorizationRequest :=
  check? validate_authorization_id (AuthBinding.authorization_id self) in
  let process_id := Window.process_id (AuthBinding.target self) in
  let window_handle := Window.window_handle (AuthBinding.target self) in
  let unsigned :=
    {| UnsignedAuth.schema := TRUSTED_TASK_AUTHORIZATION_SCHEMA;
       UnsignedAuth.request_id := uuid;
       UnsignedAuth.connection_id := AuthBinding.connection_id self;
       UnsignedAuth.authorization_id := AuthBinding.authorization_id self;
       UnsignedAuth.session_id := AuthBinding.session_id self;
       UnsignedAuth.task_grant_id := AuthBinding.task_grant_id self;
       UnsignedAuth.application_label := AuthBinding.application_label self;
       UnsignedAuth.window_capability := AuthBinding.window_capability self;
       UnsignedAuth.target_process_id := process_id;
       UnsignedAuth.target_window_handle := window_handle |} in
  let? request_digest := digest unsigned "task authorization" in
  Ok {| AuthReq.schema := TRUSTED_TASK_AUTHORIZATION_SCHEMA;
        AuthReq.request_id := uuid;
        AuthReq.connection_id := AuthBinding.connection_id self;
        AuthReq.authorization_id := AuthBinding.authorization_id self;
        AuthReq.session_id := AuthBinding.session_id self;
        AuthReq.task_grant_id := AuthBinding.task_grant_id self;
        AuthReq.application_label := AuthBinding.application_label self;
        AuthReq.window_capability := AuthBinding.window_capability self;
        AuthReq.target_process_id := process_id;
        AuthReq.target_window_handle := window_handle;
        AuthReq.request_digest := request_digest |}.

Definition recording_methods : list string :=
  ["recording_start"; "recording_state"; "recording_stop"].
Definition preparation_methods : list string :=
  ["get_window_state"; "capture_preparation_begin"; "capture_preparation_state";
   "capture_preparation_stop"].

(** [valid_recording_scope] of [validate_lease]. *)
Definition valid_recording_scope (recording_output_dir : option string)
    (methods : list string) : bool :=
  is_none_or (fun directory =>
    is_ok (validate_recording_output_dir directory)
    && forallb (fun required => required ∈? methods) recording_methods)
    recording_output_dir.

(** [valid_preparation_scope] of [validate_lease]. *)
Definition valid_preparation_scope (lease : Lease.TrustedTaskAuthorizationLease) : bool :=
  let methods := Lease.allowed_host_methods lease in
  let granted := is_some (Lease.capture_preparation lease) in
  Bool.eqb (existsb (starts_with "capture_preparation_") methods) granted
  && Bool.eqb (existsb is_capture_preparation (Lease.allowed_actions lease)) granted
  && is_none_or (fun authorization =>
       (0 <? PrepAuth.max_lifetime_ms authorization)
       && (PrepAuth.max_lifetime_ms authorization <=? MAX_PREPARATION_LIFETIME_MS)
       && is_ok (validate_recording_output_location
                   (PrepAuth.journal_directory authorization))
       && (Lease.recording_output_dir lease
             != Some (PrepAuth.journal_directory authorization))
       && is_none (Lease.browser_scope lease)
       && is_empty (Lease.allowed_browser_origins lease)
       && forallb (fun required => required ∈? methods) preparation_methods)
     (Lease.capture_preparation lease).

(** [validate_lease]; [now] is [unix_time_millis()]. *)
Definition validate_lease (now : Z) (request : AuthReq.TrustedTaskAuthorizationRequest)
    (lease : Lease.TrustedTaskAuthorizationLease) : hresult unit :=
  let fields_match :=
    (Lease.authorization_id lease == AuthReq.authorization_id request)
    && (Lease.connection_id lease == AuthReq.connection_id request)
    && (Lease.session_id lease == AuthReq.session_id request)
    && (Lease.task_grant_id lease == AuthReq.task_grant_id request)
    && (Lease.application_label lease == AuthReq.application_label request)
    && (Lease.window_capability lease == AuthReq.window_capability request)
    && (Lease.target_process_id lease =? AuthReq.target_process_id request)
    && (Lease.target_window_handle lease =? AuthReq.target_window_handle request)
    && (Lease.request_digest lease == AuthReq.request_digest request) in
  let valid_time :=
    (Lease.issued_at_unix_ms lease <=? now)
    && (now <? Lease.expires_at_unix_ms lease)
    && (saturating_sub (Lease.expires_at_unix_ms lease) (Lease.issued_at_unix_ms lease)
          <=? MAX_TASK_AUTHORIZATION_TTL_MS) in
  let actions := Lease.allowed_actions lease in
  let valid_actions :=
    (set_len actions =? len actions)
    && (set_len actions <=? MAX_TASK_AUTHORIZATION_ACTIONS)
    && forallb validate_action_scope actions in
  let methods := Lease.allowed_host_methods lease in
  let valid_methods :=
    negb (set_len methods =? 0)
    && (set_len methods =? len methods)
    && (set_len methods <=? 64)
    && forallb is_task_authorizable_host_method methods in
  let origins := Lease.allowed_browser_origins lease in
  let valid_origins :=
    (set_len origins =? len origins)
    && (set_len origins <=? MAX_TASK_AUTHORIZATION_ACTIONS)
    && forallb valid_browser_origin origins in
  let valid_browser_scope :=
    is_none_or (fun scope =>
      validate_browser_scope scope && (origins == [BrowserScope.origin scope]))
      (Lease.browser_scope lease) in
  if negb fields_match || negb valid_time || negb valid_methods || negb valid_actions
     || negb valid_origins || negb valid_browser_scope
     || negb (valid_recording_scope (Lease.recording_output_dir lease) methods)
     || negb (valid_preparation_scope lease)
  then Err (task_authorization_required
    "the trusted task authorization lease is invalid or out of scope")
  else Ok tt.

Definition issue_task_authorization (now : Z) (uuid : string)
    (host : option AuthHost.TrustedTaskAuthorizationHost)
    (binding : AuthBinding.TaskAuthorizationBinding)
    : hresult Lease.TrustedTaskAuthorizationLease :=
  match host with
  | None => Err (task_authorization_required
      "task authorization requires a constructor-owned host")
  | Some host =>
      let? request := binding_request uuid binding in
      let? lease :=
        rmap_err (fun error => match error with
          | AuthHostError.Denied =>
              HostError.coded_protocol HostProtocolErrorCode.TaskAuthorizationDenied
                "the trusted task authorization was denied"
          | AuthHostError.Unavailable _ =>
              task_authorization_required
                "the trusted task authorization was not available"
          end) (AuthHost.authorize host request) in
      check? validate_lease now request lease in
      Ok lease
  end.

(** ** Authorizing one action *)

Definition validation_request (uuid : string)
    (lease : Lease.TrustedTaskAuthorizationLease)
    (confirmation : Req.TrustedActionConfirmationRequest)
    (action_scope : Scope.TrustedTaskActionScope)
    : hresult ValReq.TrustedTaskAuthorizationValidationRequest :=
  let unsigned :=
    {| UnsignedVal.schema := TRUSTED_TASK_AUTHORIZATION_VALIDATION_SCHEMA;
       UnsignedVal.request_id := uuid;
       UnsignedVal.connection_id := Lease.connection_id lease;
       UnsignedVal.authorization_id := Lease.authorization_id lease;
       UnsignedVal.session_id := Lease.session_id lease;
       UnsignedVal.task_grant_id := Lease.task_grant_id lease;
       UnsignedVal.application_label := Lease.application_label lease;
       UnsignedVal.window_capability := Lease.window_capability lease;
       UnsignedVal.target_process_id := Lease.target_process_id lease;
       UnsignedVal.target_window_handle := Lease.target_window_handle lease;
       UnsignedVal.action_scope := action_scope;
       UnsignedVal.action_request_digest := Req.request_digest confirmation;
       UnsignedVal.lease_request_digest := Lease.request_digest lease |} in
  let? request_digest := digest unsigned "task authorization validation" in
  Ok {| ValReq.schema := TRUSTED_TASK_AUTHORIZATION_VALIDATION_SCHEMA;
        ValReq.request_id := uuid;
        ValReq.connection_id := Lease.connection_id lease;
        ValReq.authorization_id := Lease.authorization_id lease;
        ValReq.session_id := Lease.session_id lease;
        ValReq.task_grant_id := Lease.task_grant_id lease;
        ValReq.application_label := Lease.application_label lease;
        ValReq.window_capability := Lease.window_capability lease;
        ValReq.target_process_id := Lease.target_process_id lease;
        ValReq.target_window_handle := Lease.target_window_handle lease;
        ValReq.action_scope := action_scope;
        ValReq.action_request_digest := Req.request_digest confirmation;
        ValReq.lease_request_digest := Lease.request_digest lease;
        ValReq.request_digest := request_digest |}.

Definition authorize_task_scoped_action (now : Z) (uuid : string)
    (host : option AuthHost.TrustedTaskAuthorizationHost)
    (lease : option Lease.TrustedTaskAuthorizationLease)
    (confirmation : Req.TrustedActionConfirmationRequest) : TaskAuthorizationOutcome :=
  match lease with
  | None => NotConfigured
  | Some lease =>
      if Lease.expires_at_unix_ms lease <? now then Expired
      else if (Req.session_id confirmation != Lease.session_id lease)
              || (Req.task_grant_id confirmation != Lease.task_grant_id lease)
              || (Req.window_capability confirmation != Lease.window_capability lease)
              || (Req.target_process_id confirmation
                    != Some (Lease.target_process_id lease))
              || (Req.target_window_handle confirmation
                    != Some (Lease.target_window_handle lease))
      then OutOfScope
      else match from_confirmation confirmation with
      | None => OutOfScope
      | Some action_scope =>
          if negb (action_scope ∈? Lease.allowed_actions lease) then OutOfScope
          else match host with
          | None => OutcomeRequired
          | Some host =>
              match validation_request uuid lease confirmation action_scope with
              | Err _ => OutcomeRequired
              | Ok request =>
                  match AuthHost.validate host request with
                  | Err _ => OutcomeRequired
                  | Ok decision =>
                      if ValDecision.request_digest decision
                         != ValReq.request_digest request
                      then OutcomeRequired
                      else match ValDecision.status decision with
                      | Active => OutcomeAllowed
                      | Revoked => OutcomeRevoked
                      end
                  end
              end
          end
      end
  end.

(** The services and the two fields of the session it reads are arguments. *)
Definition authorize_window_confirmation (now : Z) (uuid : string)
    (task_authorization_host : option AuthHost.TrustedTaskAuthorizationHost)
    (confirmation_host : option TrustedActionConfirmationHost)
    (task_authorization : option Lease.TrustedTaskAuthorizationLease)
    (allow_trusted_confirmation : bool)
    (confirmation : Req.TrustedActionConfirmationRequest) : ActionConfirmationOutcome :=
  match authorize_task_scoped_action now uuid task_authorization_host
          task_authorization confirmation with
  | OutcomeAllowed => Allowed
  | NotConfigured =>
      authorize_action_confirmation confirmation_host allow_trusted_confirmation
        confirmation
  | OutOfScope => TaskAuthorizationOutOfScope
  | Expired => TaskAuthorizationExpired
  | OutcomeRevoked => TaskAuthorizationRevoked
  | OutcomeRequired => TaskAuthorizationRequired
  end.

(** ** Revalidating the lease *)

(** The request a lease answered, as far as the lease retains it. *)
Definition retained_request (lease : Lease.TrustedTaskAuthorizationLease)
    : AuthReq.TrustedTaskAuthorizationRequest := {|
  AuthReq.schema := TRUSTED_TASK_AUTHORIZATION_SCHEMA;
  AuthReq.request_id := "";
  AuthReq.connection_id := Lease.connection_id lease;
  AuthReq.authorization_id := Lease.authorization_id lease;
  AuthReq.session_id := Lease.session_id lease;
  AuthReq.task_grant_id := Lease.task_grant_id lease;
  AuthReq.application_label := Lease.application_label lease;
  AuthReq.window_capability := Lease.window_capability lease;
  AuthReq.target_process_id := Lease.target_process_id lease;
  AuthReq.target_window_handle := Lease.target_window_handle lease;
  AuthReq.request_digest := Lease.request_digest lease |}.

Definition lease_validation_request (uuid : string)
    (lease : Lease.TrustedTaskAuthorizationLease)
    : hresult LeaseReq.TrustedTaskAuthorizationLeaseValidationRequest :=
  let unsigned :=
    {| UnsignedLease.schema := TRUSTED_TASK_AUTHORIZATION_LEASE_VALIDATION_SCHEMA;
       UnsignedLease.request_id := uuid;
       UnsignedLease.connection_id := Lease.connection_id lease;
       UnsignedLease.authorization_id := Lease.authorization_id lease;
       UnsignedLease.session_id := Lease.session_id lease;
       UnsignedLease.task_grant_id := Lease.task_grant_id lease;
       UnsignedLease.application_label := Lease.application_label lease;
       UnsignedLease.window_capability := Lease.window_capability lease;
       UnsignedLease.target_process_id := Lease.target_process_id lease;
       UnsignedLease.target_window_handle := Lease.target_window_handle lease;
       UnsignedLease.lease_request_digest := Lease.request_digest lease |} in
  let? request_digest := digest unsigned "task authorization lease validation" in
  Ok {| LeaseReq.schema := TRUSTED_TASK_AUTHORIZATION_LEASE_VALIDATION_SCHEMA;
        LeaseReq.request_id := uuid;
        LeaseReq.connection_id := Lease.connection_id lease;
        LeaseReq.authorization_id := Lease.authorization_id lease;
        LeaseReq.session_id := Lease.session_id lease;
        LeaseReq.task_grant_id := Lease.task_grant_id lease;
        LeaseReq.application_label := Lease.application_label lease;
        LeaseReq.window_capability := Lease.window_capability lease;
        LeaseReq.target_process_id := Lease.target_process_id lease;
        LeaseReq.target_window_handle := Lease.target_window_handle lease;
        LeaseReq.lease_request_digest := Lease.request_digest lease;
        LeaseReq.request_digest := request_digest |}.

Definition validate_active_task_authorization (now : Z) (uuid : string)
    (host : option AuthHost.TrustedTaskAuthorizationHost)
    (lease : option Lease.TrustedTaskAuthorizationLease) : hresult unit :=
  match lease with
  | None => Ok tt
  | Some lease =>
      match host with
      | None => Err (task_authorization_required
          "the constructor-owned task authorization validator is unavailable")
      | Some host =>
          if is_err (validate_lease now (retained_request lease) lease)
          then Err (HostError.coded_protocol
            HostProtocolErrorCode.TaskAuthorizationExpired
            "the trusted task authorization lease expired or became invalid")
          else
            let? request := lease_validation_request uuid lease in
            match AuthHost.validate_lease host request with
            | Ok decision =>
                if ValDecision.request_digest decision != LeaseReq.request_digest request
                then Err (task_authorization_required
                  "the trusted task authorization validator returned a mismatched lease decision")
                else match ValDecision.status decision with
                | Active => Ok tt
                | Revoked => Err (HostError.coded_protocol
                    HostProtocolErrorCode.TaskAuthorizationRevoked
                    "the trusted task authorization was revoked")
                end
            | Err _ => Err (task_authorization_required
                "the trusted task authorization could not be revalidated")
            end
      end
  end.
End Authorization.

(** ** What a valid lease is *)

(** The lease answers exactly this request. *)
Definition lease_matches (request : AuthReq.TrustedTaskAuthorizationRequest)
    (lease : Lease.TrustedTaskAuthorizationLease) : Prop :=
  Lease.authorization_id lease = AuthReq.authorization_id request
  /\ Lease.connection_id lease = AuthReq.connection_id request
  /\ Lease.session_id lease = AuthReq.session_id request
  /\ Lease.task_grant_id lease = AuthReq.task_grant_id request
  /\ Lease.application_label lease = AuthReq.application_label request
  /\ Lease.window_capability lease = AuthReq.window_capability request
  /\ Lease.target_process_id lease = AuthReq.target_process_id request
  /\ Lease.target_window_handle lease = AuthReq.target_window_handle request
  /\ Lease.request_digest lease = AuthReq.request_digest request.

Definition lease_in_time (now : Z) (lease : Lease.TrustedTaskAuthorizationLease) : Prop :=
  Lease.issued_at_unix_ms lease <= now < Lease.expires_at_unix_ms lease
  /\ Lease.expires_at_unix_ms lease - Lease.issued_at_unix_ms lease
     <= MAX_TASK_AUTHORIZATION_TTL_MS.

(** The authority a lease carries, independently of who asks and when. *)
Record lease_scope_valid `{P : Platform} (lease : Lease.TrustedTaskAuthorizationLease)
    : Prop := {
  methods_some : Lease.allowed_host_methods lease <> [];
  methods_unique : NoDup (Lease.allowed_host_methods lease);
  methods_bounded : len (Lease.allowed_host_methods lease) <= 64;
  methods_known : forall m, m ∈ Lease.allowed_host_methods lease ->
    is_task_authorizable_host_method m = true;
  actions_unique : NoDup (Lease.allowed_actions lease);
  actions_bounded : len (Lease.allowed_actions lease) <= MAX_TASK_AUTHORIZATION_ACTIONS;
  actions_valid : forall a, a ∈ Lease.allowed_actions lease ->
    validate_action_scope a = true;
  origins_unique : NoDup (Lease.allowed_browser_origins lease);
  origins_bounded :
    len (Lease.allowed_browser_origins lease) <= MAX_TASK_AUTHORIZATION_ACTIONS;
  origins_valid : forall o, o ∈ Lease.allowed_browser_origins lease ->
    valid_browser_origin o = true;
  browser_scope_exact : forall scope, Lease.browser_scope lease = Some scope ->
    validate_browser_scope scope = true
    /\ Lease.allowed_browser_origins lease = [BrowserScope.origin scope];
  recording_scope :
    valid_recording_scope (Lease.recording_output_dir lease)
      (Lease.allowed_host_methods lease) = true;
  preparation_scope : valid_preparation_scope lease = true;
}.

Lemma set_len_eqb_unique {A} `{EqDecision A} (l : list A) :
  (set_len l =? len l) = true <-> NoDup l.
Proof. rewrite Z.eqb_eq. apply set_len_unique. Qed.

(** The checks on a list collected into a set. *)
Lemma unique_list_checks {A} `{EqDecision A} (l : list A) (max : Z) (f : A -> bool) :
  (set_len l =? len l) && (set_len l <=? max) && forallb f l = true
  <-> NoDup l /\ len l <= max /\ forall x, x ∈ l -> f x = true.
Proof.
  rewrite !andb_true_iff, set_len_eqb_unique, Z.leb_le, forallb_true.
  split; [intros [[H ?] ?] | intros (H & ? & ?)]; pose proof (proj2 (set_len_unique l) H) as E;
    rewrite E in *; auto.
Qed.

Lemma saturating_sub_le a b m :
  0 <= m -> saturating_sub a b <= m <-> a - b <= m.
Proof. unfold saturating_sub. lia. Qed.

Lemma validate_lease_ok `{P : Platform} now request lease :
  validate_lease now request lease = Ok tt <->
  lease_matches request lease /\ lease_in_time now lease /\ lease_scope_valid lease.
Proof.
  unfold validate_lease.
  set (fields := _ && (Lease.request_digest lease == _)).
  set (time := _ && (_ <=? MAX_TASK_AUTHORIZATION_TTL_MS)).
  set (actions := _ && forallb validate_action_scope _).
  set (methods := _ && forallb is_task_authorizable_host_method _).
  set (origins := _ && forallb valid_browser_origin _).
  set (browser := is_none_or _ (Lease.browser_scope lease)).
  assert (fields = true <-> lease_matches request lease) as Hf.
  { unfold fields, lease_matches. reflect_goal. tauto. }
  assert (time = true <-> lease_in_time now lease) as Ht.
  { unfold time, lease_in_time. reflect_goal.
    rewrite saturating_sub_le by (vm_compute; discriminate).
    clear. set (MAX_TASK_AUTHORIZATION_TTL_MS) as ttl. clearbody ttl. lia. }
  assert (actions = true <-> NoDup (Lease.allowed_actions lease)
    /\ len (Lease.allowed_actions lease) <= MAX_TASK_AUTHORIZATION_ACTIONS
    /\ forall a, a ∈ Lease.allowed_actions lease -> validate_action_scope a = true) as Ha
    by apply unique_list_checks.
  assert (origins = true <-> NoDup (Lease.allowed_browser_origins lease)
    /\ len (Lease.allowed_browser_origins lease) <= MAX_TASK_AUTHORIZATION_ACTIONS
    /\ forall o, o ∈ Lease.allowed_browser_origins lease -> valid_browser_origin o = true)
    as Ho by apply unique_list_checks.
  assert (methods = true <-> Lease.allowed_host_methods lease <> []
    /\ NoDup (Lease.allowed_host_methods lease)
    /\ len (Lease.allowed_host_methods lease) <= 64
    /\ forall m, m ∈ Lease.allowed_host_methods lease ->
         is_task_authorizable_host_method m = true) as Hm.
  { unfold methods. rewrite <- !andb_assoc, andb_true_iff, andb_assoc, unique_list_checks.
    by rewrite negb_true_iff, Z.eqb_neq, set_len_zero. }
  assert (browser = true <-> forall scope, Lease.browser_scope lease = Some scope ->
    validate_browser_scope scope = true
    /\ Lease.allowed_browser_origins lease = [BrowserScope.origin scope]) as Hb.
  { unfold browser. rewrite is_none_or_true. split; intros H scope Hs;
      specialize (H scope Hs); by rewrite andb_true_iff, bool_decide_eq_true in *. }
  clearbody fields time actions methods origins browser.
  rewrite guard_ok, !orb_false_iff, !negb_false_iff, Hf, Ht, Ha, Hm, Ho, Hb.
  split.
  - intros [H _]. split_and!; [tauto.. |]. by split; tauto.
  - intros (H1 & H2 & []). tauto.
Qed.

(** Everything but the names and the time is the same for the retained request. *)
Lemma retained_request_matches lease : lease_matches (retained_request lease) lease.
Proof. unfold lease_matches. done. Qed.

(** ** Properties *)

Lemma issue_task_authorization_ok `{P : Platform}
    `{DA : !Digestible UnsignedAuth.UnsignedTaskAuthorizationRequest}
    (now : Z) (uuid : string) (host : option AuthHost.TrustedTaskAuthorizationHost)
    (binding : AuthBinding.TaskAuthorizationBinding)
    (lease : Lease.TrustedTaskAuthorizationLease) :
  issue_task_authorization now uuid host binding = Ok lease ->
  Lease.connection_id lease = AuthBinding.connection_id binding
  /\ Lease.authorization_id lease = AuthBinding.authorization_id binding
  /\ Lease.session_id lease = AuthBinding.session_id binding
  /\ Lease.task_grant_id lease = AuthBinding.task_grant_id binding
  /\ Lease.application_label lease = AuthBinding.application_label binding
  /\ Lease.window_capability lease = AuthBinding.window_capability binding
  /\ Lease.target_process_id lease = Window.process_id (AuthBinding.target binding)
  /\ Lease.target_window_handle lease = Window.window_handle (AuthBinding.target binding)
  /\ identity_shape (Lease.authorization_id lease) MAX_TASK_AUTHORIZATION_ID_CHARS = true
  /\ lease_in_time now lease /\ lease_scope_valid lease
  /\ (exists h request, host = Some h /\ binding_request uuid binding = Ok request
        /\ AuthHost.authorize h request = Ok lease
        /\ Lease.request_digest lease = AuthReq.request_digest request).
Proof.
  unfold issue_task_authorization. intros H. destruct host as [h|]; [|done].
  apply rbind_ok in H as (request & Hreq & H).
  apply rbind_ok in H as (l & Hl%rmap_err_ok & H).
  apply rbind_ok in H as ([] & Hv & [= ->]).
  apply validate_lease_ok in Hv as (Hm & Ht & Hs).
  pose proof Hreq as Hreq'. unfold binding_request in Hreq'.
  apply rbind_ok in Hreq' as ([] & Hid%validate_authorization_id_ok & Hreq').
  apply rbind_ok in Hreq' as (d & _ & Hreq'). injection Hreq' as <-.
  unfold lease_matches in Hm. cbn in Hm.
  destruct Hm as (Ha & ? & ? & ? & ? & ? & ? & ? & Hd).
  split_and!; try done; [by rewrite Ha|]. by eexists _, _.
Qed.

(** an issued lease is exact and bounded.  Whatever the embedding answers, a
    lease the Host accepts is for the connection, session, grant, window and
    request digest it asked about, is in force now and for at most 24 hours, and
    carries only distinct known methods, distinct actions and origins of the
    closed vocabularies, at most 64 methods, 32 actions and 32 origins, and a
    recording or capture-preparation scope only together with the methods it
    needs. *)
Theorem issued_lease_is_exact_and_bounded `{P : Platform}
    `{DA : !Digestible UnsignedAuth.UnsignedTaskAuthorizationRequest}
    (now : Z) (uuid : string) (host : option AuthHost.TrustedTaskAuthorizationHost)
    (binding : AuthBinding.TaskAuthorizationBinding)
    (lease : Lease.TrustedTaskAuthorizationLease) :
  issue_task_authorization now uuid host binding = Ok lease ->
  Lease.connection_id lease = AuthBinding.connection_id binding
  /\ Lease.authorization_id lease = AuthBinding.authorization_id binding
  /\ Lease.session_id lease = AuthBinding.session_id binding
  /\ Lease.task_grant_id lease = AuthBinding.task_grant_id binding
  /\ Lease.application_label lease = AuthBinding.application_label binding
  /\ Lease.window_capability lease = AuthBinding.window_capability binding
  /\ Lease.target_process_id lease = Window.process_id (AuthBinding.target binding)
  /\ Lease.target_window_handle lease = Window.window_handle (AuthBinding.target binding)
  /\ identity_shape (Lease.authorization_id lease) MAX_TASK_AUTHORIZATION_ID_CHARS = true
  /\ lease_in_time now lease /\ lease_scope_valid lease
  /\ (exists h request, host = Some h /\ binding_request uuid binding = Ok request
        /\ AuthHost.authorize h request = Ok lease
        /\ Lease.request_digest lease = AuthReq.request_digest request).
Proof. apply issue_task_authorization_ok. Qed.

(** Every part of the confirmation names the window of the lease. *)
Definition same_window (confirmation : Req.TrustedActionConfirmationRequest)
    (lease : Lease.TrustedTaskAuthorizationLease) : Prop :=
  Req.session_id confirmation = Lease.session_id lease
  /\ Req.task_grant_id confirmation = Lease.task_grant_id lease
  /\ Req.window_capability confirmation = Lease.window_capability lease
  /\ Req.target_process_id confirmation = Some (Lease.target_process_id lease)
  /\ Req.target_window_handle confirmation = Some (Lease.target_window_handle lease).

(** under a lease an action runs only if the lease grants it.  When a session
    has a lease, an action is allowed only if the lease has not expired, the
    action addresses the window of the lease, its scope is literally one of the
    scopes of the lease, and the trusted authority answers, for a request that
    carries this action's digest, that the authorization is still active.  The
    per-action confirmation of the embedding plays no part: it can neither
    replace nor extend the lease. *)
Theorem leased_action_is_within_lease
    `{DV : !Digestible UnsignedVal.UnsignedTaskAuthorizationValidationRequest}
    (now : Z) (uuid : string) (authority : option AuthHost.TrustedTaskAuthorizationHost)
    (confirm confirm' : option TrustedActionConfirmationHost)
    (lease : Lease.TrustedTaskAuthorizationLease) (allow allow' : bool)
    (confirmation : Req.TrustedActionConfirmationRequest) :
  let outcome :=
    authorize_window_confirmation now uuid authority confirm (Some lease) allow
      confirmation in
  outcome = authorize_window_confirmation now uuid authority confirm' (Some lease) allow'
              confirmation
  /\ (outcome = Allowed ->
      now <= Lease.expires_at_unix_ms lease
      /\ same_window confirmation lease
      /\ exists scope h request decision,
           from_confirmation confirmation = Some scope
           /\ scope ∈ Lease.allowed_actions lease
           /\ authority = Some h
           /\ validation_request uuid lease confirmation scope = Ok request
           /\ ValReq.action_request_digest request = Req.request_digest confirmation
           /\ AuthHost.validate h request = Ok decision
           /\ ValDecision.status decision = Active
           /\ ValDecision.request_digest decision = ValReq.request_digest request).
Proof.
  intros outcome. unfold outcome. clear outcome.
  unfold authorize_window_confirmation, authorize_task_scoped_action.
  split; [repeat case_match; done|]. intros H.
  destruct (Lease.expires_at_unix_ms lease <? now) eqn:Et; [done|].
  destruct (_ || _) eqn:Ew in H; [done|].
  destruct (from_confirmation confirmation) as [scope|] eqn:Es; [|done].
  destruct (negb (scope ∈? Lease.allowed_actions lease)) eqn:Ein; [done|].
  destruct authority as [h|]; [|done].
  destruct (validation_request uuid lease confirmation scope) as [request|] eqn:Er; [|done].
  destruct (AuthHost.validate h request) as [decision|] eqn:Ed; [|done].
  destruct (_ != _) eqn:Edig in H; [done|].
  destruct (ValDecision.status decision) eqn:Est; [|done].
  apply Z.ltb_ge in Et. reflect_all. split; [done|]. split; [by unfold same_window|].
  exists scope, h, request, decision. split_and!; try done.
  unfold validation_request in Er. apply rbind_ok in Er as (? & _ & Er).
  by injection Er as <-.
Qed.

(** a session proceeds under a lease only while the lease is whole and live.
    Revalidation succeeds exactly when there is no lease, or when the lease is
    still in time and well scoped and a trusted authority answers [Active] to a
    digest-bound question about this very lease; a missing, failing, revoking or
    confused authority stops the session. *)
Theorem active_lease_is_live `{P : Platform}
    `{DL : !Digestible UnsignedLease.UnsignedTaskAuthorizationLeaseValidationRequest}
    (now : Z) (uuid : string) (host : option AuthHost.TrustedTaskAuthorizationHost)
    (lease : option Lease.TrustedTaskAuthorizationLease) :
  validate_active_task_authorization now uuid host lease = Ok tt <->
  match lease with
  | None => True
  | Some lease =>
      lease_in_time now lease /\ lease_scope_valid lease
      /\ exists h request decision,
           host = Some h
           /\ lease_validation_request uuid lease = Ok request
           /\ AuthHost.validate_lease h request = Ok decision
           /\ ValDecision.status decision = Active
           /\ ValDecision.request_digest decision = LeaseReq.request_digest request
  end.
Proof.
  unfold validate_active_task_authorization. destruct lease as [lease|]; [|done].
  destruct host as [h|]; [|split; [done | by intros (_ & _ & ? & ? & ? & ? & _)]].
  destruct (validate_lease now (retained_request lease) lease) as [[]|e] eqn:Ev.
  - apply validate_lease_ok in Ev as (_ & Ht & Hs). simpl.
    destruct (lease_validation_request uuid lease) as [request|] eqn:Er; simpl;
      [|split; [done | intros (_ & _ & ? & ? & ? & ? & ? & _); congruence]].
    destruct (AuthHost.validate_lease h request) as [decision|] eqn:Ed;
      [|split; [done | intros (_ & _ & ? & ? & ? & ? & ? & ? & _); congruence]].
    destruct (decide (ValDecision.request_digest decision = LeaseReq.request_digest request))
      as [Hd|Hd];
      [rewrite bool_decide_eq_true_2 by done | rewrite bool_decide_eq_false_2 by done]; simpl.
    + destruct (ValDecision.status decision) eqn:Est; (split; [intros|]); try done.
      * split_and!; [done | done |]. by exists h, request, decision.
      * intros (_ & _ & ? & ? & ? & ? & ? & ? & ? & _). congruence.
    + split; [done|]. intros (_ & _ & ? & ? & ? & ? & ? & ? & ? & ?). congruence.
  - simpl. split; [done|]. intros (Ht & Hs & _).
    assert (validate_lease now (retained_request lease) lease = Ok tt) as Hok; [|congruence].
    apply validate_lease_ok. auto using retained_request_matches.
Qed.

(** the two expiry tests disagree at the boundary.  At the very millisecond a
    lease expires its revalidation reports it as expired, but the authorization
    of an action does not. *)
Theorem lease_expiry_tests_disagree_at_boundary `{P : Platform}
    `{DV : !Digestible UnsignedVal.UnsignedTaskAuthorizationValidationRequest}
    `{DL : !Digestible UnsignedLease.UnsignedTaskAuthorizationLeaseValidationRequest}
    (uuid : string) (host : AuthHost.TrustedTaskAuthorizationHost)
    (lease : Lease.TrustedTaskAuthorizationLease)
    (confirmation : Req.TrustedActionConfirmationRequest) :
  let now := Lease.expires_at_unix_ms lease in
  validate_active_task_authorization now uuid (Some host) (Some lease)
    = Err (HostError.coded_protocol HostProtocolErrorCode.TaskAuthorizationExpired
             "the trusted task authorization lease expired or became invalid")
  /\ authorize_task_scoped_action now uuid (Some host) (Some lease) confirmation <> Expired
  /\ authorize_task_scoped_action (now + 1) uuid (Some host) (Some lease) confirmation
     = Expired.
Proof.
  intros now. split_and!.
  - unfold validate_active_task_authorization.
    destruct (validate_lease now (retained_request lease) lease) as [[]|] eqn:E; [|done].
    apply validate_lease_ok in E as (_ & [Ht _] & _). unfold now in Ht. lia.
  - unfold authorize_task_scoped_action. rewrite Z.ltb_irrefl. repeat case_match; done.
  - unfold authorize_task_scoped_action. by replace (_ <? _) with true by lia.
Qed.

(** ** The interface of an authority *)

(** What a lease asks of the files of the moment: its journal is an ordinary directory. *)
Definition journal_ordinary (files : string -> option Metadata.Metadata)
    (lease : Lease.TrustedTaskAuthorizationLease) : Prop :=
  forall authorization, Lease.capture_preparation lease = Some authorization ->
    ordinary_way files (PrepAuth.journal_directory authorization).

Lemma is_ok_unit {E} (m : result E unit) : is_ok m = true <-> m = Ok tt.
Proof. destruct m as [[]|]; naive_solver. Qed.

(** The journal is all that another look at the files may change. *)
Lemma preparation_scope_at `{P : Platform} files files' lease :
  valid_preparation_scope (P := at_files files) lease = true ->
  valid_preparation_scope (P := at_files files') lease = true <-> journal_ordinary files' lease.
Proof.
  unfold valid_preparation_scope, journal_ordinary.
  destruct (Lease.capture_preparation lease) as [a|];
    [|by split; [intros _ ? [=]|]].
  cbn [is_none_or is_some]. rewrite !andb_true_iff, !is_ok_unit, !output_location_ok.
  intros H. split; [intros H' ? [= <-]; by apply H' | intros H'].
  specialize (H' a eq_refl). tauto.
Qed.

Lemma lease_scope_at `{P : Platform} files files' lease :
  lease_scope_valid (P := at_files files) lease ->
  lease_scope_valid (P := at_files files') lease <-> journal_ordinary files' lease.
Proof.
  intros H. rewrite <- (preparation_scope_at files) by apply H. split; [intros []; done|].
  intros Hp. destruct H. by split.
Qed.

(** What the Host needs of an authority at a given time: the leases it issues are for the
    request they answer, from that time on, and well scoped for the files that the
    authority once found. *)
Class LawfulAuthority `{P : Platform} (now : Z)
    (host : AuthHost.TrustedTaskAuthorizationHost) : Prop :=
  lawful_authorize : forall request lease,
    AuthHost.authorize host request = Ok lease ->
    lease_matches request lease /\ lease_in_time now lease
    /\ Lease.issued_at_unix_ms lease = now
    /\ exists files, lease_scope_valid (P := at_files files) lease.

(** The time in which a lease issued at [now] is in force. *)
Lemma lease_in_time_from now now' lease :
  lease_in_time now lease -> Lease.issued_at_unix_ms lease = now ->
  lease_in_time now' lease <-> now <= now' < Lease.expires_at_unix_ms lease.
Proof. unfold lease_in_time. intros [? ?] <-. split; [lia|]. intros ?. split; [lia | done]. Qed.

(** Of the checks of the Host against such an authority only the clock, read again, and
    the files, looked at again, can refuse. *)
Lemma issue_from_lawful_authority `{P : Platform}
    `{DA : !Digestible UnsignedAuth.UnsignedTaskAuthorizationRequest}
    now now' files uuid host `{!LawfulAuthority now host} binding request lease :
  binding_request uuid binding = Ok request ->
  issue_task_authorization (P := at_files files) now' uuid (Some host) binding = Ok lease
  <-> AuthHost.authorize host request = Ok lease
      /\ now <= now' < Lease.expires_at_unix_ms lease /\ journal_ordinary files lease.
Proof.
  intros Hreq. unfold issue_task_authorization. rewrite Hreq. cbn [rbind].
  rewrite rbind_ok. setoid_rewrite rmap_err_ok. setoid_rewrite rbind_ok. split.
  - intros (l & Hl & [] & Hv%validate_lease_ok & [= <-]). split; [done|].
    destruct (lawful_authorize request l Hl) as (_ & Ht & Hi & files0 & Hs).
    destruct Hv as (_ & Hv & Hs'). split; [by apply (lease_in_time_from _ _ _ Ht Hi)|].
    by apply (lease_scope_at files0).
  - intros (Hl & Ht' & Hj). exists lease. split; [done|]. exists tt. split; [|done].
    destruct (lawful_authorize request lease Hl) as (Hm & Ht & Hi & files0 & Hs).
    apply validate_lease_ok. split_and!; [done | by apply (lease_in_time_from _ _ _ Ht Hi)|].
    by apply (lease_scope_at files0).
Qed.

(** ** Witnesses *)

(** A toy digest: the request id. *)
#[local] Instance sample_auth_digest :
  Digestible UnsignedAuth.UnsignedTaskAuthorizationRequest :=
  fun u => Ok (UnsignedAuth.request_id u).
#[local] Instance sample_val_digest :
  Digestible UnsignedVal.UnsignedTaskAuthorizationValidationRequest :=
  fun u => Ok (UnsignedVal.request_id u).

Definition sample_scope : Scope.TrustedTaskActionScope := {|
  Scope.action := "click"; Scope.input_kind := "raw_input"; Scope.secret_input := false;
  Scope.authorization_category := "raw_input"; Scope.browser_origin := None |}.

Definition sample_lease : Lease.TrustedTaskAuthorizationLease := {|
  Lease.connection_id := "c"; Lease.authorization_id := "a"; Lease.session_id := "s";
  Lease.task_grant_id := "g"; Lease.application_label := "Maya";
  Lease.window_capability := "w"; Lease.target_process_id := 7;
  Lease.target_window_handle := 9;
  Lease.allowed_host_methods := ["execute_action"; "snapshot"];
  Lease.allowed_actions := [sample_scope]; Lease.allowed_browser_origins := [];
  Lease.browser_scope := None; Lease.recording_output_dir := None;
  Lease.capture_preparation := None; Lease.issued_at_unix_ms := 1000;
  Lease.expires_at_unix_ms := 2000; Lease.request_digest := "sha256:u" |}.

Definition sample_authority : AuthHost.TrustedTaskAuthorizationHost := {|
  AuthHost.authorize _ := Ok sample_lease;
  AuthHost.validate request :=
    Ok {| ValDecision.status := Active;
          ValDecision.request_digest := ValReq.request_digest request |};
  AuthHost.validate_lease request :=
    Ok {| ValDecision.status := Active;
          ValDecision.request_digest := LeaseReq.request_digest request |} |}.

Definition sample_auth_binding : AuthBinding.TaskAuthorizationBinding := {|
  AuthBinding.connection_id := "c"; AuthBinding.authorization_id := "a";
  AuthBinding.session_id := "s"; AuthBinding.task_grant_id := "g";
  AuthBinding.application_label := "Maya"; AuthBinding.window_capability := "w";
  AuthBinding.target := {| Window.process_id := 7; Window.window_handle := 9 |} |}.

Definition sample_confirmation : Req.TrustedActionConfirmationRequest := {|
  Req.schema := TRUSTED_ACTION_CONFIRMATION_SCHEMA; Req.request_id := "r";
  Req.session_id := "s"; Req.task_grant_id := "g"; Req.window_capability := "w";
  Req.target_process_id := Some 7; Req.target_window_handle := Some 9;
  Req.observation_id := "o"; Req.accessibility_state_id := None;
  Req.intent := "navigate";
  Req.action := Object [("action", Str "click"); ("input_kind", Str "raw_input");
                        ("authorization_category", Str "raw_input")];
  Req.request_digest := "sha256:x" |}.

Lemma issued_lease_is_exact_and_bounded_witness :
  issue_task_authorization (P := sample_platform) 1500 "u" (Some sample_authority)
    sample_auth_binding = Ok sample_lease
  /\ Lease.session_id sample_lease = "s"
  /\ lease_in_time 1500 sample_lease.
Proof.
  assert (issue_task_authorization (P := sample_platform) 1500 "u" (Some sample_authority)
    sample_auth_binding = Ok sample_lease) as H by (vm_compute; reflexivity).
  split; [exact H|].
  destruct (issued_lease_is_exact_and_bounded (P := sample_platform) 1500 "u"
    (Some sample_authority) sample_auth_binding sample_lease H)
    as (_ & _ & Hs & _ & _ & _ & _ & _ & _ & Ht & _).
  split; [exact Hs | exact Ht].
Defined.

Lemma leased_action_is_within_lease_witness :
  authorize_window_confirmation 1500 "u" (Some sample_authority) None
    (Some sample_lease) false sample_confirmation = Allowed
  /\ same_window sample_confirmation sample_lease.
Proof.
  assert (authorize_window_confirmation 1500 "u" (Some sample_authority) None
    (Some sample_lease) false sample_confirmation = Allowed) as H
    by (vm_compute; reflexivity).
  split; [exact H|].
  destruct (proj2 (leased_action_is_within_lease 1500 "u"
    (Some sample_authority) None None sample_lease false false sample_confirmation) H)
    as (_ & Hw & _).
  exact Hw.
Defined.
