(* ===== verification/Admission.v ===== *)
(** * What admits an input, and what is sent

    The vocabulary in which the theorems on window and desktop sessions say what an input
    was admitted by and what of the requested action reaches the driver.  It models no
    code: it names fields of the request and answers of the user, the lease and the
    vault, so that a theorem does not have to trust the function whose work it states. *)

From S2P Require Import Prelude Records RustStr Json Protocol Errors HostAction.
From S2P Require Import Confirmation Platform TaskAuthorization.

(** ** The action that is sent *)

(** The name under which the core knows an action. *)
Inductive names : string -> string -> Prop :=
| names_checked : names "set_checked" "set_value"
| names_press : names "press" "keypress"
| names_press_key : names "press_key" "keypress"
| names_hotkey : names "hotkey" "keyboard_shortcut"
| names_itself action :
    action ∉ ["set_checked"; "press"; "press_key"; "hotkey"] -> names action action.

(** The text of an action, or the state a check box is set to. *)
Definition text_of (a : HA.HostAction) (kind : string) (text : option string) : Prop :=
  match HA.checked a with
  | Some checked =>
      (kind = "set_value" -> text = Some (if checked : bool then "true" else "false"))
      /\ (kind <> "set_value" -> text = HA.text a)
  | None => text = HA.text a
  end.

(** [c] is the action [a] on an observation: field by field. *)
Record sent_as (a : HA.HostAction) (observation_id : string) (c : CA.ComputerUseAction)
    : Prop := {
  sent_action : names (HA.action a) (CA.action c);
  sent_observation : CA.observation_id c = Some observation_id;
  sent_index : CA.element_index c = HA.element_index a;
  sent_token : CA.element_token c = HA.element_token a;
  sent_mode : CA.delivery_mode c = HA.delivery_mode a;
  sent_backend : CA.input_backend_id c = HA.input_backend_id a;
  sent_x : CA.x c = HA.x a;
  sent_y : CA.y c = HA.y a;
  sent_button : CA.button c = HA.button a;
  sent_scroll : CA.scroll_x c = HA.scroll_x a /\ CA.scroll_y c = HA.scroll_y a
    /\ CA.scroll_by c = HA.scroll_by a;
  sent_path : CA.path c = HA.path a;
  sent_text : text_of a (CA.action c) (CA.text c);
  sent_times : CA.delay_ms c = HA.delay_ms a /\ CA.duration_ms c = HA.duration_ms a
    /\ CA.steps c = HA.steps a;
  sent_chars : CA.type_chars_only c = HA.type_chars_only a;
  sent_keys : CA.keys c = HA.keys a;
  sent_modifiers : CA.modifiers c = HA.modifiers a;
  sent_kind : HA.input_kind a ∈ ["raw_input"; "semantic"];
  sent_secret : HA.secret_handle a = None;
}.

Lemma canonical_names action : names action (canonical_action action).
Proof.
  unfold canonical_action. case_bool_decide as H1; [subst; constructor|].
  case_bool_decide as H2; [set_unfold in H2; destruct H2 as [->|[->|[]]]; constructor|].
  case_bool_decide as H3; [subst; constructor|]. constructor. set_solver.
Qed.

Lemma into_computer_use_sends a observation_id c :
  into_computer_use a observation_id = Ok c -> sent_as a observation_id c.
Proof.
  unfold into_computer_use. intros (? & _ & H)%rbind_ok.
  apply guard_ok in H as [Hs H]. apply guard_ok in H as [Hk H]. apply guard_ok in H as [_ H].
  injection H as <-. apply negb_false_iff, bool_decide_eq_true in Hk.
  split; cbn; try done; [apply canonical_names | | by destruct (HA.secret_handle a)].
  unfold text_of. destruct (HA.checked a) as [b|]; cbn; [|by rewrite andb_false_r].
  rewrite andb_true_r. by split; intros; case_bool_decide.
Qed.

(** ** What the user, or the authority of a lease, is asked *)

(** [request] asks about [action] with [intent], for the session, the grant, the
    capability, the window and the evidence; its digest covers everything in it. *)
Record asks_about (digest_of : Unsigned.UnsignedConfirmationRequest -> result string string)
    (session_id task_grant_id capability : string) (window : option (Z * Z))
    (observation_id : string) (accessibility_state_id : option string) (intent : string)
    (action : value) (request : Req.TrustedActionConfirmationRequest) : Prop := {
  asks_session : Req.session_id request = session_id;
  asks_grant : Req.task_grant_id request = task_grant_id;
  asks_capability : Req.window_capability request = capability;
  asks_process : Req.target_process_id request = option_map fst window;
  asks_window : Req.target_window_handle request = option_map snd window;
  asks_observation : Req.observation_id request = observation_id;
  asks_state : Req.accessibility_state_id request = accessibility_state_id;
  asks_intent : Req.intent request = intent;
  asks_action : Req.action request = action;
  asks_digest : exists digest, digest_of (unsigned_of request) = Ok digest
    /\ Req.request_digest request = "sha256:" +:+ digest;
}.

(** The user said yes to this very request. *)
Definition user_allows (host : option TrustedActionConfirmationHost)
    (request : Req.TrustedActionConfirmationRequest) : Prop :=
  exists confirm decision, host = Some confirm /\ confirm request = Ok decision
    /\ Decision.action decision = Decision.Allow
    /\ Decision.request_digest decision = Req.request_digest request.

(** The lease names the window and the scope of the action, is in time, and its authority
    said, of this very request, that the authorization is active. *)
Definition lease_allows
    `{DV : !Digestible UnsignedVal.UnsignedTaskAuthorizationValidationRequest}
    (authority : option AuthHost.TrustedTaskAuthorizationHost) (now : Z)
    (lease : Lease.TrustedTaskAuthorizationLease)
    (request : Req.TrustedActionConfirmationRequest) : Prop :=
  now <= Lease.expires_at_unix_ms lease
  /\ same_window request lease
  /\ exists scope host question decision,
       from_confirmation request = Some scope
       /\ scope ∈ Lease.allowed_actions lease
       /\ authority = Some host
       /\ ValReq.authorization_id question = Lease.authorization_id lease
       /\ ValReq.action_scope question = scope
       /\ ValReq.action_request_digest question = Req.request_digest request
       /\ ValReq.lease_request_digest question = Lease.request_digest lease
       /\ AuthHost.validate host question = Ok decision
       /\ ValDecision.status decision = Active
       /\ ValDecision.request_digest decision = ValReq.request_digest question.

Lemma new_value_asks digest_of uuid session_id grant capability target observation_id state
    intent action request :
  new_value digest_of uuid (Binding.Build_ConfirmationBinding session_id grant capability
    target observation_id state) intent action = Ok request ->
  asks_about digest_of session_id grant capability
    (option_map (fun w => (Window.process_id w, Window.window_handle w)) target)
    observation_id state intent action request.
Proof.
  intros H. apply new_value_digest in H as Hd. unfold new_value in H.
  apply rbind_ok in H as (? & _ & H). injection H as <-.
  split; try done; by destruct target.
Qed.

Lemma authorize_allows host grant request :
  authorize_action_confirmation host grant request = Allowed ->
  grant = true /\ user_allows host request.
Proof.
  intros (-> & confirm & decision & -> & ? & ? & ?)%authorize_allowed.
  split; [done|]. by exists confirm, decision.
Qed.

(** Who allowed an action of a window session. *)
Lemma authorize_window_allows
    `{DV : !Digestible UnsignedVal.UnsignedTaskAuthorizationValidationRequest}
    now uuid authority user lease allow request :
  authorize_window_confirmation now uuid authority user lease allow request = Allowed ->
  match lease with
  | Some lease => lease_allows authority now lease request
  | None => allow = true /\ user_allows user request
  end.
Proof.
  destruct lease as [lease|]; [|apply authorize_allows].
  intros H. apply (proj2 (leased_action_is_within_lease now uuid authority user user lease
    allow allow request)) in H as (? & ? & scope & h & question & decision & ? & ? & ? & Hq & ? & ? & ? & ?).
  split_and!; try done. exists scope, h, question, decision.
  unfold validation_request in Hq. apply rbind_ok in Hq as (? & _ & Hq). injection Hq as <-.
  by split_and!.
Qed.
