(* ===== verification/Request.v ===== *)
(** * The requests of the Host ([crates/dcc-cua-host/src/lib.rs], [enum Request])

    Every request a client can send, the routing of a request to the window session
    it names, and the checks of request parameters.  A payload that none of the
    modelled operations reads is kept as the JSON [value] it is decoded from. *)

From S2P Require Import Prelude RustStr Json Protocol Errors Contracts SessionHealth.
From S2P Require Import HostAction Confirmation.
From S2P Require Import Platform CapturePreparation TaskGrant TaskAuthorization.

(** ** Payloads *)

Module CapturePreparationBindings.
Record CapturePreparationBindings : Type := {
  session_id : string;
  task_grant_id : string;
  window_capability : string;
}.
End CapturePreparationBindings.

Module CapturePreparationBeginParams.
Record CapturePreparationBeginParams : Type := {
  session_id : string;
  task_grant_id : string;
  window_capability : string;
  request : BeginRequest.CapturePreparationBeginRequest;
}.
End CapturePreparationBeginParams.

(** The requests of [crates/dcc-cua-browser]. *)
Module BrowserSnapshotRequest.
Record BrowserSnapshotRequest : Type := {
  target_id : option string;
  tab_id : option string;
  snapshot_format : string;
  scope_ref : option string;
  scope_ancestor_role : option string;
  query : option string;
  continuation : option string;
  include_screenshot : bool;
}.
End BrowserSnapshotRequest.

Module BrowserPrepareRequest.
Record BrowserPrepareRequest : Type := {
  approval_token : option string;
  allow_launch : bool;
  profile : option value;
  strategy : option value;
}.
End BrowserPrepareRequest.

Module BrowserNavigateRequest.
Record BrowserNavigateRequest : Type := {
  target_id : string;
  tab_id : string;
  url : string;
  delivery_mode : option string;
}.
End BrowserNavigateRequest.

Module BrowserClickRequest.
Record BrowserClickRequest : Type := {
  target_id : string;
  tab_id : string;
  snapshot_id : string;
  element_ref : option string;
  x : option f64;
  y : option f64;
  input_route : option string;
}.
End BrowserClickRequest.

Module BrowserTypeRequest.
Record BrowserTypeRequest : Type := {
  target_id : string;
  tab_id : string;
  snapshot_id : string;
  element_ref : string;
  text : option string;
  secret_handle : option string;
  mode : option string;
  replace : bool;
}.
End BrowserTypeRequest.

Module BrowserPointerRequest.
Record BrowserPointerRequest : Type := {
  target_id : string;
  tab_id : string;
  snapshot_id : string;
  element_ref : option string;
  destination_ref : option string;
  action : string;
  input_route : option string;
  delta_x : option f64;
  delta_y : option f64;
  x : option f64;
  y : option f64;
}.
End BrowserPointerRequest.

Module BrowserSetInputFilesRequest.
Record BrowserSetInputFilesRequest : Type := {
  target_id : string;
  tab_id : string;
  snapshot_id : string;
  element_ref : string;
  files : list string;
}.
End BrowserSetInputFilesRequest.

Module BrowserDownloadRequest.
Record BrowserDownloadRequest : Type := {
  target_id : string;
  tab_id : string;
  snapshot_id : string;
  element_ref : string;
  destination_root : string;
}.
End BrowserDownloadRequest.

Module BrowserDialogRequest.
Record BrowserDialogRequest : Type := {
  target_id : string;
  tab_id : string;
  action : string;
  dialog_id : option string;
  prompt_text : option string;
  delivery_mode : option string;
}.
End BrowserDialogRequest.

Module PrepBindings := CapturePreparationBindings.
Module PrepBegin := CapturePreparationBeginParams.
Module BSnapshot := BrowserSnapshotRequest.
Module BPrepare := BrowserPrepareRequest.
Module BNavigate := BrowserNavigateRequest.
Module BClick := BrowserClickRequest.
Module BType := BrowserTypeRequest.
Module BPointer := BrowserPointerRequest.
Module BFiles := BrowserSetInputFilesRequest.
Module BDownload := BrowserDownloadRequest.
Module BDialog := BrowserDialogRequest.

Inductive PostSnapshotMode : Type := Full | Semantic.

Module WindowOperation.
Inductive WindowOperation : Type := Activate | RestoreActivate | Close | DismissMenu.
End WindowOperation.

#[export] Instance WindowOperation_eq_dec : EqDecision WindowOperation.WindowOperation.
Proof. solve_decision. Defined.

#[export] Instance PostSnapshotMode_eq_dec : EqDecision PostSnapshotMode.
Proof. solve_decision. Defined.

(** ** The requests *)

Module Request.
Inductive Request : Type :=
| Hello (params : HelloParams.HelloParams)
| Ping
| Doctor
| RegisterBrowserExtension (hello : value) (invocation_origin : string)
    (browser_process_id : Z) (browser_window_handle : option Z)
| BrowserExtensionTransportBinding
| BrowserExtensionNext (provider_id provider_secret : string) (timeout_ms : Z)
| CompleteBrowserExtension (provider_id provider_secret : string) (response : value)
| UnregisterBrowserExtension (provider_id provider_secret : string)
| BrowserExtensionStatus (session_id task_grant_id window_capability : string)
| BrowserExtensionCall (session_id task_grant_id window_capability : string)
    (provider_id expected_origin method : string) (params : value) (timeout_ms : Z)
| InterruptAll
| ListApps
| ListTools
| ListWindows (app : option string) (pid : option Z) (window_id : option Z)
    (window_title : option string) (on_screen_only : bool)
| WaitForWindow (request : WindowWait.ComputerUseWindowWaitRequest)
| DesktopSnapshot
| ScreenSize
| CursorPosition
| OpenDesktopSession (session_id : string) (grant : Grant.TaskGrant)
| DesktopSessionSnapshot (session_id task_grant_id desktop_capability : string)
| ExecuteDesktopAction (session_id task_grant_id desktop_capability : string)
    (observation_id : string) (action : HA.HostAction) (capture_after : bool)
    (post_snapshot_delay_ms : Z)
| StopDesktopSession (session_id : string)
| LaunchApp (session_id : string) (grant : Grant.TaskGrant) (launch : value)
| TerminateApp (session_id task_grant_id window_capability : string)
| ClipboardRead (session_id task_grant_id window_capability : string)
    (include_text : bool)
| ClipboardCaptureSecret (session_id task_grant_id window_capability : string)
    (observation_id secret_handle : string)
| ClipboardWrite (session_id task_grant_id window_capability : string)
    (write : ClipboardWriteRequest.ComputerUseClipboardWriteRequest)
| CapturePreparationBegin (params : PrepBegin.CapturePreparationBeginParams)
| CapturePreparationState (params : PrepBindings.CapturePreparationBindings)
| CapturePreparationStop (params : PrepBindings.CapturePreparationBindings)
| CapturePreparationSnapshot (params : PrepBindings.CapturePreparationBindings)
| RecordingStart (session_id task_grant_id window_capability : string)
    (request : RecStart.ComputerUseRecordingStartRequest)
| RecordingStop (session_id task_grant_id window_capability : string)
| RecordingState (session_id task_grant_id window_capability : string)
| LiveObservationStart (session_id task_grant_id window_capability : string)
    (request : LiveStart.ComputerUseLiveObservationStartRequest)
| LiveObservationState (session_id task_grant_id window_capability : string)
| LiveObservationStop (session_id task_grant_id window_capability : string)
| OpenSession (session_id : string) (grant : Grant.TaskGrant) (activate_before : bool)
    (indicator_motion : value) (idle_timeout_ms : Z)
| GetWindowState (session_id task_grant_id window_capability : string)
| ChangeWindowState (session_id task_grant_id window_capability : string)
    (operation : WindowOperation.WindowOperation) (window_state_id : option string)
| MinimizeWindow (session_id task_grant_id window_capability : string)
    (observation_id : string)
| SetWindowFrame (session_id task_grant_id window_capability : string)
    (window_state_id : option string) (frame : WindowFrame.ComputerUseWindowFrameRequest)
| InvokeMenu (session_id task_grant_id window_capability : string)
    (request : Menu.ComputerUseMenuRequest)
| Snapshot (session_id task_grant_id window_capability : string) (max_depth max_nodes : Z)
    (activate_before capture_diagnostics : bool)
    (native_capture_popup_window_handles : list Z)
| Zoom (session_id task_grant_id window_capability : string)
    (request : Zoom.ComputerUseZoomRequest)
| AccessibilitySnapshot (session_id task_grant_id window_capability : string)
    (max_depth max_nodes : Z)
| VerifyState (session_id task_grant_id window_capability : string) (expect : value)
    (timeout_ms stable_samples : option Z) (include_screenshot : bool)
| CallTool (session_id task_grant_id window_capability : string) (tool : string)
    (arguments : value)
| CallGlobalTool (grant : Grant.TaskGrant) (tool : string) (arguments : value)
| BrowserSnapshot (session_id task_grant_id window_capability : string)
    (request : BSnapshot.BrowserSnapshotRequest)
| BrowserPrepare (session_id task_grant_id window_capability : string)
    (request : BPrepare.BrowserPrepareRequest)
| BrowserNavigate (session_id task_grant_id window_capability : string)
    (request : BNavigate.BrowserNavigateRequest)
| BrowserClick (session_id task_grant_id window_capability : string)
    (request : BClick.BrowserClickRequest)
| BrowserType (session_id task_grant_id window_capability : string)
    (request : BType.BrowserTypeRequest)
| BrowserPointer (session_id task_grant_id window_capability : string)
    (request : BPointer.BrowserPointerRequest)
| BrowserSetInputFiles (session_id task_grant_id window_capability : string)
    (request : BFiles.BrowserSetInputFilesRequest)
| BrowserDownload (session_id task_grant_id window_capability : string)
    (request : BDownload.BrowserDownloadRequest)
| BrowserDialog (session_id task_grant_id window_capability : string)
    (request : BDialog.BrowserDialogRequest)
| Find (session_id task_grant_id window_capability : string)
    (query : FindQuery.FindQuery)
| WaitFor (session_id task_grant_id window_capability : string)
    (condition : WaitCondition.WaitCondition)
| ExecuteAction (session_id task_grant_id window_capability : string)
    (observation_id accessibility_state_id : string) (action : HA.HostAction)
    (capture_after : bool)
    (post_snapshot_delay_ms post_snapshot_max_depth post_snapshot_max_nodes : Z)
    (post_snapshot_mode : PostSnapshotMode)
| ResumeSession (session_id task_grant_id window_capability : string)
| GetSessionState (session_id task_grant_id window_capability : string)
| GetInputState (session_id task_grant_id window_capability : string)
| SessionHealth (session_id task_grant_id window_capability : string)
    (policy : Policy.ComputerUseSessionHealthPolicy)
| PollSessionEvents (session_id task_grant_id window_capability : string)
    (after_sequence timeout_ms : Z)
| CursorTool (session_id task_grant_id window_capability : string) (tool : string)
    (arguments : value)
| EscalateSession (session_id task_grant_id window_capability : string)
    (reason : string) (detail : option string)
| StopSession (session_id : string)
| Cancel (session_id task_grant_id window_capability : string)
| CancelWindowWait (wait_id : string).

(** The [rename_all = "snake_case"] tag of a variant. *)
Definition method (self : Request) : string :=
  match self with
  | Hello _ => "hello"
  | Ping => "ping"
  | Doctor => "doctor"
  | RegisterBrowserExtension _ _ _ _ => "register_browser_extension"
  | BrowserExtensionTransportBinding => "browser_extension_transport_binding"
  | BrowserExtensionNext _ _ _ => "browser_extension_next"
  | CompleteBrowserExtension _ _ _ => "complete_browser_extension"
  | UnregisterBrowserExtension _ _ => "unregister_browser_extension"
  | BrowserExtensionStatus _ _ _ => "browser_extension_status"
  | BrowserExtensionCall _ _ _ _ _ _ _ _ => "browser_extension_call"
  | InterruptAll => "interrupt_all"
  | ListApps => "list_apps"
  | ListTools => "list_tools"
  | ListWindows _ _ _ _ _ => "list_windows"
  | WaitForWindow _ => "wait_for_window"
  | DesktopSnapshot => "desktop_snapshot"
  | ScreenSize => "screen_size"
  | CursorPosition => "cursor_position"
  | OpenDesktopSession _ _ => "open_desktop_session"
  | DesktopSessionSnapshot _ _ _ => "desktop_session_snapshot"
  | ExecuteDesktopAction _ _ _ _ _ _ _ => "execute_desktop_action"
  | StopDesktopSession _ => "stop_desktop_session"
  | LaunchApp _ _ _ => "launch_app"
  | TerminateApp _ _ _ => "terminate_app"
  | ClipboardRead _ _ _ _ => "clipboard_read"
  | ClipboardCaptureSecret _ _ _ _ _ => "clipboard_capture_secret"
  | ClipboardWrite _ _ _ _ => "clipboard_write"
  | CapturePreparationBegin _ => "capture_preparation_begin"
  | CapturePreparationState _ => "capture_preparation_state"
  | CapturePreparationStop _ => "capture_preparation_stop"
  | CapturePreparationSnapshot _ => "capture_preparation_snapshot"
  | RecordingStart _ _ _ _ => "recording_start"
  | RecordingStop _ _ _ => "recording_stop"
  | RecordingState _ _ _ => "recording_state"
  | LiveObservationStart _ _ _ _ => "live_observation_start"
  | LiveObservationState _ _ _ => "live_observation_state"
  | LiveObservationStop _ _ _ => "live_observation_stop"
  | OpenSession _ _ _ _ _ => "open_session"
  | GetWindowState _ _ _ => "get_window_state"
  | ChangeWindowState _ _ _ _ _ => "change_window_state"
  | MinimizeWindow _ _ _ _ => "minimize_window"
  | SetWindowFrame _ _ _ _ _ => "set_window_frame"
  | InvokeMenu _ _ _ _ => "invoke_menu"
  | Snapshot _ _ _ _ _ _ _ _ => "snapshot"
  | Zoom _ _ _ _ => "zoom"
  | AccessibilitySnapshot _ _ _ _ _ => "accessibility_snapshot"
  | VerifyState _ _ _ _ _ _ _ => "verify_state"
  | CallTool _ _ _ _ _ => "call_tool"
  | CallGlobalTool _ _ _ => "call_global_tool"
  | BrowserSnapshot _ _ _ _ => "browser_snapshot"
  | BrowserPrepare _ _ _ _ => "browser_prepare"
  | BrowserNavigate _ _ _ _ => "browser_navigate"
  | BrowserClick _ _ _ _ => "browser_click"
  | BrowserType _ _ _ _ => "browser_type"
  | BrowserPointer _ _ _ _ => "browser_pointer"
  | BrowserSetInputFiles _ _ _ _ => "browser_set_input_files"
  | BrowserDownload _ _ _ _ => "browser_download"
  | BrowserDialog _ _ _ _ => "browser_dialog"
  | Find _ _ _ _ => "find"
  | WaitFor _ _ _ _ => "wait_for"
  | ExecuteAction _ _ _ _ _ _ _ _ _ _ _ => "execute_action"
  | ResumeSession _ _ _ => "resume_session"
  | GetSessionState _ _ _ => "get_session_state"
  | GetInputState _ _ _ => "get_input_state"
  | SessionHealth _ _ _ _ => "session_health"
  | PollSessionEvents _ _ _ _ _ => "poll_session_events"
  | CursorTool _ _ _ _ _ => "cursor_tool"
  | EscalateSession _ _ _ _ _ => "escalate_session"
  | StopSession _ => "stop_session"
  | Cancel _ _ _ => "cancel"
  | CancelWindowWait _ => "cancel_window_wait"
  end.
End Request.

(** ** The window session a request acts on *)

(** [Request::window_method_scope]: session, grant, capability and method. *)
Definition window_method_scope (self : Request.Request)
    : option (string * string * string * string) :=
  match self with
  | Request.CapturePreparationBegin params =>
      Some (PrepBegin.session_id params, PrepBegin.task_grant_id params,
            PrepBegin.window_capability params, "capture_preparation_begin")
  | Request.CapturePreparationState params =>
      Some (PrepBindings.session_id params, PrepBindings.task_grant_id params,
            PrepBindings.window_capability params, "capture_preparation_state")
  | Request.CapturePreparationStop params =>
      Some (PrepBindings.session_id params, PrepBindings.task_grant_id params,
            PrepBindings.window_capability params, "capture_preparation_stop")
  | Request.CapturePreparationSnapshot params =>
      Some (PrepBindings.session_id params, PrepBindings.task_grant_id params,
            PrepBindings.window_capability params, "capture_preparation_snapshot")
  | Request.TerminateApp s g c => Some (s, g, c, "terminate_app")
  | Request.ClipboardRead s g c _ => Some (s, g, c, "clipboard_read")
  | Request.ClipboardCaptureSecret s g c _ _ => Some (s, g, c, "clipboard_capture_secret")
  | Request.ClipboardWrite s g c _ => Some (s, g, c, "clipboard_write")
  | Request.RecordingStart s g c _ => Some (s, g, c, "recording_start")
  | Request.RecordingStop s g c => Some (s, g, c, "recording_stop")
  | Request.RecordingState s g c => Some (s, g, c, "recording_state")
  | Request.LiveObservationStart s g c _ => Some (s, g, c, "live_observation_start")
  | Request.LiveObservationState s g c => Some (s, g, c, "live_observation_state")
  | Request.LiveObservationStop s g c => Some (s, g, c, "live_observation_stop")
  | Request.GetWindowState s g c => Some (s, g, c, "get_window_state")
  | Request.ChangeWindowState s g c _ _ => Some (s, g, c, "change_window_state")
  | Request.MinimizeWindow s g c _ => Some (s, g, c, "minimize_window")
  | Request.SetWindowFrame s g c _ _ => Some (s, g, c, "set_window_frame")
  | Request.InvokeMenu s g c _ => Some (s, g, c, "invoke_menu")
  | Request.Snapshot s g c _ _ _ _ _ => Some (s, g, c, "snapshot")
  | Request.Zoom s g c _ => Some (s, g, c, "zoom")
  | Request.AccessibilitySnapshot s g c _ _ => Some (s, g, c, "accessibility_snapshot")
  | Request.VerifyState s g c _ _ _ _ => Some (s, g, c, "verify_state")
  | Request.CallTool s g c _ _ => Some (s, g, c, "call_tool")
  | Request.BrowserSnapshot s g c _ => Some (s, g, c, "browser_snapshot")
  | Request.BrowserPrepare s g c _ => Some (s, g, c, "browser_prepare")
  | Request.BrowserNavigate s g c _ => Some (s, g, c, "browser_navigate")
  | Request.BrowserClick s g c _ => Some (s, g, c, "browser_click")
  | Request.BrowserType s g c _ => Some (s, g, c, "browser_type")
  | Request.BrowserPointer s g c _ => Some (s, g, c, "browser_pointer")
  | Request.BrowserSetInputFiles s g c _ => Some (s, g, c, "browser_set_input_files")
  | Request.BrowserDownload s g c _ => Some (s, g, c, "browser_download")
  | Request.BrowserDialog s g c _ => Some (s, g, c, "browser_dialog")
  | Request.Find s g c _ => Some (s, g, c, "find")
  | Request.WaitFor s g c _ => Some (s, g, c, "wait_for")
  | Request.ExecuteAction s g c _ _ _ _ _ _ _ _ => Some (s, g, c, "execute_action")
  | Request.ResumeSession s g c => Some (s, g, c, "resume_session")
  | Request.GetSessionState s g c => Some (s, g, c, "get_session_state")
  | Request.GetInputState s g c => Some (s, g, c, "get_input_state")
  | Request.SessionHealth s g c _ => Some (s, g, c, "session_health")
  | Request.PollSessionEvents s g c _ _ => Some (s, g, c, "poll_session_events")
  | Request.CursorTool s g c _ _ => Some (s, g, c, "cursor_tool")
  | Request.EscalateSession s g c _ _ => Some (s, g, c, "escalate_session")
  | Request.Hello _ | Request.Ping | Request.Doctor
  | Request.BrowserExtensionTransportBinding | Request.RegisterBrowserExtension _ _ _ _
  | Request.BrowserExtensionNext _ _ _ | Request.CompleteBrowserExtension _ _ _
  | Request.UnregisterBrowserExtension _ _ | Request.BrowserExtensionStatus _ _ _
  | Request.BrowserExtensionCall _ _ _ _ _ _ _ _ | Request.InterruptAll
  | Request.ListApps | Request.ListTools | Request.ListWindows _ _ _ _ _
  | Request.WaitForWindow _ | Request.DesktopSnapshot | Request.ScreenSize
  | Request.CursorPosition | Request.OpenDesktopSession _ _
  | Request.DesktopSessionSnapshot _ _ _ | Request.ExecuteDesktopAction _ _ _ _ _ _ _
  | Request.StopDesktopSession _ | Request.LaunchApp _ _ _ | Request.OpenSession _ _ _ _ _
  | Request.CallGlobalTool _ _ _ | Request.StopSession _ | Request.Cancel _ _ _
  | Request.CancelWindowWait _ => None
  end.

(** [HostEvidencePublication] ([session_state.rs]). *)
Module HostEvidencePublication.
Inductive HostEvidencePublication : Type :=
| None_ | BrowserSnapshot | BrowserSnapshotAttempt.
End HostEvidencePublication.

Module Publication := HostEvidencePublication.

#[export] Instance Publication_eq_dec : EqDecision Publication.HostEvidencePublication.
Proof. solve_decision. Defined.

Module WindowEvidenceEpochRoute.
Record WindowEvidenceEpochRoute : Type := {
  session_id : string;
  publication : Publication.HostEvidencePublication;
}.
End WindowEvidenceEpochRoute.

Module EvidenceRoute := WindowEvidenceEpochRoute.

(** [window_evidence_epoch_route]
    ([crates/dcc-cua-host/src/request_handler/evidence_epoch.rs]). *)
Definition window_evidence_epoch_route (request : Request.Request)
    : option EvidenceRoute.WindowEvidenceEpochRoute :=
  let standard session_id :=
    Some {| EvidenceRoute.session_id := session_id;
            EvidenceRoute.publication := Publication.None_ |} in
  match request with
  | Request.CapturePreparationBegin params => standard (PrepBegin.session_id params)
  | Request.CapturePreparationState params | Request.CapturePreparationStop params
  | Request.CapturePreparationSnapshot params =>
      standard (PrepBindings.session_id params)
  | Request.BrowserSnapshot session_id _ _ _ =>
      Some {| EvidenceRoute.session_id := session_id;
              EvidenceRoute.publication := Publication.BrowserSnapshotAttempt |}
  | Request.TerminateApp session_id _ _ | Request.ClipboardRead session_id _ _ _
  | Request.ClipboardCaptureSecret session_id _ _ _ _
  | Request.ClipboardWrite session_id _ _ _ | Request.RecordingStart session_id _ _ _
  | Request.RecordingStop session_id _ _ | Request.RecordingState session_id _ _
  | Request.LiveObservationStart session_id _ _ _
  | Request.LiveObservationState session_id _ _
  | Request.LiveObservationStop session_id _ _ | Request.GetWindowState session_id _ _
  | Request.ChangeWindowState session_id _ _ _ _
  | Request.MinimizeWindow session_id _ _ _ | Request.SetWindowFrame session_id _ _ _ _
  | Request.InvokeMenu session_id _ _ _ | Request.Snapshot session_id _ _ _ _ _ _ _
  | Request.Zoom session_id _ _ _ | Request.AccessibilitySnapshot session_id _ _ _ _
  | Request.VerifyState session_id _ _ _ _ _ _ | Request.CallTool session_id _ _ _ _
  | Request.BrowserPrepare session_id _ _ _ | Request.BrowserNavigate session_id _ _ _
  | Request.BrowserClick session_id _ _ _ | Request.BrowserType session_id _ _ _
  | Request.BrowserPointer session_id _ _ _
  | Request.BrowserSetInputFiles session_id _ _ _
  | Request.BrowserDownload session_id _ _ _ | Request.BrowserDialog session_id _ _ _
  | Request.BrowserExtensionStatus session_id _ _
  | Request.BrowserExtensionCall session_id _ _ _ _ _ _ _
  | Request.Find session_id _ _ _ | Request.WaitFor session_id _ _ _
  | Request.ExecuteAction session_id _ _ _ _ _ _ _ _ _ _
  | Request.ResumeSession session_id _ _ | Request.GetSessionState session_id _ _
  | Request.GetInputState session_id _ _ | Request.SessionHealth session_id _ _ _
  | Request.PollSessionEvents session_id _ _ _ _ | Request.CursorTool session_id _ _ _ _
  | Request.EscalateSession session_id _ _ _ _ => standard session_id
  | Request.Hello _ | Request.Ping | Request.Doctor
  | Request.BrowserExtensionTransportBinding | Request.RegisterBrowserExtension _ _ _ _
  | Request.BrowserExtensionNext _ _ _ | Request.CompleteBrowserExtension _ _ _
  | Request.UnregisterBrowserExtension _ _ | Request.InterruptAll
  | Request.ListApps | Request.ListTools | Request.ListWindows _ _ _ _ _
  | Request.WaitForWindow _ | Request.DesktopSnapshot | Request.ScreenSize
  | Request.CursorPosition | Request.OpenDesktopSession _ _
  | Request.DesktopSessionSnapshot _ _ _ | Request.ExecuteDesktopAction _ _ _ _ _ _ _
  | Request.StopDesktopSession _ | Request.LaunchApp _ _ _ | Request.OpenSession _ _ _ _ _
  | Request.CallGlobalTool _ _ _ | Request.StopSession _ | Request.Cancel _ _ _
  | Request.CancelWindowWait _ => None
  end.

(** ** Request parameters ([crates/dcc-cua-host/src/request_contract.rs]) *)

Definition MAX_POST_SNAPSHOT_DELAY_MS : Z := 5000.
Definition MAX_SESSION_EVENT_POLL_TIMEOUT_MS : Z := 30000.

Definition request_invalid_action {A} (message : string) : hresult A :=
  Err (HostError.ComputerUse
    (ComputerUseError.new ComputerUseErrorCode.InvalidAction message)).

(** A [Duration] as milliseconds. *)
Definition post_snapshot_delay (capture_after : bool) (delay_ms : Z) : hresult Z :=
  if MAX_POST_SNAPSHOT_DELAY_MS <? delay_ms
  then request_invalid_action
    ("post_snapshot_delay_ms must be at most " +:+ show MAX_POST_SNAPSHOT_DELAY_MS)
  else if negb capture_after && negb (delay_ms =? 0)
  then request_invalid_action "post_snapshot_delay_ms requires capture_after"
  else Ok delay_ms.

Definition validate_post_snapshot_mode (capture_after : bool) (mode : PostSnapshotMode)
    : hresult unit :=
  if negb capture_after && (mode != Full)
  then request_invalid_action "post_snapshot_mode requires capture_after"
  else Ok tt.

Definition poll_session_events_timeout (timeout_ms : Z) : hresult Z :=
  if MAX_SESSION_EVENT_POLL_TIMEOUT_MS <? timeout_ms
  then Err (HostError.Protocol
    ("timeout_ms must be at most " +:+ show MAX_SESSION_EVENT_POLL_TIMEOUT_MS))
  else Ok timeout_ms.

(** The error and the message of the response; [None] is [unreachable!]. *)
Definition action_confirmation_refusal (outcome : ActionConfirmationOutcome)
    : option (string * string) :=
  match outcome with
  | Denied => Some ("confirmation_denied",
      "the trusted action-time confirmation was denied")
  | Cancelled => Some ("confirmation_cancelled",
      "the trusted action-time confirmation was cancelled")
  | Required => Some ("approval_required",
      "trusted action-time confirmation is required")
  | TaskAuthorizationRequired => Some ("task_authorization_required",
      "trusted task authorization could not be validated")
  | TaskAuthorizationOutOfScope => Some ("task_authorization_out_of_scope",
      "the action or exact target is outside the trusted task authorization")
  | TaskAuthorizationExpired => Some ("task_authorization_expired",
      "the trusted task authorization has expired")
  | TaskAuthorizationRevoked => Some ("task_authorization_revoked",
      "the trusted task authorization has been revoked")
  | Allowed => None
  end.

(** ** Every request that can be authorized is gated *)

(** The two requests the browser extension bridge gates itself
    ([browser_extension.rs]), under the session they name. *)
Definition bridge_gated (self : Request.Request) : option (string * string * string) :=
  match self with
  | Request.BrowserExtensionStatus s g c => Some (s, g, c)
  | Request.BrowserExtensionCall s g c _ _ _ _ _ => Some (s, g, c)
  | _ => None
  end.

(** A request carries a method that a task authorization can name exactly when
    it is gated by the session whose credentials it carries (or by the extension
    bridge).  The gate checks the method under its own name, and the evidence of that
    same session, and of no other, is synchronised around the request. *)
Theorem authorizable_requests_are_gated (r : Request.Request) :
  (is_task_authorizable_host_method (Request.method r) = true <->
   is_Some (window_method_scope r) \/ is_Some (bridge_gated r))
  /\ (is_Some (window_evidence_epoch_route r) <->
      is_Some (window_method_scope r) \/ is_Some (bridge_gated r))
  /\ (forall s g c m, window_method_scope r = Some (s, g, c, m) ->
      m = Request.method r
      /\ exists route, window_evidence_epoch_route r = Some route
                       /\ EvidenceRoute.session_id route = s)
  /\ (forall s g c, bridge_gated r = Some (s, g, c) ->
      exists route, window_evidence_epoch_route r = Some route
                    /\ EvidenceRoute.session_id route = s).
Proof.
  destruct r; (split; [|split; [|split]]);
    try (intros * [= <- <- <- <-]); try (intros * [= <- <- <-]);
    try solve [vm_compute; naive_solver | by eauto | intros; discriminate].
Qed.

Lemma authorizable_requests_are_gated_witness :
  is_task_authorizable_host_method "get_session_state" = true
  /\ exists route,
       window_evidence_epoch_route (Request.GetSessionState "s" "g" "c") = Some route
       /\ EvidenceRoute.session_id route = "s".
Proof.
  destruct (authorizable_requests_are_gated (Request.GetSessionState "s" "g" "c"))
    as (H1 & _ & H3 & _).
  split.
  - apply H1. left. eexists. reflexivity.
  - destruct (H3 "s" "g" "c" "get_session_state" eq_refl) as [_ H]. exact H.
Defined.
