(* ===== verification/SecretVault.v ===== *)
(** * Secrets and the Host's small helpers
    ([crates/dcc-cua-host/src/secret_vault.rs],
     [crates/dcc-cua-host/src/request_handler/session_helpers.rs])

    The boundary of the secret vault, as far as it does not touch a session: what a
    secret value is, how one is taken out of a clipboard result, and which requests a
    provider transport accepts.  The vault itself is the embedding's. *)

From S2P Require Import Prelude RustStr Json Protocol Errors HostAction Confirmation.
From S2P Require Import TaskGrant Request.

Definition MAX_SECRET_VALUE_CHARS : Z := 4096.

Inductive HostSecretVaultError : Type :=
| InvalidHandle | InvalidValue | VaultNotFound | VaultUnavailable.

Definition secret_vault_error (error : HostSecretVaultError) : HostError.HostError :=
  match error with
  | VaultNotFound => HostError.coded_protocol HostProtocolErrorCode.SecretNotFound
      "the requested secret handle was not found"
  | InvalidHandle | InvalidValue =>
      HostError.coded_protocol HostProtocolErrorCode.SecretCaptureFailed
        "the secret input did not satisfy the bounded vault contract"
  | VaultUnavailable => HostError.coded_protocol HostProtocolErrorCode.SecretVaultUnavailable
      "the constructor-owned secret vault is unavailable"
  end.

(** The vault's name for the protocol's check. *)
Definition validate_vault_handle (handle : string) : result HostSecretVaultError unit :=
  rmap_err (fun _ => InvalidHandle) (validate_secret_handle handle).

(** [SecretValue::new]; the value is its text. *)
Definition new_secret_value (text : string) : result HostSecretVaultError string :=
  if str_is_empty text || (MAX_SECRET_VALUE_CHARS <? chars_count text)
  then Err InvalidValue else Ok text.

Definition extract_clipboard_secret (v : value) : result HostSecretVaultError string :=
  let? structured := ok_or (get v "structuredContent" ≫= as_object) InvalidValue in
  if (field structured "supported" ≫= as_bool != Some true)
     || (field structured "privacy_sensitive" ≫= as_bool != Some true)
     || (field structured "content_redacted_from_telemetry" ≫= as_bool != Some true)
  then Err InvalidValue
  else
    let? text := ok_or (field structured "text" ≫= as_str) InvalidValue in
    new_secret_value text.

(** The part of [HostSecurityServices] a request is checked against first. *)
Definition require_provider_transport_request (extension_transport_only : bool)
    (request : Request.Request) : hresult unit :=
  if extension_transport_only
     && match request with
        | Request.Hello _ | Request.Ping | Request.BrowserExtensionTransportBinding
        | Request.RegisterBrowserExtension _ _ _ _ | Request.BrowserExtensionNext _ _ _
        | Request.CompleteBrowserExtension _ _ _
        | Request.UnregisterBrowserExtension _ _ => false
        | _ => true
        end
  then Err (HostError.Protocol
    "provider transport does not accept session, UI, or authorization requests")
  else Ok tt.

(** ** Helpers of the handlers *)

(** [dcc-cua-interrupt]. *)
Definition interrupt_generation_changed (started current : Z) : bool :=
  negb (started =? current).

Definition denied (code : HostProtocolErrorCode.t) (capability : string)
    : HostError.HostError :=
  HostError.coded_protocol code (capability +:+ " is not granted").

Definition ensure_connection_session_capacity (active_session_count : Z) : hresult unit :=
  if active_session_count <? MAX_SESSIONS_PER_CONNECTION then Ok tt
  else Err (HostError.coded_protocol HostProtocolErrorCode.SessionLimitReached
    ("connection session limit reached (maximum " +:+ show MAX_SESSIONS_PER_CONNECTION
     +:+ ")")).

Definition new_runtime_session_id (scope uuid : string) : string :=
  "dcc-cua-" +:+ scope +:+ "-" +:+ uuid.

(** [interrupt_poll_slice], in milliseconds. *)
Definition interrupt_poll_slice (remaining : Z) : Z := Z.min remaining 50.

(** ** What a captured secret is *)

(** A secret comes only from a clipboard answer that the driver marked as supported,
    private and kept out of telemetry, and it is bounded. *)
Lemma extract_clipboard_secret_ok v text :
  extract_clipboard_secret v = Ok text ->
  as_str v.["structuredContent"].["text"] = Some text
  /\ text <> "" /\ chars_count text <= MAX_SECRET_VALUE_CHARS
  /\ Forall (fun key => as_bool v.["structuredContent"].[key] = Some true)
       ["supported"; "privacy_sensitive"; "content_redacted_from_telemetry"].
Proof.
  unfold extract_clipboard_secret, index.
  destruct (get v "structuredContent") as [s|]; [|done].
  destruct s as [| | | | |fields]; try done. simpl.
  case_match eqn:Hb; [done|]. reflect_in Hb. destruct Hb as [[H1 H2] H3].
  destruct (field fields "text") as [t|]; [|done]. simpl.
  destruct t as [| | |t| |]; try done. simpl. unfold new_secret_value.
  case_match eqn:Ht; [done|]. reflect_in Ht. intros H. injection H as <-.
  unfold str_is_empty in Ht. destruct Ht as [Ht1 Ht2].
  split; [done|]. split; [by intros ->|]. split; [lia|].
  assert (forall o, o ≫= as_bool = Some true -> as_bool (unwrap_or o Null) = Some true) as Hb
    by by intros [].
  by repeat apply List.Forall_cons; try apply List.Forall_nil; apply Hb.
Qed.
