(* ===== verification/RuntimeSession.v ===== *)
(** * The window session of the core runtime
    ([crates/dcc-cua-core/src/runtime/session.rs])

    The lifecycle of a window session and of the evidence an action may rely on:
    the observation, the element tokens, the native metadata and the epoch that
    dates them.  The configuration modelled is the Windows one.  What the desktop
    driver and the window system answer is an argument of the operation that asks. *)

From S2P Require Import Prelude Records Effects RustStr Json Errors TargetPolicy.
From S2P Require Import SessionHealth InputState.

Abbreviation Epoch := ActionEvidenceEpoch.ActionEvidenceEpoch.

(** ** Data *)

Module WindowTarget.
Record WindowTarget : Type := {
  pid : Z;
  window_id : Z;
  title : string;
  app_name : string;
  bounds : list Z;
  is_on_screen : bool;
  is_minimized : bool;
  z_index : option Z;
  is_foreground : bool;
}.
End WindowTarget.

Module ComputerUseObservation.
Record ComputerUseObservation : Type := {
  observation_id : string;
  window_handle : Z;
  process_id : Z;
  window_title : string;
  width : Z;
  height : Z;
  source_rect : list Z;
  capture_backend : string;
  capture_provenance : value;
  session_id : string;
}.
End ComputerUseObservation.

(** [LiveObservationFence]: a frame of a capture stream. *)
Module LiveObservationFence.
Record LiveObservationFence : Type := { stream_id : Z; sequence : Z }.

Definition sequence_for (self : LiveObservationFence) (stream : Z) : option Z :=
  if stream_id self =? stream then Some (sequence self) else None.
End LiveObservationFence.

Module Target := WindowTarget.
Module Observation := ComputerUseObservation.
Module Fence := LiveObservationFence.

(** The capture stream, as far as its latest frame. *)
Module LiveObservation.
Record LiveObservation : Type := { stream_id : Z; latest : option Z }.

Definition latest_fence (self : LiveObservation) : option Fence.LiveObservationFence :=
  match latest self with
  | Some sequence =>
      Some {| Fence.stream_id := stream_id self; Fence.sequence := sequence |}
  | None => None
  end.
End LiveObservation.

Module Live := LiveObservation.

(** [BannerFailureKind] ([crates/dcc-cua-indicator/src/lib.rs]) and what the session
    reads of the control banner. *)
Module BannerFailureKind.
Inductive t : Type := TargetLost | Backend | Rendering.
End BannerFailureKind.

Module ControlBanner.
Record ControlBanner : Type := {
  interrupted : bool;
  failure : option (BannerFailureKind.t * string);
}.
End ControlBanner.

Module Banner := ControlBanner.

Module UpstreamSessionState.
Inductive UpstreamSessionState : Type :=
| Inactive
| Active
| VisualOnly (reason : string).
End UpstreamSessionState.

Module Upstream := UpstreamSessionState.

#[export] Instance Upstream_eq_dec : EqDecision Upstream.UpstreamSessionState.
Proof. solve_decision. Defined.

Module PixelObservationRoute.
Inductive t : Type :=
| ExplicitPixelsOnly
| AccessibilityUnavailableDegraded
| AccessibilityTimeoutDegraded.
End PixelObservationRoute.

(** ** Native state tokens ([window_commands.rs]) *)

(** [ExactWindowPixelInstanceEvidence] and [ExactWindowNativeState]
    ([crates/dcc-cua-platform-windows/src]). *)
Module ExactWindowPixelInstanceEvidence.
Record ExactWindowPixelInstanceEvidence : Type := {
  process_creation_time_100ns : Z;
  window_thread_id : Z;
  window_class_hash : Z;
  owner_window_handle : Z;
}.
End ExactWindowPixelInstanceEvidence.

Module NativeInstance := ExactWindowPixelInstanceEvidence.

Module ExactWindowNativeState.
Record ExactWindowNativeState : Type := {
  process_id : Z;
  window_handle : Z;
  bounds : option (Z * Z * Z * Z);
  visible_bounds : option (Z * Z * Z * Z);
  dpi : Z;
  visible : bool;
  minimized : bool;
  maximized : bool;
  foreground : bool;
  instance : NativeInstance.ExactWindowPixelInstanceEvidence;
}.
End ExactWindowNativeState.

Module NativeState := ExactWindowNativeState.

(** [read_at] is an instant in milliseconds. *)
Module NativeWindowFrameMetadata.
Record NativeWindowFrameMetadata : Type := {
  id : string;
  session_id : string;
  read_at : Z;
  state : NativeState.ExactWindowNativeState;
}.
End NativeWindowFrameMetadata.

Module FrameMetadata := NativeWindowFrameMetadata.

Module NativeMenuMetadata.
Record NativeMenuMetadata : Type := {
  id : string;
  session_id : string;
  read_at : Z;
  popup : NativeState.ExactWindowNativeState;
  owner : NativeState.ExactWindowNativeState;
}.
End NativeMenuMetadata.

Module MenuMetadata := NativeMenuMetadata.

Definition I32_MIN : Z := - 2 ^ 31.
Definition I32_MAX : Z := 2 ^ 31 - 1.
(** [i32::checked_add(..).is_none()]. *)
Definition i32_add_overflows (a b : Z) : bool :=
  (a + b <? I32_MIN) || (I32_MAX <? a + b).

Definition stale_observation {A} (message : string) : cresult A :=
  Err (ComputerUseError.new ComputerUseErrorCode.StaleObservation message).

(** [validate_exact_window_frame] accepts the rectangle. *)
Definition exact_window_frame_valid (frame : Z * Z * Z * Z) : bool :=
  let '(x, y, width, height) := frame in
  negb ((width <=? 0) || (height <=? 0)
        || i32_add_overflows x width || i32_add_overflows y height).

Definition validate_frame_metadata (self : FrameMetadata.NativeWindowFrameMetadata)
    (id : string) (scope : TargetScope.ComputerUseTargetScope) (session : string)
    (age : Z) : cresult unit :=
  let state := FrameMetadata.state self in
  if (id == "")
     || (FrameMetadata.id self != id)
     || (FrameMetadata.session_id self != session)
     || (5000 <? age)
     || (TargetScope.process_id scope != Some (NativeState.process_id state))
     || (TargetScope.window_handle scope != Some (NativeState.window_handle state))
     || (NativeInstance.process_creation_time_100ns (NativeState.instance state) =? 0)
     || (NativeInstance.window_thread_id (NativeState.instance state) =? 0)
     || (NativeState.process_id state =? 0)
     || (NativeState.window_handle state =? 0)
     || (NativeState.dpi state =? 0)
     || is_none (NativeState.bounds state)
     || is_none (NativeState.visible_bounds state)
     || negb (NativeState.visible state)
     || NativeState.minimized state
  then stale_observation
    "set_window_frame requires the latest exact native window_state_id, at most five seconds old"
  else if NativeState.maximized state
  then Err (ComputerUseError.new ComputerUseErrorCode.InvalidTarget
    "set_window_frame requires a restored target; issue explicit restore_activate, then read fresh native window state")
  else try_each (fun frame =>
    if is_none_or (fun frame => negb (exact_window_frame_valid frame)) frame
    then stale_observation
      "native frame metadata requires actual valid Win32 and DWM physical bounds"
    else Ok tt) [NativeState.bounds state; NativeState.visible_bounds state].

Definition validate_menu_metadata (self : MenuMetadata.NativeMenuMetadata)
    (id : string) (scope : TargetScope.ComputerUseTargetScope) (session : string)
    (age : Z) : cresult unit :=
  let popup := MenuMetadata.popup self in
  let owner := MenuMetadata.owner self in
  let popup_instance := NativeState.instance popup in
  let owner_instance := NativeState.instance owner in
  if (MenuMetadata.id self != id)
     || negb (starts_with "native-menu-state-" id)
     || (MenuMetadata.session_id self != session)
     || (5000 <? age)
     || (TargetScope.process_id scope != Some (NativeState.process_id popup))
     || (TargetScope.window_handle scope != Some (NativeState.window_handle popup))
     || (NativeState.process_id popup =? 0)
     || (NativeState.window_handle popup =? 0)
     || negb (NativeState.visible popup)
     || NativeState.minimized popup
     || (NativeInstance.process_creation_time_100ns popup_instance =? 0)
     || (NativeInstance.window_thread_id popup_instance =? 0)
     || (NativeInstance.window_class_hash popup_instance =? 0)
     || (NativeState.window_handle owner =? 0)
     || (NativeState.window_handle owner =? NativeState.window_handle popup)
     || negb (NativeState.process_id owner =? NativeState.process_id popup)
     || negb (NativeInstance.process_creation_time_100ns owner_instance
              =? NativeInstance.process_creation_time_100ns popup_instance)
     || negb (NativeInstance.window_thread_id owner_instance
              =? NativeInstance.window_thread_id popup_instance)
     || (NativeInstance.window_class_hash owner_instance =? 0)
  then stale_observation
    "dismiss_menu requires its latest purpose-bound native menu state token, at most five seconds old"
  else Ok tt.

(** ** The session *)

Module ComputerUseSession.
Record ComputerUseSession : Type := {
  session_id : string;
  scope : TargetScope.ComputerUseTargetScope;
  marker_visible : bool;
  control_banner : option Banner.ControlBanner;
  target : option Target.WindowTarget;
  observation : option Observation.ComputerUseObservation;
  sdk_element_tokens : option value;
  native_frame_metadata : option FrameMetadata.NativeWindowFrameMetadata;
  native_menu_metadata : option MenuMetadata.NativeMenuMetadata;
  capture_popup_metadata : option value;
  action_evidence_epoch : Epoch;
  live_observation : option Live.LiveObservation;
  post_action_live_sequence_fence : option Fence.LiveObservationFence;
  observation_transition_live_sequence_fence : option Fence.LiveObservationFence;
  recording_active : bool;
  windows_uia : option value;
  upstream_session_state : Upstream.UpstreamSessionState;
  last_upstream_session_refresh : option Z;
  active : bool;
  pixel_observation_route : option PixelObservationRoute.t;
}.

#[global] Instance ComputerUseSession_settable : Settable ComputerUseSession := fun s => {|
  session_id := session_id s;
  scope := scope s;
  marker_visible := marker_visible s;
  control_banner := control_banner s;
  target := target s;
  observation := observation s;
  sdk_element_tokens := sdk_element_tokens s;
  native_frame_metadata := native_frame_metadata s;
  native_menu_metadata := native_menu_metadata s;
  capture_popup_metadata := capture_popup_metadata s;
  action_evidence_epoch := action_evidence_epoch s;
  live_observation := live_observation s;
  post_action_live_sequence_fence := post_action_live_sequence_fence s;
  observation_transition_live_sequence_fence := observation_transition_live_sequence_fence s;
  recording_active := recording_active s;
  windows_uia := windows_uia s;
  upstream_session_state := upstream_session_state s;
  last_upstream_session_refresh := last_upstream_session_refresh s;
  active := active s;
  pixel_observation_route := pixel_observation_route s;
|}.
End ComputerUseSession.

Module CS := ComputerUseSession.

Definition latest_live_fence (self : CS.ComputerUseSession)
    : option Fence.LiveObservationFence :=
  CS.live_observation self ≫= Live.latest_fence.

(** The epoch counter panics when it is exhausted. *)
Definition invalidate_action_observations (self : CS.ComputerUseSession)
    : option CS.ComputerUseSession :=
  match ActionEvidenceEpoch.advanced (CS.action_evidence_epoch self) with
  | None => None
  | Some epoch =>
      Some (self
        <| CS.native_frame_metadata := None |>
        <| CS.native_menu_metadata := None |>
        <| CS.capture_popup_metadata := None |>
        <| CS.sdk_element_tokens := None |>
        <| CS.action_evidence_epoch := epoch |>
        <| CS.observation_transition_live_sequence_fence :=
             match latest_live_fence self with
             | Some fence => Some fence
             | None => CS.observation_transition_live_sequence_fence self
             end |>
        <| CS.observation := None |>
        <| CS.post_action_live_sequence_fence := None |>
        <| CS.windows_uia := None |>)
  end.

Definition retain_fresh_native_frame_metadata
    (metadata : option FrameMetadata.NativeWindowFrameMetadata) (state_id : string)
    (scope : TargetScope.ComputerUseTargetScope) (session_id : string) (now : Z)
    : option FrameMetadata.NativeWindowFrameMetadata :=
  match metadata with
  | Some metadata =>
      if is_ok (validate_frame_metadata metadata state_id scope session_id
                  (now - FrameMetadata.read_at metadata))
      then Some metadata else None
  | None => None
  end.

Definition invalidate_action_observations_preserving_native_state (now : Z)
    (state_id : string) (self : CS.ComputerUseSession) : option CS.ComputerUseSession :=
  let metadata := retain_fresh_native_frame_metadata (CS.native_frame_metadata self)
    state_id (CS.scope self) (CS.session_id self) now in
  match invalidate_action_observations self with
  | Some self => Some (self <| CS.native_frame_metadata := metadata |>)
  | None => None
  end.

Definition invalidate_action_observations_preserving_native_menu_state (now : Z)
    (menu_id : string) (frame_id : option string) (self : CS.ComputerUseSession)
    : option CS.ComputerUseSession :=
  let menu := match CS.native_menu_metadata self with
    | Some metadata =>
        if is_ok (validate_menu_metadata metadata menu_id (CS.scope self)
                    (CS.session_id self) (now - MenuMetadata.read_at metadata))
        then Some metadata else None
    | None => None
    end in
  let self := self <| CS.native_menu_metadata := None |> in
  let invalidated := match frame_id with
    | Some frame_id =>
        invalidate_action_observations_preserving_native_state now frame_id self
    | None => invalidate_action_observations self
    end in
  match invalidated with
  | Some self => Some (self <| CS.native_menu_metadata := menu |>)
  | None => None
  end.

(** [stop_live_observation], without the report of its clean-up. *)
Definition stop_live_observation (self : CS.ComputerUseSession) : CS.ComputerUseSession :=
  self
    <| CS.post_action_live_sequence_fence := None |>
    <| CS.observation_transition_live_sequence_fence := None |>
    <| CS.live_observation := None |>.

Definition invalidate_local_session (self : CS.ComputerUseSession)
    : option CS.ComputerUseSession :=
  let self := self
    <| CS.active := false |>
    <| CS.upstream_session_state := Upstream.Inactive |>
    <| CS.pixel_observation_route := None |>
    <| CS.last_upstream_session_refresh := None |>
    <| CS.marker_visible := false |>
    <| CS.target := None |> in
  match invalidate_action_observations self with
  | None => None
  | Some self =>
      Some (stop_live_observation (self
        <| CS.post_action_live_sequence_fence := None |>
        <| CS.observation_transition_live_sequence_fence := None |>
        <| CS.recording_active := false |>
        <| CS.control_banner := None |>))
  end.

Abbreviation session_op A := (eff CS.ComputerUseSession cerror A).

(** [stop]: the driver's answer to [end_session], asked of an active session whose
    upstream session is alive.  The recorder and the capture stream are drained
    first; [invalidate_local_session] leaves nothing of their effect on the fields
    modelled here. *)
Definition stop (end_session : cresult unit) : session_op unit :=
  do? self := read id in
  if negb (CS.active self)
  then update invalidate_local_session
  else
    let result :=
      if is_some (CS.target self) && (CS.upstream_session_state self == Upstream.Active)
      then end_session else Ok tt in
    run? update invalidate_local_session in
    lift result.

Definition control_banner_interrupted (self : CS.ComputerUseSession) : bool :=
  is_some_and Banner.interrupted (CS.control_banner self).

Definition control_banner_failure (self : CS.ComputerUseSession) : option cerror :=
  match CS.control_banner self ≫= Banner.failure with
  | Some (BannerFailureKind.TargetLost, message) =>
      Some (ComputerUseError.new ComputerUseErrorCode.InvalidTarget message)
  | Some (BannerFailureKind.Backend, message) =>
      Some (ComputerUseError.new ComputerUseErrorCode.BackendUnavailable message)
  | Some (BannerFailureKind.Rendering, _) | None => None
  end.

(** The native authorization's own check is its result. *)
Definition ensure_active (authorization : cresult unit) (self : CS.ComputerUseSession)
    : cresult unit :=
  check? authorization in
  if CS.active self then Ok tt
  else Err (ComputerUseError.new ComputerUseErrorCode.BackendUnavailable
    "Computer Use session is not active").

(** ** Errors of the desktop driver ([crates/dcc-cua-core/src/policy.rs]) *)

(** [cua_driver_sdk::DriverError], with the fields the core reads; its message is
    what the driver crate's [Display] makes of it. *)
Module DriverError.
Inductive ActionCompletion : Type := Unknown | NotStarted | Completed.

Inductive DriverError : Type :=
| Configuration (to_string : string)
| InvalidArguments (to_string : string)
| Tool (tool error_code : string) (to_string : string)
| ActionInterrupted (completion : ActionCompletion) (reason : string) (to_string : string)
| Transport (to_string : string)
| Protocol (to_string : string)
| Shutdown (to_string : string)
| RuntimeAlreadyExists (to_string : string)
| Worker (to_string : string)
| Remote (to_string : string).

Definition to_string (self : DriverError) : string :=
  match self with
  | Configuration s | InvalidArguments s | Tool _ _ s | ActionInterrupted _ _ s
  | Transport s | Protocol s | Shutdown s | RuntimeAlreadyExists s | Worker s
  | Remote s => s
  end.
End DriverError.

(** [cua_driver_sdk::ToolResult], with the fields read here. *)
Module ToolResult.
Record ToolImage : Type := { data_base64 : string; image_mime_type : string }.

Record ToolResult : Type := {
  is_error : bool;
  error_code : option string;
  text : string;
  raw_json : string;
  structured_json : option string;
  images : list ToolImage;
  degraded : bool;
}.
End ToolResult.

(** The codes a driver failure can name; [fallback] for the others. *)
Definition classify_driver_failure (code : string) (fallback : ComputerUseErrorCode.t)
    : ComputerUseErrorCode.t :=
  let code := to_ascii_lowercase (trim code) in
  if code ∈? ["user_interrupted"; "interrupted"; "cancelled"]
  then ComputerUseErrorCode.UserInterrupted
  else if code ∈? ["interactive_desktop_unavailable";
                   "interactive_input_surface_unavailable";
                   "input_gate_stage=foreground_dispatch";
                   "activation_gate_stage=foreground_dispatch"]
  then ComputerUseErrorCode.InteractiveDesktopUnavailable
  else if code == "target_minimized" then ComputerUseErrorCode.TargetMinimized
  else if code ∈? ["target_unavailable"; "missing_window"]
  then ComputerUseErrorCode.TargetUnavailable
  else if code == "invalid_target" then ComputerUseErrorCode.InvalidTarget
  else if code ∈? ["browser_refused"; "browser_scope_unavailable";
                   "browser_wrong_target_refused"; "browser_requires_setup"]
  then ComputerUseErrorCode.BrowserRefused
  else if code ∈? ["clipboard_refused"; "clipboard_read_refused"; "clipboard_write_refused"]
  then ComputerUseErrorCode.ClipboardRefused
  else if code ∈? ["recording_refused"; "recording_not_granted"]
  then ComputerUseErrorCode.RecordingRefused
  else if code == "no_accessibility_provider"
  then ComputerUseErrorCode.NoAccessibilityProvider
  else if code ∈? ["backend_unavailable"; "uia_timeout"; "timeout"]
  then ComputerUseErrorCode.BackendUnavailable
  else if code == "capture_failed" then ComputerUseErrorCode.CaptureFailed
  else if code == "stale_observation" then ComputerUseErrorCode.StaleObservation
  else if code == "completion_unknown" then ComputerUseErrorCode.CompletionUnknown
  else if code ∈? ["invalid_action"; "invalid_arguments"]
  then ComputerUseErrorCode.InvalidAction
  else fallback.

Definition driver_error_code (error : DriverError.DriverError) : ComputerUseErrorCode.t :=
  match error with
  | DriverError.Configuration _ | DriverError.InvalidArguments _ =>
      ComputerUseErrorCode.InvalidAction
  | DriverError.Tool _ error_code _ =>
      classify_driver_failure error_code ComputerUseErrorCode.InputFailed
  | DriverError.ActionInterrupted DriverError.Unknown _ _ =>
      ComputerUseErrorCode.CompletionUnknown
  | DriverError.ActionInterrupted _ _ _ => ComputerUseErrorCode.InputFailed
  | DriverError.Transport _ | DriverError.Protocol _ | DriverError.Shutdown _
  | DriverError.RuntimeAlreadyExists _ | DriverError.Worker _ | DriverError.Remote _ =>
      ComputerUseErrorCode.BackendUnavailable
  end.

Definition map_driver_error (context : string) (error : DriverError.DriverError) : cerror :=
  let observation_timed_out := match error with
    | DriverError.Tool tool error_code _ =>
        (tool == "get_window_state") && (error_code == "uia_timeout")
    | _ => false
    end in
  let e := ComputerUseError.new (driver_error_code error)
    (context +:+ ": " +:+ DriverError.to_string error) in
  if observation_timed_out
  then ComputerUseError.with_details e (Details.default <| Details.timed_out := Some true |>)
  else e.

Definition ensure_tool_ok (context : string) (result : ToolResult.ToolResult)
    : cresult unit :=
  if ToolResult.is_error result
  then
    let code := unwrap_or (ToolResult.error_code result) "" in
    let message := if str_is_empty (ToolResult.text result)
      then ToolResult.raw_json result else ToolResult.text result in
    Err (ComputerUseError.new
      (classify_driver_failure code ComputerUseErrorCode.InputFailed)
      (context +:+ ": " +:+ message))
  else Ok tt.

(** ** What an error says of the attempt ([error_contracts.rs], [runtime.rs]) *)

Definition pre_dispatch_failure (error : cerror) : cerror :=
  ComputerUseError.with_details
    (ComputerUseError.new (ComputerUseError.code error) (ComputerUseError.message error))
    (Details.default
      <| Details.phase := Some Phase.PreDispatch |>
      <| Details.action_attempted := Some false |>
      <| Details.input_sent := Some InputSent.NotSent |>
      <| Details.completion := Some Completion.Known |>
      <| Details.local_session_invalidated := Some false |>
      <| Details.session_remains_active := Some true |>
      <| Details.automatic_input := Some false |>
      <| Details.blind_retry := Some false |>
      <| Details.fresh_observation_required := Some false |>).

Definition mutation_pre_dispatch_failure (context : string)
    (error : DriverError.DriverError) : cerror :=
  pre_dispatch_failure (map_driver_error context error).

(** The details of a dispatched action whose completion is known. *)
Definition dispatched_known : Details.ComputerUseErrorDetails :=
  Details.default
    <| Details.phase := Some Phase.ActionDispatch |>
    <| Details.action_attempted := Some true |>
    <| Details.input_sent := Some InputSent.Unknown |>
    <| Details.completion := Some Completion.Known |>
    <| Details.local_session_invalidated := Some false |>
    <| Details.session_remains_active := Some true |>
    <| Details.automatic_input := Some false |>
    <| Details.blind_retry := Some false |>
    <| Details.fresh_observation_required := Some true |>.

Definition mutation_known_failure (context : string) (error : DriverError.DriverError)
    : cerror :=
  let error := map_driver_error context error in
  ComputerUseError.with_details
    (ComputerUseError.new (ComputerUseError.code error) (ComputerUseError.message error))
    dispatched_known.

Definition local_mutation_attempt_failure (error : cerror) : cerror :=
  ComputerUseError.with_details
    (ComputerUseError.new (ComputerUseError.code error) (ComputerUseError.message error))
    (dispatched_known
      <| Details.phase := Some Phase.LocalMutationDispatch |>
      <| Details.effect_unknown := Some true |>).

Definition local_activation_attempt_failure (error : cerror) : cerror :=
  let original_details := unwrap_or (ComputerUseError.details error) Details.default in
  ComputerUseError.with_details
    (ComputerUseError.new (ComputerUseError.code error) (ComputerUseError.message error))
    (original_details
      <| Details.phase := Some Phase.ActivationDispatch |>
      <| Details.focus_mutation_attempted := Some true |>
      <| Details.action_attempted := Some false |>
      <| Details.input_sent := Some InputSent.NotSent |>
      <| Details.completion := Some Completion.Known |>
      <| Details.effect_unknown := Some false |>
      <| Details.local_session_invalidated := Some false |>
      <| Details.session_remains_active := Some true |>
      <| Details.automatic_input := Some false |>
      <| Details.blind_retry := Some false |>
      <| Details.fresh_observation_required := Some true |>).

Definition action_dispatch_completion_unknown (error : cerror) : cerror :=
  let timed_out := ComputerUseError.details error ≫= Details.timed_out in
  ComputerUseError.with_details
    (ComputerUseError.new ComputerUseErrorCode.CompletionUnknown
       (ComputerUseError.message error))
    (Details.default
      <| Details.timed_out := timed_out |>
      <| Details.phase := Some Phase.ActionDispatch |>
      <| Details.action_attempted := Some true |>
      <| Details.input_sent := Some InputSent.Unknown |>
      <| Details.completion := Some Completion.Unknown |>
      <| Details.local_session_invalidated := Some true |>
      <| Details.session_remains_active := Some false |>
      <| Details.automatic_input := Some false |>
      <| Details.blind_retry := Some false |>
      <| Details.fresh_observation_required := Some true |>).

Definition target_pre_dispatch_refusal {A} (code : ComputerUseErrorCode.t)
    (message : string) : cresult A :=
  Err (ComputerUseError.with_details (ComputerUseError.new code message)
    (Details.default
      <| Details.phase := Some Phase.PreDispatch |>
      <| Details.action_attempted := Some false |>
      <| Details.input_sent := Some InputSent.NotSent |>
      <| Details.completion := Some Completion.Known |>
      <| Details.effect_unknown := Some false |>
      <| Details.local_session_invalidated := Some false |>
      <| Details.session_remains_active := Some true |>
      <| Details.automatic_input := Some false |>
      <| Details.blind_retry := Some false |>
      <| Details.fresh_observation_required := Some true |>)).

(** ** Outcomes and the evidence they leave ([session.rs], [observation.rs]) *)

Definition observation_sensitive_codes : list ComputerUseErrorCode.t :=
  [ComputerUseErrorCode.MissingWindow; ComputerUseErrorCode.InvalidTarget;
   ComputerUseErrorCode.TargetMinimized; ComputerUseErrorCode.TargetUnavailable;
   ComputerUseErrorCode.InteractiveDesktopUnavailable].

Definition finish_observation_sensitive_attempt {A} (result : cresult A) : session_op A :=
  match result with
  | Ok value => ret value
  | Err error =>
      let code := ComputerUseError.code error in
      run? (if code == ComputerUseErrorCode.MissingWindow
            then modify (fun self => self <| CS.target := None |>)
            else ret tt) in
      run? (if code ∈? observation_sensitive_codes
            then update invalidate_action_observations
            else ret tt) in
      throw error
  end.

Definition finish_local_mutation_attempt {A} (result : cresult A) : session_op A :=
  match result with
  | Ok value => ret value
  | Err error =>
      run? update invalidate_action_observations in
      throw (local_mutation_attempt_failure error)
  end.

(** What became of a typed call of the driver: an outer error is a call that timed
    out, was interrupted or lost its worker. *)
Definition finish_typed_dispatch_result {A} (context : string)
    (result : cresult (result DriverError.DriverError A)) : session_op A :=
  match result with
  | Ok (Ok value) =>
      run? update invalidate_action_observations in
      ret value
  | Ok (Err (DriverError.ActionInterrupted DriverError.Unknown reason _)) =>
      let error := ComputerUseError.new ComputerUseErrorCode.InputFailed
        (context +:+ ": " +:+ reason) in
      run? update invalidate_local_session in
      throw (action_dispatch_completion_unknown error)
  | Ok (Err (DriverError.ActionInterrupted DriverError.NotStarted reason _)) =>
      throw (pre_dispatch_failure (ComputerUseError.new ComputerUseErrorCode.InputFailed
        (context +:+ ": " +:+ reason)))
  | Ok (Err (DriverError.ActionInterrupted DriverError.Completed reason _)) =>
      run? update invalidate_action_observations in
      throw (ComputerUseError.with_details
        (ComputerUseError.new ComputerUseErrorCode.InputFailed
           (context +:+ ": " +:+ reason)) dispatched_known)
  | Ok (Err ((DriverError.Tool _ _ _) as error)) =>
      run? update invalidate_action_observations in
      throw (mutation_known_failure context error)
  | Ok (Err ((DriverError.Transport _ | DriverError.Protocol _ | DriverError.Worker _
              | DriverError.Remote _) as error)) =>
      let error := map_driver_error context error in
      run? update invalidate_local_session in
      throw (action_dispatch_completion_unknown error)
  | Ok (Err ((DriverError.Configuration _ | DriverError.InvalidArguments _
              | DriverError.Shutdown _ | DriverError.RuntimeAlreadyExists _) as error)) =>
      throw (mutation_pre_dispatch_failure context error)
  | Err error =>
      run? update invalidate_local_session in
      throw (action_dispatch_completion_unknown error)
  end.

Definition finish_observed_tool_attempt (context : string)
    (result : cresult ToolResult.ToolResult) : session_op ToolResult.ToolResult :=
  do? result := finish_observation_sensitive_attempt result in
  run? finish_observation_sensitive_attempt (ensure_tool_ok context result) in
  ret result.

Definition ensure_target_available_for_action (target : Target.WindowTarget)
    : cresult unit :=
  if Target.is_minimized target
  then target_pre_dispatch_refusal ComputerUseErrorCode.TargetMinimized
    "the exact target is minimized; issue the explicit restore_activate window operation, then take a fresh observation before retrying"
  else if negb (Target.is_on_screen target)
  then target_pre_dispatch_refusal ComputerUseErrorCode.TargetUnavailable
    "the exact target is unavailable; wait for a typed target_available event and take a fresh observation before retrying"
  else Ok tt.

Definition ensure_target_available_for_bootstrap_activation
    (target : Target.WindowTarget) : cresult unit :=
  if Target.is_minimized target then Ok tt
  else ensure_target_available_for_action target.

(** The window system's answer to [resolve_target] is an argument. *)
Definition revalidate_target (resolved : cresult Target.WindowTarget)
    (self : CS.ComputerUseSession) : cresult Target.WindowTarget :=
  let? target := resolved in
  match CS.target self with
  | None => Err (ComputerUseError.new ComputerUseErrorCode.MissingWindow
      "session target is missing")
  | Some original =>
      if negb (Target.pid target =? Target.pid original)
         || negb (Target.window_id target =? Target.window_id original)
      then Err (ComputerUseError.new ComputerUseErrorCode.TargetUnavailable
        "the exact target identity changed")
      else Ok target
  end.

Definition revalidate_observed_target (resolved : cresult Target.WindowTarget)
    : session_op Target.WindowTarget :=
  do? result := read (revalidate_target resolved) in
  finish_observation_sensitive_attempt result.

Definition ensure_observed_target_available (target : Target.WindowTarget)
    : session_op unit :=
  finish_observation_sensitive_attempt (ensure_target_available_for_action target).

Definition require_observed_target_available (resolved : cresult Target.WindowTarget)
    : session_op Target.WindowTarget :=
  do? target := revalidate_observed_target resolved in
  run? ensure_observed_target_available target in
  ret target.

Definition SESSION_REFRESH_INTERVAL_MS : Z := 30000.

Definition upstream_session_refresh_due (now : Z) (self : CS.ComputerUseSession) : bool :=
  is_none_or (fun refreshed => SESSION_REFRESH_INTERVAL_MS <=? saturating_sub now refreshed)
    (CS.last_upstream_session_refresh self).

Definition complete_upstream_session_refresh (now : Z) : session_op unit :=
  run? modify (fun self => self <| CS.last_upstream_session_refresh := Some now |>) in
  update invalidate_action_observations.

Definition require_current_upstream_session_for_evidence (now : Z) : session_op unit :=
  do? self := read id in
  if CS.upstream_session_state self != Upstream.Active
  then
    run? update invalidate_action_observations in
    throw (ComputerUseError.new ComputerUseErrorCode.BackendUnavailable
      "the upstream semantic session is unavailable; this session is restricted to explicitly approved exact-window visual fallback")
  else if negb (upstream_session_refresh_due now self) then ret tt
  else
    run? update invalidate_action_observations in
    throw (ComputerUseError.with_details
      (ComputerUseError.new ComputerUseErrorCode.SessionRefreshRequired
         "the upstream session requires a fresh exact-target refresh")
      (Details.default
        <| Details.phase := Some Phase.PreDispatch |>
        <| Details.action_attempted := Some false |>
        <| Details.input_sent := Some InputSent.NotSent |>
        <| Details.completion := Some Completion.Known |>
        <| Details.local_session_invalidated := Some false |>
        <| Details.session_remains_active := Some true |>
        <| Details.automatic_input := Some false |>
        <| Details.blind_retry := Some false |>
        <| Details.fresh_observation_required := Some true |>
        <| Details.exact_target_revalidation_required := Some true |>)).

Definition finish_upstream_refresh_attempt {A} (result : cresult A) : session_op A :=
  match result with
  | Ok value => ret value
  | Err error =>
      run? update invalidate_action_observations in
      if (ComputerUseError.code error != ComputerUseErrorCode.InputFailed)
         || is_none_or (fun details => Details.timed_out details != Some true)
              (ComputerUseError.details error)
      then throw error
      else throw (ComputerUseError.with_details
        (ComputerUseError.new ComputerUseErrorCode.CompletionUnknown
           (ComputerUseError.message error))
        (Details.default
          <| Details.timed_out := Some true |>
          <| Details.phase := Some Phase.UpstreamSessionRefresh |>
          <| Details.action_attempted := Some false |>
          <| Details.input_sent := Some InputSent.NotSent |>
          <| Details.completion := Some Completion.Unknown |>
          <| Details.local_session_invalidated := Some false |>
          <| Details.session_remains_active := Some true |>
          <| Details.automatic_input := Some false |>
          <| Details.blind_retry := Some false |>
          <| Details.fresh_observation_required := Some true |>
          <| Details.exact_target_revalidation_required := Some true |>))
  end.

(** [require_observed_input_available]: capture preparation must be settled and the
    interactive desktop must accept input; both answers are arguments. *)
Definition require_observed_input_available (preparation_settled input_available : cresult unit)
    : session_op unit :=
  run? lift preparation_settled in
  finish_observation_sensitive_attempt input_available.

(** [refresh_upstream_session_before_observation_if_needed] (and the same before a
    state read): [restarted] is the driver's answer to [start_session]. *)
Definition refresh_upstream_session_if_needed (now refreshed_at : Z)
    (preparation_settled input_available restarted : cresult unit) : session_op unit :=
  do? self := read id in
  if CS.upstream_session_state self != Upstream.Active then ret tt
  else if negb (upstream_session_refresh_due now self) then ret tt
  else
    do? input_availability :=
      attempt (require_observed_input_available preparation_settled input_available) in
    let refresh := check? input_availability in restarted in
    run? finish_upstream_refresh_attempt refresh in
    complete_upstream_session_refresh refreshed_at.

Definition confirmed_action_evidence_refresh_due (now : Z) (self : CS.ComputerUseSession)
    : bool :=
  CS.active self && (CS.upstream_session_state self == Upstream.Active)
  && upstream_session_refresh_due now self.

(** The session's part of [complete_action] and [complete_mutating_action]. *)
Definition complete_action : session_op unit :=
  modify (fun self =>
    self <| CS.post_action_live_sequence_fence := latest_live_fence self |>).

Definition complete_mutating_action : session_op unit :=
  run? update invalidate_action_observations in
  complete_action.

(** [run_gated_implicit_activation_attempt]: the gate, then the invalidation, then
    the activation. *)
Definition run_gated_implicit_activation_attempt {A} (preflight : cresult unit)
    (activation : cresult A) : session_op A :=
  run? lift preflight in
  run? update invalidate_action_observations in
  lift (rmap_err local_activation_attempt_failure activation).

Definition preflight_mutating_bound_tool (now : Z)
    (preparation_settled input_available : cresult unit)
    (resolved : cresult Target.WindowTarget)
    (preparation_settled' input_available' : cresult unit)
    : session_op Target.WindowTarget :=
  run? require_current_upstream_session_for_evidence now in
  run? require_observed_input_available preparation_settled input_available in
  do? target := require_observed_target_available resolved in
  run? require_observed_input_available preparation_settled' input_available' in
  ret target.

(** The availability of the exact window bound when the session started. *)
Definition target_availability (authorization : cresult unit)
    (resolve_exact : cresult (option Target.WindowTarget))
    : session_op ComputerUseTargetAvailability.ComputerUseTargetAvailability :=
  run? (fun self => lift (ensure_active authorization self) self) in
  do? self := read id in
  match CS.target self with
  | None => throw (ComputerUseError.new ComputerUseErrorCode.MissingWindow
      "session target is missing")
  | Some original =>
      let exact := match resolve_exact with
        | Ok (Some target) =>
            if (Target.pid target =? Target.pid original)
               && (Target.window_id target =? Target.window_id original)
            then Some target else None
        | _ => None
        end in
      match exact with
      | None =>
          run? update invalidate_action_observations in
          ret {| ComputerUseTargetAvailability.status := ComputerUseTargetStatus.Unavailable;
                 ComputerUseTargetAvailability.code := "target_unavailable";
                 ComputerUseTargetAvailability.visible := false;
                 ComputerUseTargetAvailability.minimized := false;
                 ComputerUseTargetAvailability.foreground := false |}
      | Some target =>
          let '(status, code) :=
            if Target.is_minimized target
            then (ComputerUseTargetStatus.Minimized, "target_minimized")
            else if Target.is_on_screen target
            then (ComputerUseTargetStatus.Available, "target_available")
            else (ComputerUseTargetStatus.Unavailable, "target_unavailable") in
          run? (if status == ComputerUseTargetStatus.Available then ret tt
                else update invalidate_action_observations) in
          ret {| ComputerUseTargetAvailability.status := status;
                 ComputerUseTargetAvailability.code := code;
                 ComputerUseTargetAvailability.visible := Target.is_on_screen target;
                 ComputerUseTargetAvailability.minimized := Target.is_minimized target;
                 ComputerUseTargetAvailability.foreground := Target.is_foreground target |}
      end
  end.

(** [observation_sequence_fence] ([live_observation.rs]): the frame an observation
    must be newer than.  [Option::max] puts [None] first. *)
Definition option_max (a b : option Z) : option Z :=
  match a, b with
  | Some a, Some b => Some (Z.max a b)
  | Some a, None => Some a
  | None, b => b
  end.

Definition observation_sequence_fence (stream_id : Z)
    (decision action_completion transition : option Fence.LiveObservationFence)
    : option Z :=
  let on_stream fence := fence ≫= fun f => Fence.sequence_for f stream_id in
  option_max (option_max (on_stream decision) (on_stream action_completion))
    (on_stream transition).

(** ** Evidence and its epoch *)

(** Nothing is left that an action could rely on. *)
Definition no_evidence (self : CS.ComputerUseSession) : Prop :=
  CS.observation self = None
  /\ CS.sdk_element_tokens self = None
  /\ CS.native_frame_metadata self = None
  /\ CS.native_menu_metadata self = None
  /\ CS.capture_popup_metadata self = None
  /\ CS.windows_uia self = None.

Definition epoch_of (self : CS.ComputerUseSession) : Z :=
  ActionEvidenceEpoch.value (CS.action_evidence_epoch self).

(** The evidence of [self] has been dropped, once. *)
Definition invalidated (self self' : CS.ComputerUseSession) : Prop :=
  epoch_of self' = epoch_of self + 1 /\ no_evidence self'.

(** Epochs never go back. *)
Definition epoch_le (self self' : CS.ComputerUseSession) : Prop :=
  epoch_of self <= epoch_of self'.

#[export] Instance epoch_le_preorder : PreOrder epoch_le.
Proof. unfold epoch_le. split; [intros s; lia | intros s1 s2 s3; lia]. Qed.

Lemma advanced_value e e' :
  ActionEvidenceEpoch.advanced e = Some e' ->
  ActionEvidenceEpoch.value e' = ActionEvidenceEpoch.value e + 1.
Proof.
  destruct e as [e]. unfold ActionEvidenceEpoch.advanced, checked_add. simpl.
  case_match; simpl; intros [= <-]; done.
Qed.

Lemma invalidate_invalidated self self' :
  invalidate_action_observations self = Some self' -> invalidated self self'.
Proof.
  unfold invalidate_action_observations. destruct (ActionEvidenceEpoch.advanced _) eqn:E;
    intros [= <-].
  split; [by apply advanced_value in E | by repeat split].
Qed.

Lemma invalidate_active self self' :
  invalidate_action_observations self = Some self' ->
  CS.active self' = CS.active self /\ CS.target self' = CS.target self.
Proof.
  unfold invalidate_action_observations. case_match; intros [= <-]; done.
Qed.

Lemma invalidate_local_invalidated self self' :
  invalidate_local_session self = Some self' ->
  invalidated self self' /\ CS.active self' = false /\ CS.target self' = None
  /\ CS.upstream_session_state self' = Upstream.Inactive.
Proof.
  unfold invalidate_local_session. intros H.
  destruct (invalidate_action_observations _) as [s1|] eqn:E; [|done].
  pose proof (invalidate_invalidated _ _ E) as [He Hn].
  unfold invalidate_action_observations in E. destruct (ActionEvidenceEpoch.advanced _);
    [|done]. injection E as <-. injection H as <-. done.
Qed.

Lemma invalidated_epoch_le self self' : invalidated self self' -> epoch_le self self'.
Proof. unfold invalidated, epoch_le. lia. Qed.

Lemma epoch_le_modify {E} (f : CS.ComputerUseSession -> CS.ComputerUseSession) :
  (forall self, CS.action_evidence_epoch (f self) = CS.action_evidence_epoch self) ->
  respects epoch_le (modify (E := E) f).
Proof.
  intros H. apply respects_modify; [apply _|]. intros self. unfold epoch_le, epoch_of.
  by rewrite H.
Qed.

Lemma epoch_le_invalidate {E} :
  respects epoch_le (update (E := E) invalidate_action_observations).
Proof.
  apply respects_update; [apply _|]. intros self self' H.
  by apply invalidated_epoch_le, invalidate_invalidated.
Qed.

Lemma epoch_le_invalidate_local {E} :
  respects epoch_le (update (E := E) invalidate_local_session).
Proof.
  apply respects_update; [apply _|]. intros self self' H.
  by apply invalidated_epoch_le, invalidate_local_invalidated.
Qed.

#[export] Hint Resolve epoch_le_invalidate epoch_le_invalidate_local : respects.
#[export] Hint Extern 2 (respects epoch_le (modify _)) =>
  apply epoch_le_modify; reflexivity : respects.

(** ** The epoch under every operation *)

Lemma epoch_le_finish_observation {A} (r : cresult A) :
  respects epoch_le (finish_observation_sensitive_attempt r).
Proof. unfold finish_observation_sensitive_attempt. respects. Qed.

Lemma epoch_le_finish_dispatch {A} context (r : cresult (result DriverError.DriverError A)) :
  respects epoch_le (finish_typed_dispatch_result context r).
Proof. unfold finish_typed_dispatch_result. respects. Qed.

#[export] Hint Resolve epoch_le_finish_observation epoch_le_finish_dispatch : respects.

Lemma epoch_le_stop end_session : respects epoch_le (stop end_session).
Proof. unfold stop. respects. Qed.

Lemma epoch_le_local_mutation {A} (r : cresult A) :
  respects epoch_le (finish_local_mutation_attempt r).
Proof. unfold finish_local_mutation_attempt. respects. Qed.

Lemma epoch_le_target_availability authorization resolved :
  respects epoch_le (target_availability authorization resolved).
Proof.
  unfold target_availability. respects.
  intros s r s' [-> ->]%lift_some. done.
Qed.

Lemma epoch_le_revalidate resolved : respects epoch_le (revalidate_observed_target resolved).
Proof. unfold revalidate_observed_target. respects. Qed.

Lemma epoch_le_require_target resolved :
  respects epoch_le (require_observed_target_available resolved).
Proof.
  unfold require_observed_target_available, revalidate_observed_target,
    ensure_observed_target_available. respects.
Qed.

Lemma epoch_le_refresh now at_ p i r :
  respects epoch_le (refresh_upstream_session_if_needed now at_ p i r).
Proof.
  unfold refresh_upstream_session_if_needed, require_observed_input_available,
    finish_upstream_refresh_attempt, complete_upstream_session_refresh. respects.
Qed.

(** ** What a dispatch reports, and what it leaves *)

(** The driver may have run the call: everything but a refusal before it started. *)
Definition may_have_run {A} (r : cresult (result DriverError.DriverError A)) : bool :=
  match r with
  | Ok (Err (DriverError.ActionInterrupted DriverError.NotStarted _ _))
  | Ok (Err (DriverError.Configuration _)) | Ok (Err (DriverError.InvalidArguments _))
  | Ok (Err (DriverError.Shutdown _)) | Ok (Err (DriverError.RuntimeAlreadyExists _)) =>
      false
  | _ => true
  end.

(** What the details of an error claim about the attempt, and the session. *)
Record honest_report (attempted alive : bool) (report : Details.ComputerUseErrorDetails)
    (self self' : CS.ComputerUseSession) : Prop := {
  report_attempted : Details.action_attempted report = Some attempted;
  report_input : Details.input_sent report
    = Some (if attempted then InputSent.Unknown else InputSent.NotSent);
  report_alive : Details.session_remains_active report = Some alive;
  report_local : Details.local_session_invalidated report = Some (negb alive);
  report_fresh : Details.fresh_observation_required report = Some attempted;
  report_completion : Details.completion report
    = Some (if alive then Completion.Known else Completion.Unknown);
  report_no_input : Details.automatic_input report = Some false;
  report_no_retry : Details.blind_retry report = Some false;
  report_active : CS.active self' = alive && CS.active self;
  report_evidence : if attempted then invalidated self self' else self' = self;
}.

(** The outcome of a call and the session it leaves agree. *)
Definition settled {A} (r : cresult (result DriverError.DriverError A))
    (self self' : CS.ComputerUseSession) (out : cresult A) : Prop :=
  match out with
  | Ok value => r = Ok (Ok value) /\ invalidated self self'
                /\ CS.active self' = CS.active self
  | Err error => exists report alive, ComputerUseError.details error = Some report
                 /\ honest_report (may_have_run r) alive report self self'
  end.

Section Settled.
Context {A : Type} (r : cresult (result DriverError.DriverError A)).
Context (self self' : CS.ComputerUseSession) (out : cresult A).

Lemma settled_known error :
  may_have_run r = true ->
  (run? update invalidate_action_observations in
   throw (ComputerUseError.with_details error dispatched_known)) self = Some (out, self') ->
  settled r self self' out.
Proof.
  intros Hr [(e & s1 & H1 & _) | (u & s1 & H1 & [= <- <-])]%bind_some;
    apply update_some in H1 as [Hok H1]; [done|].
  apply invalidate_active in H1 as Ha. apply invalidate_invalidated in H1 as Hi.
  exists dispatched_known, true. rewrite Hr. destruct Ha. split; [done|]. by split.
Qed.

Lemma settled_dropped error :
  may_have_run r = true ->
  (run? update invalidate_local_session in
   throw (action_dispatch_completion_unknown error)) self = Some (out, self') ->
  settled r self self' out.
Proof.
  intros Hr [(e & s1 & H1 & _) | (u & s1 & H1 & [= <- <-])]%bind_some;
    apply update_some in H1 as [Hok H1]; [done|].
  apply invalidate_local_invalidated in H1 as (Hi & Ha & _).
  eexists _, false. rewrite Hr. split; [reflexivity|]. by split.
Qed.

Lemma settled_refused error :
  may_have_run r = false ->
  Some (Err (pre_dispatch_failure error), self) = Some (out, self') ->
  settled r self self' out.
Proof.
  intros Hr [= <- <-]. eexists _, true. rewrite Hr. split; [reflexivity|]. by split.
Qed.

Lemma settled_done value :
  r = Ok (Ok value) ->
  (run? update invalidate_action_observations in ret value) self = Some (out, self') ->
  settled r self self' out.
Proof.
  intros Hr [(e & s1 & H1 & _) | (u & s1 & H1 & [= <- <-])]%bind_some;
    apply update_some in H1 as [Hok H1]; [done|].
  apply invalidate_active in H1 as Ha. apply invalidate_invalidated in H1 as Hi.
  by destruct Ha.
Qed.
End Settled.

(** ** The report of a dispatched action *)

(** C20: Whatever the driver answered to a typed call, the session and the report of
    the call agree.  A call that may have run leaves no evidence of the time before
    it, in a new epoch; when it failed it is reported as attempted, with a fresh
    observation required.  A call the driver refused before starting is reported as
    not attempted, with nothing sent, and leaves the session as it was.  The session
    stays active exactly when the report says so, and no report licenses an automatic
    retry. *)
Theorem dispatch_report_is_honest {A} context
    (r : cresult (result DriverError.DriverError A)) self out self' :
  finish_typed_dispatch_result context r self = Some (out, self') ->
  match out with
  | Ok value => r = Ok (Ok value) /\ invalidated self self'
                /\ CS.active self' = CS.active self
  | Err error => exists report alive, ComputerUseError.details error = Some report
                 /\ honest_report (may_have_run r) alive report self self'
  end.
Proof.
  change (finish_typed_dispatch_result context r self = Some (out, self')
          -> settled r self self' out).
  destruct r as [[v|error]|e]; [apply settled_done; done | | by apply settled_dropped].
  destruct error as [| | | [] | | | | | |];
    first [by apply settled_refused | by apply settled_known | by apply settled_dropped].
Qed.

Lemma map_driver_error_code context error :
  ComputerUseError.code (map_driver_error context error) = driver_error_code error.
Proof. unfold map_driver_error. by case_match. Qed.

(** A tool that itself fails with the code [completion_unknown] gets that code, but
    the report next to it says that the completion is known and that the session
    remains active. *)
Lemma tool_completion_unknown_reported_known context tool message :
  let error := mutation_known_failure context
    (DriverError.Tool tool "completion_unknown" message) in
  ComputerUseError.code error = ComputerUseErrorCode.CompletionUnknown
  /\ exists report, ComputerUseError.details error = Some report
     /\ Details.completion report = Some Completion.Known
     /\ Details.session_remains_active report = Some true.
Proof.
  split; [| by eexists]. unfold mutation_known_failure. simpl.
  rewrite map_driver_error_code. by vm_compute.
Qed.

(** ** A concrete session *)

Definition sample_window : Target.WindowTarget := {|
  Target.pid := 7; Target.window_id := 9; Target.title := "Notes";
  Target.app_name := "notes"; Target.bounds := [0; 0; 800; 600];
  Target.is_on_screen := true; Target.is_minimized := false;
  Target.z_index := None; Target.is_foreground := true |}.

Definition sample_observation : Observation.ComputerUseObservation := {|
  Observation.observation_id := "s-1"; Observation.window_handle := 9;
  Observation.process_id := 7; Observation.window_title := "Notes";
  Observation.width := 800; Observation.height := 600;
  Observation.source_rect := [0; 0; 800; 600];
  Observation.capture_backend := "cua-driver-sdk";
  Observation.capture_provenance := Object [];
  Observation.session_id := "s" |}.

Definition sample_session : CS.ComputerUseSession := {|
  CS.session_id := "s";
  CS.scope := {| TargetScope.process_id := Some 7; TargetScope.window_handle := Some 9;
                 TargetScope.window_title := None |};
  CS.marker_visible := true;
  CS.control_banner := Some {| Banner.interrupted := false; Banner.failure := None |};
  CS.target := Some sample_window;
  CS.observation := Some sample_observation;
  CS.sdk_element_tokens := None;
  CS.native_frame_metadata := None;
  CS.native_menu_metadata := None;
  CS.capture_popup_metadata := None;
  CS.action_evidence_epoch := ActionEvidenceEpoch.Epoch 3;
  CS.live_observation := None;
  CS.post_action_live_sequence_fence := None;
  CS.observation_transition_live_sequence_fence := None;
  CS.recording_active := false;
  CS.windows_uia := None;
  CS.upstream_session_state := Upstream.Active;
  CS.last_upstream_session_refresh := Some 1000;
  CS.active := true;
  CS.pixel_observation_route := None |}.

Lemma dispatch_report_is_honest_witness :
  exists error self' report alive,
    finish_typed_dispatch_result (A := unit) "click" (Ok (Err (DriverError.Worker "gone")))
      sample_session = Some (Err error, self')
    /\ ComputerUseError.details error = Some report
    /\ honest_report true alive report sample_session self'.
Proof.
  pose (r := Ok (Err (DriverError.Worker "gone"))
        : cresult (result DriverError.DriverError unit)).
  destruct (finish_typed_dispatch_result "click" r sample_session) as [[[v|e] s']|] eqn:E;
    [vm_compute in E; discriminate E | | vm_compute in E; discriminate E].
  destruct (dispatch_report_is_honest _ _ _ _ _ E) as (d & alive & H).
  exists e, s', d, alive. split; [exact E | exact H].
Defined.
