(* ===== verification/ActionPolicy.v ===== *)
(** * What may become a driver command ([crates/dcc-cua-core/src/policy.rs])

    The validation of a Computer Use action, its translation into a command of the
    desktop driver, and the checks on the other requests the core runtime sends on.
    The configuration modelled is the Windows one. *)

From S2P Require Import Prelude Records RustStr Json Protocol Errors TargetPolicy.
From S2P Require Import Contracts HostAction Platform RuntimeSession Request.

Module Point := ComputerUsePoint.

(** ** [f64] arithmetic *)

Definition f64_add (a b : f64) : f64 := SFadd f64_prec f64_emax a b.
Definition f64_sub (a b : f64) : f64 := SFsub f64_prec f64_emax a b.
Definition f64_mul (a b : f64) : f64 := SFmul f64_prec f64_emax a b.
Definition f64_div (a b : f64) : f64 := SFdiv f64_prec f64_emax a b.
Definition json_opt_f64 (o : option f64) : value :=
  match o with Some x => json_f64 x | None => Null end.
(** [Value::as_f64]. *)
Definition as_f64 (v : value) : option f64 :=
  match v with
  | Number (Float x) => Some x
  | Number (PosInt n) | Number (NegInt n) => Some (f64_of_Z n)
  | _ => None
  end.

(** ** Limits ([crates/dcc-cua-core/src/contracts.rs]) *)

Definition MAX_TEXT_UTF16_UNITS : Z := 4096.
Definition MAX_TYPE_CHAR_DELAY_MS : Z := 200.
Definition MAX_KEY_TOKENS : Z := 16.
Definition MAX_MODIFIER_TOKENS : Z := 8.
Definition MAX_MODIFIER_CHARS : Z := 32.
Definition MAX_INPUT_BACKEND_ID_CHARS : Z := 64.
Definition MAX_DRAG_POINTS : Z := 256.
Definition MAX_DRAG_DURATION_MS : Z := 10000.
Definition MAX_DRAG_STEPS : Z := 200.
Definition MAX_SCROLL_AMOUNT : Z := 50.
Definition MAX_ELEMENT_TOKEN_CHARS : Z := 512.
Definition MAX_NATIVE_TOOL_NAME_CHARS : Z := 128.
Definition MAX_NATIVE_TOOL_ARGUMENT_BYTES : Z := 1024 * 1024.
Definition MAX_ESCALATION_DETAIL_CHARS : Z := 200.
Definition DEFAULT_SNAPSHOT_MAX_ELEMENTS : Z := 512.
Definition DEFAULT_SNAPSHOT_MAX_DEPTH : Z := 16.
Definition MAX_SNAPSHOT_ELEMENTS : Z := 2000.
Definition MAX_SNAPSHOT_DEPTH : Z := 25.

Definition refuse (message : string) : cerror :=
  ComputerUseError.new ComputerUseErrorCode.InvalidAction message.

(** ** Requests other than actions *)

Definition bounded_snapshot_elements (n : Z) : Z :=
  if n =? 0 then DEFAULT_SNAPSHOT_MAX_ELEMENTS else Z.min n MAX_SNAPSHOT_ELEMENTS.
Definition bounded_snapshot_depth (n : Z) : Z :=
  if n =? 0 then DEFAULT_SNAPSHOT_MAX_DEPTH else Z.min n MAX_SNAPSHOT_DEPTH.

Definition validate_recording_start_request
    (request : RecStart.ComputerUseRecordingStartRequest) : cresult unit :=
  let path := trim (RecStart.output_dir request) in
  if str_is_empty path
     || (MAX_LOCAL_PATH_CHARS <? chars_count path)
     || any_char (fun c => c =? 0) path
     || (negb (path_is_absolute path) && negb (starts_with "~/" path))
  then Err (refuse "recording output_dir must be an absolute path or ~/ path")
  else Ok tt.

Definition validate_verify_state_request (expect : value)
    (timeout_ms stable_samples : option Z) : cresult unit :=
  let? predicates := ok_or (as_array expect) (refuse "verify_state expect must be an array") in
  if negb ((1 <=? len predicates) && (len predicates <=? 8))
  then Err (refuse "verify_state expect must contain 1..8 predicates")
  else if is_some_and (fun n => 10000 <? n) timeout_ms
  then Err (refuse "verify_state timeout_ms must be at most 10000")
  else if is_some_and (fun n => negb ((1 <=? n) && (n <=? 5))) stable_samples
  then Err (refuse "verify_state stable_samples must be 1..5")
  else Ok tt.

(** The length of the JSON encoding, or the error of the encoder. *)
Definition validate_native_tool_request (to_vec : value -> result string Z) (name : string)
    (arguments : value) : cresult unit :=
  if str_is_empty name || (MAX_NATIVE_TOOL_NAME_CHARS <? chars_count name)
     || negb (all_chars (fun c => is_ascii_alphanumeric c || (c =? 95)) name)
  then Err (refuse "native CUA tool name must be 1..128 ASCII letters, digits, or underscores")
  else if negb (is_object arguments)
  then Err (refuse "native CUA tool arguments must be a JSON object")
  else
    let? encoded := rmap_err refuse (to_vec arguments) in
    if MAX_NATIVE_TOOL_ARGUMENT_BYTES <? encoded
    then Err (refuse "native CUA tool arguments exceed 1 MiB")
    else if is_some_and (existsb (fun '(key, _) => starts_with "_" key)) (as_object arguments)
    then Err (refuse "native CUA reserved arguments are host-owned")
    else Ok tt.

Definition COMPUTER_USE_ESCALATION_REASONS : list string :=
  ["ax_tree_pixel_mismatch"; "background_delivery_failed"; "foreground_ineffective";
   "no_window_target"; "uia_timeout"; "other"].

Definition validate_escalation_request (reason : string) (detail : option string)
    : cresult unit :=
  if negb (reason ∈? COMPUTER_USE_ESCALATION_REASONS)
  then Err (refuse ("unsupported CUA session escalation reason; allowed values: "
    +:+ String.concat ", " COMPUTER_USE_ESCALATION_REASONS
    +:+ ". Use uia_timeout after an exact-window UIAutomation timeout or background_delivery_failed after a delivery failure"))
  else if is_some_and (fun d => MAX_ESCALATION_DETAIL_CHARS <? chars_count d) detail
  then Err (refuse ("CUA session escalation detail exceeds "
    +:+ show MAX_ESCALATION_DETAIL_CHARS +:+ " characters"))
  else Ok tt.

Definition cursor_tool_allowed (name : string) : bool :=
  name ∈? ["move_cursor"; "set_agent_cursor_enabled"; "set_agent_cursor_motion";
           "get_agent_cursor_state"; "set_agent_cursor_theme"].

Definition native_tool_allowed_globally (name : string) : bool :=
  name ∈? ["check_permissions"; "health_report"; "get_accessibility_tree"; "get_config";
           "set_config"; "replay_trajectory"; "install_ffmpeg"].

(** [{name:?}]: a validated tool name prints without escapes. *)
Definition debug_name (name : string) : string :=
  String (ascii_of 34) name +:+ String (ascii_of 34) "".

Definition validate_unscoped_native_tool_route (name : string) : cresult unit :=
  if native_tool_allowed_globally name then Ok tt
  else Err (refuse ("CUA tool " +:+ debug_name name
    +:+ " must use its dedicated or window-bound route")).

Definition DEDICATED_TOOLS : list string :=
  ["list_windows"; "get_window_state"; "zoom"; "verify_state"; "clipboard_read";
   "clipboard_write"; "get_desktop_state"; "get_accessibility_tree";
   "set_agent_cursor_enabled"; "set_agent_cursor_motion"; "get_agent_cursor_state";
   "set_agent_cursor_theme"; "start_recording"; "stop_recording"; "get_recording_state";
   "get_browser_state"; "page"; "get_session_state"; "run_script"; "run_steps"].

(** [is_action_result_tool] belongs to the driver's contract crate. *)
Definition native_tool_allowed_in_window_session (is_action_result_tool : string -> bool)
    (name : string) : bool :=
  if (name ∈? DEDICATED_TOOLS) || starts_with "browser_" name || is_action_result_tool name
  then false
  else negb (name ∈? ["launch_app"; "kill_app"; "bring_to_front"; "start_session";
                      "escalate_session"; "end_session"]).

(** ** Validation of an action *)

Definition ACTIONS : list string :=
  ["click"; "double_click"; "right_click"; "toggle"; "move"; "scroll"; "drag"; "type";
   "type_chars"; "set_text"; "set_value"; "keypress"; "keyboard_shortcut"].

Definition reject (b : bool) (message : string) : cresult unit :=
  if b then Err (refuse message) else Ok tt.

(** The point of [x] and [y], when both are given. *)
Definition action_point (a : CA.ComputerUseAction) : option Point.ComputerUsePoint :=
  match CA.x a, CA.y a with
  | Some x, Some y => Some {| Point.x := x; Point.y := y |}
  | _, _ => None
  end.
(** The points of the path, then the point of the coordinates. *)
Definition action_points (a : CA.ComputerUseAction) : list Point.ComputerUsePoint :=
  CA.path a ++ option_list (action_point a).

Definition has_locator (a : CA.ComputerUseAction) : bool :=
  is_some (CA.element_index a) || is_some (CA.element_token a).

Definition backend_id_byte (c : Z) : bool :=
  is_ascii_lower c || is_ascii_digit c || (c =? 95).
Definition invalid_backend_id (backend_id : string) : bool :=
  str_is_empty backend_id || (MAX_INPUT_BACKEND_ID_CHARS <? str_len backend_id)
  || existsb (fun segment =>
       str_is_empty segment
       || negb (forallb (fun a => backend_id_byte (byte_of a)) (String.list_ascii_of_string segment)))
     (split_on (fun a => byte_of a =? 46) backend_id).

Definition unsigned_abs (n : Z) : Z := Z.abs n.

Definition validate_scroll (a : CA.ComputerUseAction) : cresult unit :=
  let horizontal := unwrap_or (CA.scroll_x a) 0 in
  let vertical := unwrap_or (CA.scroll_y a) 0 in
  check? reject (negb (horizontal =? 0) && negb (vertical =? 0))
    "scroll supports one axis per action" in
  let amount :=
    if negb (horizontal =? 0) then unsigned_abs horizontal else unsigned_abs vertical in
  check? reject (MAX_SCROLL_AMOUNT <? amount)
    ("scroll amount must be at most " +:+ show MAX_SCROLL_AMOUNT) in
  check? reject ((amount =? 0) && negb (has_locator a) && is_none (CA.x a))
    "scroll requires a non-zero axis, element locator, or coordinates" in
  reject (is_some_and (fun by_ => negb (by_ ∈? ["line"; "page"])) (CA.scroll_by a))
    "scroll_by must be line or page".

(** [keys[..index].iter().any(|previous| previous.eq_ignore_ascii_case(key))], for
    some index. *)
Fixpoint repeats_a_key (previous keys : list string) : bool :=
  match keys with
  | [] => false
  | key :: keys =>
      existsb (fun p => eq_ignore_ascii_case p key) previous
      || repeats_a_key (previous ++ [key]) keys
  end.

Definition hold_keys : list string :=
  ["w"; "a"; "s"; "d"; "up"; "down"; "left"; "right"].

Definition validate_duration (a : CA.ComputerUseAction) (duration_ms : Z) : cresult unit :=
  check? reject (MAX_DRAG_DURATION_MS <? duration_ms) "duration_ms must be at most 10000" in
  check? reject (negb (CA.action a ∈? ["click"; "drag"; "keypress"]))
    "duration_ms is supported only for coordinate click, drag, and keypress" in
  check? reject ((CA.action a == "click")
                 && (is_none (CA.x a) || has_locator a || negb (is_empty (CA.modifiers a))))
    "click duration_ms requires coordinates and no modifiers" in
  reject ((CA.action a == "keypress")
          && ((duration_ms =? 0) || is_empty (CA.keys a) || (2 <? len (CA.keys a))
              || negb (is_empty (CA.modifiers a))
              || existsb (fun key => negb (to_ascii_lowercase (trim key) ∈? hold_keys))
                   (CA.keys a)
              || repeats_a_key [] (CA.keys a)))
    "keypress duration_ms requires one or two unique WASD/arrow keys, no modifiers, and a non-zero duration".

Definition validate_type_chars (a : CA.ComputerUseAction) : cresult unit :=
  check? reject (is_none (CA.text a)) "type_chars requires text" in
  check? reject (CA.type_chars_only a && has_locator a)
    "type_chars_only cannot be combined with an element locator" in
  check? reject (negb (CA.type_chars_only a) && negb (has_locator a))
    "type_chars requires an element locator unless type_chars_only is true" in
  reject (is_some (CA.x a) || is_some (CA.y a))
    "type_chars does not accept screen coordinates".

Definition validate_action (a : CA.ComputerUseAction) : cresult unit :=
  let kind name := CA.action a == name in
  check? reject (negb (CA.action a ∈? ACTIONS)) "unsupported Computer Use action" in
  check? reject ((MAX_KEY_TOKENS <? len (CA.keys a))
                 || (MAX_MODIFIER_TOKENS <? len (CA.modifiers a))
                 || (MAX_DRAG_POINTS <? len (CA.path a)))
    "action exceeds the host safety limits" in
  check? reject (existsb (fun modifier =>
                   str_is_empty modifier || (MAX_MODIFIER_CHARS <? chars_count modifier))
                 (CA.modifiers a))
    "modifiers must be non-empty and at most 32 characters" in
  check? reject (is_some_and (fun button => negb (button ∈? ["left"; "middle"; "right"]))
                   (CA.button a))
    "button must be left, middle, or right" in
  check? reject (negb (Bool.eqb (is_some (CA.x a)) (is_some (CA.y a))))
    "x and y must be supplied together" in
  check? reject (is_some_and (fun text => MAX_TEXT_UTF16_UNITS <? utf16_count text) (CA.text a))
    "text exceeds the host UTF-16 limit" in
  check? reject (is_some_and (fun delay => MAX_TYPE_CHAR_DELAY_MS <? delay) (CA.delay_ms a))
    "delay_ms must be at most 200" in
  check? reject (is_some_and (fun token =>
                   str_is_empty token || (MAX_ELEMENT_TOKEN_CHARS <? chars_count token))
                   (CA.element_token a))
    "element_token must be non-empty and at most 512 characters" in
  check? reject (is_some_and (fun mode => negb (mode ∈? ["background"; "foreground"]))
                   (CA.delivery_mode a))
    "delivery_mode must be background or foreground" in
  check? reject (is_some_and invalid_backend_id (CA.input_backend_id a))
    "input_backend_id must be a lowercase dotted identifier of at most 64 characters" in
  check? (if kind "scroll" then validate_scroll a
          else reject (is_some (CA.scroll_x a) || is_some (CA.scroll_y a)
                       || is_some (CA.scroll_by a))
            "scroll_x, scroll_y, and scroll_by are supported only for scroll") in
  check? reject (existsb (fun p => negb (is_finite (Point.x p)) || negb (is_finite (Point.y p)))
                   (action_points a))
    "coordinates must be finite" in
  check? reject ((kind "set_text" || kind "set_value") && negb (has_locator a))
    "set_text and set_value require a semantic element_index" in
  check? (if kind "type_chars" then validate_type_chars a else Ok tt) in
  check? reject (kind "type" && is_none (CA.text a)) "type requires text" in
  check? match CA.duration_ms a with
         | Some duration_ms => validate_duration a duration_ms
         | None => Ok tt
         end in
  match CA.steps a with
  | Some steps =>
      check? reject (negb ((1 <=? steps) && (steps <=? MAX_DRAG_STEPS)))
        "steps must be between 1 and 200" in
      reject (negb (kind "drag")) "steps is supported only for drag"
  | None => Ok tt
  end.

Definition validate_window_action_coordinates (a : CA.ComputerUseAction) : cresult unit :=
  reject (existsb (fun p => f64_lt (Point.x p) f64_zero || f64_lt (Point.y p) f64_zero)
            (action_points a))
    "window action coordinates must be non-negative screenshot-local pixels".

Definition validate_zoom_request (request : Zoom.ComputerUseZoomRequest)
    (observation : Observation.ComputerUseObservation) : cresult unit :=
  if Zoom.observation_id request != Observation.observation_id observation
  then Err (ComputerUseError.new ComputerUseErrorCode.StaleObservation
    "zoom observation_id does not match the latest screenshot")
  else
    check? reject (existsb (fun c => negb (is_finite c) || f64_lt c f64_zero)
                     [Zoom.x1 request; Zoom.y1 request; Zoom.x2 request; Zoom.y2 request])
      "zoom coordinates must be finite and non-negative" in
    check? reject (f64_le (Zoom.x2 request) (Zoom.x1 request)
                   || f64_le (Zoom.y2 request) (Zoom.y1 request))
      "zoom region must have positive width and height" in
    check? reject (f64_lt (f64_of_Z 500) (f64_sub (Zoom.x2 request) (Zoom.x1 request)))
      "zoom region width must not exceed 500 pixels" in
    reject (f64_lt (f64_of_Z (Observation.width observation)) (Zoom.x2 request)
            || f64_lt (f64_of_Z (Observation.height observation)) (Zoom.y2 request))
      "zoom region must stay within the latest screenshot".

Definition validate_action_observation (a : CA.ComputerUseAction)
    (observation : Observation.ComputerUseObservation) : cresult unit :=
  if is_bool (Observation.capture_provenance observation).["pixels_captured"] false
     && negb (has_locator a)
  then Err (ComputerUseError.new ComputerUseErrorCode.StaleObservation
    "coordinate and unscoped keyboard actions require a fresh pixel screenshot")
  else Ok tt.

Definition is_windows_uia_semantic_action (a : CA.ComputerUseAction)
    (observation : Observation.ComputerUseObservation) : bool :=
  (CA.action a ∈? ["click"; "toggle"; "set_text"; "set_value"])
  && (is_some_and (starts_with "dcc-wuia:") (CA.element_token a)
      || (is_some (CA.element_index a)
          && is_str (Observation.capture_provenance observation).["accessibility_backend"]
               "windows_uia")).

Definition action_requires_physical_input_desktop (a : CA.ComputerUseAction)
    (observation : Observation.ComputerUseObservation) : bool :=
  negb (is_windows_uia_semantic_action a observation).

(** ** The command of an action *)

Definition contains_ignoring_case (keys : list string) (key : string) : bool :=
  existsb (fun existing => eq_ignore_ascii_case existing key) keys.

(** The modifiers, then the keys that are not among the tokens collected so far. *)
Definition keyboard_shortcut_keys (a : CA.ComputerUseAction) : list string :=
  foldl (fun keys key =>
      if contains_ignoring_case keys key then keys else keys ++ [key])
    (CA.modifiers a) (CA.keys a).

Module DriverActionCommand.
Record DriverActionCommand : Type := { tool : string; arguments : value }.
End DriverActionCommand.

Module Command := DriverActionCommand.

Module DriverActionScope.
Inductive DriverActionScope : Type :=
| Window (target : Target.WindowTarget)
| Desktop.

Definition is_window (self : DriverActionScope) : bool :=
  match self with Window _ => true | Desktop => false end.
End DriverActionScope.

Module ActScope := DriverActionScope.

(** [target.bounds] is an array of four. *)
Definition bound (target : Target.WindowTarget) (i : nat) : Z :=
  nth i (Target.bounds target) 0.

Definition validate_window_cursor_move (arguments : value) : cresult (f64 * f64) :=
  let missing := refuse "move_cursor requires numeric x and y" in
  let? x := ok_or (get arguments "x" ≫= as_f64) missing in
  let? y := ok_or (get arguments "y" ≫= as_f64) missing in
  if negb (is_finite x) || negb (is_finite y) || f64_lt x f64_zero || f64_lt y f64_zero
  then Err (refuse "move_cursor coordinates must be finite and non-negative")
  else if is_some_and (fun scope => as_str scope != Some "window") (get arguments "scope")
  then Err (refuse "window cursor control only supports scope=window")
  else Ok (x, y).

Definition map_window_cursor_move (arguments : value) (target : Target.WindowTarget)
    : cresult value :=
  let? (x, y) := validate_window_cursor_move arguments in
  if f64_le (f64_of_Z (bound target 2)) x || f64_le (f64_of_Z (bound target 3)) y
  then Err (refuse "move_cursor coordinates must stay inside the target window")
  else
    let arguments :=
      set_index arguments "x" (json_f64 (f64_add (f64_of_Z (bound target 0)) x)) in
    let arguments :=
      set_index arguments "y" (json_f64 (f64_add (f64_of_Z (bound target 1)) y)) in
    Ok (set_index arguments "scope" (Str "window")).

Definition insert_scroll_arguments (object : value) (a : CA.ComputerUseAction) : value :=
  let horizontal := unwrap_or (CA.scroll_x a) 0 in
  let vertical := unwrap_or (CA.scroll_y a) 0 in
  let '(direction, amount) :=
    if horizontal <? 0 then ("left", unsigned_abs horizontal)
    else if 0 <? horizontal then ("right", unsigned_abs horizontal)
    else if vertical <? 0 then ("up", unsigned_abs vertical)
    else if 0 <? vertical then ("down", unsigned_abs vertical)
    else ("down", 0) in
  let object := set_index object "direction" (Str direction) in
  let object :=
    if 0 <? amount then set_index object "amount" (Number (PosInt amount)) else object in
  match CA.scroll_by a with
  | Some by_ => set_index object "by" (Str by_)
  | None => object
  end.

Definition json_strings (l : list string) : value := Array (map Str l).

(** The driver's tool for an action; a semantic setter exists for windows only. *)
Definition action_tool (a : CA.ComputerUseAction) (scope : ActScope.DriverActionScope)
    : option string :=
  let kind name := CA.action a == name in
  if CA.action a ∈? ["click"; "double_click"; "right_click"; "toggle"] then Some "click"
  else if kind "drag" then Some "drag"
  else if kind "scroll" then Some "scroll"
  else if kind "type" || kind "type_chars" then Some "type_text"
  else if (kind "set_text" || kind "set_value") && ActScope.is_window scope then Some "set_value"
  else if kind "keypress" then Some "press_key"
  else if kind "keyboard_shortcut" then Some "hotkey"
  else if kind "move" then Some "move_cursor"
  else None.

(** The fields that bind the command to its scope. *)
Definition scope_arguments (a : CA.ComputerUseAction) (tool session : string)
    (scope : ActScope.DriverActionScope) : value :=
  let object := Object [("session", Str session)] in
  match scope with
  | ActScope.Window target =>
      if tool == "move_cursor" then object
      else
        let object := set_index object "pid" (Number (PosInt (Target.pid target))) in
        let object :=
          set_index object "window_id" (Number (PosInt (Target.window_id target))) in
        set_index object "delivery_mode"
          (Str (unwrap_or (CA.delivery_mode a) "background"))
  | ActScope.Desktop => set_index object "scope" (Str "desktop")
  end.

Definition insert_xy (object : value) (a : CA.ComputerUseAction) : value :=
  set_index (set_index object "x" (json_opt_f64 (CA.x a))) "y" (json_opt_f64 (CA.y a)).
(** [if let (Some(x), Some(y)) = (action.x, action.y)], within a window. *)
Definition insert_window_xy (object : value) (a : CA.ComputerUseAction)
    (scope : ActScope.DriverActionScope) : value :=
  match CA.x a, CA.y a with
  | Some x, Some y =>
      if ActScope.is_window scope
      then set_index (set_index object "x" (json_f64 x)) "y" (json_f64 y) else object
  | _, _ => object
  end.

Definition drag_arguments (object : value) (a : CA.ComputerUseAction) : value :=
  let first := unwrap_or (head (CA.path a))
    {| Point.x := unwrap_or (CA.x a) f64_zero; Point.y := unwrap_or (CA.y a) f64_zero |} in
  let last := unwrap_or (last (CA.path a)) first in
  let object := set_index object "from_x" (json_f64 (Point.x first)) in
  let object := set_index object "from_y" (json_f64 (Point.y first)) in
  let object := set_index object "to_x" (json_f64 (Point.x last)) in
  let object := set_index object "to_y" (json_f64 (Point.y last)) in
  let object := set_some object "button" Str (CA.button a) in
  let object :=
    if is_empty (CA.modifiers a) then object
    else set_index object "modifier" (json_strings (CA.modifiers a)) in
  let object := set_some object "duration_ms" (fun n => Number (PosInt n))
    (CA.duration_ms a) in
  set_some object "steps" (fun n => Number (PosInt n)) (CA.steps a).

(** The fields of the action itself. *)
Definition action_fields (object : value) (a : CA.ComputerUseAction)
    (scope : ActScope.DriverActionScope) : cresult value :=
  let kind name := CA.action a == name in
  let text := Str (unwrap_or (CA.text a) "") in
  if kind "move" then
    let object := insert_xy object a in
    match scope with
    | ActScope.Window target => map_window_cursor_move object target
    | ActScope.Desktop => Ok object
    end
  else if CA.action a ∈? ["click"; "double_click"; "right_click"; "toggle"] then
    let object := insert_xy object a in
    let object := set_index object "count"
      (Number (PosInt (if kind "double_click" then 2 else 1))) in
    Ok (set_index object "button"
      (Str (unwrap_or (CA.button a) (if kind "right_click" then "right" else "left"))))
  else if kind "drag" then Ok (drag_arguments object a)
  else if kind "scroll" then Ok (insert_scroll_arguments (insert_xy object a) a)
  else if kind "type" || kind "type_chars" then
    let object := set_index object "text" text in
    let object :=
      if kind "type_chars"
      then set_some object "delay_ms" (fun n => Number (PosInt n)) (CA.delay_ms a)
      else object in
    Ok (if kind "type" then insert_window_xy object a scope else object)
  else if kind "set_text" || kind "set_value" then Ok (set_index object "value" text)
  else if kind "keypress" then
    let object := set_index object "key" (Str (unwrap_or (head (CA.keys a)) "")) in
    let object :=
      if is_empty (CA.modifiers a) then object
      else set_index object "modifiers" (json_strings (CA.modifiers a)) in
    Ok (insert_window_xy object a scope)
  else if kind "keyboard_shortcut" then
    let object := set_index object "keys" (json_strings (keyboard_shortcut_keys a)) in
    Ok (insert_window_xy object a scope)
  else Ok object.

(** A token replaces the coordinates; an index must have been resolved to one. *)
Definition locate_element (object : value) (a : CA.ComputerUseAction)
    (scope : ActScope.DriverActionScope) : cresult value :=
  if negb (ActScope.is_window scope) then Ok object
  else match CA.element_token a with
  | Some element_token =>
      let object := set_index object "element_token" (Str element_token) in
      Ok (remove_index (remove_index (remove_index object "element_index") "x") "y")
  | None =>
      if is_some (CA.element_index a)
      then Err (ComputerUseError.new ComputerUseErrorCode.StaleObservation
        "resolve element_index against the current observation's SDK element_token before dispatch")
      else Ok object
  end.

Definition driver_action_command (a : CA.ComputerUseAction) (session : string)
    (scope : ActScope.DriverActionScope) : cresult Command.DriverActionCommand :=
  check? reject ((CA.action a == "drag") && (2 <? len (CA.path a)))
    "the configured CUA driver accepts only drag endpoints; use at most two path points" in
  let? tool := ok_or (action_tool a scope)
    (refuse "action cannot be represented by the configured CUA driver") in
  check? reject ((CA.action a ∈? ["move"; "drag"]) && has_locator a)
    "the configured CUA driver requires coordinates for move and drag" in
  let? object := action_fields (scope_arguments a tool session scope) a scope in
  let? object := locate_element object a scope in
  Ok {| Command.tool := tool; Command.arguments := object |}.

Definition action_arguments (a : CA.ComputerUseAction) (session : string)
    (target : Target.WindowTarget) : cresult Command.DriverActionCommand :=
  driver_action_command a session (ActScope.Window target).
Definition desktop_action_arguments (a : CA.ComputerUseAction) (session : string)
    : cresult Command.DriverActionCommand :=
  driver_action_command a session ActScope.Desktop.

(** *** Pixel actions of the exact-window fallback *)

(** A screenshot point in the window's own units; [source_rect] is an array of four. *)
Definition map_point (observation : Observation.ComputerUseObservation)
    (p : Point.ComputerUsePoint) : cresult Point.ComputerUsePoint :=
  let width := f64_of_Z (Observation.width observation) in
  let height := f64_of_Z (Observation.height observation) in
  let source i := f64_of_Z (nth i (Observation.source_rect observation) 0) in
  if f64_le width (Point.x p) || f64_le height (Point.y p)
  then Err (refuse "window visual fallback coordinates exceed the latest screenshot")
  else Ok {| Point.x := f64_div (f64_mul (Point.x p) (source 2%nat)) width;
             Point.y := f64_div (f64_mul (Point.y p) (source 3%nat)) height |}.

Fixpoint map_points (observation : Observation.ComputerUseObservation)
    (points : list Point.ComputerUsePoint) : cresult (list Point.ComputerUsePoint) :=
  match points with
  | [] => Ok []
  | p :: points =>
      let? p := map_point observation p in
      let? points := map_points observation points in
      Ok (p :: points)
  end.

Definition action_for_window_visual_fallback (a : CA.ComputerUseAction)
    (observation : Observation.ComputerUseObservation) : cresult CA.ComputerUseAction :=
  check? reject (has_locator a || (CA.action a ∈? ["set_text"; "set_value"]))
    "window visual fallback does not support semantic element actions" in
  check? reject ((CA.action a ∈?
                    ["click"; "double_click"; "right_click"; "toggle"; "move"; "scroll"])
                 && is_none (CA.x a))
    "window visual fallback pointer actions require screenshot coordinates" in
  check? reject ((CA.action a == "drag") && is_empty (CA.path a) && is_none (CA.x a))
    "window visual fallback drag requires screenshot coordinates" in
  let? validated :=
    match action_point a with
    | Some p =>
        let? p := map_point observation p in
        Ok (a <| CA.x := Some (Point.x p) |> <| CA.y := Some (Point.y p) |>)
    | None => Ok a
    end in
  let? path := map_points observation (CA.path a) in
  Ok (validated <| CA.path := path |>).

(** ** Properties *)

Lemma reject_ok b message : reject b message = Ok tt <-> b = false.
Proof. destruct b; naive_solver. Qed.
Lemma reject_unit b message u : reject b message = Ok u <-> b = false.
Proof. destruct u. apply reject_ok. Qed.
#[export] Hint Rewrite reject_unit : result_ok.

(** The fields of an action leave the binding of the command alone. *)
Definition binding_keys : list string := ["session"; "pid"; "window_id"; "delivery_mode"].

Lemma drag_arguments_binding object a key :
  key ∈ binding_keys -> get (drag_arguments object a) key = get object key.
Proof.
  intros Hkey. unfold drag_arguments.
  assert (forall k, k ∈ ["from_x"; "from_y"; "to_x"; "to_y"; "button"; "modifier";
                         "duration_ms"; "steps"] -> k <> key) as Hne
    by (unfold binding_keys in Hkey; set_solver).
  rewrite !get_set_some_ne by (apply Hne; set_solver).
  destruct (is_empty _); rewrite ?get_set_index_ne, ?get_set_some_ne, ?get_set_index_ne
    by (apply Hne; set_solver); done.
Qed.

Lemma binding_key_cases key :
  key ∈ binding_keys -> key = "session" \/ key = "pid" \/ key = "window_id"
                        \/ key = "delivery_mode".
Proof. unfold binding_keys. set_solver. Qed.

Lemma insert_xy_binding object a key :
  key ∈ binding_keys -> get (insert_xy object a) key = get object key.
Proof. intros [->|[->|[->| ->]]]%binding_key_cases; unfold insert_xy; by lookup_fields. Qed.
Lemma insert_window_xy_binding object a scope key :
  key ∈ binding_keys -> get (insert_window_xy object a scope) key = get object key.
Proof.
  intros [->|[->|[->| ->]]]%binding_key_cases; unfold insert_window_xy;
    repeat case_match; by lookup_fields.
Qed.
Lemma insert_scroll_binding object a key :
  key ∈ binding_keys -> get (insert_scroll_arguments object a) key = get object key.
Proof.
  intros [->|[->|[->| ->]]]%binding_key_cases; unfold insert_scroll_arguments;
    repeat case_match; by lookup_fields.
Qed.
Lemma set_action_field_ne object key key' v :
  key ∈ binding_keys -> key' ∉ binding_keys -> get (set_index object key' v) key = get object key.
Proof. intros Hkey Hkey'. apply get_set_index_ne. congruence. Qed.
Lemma set_some_action_field_ne {A} object key key' (f : A -> value) o :
  key ∈ binding_keys -> key' ∉ binding_keys -> get (set_some object key' f o) key = get object key.
Proof. intros Hkey Hkey'. apply get_set_some_ne. congruence. Qed.

Lemma map_window_cursor_binding object target object' key :
  key ∈ binding_keys -> map_window_cursor_move object target = Ok object' ->
  get object' key = get object key.
Proof.
  unfold map_window_cursor_move.
  intros Hkey ([x y] & _ & H)%rbind_ok. apply guard_ok in H as [_ H]. injection H as <-.
  apply binding_key_cases in Hkey as [->|[->|[->| ->]]]; by lookup_fields.
Qed.

Lemma action_fields_binding object a scope object' key :
  key ∈ binding_keys -> action_fields object a scope = Ok object' ->
  get object' key = get object key.
Proof.
  intros Hkey. assert (forall k, k ∈ ["count"; "button"; "text"; "delay_ms"; "value"; "key";
    "modifiers"; "keys"] -> k ∉ binding_keys) as Hother by (unfold binding_keys; set_solver).
  unfold action_fields. cbv zeta.
  repeat match goal with
  | |- (if ?b then _ else _) = Ok _ -> _ => destruct b
  end.
  1: { destruct scope; [|intros [= <-]; by apply insert_xy_binding].
       intros H. rewrite (map_window_cursor_binding _ _ _ _ Hkey H).
       by apply insert_xy_binding. }
  all: intros [= <-].
  all: repeat first
    [ done
    | rewrite insert_xy_binding by done
    | rewrite insert_window_xy_binding by done
    | rewrite insert_scroll_binding by done
    | rewrite drag_arguments_binding by done
    | rewrite set_action_field_ne by (done || apply Hother; set_solver)
    | rewrite set_some_action_field_ne by (done || apply Hother; set_solver)
    | case_match ].
Qed.

Lemma locate_element_binding object a scope object' key :
  key ∈ binding_keys -> is_object object = true -> locate_element object a scope = Ok object' ->
  get object' key = get object key.
Proof.
  intros Hkey Hobj. unfold locate_element. destruct (negb _); [by intros [= <-]|].
  destruct (CA.element_token a).
  - intros [= <-]. by apply binding_key_cases in Hkey as [->|[->|[->| ->]]]; lookup_fields.
  - destruct (is_some _); [done|]. by intros [= <-].
Qed.

Lemma locate_element_keeps object a target object' key :
  key ∈ ["direction"; "amount"; "text"] ->
  locate_element object a (ActScope.Window target) = Ok object' ->
  get object' key = get object key.
Proof.
  intros Hkey. unfold locate_element. simpl. destruct (CA.element_token a).
  - intros [= <-]. rewrite !elem_of_cons in Hkey.
    destruct Hkey as [->|[->|[->|[]%not_elem_of_nil]]]; by lookup_fields.
  - destruct (is_some _); [done|]. by intros [= <-].
Qed.

(** A located element leaves no coordinates, and no index is left unresolved. *)
Lemma locate_element_token object a target object' :
  is_object object = true ->
  locate_element object a (ActScope.Window target) = Ok object' ->
  (CA.element_index a = None \/ is_Some (CA.element_token a))
  /\ forall token, CA.element_token a = Some token ->
     get object' "element_token" = Some (Str token)
     /\ get object' "x" = None /\ get object' "y" = None.
Proof.
  intros Hobj. unfold locate_element. simpl. destruct (CA.element_token a) as [t|].
  - intros [= <-]. split; [eauto|]. intros token [= <-]. split_and!; by lookup_fields.
  - destruct (is_some _) eqn:E; [done|]. intros [= <-]. reflect_all. split; [auto|done].
Qed.

Lemma locate_nothing object a scope :
  has_locator a = false -> locate_element object a scope = Ok object.
Proof.
  unfold has_locator, locate_element. intros H. reflect_all.
  repeat match goal with E : _ = None |- _ => rewrite E end. by case_match.
Qed.

Lemma scope_arguments_object a tool session scope :
  is_object (scope_arguments a tool session scope) = true.
Proof. unfold scope_arguments. repeat case_match; auto. Qed.

Lemma map_window_cursor_object object target object' :
  is_object object = true -> map_window_cursor_move object target = Ok object' ->
  is_object object' = true.
Proof.
  intros Hobj. unfold map_window_cursor_move. intros ([x y] & _ & H)%rbind_ok.
  apply guard_ok in H as [_ H]. injection H as <-. auto.
Qed.

Lemma action_fields_object object a scope object' :
  is_object object = true -> action_fields object a scope = Ok object' ->
  is_object object' = true.
Proof.
  intros Hobj. unfold action_fields. cbv zeta.
  repeat match goal with
  | |- (if ?b then _ else _) = Ok _ -> _ => destruct b
  end.
  1: { destruct scope; [|intros [= <-]; unfold insert_xy; auto].
       apply map_window_cursor_object. unfold insert_xy. auto. }
  all: intros [= <-]; unfold drag_arguments, insert_scroll_arguments, insert_window_xy, insert_xy;
    repeat case_match; auto 12.
Qed.

Lemma action_tool_move a target :
  action_tool a (ActScope.Window target) = Some "move_cursor" <-> CA.action a = "move".
Proof.
  unfold action_tool. cbv zeta. split.
  - intros H. repeat guard_step H. by reflect_all.
  - intros ->. vm_compute. reflexivity.
Qed.

Lemma move_fields object a target object' :
  CA.action a = "move" -> is_object object = true ->
  action_fields object a (ActScope.Window target) = Ok object' ->
  exists x y, CA.x a = Some x /\ CA.y a = Some y
    /\ is_finite x = true /\ is_finite y = true
    /\ f64_lt x f64_zero = false /\ f64_lt y f64_zero = false
    /\ f64_le (f64_of_Z (bound target 2)) x = false
    /\ f64_le (f64_of_Z (bound target 3)) y = false
    /\ get object' "x" = Some (json_f64 (f64_add (f64_of_Z (bound target 0)) x))
    /\ get object' "y" = Some (json_f64 (f64_add (f64_of_Z (bound target 1)) y)).
Proof.
  intros Ha Hobj. unfold action_fields. rewrite Ha. cbv zeta.
  rewrite (bool_decide_eq_true_2 ("move" = "move")) by done.
  unfold map_window_cursor_move, validate_window_cursor_move.
  set (o1 := insert_xy object a).
  assert (get o1 "x" = Some (json_opt_f64 (CA.x a))) as Hx
    by (unfold o1, insert_xy; by lookup_fields).
  assert (get o1 "y" = Some (json_opt_f64 (CA.y a))) as Hy
    by (unfold o1, insert_xy; by lookup_fields).
  assert (is_object o1 = true) as Ho1 by (unfold o1, insert_xy; auto).
  rewrite Hx, Hy. cbn [mbind option_bind]. intros ([x y] & H & Hm)%rbind_ok.
  apply rbind_ok in H as (x' & Hx'%ok_or_ok & H).
  apply rbind_ok in H as (y' & Hy'%ok_or_ok & H). rewrite !guard_ok in H. reflect_all.
  match goal with H : Ok _ = Ok _ |- _ => injection H as -> -> end.
  apply guard_ok in Hm as [Hin Hm]. injection Hm as <-. reflect_all.
  exists x, y. unfold json_opt_f64, json_f64 in Hx', Hy'.
  destruct (CA.x a) as [ax|]; [|done]. destruct (CA.y a) as [ay|]; [|done].
  destruct (is_finite ax) eqn:Efx; [|done]. destruct (is_finite ay) eqn:Efy; [|done].
  simpl in Hx', Hy'. simplify_eq. split_and!; try done; by lookup_fields.
Qed.

Lemma scroll_fields object a scope object' :
  CA.action a = "scroll" -> is_object object = true -> get object "amount" = None ->
  validate_scroll a = Ok tt -> action_fields object a scope = Ok object' ->
  exists direction, direction ∈ ["left"; "right"; "up"; "down"]
    /\ get object' "direction" = Some (Str direction)
    /\ (get object' "amount" = None
        \/ exists n, 1 <= n <= MAX_SCROLL_AMOUNT
           /\ get object' "amount" = Some (Number (PosInt n))).
Proof.
  intros Ha Hobj Hnone Hv. unfold action_fields. rewrite Ha. cbv zeta.
  change (bool_decide ("scroll" ∈ _)) with false. simpl. intros [= <-].
  unfold validate_scroll in Hv. cbv zeta in Hv. open_ok.
  unfold insert_scroll_arguments. set (o := insert_xy object a).
  assert (get o "amount" = None) as Hno by (unfold o, insert_xy; by lookup_fields).
  assert (is_object o = true) as Ho by (unfold o, insert_xy; auto).
  unfold unsigned_abs, MAX_SCROLL_AMOUNT in *. reflect_all.
  set (h := unwrap_or (CA.scroll_x a) 0) in *. set (v := unwrap_or (CA.scroll_y a) 0) in *.
  assert (Z.abs h <= 50 /\ Z.abs v <= 50) as [Hh Hvb] by (destruct (Z.eqb_spec h 0); simpl in *; lia).
  assert (forall d n, d ∈ ["left"; "right"; "up"; "down"] -> n <= 50 ->
    let out := set_some
      (if 0 <? n then set_index (set_index o "direction" (Str d)) "amount" (Number (PosInt n))
       else set_index o "direction" (Str d)) "by" Str (CA.scroll_by a) in
    exists direction, direction ∈ ["left"; "right"; "up"; "down"]
      /\ get out "direction" = Some (Str direction)
      /\ (get out "amount" = None
          \/ exists n, 1 <= n <= 50 /\ get out "amount" = Some (Number (PosInt n)))) as Hout.
  { intros d n Hd Hn. cbv zeta. exists d. split; [done|]. destruct (Z.ltb_spec 0 n).
    - split; [by lookup_fields|]. right. exists n. split; [lia | by lookup_fields].
    - split; [by lookup_fields|]. left. by lookup_fields. }
  destruct (Z.ltb_spec h 0); [|destruct (Z.ltb_spec 0 h); [|destruct (Z.ltb_spec v 0);
    [|destruct (Z.ltb_spec 0 v)]]]; apply Hout; try lia; set_solver.
Qed.

Lemma text_fields object a scope object' :
  CA.action a ∈ ["type"; "type_chars"] -> is_object object = true ->
  action_fields object a scope = Ok object' ->
  get object' "text" = Some (Str (unwrap_or (CA.text a) "")).
Proof.
  intros Ha Hobj. unfold action_fields. cbv zeta.
  rewrite !elem_of_cons in Ha. destruct Ha as [Ha|[Ha|[]%not_elem_of_nil]]; rewrite Ha;
    repeat match goal with |- context [bool_decide (?s ∈ _)] =>
      change (bool_decide (s ∈ _)) with false end; simpl; intros [= <-];
    unfold insert_window_xy; repeat case_match; by lookup_fields.
Qed.

Definition KNOWN_TOOLS : list string :=
  ["click"; "drag"; "scroll"; "type_text"; "set_value"; "press_key"; "hotkey"; "move_cursor"].

Lemma action_tool_known a scope tool : action_tool a scope = Some tool -> tool ∈ KNOWN_TOOLS.
Proof. unfold action_tool, KNOWN_TOOLS. intros H. repeat guard_step H; set_solver. Qed.

Lemma validate_action_text a text :
  validate_action a = Ok tt -> CA.text a = Some text -> utf16_count text <= MAX_TEXT_UTF16_UNITS.
Proof.
  unfold validate_action. cbv zeta. intros H Ht.
  do 5 (apply rbind_ok in H as (? & _ & H)). apply rbind_ok in H as (? & H & _).
  apply reject_unit in H. rewrite Ht in H. simpl in H. by apply Z.ltb_ge in H.
Qed.

Lemma validate_action_scroll a :
  validate_action a = Ok tt -> CA.action a = "scroll" -> validate_scroll a = Ok tt.
Proof.
  unfold validate_action. cbv zeta. intros H Ha.
  do 10 (apply rbind_ok in H as (? & _ & H)). apply rbind_ok in H as ([] & H & _).
  by rewrite Ha in H.
Qed.

Lemma validate_action_requires_text a :
  validate_action a = Ok tt -> CA.action a ∈ ["type"; "type_chars"] -> is_Some (CA.text a).
Proof.
  unfold validate_action. cbv zeta. intros H Ha.
  do 13 (apply rbind_ok in H as (? & _ & H)). apply rbind_ok in H as ([] & Hchars & H).
  apply rbind_ok in H as (? & Htype & _). apply reject_unit in Htype.
  rewrite !elem_of_cons in Ha. destruct Ha as [Ha|[Ha|[]%not_elem_of_nil]]; rewrite Ha in *.
  - simpl in Htype. by reflect_all.
  - unfold validate_type_chars in Hchars. simpl in Hchars.
    apply rbind_ok in Hchars as (? & Hn & _). apply reject_unit in Hn. by reflect_all.
Qed.

(** The stages of a command. *)
Lemma driver_action_command_ok a session scope cmd :
  driver_action_command a session scope = Ok cmd ->
  exists tool o1 o2, action_tool a scope = Some tool
    /\ (CA.action a ∈? ["move"; "drag"]) && has_locator a = false
    /\ action_fields (scope_arguments a tool session scope) a scope = Ok o1
    /\ locate_element o1 a scope = Ok o2
    /\ cmd = {| Command.tool := tool; Command.arguments := o2 |}.
Proof.
  intros (? & _ & H)%rbind_ok. apply rbind_ok in H as (tool & Htool%ok_or_ok & H).
  apply rbind_ok in H as (? & Hloc%reject_unit & H).
  apply rbind_ok in H as (o1 & Hf & H). apply rbind_ok in H as (o2 & Hl & H).
  injection H as <-. by exists tool, o1, o2.
Qed.

(** C36: a validated action becomes a driver command that cannot leave its window or
    its limits.  The command names one of the driver's known tools and carries the
    session it was built for.  Except for the cursor, it is bound to the process and
    the window of the target and to an explicit delivery mode; a cursor move stays
    inside the window's frame and is translated by its origin.  A located element is
    sent as its token alone, without coordinates, and an unresolved element index is
    never sent.  A scroll has one direction and at most 50 steps, and typed text is
    the action's text and at most 4096 UTF-16 units. *)
Theorem window_command_is_bound_and_bounded a session target cmd :
  validate_action a = Ok tt -> action_arguments a session target = Ok cmd ->
  let args := Command.arguments cmd in
  Command.tool cmd ∈ KNOWN_TOOLS
  /\ get args "session" = Some (Str session)
  /\ (Command.tool cmd <> "move_cursor" ->
      get args "pid" = Some (Number (PosInt (Target.pid target)))
      /\ get args "window_id" = Some (Number (PosInt (Target.window_id target)))
      /\ get args "delivery_mode"
         = Some (Str (unwrap_or (CA.delivery_mode a) "background")))
  /\ (Command.tool cmd = "move_cursor" -> exists x y, CA.x a = Some x /\ CA.y a = Some y
      /\ f64_lt x f64_zero = false /\ f64_lt y f64_zero = false
      /\ f64_le (f64_of_Z (bound target 2)) x = false
      /\ f64_le (f64_of_Z (bound target 3)) y = false
      /\ get args "x" = Some (json_f64 (f64_add (f64_of_Z (bound target 0)) x))
      /\ get args "y" = Some (json_f64 (f64_add (f64_of_Z (bound target 1)) y)))
  /\ (CA.element_index a = None \/ is_Some (CA.element_token a))
  /\ (forall token, CA.element_token a = Some token ->
      get args "element_token" = Some (Str token)
      /\ get args "x" = None /\ get args "y" = None)
  /\ (CA.action a = "scroll" -> exists direction,
      direction ∈ ["left"; "right"; "up"; "down"]
      /\ get args "direction" = Some (Str direction)
      /\ (get args "amount" = None \/ exists n, 1 <= n <= MAX_SCROLL_AMOUNT
          /\ get args "amount" = Some (Number (PosInt n))))
  /\ (CA.action a ∈ ["type"; "type_chars"] -> exists text, CA.text a = Some text
      /\ get args "text" = Some (Str text) /\ utf16_count text <= MAX_TEXT_UTF16_UNITS).
Proof.
  intros Hv (tool & o1 & o2 & Htool & Hloc & Hf & Hl & ->)%driver_action_command_ok.
  cbn [Command.tool Command.arguments]. set (scope := ActScope.Window target) in *.
  set (o0 := scope_arguments a tool session scope) in *.
  assert (is_object o0 = true) as Ho0 by apply scope_arguments_object.
  assert (is_object o1 = true) as Ho1 by (by eapply action_fields_object).
  assert (forall k, k ∈ binding_keys -> get o2 k = get o0 k) as Hbind.
  { intros k Hk. rewrite (locate_element_binding _ _ _ _ _ Hk Ho1 Hl).
    by apply (action_fields_binding _ _ _ _ _ Hk Hf). }
  destruct (locate_element_token _ _ _ _ Ho1 Hl) as [Hindex Htoken].
  split_and!; try done.
  - by eapply action_tool_known.
  - rewrite Hbind by (unfold binding_keys; set_solver). unfold o0, scope_arguments.
    simpl. case_match; by lookup_fields.
  - intros Hmove. rewrite !Hbind by (unfold binding_keys; set_solver).
    unfold o0, scope_arguments. simpl. rewrite bool_decide_eq_false_2 by done.
    split_and!; by lookup_fields.
  - intros ->. apply action_tool_move in Htool as Ha.
    destruct (move_fields _ _ _ _ Ha Ho0 Hf) as (px & py & ? & ? & _ & _ & ? & ? & ? & ? & Hx & Hy).
    exists px, py. split_and!; try done.
    all: rewrite locate_nothing in Hl by (by rewrite Ha in Hloc); by injection Hl as <-.
  - intros Ha. destruct (scroll_fields _ _ _ _ Ha Ho0 ltac:(unfold o0, scope_arguments;
      simpl; case_match; by lookup_fields) (validate_action_scroll _ Hv Ha) Hf)
      as (d & Hd & Hdir & Ham).
    exists d. rewrite (locate_element_keeps _ _ _ _ "direction" ltac:(set_solver) Hl).
    rewrite (locate_element_keeps _ _ _ _ "amount" ltac:(set_solver) Hl). eauto.
  - intros Ha. destruct (validate_action_requires_text _ Hv Ha) as [text Ht].
    exists text. rewrite (locate_element_keeps _ _ _ _ "text" ltac:(set_solver) Hl).
    rewrite (text_fields _ _ _ _ Ha Ho0 Hf), Ht. split_and!; try done.
    by eapply validate_action_text.
Qed.

(** *** A scroll over an element *)

Definition sample_scroll : CA.ComputerUseAction := {|
  CA.action := "scroll"; CA.observation_id := None; CA.element_index := None;
  CA.element_token := Some "tok"; CA.delivery_mode := None; CA.input_backend_id := None;
  CA.x := None; CA.y := None; CA.button := None; CA.scroll_x := None;
  CA.scroll_y := Some (-3); CA.scroll_by := Some "line"; CA.path := []; CA.text := None;
  CA.delay_ms := None; CA.duration_ms := None; CA.steps := None;
  CA.type_chars_only := false; CA.keys := []; CA.modifiers := [] |}.

Lemma window_command_is_bound_and_bounded_witness :
  exists cmd, action_arguments sample_scroll "s" sample_window = Ok cmd
    /\ get (Command.arguments cmd) "session" = Some (Str "s")
    /\ get (Command.arguments cmd) "amount" = Some (Number (PosInt 3)).
Proof.
  destruct (action_arguments sample_scroll "s" sample_window) as [cmd|e] eqn:E;
    [|vm_compute in E; discriminate].
  exists cmd. split; [reflexivity|].
  assert (validate_action sample_scroll = Ok tt) as Hv by (vm_compute; reflexivity).
  split.
  - exact (proj1 (proj2 (window_command_is_bound_and_bounded
      sample_scroll "s" sample_window cmd Hv E))).
  - vm_compute in E. injection E as <-. vm_compute. reflexivity.
Defined.
