(* ===== verification/ExtensionInput.v ===== *)
(** * Browser extension observations ([crates/dcc-cua-host/src/extension_input.rs])

    A snapshot that the browser extension took for a task, and the actions a task may
    derive from it.  The digest of a text and URL parsing are parameters. *)

From S2P Require Import Prelude RustStr Json Errors Platform.

Module ExtensionObservation.
Record ExtensionObservation : Type := {
  provider_id : string;
  origin : string;
  snapshot : value;
  observed_at : Z;
}.
End ExtensionObservation.

Module ExtObs := ExtensionObservation.

Definition ext_refused (message : string) : HostError.HostError := HostError.Protocol message.

(** [ref] of a node, when it is an identity. *)
Definition node_id (node : value) : option string :=
  match as_str node.["ref"] with
  | Some id => if negb (str_is_empty id) && (str_len id <=? 128) then Some id else None
  | None => None
  end.

Fixpoint collect_ids (nodes : list value) (ids : gset string) : hresult (gset string) :=
  match nodes with
  | [] => Ok ids
  | node :: nodes =>
      let? id := ok_or (node_id node) (ext_refused "invalid extension ref") in
      if bool_decide (id ∈ ids) then Err (ext_refused "duplicate extension ref")
      else collect_ids nodes ({[id]} ∪ ids)
  end.

Definition new_extension_observation (provider_id origin : string) (snapshot : value)
    (now : Z) : hresult ExtObs.ExtensionObservation :=
  let? refs := ok_or (as_array snapshot.["refs"])
    (ext_refused "extension snapshot omitted refs") in
  if (300 <? len refs)
     || (as_str snapshot.["document"].["origin"] != Some origin)
     || is_none_or (fun id => str_is_empty id || (128 <? str_len id))
          (as_str snapshot.["snapshot_id"])
     || is_none_or str_is_empty (as_str snapshot.["document"].["id"])
  then Err (ext_refused "invalid extension snapshot identity")
  else
    let? _ := collect_ids refs ∅ in
    Ok {| ExtObs.provider_id := provider_id; ExtObs.origin := origin;
          ExtObs.snapshot := snapshot; ExtObs.observed_at := now |}.

Section Action.
Context `{P : Platform} (sha256_hex : string -> string).

Definition navigation_action (origin provider : string) (params : value) : hresult value :=
  match as_object params with
  | Some object =>
      if negb (len object =? 2)
      then Err (ext_refused "navigation accepts only snapshot_id and url")
      else match field object "url" ≫= as_str with
      | None => Err (ext_refused "navigation requires a bounded URL")
      | Some target =>
          if str_is_empty target || (2048 <? str_len target)
          then Err (ext_refused "navigation requires a bounded URL")
          else
            let? url := ok_or (url_parse target)
              (ext_refused "navigation requires an absolute URL") in
            if negb (Url.scheme url ∈? ["http"; "https"])
               || negb (str_is_empty (Url.username url))
               || is_some (Url.password url)
               || (Url.origin_ascii_serialization url != origin)
            then Err (ext_refused
              "navigation must remain in the exact allowed origin without credentials")
            else Ok (Object
              [("action", Str "browser_extension_navigate");
               ("input_kind", Str "browser");
               ("authorization_category", Str "external_effect");
               ("browser_origin", Str origin);
               ("snapshot_id", params.["snapshot_id"]);
               ("provider_id", Str provider);
               ("target_url_sha256", Str (sha256_hex target))])
      end
  | None => Err (ext_refused "navigation accepts only snapshot_id and url")
  end.

Definition observed_node (self : ExtObs.ExtensionObservation) (params : value)
    : option value :=
  match as_array (ExtObs.snapshot self).["refs"] with
  | Some refs => List.find (fun node => value_eqb node.["ref"] params.["ref"]) refs
  | None => None
  end.

Definition node_is_actionable (node : value) (method : string) : bool :=
  is_some_and (existsb (fun action => is_str action method)) (as_array node.["actions"])
  && is_str node.["visibility"] "in_viewport"
  && is_bool node.["states"].["disabled"] false.

Definition extension_action (self : ExtObs.ExtensionObservation)
    (now : Z) (provider origin method : string) (params : value) : hresult value :=
  if (ExtObs.provider_id self != provider) || (ExtObs.origin self != origin)
     || (30000 <? now - ExtObs.observed_at self)
     || negb (value_eqb params.["snapshot_id"] (ExtObs.snapshot self).["snapshot_id"])
  then Err (ext_refused "stale extension observation; take a fresh snapshot")
  else if method == "navigate" then navigation_action origin provider params
  else
    let? node := ok_or (observed_node self params)
      (ext_refused "extension ref was not observed by this task") in
    if negb (node_is_actionable node method)
    then Err (ext_refused "extension control is not actionable")
    else if (method == "type")
            && (negb (is_bool node.["states"].["sensitive"] false)
                || negb (is_bool params.["replace"] true)
                || is_none_or (fun text => 4096 <? chars_count text)
                     (as_str params.["text"]))
    then Err (ext_refused
      "extension typing requires an explicitly non-sensitive control and bounded text")
    else Ok (Object
      [("action", Str method);
       ("input_kind", Str "semantic");
       ("authorization_category",
        Str (if method == "click" then "external_effect" else "content_change"));
       ("ref", params.["ref"]);
       ("snapshot_id", params.["snapshot_id"]);
       ("provider_id", Str provider);
       ("browser_origin", Str origin);
       ("text_sha256",
        match as_str params.["text"] with
        | Some text => Str (sha256_hex text)
        | None => Null
        end)]).
End Action.

(** ** Properties *)

Lemma value_eqb_str v s : value_eqb v (Str s) = true -> v = Str s.
Proof. destruct v; simpl; try done. intros H. reflect_all. by subst. Qed.
Lemma value_eqb_str_l v s : value_eqb (Str s) v = true -> v = Str s.
Proof. destruct v; simpl; try done. intros H. reflect_all. by subst. Qed.

Lemma collect_ids_unique nodes ids ids' :
  collect_ids nodes ids = Ok ids' ->
  exists names, Forall2 (fun node id => node_id node = Some id) nodes names
    /\ NoDup names /\ forall id, id ∈ names -> id ∉ ids.
Proof.
  revert ids. induction nodes as [|node nodes IH]; intros ids H.
  - exists []. split_and!; [constructor | constructor | set_solver].
  - cbn [collect_ids] in H. apply rbind_ok in H as (id & Hid%ok_or_ok & H).
    case_bool_decide as Hin; [done|]. apply IH in H as (names & Hn & Hd & Hout).
    exists (id :: names). split_and!.
    + by constructor.
    + constructor; [|done]. intros Hid'%Hout. set_solver.
    + intros x [->|Hx]%elem_of_cons; [done|]. apply Hout in Hx. set_solver.
Qed.

(** One control of the snapshot carries the reference, and no other does. *)
Definition observed_control (snapshot params node : value) : Prop :=
  exists refs i id, as_array snapshot.["refs"] = Some refs /\ refs !! i = Some node
    /\ node.["ref"] = Str id /\ params.["ref"] = Str id
    /\ forall j node', refs !! j = Some node' -> node'.["ref"] = Str id -> j = i.

(** A navigation names nothing but the snapshot and an address of the same origin. *)
Definition same_origin_navigation `{P : Platform} (origin : string) (params : value) : Prop :=
  exists fields target url, params = Object fields /\ len fields = 2
    /\ params.["url"] = Str target /\ url_parse target = Some url
    /\ Url.scheme url ∈ ["http"; "https"] /\ Url.username url = ""
    /\ Url.password url = None /\ Url.origin_ascii_serialization url = origin.

Lemma navigation_action_ok `{P : Platform} sha origin provider params v :
  navigation_action sha origin provider params = Ok v -> same_origin_navigation origin params.
Proof.
  unfold navigation_action. destruct (as_object params) as [fields|] eqn:Ho; [|done].
  destruct params; try done. injection Ho as ->. intros H. guard_step H.
  destruct (field fields "url") as [w|] eqn:Hf; [|done]. simpl in H.
  destruct w as [| | |target| |]; try done. cbn [as_str] in H. guard_step H. open_ok.
  reflect_all.
  match goal with H : url_parse _ = Some ?u |- _ => rename u into url end.
  exists fields, target, url. unfold index. simpl. rewrite Hf. by split_and!.
Qed.

Lemma node_id_ref node id : node_id node = Some id -> node.["ref"] = Str id.
Proof.
  unfold node_id. destruct (as_str _) as [s|] eqn:E; [|done]. intros H. guard_step H.
  injection H as <-. by apply as_str_some.
Qed.

Lemma unique_control refs ids params node :
  collect_ids refs ∅ = Ok ids ->
  List.find (fun node => value_eqb node.["ref"] params.["ref"]) refs = Some node ->
  exists i id, refs !! i = Some node /\ node.["ref"] = Str id /\ params.["ref"] = Str id
    /\ forall j node', refs !! j = Some node' -> node'.["ref"] = Str id -> j = i.
Proof.
  intros (names & Hnames & Hnd & _)%collect_ids_unique [Hin Heq]%List.find_some.
  apply list_elem_of_In, list_elem_of_lookup in Hin as [i Hi].
  destruct (Forall2_lookup_l _ _ _ _ _ Hnames Hi) as (id & Hid & Hnode).
  apply node_id_ref in Hnode. rewrite Hnode in Heq. apply value_eqb_str_l in Heq.
  exists i, id. split_and!; try done. intros j node' Hj Href.
  destruct (Forall2_lookup_l _ _ _ _ _ Hnames Hj) as (id' & Hid' & Hnode').
  apply node_id_ref in Hnode'. rewrite Hnode' in Href. injection Href as ->.
  by eapply NoDup_lookup.
Qed.

(** an extension action is about what was observed.  When the Host lets a task
    act through the browser extension, the snapshot it names was taken at most 30
    seconds ago, by the same provider, in a document of the same origin.  A navigation
    gives an address of that origin, without credentials and without further
    parameters.  Every other action is aimed at the one control of the snapshot that
    carries the reference; that control was in the viewport, enabled and offered the
    action; and text only ever replaces the content of a control known not to be
    sensitive, with at most 4096 characters. *)
Theorem extension_actions_are_observed `{P : Platform} sha p o snapshot taken obs now
    provider origin method params v :
  new_extension_observation p o snapshot taken = Ok obs ->
  extension_action sha obs now provider origin method params = Ok v ->
  provider = p /\ origin = o /\ now - taken <= 30000
  /\ snapshot.["document"].["origin"] = Str origin
  /\ (exists id, id <> "" /\ snapshot.["snapshot_id"] = Str id
                 /\ params.["snapshot_id"] = Str id)
  /\ (method = "navigate" -> same_origin_navigation origin params)
  /\ (method <> "navigate" -> exists node,
      observed_control snapshot params node /\ node_is_actionable node method = true
      /\ (method = "type" -> node.["states"].["sensitive"] = Bool false
          /\ params.["replace"] = Bool true
          /\ exists text, params.["text"] = Str text /\ chars_count text <= 4096)).
Proof.
  unfold new_extension_observation. intros (refs & Hrefs%ok_or_ok & H)%rbind_ok.
  apply guard_ok in H as [Hshape H]. apply rbind_ok in H as (ids & Hids & H).
  injection H as <-. unfold extension_action, observed_node. simpl.
  intros [Hguard H]%guard_ok. apply orb_false_iff in Hguard as [Hguard Hsnap].
  apply orb_false_iff in Hshape as [Hshape _]. reflect_all. subst.
  match goal with H : as_str snapshot.["snapshot_id"] = Some ?i |- _ => rename i into id end.
  match goal with H : as_str _ = Some id |- _ => apply as_str_some in H as Hid end.
  rewrite Hid in Hsnap. apply value_eqb_str in Hsnap. reflect_all.
  split_and!; try done.
  - by exists id.
  - intros ->. simpl in H. by eapply navigation_action_ok.
  - intros Hm. rewrite bool_decide_eq_false_2, Hrefs in H by done.
    apply rbind_ok in H as (node & Hnode%ok_or_ok & H).
    apply guard_ok in H as [Hact H]. apply guard_ok in H as [Htype _].
    exists node. destruct (unique_control _ _ _ _ Hids Hnode) as (i & nid & Hi & ? & ? & Hu).
    split_and!; [by exists refs, i, nid | by apply negb_false_iff |].
    intros ->. simpl in Htype. reflect_all. split_and!; eauto.
    match goal with H : as_str params.["text"] = Some ?t |- _ => exists t; split; [|lia] end.
    by apply as_str_some.
Qed.

Definition sample_extension_snapshot : value :=
  Object [("snapshot_id", Str "s1");
          ("document", Object [("id", Str "d1"); ("origin", Str "https://a")]);
          ("refs", Array [Object
            [("ref", Str "r1"); ("visibility", Str "in_viewport");
             ("actions", Array [Str "click"; Str "type"]);
             ("states", Object [("disabled", Bool false); ("sensitive", Bool false)])]])].

Definition sample_extension_typing : value :=
  Object [("snapshot_id", Str "s1"); ("ref", Str "r1"); ("replace", Bool true);
          ("text", Str "hello")].

Definition unwrap_ok (r : hresult value) : value :=
  match r with Ok v => v | Err _ => Null end.

Lemma extension_actions_are_observed_witness :
  sample_extension_snapshot.["document"].["origin"] = Str "https://a"
  /\ exists text, sample_extension_typing.["text"] = Str text /\ chars_count text <= 4096.
Proof.
  destruct (extension_actions_are_observed (P := sample_platform) (fun s => s)
    "p" "https://a" sample_extension_snapshot 1000
    {| ExtObs.provider_id := "p"; ExtObs.origin := "https://a";
       ExtObs.snapshot := sample_extension_snapshot; ExtObs.observed_at := 1000 |}
    31000 "p" "https://a" "type" sample_extension_typing
    (unwrap_ok (extension_action (P := sample_platform) (fun s => s)
      {| ExtObs.provider_id := "p"; ExtObs.origin := "https://a";
         ExtObs.snapshot := sample_extension_snapshot; ExtObs.observed_at := 1000 |}
      31000 "p" "https://a" "type" sample_extension_typing)))
    as (_ & _ & _ & H1 & _ & _ & H2); [vm_compute; reflexivity..|].
  destruct (H2 ltac:(discriminate)) as (node & _ & _ & H3).
  exact (conj H1 (proj2 (proj2 (H3 eq_refl)))).
Defined.
