(* ===== verification/BrowserEvidence.v ===== *)
(** * Evidence of the typed browser adapter ([crates/dcc-cua-browser/src/lib.rs])

    What the adapter checks before it sends a browser request to the desktop driver
    and what it accepts of the driver's answer: the decoded result, the identity and
    origin of a snapshot, the ancestor scope of a semantic page, the receipt of a
    navigation, and the artifact of a download.  Parsing, the file system, base64 and
    the digest are parameters. *)

From S2P Require Import Prelude Records RustStr Json Protocol Errors TargetPolicy Platform.
From S2P Require Import Request.

(** ** Parameters *)

(** The parts of [std::fs::Metadata] that are observed. *)
Module FileMetadata.
Record FileMetadata : Type := {
  is_symlink : bool;
  is_file : bool;
  is_dir : bool;
  length : Z;
}.
End FileMetadata.

(** The results of [File::open] and of the reads that follow: a read yields bytes,
    or fails. *)
Definition reads : Type := list (option string).

Class BrowserFiles : Type := {
  (** [std::fs::symlink_metadata] and [std::fs::canonicalize]. *)
  file_metadata : string -> option FileMetadata.FileMetadata;
  canonicalize : string -> option string;
  open_file : string -> option reads;
  (** The hexadecimal SHA-256 of the bytes, and [Url::from_file_path]. *)
  sha256_hex : string -> string;
  url_from_file_path : string -> option string;
  (** The standard base64 alphabet, with the error's message. *)
  base64_decode : string -> result string string;
}.

(** ** Limits and refusals *)

Definition MAX_URL_CHARS : Z := 4096.
Definition MAX_TEXT_CHARS : Z := 4096.
Definition MAX_UPLOAD_FILES : Z := 32.
Definition DOWNLOAD_MAGIC_SNIFF_BYTES : Z := 8192.

Definition invalid (message : string) : cerror :=
  ComputerUseError.new ComputerUseErrorCode.InvalidAction message.
Definition unavailable (message : string) : cerror :=
  ComputerUseError.new ComputerUseErrorCode.BackendUnavailable message.
Definition stale (message : string) : cerror :=
  ComputerUseError.new ComputerUseErrorCode.StaleObservation message.

(** [json!(option)] where an absent value is null. *)
Definition opt_str (o : option string) : value :=
  match o with Some s => Str s | None => Null end.
(** ** The driver's answer *)

Module BrowserImage.
Record BrowserImage : Type := { mime_type : string; data : string }.
End BrowserImage.

Module BrowserResult.
Record BrowserResult : Type := {
  answer : value;
  images : list BrowserImage.BrowserImage;
}.

#[global] Instance BrowserResult_settable : Settable BrowserResult :=
  fun r => {| answer := answer r; images := images r |}.
End BrowserResult.

Module BResult := BrowserResult.

Section Answers.
Context `{BF : BrowserFiles}.

(** One item of [content]: an image gives up its data. *)
Definition take_image (item : value) : cresult (value * option BrowserImage.BrowserImage) :=
  if negb (is_str item.["type"] "image") then Ok (item, None)
  else
    let mime_type := unwrap_or (as_str item.["mimeType"]) "image/png" in
    let? data := ok_or (as_str item.["data"])
      (unavailable "CUA browser image omitted base64 data") in
    let? data := rmap_err (fun error =>
        unavailable ("CUA browser image is not valid base64: " +:+ error))
      (base64_decode data) in
    if MAX_BINARY_FRAME_BYTES <? str_len data
    then Err (ComputerUseError.new ComputerUseErrorCode.CaptureFailed
      "CUA browser image exceeds the 64 MiB frame limit")
    else Ok (set_index item "data" Null,
             Some {| BrowserImage.mime_type := mime_type; BrowserImage.data := data |}).

Fixpoint take_images (items : list value)
    : cresult (list value * list BrowserImage.BrowserImage) :=
  match items with
  | [] => Ok ([], [])
  | item :: items =>
      let? (item, image) := take_image item in
      let? (items, images) := take_images items in
      Ok (item :: items, option_list image ++ images)
  end.

(** The mutable index of [value["content"]] adds a missing field, and panics on an
    answer that is neither an object nor null. *)
Definition from_value (answer : value) : option (cresult BResult.BrowserResult) :=
  let with_content content := set_index answer "content" content in
  match answer with
  | Null | Object _ =>
      Some match answer.["content"] with
      | Array items =>
          let? (items, images) := take_images items in
          Ok {| BResult.answer := with_content (Array items); BResult.images := images |}
      | content =>
          Ok {| BResult.answer := with_content content; BResult.images := [] |}
      end
  | _ => None
  end.

(** The guidance of a finished preparation names this crate's own operation. *)
Definition translate_next_action (answer : value) : value :=
  let structured := answer.["structuredContent"] in
  let attachment := structured.["attachment"] in
  if negb (is_bool answer.["isError"] true)
     && is_str structured.["status"] "ok"
     && is_bool structured.["prepared"] true
     && is_null structured.["refusal"]
     && is_str attachment.["kind"] "existing_profile"
     && is_str attachment.["next_action"] "get_browser_state"
  then set_index answer "structuredContent"
         (set_index structured "attachment"
           (set_index attachment "next_action" (Str "browser_snapshot")))
  else answer.

Definition from_prepare_value (answer : value) : option (cresult BResult.BrowserResult) :=
  from_value (translate_next_action answer).
End Answers.

Definition structured_content (answer : value) : cresult value :=
  if is_object answer.["structuredContent"] then Ok answer.["structuredContent"]
  else Err (unavailable "CUA browser tool omitted structuredContent").

(** ** Snapshots *)

Definition browser_snapshot_id (answer : value) : option string :=
  or_else (as_str answer.["structuredContent"].["snapshot_id"])
    (as_str answer.["structuredContent"].["snapshot"].["id"]).

Definition browser_result_is_structured_refusal (answer : value) : cresult bool :=
  let? structured := structured_content answer in
  Ok (is_str structured.["status"] "refused" || negb (is_null structured.["refusal"])).

Definition publishes_snapshot_evidence (self : BResult.BrowserResult) : bool :=
  match structured_content (BResult.answer self) with
  | Ok structured =>
      is_str structured.["status"] "ok"
      && is_str structured.["mode"] "snapshot"
      && is_null structured.["refusal"]
      && is_some (browser_snapshot_id (BResult.answer self))
  | Err _ => false
  end.

Section Origins.
Context `{P : Platform}.

Definition web_scheme (scheme : string) : bool := scheme ∈? ["http"; "https"].

Definition valid_origin (origin : string) : bool :=
  is_some_and (fun url =>
      web_scheme (Url.scheme url)
      && (Url.origin_ascii_serialization url == origin)
      && (Url.path url == "/")
      && is_none (Url.query url)
      && is_none (Url.fragment url))
    (url_parse origin).

Definition browser_snapshot_origin (answer : value) (tab_id : string) : option string :=
  let structured := answer.["structuredContent"] in
  let explicit := as_str structured.["origin"] in
  if is_some_and valid_origin explicit then explicit
  else
    let tab_is tab := as_str tab.["tab_id"] == Some tab_id in
    let url :=
      or_else (as_str structured.["url"])
      (or_else (as_str structured.["snapshot"].["url"])
      (or_else
        (if tab_is structured then as_str structured.["page"].["url"] else None)
        (match as_array structured.["tabs"] with
         | Some tabs =>
             match List.find tab_is tabs with
             | Some tab => as_str tab.["url"]
             | None => None
             end
         | None => None
         end))) in
    match url ≫= url_parse with
    | Some parsed =>
        if web_scheme (Url.scheme parsed)
        then Some (Url.origin_ascii_serialization parsed) else None
    | None => None
    end.
End Origins.

(** ** Ancestor-scoped pages *)

Module PendingAncestorContinuation.
Record PendingAncestorContinuation : Type := {
  token : string;
  target_id : string;
  tab_id : string;
  snapshot_id : string;
  anchor : value;
}.
End PendingAncestorContinuation.

Module Pending := PendingAncestorContinuation.

Module AncestorScopeExpectation.
Inductive AncestorScopeExpectation : Type :=
| Initial (requested_ref role target_id tab_id : string)
| Continuation (pending : Pending.PendingAncestorContinuation)
| UntrackedContinuation (target_id tab_id : string).

Definition target_id (self : AncestorScopeExpectation) : string :=
  match self with
  | Initial _ _ target_id _ | UntrackedContinuation target_id _ => target_id
  | Continuation pending => Pending.target_id pending
  end.
Definition tab_id (self : AncestorScopeExpectation) : string :=
  match self with
  | Initial _ _ _ tab_id | UntrackedContinuation _ tab_id => tab_id
  | Continuation pending => Pending.tab_id pending
  end.
End AncestorScopeExpectation.

Module Expectation := AncestorScopeExpectation.

Module ValidatedAncestorScope.
Record ValidatedAncestorScope : Type := {
  snapshot_id : string;
  anchor : value;
  continuation : option string;
}.
End ValidatedAncestorScope.

Module Validated := ValidatedAncestorScope.

Definition is_ascii_alphabetic (c : Z) : bool := is_ascii_upper c || is_ascii_lower c.

(** An ASCII accessibility role of 1 to 128 bytes.  Every byte of an ASCII string is
    a character, so the source's tests on bytes are tests on characters. *)
Definition valid_role (role : string) : bool :=
  negb (str_is_empty role)
  && (str_len role <=? 128)
  && all_chars (fun c => c <? 128) role
  && is_some_and is_ascii_alphabetic (head (chars role))
  && all_chars (fun c => is_ascii_alphanumeric c || (c =? 95) || (c =? 45)) role.

Definition validate_ancestor_scope_request (request : BSnapshot.BrowserSnapshotRequest)
    : cresult unit :=
  match BSnapshot.scope_ancestor_role request with
  | None => Ok tt
  | Some role =>
      if BSnapshot.snapshot_format request != "semantic_v2"
      then Err (invalid "scope_ancestor_role requires snapshot_format semantic_v2")
      else if is_none_or str_is_empty (BSnapshot.target_id request)
              || is_none_or str_is_empty (BSnapshot.tab_id request)
      then Err (invalid "scope_ancestor_role requires both target_id and tab_id")
      else if is_none_or str_is_empty (BSnapshot.scope_ref request)
              || is_none (BSnapshot.query request)
      then Err (invalid "scope_ancestor_role requires both scope_ref and query")
      else if is_some (BSnapshot.continuation request)
      then Err (invalid "scope_ancestor_role cannot be combined with continuation")
      else if negb (valid_role role)
      then Err (invalid
        "scope_ancestor_role must be an ASCII accessibility role of 1 to 128 bytes")
      else Ok tt
  end.

Definition browser_snapshot_args (request : BSnapshot.BrowserSnapshotRequest)
    : cresult value :=
  check? validate_ancestor_scope_request request in
  let args := Object
    [("snapshot_format", Str (BSnapshot.snapshot_format request));
     ("include_screenshot", Bool (BSnapshot.include_screenshot request))] in
  let args := set_some args "scope_ref" Str (BSnapshot.scope_ref request) in
  let args := set_some args "scope_ancestor_role" Str (BSnapshot.scope_ancestor_role request) in
  let args := set_some args "query" Str (BSnapshot.query request) in
  Ok (set_some args "continuation" Str (BSnapshot.continuation request)).

(** The legacy top-level identity may be absent, but may not contradict. *)
Definition legacy_snapshot_id_agrees (structured : value) (snapshot_id : string) : bool :=
  match get structured "snapshot_id" with
  | None | Some Null => true
  | Some (Str legacy_id) => legacy_id == snapshot_id
  | Some _ => false
  end.

(** A continuation this session no longer tracks may only be an unscoped page. *)
Definition validate_untracked_continuation (snapshot : value) : cresult unit :=
  if (get snapshot "scope" ≫= as_str) != Some "continuation"
  then Err (unavailable "CUA untracked continuation returned inconsistent scope evidence")
  else match get snapshot "scope_anchor" with
  | Some Null => Ok tt
  | Some anchor =>
      match get anchor "distance" ≫= as_u64 with
      | Some distance =>
          if distance =? 0 then Ok tt
          else Err (stale
            "ancestor-scoped continuation is no longer tracked by this Host session")
      | None =>
          Err (unavailable "CUA continuation returned malformed scope anchor evidence")
      end
  | None => Err (unavailable "CUA untracked continuation omitted scope anchor evidence")
  end.

(** The evidence of a scoped page; an untracked continuation never gets here. *)
Definition scope_evidence_matches (expected : Expectation.AncestorScopeExpectation)
    (scope : option string) (snapshot_id : string) (anchor : value) : bool :=
  match expected with
  | Expectation.Initial requested_ref role _ _ =>
      (scope == Some "ancestor_subtree")
      && ((get anchor "requested_ref" ≫= as_str) == Some requested_ref)
      && ((get anchor "role" ≫= as_str) == Some role)
      && is_some_and (fun frame => frame ∈? ["main"; "iframe"; "oopif"])
           (get anchor "frame" ≫= as_str)
      && is_some_and (fun distance => 0 <? distance) (get anchor "distance" ≫= as_u64)
  | Expectation.Continuation pending =>
      (scope == Some "continuation")
      && (snapshot_id == Pending.snapshot_id pending)
      && value_eqb anchor (Pending.anchor pending)
  | Expectation.UntrackedContinuation _ _ => false
  end.

Definition is_untracked (expected : Expectation.AncestorScopeExpectation) : bool :=
  match expected with Expectation.UntrackedContinuation _ _ => true | _ => false end.
Definition same_token (expected : Expectation.AncestorScopeExpectation)
    (continuation : option string) : bool :=
  match expected with
  | Expectation.Continuation pending => continuation == Some (Pending.token pending)
  | _ => false
  end.

Definition next_continuation (snapshot : value) : cresult (option string) :=
  let refused := Err (unavailable
    "CUA ancestor-scoped snapshot returned an invalid continuation token") in
  match get snapshot "continuation" with
  | None | Some Null => Ok None
  | Some (Str token) => if str_is_empty token then refused else Ok (Some token)
  | Some _ => refused
  end.

Definition validate_ancestor_scope_response (answer : value)
    (expected : option Expectation.AncestorScopeExpectation)
    : cresult (option Validated.ValidatedAncestorScope) :=
  match expected with
  | None => Ok None
  | Some expected =>
      let? structured := structured_content answer in
      if negb (is_str structured.["status"] "ok") || negb (is_null structured.["refusal"])
      then Err (unavailable "CUA ancestor-scoped snapshot omitted a successful status")
      else
        let snapshot := structured.["snapshot"] in
        if negb (is_object snapshot)
        then Err (unavailable "CUA ancestor-scoped snapshot omitted snapshot evidence")
        else if (as_str structured.["target_id"] != Some (Expectation.target_id expected))
                || (as_str structured.["tab_id"] != Some (Expectation.tab_id expected))
                || ((get snapshot "format" ≫= as_str) != Some "semantic_v2")
        then Err (unavailable
          "CUA ancestor-scoped snapshot returned inconsistent target, tab, or format evidence")
        else match get snapshot "id" ≫= as_str with
        | None => Err (unavailable "CUA ancestor-scoped snapshot omitted its snapshot id")
        | Some snapshot_id =>
        if str_is_empty snapshot_id
        then Err (unavailable "CUA ancestor-scoped snapshot omitted its snapshot id")
        else if negb (legacy_snapshot_id_agrees structured snapshot_id)
        then Err (unavailable
          "CUA ancestor-scoped snapshot returned conflicting snapshot ids")
        else if is_untracked expected
        then check? validate_untracked_continuation snapshot in Ok None
        else
          let anchor := snapshot.["scope_anchor"] in
          if negb (is_object anchor)
          then Err (unavailable
            "CUA ancestor-scoped snapshot omitted scope_anchor evidence")
          else if negb (scope_evidence_matches expected
                          (get snapshot "scope" ≫= as_str) snapshot_id anchor)
          then Err (unavailable
            "CUA ancestor-scoped snapshot returned inconsistent scope evidence")
          else
            let? continuation := next_continuation snapshot in
            if same_token expected continuation
            then Err (unavailable
              "CUA ancestor-scoped continuation token was not rotated")
            else if is_some continuation
                    && ((get snapshot "complete" ≫= as_bool) != Some false)
            then Err (unavailable
              "CUA ancestor-scoped snapshot returned a continuation for a complete page")
            else Ok (Some {| Validated.snapshot_id := snapshot_id;
                             Validated.anchor := anchor;
                             Validated.continuation := continuation |})
        end
  end.

(** ** Navigation *)

Definition validate_url (url : string) : cresult unit :=
  if MAX_URL_CHARS <? chars_count url
  then Err (invalid "browser URL exceeds the 4096-character limit")
  else
    let lower := to_ascii_lowercase url in
    if negb (starts_with "http://" lower || starts_with "https://" lower
             || starts_with "about:" lower)
    then Err (invalid "browser_navigate accepts only http, https, and about URLs")
    else Ok tt.

Definition is_delivery_mode (mode : string) : bool := mode ∈? ["background"; "foreground"].

Definition validate_navigate_request (request : BNavigate.BrowserNavigateRequest)
    : cresult unit :=
  check? validate_url (BNavigate.url request) in
  if negb (is_none_or is_delivery_mode (BNavigate.delivery_mode request))
  then Err (invalid "browser_navigate delivery_mode must be background or foreground")
  else Ok tt.

Definition validate_foreground_navigation_readback (answer : value)
    (expected_target_id expected_tab_id : string) : cresult unit :=
  let? structured := structured_content answer in
  let exact_identity :=
    is_str structured.["status"] "ok"
    && is_str structured.["delivery_mode"] "foreground"
    && is_bool structured.["activated"] true
    && (as_str structured.["target_id"] == Some expected_target_id)
    && (as_str structured.["tab_id"] == Some expected_tab_id) in
  let exact_readback :=
    is_str structured.["visibility_state"] "visible"
    && is_some_and (fun state => state ∈? ["interactive"; "complete"])
         (as_str structured.["ready_state"])
    && is_some_and (fun url => starts_with "http://" url || starts_with "https://" url
                               || starts_with "about:" url)
         (as_str structured.["current_url"])
    && is_some (as_str structured.["title"])
    && is_some (as_str structured.["heading"]) in
  if negb exact_identity || negb exact_readback
  then Err (unavailable
    "foreground browser navigation omitted exact activated-tab readback")
  else Ok tt.

(** The receipt of a navigation whose completion the driver does not know. *)
Definition valid_unknown (structured : value) : bool :=
  match get structured "dispatched" with Some Null => true | _ => false end
  && is_str structured.["dispatch_state"] "unknown"
  && is_bool structured.["refs_invalidated"] true
  && is_bool structured.["activated"] false
  && is_str structured.["activation_state"] "not_started"
  && is_str structured.["readback_state"] "not_started"
  && is_str structured.["error"]
       "browser navigation completion is unknown; refresh browser state before retrying".

(** The failures the driver contract names: whether both delivery modes can have it,
    whether the navigation was dispatched, the states of the activation and of the
    readback, the code and its message. *)
Definition stable_failures : list (bool * (bool * string * string * string * string)) :=
  [(true, (false, "not_started", "not_started", "navigation_dispatch_failed",
           "browser navigation dispatch failed"));
   (true, (true, "not_started", "not_started", "navigation_rejected",
           "browser navigation was rejected"));
   (false, (true, "failed", "not_started", "target_activation_failed",
            "foreground target activation failed"));
   (false, (true, "succeeded", "failed", "navigation_identity_missing",
            "browser navigation did not return a frame identity"));
   (false, (true, "succeeded", "stale_document", "navigation_commit_not_observed",
            "foreground readback did not reach the dispatched navigation"));
   (false, (true, "succeeded", "failed", "foreground_readback_failed",
            "foreground browser readback failed"));
   (false, (true, "succeeded", "timeout", "foreground_readback_timeout",
            "foreground browser readback timed out"));
   (false, (true, "succeeded", "succeeded", "target_drift_after_navigation",
            "browser target identity changed after navigation"))].

Definition stable_failure (delivery_mode : string) (dispatched : bool)
    (activation_state readback_state error_code error : option string) : bool :=
  existsb (fun '(both, (d, a, r, c, e)) =>
      (delivery_mode ∈? (if both : bool then ["foreground"; "background"] else ["foreground"]))
      && Bool.eqb dispatched d && (activation_state == Some a) && (readback_state == Some r)
      && (error_code == Some c) && (error == Some e))
    stable_failures.

(** The branches of the decision for the statuses [ok] and [error]. *)
Definition completed_receipt (answer structured : value)
    (expected_target_id expected_tab_id : string) (foreground : bool) : cresult bool :=
  if negb (is_bool structured.["dispatched"] true)
     || negb (is_bool structured.["refs_invalidated"] true)
     || negb (is_bool structured.["activated"] foreground)
  then Err (unavailable
    "successful browser navigation receipt omitted completion evidence")
  else if foreground then
    check? validate_foreground_navigation_readback answer
             expected_target_id expected_tab_id in
    if negb (is_str structured.["activation_state"] "succeeded")
       || negb (is_str structured.["readback_state"] "succeeded")
    then Err (unavailable
      "successful foreground navigation receipt omitted completion states")
    else Ok true
  else if negb (is_str structured.["activation_state"] "not_requested")
          || negb (is_str structured.["readback_state"] "not_requested")
  then Err (unavailable
    "successful background navigation receipt claimed foreground completion")
  else Ok true.

Definition failed_receipt (structured : value) (expected_delivery_mode : string)
    : cresult bool :=
  if is_str structured.["error_code"] "navigation_completion_unknown" then
    if valid_unknown structured then Ok false
    else Err (unavailable
      "browser navigation returned a malformed unknown completion receipt")
  else
    let? dispatched := ok_or (as_bool structured.["dispatched"])
      (unavailable "failed browser navigation receipt omitted dispatch state") in
    let activation_state := as_str structured.["activation_state"] in
    let refs_match_dispatch :=
      as_bool structured.["refs_invalidated"] == Some dispatched in
    let activated_matches_state :=
      as_bool structured.["activated"]
      == option_map (fun state => state == "succeeded") activation_state in
    if negb refs_match_dispatch || negb activated_matches_state
       || negb (stable_failure expected_delivery_mode dispatched activation_state
                  (as_str structured.["readback_state"])
                  (as_str structured.["error_code"]) (as_str structured.["error"]))
    then Err (unavailable
      "browser navigation returned a malformed partial failure receipt")
    else Ok false.

Definition navigation_response_is_success (answer : value)
    (expected_target_id expected_tab_id expected_url expected_delivery_mode : string)
    : cresult bool :=
  let? structured := structured_content answer in
  let exact_identity :=
    (as_str structured.["target_id"] == Some expected_target_id)
    && (as_str structured.["tab_id"] == Some expected_tab_id)
    && (as_str structured.["url"] == Some expected_url)
    && (as_str structured.["delivery_mode"] == Some expected_delivery_mode) in
  if negb exact_identity
  then Err (unavailable
    "browser navigation receipt returned inconsistent target, tab, URL, or delivery mode")
  else if is_some (get structured "dispatch_state")
          && (negb (is_str structured.["status"] "error")
              || negb (is_str structured.["error_code"] "navigation_completion_unknown"))
  then Err (unavailable "browser navigation returned inconsistent dispatch evidence")
  else if is_str structured.["status"] "ok"
  then completed_receipt answer structured expected_target_id expected_tab_id
         (expected_delivery_mode == "foreground")
  else if is_str structured.["status"] "error"
  then failed_receipt structured expected_delivery_mode
  else Err (unavailable "browser navigation receipt omitted a deterministic status").

Definition copy_field (structured : value) (public : value) (key : string) : value :=
  set_index public key structured.[key].

Definition into_public_navigation_receipt (succeeded : bool) (self : BResult.BrowserResult)
    : cresult BResult.BrowserResult :=
  let? structured := structured_content (BResult.answer self) in
  let public := foldl (copy_field structured) (Object [])
    ["status"; "target_id"; "tab_id"; "url"; "delivery_mode"; "dispatched"; "activated";
     "activation_state"; "readback_state"; "refs_invalidated"] in
  let public :=
    if is_str structured.["dispatch_state"] "unknown"
    then set_index public "dispatch_state" (Str "unknown") else public in
  let public :=
    if succeeded && is_str structured.["delivery_mode"] "foreground"
    then foldl (copy_field structured) public
           ["current_url"; "title"; "heading"; "visibility_state"; "ready_state"]
    else if negb succeeded
    then foldl (copy_field structured) public ["error_code"; "error"]
    else public in
  Ok {| BResult.answer := Object [("structuredContent", public);
                                  ("isError", Bool (negb succeeded))];
        BResult.images := [] |}.

(** ** Parameters of a mutation *)

Definition validate_route (route : option string) : cresult string :=
  let route := unwrap_or route "trusted" in
  if (route != "trusted") && (route != "dom_event")
  then Err (invalid "input_route must be trusted or dom_event")
  else Ok route.

Definition validate_ref (element_ref field : string) : cresult unit :=
  if str_is_empty (trim element_ref)
  then Err (invalid (field +:+ " must not be empty")) else Ok tt.

Definition validate_local_path (raw field : string) : cresult unit :=
  rmap_err (fun _ =>
      invalid (field +:+ " must be a bounded absolute path without NUL bytes"))
    (let? _ := validate_absolute_local_path path_is_absolute raw in Ok tt).

Definition validate_type_mode (mode : option string) : cresult string :=
  let mode := unwrap_or mode "insert_text" in
  if (mode != "insert_text") && (mode != "keystrokes")
  then Err (invalid "browser_type mode must be insert_text or keystrokes")
  else Ok mode.

Definition text_too_long : cerror :=
  invalid "browser_type text exceeds the 4096-character limit".

(** [BrowserTypeRequest::validate_source]. *)
Definition validate_source (self : BType.BrowserTypeRequest) : cresult unit :=
  match BType.text self, BType.secret_handle self with
  | Some text, None =>
      if MAX_TEXT_CHARS <? chars_count text then Err text_too_long else Ok tt
  | None, Some handle =>
      rmap_err (fun _ => invalid "browser_type secret_handle is invalid")
        (validate_secret_handle handle)
  | Some _, Some _ =>
      Err (invalid "browser_type text and secret_handle are mutually exclusive")
  | None, None =>
      Err (invalid "browser_type requires exactly one of text or secret_handle")
  end.

Module ResolvedBrowserTypeRequest.
Record ResolvedBrowserTypeRequest : Type := {
  target_id : string;
  tab_id : string;
  snapshot_id : string;
  element_ref : string;
  text : string;
  mode : option string;
  replace : bool;
}.
End ResolvedBrowserTypeRequest.

Module Resolved := ResolvedBrowserTypeRequest.

(** [BrowserTypeRequest::resolve]: the two cases the validated source excludes are
    marked unreachable in the source, and panic. *)
Definition resolve (self : BType.BrowserTypeRequest) (resolved_secret : option string)
    : option (cresult Resolved.ResolvedBrowserTypeRequest) :=
  match validate_source self with
  | Err error => Some (Err error)
  | Ok _ =>
      let resolved text :=
        if MAX_TEXT_CHARS <? chars_count text then Err text_too_long
        else Ok {| Resolved.target_id := BType.target_id self;
                   Resolved.tab_id := BType.tab_id self;
                   Resolved.snapshot_id := BType.snapshot_id self;
                   Resolved.element_ref := BType.element_ref self;
                   Resolved.text := text;
                   Resolved.mode := BType.mode self;
                   Resolved.replace := BType.replace self |} in
      match BType.text self, BType.secret_handle self, resolved_secret with
      | Some text, None, None => Some (resolved text)
      | None, Some _, Some secret => Some (resolved secret)
      | Some _, Some _, _ | None, None, _ => None
      | Some _, None, Some _ | None, Some _, None =>
          Some (Err (invalid "browser_type secret resolution does not match its input"))
      end
  end.

Definition validate_dialog_request (request : BDialog.BrowserDialogRequest)
    : cresult unit :=
  let action := BDialog.action request in
  if negb (action ∈? ["inspect"; "accept"; "dismiss"])
  then Err (invalid "browser_dialog action must be inspect, accept, or dismiss")
  else if (action != "inspect") && is_none (BDialog.dialog_id request)
  then Err (invalid "browser_dialog accept/dismiss requires dialog_id")
  else
    check? match BDialog.prompt_text request with
    | Some prompt_text =>
        if action != "accept"
        then Err (invalid "browser_dialog prompt_text is valid only for accept")
        else if MAX_TEXT_CHARS <? chars_count prompt_text
        then Err (invalid "browser_dialog prompt_text exceeds the 4096-character limit")
        else Ok tt
    | None => Ok tt
    end in
    if negb (is_none_or is_delivery_mode (BDialog.delivery_mode request))
    then Err (invalid "browser_dialog delivery_mode must be background or foreground")
    else Ok tt.

(** ** Files *)

(** [Path::join] on Unix. *)
Definition path_join (root path : string) : string :=
  if path_is_absolute path then path
  else if str_is_empty root || ends_with "/" root then root +:+ path
  else root +:+ "/" +:+ path.

#[export] Instance Component_eq_dec : EqDecision Component.
Proof. solve_decision. Defined.

(** [Path] equality compares the components. *)
Definition path_eqb (a b : string) : bool := components a == components b.

Section Files.
Context `{BF : BrowserFiles}.

Definition validate_upload_path (raw : string) : cresult string :=
  check? validate_local_path raw "upload path" in
  let? metadata := ok_or (file_metadata raw)
    (invalid "browser upload paths must name existing regular files") in
  if FileMetadata.is_symlink metadata || negb (FileMetadata.is_file metadata)
  then Err (invalid
    "browser upload paths must name regular files directly, not links or directories")
  else ok_or (canonicalize raw) (invalid "browser upload path could not be canonicalized").

(** [iter().map(f).collect::<Result<Vec<_>, _>>()]. *)
Fixpoint try_map {A B} (f : A -> cresult B) (l : list A) : cresult (list B) :=
  match l with
  | [] => Ok []
  | a :: l => let? b := f a in let? l := try_map f l in Ok (b :: l)
  end.

Definition validate_upload_paths (paths : list string) : cresult (list string) :=
  if bool_decide (paths = []) || (MAX_UPLOAD_FILES <? len paths)
  then Err (invalid ("browser upload requires between 1 and "
                     +:+ show MAX_UPLOAD_FILES +:+ " files"))
  else try_map validate_upload_path paths.

Definition validate_destination_root (raw : string) : cresult string :=
  check? validate_local_path raw "browser download destination_root" in
  let? metadata := ok_or (file_metadata raw)
    (invalid "browser download destination_root must be an existing directory") in
  if FileMetadata.is_symlink metadata || negb (FileMetadata.is_dir metadata)
  then Err (invalid
    "browser download destination_root must be a direct directory, not a link")
  else ok_or (canonicalize raw)
    (invalid "browser download destination_root could not be canonicalized").
End Files.

(** ** Downloads *)

Definition download_lifecycle_state (status : option string) : string :=
  match status with
  | Some "completed" => "completed"
  | Some "accepted" => "accepted"
  | Some "in_progress" => "in_progress"
  | _ => "failed"
  end.

Definition download_id_is_safe_component (download_id : string) : bool :=
  match components download_id with [Normal _] => true | _ => false end.

(** The bytes of a signature. *)
Definition bytes (l : list Z) : string := String.concat "" (map (fun b => String (ascii_of b) "") l).

(** [head.get(offset..offset + signature.len()) == Some(signature)]. *)
Definition has (head : string) (offset : nat) (signature : string) : bool :=
  (Z.of_nat offset + str_len signature <=? str_len head)
  && (String.substring offset (String.length signature) head == signature).

Definition sniff_iso_bmff_mime_type (head : string) : string :=
  let brand b := has head 8 b in
  if brand "qt  " then "video/quicktime"
  else if brand "avif" || brand "avis" then "image/avif"
  else if existsb brand ["heic"; "heix"; "hevc"; "hevx"; "heim"; "heis"; "hevm"; "hevs"]
  then "image/heic"
  else if brand "M4A " || brand "M4B " then "audio/mp4"
  else "video/mp4".

Definition sniff_download_mime_type (head : string) : string :=
  if has head 0 (bytes [80; 75; 3; 4]) || has head 0 (bytes [80; 75; 5; 6])
     || has head 0 (bytes [80; 75; 7; 8])
  then "application/zip"
  else if has head 0 (bytes [31; 139; 8]) then "application/gzip"
  else if has head 0 (bytes [55; 122; 188; 175; 39; 28]) then "application/x-7z-compressed"
  else if has head 0 (bytes [82; 97; 114; 33; 26; 7]) then "application/vnd.rar"
  else if has head 257 "ustar" then "application/x-tar"
  else if has head 0 "%PDF-" then "application/pdf"
  else if has head 0 (bytes [137; 80; 78; 71; 13; 10; 26; 10]) then "image/png"
  else if has head 0 (bytes [255; 216; 255]) then "image/jpeg"
  else if has head 0 "GIF87a" || has head 0 "GIF89a" then "image/gif"
  else if has head 0 "RIFF" && has head 8 "WEBP" then "image/webp"
  else if has head 0 (bytes [73; 73; 42; 0]) || has head 0 (bytes [77; 77; 0; 42])
  then "image/tiff"
  else if has head 0 (bytes [118; 47; 49; 1]) then "image/x-exr"
  else if has head 0 "glTF" then "model/gltf-binary"
  else if has head 0 "OggS" then "application/ogg"
  else if has head 4 "ftyp" then sniff_iso_bmff_mime_type head
  else if has head 0 (bytes [127; 69; 76; 70]) then "application/x-executable"
  else "application/octet-stream".

Module ProvenDownload.
Record ProvenDownload : Type := {
  stored_filename : string;
  file_path : string;
  artifact_ref : string;
  bytes : Z;
  sha256 : option string;
  mime_type : option string;
}.
End ProvenDownload.

Section Downloads.
Context `{BF : BrowserFiles}.

(** The read loop: [head] keeps the first bytes, the hasher is given all of them. *)
Fixpoint read_all (file : reads) (head hashed : string) : cresult (string * string) :=
  match file with
  | [] | Some "" :: _ => Ok (head, hashed)
  | None :: _ =>
      Err (unavailable "the completed download could not be read for checksumming")
  | Some chunk :: file =>
      let remaining := Z.to_nat (DOWNLOAD_MAGIC_SNIFF_BYTES - str_len head) in
      let head :=
        if str_len head <? DOWNLOAD_MAGIC_SNIFF_BYTES
        then head +:+ String.substring 0 remaining chunk else head in
      read_all file head (hashed +:+ chunk)
  end.

Definition read_download_digest_and_type (path : string) : cresult (string * string) :=
  let? file := ok_or (open_file path)
    (unavailable "the completed download could not be opened for checksumming") in
  let? (head, hashed) := read_all file "" "" in
  Ok (sha256_hex hashed, sniff_download_mime_type head).

Definition download_artifact_ref (canonical : string) : string :=
  unwrap_or (url_from_file_path canonical) canonical.

Definition prove_download_artifact (canonical_root download_id : string)
    : option ProvenDownload.ProvenDownload :=
  if negb (download_id_is_safe_component download_id) then None
  else
    let candidate := path_join canonical_root download_id in
    match file_metadata candidate with
    | None => None
    | Some metadata =>
        if FileMetadata.is_symlink metadata || negb (FileMetadata.is_file metadata)
        then None
        else match canonicalize candidate with
        | None => None
        | Some canonical =>
            if negb (is_some_and (path_eqb canonical_root) (path_parent canonical))
            then None
            else
              let content := read_download_digest_and_type canonical in
              let content := match content with Ok c => Some c | Err _ => None end in
              Some {| ProvenDownload.stored_filename := download_id;
                      ProvenDownload.file_path := canonical;
                      ProvenDownload.artifact_ref := download_artifact_ref canonical;
                      ProvenDownload.bytes := FileMetadata.length metadata;
                      ProvenDownload.sha256 := option_map fst content;
                      ProvenDownload.mime_type := option_map snd content |}
        end
    end.

(** The artifact that a completed answer names, when it is proven. *)
Definition completed_artifact (destination_root : string) (structured : value)
    : option ProvenDownload.ProvenDownload :=
  if (get structured "status" ≫= as_str) != Some "completed" then None
  else match get structured "download_id" ≫= as_str with
  | None => None
  | Some download_id => prove_download_artifact destination_root download_id
  end.

Definition insert_artifact (structured : value) (artifact : ProvenDownload.ProvenDownload)
    : value :=
  let structured := set_index structured "stored_filename"
    (Str (ProvenDownload.stored_filename artifact)) in
  let structured := set_index structured "file_path"
    (Str (ProvenDownload.file_path artifact)) in
  let structured := set_index structured "artifact_ref"
    (Str (ProvenDownload.artifact_ref artifact)) in
  let structured :=
    if is_some (get structured "bytes") then structured
    else set_index structured "bytes" (Number (PosInt (ProvenDownload.bytes artifact))) in
  let structured := set_some structured "sha256" Str (ProvenDownload.sha256 artifact) in
  set_some structured "mime_type" Str (ProvenDownload.mime_type artifact).

(** The blocking task is the function it runs; that it fails to be joined is not
    modelled, and would leave the artifact fields absent. *)
Definition enrich_download_completion (destination_root : string) (answer : value)
    : value :=
  match get answer "structuredContent" with
  | Some ((Object _) as structured) =>
      let status := get structured "status" ≫= as_str in
      let artifact := completed_artifact destination_root structured in
      let structured :=
        set_index structured "download_state" (Str (download_lifecycle_state status)) in
      let structured :=
        match artifact with
        | None => structured
        | Some artifact => insert_artifact structured artifact
        end in
      set_index answer "structuredContent" structured
  | _ => answer
  end.
End Downloads.

(** ** Recovery guidance of a refused preparation
    ([crates/dcc-cua-browser/src/prepare_recovery.rs]) *)

Definition is_path_separator (a : ascii) : bool := (byte_of a =? 47) || (byte_of a =? 92).

Definition setup_url (app_name : string) : option string :=
  let name := to_ascii_lowercase (List.last (split_on is_path_separator app_name) "") in
  if name ∈? ["msedge.exe"; "msedge"; "microsoft edge"]
  then Some "edge://inspect/#remote-debugging"
  else if name ∈? ["chrome.exe"; "chrome"; "google chrome"; "chromium.exe"; "chromium"]
  then Some "chrome://inspect/#remote-debugging"
  else None.

(** The side effects of the refused setup, when the answer reports all of them
    consistently: whether a setup page was opened, whether it was closed again, and
    whether the creation of its tab is unproven. *)
Definition setup_side_effects (structured : value) : option (bool * bool * bool) :=
  let effects := structured.["refusal"].["detail"].["setup_side_effects"] in
  match as_bool effects.["opened_setup_page"], as_bool effects.["closed_setup_page"],
        as_bool effects.["enabled_remote_debugging"] with
  | Some opened, Some closed, Some _ =>
      match get effects "setup_tab_creation_unproven" with
      | None => Some (opened, closed, false)
      | Some (Bool unproven) => Some (opened, closed, unproven)
      | Some _ => None
      end
  | _, _, _ => None
  end.

Definition recovery (opened closed creation_unproven : bool) (pid window_id : Z)
    (app_name : string) : value :=
  let setup := Object
    [("setting_state", Str "unverified");
     ("instruction", Str "In the exact browser window, manually verify its remote-debugging setting before retrying preparation.")] in
  let setup :=
    match setup_url app_name with
    | Some url =>
        set_index (set_index setup "url" (Str url)) "checkbox_label"
          (Str "Allow remote debugging for this browser instance")
    | None => setup
    end in
  let cleanup_status :=
    if creation_unproven || (opened && negb closed) then "manual_cleanup_required"
    else if closed then "closed_by_driver" else "not_opened" in
  Object
    [("kind", Str "existing_profile_setup");
     ("status", Str "manual_action_required");
     ("target", Object [("pid", Number (PosInt pid));
                        ("window_id", Number (PosInt window_id))]);
     ("setup", setup);
     ("cleanup", Object
       [("status", Str cleanup_status);
        ("instruction", Str "Manually review any setup tab left in this exact window; close only a tab you identify as belonging to this preparation attempt.")]);
     ("automatic_cleanup", Bool false);
     ("automatic_retry", Bool false);
     ("fresh_observation_required", Bool true);
     ("retry_after", Str "manual_setup_and_cleanup")].

Definition annotate (answer : value) (existing_profile : bool) (target : option value)
    : value :=
  let structured := answer.["structuredContent"] in
  if negb existing_profile
     || negb (is_str structured.["status"] "refused")
     || is_bool structured.["prepared"] true
     || negb (is_str structured.["refusal"].["code"] "browser_wrong_target_refused")
  then answer
  else match setup_side_effects structured with
  | None => answer
  | Some (opened, closed, creation_unproven) =>
      if closed && (negb opened || creation_unproven) then answer
      else match target with
      | None => answer
      | Some target =>
          match as_u64 target.["pid"], as_u64 target.["window_id"] with
          | Some pid, Some window_id =>
              if (pid =? 0) || (U32_MAX <? pid) || (window_id =? 0) then answer
              else
                set_index answer "structuredContent"
                  (set_index structured "recovery"
                    (recovery opened closed creation_unproven pid window_id
                       (unwrap_or (as_str target.["app_name"]) "")))
          | _, _ => answer
          end
      end
  end.

(** ** Navigation receipts: the outcomes they can report *)

Inductive NavigationOutcome : Type :=
| NavDone
| NavUnknown
| NavFailed (both dispatched : bool) (activation readback code message : string).

Definition nav_succeeded (o : NavigationOutcome) : bool :=
  match o with NavDone => true | _ => false end.

(** What the foreground readback of the activated tab must show. *)
Definition readback_shown (s : value) : Prop :=
  s.["visibility_state"] = Str "visible"
  /\ (s.["ready_state"] = Str "interactive" \/ s.["ready_state"] = Str "complete")
  /\ (exists url, s.["current_url"] = Str url
      /\ (starts_with "http://" url || starts_with "https://" url
          || starts_with "about:" url) = true)
  /\ (exists title, s.["title"] = Str title) /\ (exists heading, s.["heading"] = Str heading).

(** How a receipt in the given delivery mode encodes an outcome. *)
Definition encodes (mode : string) (o : NavigationOutcome) (s : value) : Prop :=
  let foreground := bool_decide (mode = "foreground") in
  match o with
  | NavDone =>
      let state := Str (if foreground then "succeeded" else "not_requested") in
      get s "dispatch_state" = None
      /\ s.["status"] = Str "ok" /\ s.["dispatched"] = Bool true
      /\ s.["refs_invalidated"] = Bool true /\ s.["activated"] = Bool foreground
      /\ s.["activation_state"] = state /\ s.["readback_state"] = state
      /\ (foreground = true -> readback_shown s)
  | NavUnknown =>
      s.["status"] = Str "error" /\ s.["error_code"] = Str "navigation_completion_unknown"
      /\ get s "dispatched" = Some Null /\ s.["dispatch_state"] = Str "unknown"
      /\ s.["refs_invalidated"] = Bool true /\ s.["activated"] = Bool false
      /\ s.["activation_state"] = Str "not_started"
      /\ s.["readback_state"] = Str "not_started"
      /\ s.["error"] = Str "browser navigation completion is unknown; refresh browser state before retrying"
  | NavFailed both dispatched activation readback code message =>
      (both, (dispatched, activation, readback, code, message)) ∈ stable_failures
      /\ (foreground = true \/ both = true /\ mode = "background")
      /\ get s "dispatch_state" = None
      /\ s.["status"] = Str "error" /\ s.["dispatched"] = Bool dispatched
      /\ s.["refs_invalidated"] = Bool dispatched
      /\ s.["activated"] = Bool (activation == "succeeded")
      /\ s.["activation_state"] = Str activation /\ s.["readback_state"] = Str readback
      /\ s.["error_code"] = Str code /\ s.["error"] = Str message
  end.

Lemma stable_failure_true mode dispatched a r c e :
  stable_failure mode dispatched a r c e = true <->
  exists both activation readback code message,
    (both, (dispatched, activation, readback, code, message)) ∈ stable_failures
    /\ (mode = "foreground" \/ both = true /\ mode = "background")
    /\ a = Some activation /\ r = Some readback /\ c = Some code /\ e = Some message.
Proof.
  unfold stable_failure. rewrite existsb_true. split.
  - intros ([both [[[[d a'] r'] c'] e']] & Hin & H). reflect_all.
    match goal with H : Bool.eqb _ _ = true |- _ => apply eqb_prop in H as -> end.
    exists both, a', r', c', e'. split_and!; try done. destruct both; set_solver.
  - intros (both & a' & r' & c' & e' & Hin & Hmode & -> & -> & -> & ->).
    eexists. split; [exact Hin|]. simpl. rewrite Bool.eqb_reflx.
    rewrite !(bool_decide_eq_true_2 (Some _ = Some _)) by done. rewrite !andb_true_r.
    apply bool_decide_eq_true. destruct both; set_solver.
Qed.

Lemma foreground_readback_ok answer target_id tab_id :
  let s := answer.["structuredContent"] in
  is_object s = true -> s.["target_id"] = Str target_id -> s.["tab_id"] = Str tab_id ->
  s.["delivery_mode"] = Str "foreground" -> s.["status"] = Str "ok" ->
  s.["activated"] = Bool true ->
  validate_foreground_navigation_readback answer target_id tab_id = Ok tt
  <-> readback_shown s.
Proof.
  intros s Hobj Ht Htab Hm Hs Ha.
  unfold validate_foreground_navigation_readback, structured_content. fold s.
  rewrite Hobj. cbn [rbind]. rewrite Ht, Htab, Hm, Hs, Ha.
  unfold is_str at 1 2, is_bool. simpl (as_str (Str _)). simpl (as_bool (Bool _)).
  rewrite !(bool_decide_eq_true_2 (Some _ = Some _)) by done. simpl.
  rewrite guard_ok. unfold readback_shown. autorewrite with reflect_bool. split.
  - intros [((((Hv & state & Hstate & Hin) & Hurl) & Htitle) & Hheading) _].
    autorewrite with reflect_bool in *. destruct Hurl as (url & Hurl & Hweb).
    destruct Htitle as [title Htitle], Hheading as [heading Hheading].
    autorewrite with reflect_bool in *. split_and!; eauto.
    + rewrite Hstate. set_solver.
    + exists url. split; [done|]. autorewrite with reflect_bool. tauto.
  - intros (Hv & Hstate & (url & Hurl & Hweb) & (title & Htitle) & heading & Hheading).
    split; [|done]. rewrite Hurl, Htitle, Hheading. split_and!; eauto.
    destruct Hstate as [-> | ->]; eexists; (split; [done|]); apply bool_decide_eq_true; set_solver.
Qed.

Lemma completed_receipt_ok answer target_id tab_id mode succeeded :
  let s := answer.["structuredContent"] in
  is_object s = true -> s.["target_id"] = Str target_id -> s.["tab_id"] = Str tab_id ->
  s.["delivery_mode"] = Str mode -> s.["status"] = Str "ok" ->
  get s "dispatch_state" = None ->
  completed_receipt answer s target_id tab_id (mode == "foreground") = Ok succeeded
  <-> succeeded = true /\ encodes mode NavDone s.
Proof.
  intros s Hobj Ht Htab Hm Hs Hd. unfold completed_receipt, encodes.
  rewrite guard_ok. autorewrite with reflect_bool.
  destruct (mode == "foreground") eqn:Hf.
  - reflect_all. subst mode. rewrite rbind_ok. setoid_rewrite guard_ok.
    autorewrite with reflect_bool. split.
    + intros [[[H1 H2] H3] ([] & Hr & [H4 H5]%orb_false_iff & [= <-])]. reflect_all.
      apply foreground_readback_ok in Hr; [|done..]. by split_and!.
    + intros (-> & _ & _ & H1 & H2 & H3 & H4 & H5 & Hr). split_and!; [done..|].
      exists tt. split; [apply foreground_readback_ok; auto|].
      split; [by autorewrite with reflect_bool | done].
  - rewrite guard_ok. autorewrite with reflect_bool. naive_solver.
Qed.

Lemma valid_unknown_ok mode s :
  s.["status"] = Str "error" -> s.["error_code"] = Str "navigation_completion_unknown" ->
  valid_unknown s = true <-> encodes mode NavUnknown s.
Proof.
  intros Hs Hc. unfold valid_unknown, encodes. autorewrite with reflect_bool.
  destruct (get s "dispatched") as [[]|]; naive_solver.
Qed.

Lemma failed_receipt_ok s mode succeeded :
  mode = "foreground" \/ mode = "background" -> s.["status"] = Str "error" ->
  (get s "dispatch_state" = None \/ s.["error_code"] = Str "navigation_completion_unknown") ->
  failed_receipt s mode = Ok succeeded
  <-> succeeded = false /\ exists o, encodes mode o s /\ nav_succeeded o = false.
Proof.
  intros Hmode Hs Hd. unfold failed_receipt.
  destruct (is_str _ _) eqn:Hcode.
  - apply is_str_true in Hcode. rewrite test_ok, (valid_unknown_ok mode s Hs Hcode). split.
    + intros [H <-]. split; [done|]. by exists NavUnknown.
    + intros (-> & [] & Ho & Hf); try done. exfalso.
      destruct Ho as (Hin & _ & _ & _ & _ & _ & _ & _ & _ & Hc & _).
      rewrite Hcode in Hc. injection Hc as <-. unfold stable_failures in Hin. set_solver.
  - apply not_true_iff_false in Hcode. rewrite is_str_true in Hcode.
    destruct Hd as [Hd|]; [|done]. rewrite rbind_ok. setoid_rewrite ok_or_ok.
    setoid_rewrite guard_ok. split.
    + intros (d & Hdisp%as_bool_some & [[Hr Ha]%orb_false_iff Hf]%orb_false_iff & [= <-]).
      apply negb_false_iff, stable_failure_true in Hf
        as (both & a & r & c & m & Hin & Hm & HA & HR & HC & HE).
      apply as_str_some in HA, HR, HC, HE. reflect_all. rewrite HA in Ha. simpl in Ha.
      reflect_all. split; [done|]. exists (NavFailed both d a r c m).
      split; [|done]. cbn [encodes]. split_and!; try done.
      * destruct Hm as [->|[-> ->]]; auto.
      * by apply as_bool_some.
    + intros (-> & [| |both d a r c m] & Ho & Hf); try done.
      { destruct Ho as (_ & Hc & _). done. }
      destruct Ho as (Hin & Hm & _ & _ & Hdisp & Hr & Ha & HA & HR & HC & HE).
      exists d. split; [by apply as_bool_some|]. split; [|done].
      rewrite Hr, Ha, HA, HR, HC, HE. simpl. rewrite !bool_decide_eq_true_2 by done. simpl.
      apply negb_false_iff, stable_failure_true. exists both, a, r, c, m.
      split_and!; try done. destruct Hm as [Hm|Hm]; [left; by apply bool_decide_eq_true in Hm | by right].
Qed.

(** the receipt of a navigation is accepted exactly when it reports one of the
    outcomes of the contract for the request that was made.  The receipt must name the
    requested target, tab, URL and delivery mode.  It counts as a success only with a
    confirmed dispatch, dropped references and, in the foreground, a full readback of
    the activated tab; a completion the driver does not know is never turned into a
    dispatched or undispatched one; and every other failure says truthfully whether the
    navigation was dispatched, drops the references exactly then, and can claim an
    activation only in the foreground. *)
Theorem accepted_navigation_receipts answer target_id tab_id url mode succeeded :
  mode = "foreground" \/ mode = "background" ->
  navigation_response_is_success answer target_id tab_id url mode = Ok succeeded <->
  let s := answer.["structuredContent"] in
  is_object s = true
  /\ s.["target_id"] = Str target_id /\ s.["tab_id"] = Str tab_id
  /\ s.["url"] = Str url /\ s.["delivery_mode"] = Str mode
  /\ exists o, encodes mode o s /\ nav_succeeded o = succeeded.
Proof.
  intros Hmode. cbv zeta. unfold navigation_response_is_success, structured_content.
  destruct (is_object answer.["structuredContent"]) eqn:Hobj; [|naive_solver].
  cbn [rbind]. set (s := answer.["structuredContent"]) in *. rewrite !guard_ok.
  autorewrite with reflect_bool. split.
  - intros ((((Ht & Htab) & Hu) & Hm) & Hd & H). do 5 (split; [done|]).
    destruct (is_str s.["status"] "ok") eqn:Hs; [|destruct (is_str s.["status"] "error") eqn:He];
      [| |done]; autorewrite with reflect_bool in *.
    + apply completed_receipt_ok in H as [-> H]; try done; [by exists NavDone|].
      destruct Hd as [?|[Hd _]]; [done | congruence].
    + apply failed_receipt_ok in H as (-> & H); try done. tauto.
  - intros (_ & Ht & Htab & Hu & Hm & o & Ho & Hsucc). split; [done|].
    assert (is_str (Str "error") "ok" = false) as Hne by done.
    destruct o as [| |both d a r c m].
    + pose proof Ho as (Hd & Hs & _). split; [by left|].
      rewrite (proj2 (is_str_true _ _) Hs). subst succeeded.
      by apply completed_receipt_ok.
    + pose proof Ho as (Hs & Hc & _). split; [by right|].
      rewrite Hs, Hne. change (is_str (Str "error") "error") with true.
      apply failed_receipt_ok; eauto.
    + pose proof Ho as (_ & _ & Hd & Hs & _). split; [by left|].
      rewrite Hs, Hne. change (is_str (Str "error") "error") with true.
      apply failed_receipt_ok; eauto.
Qed.

(** A foreground receipt of a rejected navigation. *)
Definition sample_receipt_fields : list (string * value) :=
  [("target_id", Str "t1"); ("tab_id", Str "tab"); ("url", Str "https://example.org");
   ("delivery_mode", Str "foreground"); ("status", Str "error"); ("dispatched", Bool true);
   ("refs_invalidated", Bool true); ("activated", Bool false);
   ("activation_state", Str "failed"); ("readback_state", Str "not_started");
   ("error_code", Str "target_activation_failed");
   ("error", Str "foreground target activation failed")].
Definition sample_nav_receipt : value :=
  Object [("structuredContent", Object sample_receipt_fields)].

Lemma accepted_navigation_receipts_witness :
  navigation_response_is_success sample_nav_receipt "t1" "tab" "https://example.org"
    "foreground" = Ok false
  /\ exists o, encodes "foreground" o (Object sample_receipt_fields)
     /\ nav_succeeded o = false.
Proof.
  assert (navigation_response_is_success sample_nav_receipt "t1" "tab"
            "https://example.org" "foreground" = Ok false) as H by (vm_compute; reflexivity).
  split; [exact H|].
  exact (proj2 (proj2 (proj2 (proj2 (proj2
    (proj1 (accepted_navigation_receipts sample_nav_receipt "t1" "tab"
       "https://example.org" "foreground" false (or_introl eq_refl)) H)))))).
Defined.

(** ** Download artifacts *)

Lemma split_on_app sep a c b :
  sep c = true -> split_on sep (a +:+ String c b) = split_on sep a ++ split_on sep b.
Proof.
  intros Hc. induction a as [|x a IH].
  - rewrite append_nil_l. simpl. by rewrite Hc.
  - rewrite append_cons. simpl. rewrite IH. destruct (sep x); [done|].
    destruct (split_on sep a) eqn:E; [|done].
    exfalso. clear -E. destruct a as [|y a]; simpl in E; [done|].
    destruct (sep y); [done|]. by destruct (split_on sep a).
Qed.

Lemma absolute_components path :
  path_is_absolute path = true ->
  components path = RootDir :: omap part_component (split_on is_slash path).
Proof. unfold components, path_is_absolute. by intros ->. Qed.

Lemma safe_component_parts id name :
  components id = [Normal name] ->
  path_is_absolute id = false /\ omap part_component (split_on is_slash id) = [Normal name].
Proof.
  unfold components, path_is_absolute. destruct (starts_with "/" id); [done|].
  intros H. split; [done|]. destruct (split_on is_slash id) as [|w ws]; [done|].
  repeat (case_match; try done).
Qed.

Lemma ends_with_true p s : ends_with p s = true -> exists u, s = u +:+ p.
Proof.
  unfold ends_with. induction s as [|x s IH]; simpl; case_bool_decide as E; try done.
  - intros _. exists "". by rewrite append_nil_l.
  - intros _. exists "". by rewrite append_nil_l.
  - destruct (strip_suffix p s); [|done]. intros _. destruct (IH eq_refl) as [u ->].
    exists (String x u). by rewrite append_cons.
Qed.

Lemma append_slash u id : (u +:+ "/") +:+ id = u +:+ String slash id.
Proof.
  induction u as [|x u IH]; [by rewrite !append_nil_l|]. by rewrite !append_cons, IH.
Qed.

(** A safe identifier joined to an absolute root names a direct child of it. *)
Lemma join_safe_component root id name :
  path_is_absolute root = true -> components id = [Normal name] ->
  components (path_join root id) = components root ++ [Normal name].
Proof.
  intros Habs Hid. destruct (safe_component_parts _ _ Hid) as [Hrel Hparts].
  assert (forall u, path_is_absolute (u +:+ String slash id) = true ->
            components (u +:+ String slash id)
            = RootDir :: omap part_component (split_on is_slash u) ++ [Normal name]) as Hu.
  { intros u Hu. rewrite absolute_components, split_on_app, omap_app, Hparts by done. done. }
  pose proof Habs as (r & ->)%absolute_cons.
  unfold path_join. rewrite Hrel. change (str_is_empty (String slash r)) with false.
  rewrite orb_false_l. destruct (ends_with "/" (String slash r)) eqn:Hend.
  - apply ends_with_true in Hend as (u & Eu). rewrite (absolute_components _ Habs), Eu.
    rewrite append_slash, Hu.
    + change "/" with (String slash ""). rewrite split_on_app, omap_app by done.
      simpl. by rewrite app_nil_r.
    + rewrite <- append_slash, <- Eu, append_cons. apply absolute_cons. eauto.
  - rewrite (absolute_components _ Habs).
    change (String slash r +:+ "/" +:+ id) with (String slash r +:+ String slash id).
    apply Hu. rewrite append_cons. apply absolute_cons. eauto.
Qed.

Lemma append_assoc s t u : (s +:+ t) +:+ u = s +:+ (t +:+ u).
Proof.
  induction s as [|x s IH]; [by rewrite !append_nil_l|]. by rewrite !append_cons, IH.
Qed.

Lemma append_nil_r s : s +:+ "" = s.
Proof. induction s as [|x s IH]; [done|]. by rewrite append_cons, IH. Qed.

Lemma substring_all s n : (String.length s <= n)%nat -> String.substring 0 n s = s.
Proof.
  revert n. induction s as [|x s IH]; intros [|n] Hn; simpl in *; try done; [lia|].
  rewrite IH by lia. done.
Qed.

Lemma substring_append s t n :
  String.substring 0 n (s +:+ t)
  = String.substring 0 n s +:+ String.substring 0 (n - String.length s) t.
Proof.
  revert n. induction s as [|x s IH]; intros n.
  - rewrite append_nil_l. destruct n; simpl; by rewrite append_nil_l.
  - rewrite append_cons. destruct n as [|n]; simpl; [by destruct t|]. by rewrite IH, append_cons.
Qed.

Lemma length_substring n s :
  String.length (String.substring 0 n s) = (n `min` String.length s)%nat.
Proof. revert n. induction s as [|x s IH]; intros [|n]; simpl; auto. Qed.

(** Reading one more chunk extends a bounded prefix. *)
Lemma extend_prefix (limit : Z) (content chunk : string) :
  0 <= limit ->
  let head := String.substring 0 (Z.to_nat limit) content in
  (if str_len head <? limit
   then head +:+ String.substring 0 (Z.to_nat (limit - str_len head)) chunk else head)
  = String.substring 0 (Z.to_nat limit) (content +:+ chunk).
Proof.
  intros Hlimit head. rewrite substring_append. fold head.
  assert (str_len head = Z.min limit (str_len content)) as Hlen.
  { unfold str_len, head. rewrite length_substring. lia. }
  unfold str_len in *. case_match eqn:E; reflect_all.
  - f_equal. f_equal. lia.
  - replace (Z.to_nat limit - String.length content)%nat with 0%nat by lia.
    replace (String.substring 0 0 chunk) with "" by (by destruct chunk).
    by rewrite append_nil_r.
Qed.

(** The digest covers the whole file, and the sniffed bytes are its first 8192. *)
Lemma read_all_prefix file hashed head' content :
  read_all file (String.substring 0 (Z.to_nat DOWNLOAD_MAGIC_SNIFF_BYTES) hashed) hashed
    = Ok (head', content) ->
  head' = String.substring 0 (Z.to_nat DOWNLOAD_MAGIC_SNIFF_BYTES) content.
Proof.
  revert hashed. induction file as [|[chunk|] file IH]; intros hashed H.
  - by injection H as <- <-.
  - destruct chunk as [|x chunk]; [by injection H as <- <-|].
    cbn [read_all] in H. cbv zeta in H. rewrite extend_prefix in H by done. by apply IH in H.
  - discriminate H.
Qed.

(** The reads of a file up to its end: nonempty ones, and then an empty one or no more. *)
Definition holds (file : reads) (content : string) : Prop :=
  exists chunks rest, file = map Some chunks ++ rest /\ Forall (fun chunk => chunk <> "") chunks
    /\ (rest = [] \/ head rest = Some (Some ""))
    /\ content = foldr String.append "" chunks.

Lemma read_all_holds file head hashed head' content :
  read_all file head hashed = Ok (head', content) ->
  exists rest, holds file rest /\ content = hashed +:+ rest.
Proof.
  revert head hashed. induction file as [|[chunk|] file IH]; intros head hashed H.
  - injection H as <- <-. exists "". split; [|by rewrite append_nil_r].
    exists [], []. split_and!; [done | constructor | by left | done].
  - destruct chunk as [|x chunk].
    + injection H as <- <-. exists "". split; [|by rewrite append_nil_r].
      exists [], (Some "" :: file). split_and!; [done | constructor | by right | done].
    + apply IH in H as (content' & (chunks & rest & -> & Hne & Hend & ->) & ->).
      eexists. split; [|by rewrite append_assoc].
      exists (String x chunk :: chunks), rest. split_and!; [done | by constructor | done | done].
  - discriminate H.
Qed.

(** A proven artifact. *)
Lemma prove_download_artifact_spec `{BrowserFiles} root id artifact :
  prove_download_artifact root id = Some artifact ->
  exists name metadata path parent,
    components id = [Normal name]
    /\ file_metadata (path_join root id) = Some metadata
    /\ FileMetadata.is_symlink metadata = false /\ FileMetadata.is_file metadata = true
    /\ canonicalize (path_join root id) = Some path
    /\ path_parent path = Some parent /\ components parent = components root
    /\ artifact = {| ProvenDownload.stored_filename := id;
                     ProvenDownload.file_path := path;
                     ProvenDownload.artifact_ref := download_artifact_ref path;
                     ProvenDownload.bytes := FileMetadata.length metadata;
                     ProvenDownload.sha256 := ProvenDownload.sha256 artifact;
                     ProvenDownload.mime_type := ProvenDownload.mime_type artifact |}
    /\ forall digest, ProvenDownload.sha256 artifact = Some digest ->
       exists file content, open_file path = Some file /\ holds file content
         /\ digest = sha256_hex content
         /\ ProvenDownload.mime_type artifact = Some (sniff_download_mime_type
              (String.substring 0 (Z.to_nat DOWNLOAD_MAGIC_SNIFF_BYTES) content)).
Proof.
  unfold prove_download_artifact. intros Hp.
  destruct (download_id_is_safe_component id) eqn:Hsafe; [|done]. simpl in Hp.
  destruct (file_metadata _) as [m|] eqn:Hm; [|done].
  destruct (_ || _) eqn:Hkind; [done|]. reflect_all.
  destruct (canonicalize _) as [path|] eqn:Hc; [|done].
  destruct (is_some_and _ _) eqn:Hparent; [|done]. simpl in Hp. reflect_all.
  match goal with H : path_parent path = Some ?p |- _ => rename H into Hpp; rename p into parent end.
  unfold download_id_is_safe_component in Hsafe.
  destruct (components id) as [|[| | |name] [|? ?]] eqn:Hid; try done.
  exists name, m, path, parent. injection Hp as <-. simpl. split_and!; try done.
  { match goal with H : path_eqb _ _ = true |- _ => unfold path_eqb in H; by reflect_all end. }
  intros digest. unfold read_download_digest_and_type.
  destruct (open_file path) as [file|] eqn:Hopen; [|done]. cbn [ok_or rbind].
  destruct (read_all file "" "") as [[head content]|] eqn:Hread; [|done]. simpl.
  intros [= <-]. destruct (read_all_holds _ _ _ _ _ Hread) as (whole & Hwhole & Hcontent).
  rewrite append_nil_l in Hcontent. subst whole. exists file, content. split_and!; try done.
  do 2 f_equal. by apply (read_all_prefix file "").
Qed.

(** An artifact inside the destination root: a regular file, not a link, that is a
    direct child of the root both as it is named and where it really is. *)
Definition confined `{BrowserFiles} (root id path : string) : Prop :=
  exists name metadata parent,
    components (path_join root id) = components root ++ [Normal name]
    /\ file_metadata (path_join root id) = Some metadata
    /\ FileMetadata.is_symlink metadata = false /\ FileMetadata.is_file metadata = true
    /\ canonicalize (path_join root id) = Some path
    /\ path_parent path = Some parent /\ components parent = components root.

Lemma completed_artifact_spec `{BrowserFiles} root s artifact :
  path_is_absolute root = true -> completed_artifact root s = Some artifact ->
  exists id, s.["status"] = Str "completed" /\ s.["download_id"] = Str id
    /\ prove_download_artifact root id = Some artifact
    /\ confined root id (ProvenDownload.file_path artifact).
Proof.
  intros Habs. unfold completed_artifact, index. intros Ha.
  destruct (_ != _) eqn:Hs; [done|]. reflect_all.
  destruct (get s "status") as [[]|]; try done.
  destruct (get s "download_id") as [[| | |id| |]|]; try done. simpl in *. simplify_eq.
  exists id. split_and!; try done.
  destruct (prove_download_artifact_spec _ _ _ Ha)
    as (name & m & path & parent & Hid & Hm & Hlink & Hfile & Hc & Hp & Hroot & E & _).
  rewrite E. exists name, m, parent. split_and!; try done.
  by apply join_safe_component.
Qed.

Lemma insert_artifact_fields s a :
  is_object s = true ->
  let out := insert_artifact s a in
  get out "file_path" = Some (Str (ProvenDownload.file_path a))
  /\ get out "status" = get s "status" /\ get out "download_id" = get s "download_id"
  /\ get out "download_state" = get s "download_state"
  /\ get out "bytes" = Some (unwrap_or (get s "bytes") (Number (PosInt (ProvenDownload.bytes a))))
  /\ get out "sha256" = or_else (option_map Str (ProvenDownload.sha256 a)) (get s "sha256").
Proof.
  intros Hobj. unfold insert_artifact. cbv zeta.
  set (t := set_index (set_index (set_index s _ _) _ _) _ _).
  assert (is_object t = true) as Ht by (unfold t; auto).
  assert (get t "bytes" = get s "bytes") as Hb by (unfold t; by lookup_fields).
  rewrite Hb. destruct (get s "bytes") as [b|] eqn:E; simpl is_some; cbv iota;
    split_and!; lookup_fields; try (unfold t; by lookup_fields).
  all: destruct (ProvenDownload.sha256 a); simpl; lookup_fields; [done|].
  all: unfold t; by lookup_fields.
Qed.

(** C35: the report of a download cannot leave the directory it was allowed.  The
    adapter's enrichment of a driver answer keeps the driver's status, identifier and
    size, and adds the state of the download.  When the driver named no location
    itself, a location is reported only for a completed download whose identifier is a
    single path component, whose file is a regular file and not a link, and whose real
    location is a direct child of the approved root; and a digest only beside such a
    location, as the digest of the whole file found there: of everything that reading it
    gives until it gives nothing more. *)
Theorem download_report_is_confined `{BrowserFiles} root answer s :
  path_is_absolute root = true ->
  get answer "structuredContent" = Some s -> is_object s = true ->
  get s "file_path" = None -> get s "sha256" = None ->
  let out := (enrich_download_completion root answer).["structuredContent"] in
  get out "status" = get s "status" /\ get out "download_id" = get s "download_id"
  /\ (forall bytes, get s "bytes" = Some bytes -> get out "bytes" = Some bytes)
  /\ get out "download_state"
     = Some (Str (download_lifecycle_state (get s "status" ≫= as_str)))
  /\ (forall v, get out "file_path" = Some v -> exists id path,
        v = Str path /\ s.["status"] = Str "completed" /\ s.["download_id"] = Str id
        /\ confined root id path)
  /\ (forall v, get out "sha256" = Some v -> exists path file content,
        get out "file_path" = Some (Str path) /\ open_file path = Some file
        /\ holds file content /\ v = Str (sha256_hex content)).
Proof.
  intros Habs Hs Hobj Hpath Hsha. cbv zeta. unfold enrich_download_completion. rewrite Hs.
  destruct s as [| | | | |fields]; try done. set (s := Object fields) in *.
  rewrite index_set_index by (by destruct answer).
  set (t := set_index s "download_state" _).
  assert (is_object t = true) as Ht by (unfold t; auto).
  assert (forall k, k <> "download_state" -> get t k = get s k) as Hk
    by (intros k Hne; unfold t; by rewrite get_set_index_ne by congruence).
  assert (get t "download_state" = Some (Str (download_lifecycle_state
            (get s "status" ≫= as_str)))) as Hstate by (unfold t; by lookup_fields).
  destruct (completed_artifact root s) as [a|] eqn:Ea.
  - destruct (completed_artifact_spec _ _ _ Habs Ea) as (id & Hst & Hid & Hp & Hc).
    destruct (insert_artifact_fields t a Ht) as (E1 & E2 & E3 & E4 & E5 & E6).
    rewrite E1, E2, E3, E4, E5, E6, Hstate, !Hk, Hsha by done. split_and!; try done.
    + by intros bytes ->.
    + intros v [= <-]. eauto 8.
    + destruct (ProvenDownload.sha256 a) as [digest|] eqn:Ed; [|done]. intros v [= <-].
      destruct (prove_download_artifact_spec _ _ _ Hp)
        as (? & ? & path & ? & ? & ? & ? & ? & ? & ? & ? & E & Hd).
      destruct (Hd digest Ed) as (file & content & Hopen & Hread & -> & _).
      exists path, file, content. split_and!; try done.
      do 2 f_equal. exact (f_equal ProvenDownload.file_path E).
  - rewrite Hstate, !Hk, Hpath, Hsha by done. split_and!; try done; intros bytes ->; done.
Qed.

(** A directory with one downloaded file. *)
#[export] Instance sample_files : BrowserFiles := {|
  file_metadata path :=
    if path == "/srv/out/d1"
    then Some {| FileMetadata.is_symlink := false; FileMetadata.is_file := true;
                 FileMetadata.is_dir := false; FileMetadata.length := 5 |}
    else None;
  canonicalize path := Some path;
  open_file path := Some [Some "%PDF-"; Some ""];
  sha256_hex bytes := "digest of " +:+ bytes;
  url_from_file_path path := Some ("file://" +:+ path);
  base64_decode data := Ok data |}.

Definition sample_download_answer : value := Object [("structuredContent", Object
  [("status", Str "completed"); ("download_id", Str "d1")])].

Lemma download_report_is_confined_witness :
  let out := (enrich_download_completion "/srv/out" sample_download_answer)
               .["structuredContent"] in
  get out "file_path" = Some (Str "/srv/out/d1")
  /\ get out "sha256" = Some (Str "digest of %PDF-")
  /\ exists id path, Str "/srv/out/d1" = Str path /\ confined "/srv/out" id path.
Proof.
  intros out.
  assert (get out "file_path" = Some (Str "/srv/out/d1")) as Hp by (vm_compute; reflexivity).
  split; [exact Hp|]. split; [vm_compute; reflexivity|].
  destruct (proj1 (proj2 (proj2 (proj2 (proj2
    (download_report_is_confined "/srv/out" sample_download_answer
       sample_download_answer.["structuredContent"]
       eq_refl eq_refl eq_refl eq_refl eq_refl))))) _ Hp)
    as (id & path & E & _ & _ & Hc).
  exists id, path. split; [exact E | exact Hc].
Defined.
