(* ===== verification/Runs.v ===== *)
(** * Runs of a component

    A stateful component is a step function: an operation takes a state to the
    next one and a reply.  A run is the sequence of its operations, in the order
    in which its lock serialises them; the lemmas here let a theorem about a run
    be proved from facts about single steps. *)

From S2P Require Import Prelude.

Section Runs.
Context {State Op Reply : Type} (step : State -> Op -> State * Reply).

Fixpoint run (state : State) (ops : list Op) : State * list Reply :=
  match ops with
  | [] => (state, [])
  | op :: ops =>
      let '(state, reply) := step state op in
      let '(state, replies) := run state ops in
      (state, reply :: replies)
  end.

Lemma run_cons s op ops :
  run s (op :: ops)
  = let '(s', r) := step s op in ((run s' ops).1, r :: (run s' ops).2).
Proof. simpl. destruct (step s op) as [s' r]. by destruct (run s' ops). Qed.

Lemma length_run s ops : length (run s ops).2 = length ops.
Proof.
  revert s. induction ops as [|op ops IH]; intros s; [done|].
  rewrite run_cons. destruct (step s op). simpl. by rewrite IH.
Qed.

(** An invariant of the steps holds after a run. *)
Lemma run_invariant (I : State -> Prop) s ops :
  (forall s op, I s -> I (step s op).1) -> I s -> I (run s ops).1.
Proof.
  intros Hstep. revert s. induction ops as [|op ops IH]; intros s Hs; [done|].
  rewrite run_cons. specialize (Hstep s op Hs). destruct (step s op). simpl. by apply IH.
Qed.

Lemma run_invariant_ops (I : State -> Prop) (Q : Op -> Prop) s ops :
  (forall s op, Q op -> I s -> I (step s op).1) -> Forall Q ops -> I s -> I (run s ops).1.
Proof.
  intros Hstep HQ. revert s. induction HQ as [|op ops Hop HQ IH]; intros s Hs; [done|].
  rewrite run_cons. specialize (Hstep s op Hop Hs). destruct (step s op). simpl. by apply IH.
Qed.

(** The state in which an operation of the run is taken. *)
Lemma run_lookup s ops j r :
  (run s ops).2 !! j = Some r ->
  exists op, ops !! j = Some op
    /\ step (run s (take j ops)).1 op = ((run s (take (S j) ops)).1, r).
Proof.
  revert s j. induction ops as [|op ops IH]; intros s j Hj; [done|].
  revert Hj. rewrite run_cons. destruct (step s op) as [s1 r1] eqn:E. simpl. intros Hj.
  destruct j as [|j]; simpl in *.
  - simplify_eq. exists op. by rewrite E.
  - destruct (IH s1 j Hj) as (op' & Hop & E'). exists op'. split; [done|].
    change (take (S (S j)) (op :: ops)) with (op :: take (S j) ops).
    rewrite E. destruct (run s1 (take j ops)). destruct (run s1 (take (S j) ops)). done.
Qed.

Lemma run_take s ops j r :
  (run s ops).2 !! j = Some r ->
  exists op, ops !! j = Some op
    /\ (run s (take (S j) ops)).1 = (step (run s (take j ops)).1 op).1.
Proof.
  intros H. destruct (run_lookup s ops j r H) as (op & Hop & E).
  exists op. by rewrite E.
Qed.

(** A fact that holds before the [i]th operation, and that every operation from
    there keeps, holds before the [j]th. *)
Lemma run_until (D : State -> Prop) s ops i j :
  (i <= j <= length ops)%nat -> D (run s (take i ops)).1 ->
  (forall k op r sk', (i <= k < j)%nat -> ops !! k = Some op ->
     (run s ops).2 !! k = Some r -> step (run s (take k ops)).1 op = (sk', r) ->
     D (run s (take k ops)).1 -> D sk') ->
  D (run s (take j ops)).1.
Proof.
  intros [Hij Hj] HD Hkeep. induction j as [|j IH].
  - by replace i with 0%nat in HD by lia.
  - destruct (decide (i = S j)) as [->|Hne]; [done|].
    assert (is_Some ((run s ops).2 !! j)) as [r Hr].
    { apply lookup_lt_is_Some. rewrite length_run. lia. }
    destruct (run_lookup s ops j r Hr) as (op & Hop & E).
    eapply (Hkeep j); [lia | done | done | done |].
    apply IH; [lia | lia |]. intros k op' r' sk' Hk. apply Hkeep. lia.
Qed.

(** The two ends of an interval of a run: a fact the [i]th step establishes, and
    every step in between keeps, holds when the [j]th is taken. *)
Lemma run_between (I : State -> Prop) s ops i j ri rj :
  (forall s op, I s -> I (step s op).1) -> I s ->
  (i < j)%nat -> (run s ops).2 !! i = Some ri -> (run s ops).2 !! j = Some rj ->
  let before k := (run s (take k ops)).1 in
  exists opi opj, ops !! i = Some opi /\ ops !! j = Some opj
    /\ I (before i) /\ step (before i) opi = (before (S i), ri)
    /\ I (before j) /\ step (before j) opj = (before (S j), rj)
    /\ forall D : State -> Prop,
      (forall k sk op sk' r, (i < k < j)%nat -> ops !! k = Some op ->
         (run s ops).2 !! k = Some r -> step sk op = (sk', r) -> I sk -> D sk -> D sk') ->
      D (before (S i)) -> D (before j).
Proof.
  intros Hstep Hs Hij Hi Hj before.
  assert (forall k, I (before k)) as HI by (intros k; by apply run_invariant).
  destruct (run_lookup s ops i ri Hi) as (opi & Hopi & Ei).
  destruct (run_lookup s ops j rj Hj) as (opj & Hopj & Ej).
  exists opi, opj. split_and!; try done. intros D HD HDi.
  apply (run_until D s ops (S i) j); [|done|].
  - split; [lia|]. apply lookup_lt_Some in Hopj. lia.
  - intros k op r sk' Hk Hop Hr E. eapply HD; [|done..|apply HI]. lia.
Qed.

(** What holds of the state before the [j]th operation was there from the start,
    or an earlier reply announced it. *)
Lemma run_origin {X} (H : State -> X -> Prop) (E : Reply -> X -> Prop) s ops j x :
  (forall s op s' r, step s op = (s', r) -> H s' x -> H s x \/ E r x) ->
  H (run s (take j ops)).1 x ->
  H s x \/ exists i r, (i < j)%nat /\ (run s ops).2 !! i = Some r /\ E r x.
Proof.
  intros Hstep. revert s j. induction ops as [|op ops IH]; intros s j;
    [rewrite take_nil; auto|].
  destruct j as [|j]; [auto|]. cbn [take]. rewrite !run_cons.
  destruct (step s op) as [s1 r1] eqn:Es. simpl. intros Hx.
  apply IH in Hx as [Hx|(i & r & Hi & Hr & He)].
  - apply (Hstep _ _ _ _ Es) in Hx as [?|?]; [by left|]. right. exists 0%nat, r1.
    split_and!; [lia | done | done].
  - right. exists (S i), r. split_and!; [lia | done | done].
Qed.

(** The same where only states with an invariant step, with the step that made the fact
    true. *)
Lemma run_entered (I H : State -> Prop) (E : State -> Op -> State -> Reply -> Prop) s ops j :
  (forall s op, I s -> I (step s op).1) ->
  (forall s op s' r, I s -> step s op = (s', r) -> H s' -> H s \/ E s op s' r) ->
  I s -> H (run s (take j ops)).1 ->
  H s \/ exists i op r, (i < j)%nat /\ ops !! i = Some op /\ (run s ops).2 !! i = Some r
    /\ I (run s (take i ops)).1
    /\ step (run s (take i ops)).1 op = ((run s (take (S i) ops)).1, r)
    /\ E (run s (take i ops)).1 op (run s (take (S i) ops)).1 r.
Proof.
  intros HI Hstep. revert s j. induction ops as [|op ops IH]; intros s j Hs;
    [rewrite take_nil; auto|].
  destruct j as [|j]; [auto|]. cbn [take]. rewrite !run_cons.
  destruct (step s op) as [s1 r1] eqn:Es. cbn [fst snd]. intros Hx.
  pose proof (HI s op Hs) as Hs1. rewrite Es in Hs1. cbn in Hs1.
  apply (IH s1 j Hs1) in Hx as [Hx|(i & op' & r & Hi & Hop & Hr & Hinv & Hst & He)].
  - apply (Hstep _ _ _ _ Hs Es) in Hx as [?|?]; [by left|]. right. exists 0%nat, op, r1.
    cbn [take]. rewrite run_cons, Es. cbn. rewrite take_0. cbn. split_and!; try done. lia.
  - right. exists (S i), op', r. split_and!; [lia | done | done | ..].
    all: cbn [take]; rewrite !run_cons, Es; cbn [fst]; done.
Qed.

(** What holds initially of a state and is kept by the steps relates any two moments. *)
Lemma run_related (I : State -> Prop) (R : State -> State -> Prop) `{!PreOrder R} s ops i j :
  (forall s op, I s -> I (step s op).1) -> (forall s op, I s -> R s (step s op).1) ->
  I s -> (i <= j)%nat -> R (run s (take i ops)).1 (run s (take j ops)).1.
Proof.
  intros HI HR. revert s i j. induction ops as [|op ops IH]; intros s i j Hs Hij;
    [by rewrite !take_nil|].
  destruct i as [|i], j as [|j]; cbn [take]; rewrite ?run_cons; try lia.
  - done.
  - pose proof (HI s op Hs). pose proof (HR s op Hs) as H1.
    destruct (step s op) as [s1 r1]. cbn in *. etrans; [exact H1|].
    by apply (IH s1 0%nat j); [|lia].
  - pose proof (HI s op Hs). destruct (step s op) as [s1 r1]. cbn in *. apply IH; [done | lia].
Qed.
End Runs.
