(* ===== verification/ExtensionRegistry.v ===== *)
(** * Paired browser extensions ([crates/dcc-cua-host/src/browser_extension.rs])

    A browser extension that a user paired with a tab registers as a provider.  It polls
    for commands with its secret and completes them; the Host calls it for the sessions
    of the window it was paired in.  A call is a sequence of steps, between which other
    requests run: it queues a command, waits for the completion that carries the
    request's id, and checks it. *)

From S2P Require Import Prelude Records Effects Runs RustStr Json Protocol Errors.

Definition EXTENSION_SCHEMA : string := "dcc-cua.browser-extension.v1".
Definition EXTENSION_PROTOCOL_VERSION : Z := 1.
Definition MAX_EXTENSION_CALL_TIMEOUT_MS : Z := 30000.
(** Milliseconds. *)
Definition PROVIDER_STALE_AFTER : Z := 15000.
Definition PROVIDER_QUEUE_CAPACITY : Z := 16.

Definition extension_error {A} (message : string) : hresult A :=
  Err (HostError.Protocol message).

(** ** The wire *)

Definition ensure_exact_fields (v : value) (expected : list string) (object_name : string)
    : hresult unit :=
  let? object := ok_or (as_object v)
    (HostError.Protocol ("browser extension " +:+ object_name +:+ " must be an object")) in
  if negb (len object =? len expected)
     || negb (forallb (fun key => is_some (field object key)) expected)
  then extension_error
    ("browser extension " +:+ object_name +:+ " fields do not match protocol v1")
  else Ok tt.

Definition bounded_string (v : value) (key : string) (maximum : Z) : hresult string :=
  let text := match as_str v.[key] with
              | Some text =>
                  if negb (str_is_empty text) && (str_len text <=? maximum)
                  then Some text else None
              | None => None
              end in
  ok_or text (HostError.Protocol
    ("browser extension " +:+ key +:+ " must contain 1.." +:+ show maximum
     +:+ " characters")).

Definition positive_id (v : value) (key : string) : hresult Z :=
  let id := match as_u64 v.[key] with
            | Some id => if 0 <? id then Some id else None
            | None => None
            end in
  ok_or id (HostError.Protocol ("browser extension " +:+ key +:+ " must be positive")).

Definition invocation_matches_extension (invocation_origin extension_id : string) : bool :=
  (invocation_origin == extension_id)
  || (invocation_origin == "chrome-extension://" +:+ extension_id +:+ "/")
  || (invocation_origin == "moz-extension://" +:+ extension_id +:+ "/").

Module ExtensionPairing.
Record ExtensionPairing : Type := {
  session_nonce : string;
  tab_id : Z;
  window_id : Z;
  origin : string;
  document_id : string;
}.
End ExtensionPairing.

Module Pairing := ExtensionPairing.

Definition capability_of (v : value) : hresult string :=
  let text := match as_str v with
              | Some text =>
                  if negb (str_is_empty text) && (str_len text <=? 128) then Some text else None
              | None => None
              end in
  ok_or text (HostError.Protocol "browser extension capability is invalid").

(** [.collect::<Result<Vec<_>, _>>()]. *)
Fixpoint collect_capabilities (values : list value) : hresult (list string) :=
  match values with
  | [] => Ok []
  | v :: values =>
      let? capability := capability_of v in
      let? capabilities := collect_capabilities values in
      Ok (capability :: capabilities)
  end.

Definition parse_pairing (pairing : value) : hresult Pairing.ExtensionPairing :=
  let? session_nonce := bounded_string pairing "session_nonce" 64 in
  let? tab_id := positive_id pairing "tab_id" in
  let? window_id := positive_id pairing "window_id" in
  let? origin := bounded_string pairing "origin" 2048 in
  let? document_id := bounded_string pairing "document_id" 128 in
  Ok {| Pairing.session_nonce := session_nonce; Pairing.tab_id := tab_id;
        Pairing.window_id := window_id; Pairing.origin := origin;
        Pairing.document_id := document_id |}.

Definition parse_extension_hello (hello : value) (invocation_origin : string)
    : hresult (string * string * list string * Pairing.ExtensionPairing) :=
  check? ensure_exact_fields hello
    ["schema"; "type"; "protocol"; "extension"; "capabilities"; "pairing"] "hello" in
  if negb (is_str hello.["schema"] EXTENSION_SCHEMA) || negb (is_str hello.["type"] "hello")
  then extension_error "browser extension hello schema is unsupported"
  else
  check? ensure_exact_fields hello.["protocol"] ["min"; "max"] "protocol" in
  let minimum := unwrap_or (as_u64 hello.["protocol"].["min"]) 0 in
  let maximum := unwrap_or (as_u64 hello.["protocol"].["max"]) 0 in
  if (EXTENSION_PROTOCOL_VERSION <? minimum) || (maximum <? EXTENSION_PROTOCOL_VERSION)
  then extension_error "browser extension protocol ranges do not overlap"
  else
  check? ensure_exact_fields hello.["extension"] ["id"; "version"] "extension" in
  let? extension_id := bounded_string hello.["extension"] "id" 128 in
  let? extension_version := bounded_string hello.["extension"] "version" 64 in
  if negb (invocation_matches_extension invocation_origin extension_id)
  then extension_error "native messaging invocation origin does not match the extension id"
  else
  let pairing := hello.["pairing"] in
  check? ensure_exact_fields pairing
    ["session_nonce"; "tab_id"; "window_id"; "origin"; "document_id"] "pairing" in
  match as_array hello.["capabilities"] with
  | Some capability_values =>
      if (len capability_values =? 0) || (32 <? len capability_values)
      then extension_error
        "browser extension capabilities must contain between 1 and 32 entries"
      else
      let? capabilities := collect_capabilities capability_values in
      if negb (bool_decide (NoDup capabilities))
      then extension_error "browser extension capabilities must not contain duplicates"
      else
      let? pairing := parse_pairing pairing in
      Ok (extension_id, extension_version, capabilities, pairing)
  | None => extension_error
      "browser extension capabilities must contain between 1 and 32 entries"
  end.

Definition validate_extension_response (response : value) : hresult unit :=
  if negb (is_str response.["schema"] EXTENSION_SCHEMA)
     || negb (is_str response.["type"] "response")
  then extension_error "browser extension returned an invalid response envelope"
  else
  let? _ := bounded_string response "request_id" MAX_REQUEST_ID_CHARS in
  match as_bool response.["ok"] with
  | Some true => ensure_exact_fields response
      ["schema"; "type"; "request_id"; "ok"; "result"] "success response"
  | Some false =>
      check? ensure_exact_fields response
        ["schema"; "type"; "request_id"; "ok"; "error"] "error response" in
      check? ensure_exact_fields response.["error"] ["code"; "message"] "response error" in
      let? _ := bounded_string response.["error"] "code" 64 in
      let? _ := bounded_string response.["error"] "message" 256 in
      Ok tt
  | None => extension_error "browser extension response ok field must be boolean"
  end.

(** [message.split(':').next()]. *)
Fixpoint before_colon (s : string) : string :=
  match s with
  | EmptyString => EmptyString
  | String a s => if byte_of a =? 58 then EmptyString else String a (before_colon s)
  end.

Definition navigation_provider_must_revoke (result : hresult value) : bool :=
  match result with
  | Err (HostError.Protocol message) =>
      negb (before_colon message ∈?
        ["navigation_unsupported"; "target_not_foreground"; "stale_observation";
         "command_expired"; "navigation_target_refused"; "navigation_cancelled"])
  | _ => true
  end.

(** ** The registry *)

(** [pending] holds the ids of the requests whose sender the provider still has. *)
Module Provider.
Record Provider : Type := {
  owner : option string;
  secret : string;
  extension_id : string;
  extension_version : string;
  invocation_origin : string;
  browser_process_id : Z;
  native_window : option Z;
  pairing : Pairing.ExtensionPairing;
  capabilities : list string;
  commands : list value;
  pending : gset string;
  last_seen : Z;
}.

#[global] Instance Provider_settable : Settable Provider := fun p => {|
  owner := owner p;
  secret := secret p;
  extension_id := extension_id p;
  extension_version := extension_version p;
  invocation_origin := invocation_origin p;
  browser_process_id := browser_process_id p;
  native_window := native_window p;
  pairing := pairing p;
  capabilities := capabilities p;
  commands := commands p;
  pending := pending p;
  last_seen := last_seen p;
|}.
End Provider.

(** A provider is shared with the calls and polls that are under way, which keep it when
    it leaves the registry: [store] has every provider, [registered] the ids of those in
    the map.  [replies] are the responses that were sent to a call and not yet received. *)
Module BrowserExtensionRegistry.
Record BrowserExtensionRegistry : Type := {
  store : gmap string Provider.Provider;
  registered : gset string;
  replies : gmap string value;
}.

#[global] Instance BrowserExtensionRegistry_settable
    : Settable BrowserExtensionRegistry := fun r => {|
  store := store r;
  registered := registered r;
  replies := replies r;
|}.
End BrowserExtensionRegistry.

Module Reg := BrowserExtensionRegistry.

Definition new_registry : Reg.BrowserExtensionRegistry :=
  {| Reg.store := ∅; Reg.registered := ∅; Reg.replies := ∅ |}.

Definition lookup_provider (self : Reg.BrowserExtensionRegistry) (provider_id : string)
    : option Provider.Provider :=
  if bool_decide (provider_id ∈ Reg.registered self)
  then Reg.store self !! provider_id else None.

Definition forget (provider_ids : gset string) (self : Reg.BrowserExtensionRegistry)
    : Reg.BrowserExtensionRegistry :=
  self <| Reg.registered := Reg.registered self ∖ provider_ids |>.

Definition on_provider (provider_id : string) (f : Provider.Provider -> Provider.Provider)
    (self : Reg.BrowserExtensionRegistry) : Reg.BrowserExtensionRegistry :=
  self <| Reg.store := alter f provider_id (Reg.store self) |>.

Definition is_stale (now : Z) (self : Provider.Provider) : bool :=
  PROVIDER_STALE_AFTER <=? saturating_sub now (Provider.last_seen self).

Definition prune_stale (now : Z) (self : Reg.BrowserExtensionRegistry)
    : Reg.BrowserExtensionRegistry :=
  forget (dom (filter (fun entry => is_stale now entry.2 = true) (Reg.store self))) self.

Definition summary (provider_id : string) (self : Provider.Provider) : value :=
  let pairing := Provider.pairing self in
  Object
    [("provider_id", Str provider_id); ("provider", Str "extension");
     ("extension", Object
        [("id", Str (Provider.extension_id self));
         ("version", Str (Provider.extension_version self));
         ("invocation_origin", Str (Provider.invocation_origin self));
         ("browser_process_id", Number (PosInt (Provider.browser_process_id self)))]);
     ("pairing", Object
        [("tab_id", Number (PosInt (Pairing.tab_id pairing)));
         ("window_id", Number (PosInt (Pairing.window_id pairing)));
         ("origin", Str (Pairing.origin pairing));
         ("document_id", Str (Pairing.document_id pairing))]);
     ("capabilities", Array (map Str (Provider.capabilities self)))].

Section Registry.
Context (sha256_hex : string -> string).

Abbreviation registry_op A := (eff Reg.BrowserExtensionRegistry HostError.HostError A).

Definition registry_read {A} (f : Reg.BrowserExtensionRegistry -> A) : registry_op A := read f.
Definition refuse {A} (message : string) : registry_op A := throw (HostError.Protocol message).

Definition provider (provider_id : string) : registry_op Provider.Provider :=
  do? found := registry_read (fun self => lookup_provider self provider_id) in
  lift (ok_or found (HostError.Protocol "browser extension provider not found")).

Definition authorized_provider (provider_id secret : string)
    : registry_op Provider.Provider :=
  do? provider := provider provider_id in
  if Provider.secret provider != secret
  then refuse "browser extension provider secret mismatch"
  else ret provider.

Definition require_navigation_capability (provider_id : string) : registry_op unit :=
  do? provider := provider provider_id in
  if negb ("tab_navigation_v1" ∈? Provider.capabilities provider)
  then refuse "navigation_unsupported: paired extension lacks tab_navigation_v1"
  else ret tt.

Definition claim (provider_id : string) (pid hwnd : Z) (origin task_capability : string)
    : registry_op unit :=
  do? provider := provider provider_id in
  if negb (Provider.browser_process_id provider =? pid)
     || (Provider.native_window provider != Some hwnd)
     || (Pairing.origin (Provider.pairing provider) != origin)
  then refuse "extension pairing target mismatch"
  else if is_some_and (fun owner => owner != task_capability) (Provider.owner provider)
  then refuse "pairing is owned by another task; pair the tab again"
  else modify (on_provider provider_id (fun p => p
    <| Provider.owner := or_else (Provider.owner p) (Some task_capability) |>)).

Definition register_with_window (now : Z) (id_uuid secret_uuid : string) (hello : value)
    (invocation_origin : string) (browser_process_id : Z) (native_window : option Z)
    (task_owner : option string) : registry_op value :=
  if browser_process_id =? 0
  then refuse "browser extension registration requires the browser process id"
  else
    do? (extension_id, extension_version, capabilities, pairing) :=
      lift (parse_extension_hello hello invocation_origin) in
    run? modify (prune_stale now) in
    let provider_id := "browser-extension-" +:+ id_uuid in
    let provider :=
      {| Provider.owner := task_owner; Provider.secret := secret_uuid;
         Provider.extension_id := extension_id;
         Provider.extension_version := extension_version;
         Provider.invocation_origin := invocation_origin;
         Provider.browser_process_id := browser_process_id;
         Provider.native_window := native_window; Provider.pairing := pairing;
         Provider.capabilities := capabilities; Provider.commands := [];
         Provider.pending := ∅; Provider.last_seen := now |} in
    run? modify (fun self => self
      <| Reg.store := <[provider_id := provider]> (Reg.store self) |>
      <| Reg.registered := {[provider_id]} ∪ Reg.registered self |>) in
    ret (Object
      [("type", Str "browser_extension_registered"); ("provider_id", Str provider_id);
       ("provider_secret", Str secret_uuid); ("poll_timeout_ms", Number (PosInt 5000))]).

Definition unregister (provider_id provider_secret : string) : registry_op value :=
  run? authorized_provider provider_id provider_secret in
  run? modify (forget {[provider_id]}) in
  run? modify (on_provider provider_id (fun p => p <| Provider.pending := ∅ |>)) in
  ret (Object [("type", Str "browser_extension_unregistered");
               ("provider_id", Str provider_id)]).

(** *** A poll: its start, and its end with the first command of the queue, or with none
    when its time is over. *)

Definition next_command_start (now : Z) (provider_id provider_secret : string)
    (timeout_ms : Z) : registry_op unit :=
  if MAX_EXTENSION_CALL_TIMEOUT_MS <? timeout_ms
  then refuse ("browser extension poll timeout must be at most "
         +:+ show MAX_EXTENSION_CALL_TIMEOUT_MS +:+ " ms")
  else
    run? authorized_provider provider_id provider_secret in
    modify (on_provider provider_id (fun p => p <| Provider.last_seen := now |>)).

Definition next_command_finish (provider_id : string) : registry_op value :=
  do? commands := registry_read (fun self =>
    match Reg.store self !! provider_id with Some p => Provider.commands p | None => [] end) in
  run? modify (on_provider provider_id (fun p => p
    <| Provider.commands := tail (Provider.commands p) |>)) in
  ret (Object [("type", Str "browser_extension_command"); ("provider_id", Str provider_id);
               ("command", unwrap_or (head commands) Null)]).

(** [waiting] says whether the call is still there to receive. *)
Definition complete (now : Z) (waiting : string -> bool) (provider_id provider_secret : string)
    (response : value) : registry_op value :=
  run? authorized_provider provider_id provider_secret in
  run? modify (on_provider provider_id (fun p => p <| Provider.last_seen := now |>)) in
  run? lift (validate_extension_response response) in
  do? request_id := lift (bounded_string response "request_id" MAX_REQUEST_ID_CHARS) in
  do? provider := provider provider_id in
  if negb (bool_decide (request_id ∈ Provider.pending provider))
  then refuse "browser extension response does not match a pending request"
  else
    run? modify (on_provider provider_id (fun p => p
      <| Provider.pending := Provider.pending p ∖ {[request_id]} |>)) in
    if negb (waiting request_id)
    then refuse "browser extension caller disconnected before completion"
    else
      run? modify (fun self => self
        <| Reg.replies := <[request_id := response]> (Reg.replies self) |>) in
      ret (Object
        [("type", Str "browser_extension_completion_accepted");
         ("provider_id", Str provider_id); ("request_id", Str request_id)]).

(** The rows are in the order of the map. *)
Definition status_for_process (now : Z) (browser_process_id : Z) : registry_op value :=
  run? modify (prune_stale now) in
  do? rows := registry_read (fun self =>
    map (fun '(id, p) => summary id p)
      (filter (fun entry => entry.1 ∈ Reg.registered self
                 /\ Provider.browser_process_id entry.2 = browser_process_id)
         (map_to_list (Reg.store self)))) in
  let none := len rows =? 0 in
  ret (Object
    [("type", Str "browser_extension_status"); ("available", Bool (negb none));
     ("providers", Array rows); ("fallback_provider", Str "cdp");
     ("install_state", Str (if none then "not_connected_or_not_paired" else "ready"))]).
(** *** A call *)

Definition reserved_params : list string :=
  ["schema"; "request_id"; "method"; "session_nonce"; "tab_id"; "_dcc_task_owner";
   "_dcc_deadline_unix_ms"; "deadline_unix_ms"].

Definition reject_reserved (params : list (string * value)) : hresult unit :=
  try_each (fun forbidden =>
    if is_some (field params forbidden)
    then extension_error ("browser extension call params cannot override " +:+ forbidden)
    else Ok tt) reserved_params.

(** The command for the extension: the parameters and the fields of the Host. *)
Definition extension_command (provider : Provider.Provider)
    (params : list (string * value)) (method request_id : string) (deadline_unix_ms : Z)
    : list (string * value) :=
  let deadline := Number (PosInt deadline_unix_ms) in
  let command := set_field params "schema" (Str EXTENSION_SCHEMA) in
  let command := set_field command "request_id" (Str request_id) in
  let command := set_field command "method" (Str method) in
  let command := set_field command "session_nonce"
    (Str (Pairing.session_nonce (Provider.pairing provider))) in
  let command := set_field command "tab_id"
    (Number (PosInt (Pairing.tab_id (Provider.pairing provider)))) in
  let command := set_field command "_dcc_deadline_unix_ms" deadline in
  let command :=
    if method == "navigate" then set_field command "deadline_unix_ms" deadline else command in
  match Provider.owner provider with
  | Some owner => set_field command "_dcc_task_owner" (Str (sha256_hex owner))
  | None => command
  end.

(** Up to the queue: the command, of a request that is now pending. *)
Definition call_start (now unix_ms : Z) (uuid : string) (provider_id expected_origin : string)
    (expected_process_id : Z) (method : string) (params : value) (timeout_ms : Z)
    : registry_op value :=
  if (timeout_ms =? 0) || (MAX_EXTENSION_CALL_TIMEOUT_MS <? timeout_ms)
  then refuse ("browser extension call timeout must be between 1 and "
         +:+ show MAX_EXTENSION_CALL_TIMEOUT_MS +:+ " ms")
  else
    run? modify (prune_stale now) in
    do? p := provider provider_id in
    if negb (Provider.browser_process_id p =? expected_process_id)
    then refuse
      "browser extension provider process does not match the exact window session"
    else if Pairing.origin (Provider.pairing p) != expected_origin
    then refuse "browser extension provider origin does not match the requested origin"
    else if negb (method ∈? ["snapshot"; "click"; "type"; "navigate"; "unpair"])
    then refuse ("unsupported browser extension method: " +:+ method)
    else
      run? (if method == "navigate" then require_navigation_capability provider_id
            else ret tt) in
      do? params := lift (ok_or (as_object params)
        (HostError.Protocol "browser extension call params must be a JSON object")) in
      run? lift (reject_reserved params) in
      run? modify (on_provider provider_id (fun p => p
        <| Provider.pending := {[uuid]} ∪ Provider.pending p |>)) in
      ret (Object (extension_command p params method uuid
        (saturating_add unix_ms timeout_ms))).

(** The command enters the queue if it has room; whether it did. *)
Definition call_send (provider_id : string) (command : value) : registry_op bool :=
  do? commands := registry_read (fun self =>
    match Reg.store self !! provider_id with Some p => Provider.commands p | None => [] end) in
  if len commands <? PROVIDER_QUEUE_CAPACITY then
    run? modify (on_provider provider_id (fun p => p
      <| Provider.commands := Provider.commands p ++ [command] |>)) in
    ret true
  else ret false.

Definition withdraw (provider_id request_id : string) : registry_op unit :=
  modify (on_provider provider_id (fun p => p
    <| Provider.pending := Provider.pending p ∖ {[request_id]} |>)).

(** The command did not enter the queue in time. *)
Definition call_abandon (provider_id request_id : string) : registry_op value :=
  run? withdraw provider_id request_id in
  refuse "browser extension provider disconnected".

(** The end of the wait: a response, a sender that was dropped, or no time left. *)
Definition call_receive (provider_id request_id method : string) : registry_op value :=
  do? reply := registry_read (fun self => Reg.replies self !! request_id) in
  match reply with
  | Some response =>
      run? modify (fun self => self
        <| Reg.replies := delete request_id (Reg.replies self) |>) in
      ret response
  | None =>
      do? pending := registry_read (fun self =>
        match Reg.store self !! provider_id with
        | Some p => Provider.pending p
        | None => ∅
        end) in
      run? withdraw provider_id request_id in
      refuse
        (if negb (bool_decide (request_id ∈ pending))
         then "browser extension provider dropped the pending call"
         else if method == "navigate"
         then "navigation_outcome_unknown: navigation may have been dispatched; re-pair before further work"
         else "browser extension call timed out")
  end.

(** The receipt of a navigation promises nothing about its effect. *)
Definition navigation_receipt (result : value) : bool :=
  is_str result.["phase"] "dispatched" && is_bool result.["navigation_requested"] true
  && is_bool result.["completion_known"] false && is_str result.["effect"] "unverified"
  && is_bool result.["pairing_required"] true
  && is_bool result.["fresh_observation_required"] true.

Definition check_response (provider_id method : string) (provider : Provider.Provider)
    (response : value) : hresult value :=
  if negb (is_str response.["schema"] EXTENSION_SCHEMA)
     || negb (is_str response.["type"] "response")
  then extension_error "browser extension returned an invalid response envelope"
  else if is_bool response.["ok"] false
  then extension_error
    (unwrap_or (as_str response.["error"].["code"]) "browser_extension_error" +:+ ": "
     +:+ unwrap_or (as_str response.["error"].["message"]) "browser extension call failed")
  else if (method == "snapshot") && is_some (Provider.owner provider)
          && (as_str response.["result"].["document"].["id"]
                != Some (Pairing.document_id (Provider.pairing provider)))
  then extension_error "extension document changed; pair the tab again"
  else if (method == "navigate") && negb (navigation_receipt response.["result"])
  then extension_error "navigation_outcome_unknown: invalid navigation receipt"
  else Ok (Object
    [("type", Str "browser_extension_result"); ("provider_id", Str provider_id);
     ("origin", Str (Pairing.origin (Provider.pairing provider)));
     ("method", Str method); ("result", response.["result"])]).

(** From the end of the wait; the store still has the provider of the call. *)
Definition call_finish (provider_id request_id method : string) : registry_op value :=
  do? response := call_receive provider_id request_id method in
  do? p := registry_read (fun self => Reg.store self !! provider_id) in
  match p with
  | Some p => lift (check_response provider_id method p response)
  | None => Effects.panic
  end.

(** A provider whose navigation may have left the paired document is removed. *)
Definition revoke_after_navigation (provider_id method : string) (result : hresult value)
    : registry_op unit :=
  if (method == "navigate") && navigation_provider_must_revoke result
  then modify (forget {[provider_id]})
  else ret tt.
End Registry.

(** ** The registry with the calls under way *)

(** The provider of a call, the command that it queues, and whether it did. *)
Module ActiveCall.
Record ActiveCall : Type := {
  provider_id : string;
  method : string;
  command : value;
  sent : bool;
}.
End ActiveCall.

(** [started]: the ids of all requests so far, since no id is drawn twice. *)
Module ExtensionSystem.
Record ExtensionSystem : Type := {
  registry : Reg.BrowserExtensionRegistry;
  calls : gmap string ActiveCall.ActiveCall;
  started : gset string;
}.

#[global] Instance ExtensionSystem_settable : Settable ExtensionSystem := fun s => {|
  registry := registry s;
  calls := calls s;
  started := started s;
|}.
End ExtensionSystem.

Module Sys := ExtensionSystem.

Definition new_system : Sys.ExtensionSystem :=
  {| Sys.registry := new_registry; Sys.calls := ∅; Sys.started := ∅ |}.

Inductive extension_op : Type :=
| OpRegister (now : Z) (id_uuid secret_uuid : string) (hello : value)
    (invocation_origin : string) (browser_process_id : Z) (native_window : option Z)
    (task_owner : option string)
| OpUnregister (provider_id provider_secret : string)
| OpPollStart (now : Z) (provider_id provider_secret : string) (timeout_ms : Z)
| OpPollFinish (provider_id : string)
| OpComplete (now : Z) (provider_id provider_secret : string) (response : value)
| OpStatus (now browser_process_id : Z)
| OpClaim (provider_id : string) (pid hwnd : Z) (origin task_capability : string)
| OpCallStart (now unix_ms : Z) (request_id provider_id expected_origin : string)
    (expected_process_id : Z) (method : string) (params : value) (timeout_ms : Z)
| OpCallSend (request_id : string)
| OpCallAbandon (request_id : string)
| OpCallFinish (request_id : string)
| OpRevoke (provider_id method : string) (result : hresult value).

(** The operation and its answer; none where it was not due. *)
Abbreviation extension_reply := (extension_op * option (hresult value))%type.

Section System.
Context (sha256_hex : string -> string).

(** An operation of the registry alone. *)
Definition exec {A} (show : A -> value) (m : eff Reg.BrowserExtensionRegistry _ A)
    (self : Sys.ExtensionSystem) : Sys.ExtensionSystem * option (hresult value) :=
  match m (Sys.registry self) with
  | Some (Ok a, registry) => (self <| Sys.registry := registry |>, Some (Ok (show a)))
  | Some (Err e, registry) => (self <| Sys.registry := registry |>, Some (Err e))
  | None => (self, None)
  end.

Definition unit_value (_ : unit) : value := Null.

(** A call begins: its id is new, and the call is under way if the registry accepted it. *)
Definition begin_call (request_id provider_id method : string)
    (m : eff Reg.BrowserExtensionRegistry HostError.HostError value)
    (self : Sys.ExtensionSystem) : Sys.ExtensionSystem * option (hresult value) :=
  if bool_decide (request_id ∈ Sys.started self) then (self, None)
  else
    let self := self <| Sys.started := {[request_id]} ∪ Sys.started self |> in
    match exec Datatypes.id m self with
    | (self, Some (Ok command)) =>
        (self <| Sys.calls := <[request_id :=
           {| ActiveCall.provider_id := provider_id; ActiveCall.method := method;
              ActiveCall.command := command; ActiveCall.sent := false |}]> (Sys.calls self) |>,
         Some (Ok command))
    | other => other
    end.

Definition send_call (request_id : string) (self : Sys.ExtensionSystem)
    : Sys.ExtensionSystem * option (hresult value) :=
  match Sys.calls self !! request_id with
  | Some call =>
      if ActiveCall.sent call then (self, None)
      else
        match exec Bool (call_send (ActiveCall.provider_id call) (ActiveCall.command call))
                self with
        | (self, Some (Ok (Bool true))) =>
            (self <| Sys.calls := <[request_id :=
               {| ActiveCall.provider_id := ActiveCall.provider_id call;
                  ActiveCall.method := ActiveCall.method call;
                  ActiveCall.command := ActiveCall.command call;
                  ActiveCall.sent := true |}]> (Sys.calls self) |>, Some (Ok (Bool true)))
        | other => other
        end
  | None => (self, None)
  end.

(** The end of a call that was sent, or of one that was not. *)
Definition end_call (sent : bool) (request_id : string)
    (m : ActiveCall.ActiveCall -> eff Reg.BrowserExtensionRegistry HostError.HostError value)
    (self : Sys.ExtensionSystem) : Sys.ExtensionSystem * option (hresult value) :=
  match Sys.calls self !! request_id with
  | Some call =>
      if bool_decide (ActiveCall.sent call = sent) then
        let '(self, reply) := exec Datatypes.id (m call) self in
        (self <| Sys.calls := delete request_id (Sys.calls self) |>, reply)
      else (self, None)
  | None => (self, None)
  end.

Definition extension_act (self : Sys.ExtensionSystem) (op : extension_op)
    : Sys.ExtensionSystem * option (hresult value) :=
  match op with
  | OpRegister now id_uuid secret_uuid hello origin pid window owner =>
      if bool_decide (is_Some
           (Reg.store (Sys.registry self) !! ("browser-extension-" +:+ id_uuid)))
      then (self, None)
      else exec Datatypes.id
             (register_with_window now id_uuid secret_uuid hello origin pid window owner) self
  | OpUnregister id secret => exec Datatypes.id (unregister id secret) self
  | OpPollStart now id secret timeout_ms =>
      exec unit_value (next_command_start now id secret timeout_ms) self
  | OpPollFinish id => exec Datatypes.id (next_command_finish id) self
  | OpComplete now id secret response =>
      exec Datatypes.id (complete now
        (fun request_id => is_some (Sys.calls self !! request_id)) id secret response) self
  | OpStatus now pid => exec Datatypes.id (status_for_process now pid) self
  | OpClaim id pid hwnd origin capability =>
      exec unit_value (claim id pid hwnd origin capability) self
  | OpCallStart now unix_ms request_id id origin pid method params timeout_ms =>
      begin_call request_id id method
        (call_start sha256_hex now unix_ms request_id id origin pid method params timeout_ms)
        self
  | OpCallSend request_id => send_call request_id self
  | OpCallAbandon request_id => end_call false request_id (fun call =>
      call_abandon (ActiveCall.provider_id call) request_id) self
  | OpCallFinish request_id => end_call true request_id (fun call =>
      call_finish (ActiveCall.provider_id call) request_id (ActiveCall.method call)) self
  | OpRevoke id method result => exec unit_value (revoke_after_navigation id method result) self
  end.

Definition extension_step (self : Sys.ExtensionSystem) (op : extension_op)
    : Sys.ExtensionSystem * extension_reply :=
  ((extension_act self op).1, (op, (extension_act self op).2)).

Definition extension_run : Sys.ExtensionSystem -> list extension_op ->
    Sys.ExtensionSystem * list extension_reply := run extension_step.
End System.

(** ** What a step may change *)

(** What a provider is from its registration on. *)
Definition identity (p : Provider.Provider) :=
  (Provider.secret p, Provider.extension_id p, Provider.extension_version p,
   Provider.invocation_origin p, Provider.browser_process_id p, Provider.native_window p,
   Provider.pairing p, Provider.capabilities p).

Record provider_le (p p' : Provider.Provider) : Prop := {
  le_identity : identity p' = identity p;
  le_owner : forall owner, Provider.owner p = Some owner -> Provider.owner p' = Some owner;
  le_pending : Provider.pending p' ⊆ Provider.pending p;
}.

#[export] Instance provider_le_preorder : PreOrder provider_le.
Proof.
  split; [split; naive_solver|]. intros p q r [I1 O1 P1] [I2 O2 P2].
  split; [congruence | auto | set_solver].
Qed.

(** Providers stay in the store, and nothing becomes registered, pending or replied. *)
Record shrinks (a b : Reg.BrowserExtensionRegistry) : Prop := {
  shrinks_store : forall id, option_Forall2 provider_le (Reg.store a !! id) (Reg.store b !! id);
  shrinks_registered : Reg.registered b ⊆ Reg.registered a;
  shrinks_replies : Reg.replies b ⊆ Reg.replies a;
}.

#[export] Instance shrinks_preorder : PreOrder shrinks.
Proof.
  split.
  - intros a. split; [|done..]. intros id. destruct (_ !! _); by constructor.
  - intros a b c [S1 R1 P1] [S2 R2 P2]. split; [|set_solver | by trans (Reg.replies b)].
    intros id. specialize (S1 id). specialize (S2 id).
    destruct S1; inversion S2; subst; constructor. by etrans.
Qed.

Lemma shrinks_on_provider id f a :
  (forall p, provider_le p (f p)) -> shrinks a (on_provider id f a).
Proof.
  intros Hf. split; [|done..]. intros id'. unfold on_provider. simpl.
  destruct (decide (id' = id)) as [->|Hne].
  - rewrite lookup_alter_eq. destruct (_ !! _); by constructor.
  - rewrite lookup_alter_ne by done. destruct (_ !! _); by constructor.
Qed.
Lemma shrinks_forget ids a : shrinks a (forget ids a).
Proof.
  split; [|set_solver | done]. intros id. simpl. destruct (_ !! _); by constructor.
Qed.
Lemma shrinks_forget_reply rid a :
  shrinks a (a <| Reg.replies := delete rid (Reg.replies a) |>).
Proof.
  split; [|done | apply delete_subseteq]. intros id. simpl. destruct (_ !! _); by constructor.
Qed.

Ltac provider_le := intros ?; split; [done | simpl; try done; intros ? ->; done | set_solver].

Section Shrinking.
Lemma shrinking_modify {E} id f :
  (forall p, provider_le p (f p)) -> respects shrinks (modify (E := E) (on_provider id f)).
Proof. intros Hf. apply respects_modify; [apply _|]. intros a. by apply shrinks_on_provider. Qed.

Lemma shrinking_forget {E} ids : respects shrinks (modify (E := E) (forget ids)).
Proof. apply respects_modify; [apply _ | apply shrinks_forget]. Qed.
Lemma shrinking_prune {E} now : respects shrinks (modify (E := E) (prune_stale now)).
Proof. apply respects_modify; [apply _|]. intros a. apply shrinks_forget. Qed.
Lemma shrinking_withdraw id rid : respects shrinks (withdraw id rid).
Proof. apply shrinking_modify. provider_le. Qed.
Lemma shrinking_reply {E} rid : respects shrinks
  (modify (E := E) (fun self => self <| Reg.replies := delete rid (Reg.replies self) |>)).
Proof. apply respects_modify; [apply _ | apply shrinks_forget_reply]. Qed.
Hint Resolve shrinking_forget shrinking_prune shrinking_withdraw shrinking_reply : respects.

Ltac shrinking := respects; try (apply shrinking_modify; provider_le).

Lemma shrinking_provider id : respects shrinks (provider id).
Proof. unfold provider, registry_read. shrinking. Qed.
Hint Resolve shrinking_provider : respects.
Lemma shrinking_authorized id secret : respects shrinks (authorized_provider id secret).
Proof. unfold authorized_provider, refuse. shrinking. Qed.
Hint Resolve shrinking_authorized : respects.
Lemma shrinking_claim id pid hwnd origin capability :
  respects shrinks (claim id pid hwnd origin capability).
Proof. unfold claim, refuse. shrinking. Qed.
Lemma shrinking_unregister id secret : respects shrinks (unregister id secret).
Proof. unfold unregister. shrinking. Qed.
Lemma shrinking_poll_start now id secret timeout :
  respects shrinks (next_command_start now id secret timeout).
Proof. unfold next_command_start, refuse. shrinking. Qed.
Lemma shrinking_poll_finish id : respects shrinks (next_command_finish id).
Proof. unfold next_command_finish, registry_read. shrinking. Qed.
Lemma shrinking_status now pid : respects shrinks (status_for_process now pid).
Proof. unfold status_for_process, registry_read. shrinking. Qed.
Lemma shrinking_revoke id method result :
  respects shrinks (revoke_after_navigation id method result).
Proof. unfold revoke_after_navigation. shrinking. Qed.
Lemma shrinking_send id command : respects shrinks (call_send id command).
Proof. unfold call_send, registry_read. shrinking. Qed.
Lemma shrinking_abandon id rid : respects shrinks (call_abandon id rid).
Proof. unfold call_abandon, refuse. shrinking. Qed.
Lemma shrinking_receive id rid method : respects shrinks (call_receive id rid method).
Proof. unfold call_receive, refuse, registry_read. shrinking. Qed.
Hint Resolve shrinking_receive : respects.
Lemma shrinking_finish id rid method : respects shrinks (call_finish id rid method).
Proof. unfold call_finish, registry_read. shrinking. Qed.
End Shrinking.

#[export] Hint Resolve shrinking_claim shrinking_unregister shrinking_poll_start
  shrinking_poll_finish shrinking_status shrinking_revoke shrinking_send shrinking_abandon
  shrinking_finish shrinking_provider shrinking_authorized shrinking_prune : respects.

Lemma provider_some id a r b :
  provider id a = Some (r, b) ->
  b = a /\ r = ok_or (lookup_provider a id) (HostError.Protocol "browser extension provider not found").
Proof. unfold provider, registry_read, bind, read, lift. intros [= <- <-]. done. Qed.

Lemma authorized_some id secret a r b :
  authorized_provider id secret a = Some (r, b) ->
  b = a /\ forall p, r = Ok p -> lookup_provider a id = Some p /\ Provider.secret p = secret.
Proof.
  unfold authorized_provider. intros [(e & s & H & [= -> ->])|(p & s & H & Hs)]%bind_some;
    apply provider_some in H as [-> Hp].
  - done.
  - symmetry in Hp. apply ok_or_ok in Hp. revert Hs. unfold refuse, throw, ret.
    case_bool_decide; intros [= <- <-]; split; [done | naive_solver | done..].
Qed.

Lemma modify_some {S E} (f : S -> S) a (r : result E unit) b :
  modify f a = Some (r, b) -> r = Ok tt /\ b = f a.
Proof. by intros [= <- <-]. Qed.

Ltac run_bind H :=
  apply bind_some in H as [(? & ? & ? & [= -> ->])|(? & ? & ? & H)].

(** A completion that is accepted answers a call that is pending at the provider. *)
Lemma complete_cases now waiting id secret response a r b :
  complete now waiting id secret response a = Some (r, b) ->
  (is_err r = true /\ shrinks a b)
  \/ exists p rid m, lookup_provider a id = Some p /\ Provider.secret p = secret
       /\ validate_extension_response response = Ok tt
       /\ bounded_string response "request_id" MAX_REQUEST_ID_CHARS = Ok rid
       /\ waiting rid = true /\ rid ∈ Provider.pending p
       /\ shrinks a m
       /\ (forall q, Reg.store m !! id = Some q -> rid ∉ Provider.pending q)
       /\ is_ok r = true
       /\ b = m <| Reg.replies := <[rid := response]> (Reg.replies m) |>.
Proof.
  unfold complete. intros H.
  apply bind_some in H as [(e & s & H1 & [= -> ->])|(p & s & H1 & H)];
    apply authorized_some in H1 as [-> Hp]; [by left|].
  destruct (Hp p eq_refl) as [Hlook Hsec]. clear Hp.
  apply bind_some in H as [(e & s & [H1 _]%modify_some & _)|([] & m1 & [_ ->]%modify_some & H)];
    [done|].
  set (seen := fun p : Provider.Provider => p <| Provider.last_seen := now |>) in *.
  assert (shrinks a (on_provider id seen a)) as Hseen
    by (apply shrinks_on_provider; provider_le).
  apply bind_some in H as [(e & s & [_ ->]%lift_some & [= -> ->])|([] & s & [Hv ->]%lift_some & H)];
    [by left|].
  apply bind_some in H as [(e & s & [_ ->]%lift_some & [= -> ->])|(rid & s & [Hr ->]%lift_some & H)];
    [by left|].
  apply bind_some in H as [(e & s & [-> _]%provider_some & [= -> ->])
                          |(q & s & [-> Hq]%provider_some & H)]; [by left|].
  symmetry in Hq. apply ok_or_ok in Hq.
  assert (q = seen p) as ->.
  { unfold lookup_provider, on_provider in Hq, Hlook. simpl in Hq.
    destruct (bool_decide (id ∈ Reg.registered a)); [|done].
    rewrite lookup_alter_eq, Hlook in Hq. by injection Hq. }
  case_bool_decide as Hpend; [|by injection H as <- <-; left].
  apply bind_some in H as [(e & s & [H1 _]%modify_some & _)|([] & m2 & [_ ->]%modify_some & H)];
    [done|].
  set (drop := fun p : Provider.Provider => p
    <| Provider.pending := Provider.pending p ∖ {[rid]} |>) in *.
  assert (shrinks a (on_provider id drop (on_provider id seen a))) as Hdrop
    by (etrans; [exact Hseen | apply shrinks_on_provider; provider_le]).
  destruct (waiting rid) eqn:Hwait; simpl in H; [|by injection H as <- <-; left].
  injection H as <- <-. right. exists p, rid, (on_provider id drop (on_provider id seen a)).
  split_and!; try done. intros q. simpl. rewrite lookup_alter_eq. intros Hq'.
  destruct (alter seen id (Reg.store a) !! id); [|done]. simpl in Hq'.
  injection Hq' as <-. simpl. set_solver.
Qed.

Definition is_extension_method (method : string) : Prop :=
  method ∈ ["snapshot"; "click"; "type"; "navigate"; "unpair"].

(** A call that begins is for a registered provider of this process and origin, and its id
    is pending there. *)
Lemma call_start_cases sha now unix_ms uuid id origin pid method params timeout a r b :
  call_start sha now unix_ms uuid id origin pid method params timeout a = Some (r, b) ->
  (is_err r = true /\ shrinks a b)
  \/ exists m p fields, shrinks a m /\ lookup_provider m id = Some p
       /\ Provider.browser_process_id p = pid
       /\ Pairing.origin (Provider.pairing p) = origin
       /\ is_extension_method method /\ timeout <> 0 /\ timeout <= MAX_EXTENSION_CALL_TIMEOUT_MS
       /\ as_object params = Some fields
       /\ Forall (fun key => field fields key = None) reserved_params
       /\ b = on_provider id (fun p => p
            <| Provider.pending := {[uuid]} ∪ Provider.pending p |>) m
       /\ r = Ok (Object (extension_command sha p fields method uuid
                    (saturating_add unix_ms timeout))).
Proof.
  unfold call_start. destruct (_ || _ : bool) eqn:Ht; [intros [= <- <-]; by left|].
  apply orb_false_iff in Ht as [Ht0 Ht1]. intros H.
  apply bind_some in H as [(e & s & [H1 _]%modify_some & _)|([] & m & [_ ->]%modify_some & H)];
    [done|].
  pose proof (shrinks_forget (dom (filter (fun entry => is_stale now entry.2 = true)
    (Reg.store a))) a) as Hs. fold (prune_stale now a) in Hs.
  set (m := prune_stale now a) in *.
  apply bind_some in H as [(e & s & [-> _]%provider_some & [= -> ->])
                          |(p & s & [-> Hp]%provider_some & H)]; [by left|].
  symmetry in Hp. apply ok_or_ok in Hp.
  destruct (negb (_ =? _)) eqn:Hpid; [injection H as <- <-; by left|].
  case_bool_decide as Horigin; simpl in H; [|injection H as <- <-; by left].
  case_bool_decide as Hmethod; simpl in H; [|injection H as <- <-; by left].
  apply bind_some in H as [(e & s & H1 & [= -> ->])|([] & s & H1 & H)].
  { left. split; [done|]. case_bool_decide; [|by injection H1 as _ <-].
    assert (respects shrinks (require_navigation_capability id)) as Hr
      by (unfold require_navigation_capability, refuse; respects).
    etrans; [exact Hs | exact (Hr _ _ _ H1)]. }
  assert (s = m) as ->.
  { destruct (method == "navigate"); [|by injection H1].
    unfold require_navigation_capability in H1.
    apply bind_some in H1 as [(e & s' & _ & H2)|(q & s' & [-> _]%provider_some & H1)]; [done|].
    case_bool_decide; [by injection H1 | done]. }
  apply bind_some in H as [(e & s & [_ ->]%lift_some & [= -> ->])
                          |(fields & s & [Hf ->]%lift_some & H)]; [by left|].
  symmetry in Hf. apply ok_or_ok in Hf.
  apply bind_some in H as [(e & s & [_ ->]%lift_some & [= -> ->])
                          |([] & s & [Htry ->]%lift_some & H)]; [by left|].
  injection H as <- <-. right. exists m, p, fields. apply negb_false_iff, Z.eqb_eq in Hpid.
  split_and!; try done; [lia | lia |].
  apply Forall_forall. intros key Hkey.
  symmetry in Htry. unfold reject_reserved in Htry.
  apply (proj1 (try_each_ok _ _) Htry key) in Hkey.
  by destruct (field fields key).
Qed.

Definition new_provider (now : Z) (secret : string) (invocation_origin : string) (pid : Z)
    (window : option Z) (owner : option string)
    (hello : string * string * list string * Pairing.ExtensionPairing) : Provider.Provider :=
  let '(extension_id, extension_version, capabilities, pairing) := hello in
  {| Provider.owner := owner; Provider.secret := secret;
     Provider.extension_id := extension_id; Provider.extension_version := extension_version;
     Provider.invocation_origin := invocation_origin; Provider.browser_process_id := pid;
     Provider.native_window := window; Provider.pairing := pairing;
     Provider.capabilities := capabilities; Provider.commands := [];
     Provider.pending := ∅; Provider.last_seen := now |}.

Lemma register_cases now id_uuid secret hello origin pid window owner a r b :
  register_with_window now id_uuid secret hello origin pid window owner a = Some (r, b) ->
  (is_err r = true /\ b = a)
  \/ exists parsed, parse_extension_hello hello origin = Ok parsed /\ pid <> 0
       /\ is_ok r = true
       /\ b = (prune_stale now a)
            <| Reg.store := <["browser-extension-" +:+ id_uuid :=
                 new_provider now secret origin pid window owner parsed]> (Reg.store a) |>
            <| Reg.registered := {["browser-extension-" +:+ id_uuid]}
                 ∪ Reg.registered (prune_stale now a) |>.
Proof.
  unfold register_with_window. destruct (pid =? 0) eqn:Hpid; [intros [= <- <-]; by left|].
  intros H.
  apply bind_some in H as [(e & s & [_ ->]%lift_some & [= -> ->])
                          |([[[ext ver] caps] pairing] & s & [Hp ->]%lift_some & H)]; [by left|].
  injection H as <- <-. right. exists (ext, ver, caps, pairing).
  split_and!; [by symmetry | lia | done | done].
Qed.

(** ** The invariant of the calls under way *)

Record consistent (self : Sys.ExtensionSystem) : Prop := {
  registered_stored : forall id, id ∈ Reg.registered (Sys.registry self) ->
    is_Some (Reg.store (Sys.registry self) !! id);
  (** A pending request is a call under way at this provider. *)
  pending_called : forall id p rid, Reg.store (Sys.registry self) !! id = Some p ->
    rid ∈ Provider.pending p -> exists call, Sys.calls self !! rid = Some call
      /\ ActiveCall.provider_id call = id;
  (** A request that has its reply is not pending any more. *)
  replied_started : forall rid, is_Some (Reg.replies (Sys.registry self) !! rid) ->
    rid ∈ Sys.started self
    /\ forall id p, Reg.store (Sys.registry self) !! id = Some p -> rid ∉ Provider.pending p;
  called_started : forall rid call, Sys.calls self !! rid = Some call ->
    rid ∈ Sys.started self
    /\ is_Some (Reg.store (Sys.registry self) !! ActiveCall.provider_id call);
}.

Lemma shrinks_lookup a b id p' :
  shrinks a b -> Reg.store b !! id = Some p' ->
  exists p, Reg.store a !! id = Some p /\ provider_le p p'.
Proof.
  intros [H _ _] Hb. specialize (H id). rewrite Hb in H. inversion H; subst. eauto.
Qed.
Lemma shrinks_stored a b id :
  shrinks a b -> is_Some (Reg.store a !! id) -> is_Some (Reg.store b !! id).
Proof.
  intros [H _ _] [p Hp]. specialize (H id). rewrite Hp in H. inversion H; subst. eauto.
Qed.

Lemma consistent_shrinks self b :
  consistent self -> shrinks (Sys.registry self) b ->
  consistent (self <| Sys.registry := b |>).
Proof.
  intros [Hreg Hpend Hrep Hcall] Hs. split; simpl.
  - intros id Hid. eapply shrinks_stored; [done|]. apply Hreg. by apply (shrinks_registered _ _ Hs).
  - intros id p' rid Hp Hrid. destruct (shrinks_lookup _ _ _ _ Hs Hp) as (p & Hp0 & Hle).
    apply (Hpend id p); [done | by apply (le_pending _ _ Hle)].
  - intros rid [v Hv]. apply (lookup_weaken _ (Reg.replies (Sys.registry self))) in Hv;
      [|by apply (shrinks_replies _ _ Hs)].
    destruct (Hrep rid) as [? Hno]; [eauto|]. split; [done|]. intros id p' Hp Hrid.
    destruct (shrinks_lookup _ _ _ _ Hs Hp) as (p & Hp0 & Hle).
    apply (Hno id p Hp0). by apply (le_pending _ _ Hle).
  - intros rid call Hc. destruct (Hcall rid call Hc). split; [done|].
    by eapply shrinks_stored.
Qed.

Lemma exec_shrinks {A} (show : A -> value) (m : eff _ _ A) self :
  respects shrinks m ->
  exists b, shrinks (Sys.registry self) b
    /\ (exec show m self).1 = self <| Sys.registry := b |>.
Proof.
  intros Hm. unfold exec. destruct (m (Sys.registry self)) as [[[a|e] b]|] eqn:E.
  1,2: exists b; split; [exact (Hm _ _ _ E) | done].
  exists (Sys.registry self). split; [reflexivity|]. by destruct self.
Qed.

Lemma consistent_exec {A} (show : A -> value) (m : eff _ _ A) self :
  respects shrinks m -> consistent self -> consistent (exec show m self).1.
Proof.
  intros Hm Hc. destruct (exec_shrinks show m self Hm) as (b & Hb & ->).
  by apply consistent_shrinks.
Qed.

(** The calls change only where the request of the operation is. *)
Lemma consistent_update self rid call call' :
  consistent self -> Sys.calls self !! rid = Some call ->
  ActiveCall.provider_id call' = ActiveCall.provider_id call ->
  consistent (self <| Sys.calls := <[rid := call']> (Sys.calls self) |>).
Proof.
  intros [Hreg Hpend Hrep Hcall] Hlook Hid. split; simpl; try done.
  - intros id p rid' Hp Hrid. destruct (Hpend id p rid' Hp Hrid) as (c & Hc & Hcid).
    destruct (decide (rid' = rid)) as [->|]; [|rewrite lookup_insert_ne by done; eauto].
    rewrite lookup_insert_eq. exists call'. simplify_eq. by rewrite Hid.
  - intros rid' c. destruct (decide (rid' = rid)) as [->|];
      [|rewrite lookup_insert_ne by done; eauto].
    rewrite lookup_insert_eq. intros [= <-]. rewrite Hid. eauto.
Qed.

(** A request leaves when no provider has it pending any more. *)
Lemma consistent_remove self rid :
  consistent self ->
  (forall id p, Reg.store (Sys.registry self) !! id = Some p -> rid ∉ Provider.pending p) ->
  consistent (self <| Sys.calls := delete rid (Sys.calls self) |>).
Proof.
  intros [Hreg Hpend Hrep Hcall] Hno. split; simpl; try done.
  - intros id p rid' Hp Hrid. destruct (decide (rid' = rid)) as [->|].
    + by destruct (Hno id p Hp).
    + rewrite lookup_delete_ne by done. eauto.
  - intros rid' c [_ Hc]%lookup_delete_Some. eauto.
Qed.

Lemma pending_elsewhere self id rid call p :
  consistent self -> Sys.calls self !! rid = Some call ->
  Reg.store (Sys.registry self) !! id = Some p -> rid ∈ Provider.pending p ->
  id = ActiveCall.provider_id call.
Proof.
  intros Hc Hcall Hp Hrid.
  destruct (pending_called _ Hc id p rid Hp Hrid) as (c & Hc' & <-). by simplify_eq.
Qed.

Lemma withdraw_some id rid a r b :
  withdraw id rid a = Some (r, b) ->
  forall p, Reg.store b !! id = Some p -> rid ∉ Provider.pending p.
Proof.
  intros [_ ->]%modify_some p. unfold on_provider. simpl. rewrite lookup_alter_eq.
  destruct (_ !! _); [|done]. intros [= <-]. simpl. set_solver.
Qed.

(** However a call ends, its provider has it pending no more. *)
Lemma abandon_ends id rid a r b :
  call_abandon id rid a = Some (r, b) ->
  forall p, Reg.store b !! id = Some p -> rid ∉ Provider.pending p.
Proof.
  unfold call_abandon. intros [(e & s & H & [= _ ->])|([] & s & H & [= _ <-])]%bind_some;
    by eapply withdraw_some.
Qed.

Lemma finish_cases id rid method a r b :
  call_finish id rid method a = Some (r, b) ->
  (exists response p, Reg.replies a !! rid = Some response
     /\ b = a <| Reg.replies := delete rid (Reg.replies a) |>
     /\ Reg.store a !! id = Some p /\ r = check_response id method p response)
  \/ is_err r = true
     /\ forall p, Reg.store b !! id = Some p -> rid ∉ Provider.pending p.
Proof.
  unfold call_finish, call_receive. intros H.
  apply bind_some in H as [(e & s & H1 & [= -> ->])|(response & s & H1 & H)];
    cbn in H1; unfold bind, registry_read, read, modify, ret, refuse, throw in H1;
    destruct (Reg.replies a !! rid) as [v|] eqn:Hv; try done.
  - right. injection H1 as <- <-. split; [done|]. eapply withdraw_some. by unfold withdraw, modify.
  - injection H1 as <- <-. left. revert H. unfold bind, registry_read, read. simpl.
    destruct (Reg.store a !! id) as [p|] eqn:Hp; [|done]. intros [= <- <-].
    by exists v, p.
Qed.

Lemma lookup_provider_store a id p :
  lookup_provider a id = Some p -> id ∈ Reg.registered a /\ Reg.store a !! id = Some p.
Proof. unfold lookup_provider. by case_bool_decide. Qed.

Implicit Types (self : Sys.ExtensionSystem).

Lemma begin_consistent sha256_hex self now unix_ms rid id origin pid method params timeout :
  consistent self ->
  consistent (begin_call rid id method
    (call_start sha256_hex now unix_ms rid id origin pid method params timeout) self).1.
Proof.
  intros Hc. unfold begin_call. case_bool_decide as Hfresh; [done|].
  assert (consistent (self <| Sys.started := {[rid]} ∪ Sys.started self |>)) as Hc'.
  { destruct Hc as [H1 H2 H3 H4]. split; simpl; [done | done | |].
    - intros rid' Hv. destruct (H3 rid' Hv). split; [set_solver | done].
    - intros rid' c Hcall. destruct (H4 rid' c Hcall). split; [set_solver | done]. }
  set (next := self <| Sys.started := {[rid]} ∪ Sys.started self |>) in *.
  unfold exec. destruct (call_start _ _ _ _ _ _ _ _ _ _ _) as [[[v|e] b]|] eqn:E; [| |done];
    apply call_start_cases in E as [[Herr Hs]|(m & p & fields & Hs & Hp & _ & _ & _ & _ & _ & _ & _ & -> & Hr)];
    try done; [|by apply consistent_shrinks].
  apply lookup_provider_store in Hp as [_ Hp]. pose proof (consistent_shrinks _ _ Hc' Hs) as Hm.
  assert (Sys.calls self !! rid = None) as Hnocall.
  { destruct (Sys.calls self !! rid) as [c|] eqn:E; [|done].
    by destruct (called_started _ Hc rid c E). }
  assert (forall v, Reg.replies m !! rid = Some v -> False) as Hnoreply.
  { intros v' Hv. apply Hfresh. apply (replied_started _ Hc).
    exists v'. by apply (lookup_weaken _ _ _ _ Hv), (shrinks_replies _ _ Hs). }
  destruct Hm as [H1 H2 H3 H4]. simpl in *. split; simpl.
  - intros id' Hid. apply H1 in Hid as [q Hq]. destruct (decide (id' = id)) as [->|].
    + rewrite lookup_alter_eq, Hq. by eexists.
    + rewrite lookup_alter_ne by done. by eexists.
  - intros id' q rid'. destruct (decide (id' = id)) as [->|].
    + rewrite lookup_alter_eq, Hp. intros [= <-]. simpl.
      intros [->%elem_of_singleton|Hrid]%elem_of_union; [rewrite lookup_insert_eq; eauto|].
      destruct (H2 id p rid' Hp Hrid) as (c & Hc1 & Hc2).
      exists c. rewrite lookup_insert_ne; [done | congruence].
    + rewrite lookup_alter_ne by done. intros Hq Hrid.
      destruct (H2 id' q rid' Hq Hrid) as (c & Hc1 & Hc2).
      exists c. rewrite lookup_insert_ne; [done | congruence].
  - intros rid' [v' Hv]. destruct (H3 rid') as [? Hno]; [by eexists|]. split; [done|].
    assert (rid' <> rid) by (intros ->; eauto).
    intros id' q. destruct (decide (id' = id)) as [->|].
    + rewrite lookup_alter_eq, Hp. intros [= <-]. simpl. specialize (Hno id p Hp). set_solver.
    + rewrite lookup_alter_ne by done. eauto.
  - intros rid' c. destruct (decide (rid' = rid)) as [->|].
    + rewrite lookup_insert_eq. intros [= <-]. simpl. split; [set_solver|].
      rewrite lookup_alter_eq, Hp. by eexists.
    + rewrite lookup_insert_ne by done. intros Hc1. destruct (H4 _ _ Hc1) as [? [q Hq]].
      split; [done|]. destruct (decide (ActiveCall.provider_id c = id)) as [->|].
      * rewrite lookup_alter_eq, Hp. by eexists.
      * rewrite lookup_alter_ne by done. by eexists.
Qed.

Lemma complete_consistent self now id secret response :
  consistent self ->
  consistent (exec Datatypes.id (complete now
    (fun rid => is_some (Sys.calls self !! rid)) id secret response) self).1.
Proof.
  intros Hc. unfold exec. destruct (complete _ _ _ _ _ _) as [[r b]|] eqn:E; [|done].
  apply complete_cases in E as [[Herr Hs]|(p & rid & m & Hp & _ & _ & _ & Hwait & Hrid & Hs & Hno & _ & ->)].
  { destruct r; by apply consistent_shrinks. }
  apply lookup_provider_store in Hp as [_ Hp].
  destruct (pending_called _ Hc id p rid Hp Hrid) as (call & Hcall & Hid).
  assert (consistent (self <| Sys.registry := m
    <| Reg.replies := <[rid := response]> (Reg.replies m) |> |>)) as Hgoal; [|by destruct r].
  destruct (consistent_shrinks _ _ Hc Hs) as [H1 H2 H3 H4]. simpl in *. split; simpl; try done.
  intros rid' [v Hv]. destruct (decide (rid' = rid)) as [->|].
  - split; [by apply (called_started _ Hc rid call)|]. intros id' q Hq Hin.
    destruct (H2 id' q rid Hq Hin) as (c & Hc1 & Hc2). simplify_eq. by apply (Hno q).
  - rewrite lookup_insert_ne in Hv by done. eauto.
Qed.

Lemma register_consistent self now id_uuid secret hello origin pid window owner :
  Reg.store (Sys.registry self) !! ("browser-extension-" +:+ id_uuid) = None ->
  consistent self ->
  consistent (exec Datatypes.id
    (register_with_window now id_uuid secret hello origin pid window owner) self).1.
Proof.
  intros Hfresh Hc. unfold exec.
  destruct (register_with_window _ _ _ _ _ _ _ _ _) as [[r b]|] eqn:E; [|done].
  set (id := "browser-extension-" +:+ id_uuid) in *.
  apply register_cases in E as [[Herr ->]|([[[ext ver] caps] pairing] & _ & _ & _ & ->)].
  { destruct r; (apply consistent_shrinks; [done | reflexivity]). }
  fold id. match goal with |- consistent (match r with Ok _ => (?s, _) | Err _ => _ end).1 =>
    assert (consistent s) as Hgoal; [|by destruct r] end.
  destruct Hc as [H1 H2 H3 H4]. split; simpl.
  - intros id' Hid. destruct (decide (id' = id)) as [->|]; [rewrite lookup_insert_eq; by eexists|].
    rewrite lookup_insert_ne by done. apply H1. set_solver.
  - intros id' p rid. destruct (decide (id' = id)) as [->|].
    + rewrite lookup_insert_eq. intros [= <-]. simpl. set_solver.
    + rewrite lookup_insert_ne by done. apply H2.
  - intros rid Hv. destruct (H3 rid Hv). split; [done|]. intros id' p.
    destruct (decide (id' = id)) as [->|].
    + rewrite lookup_insert_eq. intros [= <-]. simpl. set_solver.
    + rewrite lookup_insert_ne by done. eauto.
  - intros rid c Hcall. destruct (H4 rid c Hcall) as [? [q Hq]]. split; [done|].
    destruct (decide (ActiveCall.provider_id c = id)) as [Heq|].
    + rewrite Heq, lookup_insert_eq. by eexists.
    + rewrite lookup_insert_ne by done. by eexists.
Qed.

Lemma send_consistent self rid : consistent self -> consistent (send_call rid self).1.
Proof.
  intros Hc. unfold send_call. destruct (Sys.calls self !! rid) as [call|] eqn:Hcall; [|done].
  destruct (ActiveCall.sent call); [done|].
  set (m := call_send (ActiveCall.provider_id call) (ActiveCall.command call)).
  pose proof (consistent_exec Bool m self (shrinking_send _ _) Hc) as Hc'.
  destruct (exec_shrinks Bool m self (shrinking_send _ _)) as (b & Hb & Heq).
  destruct (exec Bool m self) as [self' reply]. simpl in *. subst self'.
  repeat case_match; simpl; try done.
  exact (consistent_update {| Sys.registry := b; Sys.calls := Sys.calls self;
      Sys.started := Sys.started self |} rid call
    {| ActiveCall.provider_id := ActiveCall.provider_id call;
       ActiveCall.method := ActiveCall.method call;
       ActiveCall.command := ActiveCall.command call; ActiveCall.sent := true |}
    Hc' Hcall eq_refl).
Qed.

Lemma end_consistent self sent rid m :
  (forall call, respects shrinks (m call)) ->
  (forall call r b, Sys.calls self !! rid = Some call -> m call (Sys.registry self) = Some (r, b) ->
     forall p, Reg.store b !! ActiveCall.provider_id call = Some p ->
       rid ∉ Provider.pending p) ->
  consistent self -> consistent (end_call sent rid m self).1
    \/ exists call, Sys.calls self !! rid = Some call /\ m call (Sys.registry self) = None.
Proof.
  intros Hm Hend Hc. unfold end_call.
  destruct (Sys.calls self !! rid) as [call|] eqn:Hcall; [|by left].
  case_bool_decide; [|by left].
  pose proof (consistent_exec Datatypes.id (m call) self (Hm call) Hc) as Hc'. unfold exec in *.
  destruct (m call (Sys.registry self)) as [[r b]|] eqn:E; [|right; eauto].
  left. specialize (Hend call r b eq_refl E).
  assert (consistent (self <| Sys.registry := b |>)) as Hb by (by destruct r).
  assert (consistent (self <| Sys.registry := b |> <| Sys.calls := delete rid (Sys.calls self) |>))
    as Hgoal; [|by destruct r].
  apply (consistent_remove _ rid Hb). simpl. intros id p Hp Hrid.
  pose proof (pending_elsewhere _ id rid call p Hb Hcall Hp Hrid) as ->.
  by apply (Hend p).
Qed.

(** Every step keeps what a provider is, and its owner. *)
Definition keeps (a b : Reg.BrowserExtensionRegistry) : Prop :=
  forall id p, Reg.store a !! id = Some p -> exists p', Reg.store b !! id = Some p'
    /\ identity p' = identity p
    /\ forall owner, Provider.owner p = Some owner -> Provider.owner p' = Some owner.

#[export] Instance keeps_preorder : PreOrder keeps.
Proof.
  split; [intros a id p Hp; by exists p|]. intros a b c Hab Hbc id p Hp.
  destruct (Hab id p Hp) as (q & Hq & I1 & O1). destruct (Hbc id q Hq) as (r & Hr & I2 & O2).
  exists r. split; [done|]. split; [congruence | auto].
Qed.

Lemma shrinks_keeps a b : shrinks a b -> keeps a b.
Proof.
  intros [H _ _] id p Hp. specialize (H id). rewrite Hp in H.
  inversion H as [? p' [Hi Ho _] Heq1 Heq2|]; subst. eauto.
Qed.

Lemma keeps_exec {A} (show : A -> value) (m : eff _ _ A) self :
  respects keeps m -> keeps (Sys.registry self) (Sys.registry (exec show m self).1).
Proof.
  intros Hm. unfold exec. destruct (m (Sys.registry self)) as [[[a|e] b]|] eqn:E; simpl;
    [exact (Hm _ _ _ E).. | reflexivity].
Qed.

Lemma respects_keeps {A} (m : eff _ HostError.HostError A) :
  respects shrinks m -> respects keeps m.
Proof. intros Hm a r b H. apply shrinks_keeps. exact (Hm _ _ _ H). Qed.
#[export] Hint Resolve respects_keeps : respects.

Lemma keeps_complete now waiting id secret response :
  respects keeps (complete now waiting id secret response).
Proof.
  intros a r b [[_ Hs]|(p & rid & m & _ & _ & _ & _ & _ & _ & Hs & _ & _ & ->)]%complete_cases;
    by apply shrinks_keeps in Hs.
Qed.

Lemma keeps_call_start sha now unix_ms rid id origin pid method params timeout :
  respects keeps (call_start sha now unix_ms rid id origin pid method params timeout).
Proof.
  intros a r b [[_ Hs]|(m & p & fields & Hs & _ & _ & _ & _ & _ & _ & _ & _ & -> & _)]%call_start_cases;
    apply shrinks_keeps in Hs; [done|].
  etrans; [exact Hs|]. intros id' q Hq. unfold on_provider. simpl.
  destruct (decide (id' = id)) as [->|]; [rewrite lookup_alter_eq, Hq; by eexists|].
  rewrite lookup_alter_ne by done. by exists q.
Qed.

Lemma step_consistent sha self op : consistent self -> consistent (extension_step sha self op).1.
Proof.
  intros Hc. cbn [extension_step fst]. unfold extension_act.
  destruct op; try (apply consistent_exec; [by eauto with respects | done]).
  - case_bool_decide as Hfresh; [done|]. apply register_consistent; [|done].
    by apply eq_None_not_Some.
  - by apply complete_consistent.
  - by apply begin_consistent.
  - by apply send_consistent.
  - destruct (end_consistent self false request_id (fun call =>
      call_abandon (ActiveCall.provider_id call) request_id)) as [?|(call & _ & H)]; try done.
    + intros call. apply shrinking_abandon.
    + intros call r b _ H. exact (abandon_ends _ _ _ _ _ H).
  - destruct (end_consistent self true request_id (fun call =>
      call_finish (ActiveCall.provider_id call) request_id (ActiveCall.method call)))
      as [?|(call & Hcall & H)]; try done.
    + intros call. apply shrinking_finish.
    + intros call r b _ H. apply finish_cases in H as [(v & p & Hv & -> & _)|[_ Hno]]; [|done].
      intros q Hq. simpl in Hq.
      exact (proj2 (replied_started _ Hc request_id (mk_is_Some _ _ Hv)) _ q Hq).
    + exfalso. destruct (called_started _ Hc _ _ Hcall) as [_ [p Hp]].
      revert H. unfold call_finish, call_receive, bind, registry_read, read.
      by destruct (Reg.replies _ !! _); simpl; rewrite ?Hp.
Qed.

Lemma step_keeps sha self op :
  consistent self ->
  keeps (Sys.registry self) (Sys.registry (extension_step sha self op).1).
Proof.
  intros Hc. cbn [extension_step fst]. unfold extension_act.
  destruct op; try (apply keeps_exec; by eauto with respects).
  - case_bool_decide as Hfresh; [reflexivity|]. unfold exec.
    destruct (register_with_window _ _ _ _ _ _ _ _ _) as [[r b]|] eqn:E; [|reflexivity].
    apply register_cases in E as [[_ ->]|(parsed & _ & _ & _ & ->)]; [by destruct r|].
    intros id p Hp. exists p. split; [|done]. destruct r; simpl;
      (rewrite lookup_insert_ne; [done|]; intros <-; apply Hfresh; by eexists).
  - apply keeps_exec, keeps_complete.
  - unfold begin_call. case_bool_decide; [reflexivity|].
    match goal with |- context [exec Datatypes.id ?m ?s] =>
      pose proof (keeps_exec Datatypes.id m s (keeps_call_start _ _ _ _ _ _ _ _ _ _)) as Hk;
      destruct (exec Datatypes.id m s) as [self' [[v|e]|]] end; exact Hk.
  - unfold send_call. destruct (Sys.calls self !! request_id) as [call|]; [|reflexivity].
    destruct (ActiveCall.sent call); [reflexivity|].
    match goal with |- context [exec Bool ?m ?s] =>
      pose proof (keeps_exec Bool m s (respects_keeps _ (shrinking_send _ _))) as Hk;
      destruct (exec Bool m s) as [self' reply] end.
    repeat case_match; exact Hk.
  - unfold end_call. destruct (Sys.calls self !! request_id) as [call|]; [|reflexivity].
    case_bool_decide; [|reflexivity].
    match goal with |- context [exec Datatypes.id ?m ?s] =>
      pose proof (keeps_exec Datatypes.id m s (respects_keeps _ (shrinking_abandon _ _))) as Hk;
      destruct (exec Datatypes.id m s) end; exact Hk.
  - unfold end_call. destruct (Sys.calls self !! request_id) as [call|]; [|reflexivity].
    case_bool_decide; [|reflexivity].
    match goal with |- context [exec Datatypes.id ?m ?s] =>
      pose proof (keeps_exec Datatypes.id m s (respects_keeps _ (shrinking_finish _ _ _))) as Hk;
      destruct (exec Datatypes.id m s) end; exact Hk.
Qed.

(** ** Runs *)

(** The state before the [k]th operation. *)
Definition before (sha256_hex : string -> string) (ops : list extension_op) (k : nat)
    : Sys.ExtensionSystem :=
  (extension_run sha256_hex new_system (take k ops)).1.

Lemma new_consistent : consistent new_system.
Proof.
  split; simpl.
  - intros id Hid. by apply elem_of_empty in Hid.
  - intros id p rid Hp. by rewrite lookup_empty in Hp.
  - intros rid [v Hv]. by rewrite lookup_empty in Hv.
  - intros rid c Hc. by rewrite lookup_empty in Hc.
Qed.

Lemma before_consistent sha ops k : consistent (before sha ops k).
Proof.
  unfold before, extension_run.
  apply run_invariant; [intros; by apply step_consistent | apply new_consistent].
Qed.

Lemma before_keeps sha ops i j :
  (i <= j)%nat -> keeps (Sys.registry (before sha ops i)) (Sys.registry (before sha ops j)).
Proof.
  intros Hij.
  assert (PreOrder (fun a b => keeps (Sys.registry a) (Sys.registry b)))
    by (split; [intros ?; reflexivity | intros ? ? ?; by etrans]).
  apply (run_related (extension_step sha) consistent
    (fun a b => keeps (Sys.registry a) (Sys.registry b))); [| | apply new_consistent | done].
  - intros. by apply step_consistent.
  - intros. by apply step_keeps.
Qed.

(** A call under way, of this provider and method. *)
Definition called (rid id method : string) (self : Sys.ExtensionSystem) : Prop :=
  exists call, Sys.calls self !! rid = Some call
    /\ ActiveCall.provider_id call = id /\ ActiveCall.method call = method.

(** A step that accepts the start of the call. *)
Definition starts (rid id method : string) (self : Sys.ExtensionSystem) (op : extension_op)
    (reply : extension_reply) : Prop :=
  exists now unix_ms origin pid params timeout command p,
    op = OpCallStart now unix_ms rid id origin pid method params timeout
    /\ reply = (op, Some (Ok command))
    /\ Reg.store (Sys.registry self) !! id = Some p
    /\ Provider.browser_process_id p = pid
    /\ Pairing.origin (Provider.pairing p) = origin.

(** A step that accepts the completion of the call. *)
Definition completes (rid id method : string) (response : value)
    (self : Sys.ExtensionSystem) (op : extension_op) (reply : extension_reply) : Prop :=
  exists now secret accepted p,
    op = OpComplete now id secret response /\ reply = (op, Some (Ok accepted))
    /\ bounded_string response "request_id" MAX_REQUEST_ID_CHARS = Ok rid
    /\ called rid id method self
    /\ Reg.store (Sys.registry self) !! id = Some p /\ Provider.secret p = secret.

Lemma exec_calls {A} (show : A -> value) (m : eff _ _ A) self :
  Sys.calls (exec show m self).1 = Sys.calls self
  /\ Sys.started (exec show m self).1 = Sys.started self.
Proof. unfold exec. by destruct (m (Sys.registry self)) as [[[] ?]|]. Qed.

Lemma called_exec {A} (show : A -> value) (m : eff _ _ A) self rid id method :
  called rid id method (exec show m self).1 -> called rid id method self.
Proof.
  destruct (exec_calls show m self) as [Hcalls _]. intros (c & Hc & Hid).
  rewrite Hcalls in Hc. by exists c.
Qed.

Lemma called_end sent rid' m self rid id method :
  called rid id method (end_call sent rid' m self).1 -> called rid id method self.
Proof.
  unfold end_call. destruct (Sys.calls self !! rid') as [call|]; [|done].
  case_bool_decide; [|done]. destruct (exec_calls Datatypes.id (m call) self) as [Hcalls _].
  destruct (exec Datatypes.id (m call) self) as [s reply]. intros (c & Hc & Hid). cbn in *.
  apply lookup_delete_Some in Hc as [_ Hc]. rewrite Hcalls in Hc. by exists c.
Qed.

Lemma called_send rid' self rid id method :
  called rid id method (send_call rid' self).1 -> called rid id method self.
Proof.
  unfold send_call. destruct (Sys.calls self !! rid') as [call|] eqn:Hcall; [|done].
  destruct (ActiveCall.sent call); [done|].
  match goal with |- context [exec ?show ?m self] =>
    pose proof (called_exec show m self rid id method) as He;
    destruct (exec_calls show m self) as [Hcalls _];
    destruct (exec show m self) as [s reply] end. cbn in Hcalls, He.
  repeat case_match; cbn; try exact He. intros (c & Hc & Hi & Hm). cbn in Hc.
  rewrite Hcalls in Hc. destruct (decide (rid' = rid)) as [->|].
  - rewrite lookup_insert_eq in Hc. injection Hc as <-. by exists call.
  - rewrite lookup_insert_ne in Hc by done. by exists c.
Qed.

Lemma called_begin sha now unix_ms rid' id' origin pid method' params timeout self self' reply
    rid id method :
  begin_call rid' id' method'
    (call_start sha now unix_ms rid' id' origin pid method' params timeout) self
    = (self', reply) ->
  called rid id method self' ->
  called rid id method self
  \/ starts rid id method self
       (OpCallStart now unix_ms rid' id' origin pid method' params timeout)
       (OpCallStart now unix_ms rid' id' origin pid method' params timeout, reply).
Proof.
  unfold begin_call. case_bool_decide; [by intros [= <- <-]; left|]. unfold exec.
  cbn [Sys.registry assign].
  destruct (call_start _ _ _ _ _ _ _ _ _ _ _) as [[[v|e] b]|] eqn:E; cbn;
    intros [= <- <-] (c & Hc & Hid); cbn in Hc; try (left; by exists c).
  destruct (decide (rid' = rid)) as [->|];
    [|rewrite lookup_insert_ne in Hc by done; left; by exists c].
  rewrite lookup_insert_eq in Hc. injection Hc as <-. cbn in Hid. destruct Hid as [-> ->].
  apply call_start_cases in E as [[Herr _]|(m & p & fields & Hs & Hp & Hpid & Ho & _)]; [done|].
  apply lookup_provider_store in Hp as [_ Hp].
  destruct (shrinks_lookup _ _ _ _ Hs Hp) as (q & Hq & [Hidn _ _]).
  unfold identity in Hidn. right. exists now, unix_ms, origin, pid, params, timeout, v, q.
  split_and!; try done; congruence.
Qed.

(** A call comes from an accepted start. *)
Lemma step_called sha rid id method self op self' reply :
  extension_step sha self op = (self', reply) -> called rid id method self' ->
  called rid id method self \/ starts rid id method self op reply.
Proof.
  intros [= <- <-] Hcalled. unfold extension_act in *.
  destruct op; try (eapply called_begin; [apply surjective_pairing | done]).
  all: left; cbn beta iota in Hcalled.
  1: revert Hcalled; case_bool_decide; [done | apply called_exec].
  all: first [exact (called_exec _ _ _ _ _ _ Hcalled)
             | exact (called_send _ _ _ _ _ Hcalled)
             | exact (called_end _ _ _ _ _ _ _ Hcalled)].
Qed.

(** *** Where a reply comes from *)

Definition replied (rid : string) (response : value) (self : Sys.ExtensionSystem) : Prop :=
  Reg.replies (Sys.registry self) !! rid = Some response.

Lemma replied_registry rid response a b self self' :
  Sys.registry self = a -> Sys.registry self' = b -> Reg.replies b ⊆ Reg.replies a ->
  replied rid response self' -> replied rid response self.
Proof. intros <- <- Hsub H. by eapply lookup_weaken. Qed.

Lemma replied_exec {A} (show : A -> value) (m : eff _ _ A) self rid response :
  respects shrinks m ->
  replied rid response (exec show m self).1 -> replied rid response self.
Proof.
  intros Hm. destruct (exec_shrinks show m self Hm) as (b & Hb & ->).
  apply (replied_registry rid response (Sys.registry self) b); [done..|]. apply (shrinks_replies _ _ Hb).
Qed.

(** The calls do not matter for the replies. *)
Lemma replied_calls rid response self calls :
  replied rid response (self <| Sys.calls := calls |>) -> replied rid response self.
Proof. done. Qed.

Lemma replied_end sent rid' m self rid response :
  (forall call, respects shrinks (m call)) ->
  replied rid response (end_call sent rid' m self).1 -> replied rid response self.
Proof.
  intros Hm. unfold end_call. destruct (Sys.calls self !! rid') as [call|]; [|done].
  case_bool_decide; [|done].
  pose proof (replied_exec Datatypes.id (m call) self rid response (Hm call)) as He.
  by destruct (exec Datatypes.id (m call) self).
Qed.

Lemma replied_send rid' self rid response :
  replied rid response (send_call rid' self).1 -> replied rid response self.
Proof.
  unfold send_call. destruct (Sys.calls self !! rid') as [call|]; [|done].
  destruct (ActiveCall.sent call); [done|].
  match goal with |- context [exec ?show ?m self] =>
    pose proof (replied_exec show m self rid response (shrinking_send _ _)) as He;
    destruct (exec show m self) as [s reply] end.
  repeat case_match; exact He.
Qed.

Lemma replied_begin sha now unix_ms rid' id origin pid method params timeout self rid response :
  replied rid response (begin_call rid' id method
    (call_start sha now unix_ms rid' id origin pid method params timeout) self).1 ->
  replied rid response self.
Proof.
  unfold begin_call. case_bool_decide; [done|]. unfold exec. cbn [Sys.registry assign].
  destruct (call_start _ _ _ _ _ _ _ _ _ _ _) as [[r b]|] eqn:E; [|done].
  assert (Reg.replies b ⊆ Reg.replies (Sys.registry self)) as Hsub.
  { apply call_start_cases in E as [[_ Hs]|(m & p & fields & Hs & _ & _ & _ & _ & _ & _ & _ & _ & -> & _)];
      by apply (shrinks_replies _ _ Hs). }
  intros Hreply. apply (replied_registry rid response (Sys.registry self) b self {| Sys.registry := b;
    Sys.calls := ∅; Sys.started := ∅ |}); [done..|]. by destruct r.
Qed.

(** What an accepted completion was checked against. *)
Definition accepted (self : Sys.ExtensionSystem) (id secret rid : string) (response : value)
    : Prop :=
  exists p, lookup_provider (Sys.registry self) id = Some p
    /\ Provider.secret p = secret /\ rid ∈ Provider.pending p
    /\ bounded_string response "request_id" MAX_REQUEST_ID_CHARS = Ok rid.

Lemma replied_complete now waiting id secret response' self rid response :
  let '(self', reply) := exec Datatypes.id (complete now waiting id secret response') self in
  replied rid response self' ->
  replied rid response self
  \/ response' = response /\ (exists v, reply = Some (Ok v)) /\ accepted self id secret rid response.
Proof.
  unfold exec. destruct (complete _ _ _ _ _ _) as [[r b]|] eqn:E; [|by left].
  apply complete_cases in E as [[Herr Hs]|(p & rid' & m & Hp & Hsec & _ & Hrid & _ & Hin & Hs & _ & Hok & ->)].
  - destruct r; [done|]. intros H. left. by apply (lookup_weaken _ _ _ _ H), (shrinks_replies _ _ Hs).
  - destruct r as [v|]; [|done]. unfold replied. cbn.
    destruct (decide (rid' = rid)) as [->|].
    + rewrite lookup_insert_eq. intros [= ->]. right. split; [done|]. split; [by exists v|].
      by exists p.
    + rewrite lookup_insert_ne by done. intros H. left.
      by apply (lookup_weaken _ _ _ _ H), (shrinks_replies _ _ Hs).
Qed.

Lemma step_reply sha rid response self op self' reply :
  extension_step sha self op = (self', reply) -> replied rid response self' ->
  replied rid response self
  \/ exists now id secret v, op = OpComplete now id secret response
       /\ reply = (op, Some (Ok v)) /\ accepted self id secret rid response.
Proof.
  intros [= <- <-] H. unfold extension_act in *. destruct op; cbn beta iota in H.
  5: { pose proof (replied_complete now (fun rid => is_some (Sys.calls self !! rid)) provider_id
         provider_secret response0 self rid response) as Hc.
       destruct (exec _ _ _) as [s1 r1]. cbn in *.
       destruct (Hc H) as [|(-> & [v ->] & Hacc)]; [by left|]. right. by do 4 eexists. }
  all: left.
  1: revert H; case_bool_decide; [done|]; unfold exec;
     destruct (register_with_window _ _ _ _ _ _ _ _ _) as [[r b]|] eqn:E; [|done];
     apply register_cases in E as [[_ ->]|(parsed & _ & _ & _ & ->)]; by destruct r.
  all: first [apply replied_exec in H; [exact H | by eauto with respects]
             | exact (replied_begin _ _ _ _ _ _ _ _ _ _ _ _ _ H)
             | exact (replied_send _ _ _ _ H)
             | apply replied_end in H; [exact H | intros; by eauto with respects]].
Qed.

Lemma step_replied sha rid id method response self op self' reply :
  consistent self -> extension_step sha self op = (self', reply) ->
  replied rid response self' /\ called rid id method self' ->
  (replied rid response self /\ called rid id method self)
  \/ completes rid id method response self op reply.
Proof.
  intros Hc Hstep [Hreply Hcalled].
  destruct (step_called _ _ _ _ _ _ _ _ Hstep Hcalled) as [Hcall|Hstart];
    destruct (step_reply _ _ _ _ _ _ _ Hstep Hreply) as [Hold|(now & id' & secret & v & -> & -> & Hacc)].
  - by left.
  - right. destruct Hacc as (p & Hp & Hsec & Hin & Hrid).
    apply lookup_provider_store in Hp as [_ Hp].
    destruct Hcall as (call & Hcall & <- & <-).
    pose proof (pending_elsewhere _ _ _ _ _ Hc Hcall Hp Hin) as ->.
    exists now, secret, v, p. split_and!; try done. by exists call.
  - destruct Hstart as (now & unix_ms & origin & pid & params & timeout & command & p & -> & -> & _).
    destruct (replied_started _ Hc rid) as [Hst _]; [by eexists|].
    revert Hstep. unfold extension_step, extension_act, begin_call.
    by rewrite bool_decide_eq_true_2 by done.
  - by destruct Hstart as (? & ? & ? & ? & ? & ? & ? & ? & [=] & _).
Qed.

Lemma run_called sha ops j rid id method :
  called rid id method (before sha ops j) ->
  exists i op reply, (i < j)%nat /\ (extension_run sha new_system ops).2 !! i = Some reply
    /\ starts rid id method (before sha ops i) op reply.
Proof.
  intros H. unfold before, extension_run in H.
  apply (run_entered (extension_step sha) consistent (called rid id method)
    (fun s op _ r => starts rid id method s op r)) in H
    as [(c & Hc & _)|(i & op & r & Hi & _ & Hr & _ & _ & He)].
  - cbn in Hc. by rewrite lookup_empty in Hc.
  - by exists i, op, r.
  - intros. by apply step_consistent.
  - intros s op s' r _ Hstep. by eapply step_called.
  - apply new_consistent.
Qed.

Lemma run_replied sha ops j rid id method response :
  replied rid response (before sha ops j) -> called rid id method (before sha ops j) ->
  exists k op reply, (k < j)%nat /\ (extension_run sha new_system ops).2 !! k = Some reply
    /\ completes rid id method response (before sha ops k) op reply.
Proof.
  intros H1 H2.
  assert (replied rid response (before sha ops j) /\ called rid id method (before sha ops j))
    as H by done. unfold before, extension_run in H.
  apply (run_entered (extension_step sha) consistent
    (fun s => replied rid response s /\ called rid id method s)
    (fun s op _ r => completes rid id method response s op r)) in H
    as [[_ (c & Hc & _)]|(k & op & r & Hk & _ & Hr & _ & _ & He)].
  - cbn in Hc. by rewrite lookup_empty in Hc.
  - by exists k, op, r.
  - intros. by apply step_consistent.
  - intros s op s' r Hc Hstep. by eapply step_replied.
  - apply new_consistent.
Qed.

Lemma finish_step sha self rid self' result :
  extension_step sha self (OpCallFinish rid) = (self', (OpCallFinish rid, Some (Ok result))) ->
  exists call p response, Sys.calls self !! rid = Some call /\ replied rid response self
    /\ Reg.store (Sys.registry self) !! ActiveCall.provider_id call = Some p
    /\ check_response (ActiveCall.provider_id call) (ActiveCall.method call) p response
       = Ok result.
Proof.
  unfold extension_step, extension_act, end_call.
  destruct (Sys.calls self !! rid) as [call|]; [|done]. case_bool_decide; [|done].
  unfold exec. destruct (call_finish _ _ _ _) as [[r b]|] eqn:E; [|done].
  apply finish_cases in E as [(v & p & Hv & _ & Hp & ->)|[Herr _]]; [|by destruct r].
  destruct (check_response _ _ _ _) as [answer|] eqn:Hcheck; [|done].
  intros [= _ <-]. by exists call, p, v.
Qed.

(** C12: the result of an extension call is what the paired provider completed it with.
    In any run of the registry from its start, in which registrations, polls, completions,
    claims and calls interleave in any order, a call that returns a result was started for
    a provider of exactly the process and origin the caller expected, and between the start
    and the end a completion was accepted that carried the secret of the same provider and
    the id of the same request; the result is that completion's, checked.  No other
    provider, and no completion of another request, can answer the call. *)
Theorem extension_results_are_completions sha ops j rid result :
  (extension_run sha new_system ops).2 !! j
    = Some (OpCallFinish rid, Some (Ok result)) ->
  exists i k id method p response now unix_ms params timeout command now' accepted,
    (i < k < j)%nat
    /\ Reg.store (Sys.registry (before sha ops j)) !! id = Some p
    /\ (extension_run sha new_system ops).2 !! i
       = Some (OpCallStart now unix_ms rid id (Pairing.origin (Provider.pairing p))
                 (Provider.browser_process_id p) method params timeout, Some (Ok command))
    /\ (extension_run sha new_system ops).2 !! k
       = Some (OpComplete now' id (Provider.secret p) response, Some (Ok accepted))
    /\ bounded_string response "request_id" MAX_REQUEST_ID_CHARS = Ok rid
    /\ check_response id method p response = Ok result.
Proof.
  intros Hj. destruct (run_lookup _ _ _ _ _ Hj) as (op & _ & Hstep).
  fold (extension_run sha) in Hstep. fold (before sha ops j) in Hstep.
  assert (op = OpCallFinish rid) as ->
    by (revert Hstep; unfold extension_step; by intros [= _ ->]).
  apply finish_step in Hstep as (call & p & response & Hcall & Hreply & Hp & Hcheck).
  set (id := ActiveCall.provider_id call) in *. set (method := ActiveCall.method call) in *.
  destruct (run_replied sha ops j rid id method response Hreply) as
    (k & opk & rk & Hk & Hrk & now' & secret & accepted & pk & -> & -> & Hrid & Hcalled & Hpk & Hsec);
    [by exists call|].
  destruct (run_called sha ops k rid id method Hcalled) as
    (i & opi & ri & Hi & Hri & now & unix_ms & origin & pid & params & timeout & command & pi
      & -> & -> & Hpi & Hpid & Horigin).
  destruct (before_keeps sha ops k j ltac:(lia) id pk Hpk) as (p1 & Hp1 & Hid1 & _).
  destruct (before_keeps sha ops i j ltac:(lia) id pi Hpi) as (p2 & Hp2 & Hid2 & _).
  simplify_eq. unfold identity in Hid1, Hid2. simplify_eq.
  exists i, k, id, method, p, response, now, unix_ms, params, timeout, command, now', accepted.
  split_and!; try done; congruence.
Qed.
