(* ===== verification/ExtensionPairings.v ===== *)
(** * Paired browser extensions: what the providers are, and whom they serve

    The well-formedness of every provider that a run of [ExtensionRegistry] holds, the
    ownership of a pairing by the task that claimed it, and sample runs of the registry. *)

From S2P Require Import Prelude Records Effects Runs RustStr Json Protocol Errors ExtensionRegistry.

(** ** Well-formed providers *)

Definition bounded (maximum : Z) (s : string) : Prop :=
  s <> "" /\ str_len s <= maximum.

(** A command for the tab of this provider. *)
Definition addressed (p : Provider.Provider) (rid method : string) (command : value) : Prop :=
  is_extension_method method
  /\ command.["schema"] = Str EXTENSION_SCHEMA
  /\ command.["request_id"] = Str rid
  /\ command.["method"] = Str method
  /\ command.["session_nonce"] = Str (Pairing.session_nonce (Provider.pairing p))
  /\ command.["tab_id"] = Number (PosInt (Pairing.tab_id (Provider.pairing p))).

Record well_formed_pairing (p : Pairing.ExtensionPairing) : Prop := {
  wf_nonce : bounded 64 (Pairing.session_nonce p);
  wf_tab : 0 < Pairing.tab_id p;
  wf_window : 0 < Pairing.window_id p;
  wf_origin : bounded 2048 (Pairing.origin p);
  wf_document : bounded 128 (Pairing.document_id p);
}.

(** What a registration settles. *)
Record well_formed_identity (p : Provider.Provider) : Prop := {
  wf_process : Provider.browser_process_id p <> 0;
  wf_extension : bounded 128 (Provider.extension_id p);
  wf_version : bounded 64 (Provider.extension_version p);
  wf_invocation :
    invocation_matches_extension (Provider.invocation_origin p) (Provider.extension_id p) = true;
  wf_pairing : well_formed_pairing (Provider.pairing p);
  wf_capabilities : 1 <= len (Provider.capabilities p) <= 32
    /\ NoDup (Provider.capabilities p) /\ Forall (bounded 128) (Provider.capabilities p);
}.

Record well_formed (p : Provider.Provider) : Prop := {
  wf_identity : well_formed_identity p;
  wf_queue : len (Provider.commands p) <= PROVIDER_QUEUE_CAPACITY;
  wf_commands : Forall (fun command => exists rid method, addressed p rid method command)
    (Provider.commands p);
}.

(** *** The parsed hello *)

Lemma bounded_string_ok v key maximum s :
  bounded_string v key maximum = Ok s -> v.[key] = Str s /\ bounded maximum s.
Proof.
  unfold bounded_string. rewrite ok_or_ok. destruct (as_str v.[key]) as [text|] eqn:E; [|done].
  destruct (negb _ && _ : bool) eqn:B; [|done]. intros [= ->]. reflect_all.
  split; [by apply as_str_some | done].
Qed.

Lemma positive_id_ok v key n : positive_id v key = Ok n -> 0 < n.
Proof.
  unfold positive_id. rewrite ok_or_ok. destruct (as_u64 v.[key]) as [id|]; [|done].
  destruct (0 <? id) eqn:B; [|done]. intros [= ->]. lia.
Qed.

Lemma collect_capabilities_ok values capabilities :
  collect_capabilities values = Ok capabilities ->
  length capabilities = length values /\ Forall (bounded 128) capabilities.
Proof.
  revert capabilities. induction values as [|v values IH]; intros capabilities;
    cbn [collect_capabilities]; [by intros [= <-]|].
  unfold capability_of at 1. intros H. open_ok. destruct (as_str v) as [text|]; [|done].
  destruct (negb _ && _ : bool) eqn:B; [|done]. simplify_eq. reflect_all.
  edestruct IH as [Hl Hf]; [done|]. simpl. split; [by rewrite Hl|]. by constructor.
Qed.

Lemma parse_pairing_ok v p : parse_pairing v = Ok p -> well_formed_pairing p.
Proof.
  unfold parse_pairing. intros H. open_ok. simplify_eq.
  repeat match goal with
  | H : bounded_string _ _ _ = Ok _ |- _ => apply bounded_string_ok in H as [_ H]
  | H : positive_id _ _ = Ok _ |- _ => apply positive_id_ok in H
  end. done.
Qed.

Lemma parse_hello_ok now secret hello origin pid window owner parsed :
  parse_extension_hello hello origin = Ok parsed -> pid <> 0 ->
  well_formed_identity (new_provider now secret origin pid window owner parsed).
Proof.
  unfold parse_extension_hello. intros H Hpid.
  apply rbind_ok in H as ([] & _ & H). apply guard_ok in H as [_ H].
  apply rbind_ok in H as ([] & _ & H). apply guard_ok in H as [_ H].
  apply rbind_ok in H as ([] & _ & H). apply rbind_ok in H as (id & [_ Hid]%bounded_string_ok & H).
  apply rbind_ok in H as (version & [_ Hversion]%bounded_string_ok & H).
  apply guard_ok in H as [Hinv%negb_false_iff H]. apply rbind_ok in H as ([] & _ & H).
  destruct (as_array _) as [values|]; [|done]. apply guard_ok in H as [Hlen H].
  apply rbind_ok in H as (capabilities & [Hl Hf]%collect_capabilities_ok & H).
  apply guard_ok in H as [Hnodup H].
  apply rbind_ok in H as (pairing & Hpairing%parse_pairing_ok & H). injection H as <-.
  reflect_all. split; simpl; try done. split_and!; try done; unfold len in *; rewrite Hl; lia.
Qed.

(** *** Steps that add no command *)

Definition provider_quiet (p p' : Provider.Provider) : Prop :=
  identity p' = identity p /\ suffix (Provider.commands p') (Provider.commands p).

#[export] Instance provider_quiet_preorder : PreOrder provider_quiet.
Proof.
  split; [by split|]. intros p q r [I1 S1] [I2 S2]. split; [congruence | by etrans].
Qed.

(** The providers are the same ones, and none has a new command. *)
Definition quiet (a b : Reg.BrowserExtensionRegistry) : Prop :=
  forall id, option_Forall2 provider_quiet (Reg.store a !! id) (Reg.store b !! id).

#[export] Instance quiet_preorder : PreOrder quiet.
Proof.
  split.
  - intros a id. destruct (_ !! _); by constructor.
  - intros a b c Hab Hbc id. specialize (Hab id). specialize (Hbc id).
    destruct Hab; inversion Hbc; subst; constructor. by etrans.
Qed.

Lemma quiet_same a b : Reg.store a = Reg.store b -> quiet a b.
Proof. intros H id. rewrite H. destruct (_ !! _); by constructor. Qed.

Lemma quiet_on_provider id f a :
  (forall p, provider_quiet p (f p)) -> quiet a (on_provider id f a).
Proof.
  intros Hf id'. unfold on_provider. simpl. destruct (decide (id' = id)) as [->|Hne].
  - rewrite lookup_alter_eq. destruct (_ !! _); by constructor.
  - rewrite lookup_alter_ne by done. destruct (_ !! _); by constructor.
Qed.

Lemma quiet_lookup a b id p' :
  quiet a b -> Reg.store b !! id = Some p' ->
  exists p, Reg.store a !! id = Some p /\ provider_quiet p p'.
Proof. intros H Hb. specialize (H id). rewrite Hb in H. inversion H; subst. eauto. Qed.
Lemma quiet_stored a b id p :
  quiet a b -> Reg.store a !! id = Some p ->
  exists p', Reg.store b !! id = Some p' /\ provider_quiet p p'.
Proof. intros H Hb. specialize (H id). rewrite Hb in H. inversion H; subst. eauto. Qed.

Lemma quiet_modify_provider {E} id f :
  (forall p, provider_quiet p (f p)) -> respects quiet (modify (E := E) (on_provider id f)).
Proof. intros Hf. apply respects_modify; [apply _|]. intros a. by apply quiet_on_provider. Qed.
Lemma quiet_modify {E} f :
  (forall a, Reg.store a = Reg.store (f a)) -> respects quiet (modify (E := E) f).
Proof. intros Hf. apply respects_modify; [apply _|]. intros a. apply quiet_same, Hf. Qed.

Lemma suffix_tail {A} (l : list A) : suffix (tail l) l.
Proof. destruct l as [|x l]; [done|]. by exists [x]. Qed.

(** Walks through an operation; a change is to a provider's other fields, or takes
    commands off its queue, or is outside the store. *)
Ltac quiet_change :=
  first [ apply quiet_modify_provider; intros ?; split; [done | simpl];
          first [done | apply suffix_tail]
        | apply quiet_modify; intros ?; done ].
Ltac quiet := respects; try quiet_change.

Section Quiet.
Context (sha256_hex : string -> string).

Lemma quiet_provider id : respects quiet (provider id).
Proof. unfold provider, registry_read. quiet. Qed.
Hint Resolve quiet_provider : respects.
Lemma quiet_authorized id secret : respects quiet (authorized_provider id secret).
Proof. unfold authorized_provider, refuse. quiet. Qed.
Hint Resolve quiet_authorized : respects.
Lemma quiet_claim id pid hwnd origin capability :
  respects quiet (claim id pid hwnd origin capability).
Proof. unfold claim, refuse. quiet. Qed.
Lemma quiet_unregister id secret : respects quiet (unregister id secret).
Proof. unfold unregister. quiet. Qed.
Lemma quiet_poll_start now id secret timeout :
  respects quiet (next_command_start now id secret timeout).
Proof. unfold next_command_start, refuse. quiet. Qed.
Lemma quiet_poll_finish id : respects quiet (next_command_finish id).
Proof. unfold next_command_finish, registry_read. quiet. Qed.
Lemma quiet_complete now waiting id secret response :
  respects quiet (complete now waiting id secret response).
Proof. unfold complete, refuse. quiet. Qed.
Lemma quiet_status now pid : respects quiet (status_for_process now pid).
Proof. unfold status_for_process, registry_read. quiet. Qed.
Lemma quiet_start now unix_ms uuid id origin pid method params timeout :
  respects quiet
    (call_start sha256_hex now unix_ms uuid id origin pid method params timeout).
Proof. unfold call_start, require_navigation_capability, refuse. quiet. Qed.
Lemma quiet_abandon id rid : respects quiet (call_abandon id rid).
Proof. unfold call_abandon, withdraw, refuse. quiet. Qed.
Lemma quiet_call_finish id rid method : respects quiet (call_finish id rid method).
Proof. unfold call_finish, call_receive, withdraw, refuse, registry_read. quiet. Qed.
Lemma quiet_revoke id method result : respects quiet (revoke_after_navigation id method result).
Proof. unfold revoke_after_navigation. quiet. Qed.
End Quiet.

#[export] Hint Resolve quiet_claim quiet_unregister quiet_poll_start quiet_poll_finish
  quiet_complete quiet_status quiet_start quiet_abandon quiet_call_finish quiet_revoke : respects.

(** *** The invariant *)

(** Every provider is well formed, and every call's command is for its provider. *)
Record well_typed (self : Sys.ExtensionSystem) : Prop := {
  providers_typed : forall id p,
    Reg.store (Sys.registry self) !! id = Some p -> well_formed p;
  calls_typed : forall rid call, Sys.calls self !! rid = Some call ->
    exists p, Reg.store (Sys.registry self) !! ActiveCall.provider_id call = Some p
      /\ addressed p rid (ActiveCall.method call) (ActiveCall.command call);
}.

Lemma addressed_identity p p' rid method command :
  identity p' = identity p -> addressed p rid method command -> addressed p' rid method command.
Proof. unfold identity, addressed. intros [=] ?. congruence. Qed.

Lemma well_formed_identity_eq p p' :
  identity p' = identity p -> well_formed_identity p -> well_formed_identity p'.
Proof. unfold identity. intros [=] []. split; congruence. Qed.

Lemma well_formed_quiet p p' : provider_quiet p p' -> well_formed p -> well_formed p'.
Proof.
  intros [Hid Hsuffix] [Hw Hq Hc]. split.
  - by apply (well_formed_identity_eq p).
  - destruct Hsuffix as [front Hf]. rewrite Hf in Hq. revert Hq. unfold len.
    rewrite length_app. lia.
  - destruct Hsuffix as [front Hf]. rewrite Hf in Hc. apply Forall_app in Hc as [_ Hc].
    eapply Forall_impl; [exact Hc|]. intros c (rid & method & Ha). exists rid, method.
    by apply (addressed_identity p).
Qed.

Lemma well_typed_quiet self b :
  quiet (Sys.registry self) b -> well_typed self -> well_typed (self <| Sys.registry := b |>).
Proof.
  intros Hq [Hp Hc]. split; simpl.
  - intros id p' Hid. destruct (quiet_lookup _ _ _ _ Hq Hid) as (p & Hid0 & Hpp).
    eapply well_formed_quiet; eauto.
  - intros rid call Hcall. destruct (Hc rid call Hcall) as (p & Hid & Ha).
    destruct (quiet_stored _ _ _ _ Hq Hid) as (p' & Hid' & [Hi _]).
    exists p'. split; [done|]. by apply (addressed_identity p).
Qed.

Lemma well_typed_exec {A} (show : A -> value) (m : eff _ _ A) self :
  respects quiet m -> well_typed self -> well_typed (exec show m self).1.
Proof.
  intros Hm Hs. unfold exec. destruct (m (Sys.registry self)) as [[[a|e] b]|] eqn:E; simpl;
    [by apply well_typed_quiet; [exact (Hm _ _ _ E)|].. | done].
Qed.

Lemma well_typed_calls self registry calls started :
  registry = Sys.registry self ->
  (forall rid call, calls !! rid = Some call ->
     exists p, Reg.store registry !! ActiveCall.provider_id call = Some p
       /\ addressed p rid (ActiveCall.method call) (ActiveCall.command call)) ->
  well_typed self ->
  well_typed {| Sys.registry := registry; Sys.calls := calls; Sys.started := started |}.
Proof. intros -> Hc [Hp _]. by split. Qed.

Lemma well_typed_end sent rid m self :
  (forall call, respects quiet (m call)) -> well_typed self ->
  well_typed (end_call sent rid m self).1.
Proof.
  intros Hm Hs. unfold end_call. destruct (Sys.calls self !! rid) as [call|]; [|done].
  case_bool_decide; [|done].
  pose proof (well_typed_exec Datatypes.id (m call) self (Hm call) Hs) as Hs'.
  destruct (exec _ _ _) as [self' reply]. simpl in *. eapply well_typed_calls; [done| |done].
  intros rid' call' [_ Hc]%lookup_delete_Some. by apply calls_typed.
Qed.

(** The command of a call is for the provider that it was built for. *)
Lemma extension_command_addressed sha p fields method rid deadline :
  is_extension_method method ->
  addressed p rid method (Object (extension_command sha p fields method rid deadline)).
Proof.
  intros Hm. unfold addressed, extension_command. split; [done|].
  destruct (Provider.owner p); destruct (method == "navigate"); unfold index; cbn [get];
    split_and!; repeat first [rewrite field_set_field | rewrite field_set_field_ne by done];
    done.
Qed.

Lemma well_typed_begin sha self now unix_ms rid id origin pid method params timeout :
  well_typed self ->
  well_typed (begin_call rid id method
    (call_start sha now unix_ms rid id origin pid method params timeout) self).1.
Proof.
  intros Hs. unfold begin_call. case_bool_decide; [done|]. unfold exec.
  set (started := {[rid]} ∪ Sys.started self). simpl.
  destruct (call_start _ _ _ _ _ _ _ _ _ _ _) as [[r b]|] eqn:E;
    [|by apply (well_typed_calls self); [| apply calls_typed|]].
  assert (well_typed (self <| Sys.registry := b |>)) as Hb
    by (apply well_typed_quiet; [exact (quiet_start _ _ _ _ _ _ _ _ _ _ _ _ _ E) | done]).
  apply call_start_cases in E as [[Herr _]
    |(m & p & fields & _ & Hp & _ & _ & Hmethod & _ & _ & _ & _ & -> & ->)];
    [destruct r; [done|]; by eapply well_typed_calls; [| apply (calls_typed _ Hb) | exact Hb]|].
  eapply well_typed_calls; [| | exact Hb]; [done|]. simpl.
  intros rid' call. destruct (decide (rid' = rid)) as [->|].
  - rewrite lookup_insert_eq. intros [= <-]. apply lookup_provider_store in Hp as [_ Hp].
    simpl. rewrite lookup_alter_eq, Hp. eexists. split; [done|].
    by apply (addressed_identity p); [|apply extension_command_addressed].
  - rewrite lookup_insert_ne by done. intros Hc. exact (calls_typed _ Hb rid' call Hc).
Qed.

Lemma call_send_some id command a r b :
  call_send id command a = Some (r, b) ->
  (r = Ok false /\ b = a)
  \/ r = Ok true /\ b = on_provider id (fun p => p
          <| Provider.commands := Provider.commands p ++ [command] |>) a
     /\ forall p, Reg.store a !! id = Some p -> len (Provider.commands p) < PROVIDER_QUEUE_CAPACITY.
Proof.
  unfold call_send. intros H.
  apply bind_some in H as [(e & s & H & _)|(commands & s & [H ->]%read_some & Hs)]; [done|].
  injection H as ->. destruct (_ <? _) eqn:Hlen; [|injection Hs as <- <-; by left].
  injection Hs as <- <-. right. split_and!; [done | done|]. intros p Hp. rewrite Hp in Hlen. lia.
Qed.

Lemma well_typed_send rid self : well_typed self -> well_typed (send_call rid self).1.
Proof.
  intros Hs. unfold send_call. destruct (Sys.calls self !! rid) as [call|] eqn:Hcall; [|done].
  destruct (ActiveCall.sent call); [done|].
  destruct (calls_typed _ Hs rid call Hcall) as (p & Hp & Ha).
  unfold exec. destruct (call_send _ _ _) as [[r b]|] eqn:E; [|done].
  apply call_send_some in E as [[-> ->]|(-> & -> & Hroom)]; [by destruct self|].
  specialize (Hroom p Hp).
  split; simpl.
  - intros id q. destruct (decide (id = ActiveCall.provider_id call)) as [->|];
      [|rewrite lookup_alter_ne by done; by apply providers_typed].
    rewrite lookup_alter_eq, Hp. intros [= <-].
    destruct (providers_typed _ Hs _ _ Hp) as [Hw Hq Hc]. split; simpl.
    + by apply (well_formed_identity_eq p).
    + revert Hroom. unfold len. rewrite length_app. simpl. lia.
    + apply Forall_app. split; [exact Hc|]. repeat constructor. by eexists _, _.
  - intros rid' call' Hc'.
    assert (exists c, Sys.calls self !! rid' = Some c
      /\ ActiveCall.provider_id c = ActiveCall.provider_id call'
      /\ ActiveCall.method c = ActiveCall.method call'
      /\ ActiveCall.command c = ActiveCall.command call') as (c & Hc & <- & <- & <-).
    { destruct (decide (rid' = rid)) as [->|].
      - rewrite lookup_insert_eq in Hc'. injection Hc' as <-. by exists call.
      - rewrite lookup_insert_ne in Hc' by done. by exists call'. }
    destruct (calls_typed _ Hs rid' c Hc) as (q & Hq & Haq).
    destruct (decide (ActiveCall.provider_id c = ActiveCall.provider_id call)) as [Heq|].
    + rewrite Heq, lookup_alter_eq. rewrite <- Heq, Hq. eexists. split; [done|].
      by apply (addressed_identity q).
    + rewrite lookup_alter_ne by done. by exists q.
Qed.

Lemma well_typed_register self now id_uuid secret hello origin pid window owner :
  Reg.store (Sys.registry self) !! ("browser-extension-" +:+ id_uuid) = None ->
  well_typed self ->
  well_typed (exec Datatypes.id
    (register_with_window now id_uuid secret hello origin pid window owner) self).1.
Proof.
  intros Hfresh Hs. unfold exec.
  destruct (register_with_window _ _ _ _ _ _ _ _ _) as [[r b]|] eqn:E; [|done].
  apply register_cases in E as [[Herr ->]|(parsed & Hparsed & Hpid & Hr & ->)];
    [by destruct r, self|].
  destruct r as [v|]; [|done]. split; simpl.
  - intros id p. destruct (decide (id = "browser-extension-" +:+ id_uuid)) as [->|].
    + rewrite lookup_insert_eq. intros [= <-]. split; [by eapply parse_hello_ok|..].
      all: destruct parsed as [[[? ?] ?] ?]; first [done | constructor].
    + rewrite lookup_insert_ne by done. by apply providers_typed.
  - intros rid call Hcall. destruct (calls_typed _ Hs rid call Hcall) as (p & Hp & Ha).
    rewrite lookup_insert_ne by congruence. by exists p.
Qed.

Lemma step_well_typed sha self op : well_typed self -> well_typed (extension_step sha self op).1.
Proof.
  intros Hs. cbn [extension_step fst]. unfold extension_act.
  destruct op; try (apply well_typed_exec; [by eauto with respects | done]).
  - case_bool_decide as Hfresh; [done|]. apply well_typed_register; [|done].
    by apply eq_None_not_Some.
  - by apply well_typed_begin.
  - by apply well_typed_send.
  - apply well_typed_end; [|done]. intros call. apply quiet_abandon.
  - apply well_typed_end; [|done]. intros call. apply quiet_call_finish.
Qed.

(** C14: every provider a run of the registry ever holds is well formed, whatever the
    extensions and the callers send: its process is known, its ids, origin and nonce are
    within their bounds, the invocation origin is that of its extension, it has between 1
    and 32 distinct capabilities, and its queue holds at most 16 commands, each one of the
    known methods with the session nonce and the tab of this provider and no other. *)
Theorem held_providers_are_well_formed sha ops k id p :
  Reg.store (Sys.registry (before sha ops k)) !! id = Some p -> well_formed p.
Proof.
  apply providers_typed. unfold before, extension_run.
  apply run_invariant; [intros; by apply step_well_typed|].
  split; simpl; intros ? ? H; by rewrite lookup_empty in H.
Qed.

(** ** The owner of a pairing *)

Lemma claim_cases id pid hwnd origin capability a u b :
  claim id pid hwnd origin capability a = Some (Ok u, b) ->
  exists p, Reg.store a !! id = Some p
    /\ Provider.browser_process_id p = pid /\ Provider.native_window p = Some hwnd
    /\ Pairing.origin (Provider.pairing p) = origin
    /\ (forall owner, Provider.owner p = Some owner -> owner = capability)
    /\ exists p', Reg.store b !! id = Some p' /\ Provider.owner p' = Some capability.
Proof.
  unfold claim. intros (p & s & [-> Hp]%provider_some & H)%bind_ok.
  symmetry in Hp. apply ok_or_ok, lookup_provider_store in Hp as [_ Hp]. exists p.
  destruct (_ || _ : bool) eqn:Htarget; [done|]. destruct (is_some_and _ _) eqn:Howner; [done|].
  injection H as _ <-. reflect_all. split_and!; try done.
  - intros owner Ho. specialize (Howner owner Ho). by reflect_in Howner.
  - unfold on_provider. simpl. rewrite lookup_alter_eq, Hp. eexists. split; [done|]. simpl.
    destruct (Provider.owner p) as [owner|] eqn:Ho; [|done]. specialize (Howner owner eq_refl).
    reflect_in Howner. by subst.
Qed.

Lemma claim_step sha self id pid hwnd origin capability self' v :
  extension_step sha self (OpClaim id pid hwnd origin capability)
    = (self', (OpClaim id pid hwnd origin capability, Some (Ok v))) ->
  exists p, Reg.store (Sys.registry self) !! id = Some p
    /\ Provider.browser_process_id p = pid /\ Provider.native_window p = Some hwnd
    /\ Pairing.origin (Provider.pairing p) = origin
    /\ (forall owner, Provider.owner p = Some owner -> owner = capability)
    /\ exists p', Reg.store (Sys.registry self') !! id = Some p'
         /\ Provider.owner p' = Some capability.
Proof.
  unfold extension_step, extension_act, exec.
  destruct (claim _ _ _ _ _ _) as [[[u|e] b]|] eqn:E; [|done..].
  intros [= <- _]. by apply claim_cases in E.
Qed.

(** A command that is built for a provider with an owner carries the owner's digest. *)
Lemma start_step sha self now unix_ms rid id origin pid method params timeout self' v p owner :
  Reg.store (Sys.registry self) !! id = Some p -> Provider.owner p = Some owner ->
  extension_step sha self (OpCallStart now unix_ms rid id origin pid method params timeout)
    = (self', (OpCallStart now unix_ms rid id origin pid method params timeout, Some (Ok v))) ->
  v.["_dcc_task_owner"] = Str (sha owner).
Proof.
  intros Hp Ho. unfold extension_step, extension_act, begin_call, exec.
  case_bool_decide; [done|]. simpl.
  destruct (call_start _ _ _ _ _ _ _ _ _ _ _) as [[[u|e] b]|] eqn:E; [|done..].
  intros [= _ ->]. apply call_start_cases in E
    as [[? _]|(m & q & fields & Hs & Hq & _ & _ & _ & _ & _ & _ & _ & _ & [= ->])]; [done|].
  apply lookup_provider_store in Hq as [_ Hq].
  destruct (shrinks_lookup _ _ _ _ Hs Hq) as (p0 & Hp0 & Hle). simplify_eq.
  pose proof (le_owner _ _ Hle owner Ho) as Hqo. unfold extension_command. rewrite Hqo.
  unfold index. cbn [get]. by rewrite field_set_field.
Qed.

(** The [i]th operation of the run is [op], and was accepted with the answer [v]. *)
Definition accepted_at (sha : string -> string) (ops : list extension_op) (i : nat)
    (op : extension_op) (v : value) : Prop :=
  (extension_run sha new_system ops).2 !! i = Some (op, Some (Ok v)).

(** Before the operations after an accepted claim, the provider belongs to the claimant. *)
Lemma claimed_before sha ops i j id pid hwnd origin capability v :
  (i < j)%nat ->
  accepted_at sha ops i (OpClaim id pid hwnd origin capability) v ->
  exists p, Reg.store (Sys.registry (before sha ops j)) !! id = Some p
    /\ Provider.browser_process_id p = pid /\ Provider.native_window p = Some hwnd
    /\ Pairing.origin (Provider.pairing p) = origin
    /\ Provider.owner p = Some capability.
Proof.
  intros Hij Hi. unfold accepted_at in *. destruct (run_lookup _ _ _ _ _ Hi) as (op & _ & Hstep).
  fold (extension_run sha) in Hstep. fold (before sha ops i) (before sha ops (S i)) in Hstep.
  assert (op = OpClaim id pid hwnd origin capability) as ->
    by (revert Hstep; unfold extension_step; by intros [= _ ->]).
  apply claim_step in Hstep as (p & Hp & Hpid & Hhwnd & Horigin & _ & p1 & Hp1 & Ho1).
  destruct (before_keeps sha ops i j ltac:(lia) id p Hp) as (q & Hq & Hid & _).
  destruct (before_keeps sha ops (S i) j ltac:(lia) id p1 Hp1) as (q1 & Hq1 & _ & Ho).
  rewrite Hq in Hq1. injection Hq1 as <-. exists q. revert Hid. unfold identity. intros [=].
  split_and!; try congruence.
  by apply Ho.
Qed.

(** C13: a pairing has one owner.  Once a task claimed a paired tab, in any run of the
    registry, no other task's claim of it is accepted, and no claim for another process,
    window or origin; and every command of a call that starts later names the digest of
    this task's capability, so that the extension can tell whom it serves. *)
Theorem pairing_has_one_owner sha ops i j id pid hwnd origin capability v op w :
  (i < j)%nat ->
  accepted_at sha ops i (OpClaim id pid hwnd origin capability) v ->
  accepted_at sha ops j op w ->
  (forall pid' hwnd' origin' capability',
     op = OpClaim id pid' hwnd' origin' capability' ->
     (pid', hwnd', origin', capability') = (pid, hwnd, origin, capability))
  /\ (forall now unix_ms rid origin' pid' method params timeout,
     op = OpCallStart now unix_ms rid id origin' pid' method params timeout ->
     w.["_dcc_task_owner"] = Str (sha capability)).
Proof.
  intros Hij Hi Hj.
  destruct (claimed_before sha ops i j _ _ _ _ _ _ Hij Hi) as (p & Hp & <- & Hhwnd & <- & Ho).
  destruct (run_lookup _ _ _ _ _ Hj) as (op' & _ & Hstep).
  fold (extension_run sha) in Hstep. fold (before sha ops j) (before sha ops (S j)) in Hstep.
  assert (op' = op) as -> by (revert Hstep; unfold extension_step; by intros [= _ ->]).
  split; intros; subst op.
  - apply claim_step in Hstep as (q & Hq & <- & Hh & <- & Howner & _). simplify_eq.
    by rewrite (Howner capability Ho).
  - eapply start_step; eauto.
Qed.

(** ** Sample runs *)

Definition sample_hello : value := Object
  [("schema", Str EXTENSION_SCHEMA); ("type", Str "hello");
   ("protocol", Object [("min", Number (PosInt 1)); ("max", Number (PosInt 1))]);
   ("extension", Object [("id", Str "published-extension"); ("version", Str "0.1.0")]);
   ("capabilities", Array [Str "explicit_tab_pairing_v1"; Str "semantic_snapshot_v1"]);
   ("pairing", Object
      [("session_nonce", Str "nonce-1"); ("tab_id", Number (PosInt 7));
       ("window_id", Number (PosInt 9)); ("origin", Str "https://example.com");
       ("document_id", Str "document-1")])].

Definition sample_response : value := Object
  [("schema", Str EXTENSION_SCHEMA); ("type", Str "response"); ("request_id", Str "request-1");
   ("ok", Bool true); ("result", Object [("clicked", Bool true)])].

Definition sample_digest (s : string) : string := "digest of " +:+ s.

Definition sample_registration : extension_op :=
  OpRegister 0 "1" "secret" sample_hello "chrome-extension://published-extension/" 42 (Some 77)
    None.

(** The tab is paired and claimed; a click is called, polled, completed and returned. *)
Definition sample_call : list extension_op :=
  let id := "browser-extension-1" in
  [sample_registration;
   OpClaim id 42 77 "https://example.com" "task-one";
   OpCallStart 1000 1700 "request-1" id "https://example.com" 42 "click" (Object []) 5000;
   OpCallSend "request-1";
   OpPollStart 1100 id "secret" 5000;
   OpPollFinish id;
   OpComplete 1200 id "secret" sample_response;
   OpCallFinish "request-1";
   OpClaim id 42 77 "https://example.com" "task-one"].

Definition sample_result : value := Object
  [("type", Str "browser_extension_result"); ("provider_id", Str "browser-extension-1");
   ("origin", Str "https://example.com"); ("method", Str "click");
   ("result", Object [("clicked", Bool true)])].

Lemma extension_results_are_completions_witness :
  exists i k id method p response now unix_ms params timeout command now' accepted,
    (i < k < 7)%nat
    /\ Reg.store (Sys.registry (before sample_digest sample_call 7)) !! id = Some p
    /\ (extension_run sample_digest new_system sample_call).2 !! i
       = Some (OpCallStart now unix_ms "request-1" id (Pairing.origin (Provider.pairing p))
                 (Provider.browser_process_id p) method params timeout, Some (Ok command))
    /\ (extension_run sample_digest new_system sample_call).2 !! k
       = Some (OpComplete now' id (Provider.secret p) response, Some (Ok accepted))
    /\ bounded_string response "request_id" MAX_REQUEST_ID_CHARS = Ok "request-1"
    /\ check_response id method p response = Ok sample_result.
Proof.
  apply (extension_results_are_completions sample_digest sample_call 7 "request-1" sample_result).
  vm_compute. reflexivity.
Defined.

Lemma held_providers_are_well_formed_witness :
  exists p, Reg.store (Sys.registry (before sample_digest sample_call 4))
              !! "browser-extension-1" = Some p
    /\ length (Provider.commands p) = 1%nat /\ well_formed p.
Proof.
  destruct (Reg.store (Sys.registry (before sample_digest sample_call 4))
              !! "browser-extension-1") as [p|] eqn:E; [|vm_compute in E; discriminate E].
  exists p. split; [reflexivity|]. split; [vm_compute in E; injection E as <-; reflexivity|].
  apply (held_providers_are_well_formed sample_digest sample_call 4 "browser-extension-1" p E).
Defined.

Lemma pairing_has_one_owner_witness :
  exists op w, accepted_at sample_digest sample_call 2 op w
    /\ w.["_dcc_task_owner"] = Str "digest of task-one".
Proof.
  destruct ((extension_run sample_digest new_system sample_call).2 !! 2%nat)
    as [[op [[w|e]|]]|] eqn:E; try (vm_compute in E; discriminate E).
  exists op, w. split; [exact E|].
  assert (op = OpCallStart 1000 1700 "request-1" "browser-extension-1" "https://example.com" 42
                 "click" (Object []) 5000) as Hop
    by (vm_compute in E; injection E as <- _; reflexivity).
  assert (exists v, (extension_run sample_digest new_system sample_call).2 !! 1%nat
    = Some (OpClaim "browser-extension-1" 42 77 "https://example.com" "task-one", Some (Ok v)))
    as [v Hi] by (eexists; vm_compute; reflexivity).
  exact (proj2 (pairing_has_one_owner sample_digest sample_call 1 2 "browser-extension-1" 42 77
    "https://example.com" "task-one" v op w ltac:(lia) Hi E) _ _ _ _ _ _ _ _ Hop).
Defined.

(** A poll may wait for 30 seconds, but the provider counts as stale 15 seconds after the
    poll began: a status in between removes it while it is polling. *)
Lemma polling_provider_goes_stale :
  let id := "browser-extension-1" in
  let run := extension_run sample_digest new_system
    [sample_registration; OpPollStart 0 id "secret" 30000; OpStatus 15000 42;
     OpPollStart 30000 id "secret" 30000] in
  map (fun r => match r.2 with Some (Ok v) => v.["available"] | _ => Str "error" end) run.2
  = [Null; Null; Bool false; Str "error"].
Proof. vm_compute. reflexivity. Qed.
