(* ===== verification/BrowserSession.v ===== *)
(** * The typed browser session ([crates/dcc-cua-browser/src/lib.rs], [BrowserSession])

    The adapter binds one exact browser target, accepts a snapshot of one of its tabs
    as evidence, and lets a mutation through only against that snapshot.  The window
    session it drives is an interface: the two calls it makes of it and the target it
    reads. *)

From S2P Require Import Prelude Records Effects Runs RustStr Json Errors TargetPolicy.
From S2P Require Import Platform Request BrowserEvidence.

(** ** Data *)

Module BrowserSession.
Record BrowserSession : Type := {
  target_id : option string;
  mutation_allowed : bool;
  latest_snapshot_id : option string;
  latest_tab_id : option string;
  latest_origin : option string;
  pending_ancestor_continuation : option Pending.PendingAncestorContinuation;
}.

#[global] Instance BrowserSession_settable : Settable BrowserSession := fun s => {|
  target_id := target_id s;
  mutation_allowed := mutation_allowed s;
  latest_snapshot_id := latest_snapshot_id s;
  latest_tab_id := latest_tab_id s;
  latest_origin := latest_origin s;
  pending_ancestor_continuation := pending_ancestor_continuation s;
|}.

(** The derived [Default]. *)
Definition default : BrowserSession := {|
  target_id := None;
  mutation_allowed := false;
  latest_snapshot_id := None;
  latest_tab_id := None;
  latest_origin := None;
  pending_ancestor_continuation := None;
|}.
End BrowserSession.

Module BS := BrowserSession.

(** ** The window session, as the adapter sees it *)

Class BrowserNative (N : Type) : Type := {
  call_browser_tool : string -> value -> eff N cerror value;
  call_browser_download_tool : value -> eff N cerror value;
  native_target : N -> option value;
}.

(** ** The state of the adapter alone *)

Definition clear_snapshot (self : BS.BrowserSession) : BS.BrowserSession :=
  self
    <| BS.latest_snapshot_id := None |>
    <| BS.latest_tab_id := None |>
    <| BS.latest_origin := None |>
    <| BS.pending_ancestor_continuation := None |>.

Definition invalidate_snapshot : BS.BrowserSession -> BS.BrowserSession := clear_snapshot.

Definition bind_authorized_exact_target (target_id : string)
    : eff BS.BrowserSession cerror unit :=
  do? self := read id in
  if str_is_empty target_id || (target_id != trim target_id)
     || (256 <? chars_count target_id) || any_char is_control target_id
  then throw (invalid "authorized browser target_id is invalid")
  else if is_some_and (fun bound => bound != target_id) (BS.target_id self)
  then throw (stale "authorized browser target does not match the existing Host binding")
  else modify (fun self => clear_snapshot (self
    <| BS.target_id := Some target_id |>
    <| BS.mutation_allowed := true |>)).

(** The refusal is a map, whose index panics on a missing field. *)
Definition refusal_text (refusal : value) (key default : string) : option string :=
  option_map (fun v => unwrap_or (as_str v) default) (get refusal key).

Definition store_binding (answer : value) : eff BS.BrowserSession cerror unit :=
  do? structured := lift (structured_content answer) in
  if is_object structured.["refusal"] then
    match refusal_text structured.["refusal"] "code" "browser_refused",
          refusal_text structured.["refusal"] "message"
            "CUA refused the browser binding" with
    | Some code, Some message =>
        throw (ComputerUseError.new ComputerUseErrorCode.BrowserRefused
                 (code +:+ ": " +:+ message))
    | _, _ => panic
    end
  else match as_str structured.["target_id"] with
  | Some target_id =>
      if str_is_empty target_id then throw (invalid "browser bind omitted target_id")
      else modify (fun self => clear_snapshot (self
        <| BS.target_id := Some target_id |>
        <| BS.mutation_allowed :=
             is_str structured.["binding_quality"] "exact"
             && is_bool structured.["mutation_allowed"] true |>))
  | None => throw (invalid "browser bind omitted target_id")
  end.

Definition require_bound_target (target_id : string) (self : BS.BrowserSession)
    : cresult unit :=
  if BS.target_id self != Some target_id
  then Err (stale "browser target is not bound to this Host session") else Ok tt.

Definition require_exact_target (target_id : string) (self : BS.BrowserSession)
    : cresult unit :=
  check? require_bound_target target_id self in
  if negb (BS.mutation_allowed self)
  then Err (ComputerUseError.new ComputerUseErrorCode.BrowserRefused
    "browser binding is not exact and is read-only")
  else Ok tt.

Definition require_mutation_target (target_id tab_id snapshot_id : string)
    (self : BS.BrowserSession) : cresult unit :=
  check? require_exact_target target_id self in
  if is_none (BS.latest_snapshot_id self) || (BS.latest_tab_id self != Some tab_id)
  then Err (stale "take a fresh browser snapshot before mutating the tab")
  else if BS.latest_snapshot_id self != Some snapshot_id
  then Err (stale "browser snapshot_id does not match the latest browser snapshot")
  else Ok tt.

Definition validate_type_request (request : BType.BrowserTypeRequest)
    (self : BS.BrowserSession) : cresult unit :=
  check? validate_source request in
  check? require_mutation_target (BType.target_id request) (BType.tab_id request)
           (BType.snapshot_id request) self in
  check? validate_ref (BType.element_ref request) "browser_type ref" in
  let? _ := validate_type_mode (BType.mode request) in Ok tt.

Definition ancestor_scope_expectation (request : BSnapshot.BrowserSnapshotRequest)
    (self : BS.BrowserSession) : cresult (option Expectation.AncestorScopeExpectation) :=
  let or_default o := unwrap_or o "" in
  match BSnapshot.scope_ancestor_role request with
  | Some role =>
      Ok (Some (Expectation.Initial (or_default (BSnapshot.scope_ref request))
        (to_ascii_lowercase role) (or_default (BSnapshot.target_id request))
        (or_default (BSnapshot.tab_id request))))
  | None =>
  match BSnapshot.continuation request with
  | None => Ok None
  | Some token =>
  match BS.pending_ancestor_continuation self with
  | None =>
      match BSnapshot.target_id request, BSnapshot.tab_id request with
      | Some target_id, Some tab_id =>
          Ok (Some (Expectation.UntrackedContinuation target_id tab_id))
      | _, _ => Ok None
      end
  | Some pending =>
      if (token == Pending.token pending)
         && (BSnapshot.target_id request == Some (Pending.target_id pending))
         && (BSnapshot.tab_id request == Some (Pending.tab_id pending))
      then
        if (BSnapshot.snapshot_format request != "semantic_v2")
           || is_some (BSnapshot.scope_ref request) || is_some (BSnapshot.query request)
        then Err (invalid "tracked ancestor continuation requires semantic_v2 and cannot include scope_ref or query")
        else Ok (Some (Expectation.Continuation pending))
      else Err (stale
        "ancestor-scoped continuation does not match the latest exact tab evidence")
  end
  end
  end.

(** An accepted snapshot of one tab becomes the latest evidence. *)
Definition accept_snapshot `{Platform} (answer : value) (target_id tab_id : string)
    (validated : option Validated.ValidatedAncestorScope) (self : BS.BrowserSession)
    : BS.BrowserSession :=
  self
    <| BS.latest_snapshot_id :=
         or_else (option_map Validated.snapshot_id validated) (browser_snapshot_id answer) |>
    <| BS.latest_tab_id := Some tab_id |>
    <| BS.latest_origin := browser_snapshot_origin answer tab_id |>
    <| BS.pending_ancestor_continuation :=
         validated ≫= fun scope =>
           option_map (fun token =>
             {| Pending.token := token; Pending.target_id := target_id;
                Pending.tab_id := tab_id;
                Pending.snapshot_id := Validated.snapshot_id scope;
                Pending.anchor := Validated.anchor scope |})
             (Validated.continuation scope) |>.

(** ** Operations on the adapter and its window session *)

Section Operations.
Context `{PL : Platform} `{BF : BrowserFiles} {N : Type} `{BN : BrowserNative N}.

Abbreviation browser_op A := (eff (N * BS.BrowserSession) cerror A).

Definition with_native {A} (m : eff N cerror A) : browser_op A :=
  on_part fst (fun n s => (n, s.2)) m.
Definition with_session {A} (m : eff BS.BrowserSession cerror A) : browser_op A :=
  on_part snd (fun b s => (s.1, b)) m.
Definition require {A} (f : BS.BrowserSession -> cresult A) : browser_op A :=
  with_session (do? self := read id in lift (f self)).
(** A computation that may panic or fail. *)
Definition decode {A} (r : option (cresult A)) : browser_op A :=
  match r with Some r => lift r | None => panic end.

(** [begin_snapshot_sensitive_native_attempt] and [begin_dialog_attempt]. *)
Definition begin_snapshot_sensitive_native_attempt : browser_op unit :=
  with_session (modify clear_snapshot).

(** The attempt fences the snapshot before the call leaves the adapter. *)
Definition attempt_tool (name : string) (args : value) : browser_op BResult.BrowserResult :=
  run? begin_snapshot_sensitive_native_attempt in
  do? answer := with_native (call_browser_tool name args) in
  decode (from_value answer).

Definition prepare (request : BPrepare.BrowserPrepareRequest)
    : browser_op BResult.BrowserResult :=
  if is_some_and (fun token => MAX_TEXT_CHARS <? chars_count token)
       (BPrepare.approval_token request)
  then throw (invalid "browser approval_token exceeds the 4096-character limit")
  else
    let args := Object [("allow_launch", Bool (BPrepare.allow_launch request))] in
    let args := set_some args "approval_token" Str (BPrepare.approval_token request) in
    let args := set_some args "profile" id (BPrepare.profile request) in
    let args := set_some args "strategy" id (BPrepare.strategy request) in
    let existing_profile := is_str args.["strategy"].["kind"] "existing_profile" in
    run? begin_snapshot_sensitive_native_attempt in
    do? answer := with_native (call_browser_tool "browser_prepare" args) in
    do? result := decode (from_prepare_value answer) in
    do? target := with_native (read native_target) in
    ret (result <| BResult.answer :=
                     annotate (BResult.answer result) existing_profile target |>).

Definition snapshot (request : BSnapshot.BrowserSnapshotRequest)
    : browser_op BResult.BrowserResult :=
  if (BSnapshot.snapshot_format request != "dom_refs_v1")
     && (BSnapshot.snapshot_format request != "semantic_v2")
  then throw (invalid "snapshot_format must be dom_refs_v1 or semantic_v2")
  else
    do? args := lift (browser_snapshot_args request) in
    do? expected := require (ancestor_scope_expectation request) in
    match BSnapshot.target_id request with
    | None =>
        if is_some (BSnapshot.tab_id request)
        then throw (invalid "tab_id requires target_id")
        else
          do? result := attempt_tool "get_browser_state" args in
          do? validated :=
            lift (validate_ancestor_scope_response (BResult.answer result) expected) in
          if is_some validated
          then throw (unavailable
            "CUA ancestor-scoped snapshot omitted its exact target and tab")
          else
            run? with_session (store_binding (BResult.answer result)) in
            ret result
    | Some target_id =>
        run? require (require_bound_target target_id) in
        do? tab_id := lift (ok_or (BSnapshot.tab_id request)
          (invalid "tab_id is required for browser snapshot mode")) in
        if str_is_empty (trim tab_id)
        then throw (invalid "tab_id must not be empty")
        else
          let args := set_index args "target_id" (Str target_id) in
          let args := set_index args "tab_id" (Str tab_id) in
          do? result := attempt_tool "get_browser_state" args in
          let answer := BResult.answer result in
          do? refused := lift (browser_result_is_structured_refusal answer) in
          if refused : bool then ret result
          else
            do? validated := lift (validate_ancestor_scope_response answer expected) in
            run? with_session
              (modify (accept_snapshot answer target_id tab_id validated)) in
            ret result
    end.

Definition navigate (request : BNavigate.BrowserNavigateRequest)
    : browser_op BResult.BrowserResult :=
  run? require (require_exact_target (BNavigate.target_id request)) in
  run? lift (validate_navigate_request request) in
  let delivery_mode := unwrap_or (BNavigate.delivery_mode request) "background" in
  do? result := attempt_tool "browser_navigate" (Object
    [("target_id", Str (BNavigate.target_id request));
     ("tab_id", Str (BNavigate.tab_id request));
     ("url", Str (BNavigate.url request));
     ("delivery_mode", Str delivery_mode)]) in
  do? succeeded := lift (navigation_response_is_success (BResult.answer result)
    (BNavigate.target_id request) (BNavigate.tab_id request) (BNavigate.url request)
    delivery_mode) in
  lift (into_public_navigation_receipt succeeded result).

Definition click (request : BClick.BrowserClickRequest)
    : browser_op BResult.BrowserResult :=
  run? require (require_mutation_target (BClick.target_id request)
                  (BClick.tab_id request) (BClick.snapshot_id request)) in
  do? route := lift (validate_route (BClick.input_route request)) in
  if is_none (BClick.element_ref request) && is_none (BClick.x request)
  then throw (invalid "browser_click requires ref or x/y coordinates")
  else if negb (Bool.eqb (is_some (BClick.x request)) (is_some (BClick.y request)))
  then throw (invalid "browser_click coordinates require both x and y")
  else if (route == "dom_event") && is_none (BClick.element_ref request)
  then throw (invalid "dom_event browser_click requires ref")
  else
    let args := Object
      [("target_id", Str (BClick.target_id request));
       ("tab_id", Str (BClick.tab_id request));
       ("input_route", Str route)] in
    let args := set_some args "ref" Str (BClick.element_ref request) in
    match BClick.x request, BClick.y request with
    | Some x, Some y =>
        let args := set_index args "x" (json_f64 x) in
        attempt_tool "browser_click" (set_index args "y" (json_f64 y))
    | Some _, None => panic
    | None, _ => attempt_tool "browser_click" args
    end.

Definition type_text (request : Resolved.ResolvedBrowserTypeRequest)
    : browser_op BResult.BrowserResult :=
  run? require (require_mutation_target (Resolved.target_id request)
                  (Resolved.tab_id request) (Resolved.snapshot_id request)) in
  run? lift (validate_ref (Resolved.element_ref request) "browser_type ref") in
  do? mode := lift (validate_type_mode (Resolved.mode request)) in
  attempt_tool "browser_type" (Object
    [("target_id", Str (Resolved.target_id request));
     ("tab_id", Str (Resolved.tab_id request));
     ("ref", Str (Resolved.element_ref request));
     ("text", Str (Resolved.text request));
     ("mode", Str mode);
     ("replace", Bool (Resolved.replace request))]).

Definition pointer_actions : list string :=
  ["hover"; "right_click"; "double_click"; "scroll"; "drag"].

Definition pointer (request : BPointer.BrowserPointerRequest)
    : browser_op BResult.BrowserResult :=
  run? require (require_mutation_target (BPointer.target_id request)
                  (BPointer.tab_id request) (BPointer.snapshot_id request)) in
  if negb (BPointer.action request ∈? pointer_actions)
  then throw (invalid "unsupported browser_pointer action")
  else
    do? route := lift (validate_route (BPointer.input_route request)) in
    if (route == "dom_event") && is_none (BPointer.element_ref request)
    then throw (invalid "dom_event browser_pointer requires ref")
    else if (BPointer.action request == "drag") && is_none (BPointer.destination_ref request)
    then throw (invalid "browser drag requires destination_ref")
    else
      let args := Object
        [("target_id", Str (BPointer.target_id request));
         ("tab_id", Str (BPointer.tab_id request));
         ("action", Str (BPointer.action request));
         ("input_route", Str route)] in
      let args := set_some args "ref" Str (BPointer.element_ref request) in
      let args := set_some args "destination_ref" Str (BPointer.destination_ref request) in
      let args := set_some args "delta_x" json_f64 (BPointer.delta_x request) in
      let args := set_some args "delta_y" json_f64 (BPointer.delta_y request) in
      let args := set_some args "x" json_f64 (BPointer.x request) in
      let args := set_some args "y" json_f64 (BPointer.y request) in
      attempt_tool "browser_pointer" args.

Definition set_input_files (request : BFiles.BrowserSetInputFilesRequest)
    : browser_op BResult.BrowserResult :=
  run? require (require_mutation_target (BFiles.target_id request)
                  (BFiles.tab_id request) (BFiles.snapshot_id request)) in
  run? lift (validate_ref (BFiles.element_ref request) "browser_set_input_files ref") in
  do? files := lift (validate_upload_paths (BFiles.files request)) in
  attempt_tool "browser_set_input_files" (Object
    [("target_id", Str (BFiles.target_id request));
     ("tab_id", Str (BFiles.tab_id request));
     ("ref", Str (BFiles.element_ref request));
     ("files", Array (map Str files))]).

Definition download (request : BDownload.BrowserDownloadRequest)
    : browser_op BResult.BrowserResult :=
  run? require (require_mutation_target (BDownload.target_id request)
                  (BDownload.tab_id request) (BDownload.snapshot_id request)) in
  run? lift (validate_ref (BDownload.element_ref request) "browser_download ref") in
  do? destination_root :=
    lift (validate_destination_root (BDownload.destination_root request)) in
  run? begin_snapshot_sensitive_native_attempt in
  do? answer := with_native (call_browser_download_tool (Object
    [("target_id", Str (BDownload.target_id request));
     ("tab_id", Str (BDownload.tab_id request));
     ("ref", Str (BDownload.element_ref request));
     ("destination_root", Str destination_root)])) in
  do? result := decode (from_value answer) in
  ret (result <| BResult.answer :=
                   enrich_download_completion destination_root (BResult.answer result) |>).

Definition dialog (request : BDialog.BrowserDialogRequest)
    : browser_op BResult.BrowserResult :=
  run? require (require_exact_target (BDialog.target_id request)) in
  run? lift (validate_dialog_request request) in
  let delivery_mode := unwrap_or (BDialog.delivery_mode request) "background" in
  let args := Object
    [("target_id", Str (BDialog.target_id request));
     ("tab_id", Str (BDialog.tab_id request));
     ("action", Str (BDialog.action request));
     ("delivery_mode", Str delivery_mode)] in
  let args := set_some args "dialog_id" Str (BDialog.dialog_id request) in
  let args := set_some args "prompt_text" Str (BDialog.prompt_text request) in
  attempt_tool "browser_dialog" args.
End Operations.

(** ** Runs *)

Section Runs.
Context `{PL : Platform} `{BF : BrowserFiles} {N : Type} `{BN : BrowserNative N}.

Abbreviation call := (string * value)%type.

(** The window session with a record of the calls it was sent. *)
#[local] Instance recorded : BrowserNative (N * list call) := {
  call_browser_tool name args := fun s =>
    on_part fst (fun n s => (n, s.2)) (call_browser_tool name args)
      (s.1, s.2 ++ [(name, args)]);
  call_browser_download_tool args := fun s =>
    on_part fst (fun n s => (n, s.2)) (call_browser_download_tool args)
      (s.1, s.2 ++ [("browser_download", args)]);
  native_target s := native_target s.1;
}.

Inductive op : Type :=
| Bind (target_id : string)
| Invalidate
| Prepare (request : BPrepare.BrowserPrepareRequest)
| Snapshot (request : BSnapshot.BrowserSnapshotRequest)
| Navigate (request : BNavigate.BrowserNavigateRequest)
| Click (request : BClick.BrowserClickRequest)
| TypeText (request : Resolved.ResolvedBrowserTypeRequest)
| Pointer (request : BPointer.BrowserPointerRequest)
| SetInputFiles (request : BFiles.BrowserSetInputFilesRequest)
| Download (request : BDownload.BrowserDownloadRequest)
| Dialog (request : BDialog.BrowserDialogRequest).

Definition no_result : BResult.BrowserResult :=
  {| BResult.answer := Null; BResult.images := [] |}.

Definition perform (o : op)
    : eff ((N * list call) * BS.BrowserSession) cerror BResult.BrowserResult :=
  match o with
  | Bind target_id =>
      run? with_session (bind_authorized_exact_target target_id) in ret no_result
  | Invalidate => run? with_session (modify invalidate_snapshot) in ret no_result
  | Prepare request => prepare request
  | Snapshot request => snapshot request
  | Navigate request => navigate request
  | Click request => click request
  | TypeText request => type_text request
  | Pointer request => pointer request
  | SetInputFiles request => set_input_files request
  | Download request => download request
  | Dialog request => dialog request
  end.

(** What an operation leaves behind: its outcome, none for a panic, and the calls it
    sent to the window session. *)
Record reply : Type := { outcome : option (cresult BResult.BrowserResult); calls : list call }.

(** A panic drops the adapter with its connection: nothing runs after it. *)
Definition browser_step (s : option (N * BS.BrowserSession)) (o : op)
    : option (N * BS.BrowserSession) * reply :=
  match s with
  | None => (None, {| outcome := None; calls := [] |})
  | Some (n, b) =>
      match perform o ((n, []), b) with
      | None => (None, {| outcome := None; calls := [] |})
      | Some (r, ((n', calls), b')) =>
          (Some (n', b'), {| outcome := Some r; calls := calls |})
      end
  end.

(** The target, tab and snapshot a mutation names. *)
Definition mutation_of (o : op) : option (string * string * string) :=
  match o with
  | Click r => Some (BClick.target_id r, BClick.tab_id r, BClick.snapshot_id r)
  | TypeText r => Some (Resolved.target_id r, Resolved.tab_id r, Resolved.snapshot_id r)
  | Pointer r => Some (BPointer.target_id r, BPointer.tab_id r, BPointer.snapshot_id r)
  | SetInputFiles r => Some (BFiles.target_id r, BFiles.tab_id r, BFiles.snapshot_id r)
  | Download r => Some (BDownload.target_id r, BDownload.tab_id r, BDownload.snapshot_id r)
  | _ => None
  end.

(** The evidence an adapter holds. *)
Definition holds_evidence (b : BS.BrowserSession) (key : string * string * string) : Prop :=
  let '(target_id, tab_id, snapshot_id) := key in
  BS.target_id b = Some target_id /\ BS.latest_tab_id b = Some tab_id
  /\ BS.latest_snapshot_id b = Some snapshot_id.

Definition addressed_to (target_id tab_id : string) (c : call) : Prop :=
  c.2.["target_id"] = Str target_id /\ c.2.["tab_id"] = Str tab_id.

(** The answer to a snapshot that is no refusal and carries the identity, in the present
    or in the older place. *)
Definition carries_snapshot (answer : value) (snapshot_id : string) : Prop :=
  let structured := answer.["structuredContent"] in
  is_object structured = true
  /\ structured.["status"] <> Str "refused" /\ structured.["refusal"] = Null
  /\ (structured.["snapshot_id"] = Str snapshot_id
      \/ (forall id, structured.["snapshot_id"] <> Str id)
         /\ structured.["snapshot"].["id"] = Str snapshot_id).

(** A snapshot of the tab that the browser was asked for, accepted, and that carried the
    identity. *)
Definition publishes (o : op) (r : reply) (key : string * string * string) : Prop :=
  let '(target_id, tab_id, snapshot_id) := key in
  exists request result args, o = Snapshot request
    /\ BSnapshot.target_id request = Some target_id
    /\ BSnapshot.tab_id request = Some tab_id
    /\ calls r = [("get_browser_state", args)]
    /\ addressed_to target_id tab_id ("get_browser_state", args)
    /\ outcome r = Some (Ok result)
    /\ carries_snapshot (BResult.answer result) snapshot_id.

(** *** One attempt: an operation is refused and changes nothing, or drops the
    snapshot and sends one call. *)

Definition one_attempt {A} (P : call -> Prop)
    (m : eff ((N * list call) * BS.BrowserSession) cerror A) : Prop :=
  forall n b r n' log b', m ((n, []), b) = Some (r, ((n', log), b')) ->
    (b' = b /\ log = [] /\ is_err r = true)
    \/ (b' = clear_snapshot b /\ exists c, log = [c] /\ P c).

Definition unchanging {A} (m : eff ((N * list call) * BS.BrowserSession) cerror A) : Prop :=
  forall s r s', m s = Some (r, s') -> s' = s.

Lemma unchanging_lift {A} (r : cresult A) : unchanging (lift r).
Proof. intros s r' s' [_ ->]%lift_some. done. Qed.
Lemma unchanging_require {A} (f : BS.BrowserSession -> cresult A) : unchanging (require f).
Proof. intros [n b] r s'. unfold require, with_session, on_part, bind, read, lift. naive_solver. Qed.
Lemma unchanging_decode {A} (r : option (cresult A)) : unchanging (decode r).
Proof. destruct r; [apply unchanging_lift | done]. Qed.
Lemma unchanging_ret {A} (a : A) : unchanging (ret a).
Proof. intros s r s' [= _ <-]. done. Qed.
Lemma unchanging_target : unchanging (with_native (read native_target)).
Proof. intros [[n log] b] r s' [= _ <-]. done. Qed.
Lemma unchanging_bind {A B} m (k : A -> eff _ cerror B) :
  unchanging m -> (forall a, unchanging (k a)) -> unchanging (bind m k).
Proof.
  intros Hm Hk s r s' [(e & s1 & H & [= -> ->]) | (a & s1 & H & H')]%bind_some.
  - by eapply Hm.
  - apply Hm in H as ->. by eapply Hk.
Qed.
#[local] Hint Resolve unchanging_lift unchanging_require unchanging_decode unchanging_ret
  unchanging_target unchanging_bind : core.

Section OneAttempt.
Context (P : call -> Prop).

Lemma one_attempt_throw {A} (e : cerror) : one_attempt P (throw (A := A) e).
Proof. intros n b r n' log b' H. unfold throw in H. simplify_eq. by left. Qed.
Lemma one_attempt_panic {A} : one_attempt P (panic (A := A)).
Proof. intros n b r n' log b' [=]. Qed.
Lemma one_attempt_guard {A B} m (k : A -> eff _ cerror B) :
  unchanging m -> (forall a, one_attempt P (k a)) -> one_attempt P (bind m k).
Proof.
  intros Hm Hk n b r n' log b' [(e & s1 & H & E) | (a & s1 & H & H')]%bind_some;
    apply Hm in H as Hs; simplify_eq.
  - by left.
  - by eapply Hk.
Qed.
Lemma one_attempt_then {A B} m (k : A -> eff _ cerror B) :
  one_attempt P m -> (forall a, unchanging (k a)) -> one_attempt P (bind m k).
Proof.
  intros Hm Hk n b r n' log b' [(e & s1 & H & E) | (a & [[n1 log1] b1] & H & H')]%bind_some.
  - simplify_eq. apply Hm in H as [(? & ? & ?)|?]; [by left | by right].
  - apply Hk in H' as E; simplify_eq. apply Hm in H as [(? & ? & ?)|?]; [done | by right].
Qed.
Lemma one_attempt_call {A B} (name : string) (args : value)
    (call_tool : eff (N * list call) cerror A) (k : A -> eff _ cerror B) :
  (forall n log r n' log', call_tool (n, log) = Some (r, (n', log')) ->
     log' = log ++ [(name, args)]) ->
  P (name, args) -> (forall a, unchanging (k a)) ->
  one_attempt P (run? begin_snapshot_sensitive_native_attempt in
                 do? a := with_native call_tool in k a).
Proof.
  intros Hcall HP Hk n b r n' log b'.
  unfold begin_snapshot_sensitive_native_attempt, with_session, with_native, bind, modify, on_part.
  simpl. destruct (call_tool _) as [[r1 [n1 log1]]|] eqn:E; [|done].
  apply Hcall in E as ->. simpl. intros H. right.
  assert (((n', log), b') = ((n1, [(name, args)]), clear_snapshot b)) as E.
  { destruct r1; [by apply Hk in H|]. by simplify_eq. }
  simplify_eq. eauto.
Qed.
Lemma one_attempt_tool name args :
  P (name, args) -> one_attempt P (attempt_tool name args).
Proof.
  intros HP. eapply (one_attempt_call name args); [|done | auto].
  intros n log r n' log'. simpl. unfold on_part. case_match; [case_match|]; naive_solver.
Qed.
Lemma one_attempt_download {B} args (k : value -> eff _ cerror B) :
  P ("browser_download", args) -> (forall a, unchanging (k a)) ->
  one_attempt P (run? begin_snapshot_sensitive_native_attempt in
                 do? a := with_native (call_browser_download_tool args) in k a).
Proof.
  intros HP Hk. eapply one_attempt_call; [|done | done].
  intros n log r n' log'. simpl. unfold on_part. case_match; [case_match|]; naive_solver.
Qed.
Lemma one_attempt_prepare {B} args (k : value -> eff _ cerror B) :
  P ("browser_prepare", args) -> (forall a, unchanging (k a)) ->
  one_attempt P (run? begin_snapshot_sensitive_native_attempt in
                 do? a := with_native (call_browser_tool "browser_prepare" args) in k a).
Proof.
  intros HP Hk. eapply one_attempt_call; [|done | done].
  intros n log r n' log'. simpl. unfold on_part. case_match; [case_match|]; naive_solver.
Qed.
End OneAttempt.

Ltac one_attempt_step :=
  lazymatch goal with
  | |- one_attempt _ (throw _) => apply one_attempt_throw
  | |- one_attempt _ panic => apply one_attempt_panic
  | |- one_attempt _ (attempt_tool _ _) => apply one_attempt_tool
  | |- one_attempt _ (bind (attempt_tool _ _) _) =>
      apply one_attempt_then; [apply one_attempt_tool | intros ?; eauto]
  | |- one_attempt _ (bind begin_snapshot_sensitive_native_attempt _) =>
      first [apply one_attempt_download | apply one_attempt_prepare]; [|intros ?; eauto]
  | |- one_attempt _ (bind _ _) => apply one_attempt_guard; [solve [eauto] | intros ?]
  | |- one_attempt _ (if ?b then _ else _) => destruct b
  | |- one_attempt _ (match ?x with _ => _ end) => destruct x
  end.

(** *** Snapshots *)

Lemma cleared_holds_nothing b key : ~ holds_evidence (clear_snapshot b) key.
Proof. destruct key as [[? ?] ?]. intros (_ & [=] & _). Qed.

Lemma attempt_tool_clears name args n b r n' log b' :
  attempt_tool name args ((n, []), b) = Some (r, ((n', log), b')) ->
  (exists e, r = Err e /\ b' = b /\ log = []) \/ b' = clear_snapshot b.
Proof.
  intros [(-> & -> & Hr)|[-> _]]%(one_attempt_tool (fun _ => True) _ _ I); [|by right].
  left. destruct r; naive_solver.
Qed.

Lemma store_binding_holds_nothing answer b r b' key :
  store_binding answer (clear_snapshot b) = Some (r, b') -> ~ holds_evidence b' key.
Proof.
  unfold store_binding, bind, lift, throw, panic, modify.
  destruct key as [[? ?] ?]. intros H (_ & Htab & _). revert Htab.
  repeat case_match; simplify_eq; done.
Qed.

(** The identity an accepted page is validated for is the one it publishes. *)
Lemma validated_snapshot_id answer expected scope :
  validate_ancestor_scope_response answer expected = Ok (Some scope) ->
  browser_snapshot_id answer = Some (Validated.snapshot_id scope).
Proof.
  unfold validate_ancestor_scope_response. destruct expected as [expected|]; [|done].
  intros (structured & Hs & H)%rbind_ok. unfold structured_content in Hs.
  repeat guard_step Hs. injection Hs as <-. repeat guard_step H; open_ok; simplify_eq.
  repeat guard_step H0. simplify_eq. simpl. unfold browser_snapshot_id.
  match goal with H : negb (legacy_snapshot_id_agrees _ _) = false |- _ =>
    apply negb_false_iff in H; unfold legacy_snapshot_id_agrees in H;
    rename H into Hlegacy end.
  match goal with H : get _ "id" ≫= as_str = Some _ |- _ => rename H into Hid end.
  unfold index at 1. destruct (get _ "snapshot_id") as [[]|]; try done; simpl.
  - unfold index at 1. destruct (get _ "id"); done.
  - by apply bool_decide_eq_true in Hlegacy as ->.
  - unfold index at 1. destruct (get _ "id"); done.
Qed.

(** A step that leaves the state alone: it fails here, or the run goes on. *)
Lemma guard_some {A B} (m : eff ((N * list call) * BS.BrowserSession) cerror A)
    (k : A -> eff _ cerror B) s out :
  unchanging m -> bind m k s = Some out ->
  (exists e, out = (Err e, s)) \/ (exists a, m s = Some (Ok a, s) /\ k a s = Some out).
Proof.
  intros Hm [(e & s1 & H & ->)|(a & s1 & H & H')]%bind_some; pose proof H as E;
    apply Hm in E as ->; eauto.
Qed.

Lemma require_ok {A} (f : BS.BrowserSession -> cresult A) (n : N * list call) b a s :
  require f (n, b) = Some (Ok a, s) -> f b = Ok a.
Proof. unfold require, with_session, on_part, bind, read, lift. naive_solver. Qed.

Lemma carries_snapshot_spec answer snapshot_id :
  browser_result_is_structured_refusal answer = Ok false ->
  browser_snapshot_id answer = Some snapshot_id -> carries_snapshot answer snapshot_id.
Proof.
  unfold browser_result_is_structured_refusal, structured_content, browser_snapshot_id,
    carries_snapshot.
  destruct (is_object answer.["structuredContent"]) eqn:Hobject; [|done].
  set (structured := answer.["structuredContent"]) in *. cbn [rbind].
  intros [= [Hstatus Hrefusal]%orb_false_iff] Hid. split; [done|]. split.
  { intros E. by rewrite E in Hstatus. }
  split; [by apply negb_false_iff in Hrefusal; destruct structured.["refusal"]|].
  unfold or_else in Hid. destruct structured.["snapshot_id"] eqn:Es; cbn in Hid.
  4: { left. congruence. }
  all: right; split; [congruence|].
  all: destruct structured.["snapshot"].["id"]; cbn in Hid; congruence.
Qed.

Lemma snapshot_args_object request args :
  browser_snapshot_args request = Ok args -> is_object args = true.
Proof.
  unfold browser_snapshot_args. intros (? & _ & H)%rbind_ok. injection H as <-.
  by repeat apply is_object_set_some.
Qed.

Lemma snapshot_answered name args n b result n' log b' :
  attempt_tool name args ((n, []), b) = Some (Ok result, ((n', log), b')) ->
  b' = clear_snapshot b /\ log = [(name, args)].
Proof.
  intros [(_ & _ & [=])|(-> & c & -> & ->)]%(one_attempt_tool (fun c => c = (name, args)) _ _
    eq_refl). done.
Qed.

Lemma snapshot_evidence request n b r n' log b' key :
  snapshot request ((n, []), b) = Some (r, ((n', log), b')) ->
  holds_evidence b' key ->
  (holds_evidence b key /\ log = [])
  \/ publishes (Snapshot request) {| outcome := Some r; calls := log |} key.
Proof.
  unfold snapshot. intros H Hkey.
  destruct (_ && _); [unfold throw in H; simplify_eq; by left|].
  apply guard_some in H as [(e & E)|(args & Hargs & H)]; [simplify_eq; by left | | auto].
  apply lift_some in Hargs as [Hargs _]. symmetry in Hargs.
  apply snapshot_args_object in Hargs.
  apply guard_some in H as [(e & E)|(expected & _ & H)]; [simplify_eq; by left | | auto].
  destruct (BSnapshot.target_id request) as [target_id|] eqn:Htarget.
  - apply guard_some in H as [(e & E)|(? & Hbound & H)]; [simplify_eq; by left | | auto].
    apply require_ok in Hbound. unfold require_bound_target in Hbound.
    guard_step Hbound. reflect_all.
    apply guard_some in H as [(e & E)|(tab_id & Htab & H)]; [simplify_eq; by left | | auto].
    apply lift_some in Htab as [Htab _]. symmetry in Htab. apply ok_or_ok in Htab.
    destruct (str_is_empty _); [unfold throw in H; simplify_eq; by left|].
    apply bind_some in H as [(e & s1 & H & E)|(result & [[n1 log1] b1] & H & H1)].
    { simplify_eq. apply attempt_tool_clears in H as [(? & ? & -> & ->)| ->]; [by left|].
      by apply cleared_holds_nothing in Hkey. }
    apply snapshot_answered in H as [-> ->].
    apply guard_some in H1 as [(e & E)|(refused & Hr & H)];
      [simplify_eq; by apply cleared_holds_nothing in Hkey | | auto].
    destruct refused.
    { unfold ret in H. simplify_eq. by apply cleared_holds_nothing in Hkey. }
    apply guard_some in H as [(e & E)|(validated & Hv & H)];
      [simplify_eq; by apply cleared_holds_nothing in Hkey | | auto].
    apply lift_some in Hv as [Hv _]. symmetry in Hv.
    unfold with_session, on_part, modify, bind, ret in H. simplify_eq. right.
    destruct key as [[tgt tab] snap]. destruct Hkey as (Ht & Htab' & Hs). simpl in *.
    apply lift_some in Hr as [Hr _]. symmetry in Hr. simplify_eq.
    exists request, result. eexists. split_and!; try done.
    + split; cbn [snd]; [rewrite index_set_index_ne by done|];
        by apply index_set_index; eauto.
    + apply carries_snapshot_spec; [done|]. destruct validated as [scope|]; [|done].
      apply validated_snapshot_id in Hv. simpl in Hs. congruence.
  - destruct (is_some _); [unfold throw in H; simplify_eq; by left|].
    apply bind_some in H as [(e & s1 & H & E)|(result & [[n1 log1] b1] & H & H1)].
    { simplify_eq. apply attempt_tool_clears in H as [(? & ? & -> & ->)| ->]; [by left|].
      by apply cleared_holds_nothing in Hkey. }
    apply attempt_tool_clears in H as [(? & [=] & _)| ->].
    apply guard_some in H1 as [(e & E)|(validated & _ & H)];
      [simplify_eq; by apply cleared_holds_nothing in Hkey | | auto].
    destruct (is_some validated).
    { unfold throw in H. simplify_eq. by apply cleared_holds_nothing in Hkey. }
    apply bind_some in H as [(e & s1 & H & E)|(u & s1 & H & H1)].
    + simplify_eq. unfold with_session, on_part in H. simpl in H.
      destruct (store_binding _ _) as [[r1 b1]|] eqn:Es; [|done]. simplify_eq.
      by apply store_binding_holds_nothing with (key := key) in Es.
    + unfold with_session, on_part in H. simpl in H. unfold ret in H1. simplify_eq.
      destruct (store_binding _ _) as [[r1 b1]|] eqn:Es; [|done]. simplify_eq.
      by apply store_binding_holds_nothing with (key := key) in Es.
Qed.

(** What the single call of an operation is addressed to. *)
Definition call_of (o : op) (c : call) : Prop :=
  match mutation_of o with
  | Some (target_id, tab_id, _) => addressed_to target_id tab_id c
  | None => True
  end.

(** The operations that end with the snapshot. *)
Definition drops_snapshot (o : op) : bool :=
  match o with Bind _ | Invalidate | Snapshot _ => false | _ => true end.

Lemma perform_one_attempt o :
  drops_snapshot o = true -> one_attempt (call_of o) (perform o).
Proof.
  destruct o; intros [=]; cbn [perform];
    unfold prepare, navigate, click, type_text, pointer, set_input_files, download, dialog;
    repeat one_attempt_step; try exact I; unfold call_of, addressed_to; simpl;
    by rewrite ?index_set_index_ne, ?index_set_some_ne by done.
Qed.

(** *** Steps *)

Lemma bind_target_holds_nothing target_id b r b' key :
  bind_authorized_exact_target target_id b = Some (r, b') ->
  holds_evidence b' key -> b' = b.
Proof.
  unfold bind_authorized_exact_target, bind, read, throw, modify. intros H Hkey.
  destruct (_ || _); [by simplify_eq|].
  destruct (is_some_and _ _); [by simplify_eq|]. simplify_eq.
  by apply cleared_holds_nothing in Hkey.
Qed.

Lemma step_evidence s o n' b' r key :
  browser_step s o = (Some (n', b'), r) -> holds_evidence b' key ->
  exists n b, s = Some (n, b)
    /\ ((holds_evidence b key /\ calls r = []) \/ publishes o r key).
Proof.
  unfold browser_step. destruct s as [[n b]|]; [|done].
  destruct (perform o ((n, []), b)) as [[res [[n1 log] b1]]|] eqn:E; [|done].
  intros [= -> -> <-] Hkey. exists n, b. split; [done|].
  destruct (drops_snapshot o) eqn:Ho.
  - apply (perform_one_attempt o Ho) in E as [(-> & -> & _)|(-> & _)]; [by left|].
    by apply cleared_holds_nothing in Hkey.
  - destruct o; try discriminate Ho; cbn [perform] in E.
    + apply bind_some in E as [(e & s1 & H & E)|(u & s1 & H & E)];
        unfold with_session, on_part in H; simpl in H;
        destruct (bind_authorized_exact_target _ _) as [[r2 b2]|] eqn:Eb; try done;
        unfold ret in E; simplify_eq;
        apply (bind_target_holds_nothing _ _ _ _ _ Eb) in Hkey as Hb; subst; by left.
    + unfold with_session, on_part, bind, modify, ret in E. simplify_eq.
      by apply cleared_holds_nothing in Hkey.
    + by eapply snapshot_evidence.
Qed.

Lemma require_mutation_target_holds target_id tab_id snapshot_id b :
  require_mutation_target target_id tab_id snapshot_id b = Ok tt ->
  holds_evidence b (target_id, tab_id, snapshot_id).
Proof.
  unfold require_mutation_target, require_exact_target, require_bound_target.
  intros H. open_ok. reflect_all. unfold holds_evidence. by split_and!.
Qed.

(** A mutation that was not refused held the evidence it names. *)
Lemma guarded_mutation {A} (k : eff ((N * list call) * BS.BrowserSession) cerror A)
    target_id tab_id snapshot_id n b r n' log b' :
  (run? require (require_mutation_target target_id tab_id snapshot_id) in k)
    ((n, []), b) = Some (r, ((n', log), b')) ->
  log <> [] -> holds_evidence b (target_id, tab_id, snapshot_id).
Proof.
  intros H Hlog. apply guard_some in H as [(e & E)|(u & H & _)]; [by simplify_eq | | auto].
  apply require_ok in H. destruct u. by apply require_mutation_target_holds.
Qed.

Lemma step_mutation s o s' r target_id tab_id snapshot_id :
  browser_step s o = (s', r) -> mutation_of o = Some (target_id, tab_id, snapshot_id) ->
  calls r <> [] ->
  exists n b c, s = Some (n, b) /\ holds_evidence b (target_id, tab_id, snapshot_id)
    /\ calls r = [c] /\ addressed_to target_id tab_id c.
Proof.
  unfold browser_step. destruct s as [[n b]|]; [|by intros [= _ <-]].
  destruct (perform o ((n, []), b)) as [[res [[n1 log] b1]]|] eqn:E; [|by intros [= _ <-]].
  intros [= _ <-] Hm Hcalls. simpl in Hcalls.
  assert (exists c, log = [c] /\ addressed_to target_id tab_id c) as (c & -> & Hc).
  { assert (drops_snapshot o = true) as Ho by (by destruct o).
    apply (perform_one_attempt o Ho) in E as [(_ & -> & _)|(_ & c & -> & Hc)]; [done|].
    exists c. split; [done|]. unfold call_of in Hc. by rewrite Hm in Hc. }
  exists n, b, c. split_and!; try done.
  destruct o; try discriminate Hm; injection Hm as <- <- <-;
    eapply guarded_mutation; try exact E; done.
Qed.

(** Evidence held by a reachable adapter was published by a snapshot, and nothing has
    been sent to the browser since. *)
Lemma evidence_origin n ops j n' b' key :
  (j <= length ops)%nat ->
  (run browser_step (Some (n, BS.default)) (take j ops)).1 = Some (n', b') ->
  holds_evidence b' key ->
  let replies := (run browser_step (Some (n, BS.default)) ops).2 in
  exists i oi ri, (i < j)%nat /\ ops !! i = Some oi /\ replies !! i = Some ri
    /\ publishes oi ri key
    /\ forall k rk, (i < k < j)%nat -> replies !! k = Some rk -> calls rk = [].
Proof.
  intros Hj. revert n' b'. induction j as [|j IH]; intros n' b' Hs Hkey replies.
  { simpl in Hs. simplify_eq. by destruct key as [[? ?] ?], Hkey. }
  assert (is_Some (replies !! j)) as [r Hr].
  { apply lookup_lt_is_Some. unfold replies. rewrite length_run. lia. }
  destruct (run_lookup browser_step _ _ _ _ Hr) as (o & Ho & Estep).
  rewrite Hs in Estep.
  destruct (step_evidence _ _ _ _ _ _ Estep Hkey) as (n1 & b1 & E1 & [(Hb & Hcalls)|Hpub]).
  - destruct (IH ltac:(lia) n1 b1 E1 Hb) as (i & oi & ri & Hi & Hoi & Hri & Hpub & Hsince).
    exists i, oi, ri. split_and!; try done; [lia|].
    intros k rk Hk Hrk. destruct (decide (k = j)) as [->|Hne].
    + by simplify_eq.
    + apply (Hsince k rk); [lia | done].
  - exists j, o, r. split_and!; try done; [lia|]. intros; lia.
Qed.

(** C17: a browser mutation acts on the snapshot it names, and at most once.  Take any
    sequence of operations on a fresh adapter, whatever the browser answers.  When a
    click, a typing, a pointer action, an upload or a download is sent to the browser,
    it is sent as one call addressed to the target and tab of the request; an earlier
    snapshot asked the browser for that target and tab, its answer was no refusal and
    carried the named identity, and it was accepted; and between that snapshot and this
    call nothing else was sent to the browser, so that no second mutation, navigation,
    dialog or snapshot ever shares or outlives the evidence. *)
Theorem mutation_consumes_its_snapshot n ops j o r target_id tab_id snapshot_id :
  let replies := (run browser_step (Some (n, BS.default)) ops).2 in
  ops !! j = Some o -> replies !! j = Some r ->
  mutation_of o = Some (target_id, tab_id, snapshot_id) -> calls r <> [] ->
  (exists c, calls r = [c] /\ addressed_to target_id tab_id c)
  /\ exists i oi ri, (i < j)%nat /\ ops !! i = Some oi /\ replies !! i = Some ri
    /\ publishes oi ri (target_id, tab_id, snapshot_id)
    /\ forall k rk, (i < k < j)%nat -> replies !! k = Some rk -> calls rk = [].
Proof.
  intros replies Ho Hr Hm Hcalls.
  destruct (run_lookup browser_step _ _ _ _ Hr) as (o' & Ho' & Estep).
  assert (o' = o) as -> by congruence.
  destruct (step_mutation _ _ _ _ _ _ _ Estep Hm Hcalls)
    as (n1 & b1 & c & Es & Hkey & Hc & Haddr).
  split; [by exists c|]. eapply evidence_origin; [|done|done].
  apply lookup_lt_Some in Ho. lia.
Qed.
End Runs.

(** ** A sample adapter *)

(** A browser with one window: it binds exactly, and its tab publishes a snapshot. *)
Definition sample_answer (args : value) : value :=
  let structured :=
    if is_some (get args "target_id")
    then [("status", Str "ok"); ("mode", Str "snapshot"); ("snapshot_id", Str "s1");
          ("origin", Str "https://example.org")]
    else [("target_id", Str "t1"); ("binding_quality", Str "exact");
          ("mutation_allowed", Bool true)] in
  Object [("structuredContent", Object structured)].

#[local] Instance sample_native : BrowserNative unit := {|
  call_browser_tool name args := ret (sample_answer args);
  call_browser_download_tool args := ret (sample_answer args);
  native_target _ := None |}.

Definition sample_snapshot (target_id tab_id : option string) : op :=
  Snapshot {| BSnapshot.target_id := target_id; BSnapshot.tab_id := tab_id;
              BSnapshot.snapshot_format := "semantic_v2"; BSnapshot.scope_ref := None;
              BSnapshot.scope_ancestor_role := None; BSnapshot.query := None;
              BSnapshot.continuation := None; BSnapshot.include_screenshot := false |}.

Definition sample_browser_click : op :=
  Click {| BClick.target_id := "t1"; BClick.tab_id := "tab"; BClick.snapshot_id := "s1";
           BClick.element_ref := Some "e5"; BClick.x := None; BClick.y := None;
           BClick.input_route := None |}.

(** The binding, a snapshot, the click it allows, and the same click refused. *)
Definition sample_ops : list op :=
  [sample_snapshot None None; sample_snapshot (Some "t1") (Some "tab");
   sample_browser_click; sample_browser_click].

Abbreviation sample_replies :=
  (run (browser_step (PL := sample_platform)) (Some (tt, BS.default)) sample_ops).2.

Example sample_click_counts : map (fun r => length (calls r)) sample_replies = [1; 1; 1; 0]%nat.
Proof. vm_compute. reflexivity. Qed.

Lemma mutation_consumes_its_snapshot_witness :
  exists r, sample_replies !! 2%nat = Some r
    /\ (exists c, calls r = [c] /\ addressed_to "t1" "tab" c).
Proof.
  destruct (sample_replies !! 2%nat) as [r|] eqn:E; [|vm_compute in E; discriminate].
  exists r. split; [done|].
  refine (proj1 (mutation_consumes_its_snapshot (PL := sample_platform) tt sample_ops 2
    sample_browser_click r "t1" "tab" "s1" eq_refl E eq_refl _)).
  vm_compute in E. injection E as <-. discriminate.
Defined.
