(* ===== verification/RecordingFence.v ===== *)
(** * The lifetime fence of a task
    ([crates/dcc-cua-showcase/src/recording_authorization.rs] and
    [crates/dcc-cua-core/src/native_task_authorization.rs])

    A fence admits work while a task is authorized.  It closes on revocation or
    when either clock passes its deadline, and stays closed.  The permission for
    one login window shares the fence of its task.

    A mutex is poisoned when a thread panics while it holds it; the field
    [poisoned] says whether that happened. *)

From S2P Require Import Prelude RustStr Json Errors TargetPolicy.

(** ** The fence *)

(** A sample of the two clocks: Unix milliseconds and monotonic nanoseconds. *)
Module Clock.
Record Clock : Type := { unix_ms : Z; monotonic_ns : Z }.
End Clock.

Module RecordingAuthorization.
Record RecordingAuthorization : Type := {
  revoked : bool;
  poisoned : bool;
  expires_at_unix_ms : Z;
  monotonic_deadline : option Z;
}.
End RecordingAuthorization.

Module Fence := RecordingAuthorization.

Definition with_clock (expires_at_unix_ms : Z) : Fence.RecordingAuthorization := {|
  Fence.revoked := false;
  Fence.poisoned := false;
  Fence.expires_at_unix_ms := expires_at_unix_ms;
  Fence.monotonic_deadline := None |}.

(** [RecordingAuthorization::new]. *)
Definition new_fence (clock : Clock.Clock) (expires_at_unix_ms : Z)
    : Fence.RecordingAuthorization :=
  let authorization := with_clock expires_at_unix_ms in
  {| Fence.revoked := Fence.revoked authorization;
     Fence.poisoned := Fence.poisoned authorization;
     Fence.expires_at_unix_ms := Fence.expires_at_unix_ms authorization;
     Fence.monotonic_deadline :=
       Some (Clock.monotonic_ns clock
             + 1000000 * saturating_sub expires_at_unix_ms (Clock.unix_ms clock)) |}.

Definition with_monotonic_deadline (clock : Clock.Clock) (expires_at_unix_ms deadline : Z)
    : Fence.RecordingAuthorization :=
  let authorization := new_fence clock expires_at_unix_ms in
  {| Fence.revoked := Fence.revoked authorization;
     Fence.poisoned := Fence.poisoned authorization;
     Fence.expires_at_unix_ms := Fence.expires_at_unix_ms authorization;
     Fence.monotonic_deadline :=
       Some (match Fence.monotonic_deadline authorization with
             | None => deadline
             | Some existing => Z.min existing deadline
             end) |}.

Definition set_revoked (self : Fence.RecordingAuthorization) : Fence.RecordingAuthorization := {|
  Fence.revoked := true;
  Fence.poisoned := Fence.poisoned self;
  Fence.expires_at_unix_ms := Fence.expires_at_unix_ms self;
  Fence.monotonic_deadline := Fence.monotonic_deadline self |}.

(** [RecordingAuthorization::revoke]. *)
Definition revoke_fence (self : Fence.RecordingAuthorization) : Fence.RecordingAuthorization :=
  if Fence.poisoned self then self else set_revoked self.

Definition admit_fence (clock : Clock.Clock) (self : Fence.RecordingAuthorization)
    : Fence.RecordingAuthorization * result string unit :=
  if Fence.poisoned self then (self, Err "recording authorization poisoned")
  else if Fence.revoked self
          || (Fence.expires_at_unix_ms self <=? Clock.unix_ms clock)
          || is_some_and (fun deadline => deadline <=? Clock.monotonic_ns clock)
               (Fence.monotonic_deadline self)
  then (set_revoked self, Err "recording task authorization expired or was revoked")
  else (self, Ok tt).

(** [with_active]: the work runs under the lock; [None] is work that panics. *)
Definition with_active {T} (clock : Clock.Clock) (work : unit -> option T)
    (self : Fence.RecordingAuthorization)
    : Fence.RecordingAuthorization * result string (option T) :=
  match admit_fence clock self with
  | (self, Err e) => (self, Err e)
  | (self, Ok _) =>
      match work tt with
      | Some v => (self, Ok (Some v))
      | None => ({| Fence.revoked := Fence.revoked self;
                    Fence.poisoned := true;
                    Fence.expires_at_unix_ms := Fence.expires_at_unix_ms self;
                    Fence.monotonic_deadline := Fence.monotonic_deadline self |}, Ok None)
      end
  end.

(** [with_active(|| ())]. *)
Definition is_live (clock : Clock.Clock) (self : Fence.RecordingAuthorization)
    : Fence.RecordingAuthorization * bool :=
  let '(self, r) := with_active clock (fun _ => Some tt) self in (self, is_ok r).

(** ** The permission for one login window *)

(** The shared lifetime is an argument of the operations, which return it. *)
Module NativeTaskAuthorization.
Record NativeTaskAuthorization : Type := {
  process_id : Z;
  window_handle : Z;
  runtime_session : option string;
}.
End NativeTaskAuthorization.

Module Native := NativeTaskAuthorization.

Definition with_shared_lifetime (process_id window_handle : Z)
    : Native.NativeTaskAuthorization := {|
  Native.process_id := process_id;
  Native.window_handle := window_handle;
  Native.runtime_session := None |}.

Definition refused : ComputerUseError.ComputerUseError :=
  ComputerUseError.new ComputerUseErrorCode.InvalidTarget
    "normal application authorization is expired, revoked or outside this exact session target".

Definition validate_target (self : Native.NativeTaskAuthorization)
    (process_id window_handle : Z) : cresult unit :=
  if negb (process_id =? 0) && negb (window_handle =? 0)
     && (Native.process_id self =? process_id)
     && (Native.window_handle self =? window_handle)
  then Ok tt
  else Err refused.

Definition bind_session (clock : Clock.Clock) (lifetime : Fence.RecordingAuthorization)
    (self : Native.NativeTaskAuthorization) (session_id : string)
    (process_id window_handle : Z)
    : Fence.RecordingAuthorization * Native.NativeTaskAuthorization * cresult unit :=
  match validate_target self process_id window_handle with
  | Err e => (lifetime, self, Err e)
  | Ok _ =>
      let '(lifetime, live) := is_live clock lifetime in
      if negb live then (lifetime, self, Err refused)
      else match Native.runtime_session self with
      | Some expected =>
          if expected != session_id then (lifetime, self, Err refused)
          else (lifetime, self, Ok tt)
      | None =>
          if negb (str_is_empty session_id)
          then (lifetime,
                {| Native.process_id := Native.process_id self;
                   Native.window_handle := Native.window_handle self;
                   Native.runtime_session := Some session_id |}, Ok tt)
          else (lifetime, self, Err refused)
      end
  end.

(** [NativeTaskAuthorization::validate]. *)
Definition validate_native (clock : Clock.Clock) (lifetime : Fence.RecordingAuthorization)
    (self : Native.NativeTaskAuthorization) (session_id : string)
    (process_id window_handle : Z) : Fence.RecordingAuthorization * cresult unit :=
  match validate_target self process_id window_handle with
  | Err e => (lifetime, Err e)
  | Ok _ =>
      let '(lifetime, live) := is_live clock lifetime in
      if negb live then (lifetime, Err refused)
      else if Native.runtime_session self == Some session_id
      then (lifetime, Ok tt)
      else (lifetime, Err refused)
  end.

(** ** Properties of the fence *)

(** A fence that can let nothing through any more. *)
Definition closed (f : Fence.RecordingAuthorization) : Prop :=
  Fence.revoked f = true \/ Fence.poisoned f = true.

Lemma admit_ok clock f f' :
  admit_fence clock f = (f', Ok tt) <->
  f' = f /\ Fence.poisoned f = false /\ Fence.revoked f = false
  /\ Clock.unix_ms clock < Fence.expires_at_unix_ms f
  /\ (forall d, Fence.monotonic_deadline f = Some d -> Clock.monotonic_ns clock < d).
Proof.
  unfold admit_fence. destruct (Fence.poisoned f); [split; [done | naive_solver]|].
  destruct (_ || _) eqn:E; reflect_all.
  - split; [done|]. intros (_ & _ & Hr & Hu & Hm).
    destruct E as [[E|E]|(d & E1 & E2)]; [congruence | lia |].
    specialize (Hm d E1). lia.
  - split; [|naive_solver]. intros [= ->]. split_and!; try done.
    intros d Hd. specialize (H0 d Hd). reflect_all. done.
Qed.

Lemma admit_closed clock f : closed f -> exists f' e, admit_fence clock f = (f', Err e) /\ closed f'.
Proof.
  unfold admit_fence. intros [H|H]; rewrite H; [|eexists _, _; split; [done | by right]].
  destruct (Fence.poisoned f) eqn:E; eexists _, _; (split; [done|]); [by right | by left].
Qed.

Lemma admit_err clock f f' e : admit_fence clock f = (f', Err e) -> closed f'.
Proof.
  unfold admit_fence. destruct (Fence.poisoned f) eqn:E; [intros [= <- _]; by right|].
  destruct (_ || _); [intros [= <- _]; by left | done].
Qed.

(** ** Runs of the fence *)

(** What the owners of a fence may do with it: admit a frame, run work under it
    (which may panic), revoke it. *)
Inductive fence_op : Type :=
| Admit (clock : Clock.Clock)
| Work (clock : Clock.Clock) (panics : bool)
| Revoke.

(** The state after an operation, and whether work was admitted. *)
Definition fence_step (f : Fence.RecordingAuthorization) (op : fence_op)
    : Fence.RecordingAuthorization * bool :=
  match op with
  | Admit clock => let '(f, r) := admit_fence clock f in (f, is_ok r)
  | Work clock panics =>
      let '(f, r) := with_active clock (fun _ => if panics then None else Some tt) f in
      (f, is_ok r)
  | Revoke => (revoke_fence f, false)
  end.

Fixpoint fence_run (f : Fence.RecordingAuthorization) (ops : list fence_op)
    : Fence.RecordingAuthorization * list bool :=
  match ops with
  | [] => (f, [])
  | op :: ops =>
      let '(f, admitted) := fence_step f op in
      let '(f, log) := fence_run f ops in
      (f, admitted :: log)
  end.

Lemma fence_step_closed f op :
  closed f -> closed (fst (fence_step f op)) /\ snd (fence_step f op) = false.
Proof.
  intros Hc. destruct op as [clock | clock panics |]; unfold fence_step, with_active.
  - destruct (admit_closed clock f Hc) as (f' & e & -> & ?). done.
  - destruct (admit_closed clock f Hc) as (f' & e & -> & ?). done.
  - unfold revoke_fence. destruct (Fence.poisoned f) eqn:E; simpl; split; try done.
    by left.
Qed.

Lemma fence_run_closed f ops :
  closed f -> closed (fst (fence_run f ops)) /\ true ∉ snd (fence_run f ops).
Proof.
  revert f. induction ops as [|op ops IH]; intros f Hc; simpl; [set_solver|].
  destruct (fence_step_closed f op Hc) as [Hc' Hs].
  destruct (fence_step f op) as [f1 b]. simpl in *. subst b.
  destruct (IH f1 Hc') as [Hc1 Hlog]. destruct (fence_run f1 ops). simpl in *.
  split; [done|]. set_solver.
Qed.

(** An operation that admits nothing closes the fence. *)
Lemma fence_step_not_admitted f op :
  snd (fence_step f op) = false -> closed (fst (fence_step f op)).
Proof.
  destruct op as [clock | clock panics |]; unfold fence_step, with_active.
  - destruct (admit_fence clock f) as [f' [[]|e]] eqn:E; simpl; [done|].
    intros _. by eapply admit_err.
  - destruct (admit_fence clock f) as [f' [[]|e]] eqn:E; simpl.
    + by destruct panics.
    + intros _. by eapply admit_err.
  - intros _. unfold revoke_fence. destruct (Fence.poisoned f) eqn:E; simpl;
      [by right | by left].
Qed.

(** the fence is a latch.  After a revocation, or after one refused
    admission, nothing is ever admitted again, whatever the clocks say later
    (moving a clock back does not reopen it) and whatever the owners do. *)
Theorem fence_latches_closed (f : Fence.RecordingAuthorization) (ops : list fence_op)
    (i j : nat) :
  (i < j)%nat ->
  snd (fence_run f ops) !! i = Some false ->
  snd (fence_run f ops) !! j <> Some true.
Proof.
  revert f i j. induction ops as [|op ops IH]; intros f i j Hij Hi; [done|].
  cbn [fence_run] in *.
  pose proof (fence_step_not_admitted f op) as Hclose.
  destruct (fence_step f op) as [f1 b]. specialize (IH f1).
  pose proof (fence_run_closed f1 ops) as Hclosed.
  destruct (fence_run f1 ops) as [f2 log]. simpl in *.
  destruct j as [|j]; [lia|]. simpl. destruct i as [|i]; simpl in Hi.
  - simplify_eq. intros Hj. apply list_elem_of_lookup_2 in Hj. by apply Hclosed; auto.
  - apply (IH i); [lia | done].
Qed.

(** A fence of one second whose Unix clock is moved back after it expired. *)
Lemma fence_latches_closed_witness :
  let clock unix ns := {| Clock.unix_ms := unix; Clock.monotonic_ns := ns |} in
  let f := new_fence (clock 1000 0) 2000 in
  let ops := [Admit (clock 1500 1); Work (clock 2000 2) false; Admit (clock 1000 3)] in
  snd (fence_run f ops) = [true; false; false]
  /\ snd (fence_run f ops) !! 2%nat <> Some true.
Proof.
  split; [vm_compute; reflexivity|].
  apply (fence_latches_closed _ _ 1 2); [lia | vm_compute; reflexivity].
Defined.
