(* ===== verification/Broker.v ===== *)
(** * The task authorization broker
    ([crates/dcc-cua-host/src/task_authorization_broker.rs])

    An authenticated embedding registers the scopes a user approved; the broker
    then answers the Host: it binds each registration to at most one session and
    reports whether its authorization is still active. *)

From S2P Require Import Prelude RustStr Json Errors HostAction Confirmation Platform.
From S2P Require Import CapturePreparation TaskGrant TaskAuthorization RecordingFence Runs.

Definition MAX_BROKER_AUTHORIZATIONS : Z := 256.

(** ** Data *)

Inductive TrustedTaskAuthorizationTarget : Type :=
| ExactWindow (process_id window_handle : Z)
| OwnedBrowser (spec : ComputerUseOwnedBrowserLaunchSpec.ComputerUseOwnedBrowserLaunchSpec).

Module TrustedTaskAuthorizationRegistration.
Record TrustedTaskAuthorizationRegistration : Type := {
  connection_id : option string;
  task_id : option string;
  task_grant_id : string;
  application_label : string;
  target : TrustedTaskAuthorizationTarget;
  allowed_host_methods : list string;
  allowed_actions : list Scope.TrustedTaskActionScope;
  allowed_browser_origins : list string;
  browser_scope : option BrowserScope.TrustedTaskAuthorizationBrowserScope;
  recording_output_dir : option string;
  capture_preparation : option PrepAuth.CapturePreparationAuthorization;
  expires_at_unix_ms : Z;
}.
End TrustedTaskAuthorizationRegistration.

Module TrustedTaskAuthorizationReceipt.
Record TrustedTaskAuthorizationReceipt : Type := {
  authorization_id : string;
  window_capability : string;
  expires_at_unix_ms : Z;
}.
End TrustedTaskAuthorizationReceipt.

Module Reg := TrustedTaskAuthorizationRegistration.
Module Receipt := TrustedTaskAuthorizationReceipt.

Inductive TrustedTaskAuthorizationBrokerError : Type :=
| InvalidRegistration (reason : string)
| NotFound
| BrokerUnavailable.

Module BrokerBinding.
Record BrokerBinding : Type := {
  connection_id : string;
  session_id : string;
  lease_request_digest : string;
  target_process_id : Z;
  target_window_handle : Z;
}.
End BrokerBinding.

(** The fence is shared by reference with the native permission and with the
    recorders it is handed to; the record is where it lives. *)
Module BrokerRecord.
Record BrokerRecord : Type := {
  registration : Reg.TrustedTaskAuthorizationRegistration;
  window_capability : string;
  binding : option BrokerBinding.BrokerBinding;
  revoked : bool;
  recording_authorization : Fence.RecordingAuthorization;
  native_target_authorization : option Native.NativeTaskAuthorization;
}.
End BrokerRecord.

Module BBind := BrokerBinding.
Module Rec := BrokerRecord.

(** [BrokerState]: the authorizations by id. *)
Abbreviation BrokerState := (gmap string Rec.BrokerRecord).

#[export] Instance PrepAuth_eq_dec : EqDecision PrepAuth.CapturePreparationAuthorization.
Proof. solve_decision. Defined.

(** ** Validating a registration *)

Definition invalid {A} (reason : string) : result TrustedTaskAuthorizationBrokerError A :=
  Err (InvalidRegistration reason).

(** An early return of the validation. *)
Definition invalid_if (b : bool) (reason : string)
    : result TrustedTaskAuthorizationBrokerError unit :=
  if b then invalid reason else Ok tt.

(** [task_authorization_broker::validate_identity]. *)
Definition validate_broker_identity (value : string) (max_chars : Z) (name : string)
    : result TrustedTaskAuthorizationBrokerError unit :=
  invalid_if (negb (identity_shape value max_chars))
    (name +:+ " must contain 1.." +:+ show max_chars
     +:+ " printable characters without surrounding whitespace").

Definition is_exact_window (target : TrustedTaskAuthorizationTarget) : bool :=
  match target with ExactWindow _ _ => true | OwnedBrowser _ => false end.

Section Registration.
Context `{P : Platform}.

Definition validate_recording_directory (directory : string)
    : result TrustedTaskAuthorizationBrokerError unit :=
  rmap_err (fun _ => InvalidRegistration
    "recording output must be an existing ordinary absolute directory without reparse ancestors")
    (validate_recording_output_location directory).

Definition validate_capture_preparation_directory (directory : string)
    : result TrustedTaskAuthorizationBrokerError unit :=
  rmap_err (fun _ => InvalidRegistration
    "capture preparation journal must be an existing ordinary absolute directory without reparse ancestors")
    (validate_recording_output_location directory).

Definition validate_registration (now : Z)
    (registration : Reg.TrustedTaskAuthorizationRegistration)
    : result TrustedTaskAuthorizationBrokerError unit :=
  let methods := Reg.allowed_host_methods registration in
  let actions := Reg.allowed_actions registration in
  let origins := Reg.allowed_browser_origins registration in
  let target := Reg.target registration in
  check? match Reg.connection_id registration with
         | Some connection_id => validate_broker_identity connection_id 256 "connection_id"
         | None => Ok tt
         end in
  check? match Reg.task_id registration with
         | Some task_id => validate_broker_identity task_id 256 "task_id"
         | None => Ok tt
         end in
  check? validate_broker_identity (Reg.task_grant_id registration)
           MAX_TASK_GRANT_ID_CHARS "task_grant_id" in
  check? validate_broker_identity (Reg.application_label registration)
           MAX_APPLICATION_LABEL_CHARS "application_label" in
  check? invalid_if
    match target with
    | ExactWindow process_id window_handle => (process_id =? 0) || (window_handle =? 0)
    | OwnedBrowser _ => false
    end "the exact target PID and window handle must be non-zero" in
  check? invalid_if
    ((Reg.expires_at_unix_ms registration <=? now)
     || (MAX_TASK_AUTHORIZATION_TTL_MS
           <? saturating_sub (Reg.expires_at_unix_ms registration) now))
    "expiry must be in the future and no more than 24 hours away" in
  check? invalid_if
    (negb (set_len actions =? len actions)
     || (MAX_TASK_AUTHORIZATION_ACTIONS <? set_len actions)
     || negb (forallb validate_action_scope actions))
    "allowed actions must be unique, closed, and bounded" in
  check? invalid_if
    ((set_len methods =? 0) || negb (set_len methods =? len methods)
     || (64 <? set_len methods)
     || existsb (fun method => negb (is_task_authorizable_host_method method)) methods)
    "allowed Host methods must be unique, closed, and non-empty" in
  let preparation_requested := existsb (starts_with "capture_preparation_") methods in
  let preparation_action := existsb is_capture_preparation actions in
  let granted := is_some (Reg.capture_preparation registration) in
  check? invalid_if
    (negb (Bool.eqb preparation_requested granted)
     || negb (Bool.eqb preparation_action granted))
    "capture preparation requires its trusted journal permission and closed action scope" in
  check? invalid_if
    (is_some_and (fun authorization =>
       negb (is_exact_window target)
       || (PrepAuth.max_lifetime_ms authorization =? 0)
       || (MAX_PREPARATION_LIFETIME_MS <? PrepAuth.max_lifetime_ms authorization)
       || is_err (validate_capture_preparation_directory
                    (PrepAuth.journal_directory authorization))
       || (Reg.recording_output_dir registration
             == Some (PrepAuth.journal_directory authorization))
       || is_some (Reg.browser_scope registration)
       || negb (is_empty origins)
       || negb (forallb (fun required => required ∈? methods) preparation_methods))
     (Reg.capture_preparation registration))
    "capture preparation requires an exact window, separate ordinary stable journal root, bounded lifetime, native state read and complete begin/state/stop methods" in
  check? invalid_if
    (is_some_and (fun directory =>
       negb (is_exact_window target)
       || is_err (validate_recording_output_location directory)
       || negb (forallb (fun required => required ∈? methods) recording_methods))
     (Reg.recording_output_dir registration))
    "manual recording requires an exact window, a pre-created ordinary directory, and start/state/stop methods" in
  check? invalid_if
    (negb (set_len origins =? len origins)
     || (MAX_TASK_AUTHORIZATION_ACTIONS <? set_len origins)
     || existsb (fun origin => negb (valid_browser_origin origin)) origins)
    "allowed browser origins must be unique exact HTTP(S) origins" in
  invalid_if
    (is_some_and (fun scope =>
       negb (validate_browser_scope scope)
       || negb (is_exact_window target)
       || (origins != [BrowserScope.origin scope])
       || negb ("browser_snapshot" ∈? methods))
     (Reg.browser_scope registration))
    "an exact browser scope requires an exact window, its sole origin, and browser_snapshot".
End Registration.

(** ** The issuer *)

(** The record once its shared fence has changed. *)
Definition with_fence (self : Rec.BrokerRecord) (fence : Fence.RecordingAuthorization)
    : Rec.BrokerRecord := {|
  Rec.registration := Rec.registration self;
  Rec.window_capability := Rec.window_capability self;
  Rec.binding := Rec.binding self;
  Rec.revoked := Rec.revoked self;
  Rec.recording_authorization := fence;
  Rec.native_target_authorization := Rec.native_target_authorization self |}.

(** [BrokerRecord::is_active]: it may close the fence. *)
Definition is_active (clock : Clock.Clock) (self : Rec.BrokerRecord)
    : Rec.BrokerRecord * bool :=
  if Rec.revoked self then (self, false)
  else
    let '(fence, live) := is_live clock (Rec.recording_authorization self) in
    (with_fence self fence, live).

(** The loop that draws identifiers until one is unused; the drawn UUIDs are an
    argument, and [None] means that the loop is still running at its end. *)
Fixpoint fresh_authorization_id (state : BrokerState) (uuids : list string)
    : option string :=
  match uuids with
  | [] => None
  | uuid :: uuids =>
      let candidate := "task-auth-" +:+ uuid in
      if is_none (state !! candidate) then Some candidate
      else fresh_authorization_id state uuids
  end.

(** What [register_inner] reads from the platform, in order. *)
Module RegisterSamples.
Record RegisterSamples : Type := {
  (** The files while the registration is validated. *)
  files : string -> option Metadata.Metadata;
  validate_now : Z;
  now : Z;
  uuids : list string;
  fence_clock : Clock.Clock;
  admit_clock : Clock.Clock;
  capability_uuid : string;
}.
End RegisterSamples.

Module RS := RegisterSamples.

(** [retain(|_, record| record.registration.expires_at_unix_ms > now)]. *)
Definition retain_unexpired (now : Z) (state : BrokerState) : BrokerState :=
  filter (fun kv : string * Rec.BrokerRecord =>
    now < Reg.expires_at_unix_ms (Rec.registration kv.2)) state.

(** [TrustedTaskAuthorizationIssuer::register_inner]. *)
Definition register_inner `{P : Platform} (samples : RS.RegisterSamples)
    (registration : Reg.TrustedTaskAuthorizationRegistration) (deadline : option Z)
    (state : BrokerState)
    : BrokerState
      * option (result TrustedTaskAuthorizationBrokerError
                  Receipt.TrustedTaskAuthorizationReceipt) :=
  match validate_registration (P := at_files (RS.files samples)) (RS.validate_now samples)
          registration with
  | Err e => (state, Some (Err e))
  | Ok _ =>
      let state := retain_unexpired (RS.now samples) state in
      if MAX_BROKER_AUTHORIZATIONS <=? Z.of_nat (size state)
      then (state, Some (Err BrokerUnavailable))
      else match fresh_authorization_id state (RS.uuids samples) with
      | None => (state, None)
      | Some authorization_id =>
          let expires_at_unix_ms := Reg.expires_at_unix_ms registration in
          let recording_authorization :=
            match deadline with
            | Some deadline =>
                with_monotonic_deadline (RS.fence_clock samples) expires_at_unix_ms deadline
            | None => new_fence (RS.fence_clock samples) expires_at_unix_ms
            end in
          let '(recording_authorization, live) :=
            is_live (RS.admit_clock samples) recording_authorization in
          if negb live
          then (state, Some (invalid "the retained task deadline has expired"))
          else
            let window_capability := "cua-window-" +:+ RS.capability_uuid samples in
            (<[authorization_id :=
                {| Rec.registration := registration;
                   Rec.window_capability := window_capability;
                   Rec.binding := None;
                   Rec.revoked := false;
                   Rec.recording_authorization := recording_authorization;
                   Rec.native_target_authorization := None |}]> state,
             Some (Ok {| Receipt.authorization_id := authorization_id;
                         Receipt.window_capability := window_capability;
                         Receipt.expires_at_unix_ms := expires_at_unix_ms |}))
      end
  end.

Definition register `{P : Platform} (samples : RS.RegisterSamples)
    (registration : Reg.TrustedTaskAuthorizationRegistration) (state : BrokerState) :=
  register_inner samples registration None state.

Definition register_with_monotonic_deadline `{P : Platform} (samples : RS.RegisterSamples)
    (registration : Reg.TrustedTaskAuthorizationRegistration) (deadline : Z)
    (state : BrokerState) :=
  register_inner samples registration (Some deadline) state.

(** [TrustedTaskAuthorizationIssuer::revoke].  Revoking the native permission
    revokes the same fence again. *)
Definition revoke (authorization_id : string) (state : BrokerState)
    : BrokerState * result TrustedTaskAuthorizationBrokerError unit :=
  match state !! authorization_id with
  | None => (state, Err NotFound)
  | Some record =>
      let fence := revoke_fence (Rec.recording_authorization record) in
      let fence := match Rec.native_target_authorization record with
                   | Some _ => revoke_fence fence
                   | None => fence
                   end in
      (<[authorization_id :=
          {| Rec.registration := Rec.registration record;
             Rec.window_capability := Rec.window_capability record;
             Rec.binding := Rec.binding record;
             Rec.revoked := true;
             Rec.recording_authorization := fence;
             Rec.native_target_authorization :=
               Rec.native_target_authorization record |}]> state, Ok tt)
  end.

(** ** The Host side *)

Definition broker_unavailable : AuthHostError.TrustedTaskAuthorizationHostError :=
  AuthHostError.Unavailable
    "the constructor-owned task authorization broker rejected the request".

(** [record] as it is after [is_active] may have closed its fence. *)
Definition store (authorization_id : string) (record : Rec.BrokerRecord)
    (state : BrokerState) : BrokerState := <[authorization_id := record]> state.

(** The binding a lease claims. *)
Definition lease_binding_matches (binding : BBind.BrokerBinding)
    (record : Rec.BrokerRecord) (lease : Lease.TrustedTaskAuthorizationLease) : bool :=
  (BBind.connection_id binding == Lease.connection_id lease)
  && (BBind.session_id binding == Lease.session_id lease)
  && (BBind.lease_request_digest binding == Lease.request_digest lease)
  && (BBind.target_process_id binding =? Lease.target_process_id lease)
  && (BBind.target_window_handle binding =? Lease.target_window_handle lease)
  && (Rec.window_capability record == Lease.window_capability lease)
  && (Reg.task_grant_id (Rec.registration record) == Lease.task_grant_id lease)
  && (Reg.application_label (Rec.registration record) == Lease.application_label lease).

(** The permission returned is the one the record holds. *)
Definition native_target_authorization (clock : Clock.Clock) (now : Z)
    (lease : Lease.TrustedTaskAuthorizationLease) (state : BrokerState)
    : BrokerState * option Native.NativeTaskAuthorization :=
  match state !! Lease.authorization_id lease with
  | None => (state, None)
  | Some record =>
      match Rec.binding record with
      | None => (state, None)
      | Some binding =>
          let '(record, active) := is_active clock record in
          let state := store (Lease.authorization_id lease) record state in
          let registration := Rec.registration record in
          if negb active
             || negb (Reg.expires_at_unix_ms registration =? Lease.expires_at_unix_ms lease)
             || (Reg.expires_at_unix_ms registration <=? now)
             || negb (lease_binding_matches binding record lease)
             || (Reg.allowed_actions registration != Lease.allowed_actions lease)
             || (Reg.allowed_host_methods registration != Lease.allowed_host_methods lease)
             || (Reg.allowed_browser_origins registration
                   != Lease.allowed_browser_origins lease)
             || (Reg.browser_scope registration != Lease.browser_scope lease)
             || (Reg.recording_output_dir registration != Lease.recording_output_dir lease)
             || (Reg.capture_preparation registration != Lease.capture_preparation lease)
          then (state, None)
          else (state, Rec.native_target_authorization record)
      end
  end.

(** The fence returned is the one the record shares. *)
Definition recording_authorization (clock admit_clock : Clock.Clock)
    (lease : Lease.TrustedTaskAuthorizationLease) (state : BrokerState)
    : BrokerState * option Fence.RecordingAuthorization :=
  match state !! Lease.authorization_id lease with
  | None => (state, None)
  | Some record =>
      match Rec.binding record with
      | None => (state, None)
      | Some binding =>
          let '(record, active) := is_active clock record in
          let state := store (Lease.authorization_id lease) record state in
          let registration := Rec.registration record in
          if negb active
             || negb (Reg.expires_at_unix_ms registration =? Lease.expires_at_unix_ms lease)
             || negb (lease_binding_matches binding record lease)
          then (state, None)
          else
            let '(fence, live) := is_live admit_clock (Rec.recording_authorization record) in
            let state :=
              store (Lease.authorization_id lease) (with_fence record fence) state in
            (state, if live then Some fence else None)
      end
  end.

(** An action whose scope includes a login, for which the native permission is
    created. *)
Definition needs_native_authorization (methods : list string)
    (action : Scope.TrustedTaskActionScope) : bool :=
  (Scope.authorization_category action ∈? ["credential"; "account_access"])
  && (if Scope.input_kind action ∈? ["semantic"; "raw_input"]
      then "execute_action" ∈? methods
      else if Scope.input_kind action == "browser"
      then (Scope.action action == "browser_type") && Scope.secret_input action
           && ("browser_type" ∈? methods)
      else false).

Definition target_matches (target : TrustedTaskAuthorizationTarget)
    (request : AuthReq.TrustedTaskAuthorizationRequest) : bool :=
  match target with
  | ExactWindow process_id window_handle =>
      (AuthReq.target_process_id request =? process_id)
      && (AuthReq.target_window_handle request =? window_handle)
  | OwnedBrowser _ =>
      negb (AuthReq.target_process_id request =? 0)
      && negb (AuthReq.target_window_handle request =? 0)
  end.

Definition authorize_exact_match (record : Rec.BrokerRecord)
    (request : AuthReq.TrustedTaskAuthorizationRequest) : bool :=
  let registration := Rec.registration record in
  (AuthReq.task_grant_id request == Reg.task_grant_id registration)
  && (AuthReq.application_label request == Reg.application_label registration)
  && (AuthReq.window_capability request == Rec.window_capability record)
  && is_none_or (fun expected => AuthReq.session_id request == expected)
       (Reg.task_id registration)
  && is_none_or (fun expected => AuthReq.connection_id request == expected)
       (Reg.connection_id registration)
  && target_matches (Reg.target registration) request.

Definition authorize (clock : Clock.Clock) (now : Z)
    (request : AuthReq.TrustedTaskAuthorizationRequest) (state : BrokerState)
    : BrokerState * result AuthHostError.TrustedTaskAuthorizationHostError
                      Lease.TrustedTaskAuthorizationLease :=
  if AuthReq.schema request != TRUSTED_TASK_AUTHORIZATION_SCHEMA
  then (state, Err AuthHostError.Denied)
  else match state !! AuthReq.authorization_id request with
  | None => (state, Err AuthHostError.Denied)
  | Some record =>
      let '(record, active) := is_active clock record in
      let registration := Rec.registration record in
      if negb active || is_some (Rec.binding record)
         || (Reg.expires_at_unix_ms registration <=? now)
         || negb (authorize_exact_match record request)
      then (store (AuthReq.authorization_id request) record state,
            Err AuthHostError.Denied)
      else
        let binding :=
          {| BBind.connection_id := AuthReq.connection_id request;
             BBind.session_id := AuthReq.session_id request;
             BBind.lease_request_digest := AuthReq.request_digest request;
             BBind.target_process_id := AuthReq.target_process_id request;
             BBind.target_window_handle := AuthReq.target_window_handle request |} in
        let native :=
          if existsb (needs_native_authorization (Reg.allowed_host_methods registration))
               (Reg.allowed_actions registration)
          then Some (with_shared_lifetime (AuthReq.target_process_id request)
                       (AuthReq.target_window_handle request))
          else Rec.native_target_authorization record in
        (store (AuthReq.authorization_id request)
           {| Rec.registration := registration;
              Rec.window_capability := Rec.window_capability record;
              Rec.binding := Some binding;
              Rec.revoked := Rec.revoked record;
              Rec.recording_authorization := Rec.recording_authorization record;
              Rec.native_target_authorization := native |} state,
         Ok {| Lease.connection_id := AuthReq.connection_id request;
               Lease.authorization_id := AuthReq.authorization_id request;
               Lease.session_id := AuthReq.session_id request;
               Lease.task_grant_id := AuthReq.task_grant_id request;
               Lease.application_label := AuthReq.application_label request;
               Lease.window_capability := AuthReq.window_capability request;
               Lease.target_process_id := AuthReq.target_process_id request;
               Lease.target_window_handle := AuthReq.target_window_handle request;
               Lease.allowed_host_methods := Reg.allowed_host_methods registration;
               Lease.allowed_actions := Reg.allowed_actions registration;
               Lease.allowed_browser_origins := Reg.allowed_browser_origins registration;
               Lease.browser_scope := Reg.browser_scope registration;
               Lease.recording_output_dir := Reg.recording_output_dir registration;
               Lease.capture_preparation := Reg.capture_preparation registration;
               Lease.issued_at_unix_ms := now;
               Lease.expires_at_unix_ms := Reg.expires_at_unix_ms registration;
               Lease.request_digest := AuthReq.request_digest request |})
  end.

(** The answer of [validate] and [validate_lease] once the request matches. *)
Definition status_decision (clock : Clock.Clock) (authorization_id : string)
    (record : Rec.BrokerRecord) (request_digest : string) (state : BrokerState)
    : BrokerState * result AuthHostError.TrustedTaskAuthorizationHostError
                      ValDecision.TrustedTaskAuthorizationValidationDecision :=
  let '(record, active) := is_active clock record in
  (store authorization_id record state,
   Ok {| ValDecision.status := if negb active then Revoked else Active;
         ValDecision.request_digest := request_digest |}).

Definition validate (clock : Clock.Clock)
    (request : ValReq.TrustedTaskAuthorizationValidationRequest) (state : BrokerState)
    : BrokerState * result AuthHostError.TrustedTaskAuthorizationHostError
                      ValDecision.TrustedTaskAuthorizationValidationDecision :=
  if ValReq.schema request != TRUSTED_TASK_AUTHORIZATION_VALIDATION_SCHEMA
  then (state, Err broker_unavailable)
  else match state !! ValReq.authorization_id request with
  | None => (state, Err broker_unavailable)
  | Some record =>
      match Rec.binding record with
      | None => (state, Err broker_unavailable)
      | Some binding =>
          let registration := Rec.registration record in
          let exact_match :=
            (ValReq.session_id request == BBind.session_id binding)
            && (ValReq.connection_id request == BBind.connection_id binding)
            && (ValReq.lease_request_digest request == BBind.lease_request_digest binding)
            && (ValReq.task_grant_id request == Reg.task_grant_id registration)
            && (ValReq.application_label request == Reg.application_label registration)
            && (ValReq.window_capability request == Rec.window_capability record)
            && (ValReq.target_process_id request =? BBind.target_process_id binding)
            && (ValReq.target_window_handle request =? BBind.target_window_handle binding)
            && (ValReq.action_scope request ∈? Reg.allowed_actions registration) in
          if negb exact_match then (state, Err broker_unavailable)
          else status_decision clock (ValReq.authorization_id request) record
                 (ValReq.request_digest request) state
      end
  end.

(** [BrokerHost::validate_lease]. *)
Definition broker_validate_lease (clock : Clock.Clock)
    (request : LeaseReq.TrustedTaskAuthorizationLeaseValidationRequest)
    (state : BrokerState)
    : BrokerState * result AuthHostError.TrustedTaskAuthorizationHostError
                      ValDecision.TrustedTaskAuthorizationValidationDecision :=
  if LeaseReq.schema request != TRUSTED_TASK_AUTHORIZATION_LEASE_VALIDATION_SCHEMA
  then (state, Err broker_unavailable)
  else match state !! LeaseReq.authorization_id request with
  | None => (state, Err broker_unavailable)
  | Some record =>
      match Rec.binding record with
      | None => (state, Err broker_unavailable)
      | Some binding =>
          let registration := Rec.registration record in
          let exact_match :=
            (LeaseReq.session_id request == BBind.session_id binding)
            && (LeaseReq.connection_id request == BBind.connection_id binding)
            && (LeaseReq.lease_request_digest request == BBind.lease_request_digest binding)
            && (LeaseReq.task_grant_id request == Reg.task_grant_id registration)
            && (LeaseReq.application_label request == Reg.application_label registration)
            && (LeaseReq.window_capability request == Rec.window_capability record)
            && (LeaseReq.target_process_id request =? BBind.target_process_id binding)
            && (LeaseReq.target_window_handle request =? BBind.target_window_handle binding)
          in
          if negb exact_match then (state, Err broker_unavailable)
          else status_decision clock (LeaseReq.authorization_id request) record
                 (LeaseReq.request_digest request) state
      end
  end.

(** ** Runs of the broker *)

Inductive broker_op : Type :=
| OpRegister (samples : RS.RegisterSamples)
    (registration : Reg.TrustedTaskAuthorizationRegistration) (deadline : option Z)
| OpRevoke (authorization_id : string)
| OpNative (clock : Clock.Clock) (now : Z) (lease : Lease.TrustedTaskAuthorizationLease)
| OpRecording (clock admit_clock : Clock.Clock)
    (lease : Lease.TrustedTaskAuthorizationLease)
| OpAuthorize (clock : Clock.Clock) (now : Z)
    (request : AuthReq.TrustedTaskAuthorizationRequest)
| OpValidate (clock : Clock.Clock)
    (request : ValReq.TrustedTaskAuthorizationValidationRequest)
| OpValidateLease (clock : Clock.Clock)
    (request : LeaseReq.TrustedTaskAuthorizationLeaseValidationRequest)
(** The holder of a shared fence uses it. *)
| OpFence (authorization_id : string) (op : fence_op).

Inductive broker_reply : Type :=
| Registered (r : option (result TrustedTaskAuthorizationBrokerError
                            Receipt.TrustedTaskAuthorizationReceipt))
| RevokeReply (r : result TrustedTaskAuthorizationBrokerError unit)
| NativeReply (r : option Native.NativeTaskAuthorization)
| RecordingReply (r : option Fence.RecordingAuthorization)
| LeaseReply (r : result AuthHostError.TrustedTaskAuthorizationHostError
                    Lease.TrustedTaskAuthorizationLease)
| DecisionReply (authorization_id : string)
    (r : result AuthHostError.TrustedTaskAuthorizationHostError
           ValDecision.TrustedTaskAuthorizationValidationDecision)
| FenceReply (authorization_id : string) (admitted : bool).

(** A use of the fence that a record shares.  A record leaves the state only at its expiry,
    which is the expiry of its fence too; a fence held beyond that is not followed. *)
Definition use_fence (authorization_id : string) (op : fence_op) (state : BrokerState)
    : BrokerState * bool :=
  match state !! authorization_id with
  | None => (state, false)
  | Some record =>
      let '(fence, admitted) := fence_step (Rec.recording_authorization record) op in
      (store authorization_id (with_fence record fence) state, admitted)
  end.

Definition broker_step `{P : Platform} (state : BrokerState) (op : broker_op)
    : BrokerState * broker_reply :=
  match op with
  | OpRegister samples registration deadline =>
      let '(state, r) := register_inner samples registration deadline state in
      (state, Registered r)
  | OpRevoke id => let '(state, r) := revoke id state in (state, RevokeReply r)
  | OpNative clock now lease =>
      let '(state, r) := native_target_authorization clock now lease state in
      (state, NativeReply r)
  | OpRecording clock admit_clock lease =>
      let '(state, r) := recording_authorization clock admit_clock lease state in
      (state, RecordingReply r)
  | OpAuthorize clock now request =>
      let '(state, r) := authorize clock now request state in (state, LeaseReply r)
  | OpValidate clock request =>
      let '(state, r) := validate clock request state in
      (state, DecisionReply (ValReq.authorization_id request) r)
  | OpValidateLease clock request =>
      let '(state, r) := broker_validate_lease clock request state in
      (state, DecisionReply (LeaseReq.authorization_id request) r)
  | OpFence id op =>
      let '(state, admitted) := use_fence id op state in (state, FenceReply id admitted)
  end.

Definition broker_run `{P : Platform} : BrokerState -> list broker_op ->
    BrokerState * list broker_reply := run broker_step.

(** ** Records only evolve *)

(** A record that can confer nothing any more: its shared fence is closed. *)
Definition dead_record (r : Rec.BrokerRecord) : Prop :=
  closed (Rec.recording_authorization r).

(** The mark on the record and its fence agree. *)
Definition wf_record (r : Rec.BrokerRecord) : Prop :=
  Rec.revoked r = true -> dead_record r.

(** What the life of one record can do to it. *)
Definition evolves (r r' : Rec.BrokerRecord) : Prop :=
  Rec.registration r' = Rec.registration r
  /\ Rec.window_capability r' = Rec.window_capability r
  /\ (forall b, Rec.binding r = Some b -> Rec.binding r' = Some b)
  /\ (dead_record r -> dead_record r')
  /\ (wf_record r -> wf_record r').

Lemma evolves_refl r : evolves r r.
Proof. by split_and!. Qed.
Lemma evolves_trans a b c : evolves a b -> evolves b c -> evolves a c.
Proof. unfold evolves. intros (? & ? & ? & ? & ?) (? & ? & ? & ? & ?).
  split_and!; auto; congruence. Qed.
#[export] Hint Resolve evolves_refl : core.

Lemma is_live_spec clock f f' b :
  is_live clock f = (f', b) ->
  (b = true /\ f' = f /\ ~ closed f
   /\ Clock.unix_ms clock < Fence.expires_at_unix_ms f)
  \/ (b = false /\ closed f').
Proof.
  unfold is_live, with_active. destruct (admit_fence clock f) as [f1 [[]|e]] eqn:E;
    intros [= <- <-]; simpl.
  - left. apply admit_ok in E as (-> & Hp & Hr & Hu & _). split_and!; try done.
    unfold closed. intros [?|?]; congruence.
  - right. split; [done|]. by eapply admit_err.
Qed.

Lemma is_live_closed clock f : closed f -> is_live clock f = ((is_live clock f).1, false).
Proof.
  intros Hc. destruct (is_live clock f) as [f' b] eqn:E.
  apply is_live_spec in E as [(_ & _ & ? & _)|[-> _]]; done.
Qed.

Lemma revoke_fence_closed f : closed (revoke_fence f).
Proof. unfold revoke_fence. destruct (Fence.poisoned f) eqn:E; [by right | by left]. Qed.

Lemma fence_evolves record f :
  (closed (Rec.recording_authorization record) -> closed f) ->
  evolves record (with_fence record f).
Proof. intros Hf. unfold evolves, wf_record, dead_record. split_and!; auto. Qed.

Lemma is_active_spec clock r r' b :
  is_active clock r = (r', b) ->
  evolves r r' /\ Rec.binding r' = Rec.binding r
  /\ ((b = true /\ ~ dead_record r /\ r' = r)
      \/ (b = false /\ (wf_record r -> dead_record r'))).
Proof.
  unfold is_active. destruct (Rec.revoked r) eqn:Er.
  - intros [= <- <-]. split_and!; [done | done |]. right. split; [done|].
    intros Hwf. by apply Hwf.
  - destruct (is_live clock (Rec.recording_authorization r)) as [f live] eqn:E.
    intros [= <- <-].
    apply is_live_spec in E as [(-> & -> & Hn & Hu)|[-> Hc]];
      (split; [by apply fence_evolves|]); (split; [done|]).
    + left. split_and!; [done | done | by destruct r].
    + by right.
Qed.

(** ** One step, seen from one identifier *)

Definition issues (reply : broker_reply) (id : string) : Prop :=
  match reply with
  | Registered (Some (Ok receipt)) => Receipt.authorization_id receipt = id
  | _ => False
  end.

(** Every record after an operation on [id0] comes from one before it. *)
Definition comes_from (s s' : BrokerState) (id : string) : Prop :=
  forall r', s' !! id = Some r' -> exists r, s !! id = Some r /\ evolves r r'.

Lemma comes_from_refl s id : comes_from s s id.
Proof. intros r' H. eauto. Qed.

Lemma comes_from_store s id0 r0 r0' id :
  s !! id0 = Some r0 -> evolves r0 r0' -> comes_from s (store id0 r0' s) id.
Proof.
  intros Hr Hev r' H. unfold store in H.
  destruct (decide (id0 = id)) as [->|Hne].
  - rewrite lookup_insert_eq in H. simplify_eq. eauto.
  - rewrite lookup_insert_ne in H by done. eauto.
Qed.
#[export] Hint Resolve comes_from_refl comes_from_store : core.

Lemma register_comes_from `{P : Platform} samples registration deadline s s' reply id :
  register_inner samples registration deadline s = (s', reply) ->
  ~ issues (Registered reply) id -> comes_from s s' id.
Proof.
  unfold register_inner. intros H Hid.
  destruct (validate_registration _ _); [|by simplify_eq].
  assert (comes_from s (retain_unexpired (RS.now samples) s) id) as Hretain.
  { intros r' [Hr _]%map_lookup_filter_Some. eauto. }
  destruct (_ <=? _); [by simplify_eq|].
  destruct (fresh_authorization_id _ _) as [fresh|] eqn:Ef; [|by simplify_eq].
  destruct (is_live _ _) as [fence live]. destruct live; simplify_eq/=; [|done].
  intros r' Hr'. rewrite lookup_insert_ne in Hr' by done. by apply Hretain.
Qed.

Ltac with_active_record :=
  match goal with
  | |- context [is_active ?clock ?r] =>
      let r' := fresh "record" in let b := fresh "active" in let E := fresh "Eactive" in
      destruct (is_active clock r) as [r' b] eqn:E;
      apply is_active_spec in E as (? & ? & ?)
  end.

Lemma status_decision_comes_from clock id0 record digest s s' reply id :
  s !! id0 = Some record ->
  status_decision clock id0 record digest s = (s', reply) -> comes_from s s' id.
Proof. unfold status_decision. intros Hr. with_active_record. intros [= <- <-]. eauto. Qed.

Lemma step_comes_from `{P : Platform} s op s' reply id :
  broker_step s op = (s', reply) -> ~ issues reply id -> comes_from s s' id.
Proof.
  destruct op; simpl; intros H Hid.
  - destruct (register_inner samples registration deadline s) as [s1 r] eqn:E. simplify_eq.
    by eapply register_comes_from.
  - unfold revoke in H. destruct (s !! authorization_id) as [record|] eqn:Er;
      simplify_eq/=; [|done].
    eapply comes_from_store; [done|]. unfold evolves, wf_record, dead_record. simpl.
    assert (closed (match Rec.native_target_authorization record with
      | Some _ => revoke_fence (revoke_fence (Rec.recording_authorization record))
      | None => revoke_fence (Rec.recording_authorization record) end)) as Hc
      by (destruct (Rec.native_target_authorization record); apply revoke_fence_closed).
    by split_and!.
  - unfold native_target_authorization in H.
    destruct (s !! _) as [record|] eqn:Er; [|by simplify_eq].
    destruct (Rec.binding record) as [b|] eqn:Eb; [|by simplify_eq].
    revert H. with_active_record. destruct (_ || _); intros; simplify_eq; eauto.
  - unfold recording_authorization in H.
    destruct (s !! _) as [record|] eqn:Er; [|by simplify_eq].
    destruct (Rec.binding record) as [b|] eqn:Eb; [|by simplify_eq].
    revert H. with_active_record. destruct (_ || _); [intros; simplify_eq; eauto|].
    destruct (is_live admit_clock _) as [f live] eqn:El. intros; simplify_eq.
    unfold store. rewrite insert_insert_eq. eapply comes_from_store; [done|].
    eapply evolves_trans; [done|]. apply fence_evolves. intros Hc.
    apply is_live_spec in El as [(_ & _ & ? & _)|[_ ?]]; done.
  - unfold authorize in H. destruct (_ != _); [by simplify_eq|].
    destruct (s !! _) as [record|] eqn:Er; [|by simplify_eq].
    revert H. with_active_record.
    destruct (negb active || is_some (Rec.binding record0) || _ || _) eqn:Eg;
      intros; simplify_eq; [eauto|].
    eapply comes_from_store; [done|]. eapply evolves_trans; [done|].
    apply orb_false_iff in Eg as [Eg _]. apply orb_false_iff in Eg as [Eg _].
    apply orb_false_iff in Eg as [_ Hnone%is_some_false].
    split_and!; simpl; try done. congruence.
  - unfold validate in H. destruct (_ != _); [by simplify_eq|].
    destruct (s !! _) as [record|] eqn:Er; [|by simplify_eq].
    destruct (Rec.binding record); [|by simplify_eq].
    destruct (negb _); [by simplify_eq|].
    destruct (status_decision _ _ _ _ _) as [s1 r] eqn:E. simplify_eq.
    by eapply status_decision_comes_from.
  - unfold broker_validate_lease in H. destruct (_ != _); [by simplify_eq|].
    destruct (s !! _) as [record|] eqn:Er; [|by simplify_eq].
    destruct (Rec.binding record); [|by simplify_eq].
    destruct (negb _); [by simplify_eq|].
    destruct (status_decision _ _ _ _ _) as [s1 r] eqn:E. simplify_eq.
    by eapply status_decision_comes_from.
  - unfold use_fence in H. destruct (s !! _) as [record|] eqn:Er; [|by simplify_eq].
    destruct (fence_step _ _) as [f b] eqn:Ef. simplify_eq.
    eapply comes_from_store; [done|]. apply fence_evolves. intros Hc.
    eapply fence_step_closed in Hc as [Hc _]. by rewrite Ef in Hc.
Qed.

(** ** Authority of one identifier along a run *)

(** The reply lets something be done under the authorization [id]. *)
Definition confers (op : broker_op) (reply : broker_reply) (id : string) : Prop :=
  match op, reply with
  | _, LeaseReply (Ok lease) => Lease.authorization_id lease = id
  | _, DecisionReply id' (Ok decision) => id' = id /\ ValDecision.status decision = Active
  | _, FenceReply id' true => id' = id
  | OpNative _ _ lease, NativeReply (Some _) => Lease.authorization_id lease = id
  | OpRecording _ _ lease, RecordingReply (Some _) => Lease.authorization_id lease = id
  | _, _ => False
  end.

(** The reply says that the authorization [id] has ended. *)
Definition ends (op : broker_op) (reply : broker_reply) (id : string) : Prop :=
  match op, reply with
  | OpRevoke id', RevokeReply (Ok _) => id' = id
  | _, DecisionReply id' (Ok decision) => id' = id /\ ValDecision.status decision = Revoked
  | _, FenceReply id' false => id' = id
  | _, _ => False
  end.

Definition dead (id : string) (s : BrokerState) : Prop :=
  forall r, s !! id = Some r -> dead_record r.

(** The record is bound, if it is still there. *)
Definition bound (id : string) (s : BrokerState) : Prop :=
  forall r, s !! id = Some r -> is_Some (Rec.binding r).

Lemma comes_from_dead s s' id : comes_from s s' id -> dead id s -> dead id s'.
Proof.
  intros H Hd r' Hr'. destruct (H r' Hr') as (r & Hr & _ & _ & _ & Hev & _). eauto.
Qed.

Lemma comes_from_bound s s' id : comes_from s s' id -> bound id s -> bound id s'.
Proof.
  intros H Hb r' Hr'. destruct (H r' Hr') as (r & Hr & _ & _ & Hev & _).
  destruct (Hb r Hr) as [b Hbind]. eauto.
Qed.

Lemma status_decision_spec clock id record digest s s' d :
  status_decision clock id record digest s = (s', Ok d) ->
  (ValDecision.status d = Active /\ ~ dead_record record)
  \/ (ValDecision.status d = Revoked /\ (wf_record record -> dead id s')).
Proof.
  unfold status_decision. with_active_record. intros [= <- <-]. simpl.
  destruct H1 as [(-> & ? & _)|[-> Hd]]; [by left|]. right. split; [done|].
  intros Hwf r Hr. unfold store in Hr. rewrite lookup_insert_eq in Hr.
  simplify_eq. auto.
Qed.

Lemma step_confers `{P : Platform} s op s' reply id :
  broker_step s op = (s', reply) -> confers op reply id ->
  exists r, s !! id = Some r /\ ~ dead_record r.
Proof.
  destruct op; simpl; intros H Hc.
  - destruct (register_inner _ _ _ _). by simplify_eq/=.
  - destruct (revoke _ _). by simplify_eq/=.
  - unfold native_target_authorization in H.
    destruct (s !! _) as [record|] eqn:Er; [|by simplify_eq].
    destruct (Rec.binding record) as [b|] eqn:Eb; [|by simplify_eq].
    revert H. with_active_record. intros H2.
    destruct active; [|by simpl in H2; simplify_eq]. destruct (_ || _); simplify_eq; [done|].
    destruct (Rec.native_target_authorization record0); [|done]. subst.
    destruct H1 as [(_ & ? & _)|[? _]]; [eauto | done].
  - unfold recording_authorization in H.
    destruct (s !! _) as [record|] eqn:Er; [|by simplify_eq].
    destruct (Rec.binding record) as [b|] eqn:Eb; [|by simplify_eq].
    revert H. with_active_record. intros H2.
    destruct active; [|by simpl in H2; simplify_eq]. destruct (_ || _); simplify_eq; [done|].
    destruct (is_live admit_clock _) as [f live]. destruct live; simplify_eq; [|done].
    destruct H1 as [(_ & ? & _)|[? _]]; [eauto | done].
  - unfold authorize in H. destruct (_ != _); [by simplify_eq|].
    destruct (s !! _) as [record|] eqn:Er; [|by simplify_eq].
    revert H. with_active_record. intros H2.
    destruct active; [|by simpl in H2; simplify_eq]. destruct (_ || _); simplify_eq/=; [done|].
    destruct H1 as [(_ & ? & _)|[? _]]; [eauto | done].
  - unfold validate in H. destruct (_ != _); [by simplify_eq|].
    destruct (s !! _) as [record|] eqn:Er; [|by simplify_eq].
    destruct (Rec.binding record); [|by simplify_eq].
    destruct (negb _); [by simplify_eq|].
    destruct (status_decision _ _ _ _ _) as [s1 [d|e]] eqn:E; simplify_eq; [|done].
    destruct Hc as [<- Hc].
    apply status_decision_spec in E as [[_ ?]|[? _]]; [eauto | congruence].
  - unfold broker_validate_lease in H. destruct (_ != _); [by simplify_eq|].
    destruct (s !! _) as [record|] eqn:Er; [|by simplify_eq].
    destruct (Rec.binding record); [|by simplify_eq].
    destruct (negb _); [by simplify_eq|].
    destruct (status_decision _ _ _ _ _) as [s1 [d|e]] eqn:E; simplify_eq; [|done].
    destruct Hc as [<- Hc].
    apply status_decision_spec in E as [[_ ?]|[? _]]; [eauto | congruence].
  - unfold use_fence in H. destruct (s !! _) as [record|] eqn:Er; [|by simplify_eq].
    destruct (fence_step (Rec.recording_authorization record) op) as [f b] eqn:Ef.
    simplify_eq. destruct b; [|done]. subst. exists record. split; [done|].
    intros Hc'. apply (fence_step_closed _ op) in Hc' as [_ Hf]. by rewrite Ef in Hf.
Qed.

Definition wf_state (s : BrokerState) : Prop :=
  forall id r, s !! id = Some r -> wf_record r.

Lemma step_issued `{P : Platform} s op s' reply id :
  broker_step s op = (s', reply) -> issues reply id ->
  exists r, s' !! id = Some r /\ Rec.revoked r = false /\ Rec.binding r = None.
Proof.
  destruct op; simpl; intros H Hi; try (repeat case_match; by simplify_eq).
  destruct (register_inner samples registration deadline s) as [s1 [[receipt|]|]] eqn:E;
    simplify_eq; try done.
  unfold register_inner in E. destruct (validate_registration _ _); [|by simplify_eq].
  destruct (_ <=? _); [by simplify_eq|].
  destruct (fresh_authorization_id _ _); [|by simplify_eq].
  destruct (is_live _ _) as [fence live]. destruct live; simplify_eq/=.
  eexists. rewrite lookup_insert_eq. done.
Qed.

#[export] Instance issues_dec reply id : Decision (issues reply id).
Proof. destruct reply as [[[?|?]|]| | | | | |]; simpl; apply _. Defined.

Lemma step_wf `{P : Platform} s op s' reply :
  broker_step s op = (s', reply) -> wf_state s -> wf_state s'.
Proof.
  intros H Hwf id r' Hr'.
  destruct (decide (issues reply id)) as [Hi|Hi].
  - destruct (step_issued _ _ _ _ id H Hi) as (r & Hr & Hrev & _). simplify_eq.
    intros ?. congruence.
  - destruct (step_comes_from _ _ _ _ id H Hi r' Hr') as (r & Hr & _ & _ & _ & _ & Hev).
    eauto.
Qed.

(** A property of the record of [id] lasts while [id] is not issued again. *)
Lemma issued_between `{P : Platform} (ops : list broker_op) (i j : nat) (id : string)
    (r_i r_j : broker_reply) :
  (i < j)%nat -> (broker_run ∅ ops).2 !! i = Some r_i ->
  (broker_run ∅ ops).2 !! j = Some r_j ->
  (forall k r, (i < k)%nat -> (broker_run ∅ ops).2 !! k = Some r -> ~ issues r id) ->
  let before k := (broker_run ∅ (take k ops)).1 in
  exists op_i op_j, ops !! i = Some op_i /\ ops !! j = Some op_j
    /\ wf_state (before i) /\ broker_step (before i) op_i = (before (S i), r_i)
    /\ broker_step (before j) op_j = (before (S j), r_j)
    /\ forall D : BrokerState -> Prop,
      (forall s s', comes_from s s' id -> D s -> D s') -> D (before (S i)) -> D (before j).
Proof.
  intros Hij Hi Hj Hno before.
  destruct (run_between broker_step wf_state ∅ ops i j r_i r_j)
    as (op_i & op_j & ? & ? & ? & ? & _ & ? & HD); [|done..|].
  - intros s op Hs. destruct (broker_step s op) eqn:E. by eapply step_wf.
  - exists op_i, op_j. split_and!; [done..|]. intros D Hkeep. apply HD.
    intros k sk op sk' r Hk _ Hr E _. apply Hkeep. eapply step_comes_from; [done|].
    eapply Hno; [|done]. lia.
Qed.

Lemma step_ends `{P : Platform} s op s' reply id :
  broker_step s op = (s', reply) -> wf_state s -> ends op reply id -> dead id s'.
Proof.
  destruct op; simpl; intros H Hwf He.
  - destruct (register_inner _ _ _ _). by simplify_eq.
  - unfold revoke in H. destruct (s !! authorization_id) as [record|] eqn:Er;
      simplify_eq/=; [|done].
    intros r Hr. rewrite lookup_insert_eq in Hr. simplify_eq. unfold dead_record. simpl.
    destruct (Rec.native_target_authorization record); apply revoke_fence_closed.
  - destruct (native_target_authorization _ _ _ _). by simplify_eq.
  - destruct (recording_authorization _ _ _ _). by simplify_eq.
  - destruct (authorize _ _ _ _). by simplify_eq.
  - unfold validate in H. destruct (_ != _); [by simplify_eq|].
    destruct (s !! _) as [record|] eqn:Er; [|by simplify_eq].
    destruct (Rec.binding record); [|by simplify_eq].
    destruct (negb _); [by simplify_eq|].
    destruct (status_decision _ _ _ _ _) as [s1 [d|e]] eqn:E; simplify_eq; [|done].
    destruct He as [<- He].
    apply status_decision_spec in E as [[? _]|[_ Hd]]; [congruence | eauto].
  - unfold broker_validate_lease in H. destruct (_ != _); [by simplify_eq|].
    destruct (s !! _) as [record|] eqn:Er; [|by simplify_eq].
    destruct (Rec.binding record); [|by simplify_eq].
    destruct (negb _); [by simplify_eq|].
    destruct (status_decision _ _ _ _ _) as [s1 [d|e]] eqn:E; simplify_eq; [|done].
    destruct He as [<- He].
    apply status_decision_spec in E as [[? _]|[_ Hd]]; [congruence | eauto].
  - unfold use_fence in H. destruct (s !! _) as [record|] eqn:Er.
    + destruct (fence_step (Rec.recording_authorization record) op) as [f b] eqn:Ef.
      simplify_eq. destruct b; [done|]. subst. intros r Hr.
      unfold store in Hr. rewrite lookup_insert_eq in Hr. simplify_eq.
      pose proof (fence_step_not_admitted (Rec.recording_authorization record) op) as Hn.
      rewrite Ef in Hn. by apply Hn.
    + simplify_eq. intros r Hr. congruence.
Qed.

(** A reply issues no identifier that an earlier one already used. *)
Definition not_reissued (replies : list broker_reply) (i : nat) (id : string) : Prop :=
  forall k r, (i < k)%nat -> replies !! k = Some r -> ~ issues r id.

(** C3: an authorization ends for good.  In any run of the broker, once an
    authorization has been revoked, or reported as revoked, or its shared fence
    has refused work (because a deadline passed on either clock), no later reply
    confers anything under its identifier: no lease, no [Active] decision, no
    native or recording permission, no admission through the fence it shared.
    Only the registration of a new authorization under the same identifier, which
    is drawn at random, could. *)
Theorem broker_authorization_ends_for_good `{P : Platform} (ops : list broker_op)
    (i j : nat) (id : string) (op_i op_j : broker_op) (r_i r_j : broker_reply) :
  let replies := (broker_run ∅ ops).2 in
  (i < j)%nat -> ops !! i = Some op_i -> replies !! i = Some r_i -> ends op_i r_i id ->
  not_reissued replies i id ->
  ops !! j = Some op_j -> replies !! j = Some r_j -> ~ confers op_j r_j id.
Proof.
  intros replies Hij Hopi Hri Hend Hno Hopj Hrj Hconf.
  destruct (issued_between ops i j id r_i r_j Hij Hri Hrj Hno)
    as (op & op' & Hop & Hop' & Hwf & Hi & Hj & HD).
  simplify_eq.
  apply (step_ends _ _ _ _ id) in Hi as Hdead; [|done..].
  destruct (step_confers _ _ _ _ id Hj Hconf) as (r & Hr & Hlive).
  apply Hlive, (HD (dead id)); [intros ? ?; apply comes_from_dead | done | done].
Qed.

(** ** One lease per authorization *)

Lemma authorize_ok clock now request s s' lease :
  authorize clock now request s = (s', Ok lease) ->
  exists record, s !! AuthReq.authorization_id request = Some record
    /\ ~ dead_record record /\ Rec.binding record = None
    /\ now < Reg.expires_at_unix_ms (Rec.registration record)
    /\ authorize_exact_match record request = true
    /\ Lease.authorization_id lease = AuthReq.authorization_id request
    /\ bound (AuthReq.authorization_id request) s'.
Proof.
  unfold authorize. intros H. destruct (_ != _); [by simplify_eq|].
  destruct (s !! _) as [record|] eqn:Er; [|by simplify_eq].
  revert H. with_active_record. intros H2.
  destruct H1 as [(-> & Hlive & ->)|[-> _]]; [|by simpl in H2; simplify_eq].
  destruct (negb true || is_some (Rec.binding record) || _ || _) eqn:Eg; [by simplify_eq|].
  apply orb_false_iff in Eg as [Eg Hm%negb_false_iff].
  apply orb_false_iff in Eg as [Eg Ht%Z.leb_gt].
  apply orb_false_iff in Eg as [_ Hnone%is_some_false].
  simplify_eq. exists record. split_and!; try done.
  intros r Hr. unfold store in Hr. rewrite lookup_insert_eq in Hr. simplify_eq. by eexists.
Qed.

(** an authorization is used once.  In any run of the broker at most one
    lease is ever issued for a registration: a second request under the same
    identifier, from whichever session or connection, is denied. *)
Theorem broker_issues_one_lease_per_authorization `{P : Platform} (ops : list broker_op)
    (i j : nat) (lease_i lease_j : Lease.TrustedTaskAuthorizationLease) :
  let replies := (broker_run ∅ ops).2 in
  (i < j)%nat ->
  replies !! i = Some (LeaseReply (Ok lease_i)) ->
  not_reissued replies i (Lease.authorization_id lease_i) ->
  replies !! j = Some (LeaseReply (Ok lease_j)) ->
  Lease.authorization_id lease_j <> Lease.authorization_id lease_i.
Proof.
  intros replies Hij Hi Hno Hj Heq.
  destruct (issued_between ops i j _ _ _ Hij Hi Hj Hno)
    as (op & op' & _ & _ & _ & Hi' & Hj' & HD).
  assert (bound (Lease.authorization_id lease_i) (broker_run ∅ (take j ops)).1) as Hb.
  { apply HD; [intros ? ?; apply comes_from_bound|].
    destruct op; simpl in Hi'; try (repeat case_match; by simplify_eq).
    destruct (authorize clock now request _) as [s1 r] eqn:E. injection Hi' as <- ->.
    by apply authorize_ok in E as (? & _ & _ & _ & _ & _ & -> & Hb). }
  destruct op'; simpl in Hj'; try (repeat case_match; by simplify_eq).
  destruct (authorize clock now request _) as [s1 r] eqn:E. injection Hj' as _ ->.
  apply authorize_ok in E as (record & Hr & _ & Hnone & _ & _ & Hid & _).
  rewrite <- Hid, Heq in Hr. destruct (Hb _ Hr). congruence.
Qed.

(** ** The broker keeps its promise to the Host *)

(** What a registration that was accepted says about the leases issued from it. *)
Definition lease_from (registration : Reg.TrustedTaskAuthorizationRegistration)
    (lease : Lease.TrustedTaskAuthorizationLease) : Prop :=
  Lease.allowed_host_methods lease = Reg.allowed_host_methods registration
  /\ Lease.allowed_actions lease = Reg.allowed_actions registration
  /\ Lease.allowed_browser_origins lease = Reg.allowed_browser_origins registration
  /\ Lease.browser_scope lease = Reg.browser_scope registration
  /\ Lease.recording_output_dir lease = Reg.recording_output_dir registration
  /\ Lease.capture_preparation lease = Reg.capture_preparation registration.

Lemma invalid_if_ok b reason : invalid_if b reason = Ok tt <-> b = false.
Proof. destruct b; naive_solver. Qed.
#[export] Hint Rewrite invalid_if_ok : result_ok.

Lemma unique_list_checks_neg {A} `{EqDecision A} (l : list A) (max : Z) (f : A -> bool) :
  negb (set_len l =? len l) || (max <? set_len l) || negb (forallb f l) = false ->
  NoDup l /\ len l <= max /\ forall x, x ∈ l -> f x = true.
Proof.
  rewrite !orb_false_iff, !negb_false_iff, Z.ltb_ge. intros [[H1 H2] H3].
  apply unique_list_checks. by rewrite H1, H3, (proj2 (Z.leb_le _ _) H2).
Qed.

Lemma existsb_negb {A} (f : A -> bool) l :
  existsb (fun x => negb (f x)) l = negb (forallb f l).
Proof. induction l as [|x l IH]; [done|]. simpl. rewrite IH. by destruct (f x). Qed.

Lemma location_dir_ok `{P : Platform} directory :
  validate_recording_output_location directory = Ok tt ->
  is_ok (validate_recording_output_dir directory) = true.
Proof. intros ([] & H & _)%rbind_ok. by rewrite H. Qed.

Lemma is_err_false_unit {E} (m : result E unit) : is_err m = false <-> m = Ok tt.
Proof. destruct m as [[]|]; naive_solver. Qed.

(** The lifetime of a permission is a [u64]. *)
Definition typed_registration (registration : Reg.TrustedTaskAuthorizationRegistration)
    : Prop :=
  forall authorization, Reg.capture_preparation registration = Some authorization ->
    is_u64 (PrepAuth.max_lifetime_ms authorization).

Lemma validate_registration_lease `{P : Platform} now registration lease :
  validate_registration now registration = Ok tt -> typed_registration registration ->
  lease_from registration lease ->
  lease_scope_valid lease
  /\ Reg.expires_at_unix_ms registration - now <= MAX_TASK_AUTHORIZATION_TTL_MS.
Proof.
  intros H Htyped (Hm & Ha & Ho & Hb & Hr & Hp). unfold validate_registration in H.
  apply rbind_ok in H as (_ & _ & H). apply rbind_ok in H as (_ & _ & H).
  apply rbind_ok in H as (_ & _ & H). apply rbind_ok in H as (_ & _ & H).
  apply rbind_ok in H as (_ & _ & H).
  apply rbind_ok in H as ([] & Htime%invalid_if_ok & H).
  apply rbind_ok in H as ([] & Hacts%invalid_if_ok & H).
  apply rbind_ok in H as ([] & Hmeth%invalid_if_ok & H).
  apply rbind_ok in H as ([] & Hprep%invalid_if_ok & H).
  apply rbind_ok in H as ([] & Hauth%invalid_if_ok & H).
  apply rbind_ok in H as ([] & Hrec%invalid_if_ok & H).
  apply rbind_ok in H as ([] & Horig%invalid_if_ok & Hscope%invalid_if_ok).
  rewrite existsb_negb in Hmeth, Horig.
  apply unique_list_checks_neg in Hacts as (Ha1 & Ha2 & Ha3).
  apply unique_list_checks_neg in Horig as (Ho1 & Ho2 & Ho3).
  apply orb_false_iff in Hmeth as [Hmeth Hm3]. apply orb_false_iff in Hmeth as [Hmeth Hm2].
  apply orb_false_iff in Hmeth as [Hm0 Hm1].
  apply Z.eqb_neq in Hm0. rewrite set_len_zero in Hm0.
  destruct (unique_list_checks_neg (Reg.allowed_host_methods registration) 64
    is_task_authorizable_host_method) as (Hm4 & Hm5 & Hm6); [by rewrite Hm1, Hm2, Hm3|].
  apply orb_false_iff in Htime as [_ Htime%Z.ltb_ge].
  split; [|by apply saturating_sub_le in Htime].
  rewrite is_some_and_false in Hauth. rewrite is_some_and_false in Hrec.
  rewrite is_some_and_false in Hscope.
  split; rewrite ?Hm, ?Ha, ?Ho, ?Hb, ?Hr; try done.
  - intros scope Hs. specialize (Hscope scope Hs).
    apply orb_false_iff in Hscope as [Hscope _]. apply orb_false_iff in Hscope as [Hscope Ho4].
    apply orb_false_iff in Hscope as [Hscope%negb_false_iff _].
    apply negb_false_iff, bool_decide_eq_true in Ho4. done.
  - unfold valid_recording_scope. apply is_none_or_true. intros directory Hd.
    specialize (Hrec directory Hd). apply orb_false_iff in Hrec as [Hrec Hreq%negb_false_iff].
    apply orb_false_iff in Hrec as [_ Hloc%is_err_false_unit].
    by rewrite location_dir_ok, Hreq.
  - unfold valid_preparation_scope. rewrite Hm, Ha, Ho, Hb, Hr, Hp.
    apply orb_false_iff in Hprep as [Hp1%negb_false_iff Hp2%negb_false_iff].
    rewrite Hp1, Hp2. cbn [andb]. apply is_none_or_true. intros authorization Hs.
    specialize (Hauth authorization Hs).
    apply orb_false_iff in Hauth as [Hauth Hall%negb_false_iff].
    apply orb_false_iff in Hauth as [Hauth Hempty%negb_false_iff].
    apply orb_false_iff in Hauth as [Hauth Hnobrowser].
    apply orb_false_iff in Hauth as [Hauth Hdiff].
    apply orb_false_iff in Hauth as [Hauth Hloc].
    apply orb_false_iff in Hauth as [Hauth Hmax%Z.ltb_ge].
    apply orb_false_iff in Hauth as [_ Hzero%Z.eqb_neq].
    unfold validate_capture_preparation_directory in Hloc.
    apply is_err_false_unit, rmap_err_ok in Hloc.
    rewrite Hloc, Hempty, Hdiff, Hall, (proj2 (Z.leb_le _ _) Hmax).
    unfold is_none. rewrite Hnobrowser. simpl. rewrite !andb_true_r.
    specialize (Htyped authorization Hs). unfold is_u64 in Htyped. apply Z.ltb_lt. lia.
Qed.

(** ** The invariant of the broker *)

(** Every record was registered, valid for the files then, at some time up to [now]. *)
Definition broker_good `{P : Platform} (now : Z) (s : BrokerState) : Prop :=
  Z.of_nat (size s) <= MAX_BROKER_AUTHORIZATIONS
  /\ forall id r, s !! id = Some r ->
       typed_registration (Rec.registration r)
       /\ exists now0 files, now0 <= now
            /\ validate_registration (P := at_files files) now0 (Rec.registration r) = Ok tt.

(** The registrations of a run happen up to [now], with machine integers. *)
Definition op_by (now : Z) (op : broker_op) : Prop :=
  match op with
  | OpRegister samples registration _ =>
      RS.validate_now samples <= now /\ typed_registration registration
  | _ => True
  end.

Lemma register_inner_ok `{P : Platform} samples registration deadline s s' receipt :
  register_inner samples registration deadline s = (s', Some (Ok receipt)) ->
  validate_registration (P := at_files (RS.files samples)) (RS.validate_now samples)
    registration = Ok tt
  /\ Z.of_nat (size (retain_unexpired (RS.now samples) s)) < MAX_BROKER_AUTHORIZATIONS
  /\ exists record, Rec.registration record = registration /\ Rec.binding record = None
       /\ s' = <[Receipt.authorization_id receipt := record]>
                 (retain_unexpired (RS.now samples) s).
Proof.
  unfold register_inner. intros H. destruct (validate_registration _ _) as [[]|]; [|done].
  destruct (_ <=? _) eqn:Es; [done|]. apply Z.leb_gt in Es.
  destruct (fresh_authorization_id _ _); [|done].
  destruct (is_live _ _) as [fence live]. destruct live; simplify_eq/=.
  split_and!; [done | done |]. eexists. split_and!; [| |reflexivity]; done.
Qed.

Lemma comes_from_size (s s' : BrokerState) :
  (forall id, comes_from s s' id) -> (size s' <= size s)%nat.
Proof.
  intros H. rewrite <- !size_dom. apply subseteq_size. intros id Hid.
  apply elem_of_dom in Hid as [r' Hr']. destruct (H id r' Hr') as (r & Hr & _).
  by apply elem_of_dom_2 in Hr.
Qed.

Lemma step_good `{P : Platform} now s op s' reply :
  broker_step s op = (s', reply) -> op_by now op -> broker_good now s ->
  broker_good now s'.
Proof.
  intros H Hop [Hsize Hgood].
  assert ((exists id, issues reply id) \/ forall id, ~ issues reply id) as [[id Hi]|Hno].
  { destruct reply as [[[?|?]|]| | | | | |]; simpl; eauto. }
  - destruct op; simpl in H; try (repeat case_match; by simplify_eq).
    destruct (register_inner samples registration deadline s) as [s1 [[receipt|]|]] eqn:E;
      simplify_eq; try done. destruct Hop as [Hnow Htyped].
    apply register_inner_ok in E as (Hv & Hlt & record & <- & _ & ->). split.
    + rewrite map_size_insert. destruct (retain_unexpired _ _ !! _);
        unfold Datatypes.id; lia.
    + intros id' r Hr. destruct (decide (Receipt.authorization_id receipt = id')) as [<-|Hne].
      * rewrite lookup_insert_eq in Hr. simplify_eq. eauto.
      * rewrite lookup_insert_ne in Hr by done.
        apply map_lookup_filter_Some in Hr as [Hr _]. eauto.
  - assert (forall id, comes_from s s' id) as Hcf
      by (intros id; eapply step_comes_from; eauto).
    split; [pose proof (comes_from_size s s' Hcf); lia|].
    intros id r' Hr'. destruct (Hcf id r' Hr') as (r & Hr & Hreg & _). rewrite Hreg. eauto.
Qed.

Lemma run_good `{P : Platform} now ops s :
  Forall (op_by now) ops -> broker_good now s -> broker_good now (broker_run s ops).1.
Proof.
  intros Hops. apply (run_invariant_ops _ _ (op_by now)); [|done].
  intros s0 op Hop Hs. destruct (broker_step s0 op) as [s1 r] eqn:E. by eapply step_good.
Qed.

Lemma broker_good_empty `{P : Platform} now : broker_good now ∅.
Proof. split; [done|]. intros id r Hr. by rewrite lookup_empty in Hr. Qed.

(** ** The broker as the authority of the Host *)

(** The answers of the broker in a given state. *)
Definition broker_host (clock : Clock.Clock) (now : Z) (s : BrokerState)
    : AuthHost.TrustedTaskAuthorizationHost := {|
  AuthHost.authorize request := (authorize clock now request s).2;
  AuthHost.validate request := (validate clock request s).2;
  AuthHost.validate_lease request := (broker_validate_lease clock request s).2 |}.

Lemma authorize_lease clock now request s s' lease :
  authorize clock now request s = (s', Ok lease) ->
  lease_matches request lease
  /\ exists record record', s !! AuthReq.authorization_id request = Some record
       /\ now < Reg.expires_at_unix_ms (Rec.registration record)
       /\ lease_from (Rec.registration record) lease
       /\ Lease.issued_at_unix_ms lease = now
       /\ Lease.expires_at_unix_ms lease
          = Reg.expires_at_unix_ms (Rec.registration record)
       /\ s' = store (AuthReq.authorization_id request) record' s
       /\ Rec.registration record' = Rec.registration record
       /\ Rec.window_capability record' = Rec.window_capability record
       /\ Rec.binding record' = Some
            {| BBind.connection_id := AuthReq.connection_id request;
               BBind.session_id := AuthReq.session_id request;
               BBind.lease_request_digest := AuthReq.request_digest request;
               BBind.target_process_id := AuthReq.target_process_id request;
               BBind.target_window_handle := AuthReq.target_window_handle request |}
       /\ authorize_exact_match record request = true
       /\ Rec.recording_authorization record' = Rec.recording_authorization record
       /\ Rec.revoked record' = false.
Proof.
  intros H. pose proof (authorize_ok _ _ _ _ _ _ H) as (r & Hr & _ & _ & Ht & Hm & _).
  unfold authorize in H. destruct (_ != _); [by simplify_eq|]. rewrite Hr in H.
  destruct (is_active clock r) as [r1 active] eqn:Ea.
  assert (active = true -> Rec.revoked r = false) as Hrev.
  { unfold is_active in Ea. destruct (Rec.revoked r); [by simplify_eq | done]. }
  apply is_active_spec in Ea as (_ & _ & [(-> & _ & ->)|[-> _]]);
    [|by simpl in H; simplify_eq].
  destruct (_ || _) eqn:Eg in H; [by simplify_eq|]. simplify_eq.
  split; [by split_and!|]. exists r. eexists.
  split_and!; try done. by apply Hrev.
Qed.

(** The implementation discharges the interface. *)
#[export] Instance broker_lawful `{P : Platform} clock now s :
  broker_good now s -> LawfulAuthority now (broker_host clock now s).
Proof.
  intros [_ Hgood] request lease H. simpl in H.
  destruct (authorize clock now request s) as [s' r] eqn:E. simpl in H. subst r.
  destruct (authorize_lease _ _ _ _ _ _ E) as (Hm & r & r' & Hr & Ht & Hfrom & Hi & He & _).
  destruct (Hgood _ _ Hr) as (Htyped & now0 & files & Hle & Hv).
  destruct (validate_registration_lease _ _ lease Hv Htyped Hfrom) as [Hs Httl].
  split_and!; [done | | done | by exists files]. unfold lease_in_time. rewrite Hi, He. lia.
Qed.

(** A lease the broker has just issued is confirmed while its fence is live. *)
Lemma broker_confirms
    `{DL : !Digestible UnsignedLease.UnsignedTaskAuthorizationLeaseValidationRequest}
    clock now s s' request lease record clock2 uuid2 check :
  authorize clock now request s = (s', Ok lease) ->
  s !! Lease.authorization_id lease = Some record ->
  (is_live clock2 (Rec.recording_authorization record)).2 = true ->
  lease_validation_request uuid2 lease = Ok check ->
  (broker_validate_lease clock2 check s').2
  = Ok {| ValDecision.status := Active;
          ValDecision.request_digest := LeaseReq.request_digest check |}.
Proof.
  intros H Hr Hlive Hcheck.
  destruct (authorize_lease _ _ _ _ _ _ H) as (Hm & r & r' & Hr0 & _ & _ & _ & _ & ->
    & Hreg & Hcap & Hbind & Hexact & Hfence & Hrev).
  destruct Hm as (Hid & Hconn & Hsess & Hgrant & Hlabel & Hwcap & Hpid & Hwin & Hdig).
  rewrite Hid, Hr0 in Hr. injection Hr as <-.
  unfold lease_validation_request in Hcheck.
  apply rbind_ok in Hcheck as (d & _ & [= <-]).
  unfold broker_validate_lease. cbn [LeaseReq.schema LeaseReq.authorization_id
    LeaseReq.session_id LeaseReq.connection_id LeaseReq.lease_request_digest
    LeaseReq.task_grant_id LeaseReq.application_label LeaseReq.window_capability
    LeaseReq.target_process_id LeaseReq.target_window_handle LeaseReq.request_digest].
  rewrite bool_decide_eq_true_2 by done. cbn [negb].
  unfold store. rewrite Hid, lookup_insert_eq, Hbind. cbn.
  unfold authorize_exact_match in Hexact.
  apply andb_true_iff in Hexact as [Hexact _]. apply andb_true_iff in Hexact as [Hexact _].
  apply andb_true_iff in Hexact as [Hexact _]. reflect_in Hexact.
  destruct Hexact as [[Hg Hl] Hc].
  rewrite Hreg, Hcap, Hconn, Hsess, Hgrant, Hlabel, Hwcap, Hpid, Hwin, Hdig, Hg, Hl, Hc.
  rewrite !bool_decide_eq_true_2, !Z.eqb_refl by done. cbn.
  unfold status_decision, is_active. rewrite Hrev, Hfence.
  destruct (is_live clock2 _) as [f live]. simpl in Hlive. by subst live.
Qed.

(** C30: the broker and the Host agree.  In a state reached by any run whose
    registrations happened up to now, each with the files of its moment, the Host accepts a
    lease exactly when the broker grants one and two things hold when the Host looks
    itself: its clock, read again, is neither before the grant nor at the expiry, and the
    journal of the lease, if it has one, is still an ordinary directory; none of its other
    checks ever rejects a lease.  The broker never holds more than 256 authorizations.  And
    later, while the fence of the task is live, the Host's revalidation of the lease
    against the broker succeeds exactly when those two things hold then. *)
Theorem host_accepts_broker_leases `{P : Platform}
    `{DA : !Digestible UnsignedAuth.UnsignedTaskAuthorizationRequest}
    `{DL : !Digestible UnsignedLease.UnsignedTaskAuthorizationLeaseValidationRequest}
    (ops : list broker_op) (clock clock2 : Clock.Clock) (now now1 now2 : Z)
    (files1 files2 : string -> option Metadata.Metadata)
    (uuid uuid2 : string) (binding : AuthBinding.TaskAuthorizationBinding)
    (request : AuthReq.TrustedTaskAuthorizationRequest) :
  Forall (op_by now) ops ->
  binding_request uuid binding = Ok request ->
  let s := (broker_run ∅ ops).1 in
  Z.of_nat (size s) <= MAX_BROKER_AUTHORIZATIONS
  /\ (forall lease,
      issue_task_authorization (P := at_files files1) now1 uuid
        (Some (broker_host clock now s)) binding = Ok lease
      <-> (authorize clock now request s).2 = Ok lease
          /\ now <= now1 < Lease.expires_at_unix_ms lease /\ journal_ordinary files1 lease)
  /\ (forall lease record check,
      (authorize clock now request s).2 = Ok lease ->
      s !! Lease.authorization_id lease = Some record ->
      (is_live clock2 (Rec.recording_authorization record)).2 = true ->
      lease_validation_request uuid2 lease = Ok check ->
      validate_active_task_authorization (P := at_files files2) now2 uuid2
        (Some (broker_host clock2 now2 (authorize clock now request s).1)) (Some lease)
      = Ok tt
      <-> now <= now2 < Lease.expires_at_unix_ms lease /\ journal_ordinary files2 lease).
Proof.
  intros Hops Hreq s.
  assert (broker_good now s) as Hgood by (apply run_good, broker_good_empty; done).
  assert (LawfulAuthority now (broker_host clock now s)) as Hlaw by (by apply broker_lawful).
  split_and!; [apply Hgood | |].
  { intros lease. exact (issue_from_lawful_authority now now1 files1 uuid
      (broker_host clock now s) binding request lease Hreq). }
  intros lease record check Hl Hr Hlive Hcheck.
  destruct (Hlaw request lease Hl) as (_ & Ht & Hi & files & Hs).
  rewrite <- (lease_in_time_from _ now2 _ Ht Hi), <- (lease_scope_at files files2 _ Hs).
  destruct (authorize clock now request s) as [s' res] eqn:E. simpl in Hl. subst res.
  pose proof (broker_confirms _ _ _ _ _ _ _ _ _ _ E Hr Hlive Hcheck) as Hconfirm.
  rewrite active_lease_is_live. split; [by intros (? & ? & _)|]. intros [Ht2 Hs2].
  split_and!; [done..|]. eexists _, check, _. split_and!; [done | done | exact Hconfirm | done..].
Qed.

(** ** Witnesses *)

#[local] Instance sample_auth_digest :
  Digestible UnsignedAuth.UnsignedTaskAuthorizationRequest :=
  fun u => Ok (UnsignedAuth.request_id u).
#[local] Instance sample_lease_digest :
  Digestible UnsignedLease.UnsignedTaskAuthorizationLeaseValidationRequest :=
  fun u => Ok (UnsignedLease.request_id u).

Definition sample_registration : Reg.TrustedTaskAuthorizationRegistration := {|
  Reg.connection_id := None; Reg.task_id := Some "s"; Reg.task_grant_id := "g";
  Reg.application_label := "Maya"; Reg.target := ExactWindow 7 9;
  Reg.allowed_host_methods := ["execute_action"; "snapshot"];
  Reg.allowed_actions := [sample_scope]; Reg.allowed_browser_origins := [];
  Reg.browser_scope := None; Reg.recording_output_dir := None;
  Reg.capture_preparation := None; Reg.expires_at_unix_ms := 5000 |}.

Definition sample_clock (t : Z) : Clock.Clock :=
  {| Clock.unix_ms := t; Clock.monotonic_ns := t |}.

Definition sample_samples (t : Z) : RS.RegisterSamples := {|
  RS.files := posix_lstat sample_tree;
  RS.validate_now := t; RS.now := t; RS.uuids := ["u1"];
  RS.fence_clock := sample_clock t; RS.admit_clock := sample_clock t;
  RS.capability_uuid := "c1" |}.

Definition sample_broker_binding : AuthBinding.TaskAuthorizationBinding := {|
  AuthBinding.connection_id := "c"; AuthBinding.authorization_id := "task-auth-u1";
  AuthBinding.session_id := "s"; AuthBinding.task_grant_id := "g";
  AuthBinding.application_label := "Maya";
  AuthBinding.window_capability := "cua-window-c1";
  AuthBinding.target := {| Window.process_id := 7; Window.window_handle := 9 |} |}.

Definition sample_broker_request : AuthReq.TrustedTaskAuthorizationRequest := {|
  AuthReq.schema := TRUSTED_TASK_AUTHORIZATION_SCHEMA; AuthReq.request_id := "r";
  AuthReq.connection_id := "c"; AuthReq.authorization_id := "task-auth-u1";
  AuthReq.session_id := "s"; AuthReq.task_grant_id := "g";
  AuthReq.application_label := "Maya"; AuthReq.window_capability := "cua-window-c1";
  AuthReq.target_process_id := 7; AuthReq.target_window_handle := 9;
  AuthReq.request_digest := "sha256:r" |}.

Definition sample_register : broker_op :=
  OpRegister (sample_samples 1000) sample_registration None.
Definition sample_authorize (t : Z) : broker_op :=
  OpAuthorize (sample_clock t) t sample_broker_request.

(** The lease the broker issues at the given time. *)
Definition sample_broker_lease (t : Z) : Lease.TrustedTaskAuthorizationLease := {|
  Lease.connection_id := "c"; Lease.authorization_id := "task-auth-u1";
  Lease.session_id := "s"; Lease.task_grant_id := "g"; Lease.application_label := "Maya";
  Lease.window_capability := "cua-window-c1"; Lease.target_process_id := 7;
  Lease.target_window_handle := 9;
  Lease.allowed_host_methods := ["execute_action"; "snapshot"];
  Lease.allowed_actions := [sample_scope]; Lease.allowed_browser_origins := [];
  Lease.browser_scope := None; Lease.recording_output_dir := None;
  Lease.capture_preparation := None; Lease.issued_at_unix_ms := t;
  Lease.expires_at_unix_ms := 5000; Lease.request_digest := "sha256:r" |}.

Lemma broker_authorization_ends_for_good_witness :
  let ops := [sample_register; sample_authorize 1100; OpRevoke "task-auth-u1";
              OpFence "task-auth-u1" (Admit (sample_clock 1200))] in
  (broker_run (P := sample_platform) ∅ ops).2 !! 1%nat
    = Some (LeaseReply (Ok (sample_broker_lease 1100)))
  /\ (broker_run (P := sample_platform) ∅ ops).2 !! 3%nat
     = Some (FenceReply "task-auth-u1" false)
  /\ ~ confers (OpFence "task-auth-u1" (Admit (sample_clock 1200)))
         (FenceReply "task-auth-u1" false) "task-auth-u1".
Proof.
  intros ops. split; [vm_compute; reflexivity|]. split; [vm_compute; reflexivity|].
  apply (broker_authorization_ends_for_good (P := sample_platform) ops 2 3 "task-auth-u1"
    (OpRevoke "task-auth-u1") (OpFence "task-auth-u1" (Admit (sample_clock 1200)))
    (RevokeReply (Ok tt)) (FenceReply "task-auth-u1" false)).
  - lia.
  - reflexivity.
  - vm_compute. reflexivity.
  - reflexivity.
  - intros [|[|[|[|k]]]] r Hk Hr; try lia.
    + vm_compute in Hr. injection Hr as <-. intros [].
    + vm_compute in Hr. discriminate Hr.
  - reflexivity.
  - vm_compute. reflexivity.
Defined.

Lemma broker_issues_one_lease_per_authorization_witness :
  let ops := [sample_register; sample_authorize 1100; sample_authorize 1200] in
  (broker_run (P := sample_platform) ∅ ops).2 !! 1%nat
    = Some (LeaseReply (Ok (sample_broker_lease 1100)))
  /\ (broker_run (P := sample_platform) ∅ ops).2 !! 2%nat
     <> Some (LeaseReply (Ok (sample_broker_lease 1200))).
Proof.
  intros ops.
  assert ((broker_run (P := sample_platform) ∅ ops).2 !! 1%nat
    = Some (LeaseReply (Ok (sample_broker_lease 1100)))) as H1
    by (vm_compute; reflexivity).
  split; [exact H1|]. intros H2.
  refine (broker_issues_one_lease_per_authorization (P := sample_platform) ops 1 2
    (sample_broker_lease 1100) (sample_broker_lease 1200) _ H1 _ H2 _).
  - lia.
  - intros [|[|[|k]]] r Hk Hr; try lia.
    + vm_compute in Hr. injection Hr as <-. intros [].
    + vm_compute in Hr. discriminate Hr.
  - reflexivity.
Defined.

(** The Host reads its clock a moment after the broker did. *)
Lemma host_accepts_broker_leases_witness :
  let s := (broker_run (P := sample_platform) ∅ [sample_register]).1 in
  issue_task_authorization (P := at_files (P := sample_platform) (fun _ => None)) 1150 "r"
    (Some (broker_host (sample_clock 1100) 1100 s)) sample_broker_binding
  = Ok (sample_broker_lease 1100).
Proof.
  intros s.
  destruct (host_accepts_broker_leases (P := sample_platform) [sample_register]
    (sample_clock 1100) (sample_clock 1200) 1100 1150 1200 (fun _ => None) (fun _ => None)
    "r" "r2" sample_broker_binding sample_broker_request) as (_ & Hiff & _).
  - constructor; [|constructor]. split; [vm_compute; congruence|].
    intros authorization Hp. discriminate Hp.
  - vm_compute. reflexivity.
  - apply Hiff. split; [vm_compute; reflexivity|]. split; [cbn; lia|].
    intros authorization Hp. discriminate Hp.
Defined.
