(* ===== verification/CrossClient.v ===== *)
(** * Cross-client task authorization
    ([crates/dcc-cua-host/src/cross_client_task_authorization.rs])

    A remote client approves a task by signing a decision on a challenge that this
    runtime issued.  The verifier issues the challenges and consumes the signed
    decisions; the host it is created with answers the requests of the Host
    through the broker of [Broker], as long as the signing key is still trusted
    and the process of the target is still the same.

    The three mutexes (the verifier's state, which the verifier and the host
    share, the broker's and the trust registry's) are fields of one state.  The
    clock, the observer of processes, the trust store and the drawn identifiers
    are arguments of the operations; an operation reads the clock before it takes
    the lock, so the order of the operations need not be that of the readings. *)

From S2P Require Import Prelude RustStr Json Errors HostAction Confirmation Platform.
From S2P Require Import CapturePreparation TaskGrant TaskAuthorization RecordingFence Runs.
From S2P Require Import Broker.

Definition CROSS_CLIENT_TASK_AUTHORIZATION_CHALLENGE_SCHEMA : string :=
  "dcc-cua.task-authorization-challenge.v2".
Definition CROSS_CLIENT_TASK_AUTHORIZATION_RECEIPT_SCHEMA : string :=
  "dcc-cua.task-authorization-receipt.v2".
(** [SIGNING_DOMAIN], as bytes. *)
Definition SIGNING_DOMAIN : list Z :=
  map byte_of (String.list_ascii_of_string "dcc-cua.task-authorization-receipt.v2").
Definition PROVIDER : string := "dcc-cua".
Definition MAX_PENDING_CHALLENGES : Z := 256.
Definition MAX_PENDING_TTL_MS : Z := 5 * 60 * 1000.
Definition MAX_SAFE_JSON_INTEGER : Z := 9007199254740991.
Definition MAX_IDENTITY_CHARS : Z := 256.
Definition MAX_LABEL_CHARS : Z := 512.
Definition MAX_HOST_METHODS : Z := 64.
Definition MAX_SIGNED_RECEIPT_BYTES : Z := 16 * 1024.

(** ** Data *)

Module CrossClientTaskAuthorizationAudience.
Record CrossClientTaskAuthorizationAudience : Type := {
  client_id : string;
  tenant_id : string;
  user_id : string;
}.
End CrossClientTaskAuthorizationAudience.

Module CrossClientTaskAuthorizationRuntime.
Record CrossClientTaskAuthorizationRuntime : Type := {
  runtime_version : string;
  runtime_instance_id : string;
  boot_generation : Z;
}.
End CrossClientTaskAuthorizationRuntime.

Module Audience := CrossClientTaskAuthorizationAudience.
Module Runtime := CrossClientTaskAuthorizationRuntime.

Inductive CrossClientTaskAuthorizationSecretPolicy : Type :=
| Forbidden | NamedHandlesOnly.

Module CrossTarget.
Inductive CrossClientTaskAuthorizationTarget : Type :=
| ExactWindow (process_id : Z) (process_creation_identity : string) (window_handle : Z)
| ExactBrowser (process_id : Z) (process_creation_identity : string) (window_handle : Z)
    (host_target_id tab_id document_generation origin : string)
| BrowserBootstrapExactWindow (process_id : Z) (process_creation_identity : string)
    (window_handle : Z)
| BrowserBootstrapOwned (browser : ComputerUseOwnedBrowserFamily)
    (profile : ComputerUseOwnedBrowserProfile).

Definition is_bootstrap (self : CrossClientTaskAuthorizationTarget) : bool :=
  match self with
  | BrowserBootstrapExactWindow _ _ _ | BrowserBootstrapOwned _ _ => true
  | _ => false
  end.

Definition exact_window (self : CrossClientTaskAuthorizationTarget) : option (Z * Z) :=
  match self with
  | ExactWindow process_id _ window_handle
  | ExactBrowser process_id _ window_handle _ _ _ _ => Some (process_id, window_handle)
  | BrowserBootstrapExactWindow _ _ _ | BrowserBootstrapOwned _ _ => None
  end.
End CrossTarget.

#[export] Instance Audience_eq_dec :
  EqDecision Audience.CrossClientTaskAuthorizationAudience.
Proof. solve_decision. Defined.
#[export] Instance SecretPolicy_eq_dec :
  EqDecision CrossClientTaskAuthorizationSecretPolicy.
Proof. solve_decision. Defined.

Module CrossClientTaskAuthorizationChallengeRequest.
Record CrossClientTaskAuthorizationChallengeRequest : Type := {
  audience : Audience.CrossClientTaskAuthorizationAudience;
  task_id : string;
  connection_id : string;
  task_grant_id : string;
  application_label : string;
  purpose : string;
  target : CrossTarget.CrossClientTaskAuthorizationTarget;
  allowed_host_methods : list string;
  allowed_actions : list Scope.TrustedTaskActionScope;
  allowed_browser_origins : list string;
  secret_handle_policy : CrossClientTaskAuthorizationSecretPolicy;
  irreversible_operation : option string;
  expires_at_unix_ms : Z;
}.
End CrossClientTaskAuthorizationChallengeRequest.

Module CrossClientTaskAuthorizationChallenge.
Record CrossClientTaskAuthorizationChallenge : Type := {
  schema : string;
  provider : string;
  runtime_version : string;
  runtime_instance_id : string;
  boot_generation : Z;
  audience : Audience.CrossClientTaskAuthorizationAudience;
  challenge_id : string;
  nonce : string;
  task_id : string;
  connection_id : string;
  task_grant_id : string;
  application_label : string;
  purpose : string;
  target : CrossTarget.CrossClientTaskAuthorizationTarget;
  allowed_host_methods : list string;
  allowed_actions : list Scope.TrustedTaskActionScope;
  allowed_browser_origins : list string;
  secret_handle_policy : CrossClientTaskAuthorizationSecretPolicy;
  irreversible_operation : option string;
  issued_at_unix_ms : Z;
  confirmation_deadline_unix_ms : Z;
  expires_at_unix_ms : Z;
  challenge_sha256 : string;
}.
End CrossClientTaskAuthorizationChallenge.

Module ChallengeReq := CrossClientTaskAuthorizationChallengeRequest.
Module Challenge := CrossClientTaskAuthorizationChallenge.

Module SignedChoice.
Inductive CrossClientTaskAuthorizationDecision : Type := Allow | Deny.
End SignedChoice.

#[export] Instance SignedChoice_eq_dec :
  EqDecision SignedChoice.CrossClientTaskAuthorizationDecision.
Proof. solve_decision. Defined.

Module CrossClientTaskAuthorizationUnsignedDecision.
Record CrossClientTaskAuthorizationUnsignedDecision : Type := {
  schema : string;
  issuer_key_id : string;
  audience : Audience.CrossClientTaskAuthorizationAudience;
  runtime_instance_id : string;
  boot_generation : Z;
  challenge_id : string;
  nonce : string;
  challenge_sha256 : string;
  decision : SignedChoice.CrossClientTaskAuthorizationDecision;
  issued_at_unix_ms : Z;
  expires_at_unix_ms : Z;
}.
End CrossClientTaskAuthorizationUnsignedDecision.

Module UnsignedDecision := CrossClientTaskAuthorizationUnsignedDecision.

Module CrossClientTaskAuthorizationSignedDecision.
Record CrossClientTaskAuthorizationSignedDecision : Type := {
  decision : UnsignedDecision.CrossClientTaskAuthorizationUnsignedDecision;
  signature : string;
}.
End CrossClientTaskAuthorizationSignedDecision.

Module Signed := CrossClientTaskAuthorizationSignedDecision.

Module TrustedTaskAuthorizationKey.
Record TrustedTaskAuthorizationKey : Type := {
  key_id : string;
  audience : Audience.CrossClientTaskAuthorizationAudience;
  verifying_key : list Z;
}.
End TrustedTaskAuthorizationKey.

Module Key := TrustedTaskAuthorizationKey.

#[export] Instance Key_eq_dec : EqDecision Key.TrustedTaskAuthorizationKey.
Proof. solve_decision. Defined.

Module TrustState.
Inductive CrossClientTaskAuthorizationTrustState : Type :=
| Active (key : Key.TrustedTaskAuthorizationKey)
| Revoked (revocation_epoch : Z).
End TrustState.

Inductive CrossClientTaskAuthorizationTrustError : Type := TrustError.

(** The [lookup] of a trust store, and the observer of a process: the string that
    identifies the process instance behind a window, when it can be read. *)
Definition CrossClientTaskAuthorizationTrustStore : Type :=
  string -> result CrossClientTaskAuthorizationTrustError
              (option TrustState.CrossClientTaskAuthorizationTrustState).
Definition CrossClientTaskAuthorizationTargetObserver : Type := Z -> Z -> option string.

Module CrossErr.
Inductive CrossClientTaskAuthorizationError : Type :=
| InvalidConfiguration | InvalidChallenge | Capacity | ClockUnavailable | ClockRollback
| TargetUnavailable | MalformedReceipt | NoncanonicalReceipt | UnknownKey | RevokedKey
| TrustUnavailable | InvalidSignature | BindingMismatch | Expired | Replay
| BrokerUnavailable.
End CrossErr.

Abbreviation xresult := (result CrossErr.CrossClientTaskAuthorizationError).

Module CrossClientTaskAuthorizationBootstrap.
Record CrossClientTaskAuthorizationBootstrap : Type := {
  challenge_id : string;
  target : CrossTarget.CrossClientTaskAuthorizationTarget;
  expires_at_unix_ms : Z;
}.
End CrossClientTaskAuthorizationBootstrap.

Module Bootstrap := CrossClientTaskAuthorizationBootstrap.

Inductive CrossClientTaskAuthorizationConsumption : Type :=
| Task (receipt : Receipt.TrustedTaskAuthorizationReceipt)
| BrowserBootstrap (bootstrap : Bootstrap.CrossClientTaskAuthorizationBootstrap)
| ConsumptionDenied.

Module AuthorizationProvenance.
Record AuthorizationProvenance : Type := {
  key : Key.TrustedTaskAuthorizationKey;
  process_creation_identity : string;
  expires_at_unix_ms : Z;
}.
End AuthorizationProvenance.

Module ChallengeRecord.
Record ChallengeRecord : Type := {
  challenge : Challenge.CrossClientTaskAuthorizationChallenge;
  consumed : bool;
}.
End ChallengeRecord.

Module Provenance := AuthorizationProvenance.
Module CRec := ChallengeRecord.

Module VerifierState.
Record VerifierState : Type := {
  challenges : gmap string CRec.ChallengeRecord;
  authorizations : gmap string Provenance.AuthorizationProvenance;
  last_observed_unix_ms : option Z;
  clock_failed : bool;
}.
Definition default : VerifierState := {|
  challenges := ∅; authorizations := ∅; last_observed_unix_ms := None;
  clock_failed := false |}.
End VerifierState.

Module VS := VerifierState.

(** ** The libraries it relies on

    [serde_json] and [serde_jcs] (canonical JSON), [sha2], [base64] and
    [ed25519_dalek]. *)
Class ReceiptCodec : Type := {
  from_slice : list Z -> option Signed.CrossClientTaskAuthorizationSignedDecision;
  jcs_receipt : Signed.CrossClientTaskAuthorizationSignedDecision -> option (list Z);
  jcs_decision : UnsignedDecision.CrossClientTaskAuthorizationUnsignedDecision ->
    option (list Z);
  jcs_challenge : Challenge.CrossClientTaskAuthorizationChallenge -> option (list Z);
  sha256_hex : list Z -> string;
  base64_encode : list Z -> string;
  base64_decode : string -> option (list Z);
  (** [VerifyingKey::from_bytes] and [Signature::from_slice] succeed. *)
  verifying_key_valid : list Z -> bool;
  signature_valid : list Z -> bool;
  (** [verify_strict], on a key, a payload and a signature. *)
  verify_strict : list Z -> list Z -> list Z -> bool;
}.

(** ** Validation *)

Definition invalid_challenge {A} : xresult A := Err CrossErr.InvalidChallenge.

(** An early return of a validation. *)
Definition challenge_guard (b : bool) : xresult unit :=
  if b then invalid_challenge else Ok tt.

(** The [validate_identity] and [validate_audience] of this file. *)
Definition cross_validate_identity (value : string) (max_chars : Z) : xresult unit :=
  challenge_guard (str_is_empty value || (value != trim value)
                   || (max_chars <? chars_count value) || any_char is_control value).
Definition validate_label (value : string) : xresult unit :=
  cross_validate_identity value MAX_LABEL_CHARS.
Definition validate_audience (audience : Audience.CrossClientTaskAuthorizationAudience)
    : xresult unit :=
  try_each (fun value => cross_validate_identity value MAX_IDENTITY_CHARS)
    [Audience.client_id audience; Audience.tenant_id audience; Audience.user_id audience].
Definition validate_safe_integer (value : Z) : xresult unit :=
  if MAX_SAFE_JSON_INTEGER <? value then Err CrossErr.MalformedReceipt else Ok tt.

Definition as_error {A} (e : CrossErr.CrossClientTaskAuthorizationError)
    (r : xresult A) : xresult A := rmap_err (fun _ => e) r.

Definition validate_runtime (runtime : Runtime.CrossClientTaskAuthorizationRuntime)
    : xresult unit :=
  check? as_error CrossErr.InvalidConfiguration
           (cross_validate_identity (Runtime.runtime_version runtime) MAX_IDENTITY_CHARS) in
  check? as_error CrossErr.InvalidConfiguration
           (cross_validate_identity (Runtime.runtime_instance_id runtime)
              MAX_IDENTITY_CHARS) in
  as_error CrossErr.InvalidConfiguration
    (validate_safe_integer (Runtime.boot_generation runtime)).

(** The two checks of a window in [validate_target]. *)
Definition validate_window_ids (process_id window_handle : Z) : xresult unit :=
  check? challenge_guard ((process_id =? 0) || (window_handle =? 0)) in
  as_error CrossErr.InvalidChallenge (validate_safe_integer window_handle).

(** The process identity a target is bound to. *)
Definition live_binding (target : CrossTarget.CrossClientTaskAuthorizationTarget)
    : option (Z * Z * string) :=
  match target with
  | CrossTarget.ExactWindow process_id identity window_handle
  | CrossTarget.ExactBrowser process_id identity window_handle _ _ _ _
  | CrossTarget.BrowserBootstrapExactWindow process_id identity window_handle =>
      Some (process_id, window_handle, identity)
  | CrossTarget.BrowserBootstrapOwned _ _ => None
  end.

Definition validate_live_target (observer : CrossClientTaskAuthorizationTargetObserver)
    (target : CrossTarget.CrossClientTaskAuthorizationTarget) : xresult unit :=
  match live_binding target with
  | None => Ok tt
  | Some (process_id, window_handle, expected_identity) =>
      let? observed :=
        ok_or (observer process_id window_handle) CrossErr.TargetUnavailable in
      if observed == expected_identity then Ok tt else Err CrossErr.TargetUnavailable
  end.

Definition bootstrap_method (target : CrossTarget.CrossClientTaskAuthorizationTarget)
    : string :=
  match target with
  | CrossTarget.BrowserBootstrapExactWindow _ _ _ => "attach_exact_window"
  | _ => "launch_owned_browser"
  end.

Section Challenges.
Context `{P : Platform}.

(** The [validate_target] of this file. *)
Definition cross_validate_target (target : CrossTarget.CrossClientTaskAuthorizationTarget)
    : xresult unit :=
  match target with
  | CrossTarget.ExactWindow process_id process_creation_identity window_handle
  | CrossTarget.BrowserBootstrapExactWindow process_id process_creation_identity
      window_handle =>
      check? validate_window_ids process_id window_handle in
      cross_validate_identity process_creation_identity MAX_IDENTITY_CHARS
  | CrossTarget.ExactBrowser process_id process_creation_identity window_handle
      host_target_id tab_id document_generation origin =>
      check? validate_window_ids process_id window_handle in
      check? try_each (fun value => cross_validate_identity value MAX_IDENTITY_CHARS)
        [process_creation_identity; host_target_id; tab_id; document_generation] in
      challenge_guard (negb (valid_browser_origin origin))
  | CrossTarget.BrowserBootstrapOwned _ _ => Ok tt
  end.

(** The last check of [validate_challenge_request]; its [unreachable!] branches are
    indeed never reached, bootstrap targets return earlier. *)
Definition validate_target_scope
    (request : ChallengeReq.CrossClientTaskAuthorizationChallengeRequest) : xresult unit :=
  let methods := ChallengeReq.allowed_host_methods request in
  let actions := ChallengeReq.allowed_actions request in
  let origins := ChallengeReq.allowed_browser_origins request in
  match ChallengeReq.target request with
  | CrossTarget.ExactWindow _ _ _ =>
      challenge_guard
        (negb (is_empty origins)
         || existsb (fun scope => is_some (Scope.browser_origin scope)) actions
         || existsb (fun method => starts_with "browser_" method
                                   || (method == "browser_extension_status")) methods)
  | CrossTarget.ExactBrowser _ _ _ _ _ _ origin =>
      challenge_guard
        ((origins != [origin])
         || negb (existsb (fun method => method == "browser_snapshot") methods)
         || existsb (fun method =>
              method ∈? ["browser_prepare"; "browser_extension_status";
                         "browser_extension_call"]) methods
         || existsb (fun scope => Scope.browser_origin scope != Some origin) actions)
  | _ => Ok tt
  end.

Definition validate_challenge_request
    (request : ChallengeReq.CrossClientTaskAuthorizationChallengeRequest) (now : Z)
    : xresult unit :=
  let methods := ChallengeReq.allowed_host_methods request in
  let actions := ChallengeReq.allowed_actions request in
  let origins := ChallengeReq.allowed_browser_origins request in
  let policy := ChallengeReq.secret_handle_policy request in
  check? validate_audience (ChallengeReq.audience request) in
  check? cross_validate_identity (ChallengeReq.task_id request) MAX_IDENTITY_CHARS in
  check? cross_validate_identity (ChallengeReq.connection_id request) MAX_IDENTITY_CHARS in
  check? cross_validate_identity (ChallengeReq.task_grant_id request)
           MAX_TASK_GRANT_ID_CHARS in
  check? cross_validate_identity (ChallengeReq.application_label request)
           MAX_APPLICATION_LABEL_CHARS in
  check? validate_label (ChallengeReq.purpose request) in
  check? match ChallengeReq.irreversible_operation request with
         | Some operation => validate_label operation
         | None => Ok tt
         end in
  check? as_error CrossErr.InvalidChallenge (validate_safe_integer now) in
  check? as_error CrossErr.InvalidChallenge
           (validate_safe_integer (ChallengeReq.expires_at_unix_ms request)) in
  check? challenge_guard
    ((ChallengeReq.expires_at_unix_ms request <=? now)
     || (MAX_TASK_AUTHORIZATION_TTL_MS
           <? saturating_sub (ChallengeReq.expires_at_unix_ms request) now)) in
  check? cross_validate_target (ChallengeReq.target request) in
  check? challenge_guard
    ((set_len methods =? 0) || negb (set_len methods =? len methods)
     || (MAX_HOST_METHODS <? set_len methods)
     || existsb (fun method => is_err (cross_validate_identity method 80)) methods) in
  if CrossTarget.is_bootstrap (ChallengeReq.target request)
  then challenge_guard
    ((methods != [bootstrap_method (ChallengeReq.target request)])
     || negb (is_empty actions) || negb (is_empty origins)
     || (policy != Forbidden)
     || is_some (ChallengeReq.irreversible_operation request))
  else
    check? challenge_guard
      (existsb (fun method => negb (is_task_authorizable_host_method method)) methods) in
    check? challenge_guard
      ((set_len actions =? 0) || negb (set_len actions =? len actions)
       || (MAX_TASK_AUTHORIZATION_ACTIONS <? set_len actions)
       || negb (forallb validate_action_scope actions)
       || ((policy == Forbidden) && existsb Scope.secret_input actions)) in
    check? challenge_guard
      (negb (set_len origins =? len origins)
       || (MAX_TASK_AUTHORIZATION_ACTIONS <? set_len origins)
       || existsb (fun origin => negb (valid_browser_origin origin)) origins) in
    validate_target_scope request.
End Challenges.

(** ** Signing and decoding *)

Section Codec.
Context `{C : ReceiptCodec}.

Definition cross_client_task_authorization_signing_payload
    (decision : UnsignedDecision.CrossClientTaskAuthorizationUnsignedDecision)
    : xresult (list Z) :=
  let? canonical := ok_or (jcs_decision decision) CrossErr.MalformedReceipt in
  Ok (SIGNING_DOMAIN ++ [0] ++ canonical).

Definition canonical_cross_client_task_authorization_receipt
    (receipt : Signed.CrossClientTaskAuthorizationSignedDecision) : xresult (list Z) :=
  ok_or (jcs_receipt receipt) CrossErr.MalformedReceipt.

Definition canonical_cross_client_task_authorization_challenge
    (challenge : Challenge.CrossClientTaskAuthorizationChallenge) : xresult (list Z) :=
  ok_or (jcs_challenge challenge) CrossErr.InvalidChallenge.

Definition challenge_digest (challenge : Challenge.CrossClientTaskAuthorizationChallenge)
    : xresult string :=
  let? canonical := canonical_cross_client_task_authorization_challenge challenge in
  Ok ("sha256:" +:+ sha256_hex canonical).

(** [CrossClientTaskAuthorizationUnsignedDecision::for_challenge]. *)
Definition for_challenge (challenge : Challenge.CrossClientTaskAuthorizationChallenge)
    (issuer_key_id : string) (decision : SignedChoice.CrossClientTaskAuthorizationDecision)
    (issued_at_unix_ms expires_at_unix_ms : Z)
    : xresult UnsignedDecision.CrossClientTaskAuthorizationUnsignedDecision :=
  let? challenge_sha256 := challenge_digest challenge in
  if challenge_sha256 != Challenge.challenge_sha256 challenge
  then invalid_challenge
  else Ok {|
    UnsignedDecision.schema := CROSS_CLIENT_TASK_AUTHORIZATION_RECEIPT_SCHEMA;
    UnsignedDecision.issuer_key_id := issuer_key_id;
    UnsignedDecision.audience := Challenge.audience challenge;
    UnsignedDecision.runtime_instance_id := Challenge.runtime_instance_id challenge;
    UnsignedDecision.boot_generation := Challenge.boot_generation challenge;
    UnsignedDecision.challenge_id := Challenge.challenge_id challenge;
    UnsignedDecision.nonce := Challenge.nonce challenge;
    UnsignedDecision.challenge_sha256 := challenge_sha256;
    UnsignedDecision.decision := decision;
    UnsignedDecision.issued_at_unix_ms := issued_at_unix_ms;
    UnsignedDecision.expires_at_unix_ms := expires_at_unix_ms |}.

Definition decode_receipt (encoded : list Z)
    : xresult Signed.CrossClientTaskAuthorizationSignedDecision :=
  if is_empty encoded || (MAX_SIGNED_RECEIPT_BYTES <? len encoded)
  then Err CrossErr.MalformedReceipt
  else
    let? receipt := ok_or (from_slice encoded) CrossErr.MalformedReceipt in
    let? canonical := canonical_cross_client_task_authorization_receipt receipt in
    if canonical != encoded then Err CrossErr.NoncanonicalReceipt
    else
      let decision := Signed.decision receipt in
      check? validate_safe_integer (UnsignedDecision.boot_generation decision) in
      check? validate_safe_integer (UnsignedDecision.issued_at_unix_ms decision) in
      check? validate_safe_integer (UnsignedDecision.expires_at_unix_ms decision) in
      check? try_each (fun value => as_error CrossErr.MalformedReceipt
                         (cross_validate_identity value MAX_LABEL_CHARS))
        [UnsignedDecision.schema decision; UnsignedDecision.issuer_key_id decision;
         UnsignedDecision.runtime_instance_id decision;
         UnsignedDecision.challenge_id decision; UnsignedDecision.nonce decision;
         UnsignedDecision.challenge_sha256 decision; Signed.signature receipt] in
      check? as_error CrossErr.MalformedReceipt
               (validate_audience (UnsignedDecision.audience decision)) in
      Ok receipt.

Definition verify_signature (key : Key.TrustedTaskAuthorizationKey)
    (receipt : Signed.CrossClientTaskAuthorizationSignedDecision) : xresult unit :=
  if negb (verifying_key_valid (Key.verifying_key key))
  then Err CrossErr.InvalidConfiguration
  else
    let? signature_bytes :=
      ok_or (base64_decode (Signed.signature receipt)) CrossErr.MalformedReceipt in
    if negb (signature_valid signature_bytes) then Err CrossErr.MalformedReceipt
    else
      let? payload :=
        cross_client_task_authorization_signing_payload (Signed.decision receipt) in
      if verify_strict (Key.verifying_key key) payload signature_bytes then Ok tt
      else Err CrossErr.InvalidSignature.
End Codec.

Definition validate_decision_binding
    (runtime : Runtime.CrossClientTaskAuthorizationRuntime)
    (challenge : Challenge.CrossClientTaskAuthorizationChallenge)
    (decision : UnsignedDecision.CrossClientTaskAuthorizationUnsignedDecision) (now : Z)
    : xresult unit :=
  if (UnsignedDecision.schema decision != CROSS_CLIENT_TASK_AUTHORIZATION_RECEIPT_SCHEMA)
     || (UnsignedDecision.audience decision != Challenge.audience challenge)
     || (UnsignedDecision.runtime_instance_id decision
           != Runtime.runtime_instance_id runtime)
     || negb (UnsignedDecision.boot_generation decision =? Runtime.boot_generation runtime)
     || (UnsignedDecision.challenge_id decision != Challenge.challenge_id challenge)
     || (UnsignedDecision.nonce decision != Challenge.nonce challenge)
     || (UnsignedDecision.challenge_sha256 decision
           != Challenge.challenge_sha256 challenge)
  then Err CrossErr.BindingMismatch
  else if (UnsignedDecision.issued_at_unix_ms decision
             <? Challenge.issued_at_unix_ms challenge)
          || (now <? UnsignedDecision.issued_at_unix_ms decision)
          || (Challenge.confirmation_deadline_unix_ms challenge
                <? UnsignedDecision.issued_at_unix_ms decision)
          || (Challenge.confirmation_deadline_unix_ms challenge <? now)
          || (UnsignedDecision.expires_at_unix_ms decision <=? now)
          || (Challenge.expires_at_unix_ms challenge
                <? UnsignedDecision.expires_at_unix_ms decision)
          || (UnsignedDecision.expires_at_unix_ms decision
                <? UnsignedDecision.issued_at_unix_ms decision)
  then Err CrossErr.Expired
  else Ok tt.

(** ** The verifier *)

(** The state keeps what was recorded before an early return. *)
Definition observe_clock (now : Z) (state : VS.VerifierState)
    : VS.VerifierState * xresult unit :=
  if VS.clock_failed state then (state, Err CrossErr.ClockRollback)
  else if is_err (validate_safe_integer now) then (state, Err CrossErr.ClockUnavailable)
  else if is_some_and (fun previous => now <? previous) (VS.last_observed_unix_ms state)
  then ({| VS.challenges := VS.challenges state;
           VS.authorizations := VS.authorizations state;
           VS.last_observed_unix_ms := VS.last_observed_unix_ms state;
           VS.clock_failed := true |}, Err CrossErr.ClockRollback)
  else ({| VS.challenges := VS.challenges state;
           VS.authorizations := VS.authorizations state;
           VS.last_observed_unix_ms := Some now;
           VS.clock_failed := false |}, Ok tt).

Definition set_challenges (challenges : gmap string CRec.ChallengeRecord)
    (state : VS.VerifierState) : VS.VerifierState := {|
  VS.challenges := challenges;
  VS.authorizations := VS.authorizations state;
  VS.last_observed_unix_ms := VS.last_observed_unix_ms state;
  VS.clock_failed := VS.clock_failed state |}.

Definition set_authorizations (authorizations : gmap string Provenance.AuthorizationProvenance)
    (state : VS.VerifierState) : VS.VerifierState := {|
  VS.challenges := VS.challenges state;
  VS.authorizations := authorizations;
  VS.last_observed_unix_ms := VS.last_observed_unix_ms state;
  VS.clock_failed := VS.clock_failed state |}.

(** [retain(|_, record| record.challenge.confirmation_deadline_unix_ms >= now)]. *)
Definition retain_pending (now : Z) (challenges : gmap string CRec.ChallengeRecord)
    : gmap string CRec.ChallengeRecord :=
  filter (fun kv : string * CRec.ChallengeRecord =>
    now <= Challenge.confirmation_deadline_unix_ms (CRec.challenge kv.2)) challenges.

(** What an operation reads from outside: its clock and the observer of processes;
    the UUIDs [prepare] draws, as the text of the first and the bytes of the
    other two; and what the broker reads when [consume] registers. *)
Module CrossSamples.
Record CrossSamples : Type := {
  now : xresult Z;
  observer : CrossClientTaskAuthorizationTargetObserver;
  challenge_uuid : string;
  nonce_bytes : list Z;
  broker : RS.RegisterSamples;
}.
End CrossSamples.

Module XS := CrossSamples.

(** The challenge that [prepare] builds, before its digest is filled in. *)
Definition new_challenge (runtime : Runtime.CrossClientTaskAuthorizationRuntime)
    (request : ChallengeReq.CrossClientTaskAuthorizationChallengeRequest)
    (now : Z) (challenge_id nonce challenge_sha256 : string)
    : Challenge.CrossClientTaskAuthorizationChallenge := {|
  Challenge.schema := CROSS_CLIENT_TASK_AUTHORIZATION_CHALLENGE_SCHEMA;
  Challenge.provider := PROVIDER;
  Challenge.runtime_version := Runtime.runtime_version runtime;
  Challenge.runtime_instance_id := Runtime.runtime_instance_id runtime;
  Challenge.boot_generation := Runtime.boot_generation runtime;
  Challenge.audience := ChallengeReq.audience request;
  Challenge.challenge_id := challenge_id;
  Challenge.nonce := nonce;
  Challenge.task_id := ChallengeReq.task_id request;
  Challenge.connection_id := ChallengeReq.connection_id request;
  Challenge.task_grant_id := ChallengeReq.task_grant_id request;
  Challenge.application_label := ChallengeReq.application_label request;
  Challenge.purpose := ChallengeReq.purpose request;
  Challenge.target := ChallengeReq.target request;
  Challenge.allowed_host_methods := ChallengeReq.allowed_host_methods request;
  Challenge.allowed_actions := ChallengeReq.allowed_actions request;
  Challenge.allowed_browser_origins := ChallengeReq.allowed_browser_origins request;
  Challenge.secret_handle_policy := ChallengeReq.secret_handle_policy request;
  Challenge.irreversible_operation := ChallengeReq.irreversible_operation request;
  Challenge.issued_at_unix_ms := now;
  Challenge.confirmation_deadline_unix_ms :=
    Z.min (ChallengeReq.expires_at_unix_ms request)
      (saturating_add now MAX_PENDING_TTL_MS);
  Challenge.expires_at_unix_ms := ChallengeReq.expires_at_unix_ms request;
  Challenge.challenge_sha256 := challenge_sha256 |}.

(** [CrossClientTaskAuthorizationVerifier::prepare]. *)
Definition prepare `{P : Platform, C : ReceiptCodec}
    (runtime : Runtime.CrossClientTaskAuthorizationRuntime) (samples : XS.CrossSamples)
    (request : ChallengeReq.CrossClientTaskAuthorizationChallengeRequest)
    (state : VS.VerifierState)
    : VS.VerifierState * xresult Challenge.CrossClientTaskAuthorizationChallenge :=
  match XS.now samples with
  | Err e => (state, Err e)
  | Ok now =>
      match (check? validate_challenge_request request now in
             validate_live_target (XS.observer samples) (ChallengeReq.target request)) with
      | Err e => (state, Err e)
      | Ok _ =>
          let '(state, observed) := observe_clock now state in
          match observed with
          | Err e => (state, Err e)
          | Ok _ =>
              let state := set_challenges (retain_pending now (VS.challenges state)) state in
              if MAX_PENDING_CHALLENGES <=? Z.of_nat (size (VS.challenges state))
              then (state, Err CrossErr.Capacity)
              else
                let challenge_id := "task-challenge-" +:+ XS.challenge_uuid samples in
                let nonce := base64_encode (XS.nonce_bytes samples) in
                match challenge_digest
                        (new_challenge runtime request now challenge_id nonce "") with
                | Err e => (state, Err e)
                | Ok challenge_sha256 =>
                    let challenge :=
                      new_challenge runtime request now challenge_id nonce
                        challenge_sha256 in
                    (set_challenges
                       (<[challenge_id := {| CRec.challenge := challenge;
                                             CRec.consumed := false |}]>
                          (VS.challenges state)) state,
                     Ok challenge)
                end
          end
      end
  end.

(** The registration an approved challenge stands for. *)
Definition challenge_registration
    (challenge : Challenge.CrossClientTaskAuthorizationChallenge)
    (process_id window_handle : Z)
    (browser_scope : option BrowserScope.TrustedTaskAuthorizationBrowserScope)
    (expires_at_unix_ms : Z) : Reg.TrustedTaskAuthorizationRegistration := {|
  Reg.connection_id := Some (Challenge.connection_id challenge);
  Reg.task_id := Some (Challenge.task_id challenge);
  Reg.task_grant_id := Challenge.task_grant_id challenge;
  Reg.application_label := Challenge.application_label challenge;
  Reg.target := ExactWindow process_id window_handle;
  Reg.allowed_host_methods := Challenge.allowed_host_methods challenge;
  Reg.allowed_actions := Challenge.allowed_actions challenge;
  Reg.allowed_browser_origins := Challenge.allowed_browser_origins challenge;
  Reg.browser_scope := browser_scope;
  Reg.recording_output_dir := None;
  Reg.capture_preparation := None;
  Reg.expires_at_unix_ms := expires_at_unix_ms |}.

Definition target_identity (target : CrossTarget.CrossClientTaskAuthorizationTarget)
    : xresult string :=
  match target with
  | CrossTarget.ExactWindow _ process_creation_identity _
  | CrossTarget.ExactBrowser _ process_creation_identity _ _ _ _ _ =>
      Ok process_creation_identity
  | CrossTarget.BrowserBootstrapExactWindow _ _ _
  | CrossTarget.BrowserBootstrapOwned _ _ => invalid_challenge
  end.

Definition target_browser_scope (target : CrossTarget.CrossClientTaskAuthorizationTarget)
    : option BrowserScope.TrustedTaskAuthorizationBrowserScope :=
  match target with
  | CrossTarget.ExactBrowser _ _ _ host_target_id tab_id document_generation origin =>
      Some {| BrowserScope.host_target_id := host_target_id;
              BrowserScope.tab_id := tab_id;
              BrowserScope.document_generation := document_generation;
              BrowserScope.origin := origin |}
  | _ => None
  end.

(** The checks of [consume] on a retained challenge, up to its consumption. *)
Definition check_decision `{C : ReceiptCodec}
    (runtime : Runtime.CrossClientTaskAuthorizationRuntime)
    (trust : CrossClientTaskAuthorizationTrustStore)
    (observer : CrossClientTaskAuthorizationTargetObserver)
    (challenge : Challenge.CrossClientTaskAuthorizationChallenge)
    (receipt : Signed.CrossClientTaskAuthorizationSignedDecision) (now : Z)
    : xresult Key.TrustedTaskAuthorizationKey :=
  let decision := Signed.decision receipt in
  check? validate_decision_binding runtime challenge decision now in
  let? found := rmap_err (fun _ => CrossErr.TrustUnavailable)
                  (trust (UnsignedDecision.issuer_key_id decision)) in
  let? key := match found with
              | Some (TrustState.Active key) => Ok key
              | Some (TrustState.Revoked _) => Err CrossErr.RevokedKey
              | None => Err CrossErr.UnknownKey
              end in
  if Key.audience key != Challenge.audience challenge then Err CrossErr.BindingMismatch
  else
    check? verify_signature key receipt in
    check? (if UnsignedDecision.decision decision == SignedChoice.Allow
            then validate_live_target observer (Challenge.target challenge)
            else Ok tt) in
    Ok key.

(** [get_mut(challenge_id).ok_or(...)?.consumed = true]. *)
Definition mark_consumed_challenge (id : string)
    (challenges : gmap string CRec.ChallengeRecord)
    : xresult (gmap string CRec.ChallengeRecord) :=
  let? record := ok_or (challenges !! id) CrossErr.BindingMismatch in
  Ok (<[id := {| CRec.challenge := CRec.challenge record; CRec.consumed := true |}]>
        challenges).

(** [retain(|_, provenance| provenance.expires_at_unix_ms > now)]. *)
Definition retain_provenance (now : Z)
    (authorizations : gmap string Provenance.AuthorizationProvenance)
    : gmap string Provenance.AuthorizationProvenance :=
  filter (fun kv : string * Provenance.AuthorizationProvenance =>
    now < Provenance.expires_at_unix_ms kv.2) authorizations.

(** The end of [consume], once the challenge is marked: the approved task is
    registered with the broker.  [None] as in [register_inner]. *)
Definition register_approved `{P : Platform}
    (samples : XS.CrossSamples) (now : Z)
    (challenge : Challenge.CrossClientTaskAuthorizationChallenge)
    (key : Key.TrustedTaskAuthorizationKey) (expires_at_unix_ms : Z)
    (state : VS.VerifierState) (broker : BrokerState)
    : VS.VerifierState * BrokerState
      * option (xresult CrossClientTaskAuthorizationConsumption) :=
  match (let? window := ok_or (CrossTarget.exact_window (Challenge.target challenge))
                          CrossErr.InvalidChallenge in
         let? identity := target_identity (Challenge.target challenge) in
         Ok (window, identity)) with
  | Err e => (state, broker, Some (Err e))
  | Ok ((process_id, window_handle), process_creation_identity) =>
      let registration :=
        challenge_registration challenge process_id window_handle
          (target_browser_scope (Challenge.target challenge)) expires_at_unix_ms in
      let '(broker, registered) := register (XS.broker samples) registration broker in
      match registered with
      | None => (state, broker, None)
      | Some (Err _) => (state, broker, Some (Err CrossErr.BrokerUnavailable))
      | Some (Ok opaque) =>
          let authorizations :=
            <[Receipt.authorization_id opaque :=
                {| Provenance.key := key;
                   Provenance.process_creation_identity := process_creation_identity;
                   Provenance.expires_at_unix_ms := expires_at_unix_ms |}]>
              (retain_provenance now (VS.authorizations state)) in
          (set_authorizations authorizations state, broker, Some (Ok (Task opaque)))
      end
  end.

(** [CrossClientTaskAuthorizationVerifier::consume]. *)
Definition consume `{P : Platform, C : ReceiptCodec}
    (runtime : Runtime.CrossClientTaskAuthorizationRuntime)
    (trust : CrossClientTaskAuthorizationTrustStore)
    (samples : XS.CrossSamples) (encoded_receipt : list Z)
    (state : VS.VerifierState) (broker : BrokerState)
    : VS.VerifierState * BrokerState
      * option (xresult CrossClientTaskAuthorizationConsumption) :=
  match (let? receipt := decode_receipt encoded_receipt in
         let? now := XS.now samples in
         Ok (receipt, now)) with
  | Err e => (state, broker, Some (Err e))
  | Ok (receipt, now) =>
      let decision := Signed.decision receipt in
      let '(state, observed) := observe_clock now state in
      match (check? observed in
             let? record := ok_or (VS.challenges state !!
                                     UnsignedDecision.challenge_id decision)
                              CrossErr.BindingMismatch in
             if CRec.consumed record then Err CrossErr.Replay
             else
               let? key := check_decision runtime trust (XS.observer samples)
                             (CRec.challenge record) receipt now in
               let? challenges :=
                 mark_consumed_challenge
                   (Challenge.challenge_id (CRec.challenge record))
                   (VS.challenges state) in
               Ok (CRec.challenge record, key, challenges)) with
      | Err e => (state, broker, Some (Err e))
      | Ok (challenge, key, challenges) =>
          let state := set_challenges challenges state in
          if UnsignedDecision.decision decision == SignedChoice.Deny
          then (state, broker, Some (Ok ConsumptionDenied))
          else if CrossTarget.is_bootstrap (Challenge.target challenge)
          then (state, broker, Some (Ok (BrowserBootstrap
            {| Bootstrap.challenge_id := Challenge.challenge_id challenge;
               Bootstrap.target := Challenge.target challenge;
               Bootstrap.expires_at_unix_ms :=
                 UnsignedDecision.expires_at_unix_ms decision |})))
          else register_approved samples now challenge key
                 (UnsignedDecision.expires_at_unix_ms decision) state broker
      end
  end.

(** ** The trust registry *)

Module RegistryKey.
Record RegistryKey : Type := {
  key : Key.TrustedTaskAuthorizationKey;
  revoked_at_epoch : option Z;
}.
End RegistryKey.

(** [TrustRegistry]: the keys by id. *)
Abbreviation TrustRegistry := (gmap string RegistryKey.RegistryKey).

(** One turn of the loop of [trusted_task_authorization_trust_registry]. *)
Definition register_key `{C : ReceiptCodec} (records : TrustRegistry)
    (key : Key.TrustedTaskAuthorizationKey) : xresult TrustRegistry :=
  check? as_error CrossErr.InvalidConfiguration
           (cross_validate_identity (Key.key_id key) MAX_IDENTITY_CHARS) in
  check? as_error CrossErr.InvalidConfiguration (validate_audience (Key.audience key)) in
  if negb (verifying_key_valid (Key.verifying_key key))
     || is_some (records !! Key.key_id key)
  then Err CrossErr.InvalidConfiguration
  else Ok (<[Key.key_id key := {| RegistryKey.key := key;
                                  RegistryKey.revoked_at_epoch := None |}]> records).

Fixpoint register_keys `{C : ReceiptCodec} (records : TrustRegistry)
    (keys : list Key.TrustedTaskAuthorizationKey) : xresult TrustRegistry :=
  match keys with
  | [] => Ok records
  | key :: keys => let? records := register_key records key in register_keys records keys
  end.

Definition trusted_task_authorization_trust_registry `{C : ReceiptCodec}
    (keys : list Key.TrustedTaskAuthorizationKey) : xresult TrustRegistry :=
  if is_empty keys || (64 <? len keys) then Err CrossErr.InvalidConfiguration
  else register_keys ∅ keys.

(** [TrustedTaskAuthorizationTrustAdmin::revoke]. *)
Definition trust_revoke (key_id : string) (revocation_epoch : Z) (registry : TrustRegistry)
    : TrustRegistry * xresult unit :=
  if (revocation_epoch =? 0) || (MAX_SAFE_JSON_INTEGER <? revocation_epoch)
  then (registry, Err CrossErr.InvalidConfiguration)
  else match registry !! key_id with
  | None => (registry, Err CrossErr.UnknownKey)
  | Some record =>
      if is_some_and (fun previous => revocation_epoch <=? previous)
           (RegistryKey.revoked_at_epoch record)
      then (registry, Err CrossErr.InvalidConfiguration)
      else (<[key_id := {| RegistryKey.key := RegistryKey.key record;
                           RegistryKey.revoked_at_epoch := Some revocation_epoch |}]>
              registry, Ok tt)
  end.

(** The [lookup] of the registry. *)
Definition registry_lookup (registry : TrustRegistry)
    : CrossClientTaskAuthorizationTrustStore := fun key_id =>
  Ok (match registry !! key_id with
      | None => None
      | Some record =>
          Some (match RegistryKey.revoked_at_epoch record with
                | None => TrustState.Active (RegistryKey.key record)
                | Some revocation_epoch => TrustState.Revoked revocation_epoch
                end)
      end).

(** ** The host *)

Definition unavailable_host : AuthHostError.TrustedTaskAuthorizationHostError :=
  AuthHostError.Unavailable
    "the constructor-provisioned cross-client trust state is unavailable".

Abbreviation auth_result := (result AuthHostError.TrustedTaskAuthorizationHostError).

(** [CrossClientAuthorizationHost::validate_clock]. *)
Definition validate_clock (now : xresult Z) (state : VS.VerifierState)
    : VS.VerifierState * auth_result unit :=
  match now with
  | Err _ => (state, Err unavailable_host)
  | Ok now =>
      let '(state, observed) := observe_clock now state in
      (state, rmap_err (fun _ => unavailable_host) observed)
  end.

(** [CrossClientAuthorizationHost::provenance]. *)
Definition find_provenance (authorization_id : string) (state : VS.VerifierState)
    : auth_result Provenance.AuthorizationProvenance :=
  ok_or (VS.authorizations state !! authorization_id) AuthHostError.Denied.

Definition live_key (trust : CrossClientTaskAuthorizationTrustStore)
    (provenance : Provenance.AuthorizationProvenance)
    : auth_result TrustedTaskAuthorizationStatus :=
  let? found := rmap_err (fun _ => unavailable_host)
                  (trust (Key.key_id (Provenance.key provenance))) in
  match found with
  | Some (TrustState.Active key) =>
      if key == Provenance.key provenance then Ok Active else Err unavailable_host
  | Some (TrustState.Revoked _) => Ok Revoked
  | None => Err unavailable_host
  end.

Definition live_target (observer : CrossClientTaskAuthorizationTargetObserver)
    (provenance : Provenance.AuthorizationProvenance) (process_id window_handle : Z)
    : auth_result unit :=
  let? observed := ok_or (observer process_id window_handle) unavailable_host in
  if observed == Provenance.process_creation_identity provenance then Ok tt
  else Err AuthHostError.Denied.

(** What the three requests check before they ask the broker. *)
Definition host_gate (trust : CrossClientTaskAuthorizationTrustStore)
    (samples : XS.CrossSamples) (authorization_id : string)
    (process_id window_handle : Z) (state : VS.VerifierState)
    : VS.VerifierState * auth_result TrustedTaskAuthorizationStatus :=
  let '(state, clock) := validate_clock (XS.now samples) state in
  (state,
   check? clock in
   let? provenance := find_provenance authorization_id state in
   check? live_target (XS.observer samples) provenance process_id window_handle in
   live_key trust provenance).

(** [inner] is the broker's answer and its next state. *)
Definition cross_authorize (trust : CrossClientTaskAuthorizationTrustStore)
    (samples : XS.CrossSamples) (clock : Clock.Clock) (broker_now : Z)
    (request : AuthReq.TrustedTaskAuthorizationRequest)
    (state : VS.VerifierState) (broker : BrokerState)
    : VS.VerifierState * BrokerState
      * auth_result Lease.TrustedTaskAuthorizationLease :=
  let '(state, gate) :=
    host_gate trust samples (AuthReq.authorization_id request)
      (AuthReq.target_process_id request) (AuthReq.target_window_handle request) state in
  match gate with
  | Err e => (state, broker, Err e)
  | Ok status =>
      if bool_decide (status = Active)
      then
        let '(broker, reply) := authorize clock broker_now request broker in
        (state, broker, reply)
      else (state, broker, Err AuthHostError.Denied)
  end.

Definition cross_validate (trust : CrossClientTaskAuthorizationTrustStore)
    (samples : XS.CrossSamples) (clock : Clock.Clock)
    (request : ValReq.TrustedTaskAuthorizationValidationRequest)
    (state : VS.VerifierState) (broker : BrokerState)
    : VS.VerifierState * BrokerState
      * auth_result ValDecision.TrustedTaskAuthorizationValidationDecision :=
  let '(state, gate) :=
    host_gate trust samples (ValReq.authorization_id request)
      (ValReq.target_process_id request) (ValReq.target_window_handle request) state in
  match gate with
  | Err e => (state, broker, Err e)
  | Ok Revoked =>
      (state, broker,
       Ok {| ValDecision.status := Revoked;
             ValDecision.request_digest := ValReq.request_digest request |})
  | Ok Active =>
      let '(broker, reply) := validate clock request broker in (state, broker, reply)
  end.

Definition cross_validate_lease (trust : CrossClientTaskAuthorizationTrustStore)
    (samples : XS.CrossSamples) (clock : Clock.Clock)
    (request : LeaseReq.TrustedTaskAuthorizationLeaseValidationRequest)
    (state : VS.VerifierState) (broker : BrokerState)
    : VS.VerifierState * BrokerState
      * auth_result ValDecision.TrustedTaskAuthorizationValidationDecision :=
  let '(state, gate) :=
    host_gate trust samples (LeaseReq.authorization_id request)
      (LeaseReq.target_process_id request) (LeaseReq.target_window_handle request) state in
  match gate with
  | Err e => (state, broker, Err e)
  | Ok Revoked =>
      (state, broker,
       Ok {| ValDecision.status := Revoked;
             ValDecision.request_digest := LeaseReq.request_digest request |})
  | Ok Active =>
      let '(broker, reply) := broker_validate_lease clock request broker in
      (state, broker, reply)
  end.

(** ** The two ends together

    [cross_client_task_authorization_with_clock_and_target_observer] creates the
    verifier and the host around one state and one broker; [System] adds the
    trust registry they consult. *)
Module System.
Record System : Type := {
  verifier : VS.VerifierState;
  broker : BrokerState;
  registry : TrustRegistry;
}.
End System.

Definition cross_client_task_authorization
    (runtime : Runtime.CrossClientTaskAuthorizationRuntime) (registry : TrustRegistry)
    : xresult System.System :=
  check? validate_runtime runtime in
  Ok {| System.verifier := VS.default; System.broker := ∅; System.registry := registry |}.

Inductive cross_op : Type :=
| OpPrepare (samples : XS.CrossSamples)
    (request : ChallengeReq.CrossClientTaskAuthorizationChallengeRequest)
| OpConsume (samples : XS.CrossSamples) (encoded : list Z)
| OpCrossAuthorize (samples : XS.CrossSamples) (clock : Clock.Clock) (now : Z)
    (request : AuthReq.TrustedTaskAuthorizationRequest)
| OpCrossValidate (samples : XS.CrossSamples) (clock : Clock.Clock)
    (request : ValReq.TrustedTaskAuthorizationValidationRequest)
| OpCrossValidateLease (samples : XS.CrossSamples) (clock : Clock.Clock)
    (request : LeaseReq.TrustedTaskAuthorizationLeaseValidationRequest)
| OpTrustRevoke (key_id : string) (revocation_epoch : Z).

Inductive cross_reply : Type :=
| Prepared (r : xresult Challenge.CrossClientTaskAuthorizationChallenge)
| Consumed (r : option (xresult CrossClientTaskAuthorizationConsumption))
| CrossLease (r : auth_result Lease.TrustedTaskAuthorizationLease)
| CrossDecision (r : auth_result ValDecision.TrustedTaskAuthorizationValidationDecision)
| TrustRevoked (r : xresult unit).

Definition cross_step `{P : Platform, C : ReceiptCodec}
    (runtime : Runtime.CrossClientTaskAuthorizationRuntime) (s : System.System)
    (op : cross_op) : System.System * cross_reply :=
  let verifier := System.verifier s in
  let broker := System.broker s in
  let registry := System.registry s in
  let trust := registry_lookup registry in
  let keep v b := {| System.verifier := v; System.broker := b;
                     System.registry := registry |} in
  match op with
  | OpPrepare samples request =>
      let '(v, r) := prepare runtime samples request verifier in
      (keep v broker, Prepared r)
  | OpConsume samples encoded =>
      let '(v, b, r) := consume runtime trust samples encoded verifier broker in
      (keep v b, Consumed r)
  | OpCrossAuthorize samples clock now request =>
      let '(v, b, r) := cross_authorize trust samples clock now request verifier broker in
      (keep v b, CrossLease r)
  | OpCrossValidate samples clock request =>
      let '(v, b, r) := cross_validate trust samples clock request verifier broker in
      (keep v b, CrossDecision r)
  | OpCrossValidateLease samples clock request =>
      let '(v, b, r) := cross_validate_lease trust samples clock request verifier broker in
      (keep v b, CrossDecision r)
  | OpTrustRevoke key_id revocation_epoch =>
      let '(registry, r) := trust_revoke key_id revocation_epoch registry in
      ({| System.verifier := verifier; System.broker := broker;
          System.registry := registry |}, TrustRevoked r)
  end.

(** ** What each operation does *)

(** The verifier's clock may move; nothing else changed. *)
Definition same_records (v v' : VS.VerifierState) : Prop :=
  VS.challenges v' = VS.challenges v /\ VS.authorizations v' = VS.authorizations v.

Lemma observe_clock_records now v v' r :
  observe_clock now v = (v', r) -> same_records v v'.
Proof. unfold observe_clock. intros H. repeat case_match; by simplify_eq. Qed.

Lemma validate_clock_records now v v' r :
  validate_clock now v = (v', r) -> same_records v v'.
Proof.
  unfold validate_clock. destruct now as [now|e]; [|by intros [= <- _]].
  destruct (observe_clock now v) as [v1 r1] eqn:E. intros [= <- _].
  by eapply observe_clock_records.
Qed.

Lemma host_gate_records trust samples id pid window v v' r :
  host_gate trust samples id pid window v = (v', r) -> same_records v v'.
Proof.
  unfold host_gate. destruct (validate_clock _ v) as [v1 r1] eqn:E. intros [= <- _].
  by eapply validate_clock_records.
Qed.

(** A request of the host that reaches the broker, or reports a revoked key. *)
Lemma host_gate_ok trust samples id pid window v v' status :
  host_gate trust samples id pid window v = (v', Ok status) ->
  exists now provenance,
    XS.now samples = Ok now /\ observe_clock now v = (v', Ok tt)
    /\ VS.authorizations v !! id = Some provenance
    /\ XS.observer samples pid window
       = Some (Provenance.process_creation_identity provenance)
    /\ live_key trust provenance = Ok status.
Proof.
  unfold host_gate, validate_clock. intros H.
  destruct (XS.now samples) as [now|e] eqn:En; [|by simplify_eq].
  destruct (observe_clock now v) as [v1 r1] eqn:E. injection H as -> H.
  pose proof (observe_clock_records _ _ _ _ E) as [_ Ha].
  unfold find_provenance, live_target in H. open_ok. subst. simplify_eq.
  reflect_all. subst. rewrite <- Ha. eauto 10.
Qed.

(** What [consume] has established when it marks the challenge. *)
Definition accepted `{C : ReceiptCodec}
    (runtime : Runtime.CrossClientTaskAuthorizationRuntime)
    (trust : CrossClientTaskAuthorizationTrustStore) (samples : XS.CrossSamples)
    (encoded : list Z) (v : VS.VerifierState)
    (receipt : Signed.CrossClientTaskAuthorizationSignedDecision) (now : Z)
    (challenge : Challenge.CrossClientTaskAuthorizationChallenge)
    (key : Key.TrustedTaskAuthorizationKey) : Prop :=
  decode_receipt encoded = Ok receipt /\ XS.now samples = Ok now
  /\ (observe_clock now v).2 = Ok tt
  /\ VS.challenges v !! UnsignedDecision.challenge_id (Signed.decision receipt)
     = Some {| CRec.challenge := challenge; CRec.consumed := false |}
  /\ check_decision runtime trust (XS.observer samples) challenge receipt now = Ok key.

(** What a decision must agree on with the challenge it answers. *)
Definition decision_binds (runtime : Runtime.CrossClientTaskAuthorizationRuntime)
    (challenge : Challenge.CrossClientTaskAuthorizationChallenge)
    (decision : UnsignedDecision.CrossClientTaskAuthorizationUnsignedDecision) : Prop :=
  UnsignedDecision.schema decision = CROSS_CLIENT_TASK_AUTHORIZATION_RECEIPT_SCHEMA
  /\ UnsignedDecision.audience decision = Challenge.audience challenge
  /\ UnsignedDecision.runtime_instance_id decision = Runtime.runtime_instance_id runtime
  /\ UnsignedDecision.boot_generation decision = Runtime.boot_generation runtime
  /\ UnsignedDecision.challenge_id decision = Challenge.challenge_id challenge
  /\ UnsignedDecision.nonce decision = Challenge.nonce challenge
  /\ UnsignedDecision.challenge_sha256 decision = Challenge.challenge_sha256 challenge.

Definition decision_in_time (now : Z)
    (challenge : Challenge.CrossClientTaskAuthorizationChallenge)
    (decision : UnsignedDecision.CrossClientTaskAuthorizationUnsignedDecision) : Prop :=
  Challenge.issued_at_unix_ms challenge <= UnsignedDecision.issued_at_unix_ms decision
  /\ UnsignedDecision.issued_at_unix_ms decision <= now
     <= Challenge.confirmation_deadline_unix_ms challenge
  /\ now < UnsignedDecision.expires_at_unix_ms decision
     <= Challenge.expires_at_unix_ms challenge.

Lemma validate_decision_binding_ok runtime challenge decision now :
  validate_decision_binding runtime challenge decision now = Ok tt <->
  decision_binds runtime challenge decision /\ decision_in_time now challenge decision.
Proof.
  unfold validate_decision_binding, decision_binds, decision_in_time.
  rewrite !guard_ok. autorewrite with reflect_bool.
  split; [intros; split_facts | intros [? ?]; split_facts];
    split_and!; try done; lia.
Qed.

Lemma check_decision_ok `{C : ReceiptCodec} runtime trust observer challenge receipt now key :
  check_decision runtime trust observer challenge receipt now = Ok key <->
  validate_decision_binding runtime challenge (Signed.decision receipt) now = Ok tt
  /\ trust (UnsignedDecision.issuer_key_id (Signed.decision receipt))
     = Ok (Some (TrustState.Active key))
  /\ Key.audience key = Challenge.audience challenge
  /\ verify_signature key receipt = Ok tt
  /\ (UnsignedDecision.decision (Signed.decision receipt) = SignedChoice.Allow ->
      validate_live_target observer (Challenge.target challenge) = Ok tt).
Proof.
  unfold check_decision. split.
  - intros H. open_ok. destruct x0 as [[key'|]|]; try done. simplify_eq. reflect_all.
    subst. split_and!; try done. intros HA. by rewrite bool_decide_eq_true_2 in *.
  - intros (-> & -> & HA & Hs & Hl). simpl. rewrite HA, bool_decide_eq_true_2, Hs by done.
    simpl. case_bool_decide; [by rewrite Hl | done].
Qed.

(** The fields that [consume] leaves alone, whatever its result. *)
Lemma register_approved_keeps `{P : Platform} samples now challenge key expires v b v' b' r :
  register_approved samples now challenge key expires v b = (v', b', r) ->
  VS.challenges v' = VS.challenges v
  /\ VS.clock_failed v' = VS.clock_failed v
  /\ VS.last_observed_unix_ms v' = VS.last_observed_unix_ms v
  /\ (b' = b \/ exists registration reply,
        register (XS.broker samples) registration b = (b', reply)).
Proof.
  unfold register_approved. intros H.
  destruct (rbind _ _) as [[[pid window] identity]|e]; [|simplify_eq; auto].
  destruct (register _ _ b) as [b1 reply] eqn:E.
  destruct reply as [[opaque|e]|]; simplify_eq; eauto 10.
Qed.

Lemma register_approved_ok `{P : Platform} samples now challenge key expires v b v' b' c :
  register_approved samples now challenge key expires v b = (v', b', Some (Ok c)) ->
  exists pid window identity opaque,
    c = Task opaque
    /\ live_binding (Challenge.target challenge) = Some (pid, window, identity)
    /\ CrossTarget.is_bootstrap (Challenge.target challenge) = false
    /\ register (XS.broker samples)
         (challenge_registration challenge pid window
            (target_browser_scope (Challenge.target challenge)) expires) b
       = (b', Some (Ok opaque))
    /\ VS.authorizations v'
       = <[Receipt.authorization_id opaque :=
            {| Provenance.key := key; Provenance.process_creation_identity := identity;
               Provenance.expires_at_unix_ms := expires |}]>
           (retain_provenance now (VS.authorizations v)).
Proof.
  unfold register_approved. intros H.
  destruct (rbind _ _) as [[[pid window] identity]|e] eqn:E; [|by simplify_eq].
  assert (live_binding (Challenge.target challenge) = Some (pid, window, identity)
          /\ CrossTarget.is_bootstrap (Challenge.target challenge) = false) as [Hl Hb].
  { destruct (Challenge.target challenge); by simplify_eq/=. }
  destruct (register _ _ b) as [b1 reply] eqn:Er.
  destruct reply as [[opaque|e]|]; simplify_eq. by eexists _, _, _, _.
Qed.

(** [consume] fails and changes no record, or marks a challenge it accepted. *)
Lemma consume_cases `{P : Platform, C : ReceiptCodec} runtime trust samples encoded
    v b v' b' r :
  consume runtime trust samples encoded v b = (v', b', r) ->
  (exists e, r = Some (Err e) /\ same_records v v' /\ b' = b
     /\ (v' = v \/ exists now, v' = (observe_clock now v).1))
  \/ exists receipt now challenge key v1,
       accepted runtime trust samples encoded v receipt now challenge key
       /\ v1 = set_challenges
                 (<[Challenge.challenge_id challenge :=
                     {| CRec.challenge := challenge; CRec.consumed := true |}]>
                    (VS.challenges v)) (observe_clock now v).1
       /\ let decision := Signed.decision receipt in
          (if UnsignedDecision.decision decision == SignedChoice.Deny
           then (v1, b, Some (Ok ConsumptionDenied))
           else if CrossTarget.is_bootstrap (Challenge.target challenge)
           then (v1, b, Some (Ok (BrowserBootstrap
             {| Bootstrap.challenge_id := Challenge.challenge_id challenge;
                Bootstrap.target := Challenge.target challenge;
                Bootstrap.expires_at_unix_ms :=
                  UnsignedDecision.expires_at_unix_ms decision |})))
           else register_approved samples now challenge key
                  (UnsignedDecision.expires_at_unix_ms decision) v1 b) = (v', b', r).
Proof.
  unfold consume, mark_consumed_challenge. intros H.
  destruct (rbind (decode_receipt encoded) _) as [[receipt now]|e] eqn:E;
    [|left; simplify_eq; unfold same_records; eauto 10].
  apply rbind_ok in E as (receipt' & Hd & E). apply rbind_ok in E as (now' & Hn & E).
  simplify_eq. destruct (observe_clock now v) as [v1 r1] eqn:Eo.
  pose proof (observe_clock_records _ _ _ _ Eo) as [Hc Ha].
  assert (v1 = (observe_clock now v).1) as Hv1 by by rewrite Eo.
  destruct (rbind r1 _) as [[[challenge key] challenges]|e] eqn:Er;
    [|left; simplify_eq; unfold same_records; eauto 10].
  right. apply rbind_ok in Er as ([] & -> & Er).
  apply rbind_ok in Er as ([c consumed] & Hr%ok_or_ok & Er). simpl in Er.
  apply guard_ok in Er as (-> & Er).
  apply rbind_ok in Er as (key' & Hk & Er). apply rbind_ok in Er as (m & Hm & Er).
  simplify_eq. apply rbind_ok in Hm as (record & Hrec%ok_or_ok & Hm). simplify_eq.
  assert (Challenge.challenge_id challenge
          = UnsignedDecision.challenge_id (Signed.decision receipt)) as Hid.
  { apply check_decision_ok in Hk as [Hk _].
    apply validate_decision_binding_ok in Hk as [(_ & _ & _ & _ & -> & _) _]. done. }
  rewrite Hid, Hr in Hrec. simplify_eq. rewrite Hc in *.
  exists receipt, now, challenge, key, (set_challenges
    (<[Challenge.challenge_id challenge :=
        {| CRec.challenge := challenge; CRec.consumed := true |}]> (VS.challenges v))
    (observe_clock now v).1).
  split; [|split; done]. unfold accepted. split_and!; try done. by rewrite Eo.
Qed.

Lemma accepted_id `{C : ReceiptCodec} runtime trust samples encoded v receipt now challenge key :
  accepted runtime trust samples encoded v receipt now challenge key ->
  UnsignedDecision.challenge_id (Signed.decision receipt) = Challenge.challenge_id challenge
  /\ VS.challenges v !! Challenge.challenge_id challenge
     = Some {| CRec.challenge := challenge; CRec.consumed := false |}.
Proof.
  intros (_ & _ & _ & Hr & Hk). apply check_decision_ok in Hk as [Hk _].
  apply validate_decision_binding_ok in Hk as [(_ & _ & _ & _ & Hid & _) _].
  by rewrite <- Hid.
Qed.

(** What [prepare] retains, and what it adds. *)
Lemma prepare_challenges `{P : Platform, C : ReceiptCodec} runtime samples request v v' r :
  prepare runtime samples request v = (v', r) ->
  VS.authorizations v' = VS.authorizations v
  /\ forall id record, VS.challenges v' !! id = Some record ->
       VS.challenges v !! id = Some record
       \/ exists challenge, r = Ok challenge /\ Challenge.challenge_id challenge = id
            /\ record = {| CRec.challenge := challenge; CRec.consumed := false |}.
Proof.
  unfold prepare. intros H. destruct (XS.now samples) as [now|e]; [|by simplify_eq; auto].
  destruct (rbind _ _) as [u|e]; [|by simplify_eq; auto].
  destruct (observe_clock now v) as [v1 [u'|e]] eqn:Eo; [|].
  2:{ simplify_eq. apply observe_clock_records in Eo as [-> ->]. auto. }
  apply observe_clock_records in Eo as [Hc Ha].
  assert (forall id record, retain_pending now (VS.challenges v1) !! id = Some record ->
    VS.challenges v !! id = Some record) as Hretain.
  { intros id record [Hr _]%map_lookup_filter_Some. by rewrite <- Hc. }
  destruct (_ <=? _); [simplify_eq; auto|].
  destruct (challenge_digest _) as [d|e]; simplify_eq/=; [|auto].
  split; [done|]. intros id record Hr.
  destruct (decide ("task-challenge-" +:+ XS.challenge_uuid samples = id)) as [Heq|Hne].
  - rewrite Heq, lookup_insert_eq in Hr. simplify_eq. right. by eexists.
  - rewrite lookup_insert_ne in Hr by done. auto.
Qed.

Lemma consume_challenges `{P : Platform, C : ReceiptCodec} runtime trust samples encoded
    v b v' b' r id record :
  consume runtime trust samples encoded v b = (v', b', r) ->
  VS.challenges v' !! id = Some record ->
  exists record0, VS.challenges v !! id = Some record0
    /\ CRec.challenge record0 = CRec.challenge record
    /\ (CRec.consumed record0 = true -> CRec.consumed record = true).
Proof.
  intros H Hr. apply consume_cases in H as
    [(e & _ & [Hc _] & _)|(receipt & now & challenge & key & v1 & Hacc & Hv1 & H)].
  { rewrite Hc in Hr. eauto. }
  assert (VS.challenges v' = VS.challenges v1) as Hc.
  { simpl in H. do 2 (case_match; [by simplify_eq|]).
    by apply register_approved_keeps in H as [-> _]. }
  rewrite Hc, Hv1 in Hr. simpl in Hr.
  destruct (decide (Challenge.challenge_id challenge = id)) as [<-|Hne].
  - rewrite lookup_insert_eq in Hr. simplify_eq.
    apply accepted_id in Hacc as [_ Hacc]. rewrite Hacc. by eexists.
  - rewrite lookup_insert_ne in Hr by done. eauto.
Qed.

(** One step opens: the operation is run and the new state is read off. *)
Ltac open_step H :=
  simpl in H;
  repeat match type of H with
  | (let '(_, _) := ?t in _) = _ =>
      let x := fresh "out" in let E := fresh "Eout" in destruct t as [x ?] eqn:E
  end;
  repeat match goal with p : (_ * _)%type |- _ => destruct p end;
  simplify_eq.

Lemma cross_authorize_records trust samples clock now request v b v' b' r :
  cross_authorize trust samples clock now request v b = (v', b', r) ->
  v' = (host_gate trust samples (AuthReq.authorization_id request)
          (AuthReq.target_process_id request) (AuthReq.target_window_handle request) v).1
  /\ (b' = b \/ b' = (authorize clock now request b).1).
Proof.
  unfold cross_authorize. destruct (host_gate _ _ _ _ _ v) as [v1 [status|e]];
    [|intros [= <- <- <-]; auto].
  case_bool_decide; [|intros [= <- <- <-]; auto].
  destruct (authorize _ _ _ _) as [b1 r1]. intros [= <- <- <-]; auto.
Qed.

Lemma cross_validate_records trust samples clock request v b v' b' r :
  cross_validate trust samples clock request v b = (v', b', r) ->
  v' = (host_gate trust samples (ValReq.authorization_id request)
          (ValReq.target_process_id request) (ValReq.target_window_handle request) v).1
  /\ (b' = b \/ b' = (validate clock request b).1).
Proof.
  unfold cross_validate. destruct (host_gate _ _ _ _ _ v) as [v1 [[]|e]];
    [|intros [= <- <- <-]; auto..].
  destruct (validate _ _ _) as [b1 r1]. intros [= <- <- <-]; auto.
Qed.

Lemma cross_validate_lease_records trust samples clock request v b v' b' r :
  cross_validate_lease trust samples clock request v b = (v', b', r) ->
  v' = (host_gate trust samples (LeaseReq.authorization_id request)
          (LeaseReq.target_process_id request)
          (LeaseReq.target_window_handle request) v).1
  /\ (b' = b \/ b' = (broker_validate_lease clock request b).1).
Proof.
  unfold cross_validate_lease. destruct (host_gate _ _ _ _ _ v) as [v1 [[]|e]];
    [|intros [= <- <- <-]; auto..].
  destruct (broker_validate_lease _ _ _) as [b1 r1]. intros [= <- <- <-]; auto.
Qed.

Lemma host_gate_same trust samples id pid window v :
  same_records v (host_gate trust samples id pid window v).1.
Proof. destruct (host_gate _ _ _ _ _ _) eqn:E. by eapply host_gate_records. Qed.

(** Where a challenge of the next state comes from. *)
Lemma step_challenges `{P : Platform, C : ReceiptCodec} runtime s op s' reply id record :
  cross_step runtime s op = (s', reply) ->
  VS.challenges (System.verifier s') !! id = Some record ->
  (exists record0, VS.challenges (System.verifier s) !! id = Some record0
     /\ CRec.challenge record0 = CRec.challenge record
     /\ (CRec.consumed record0 = true -> CRec.consumed record = true))
  \/ (exists challenge, reply = Prepared (Ok challenge)
        /\ Challenge.challenge_id challenge = id
        /\ record = {| CRec.challenge := challenge; CRec.consumed := false |}).
Proof.
  intros H Hr. destruct op; open_step H; simpl in Hr.
  - apply prepare_challenges in Eout as [_ Hp].
    destruct (Hp _ _ Hr) as [?|(challenge & -> & ? & ?)]; [left; eauto | right; eauto].
  - left. by eapply consume_challenges.
  - apply cross_authorize_records in Eout as [-> _].
    rewrite (proj1 (host_gate_same _ _ _ _ _ _)) in Hr. eauto.
  - apply cross_validate_records in Eout as [-> _].
    rewrite (proj1 (host_gate_same _ _ _ _ _ _)) in Hr. eauto.
  - apply cross_validate_lease_records in Eout as [-> _].
    rewrite (proj1 (host_gate_same _ _ _ _ _ _)) in Hr. eauto.
  - eauto.
Qed.

(** ** A signed decision is consumed at most once *)

(** The operation consumes a decision on the challenge [id]. *)
Definition consumes `{C : ReceiptCodec} (op : cross_op) (reply : cross_reply)
    (id : string) : Prop :=
  match op, reply with
  | OpConsume _ encoded, Consumed (Some (Ok _)) =>
      exists receipt, decode_receipt encoded = Ok receipt
        /\ UnsignedDecision.challenge_id (Signed.decision receipt) = id
  | _, _ => False
  end.

(** The reply issues the challenge [id]. *)
Definition prepares (reply : cross_reply) (id : string) : Prop :=
  match reply with
  | Prepared (Ok challenge) => Challenge.challenge_id challenge = id
  | _ => False
  end.

Definition used_up (id : string) (s : System.System) : Prop :=
  forall record, VS.challenges (System.verifier s) !! id = Some record ->
    CRec.consumed record = true.

Lemma step_used_up `{P : Platform, C : ReceiptCodec} runtime s op s' reply id :
  cross_step runtime s op = (s', reply) -> ~ prepares reply id ->
  used_up id s -> used_up id s'.
Proof.
  intros H Hno Hu record Hr.
  destruct (step_challenges _ _ _ _ _ _ _ H Hr)
    as [(record0 & Hr0 & _ & Hc)|(challenge & -> & Hid & _)]; [|done].
  by apply Hc, Hu.
Qed.

Lemma consume_success `{P : Platform, C : ReceiptCodec} runtime s op s' reply id :
  cross_step runtime s op = (s', reply) -> consumes op reply id ->
  exists samples encoded receipt now challenge key,
    op = OpConsume samples encoded
    /\ accepted runtime (registry_lookup (System.registry s)) samples encoded
         (System.verifier s) receipt now challenge key
    /\ Challenge.challenge_id challenge = id
    /\ used_up id s'.
Proof.
  intros H Hc. destruct op; simpl in Hc; try done. simpl in H.
  destruct (consume _ _ _ _ _ _) as [[v1 b1] r] eqn:E. simplify_eq.
  destruct r as [[c|e]|]; try done. destruct Hc as (receipt & Hd & Hid).
  apply consume_cases in E as
    [(e & ? & _)|(receipt' & now & challenge & key & v & Hacc & Hv1 & H)]; [done|].
  exists samples, encoded, receipt', now, challenge, key. split; [done|].
  pose proof Hacc as (Hd' & _). rewrite Hd in Hd'. simplify_eq.
  pose proof (accepted_id _ _ _ _ _ _ _ _ _ Hacc) as [Hid' _].
  split_and!; [done | done |]. intros record. rewrite Hid'.
  assert (VS.challenges v1 = VS.challenges (set_challenges
    (<[Challenge.challenge_id challenge :=
        {| CRec.challenge := challenge; CRec.consumed := true |}]>
       (VS.challenges (System.verifier s))) (observe_clock now (System.verifier s)).1)) as Hc.
  { simpl in H. do 2 (case_match; [by simplify_eq|]).
    by apply register_approved_keeps in H as [-> _]. }
  simpl in *. rewrite Hc, lookup_insert_eq. by intros [= <-].
Qed.

(** C15: a signed decision is used at most once.  In any run of the verifier and
    its host, after a decision on a challenge was consumed, whether it allowed or
    denied the task, no decision on the same challenge is consumed again, by
    whichever receipt, unless a new challenge is issued under the same identifier,
    which is drawn at random. *)
Theorem decision_consumed_at_most_once `{P : Platform, C : ReceiptCodec}
    (runtime : Runtime.CrossClientTaskAuthorizationRuntime) (s : System.System)
    (ops : list cross_op) (i j : nat) (id : string) (op_i op_j : cross_op)
    (r_i r_j : cross_reply) :
  let replies := (run (cross_step runtime) s ops).2 in
  (i < j)%nat ->
  ops !! i = Some op_i -> replies !! i = Some r_i -> consumes op_i r_i id ->
  (forall k r, (i < k < j)%nat -> replies !! k = Some r -> ~ prepares r id) ->
  ops !! j = Some op_j -> replies !! j = Some r_j -> ~ consumes op_j r_j id.
Proof.
  intros replies Hij Hopi Hri Hci Hno Hopj Hrj Hcj.
  destruct (run_between (cross_step runtime) (fun _ => True) s ops i j r_i r_j)
    as (op & op' & Hop & Hop' & _ & Ei & _ & Ej & HD); [done..|]. simplify_eq.
  apply (consume_success _ _ _ _ _ id) in Ei as (? & ? & ? & ? & ? & ? & _ & _ & _ & Hu);
    [|done].
  apply (consume_success _ _ _ _ _ id) in Ej as
    (samples & encoded & receipt & now & challenge & key & _ & Hacc & Hid & _); [|done].
  apply accepted_id in Hacc as [_ Hacc]. rewrite Hid in Hacc.
  apply (HD (used_up id)) in Hacc; [done | | done].
  intros k sk op sk' r Hk _ Hr E _. eapply step_used_up; [done|]. by eapply Hno.
Qed.

(** ** An approved task was signed for *)

Lemma verify_signature_ok `{C : ReceiptCodec} key receipt :
  verify_signature key receipt = Ok tt <->
  verifying_key_valid (Key.verifying_key key) = true
  /\ exists signature canonical,
       base64_decode (Signed.signature receipt) = Some signature
       /\ signature_valid signature = true
       /\ jcs_decision (Signed.decision receipt) = Some canonical
       /\ verify_strict (Key.verifying_key key) (SIGNING_DOMAIN ++ [0] ++ canonical)
            signature = true.
Proof.
  unfold verify_signature, cross_client_task_authorization_signing_payload. split.
  - intros H. open_ok. subst. apply negb_false_iff in H, H1. split; [done|].
    injection H5 as <-. by exists x, x1.
  - intros (-> & sig & canonical & -> & H1 & -> & H2). cbn [negb ok_or rbind].
    rewrite H1. cbn [negb]. by rewrite H2.
Qed.

Lemma validate_live_target_ok observer target pid window identity :
  live_binding target = Some (pid, window, identity) ->
  validate_live_target observer target = Ok tt -> observer pid window = Some identity.
Proof.
  unfold validate_live_target. intros -> H. open_ok. reflect_all. by subst.
Qed.

(** The signed receipt [receipt] approves [challenge] under [key]. *)
Definition approves `{C : ReceiptCodec}
    (runtime : Runtime.CrossClientTaskAuthorizationRuntime)
    (key : Key.TrustedTaskAuthorizationKey)
    (challenge : Challenge.CrossClientTaskAuthorizationChallenge)
    (receipt : Signed.CrossClientTaskAuthorizationSignedDecision) (now : Z) : Prop :=
  let decision := Signed.decision receipt in
  UnsignedDecision.decision decision = SignedChoice.Allow
  /\ decision_binds runtime challenge decision
  /\ decision_in_time now challenge decision
  /\ Key.audience key = Challenge.audience challenge
  /\ exists signature canonical,
       base64_decode (Signed.signature receipt) = Some signature
       /\ jcs_decision decision = Some canonical
       /\ verify_strict (Key.verifying_key key) (SIGNING_DOMAIN ++ [0] ++ canonical)
            signature = true.

Lemma consume_task `{P : Platform, C : ReceiptCodec} runtime trust samples encoded
    v b v' b' opaque :
  consume runtime trust samples encoded v b = (v', b', Some (Ok (Task opaque))) ->
  exists receipt now challenge key pid window identity,
    accepted runtime trust samples encoded v receipt now challenge key
    /\ approves runtime key challenge receipt now
    /\ trust (UnsignedDecision.issuer_key_id (Signed.decision receipt))
       = Ok (Some (TrustState.Active key))
    /\ live_binding (Challenge.target challenge) = Some (pid, window, identity)
    /\ XS.observer samples pid window = Some identity
    /\ register (XS.broker samples)
         (challenge_registration challenge pid window
            (target_browser_scope (Challenge.target challenge))
            (UnsignedDecision.expires_at_unix_ms (Signed.decision receipt))) b
       = (b', Some (Ok opaque))
    /\ VS.authorizations v' !! Receipt.authorization_id opaque
       = Some {| Provenance.key := key; Provenance.process_creation_identity := identity;
                 Provenance.expires_at_unix_ms :=
                   UnsignedDecision.expires_at_unix_ms (Signed.decision receipt) |}.
Proof.
  intros H. apply consume_cases in H as
    [(e & ? & _)|(receipt & now & challenge & key & v1 & Hacc & Hv1 & H)]; [done|].
  simpl in H. case_bool_decide as Hallow; [by simplify_eq|].
  destruct (CrossTarget.is_bootstrap _); [by simplify_eq|].
  apply register_approved_ok in H as
    (pid & window & identity & opaque' & Heq & Hl & _ & Hreg & Ha).
  simplify_eq. exists receipt, now, challenge, key, pid, window, identity.
  pose proof Hacc as (_ & _ & _ & _ & Hk).
  apply check_decision_ok in Hk as (Hb & Ht & Haud & Hs & Hlive).
  apply validate_decision_binding_ok in Hb as [Hb Htime].
  apply verify_signature_ok in Hs as (_ & sig & canonical & ? & _ & ? & ?).
  assert (UnsignedDecision.decision (Signed.decision receipt) = SignedChoice.Allow) as HA
    by (by destruct (UnsignedDecision.decision (Signed.decision receipt))).
  split; [done|]. split; [unfold approves; split_and!; by eauto|].
  split; [done|]. split; [done|].
  split; [eapply validate_live_target_ok; by eauto|]. split; [done|].
  by rewrite Ha, lookup_insert_eq.
Qed.

(** C4: no task is authorized that nobody signed for.  When a run from a fresh
    verifier registers a task, an earlier [prepare] of this run issued the
    challenge, and the receipt is an [Allow] bound to that challenge, this runtime
    and this boot, in time, whose canonical form a key of the challenge's audience
    that the registry holds active has signed; the observed process is the one the
    challenge names; and what the broker now holds is exactly what the challenge
    said, until the expiry that was signed. *)
Theorem approved_task_was_signed_for `{P : Platform, C : ReceiptCodec}
    (runtime : Runtime.CrossClientTaskAuthorizationRuntime) (registry : TrustRegistry)
    (s : System.System) (ops : list cross_op) (j : nat) (samples : XS.CrossSamples)
    (encoded : list Z) (opaque : Receipt.TrustedTaskAuthorizationReceipt) :
  let replies := (run (cross_step runtime) s ops).2 in
  let before := (run (cross_step runtime) s (take j ops)).1 in
  let after := (run (cross_step runtime) s (take (S j) ops)).1 in
  cross_client_task_authorization runtime registry = Ok s ->
  ops !! j = Some (OpConsume samples encoded) ->
  replies !! j = Some (Consumed (Some (Ok (Task opaque)))) ->
  exists i challenge receipt now key pid window identity record,
    (i < j)%nat /\ replies !! i = Some (Prepared (Ok challenge))
    /\ decode_receipt encoded = Ok receipt /\ XS.now samples = Ok now
    /\ approves runtime key challenge receipt now
    /\ registry_lookup (System.registry before)
         (UnsignedDecision.issuer_key_id (Signed.decision receipt))
       = Ok (Some (TrustState.Active key))
    /\ live_binding (Challenge.target challenge) = Some (pid, window, identity)
    /\ XS.observer samples pid window = Some identity
    /\ System.broker after !! Receipt.authorization_id opaque = Some record
    /\ Rec.binding record = None
    /\ Rec.registration record
       = challenge_registration challenge pid window
           (target_browser_scope (Challenge.target challenge))
           (UnsignedDecision.expires_at_unix_ms (Signed.decision receipt)).
Proof.
  intros replies before after Hs Hop Hj.
  destruct (run_lookup (cross_step runtime) s ops j _ Hj) as (op & Hop' & E).
  assert (op = OpConsume samples encoded) as -> by congruence.
  fold before in E. fold after in E. simpl in E.
  destruct (consume _ _ _ _ _ _) as [[v b] r] eqn:Ec. injection E as Ha Hr.
  rewrite Hr in Ec. apply consume_task in Ec as
    (receipt & now & challenge & key & pid & window & identity & Hacc & Hap & Ht & Hl
     & Hobs & Hreg & _).
  pose proof Hacc as (Hd & Hn & _).
  apply accepted_id in Hacc as [_ Hacc].
  destruct (run_origin (cross_step runtime)
    (fun s c => exists id record, VS.challenges (System.verifier s) !! id = Some record
                  /\ CRec.challenge record = c)
    (fun r c => r = Prepared (Ok c)) s ops j challenge)
    as [(id & record & Hr0 & _)|(i & r' & Hij & Hri & ->)].
  - intros s1 op1 s2 r1 E1 (id & record & Hrec & Hch).
    destruct (step_challenges _ _ _ _ _ _ _ E1 Hrec)
      as [(record0 & ? & ? & _)|(c & -> & _ & ->)]; [left | by right; simplify_eq/=].
    exists id, record0. split; [done | congruence].
  - eauto.
  - unfold cross_client_task_authorization in Hs. apply rbind_ok in Hs as (_ & _ & Hs).
    injection Hs as <-. simpl in Hr0. by rewrite lookup_empty in Hr0.
  - unfold register in Hreg. apply register_inner_ok in Hreg as
      (_ & _ & record & Hrec & Hnone & Hb).
    exists i, challenge, receipt, now, key, pid, window, identity, record.
    rewrite <- Ha. simpl. rewrite Hb, lookup_insert_eq. by split_and!.
Qed.

(** ** Revoking a key *)

Definition wf_registry (registry : TrustRegistry) : Prop :=
  forall id record, registry !! id = Some record ->
    Key.key_id (RegistryKey.key record) = id.

Definition revoked_key (id : string) (registry : TrustRegistry) : Prop :=
  exists record epoch, registry !! id = Some record
    /\ RegistryKey.revoked_at_epoch record = Some epoch.

Lemma register_keys_wf `{C : ReceiptCodec} keys records registry :
  register_keys records keys = Ok registry -> wf_registry records -> wf_registry registry.
Proof.
  revert records. induction keys as [|key keys IH]; intros records H Hwf;
    simpl in H; [by simplify_eq|].
  apply rbind_ok in H as (records' & H1 & H). apply (IH _ H). unfold register_key in H1.
  open_ok. subst. simplify_eq. intros id record Hr.
  destruct (decide (Key.key_id key = id)) as [<-|Hne].
  - rewrite lookup_insert_eq in Hr. by simplify_eq.
  - rewrite lookup_insert_ne in Hr by done. eauto.
Qed.

Lemma trust_revoke_spec key_id epoch registry registry' r :
  trust_revoke key_id epoch registry = (registry', r) ->
  (wf_registry registry -> wf_registry registry')
  /\ (forall id, revoked_key id registry -> revoked_key id registry')
  /\ (r = Ok tt -> revoked_key key_id registry').
Proof.
  unfold trust_revoke. intros H.
  destruct (_ || _); [by simplify_eq|].
  destruct (registry !! key_id) as [record|] eqn:Er; [|by simplify_eq].
  destruct (is_some_and _ _); [by simplify_eq|]. simplify_eq. split_and!.
  - intros Hwf id rec Hr. destruct (decide (key_id = id)) as [<-|Hne].
    + rewrite lookup_insert_eq in Hr. simplify_eq. simpl. eauto.
    + rewrite lookup_insert_ne in Hr by done. eauto.
  - intros id (rec & e & Hr & He). destruct (decide (key_id = id)) as [<-|Hne].
    + eexists _, _. by rewrite lookup_insert_eq.
    + exists rec, e. by rewrite lookup_insert_ne.
  - intros _. eexists _, _. by rewrite lookup_insert_eq.
Qed.

Lemma step_registry `{P : Platform, C : ReceiptCodec} runtime s op s' reply :
  cross_step runtime s op = (s', reply) ->
  (wf_registry (System.registry s) -> wf_registry (System.registry s'))
  /\ (forall id, revoked_key id (System.registry s) ->
        revoked_key id (System.registry s')).
Proof.
  intros H. destruct op; open_step H; try done.
  apply trust_revoke_spec in Eout as (? & ? & _). by split.
Qed.

(** The reply registers the authorization [id]. *)
Definition registers (reply : cross_reply) (id : string) : Prop :=
  match reply with
  | Consumed (Some (Ok (Task opaque))) => Receipt.authorization_id opaque = id
  | _ => False
  end.

Lemma consume_authorizations `{P : Platform, C : ReceiptCodec} runtime trust samples
    encoded v b v' b' r id provenance :
  consume runtime trust samples encoded v b = (v', b', r) ->
  VS.authorizations v' !! id = Some provenance ->
  VS.authorizations v !! id = Some provenance \/ registers (Consumed r) id.
Proof.
  intros H Hp. apply consume_cases in H as
    [(e & _ & [_ Ha] & _)|(receipt & now & challenge & key & v1 & _ & Hv1 & H)].
  { rewrite Ha in Hp. by left. }
  assert (VS.authorizations v1 = VS.authorizations v) as Ha.
  { rewrite Hv1. simpl. destruct (observe_clock now v) as [v2 r2] eqn:E.
    by apply observe_clock_records in E as [_ E]. }
  rewrite <- Ha. simpl in H.
  do 2 (case_match; [simplify_eq; by left|]).
  destruct r as [[c|e]|].
  - apply register_approved_ok in H as (pid & window & identity & opaque & -> & _ & _ & _ & E).
    rewrite E in Hp. destruct (decide (Receipt.authorization_id opaque = id)) as [Heq|Hne].
    + by right.
    + rewrite lookup_insert_ne in Hp by done.
      apply map_lookup_filter_Some in Hp as [Hp _]. by left.
  - unfold register_approved in H. repeat case_match; simplify_eq; by left.
  - unfold register_approved in H. repeat case_match; simplify_eq; by left.
Qed.

Lemma step_authorizations `{P : Platform, C : ReceiptCodec} runtime s op s' reply id provenance :
  cross_step runtime s op = (s', reply) ->
  VS.authorizations (System.verifier s') !! id = Some provenance ->
  VS.authorizations (System.verifier s) !! id = Some provenance \/ registers reply id.
Proof.
  intros H Hr. destruct op; open_step H; simpl in Hr.
  - apply prepare_challenges in Eout as [Ha _]. rewrite Ha in Hr. by left.
  - by eapply consume_authorizations.
  - apply cross_authorize_records in Eout as [-> _].
    rewrite (proj2 (host_gate_same _ _ _ _ _ _)) in Hr. by left.
  - apply cross_validate_records in Eout as [-> _].
    rewrite (proj2 (host_gate_same _ _ _ _ _ _)) in Hr. by left.
  - apply cross_validate_lease_records in Eout as [-> _].
    rewrite (proj2 (host_gate_same _ _ _ _ _ _)) in Hr. by left.
  - by left.
Qed.

(** The reply of the host lets something be done under the authorization [id]. *)
Definition cross_confers (op : cross_op) (reply : cross_reply) (id : string) : Prop :=
  match op, reply with
  | OpCrossAuthorize _ _ _ request, CrossLease (Ok _) =>
      AuthReq.authorization_id request = id
  | OpCrossValidate _ _ request, CrossDecision (Ok decision) =>
      ValReq.authorization_id request = id /\ ValDecision.status decision = Active
  | OpCrossValidateLease _ _ request, CrossDecision (Ok decision) =>
      LeaseReq.authorization_id request = id /\ ValDecision.status decision = Active
  | _, _ => False
  end.

Lemma step_cross_confers `{P : Platform, C : ReceiptCodec} runtime s op s' reply id :
  cross_step runtime s op = (s', reply) -> cross_confers op reply id ->
  exists provenance, VS.authorizations (System.verifier s) !! id = Some provenance
    /\ live_key (registry_lookup (System.registry s)) provenance = Ok Active.
Proof.
  intros H Hc. destruct op; simpl in Hc; try done; simpl in H.
  - destruct (cross_authorize _ _ _ _ _ _ _) as [[v b] r] eqn:E. simplify_eq.
    destruct r as [lease|]; [|done]. unfold cross_authorize in E.
    destruct (host_gate _ _ _ _ _ _) as [v1 [[]|e]] eqn:Eg; [|done..].
    apply host_gate_ok in Eg as (now' & p & _ & _ & Hp & _ & Hl). rewrite <- Hc. eauto.
  - destruct (cross_validate _ _ _ _ _ _) as [[v b] r] eqn:E. simplify_eq.
    destruct r as [d|]; [|done]. destruct Hc as [<- Hd]. unfold cross_validate in E.
    destruct (host_gate _ _ _ _ _ _) as [v1 [[]|e]] eqn:Eg; [|by simplify_eq..].
    apply host_gate_ok in Eg as (now' & p & _ & _ & Hp & _ & Hl). eauto.
  - destruct (cross_validate_lease _ _ _ _ _ _) as [[v b] r] eqn:E. simplify_eq.
    destruct r as [d|]; [|done]. destruct Hc as [<- Hd]. unfold cross_validate_lease in E.
    destruct (host_gate _ _ _ _ _ _) as [v1 [[]|e]] eqn:Eg; [|by simplify_eq..].
    apply host_gate_ok in Eg as (now' & p & _ & _ & Hp & _ & Hl). eauto.
Qed.

Lemma revoked_not_active id registry key :
  revoked_key id registry -> registry_lookup registry id <> Ok (Some (TrustState.Active key)).
Proof. intros (record & e & Hr & He). unfold registry_lookup. by rewrite Hr, He. Qed.

Lemma run_revoked `{P : Platform, C : ReceiptCodec} runtime s ops i j key_id epoch r :
  (i < j)%nat -> ops !! i = Some (OpTrustRevoke key_id epoch) ->
  (run (cross_step runtime) s ops).2 !! i = Some (TrustRevoked (Ok tt)) ->
  (run (cross_step runtime) s ops).2 !! j = Some r ->
  revoked_key key_id (System.registry (run (cross_step runtime) s (take j ops)).1).
Proof.
  intros Hij Hop Hi Hj.
  destruct (run_between (cross_step runtime) (fun _ => True) s ops i j
    (TrustRevoked (Ok tt)) r) as (op & op' & Hop' & _ & _ & Ei & _ & _ & HD); [done..|]. simplify_eq.
  apply (HD (fun s => revoked_key key_id (System.registry s))).
  - intros k sk op sk' r' _ _ _ E _. by apply (step_registry _ _ _ _ _ E).
  - simpl in Ei. destruct (trust_revoke _ _ _) as [registry r'] eqn:E.
    injection Ei as <- ->. apply trust_revoke_spec in E as (_ & _ & E). by apply E.
Qed.

Lemma lookup_key_id registry id key :
  wf_registry registry -> registry_lookup registry id = Ok (Some (TrustState.Active key)) ->
  Key.key_id key = id.
Proof.
  unfold registry_lookup. intros Hwf Ht. destruct (registry !! id) as [record|] eqn:Er;
    [|done]. destruct (RegistryKey.revoked_at_epoch record); simplify_eq. by apply Hwf.
Qed.

Lemma initial_registry `{C : ReceiptCodec} runtime keys registry s :
  trusted_task_authorization_trust_registry keys = Ok registry ->
  cross_client_task_authorization runtime registry = Ok s ->
  wf_registry (System.registry s).
Proof.
  unfold cross_client_task_authorization, trusted_task_authorization_trust_registry.
  intros Hkeys (_ & _ & [= <-])%rbind_ok. destruct (_ || _); [done|].
  by eapply register_keys_wf.
Qed.

(** The authorization a receipt registered stays attached to the receipt's key. *)
Lemma run_provenance `{P : Platform, C : ReceiptCodec} runtime s ops h j samples encoded
    receipt opaque r provenance :
  let before := run (cross_step runtime) s (take j ops) in
  let id := Receipt.authorization_id opaque in
  wf_registry (System.registry s) -> (h < j)%nat ->
  ops !! h = Some (OpConsume samples encoded) -> decode_receipt encoded = Ok receipt ->
  (run (cross_step runtime) s ops).2 !! h = Some (Consumed (Some (Ok (Task opaque)))) ->
  (run (cross_step runtime) s ops).2 !! j = Some r ->
  (forall k r, (h < k < j)%nat -> (run (cross_step runtime) s ops).2 !! k = Some r ->
     ~ registers r id) ->
  VS.authorizations (System.verifier before.1) !! id = Some provenance ->
  Key.key_id (Provenance.key provenance)
  = UnsignedDecision.issuer_key_id (Signed.decision receipt).
Proof.
  intros before id Hwf Hhj Hoph Hd Hh Hj Hno.
  assert (forall s op, wf_registry (System.registry s) ->
            wf_registry (System.registry (cross_step runtime s op).1)) as Hstep.
  { intros s0 op. destruct (cross_step runtime s0 op) eqn:E0.
    by apply (step_registry _ _ _ _ _ E0). }
  destruct (run_between _ (fun s => wf_registry (System.registry s)) _ _ _ _ _ _
    Hstep Hwf Hhj Hh Hj) as (oph & opj & Hoph' & _ & HI & Eh & _ & _ & HD).
  simplify_eq. revert provenance.
  apply (HD (fun s => forall p, VS.authorizations (System.verifier s) !! id = Some p ->
    Key.key_id (Provenance.key p)
    = UnsignedDecision.issuer_key_id (Signed.decision receipt))).
  - intros k sk op sk' r' Hkj _ Hr E _ HDk p' Hp'.
    destruct (step_authorizations _ _ _ _ _ _ _ E Hp') as [?|Hreg]; [eauto|].
    by destruct (Hno _ _ Hkj Hr Hreg).
  - simpl in Eh. destruct (consume _ _ _ _ _ _) as [[v b] r'] eqn:Ec.
    injection Eh as <- ->. apply consume_task in Ec as
      (receipt' & now & challenge & key & pid & window & identity & Hacc & _ & Ht & _
       & _ & _ & Ha). simpl. intros p' Hp'.
    destruct Hacc as (Hd' & _). rewrite Hd in Hd'. injection Hd' as <-.
    unfold id in Hp'. rewrite Ha in Hp'. injection Hp' as <-. simpl.
    by eapply lookup_key_id.
Qed.

(** C33: revoking a key ends everything it signed.  Once the administrator has
    revoked a key, no receipt signed in its name is consumed any more, and the host
    confers nothing, neither a lease nor an [Active] decision, under any
    authorization that was registered from such a receipt, however long before the
    revocation; unless an authorization is registered again under the same
    identifier, which the broker never draws while it holds it. *)
Theorem revoked_key_confers_nothing `{P : Platform, C : ReceiptCodec}
    (runtime : Runtime.CrossClientTaskAuthorizationRuntime)
    (keys : list Key.TrustedTaskAuthorizationKey) (registry : TrustRegistry)
    (s : System.System) (ops : list cross_op) (i j : nat) (key_id : string) (epoch : Z)
    (op_j : cross_op) (r_j : cross_reply) :
  let replies := (run (cross_step runtime) s ops).2 in
  trusted_task_authorization_trust_registry keys = Ok registry ->
  cross_client_task_authorization runtime registry = Ok s ->
  (i < j)%nat -> ops !! i = Some (OpTrustRevoke key_id epoch) ->
  replies !! i = Some (TrustRevoked (Ok tt)) ->
  ops !! j = Some op_j -> replies !! j = Some r_j ->
  (forall samples encoded receipt c,
     op_j = OpConsume samples encoded -> decode_receipt encoded = Ok receipt ->
     UnsignedDecision.issuer_key_id (Signed.decision receipt) = key_id ->
     r_j <> Consumed (Some (Ok c)))
  /\ (forall h samples encoded receipt opaque,
     (h < j)%nat -> ops !! h = Some (OpConsume samples encoded) ->
     replies !! h = Some (Consumed (Some (Ok (Task opaque)))) ->
     decode_receipt encoded = Ok receipt ->
     UnsignedDecision.issuer_key_id (Signed.decision receipt) = key_id ->
     (forall k r, (h < k < j)%nat -> replies !! k = Some r ->
        ~ registers r (Receipt.authorization_id opaque)) ->
     ~ cross_confers op_j r_j (Receipt.authorization_id opaque)).
Proof.
  intros replies Hkeys Hs Hij Hopi Hi Hopj Hj.
  pose proof (run_revoked _ _ _ _ _ _ _ _ Hij Hopi Hi Hj) as Hrev.
  destruct (run_lookup (cross_step runtime) s ops j _ Hj) as (op & Hop & Ej).
  simplify_eq. split.
  - intros samples encoded receipt c -> Hd Hk ->.
    destruct (consume_success _ _ _ _ _
        (UnsignedDecision.challenge_id (Signed.decision receipt)) Ej) as
      (samples' & encoded' & receipt' & now & challenge & key & Heq & Hacc & _);
      [by exists receipt|]. simplify_eq.
    destruct Hacc as (Hd' & _ & _ & _ & Hacc). rewrite Hd in Hd'. injection Hd' as <-.
    apply check_decision_ok in Hacc as (_ & Ht & _).
    exact (revoked_not_active _ _ _ Hrev Ht).
  - intros h samples encoded receipt opaque Hhj Hoph Hh Hd Hk Hno Hc.
    destruct (step_cross_confers _ _ _ _ _ _ Ej Hc) as (p & Hp & Hlive).
    eapply (run_provenance runtime s ops h j) in Hp; [|by eauto using initial_registry..].
    unfold live_key in Hlive. rewrite Hp, Hk in Hlive.
    apply rbind_ok in Hlive as (found & Hf%rmap_err_ok & Hlive).
    destruct found as [[key|]|]; [|done..]. exact (revoked_not_active _ _ _ Hrev Hf).
Qed.

(** ** The clock *)

(** The reading of the clock that the operation records, if it gets that far. *)
Definition observes `{P : Platform, C : ReceiptCodec} (op : cross_op) : option Z :=
  match op with
  | OpPrepare samples request =>
      match XS.now samples with
      | Ok now =>
          if is_ok (check? validate_challenge_request request now in
                    validate_live_target (XS.observer samples)
                      (ChallengeReq.target request))
          then Some now else None
      | Err _ => None
      end
  | OpConsume samples encoded =>
      match (check? decode_receipt encoded in XS.now samples) with
      | Ok now => Some now
      | Err _ => None
      end
  | OpCrossAuthorize samples _ _ _ | OpCrossValidate samples _ _
  | OpCrossValidateLease samples _ _ =>
      match XS.now samples with Ok now => Some now | Err _ => None end
  | OpTrustRevoke _ _ => None
  end.

(** The operation was refused; revoking a key involves no clock. *)
Definition refused_reply (reply : cross_reply) : Prop :=
  match reply with
  | Prepared (Err _) | Consumed (Some (Err _)) | CrossLease (Err _)
  | CrossDecision (Err _) | TrustRevoked _ => True
  | _ => False
  end.

Definition same_clock (v v' : VS.VerifierState) : Prop :=
  VS.last_observed_unix_ms v' = VS.last_observed_unix_ms v
  /\ VS.clock_failed v' = VS.clock_failed v.

Lemma prepare_clock `{P : Platform, C : ReceiptCodec} runtime samples request v v' r :
  prepare runtime samples request v = (v', r) ->
  same_clock (match observes (OpPrepare samples request) with
              | Some now => (observe_clock now v).1 | None => v end) v'.
Proof.
  unfold prepare. simpl. destruct (XS.now samples) as [now|e]; [|by intros [= <- _]].
  destruct (rbind _ _) as [u|e]; simpl; [|by intros [= <- _]].
  destruct (observe_clock now v) as [v1 [u'|e]]; simpl; [|by intros [= <- _]].
  destruct (_ <=? _); [by intros [= <- _]|].
  by destruct (challenge_digest _); intros [= <- _].
Qed.

Lemma consume_clock `{P : Platform, C : ReceiptCodec} runtime trust samples encoded
    v b v' b' r :
  consume runtime trust samples encoded v b = (v', b', r) ->
  same_clock (match observes (OpConsume samples encoded) with
              | Some now => (observe_clock now v).1 | None => v end) v'.
Proof.
  unfold consume. simpl. destruct (decode_receipt encoded) as [receipt|e]; simpl;
    [|by intros [= <- _ _]].
  destruct (XS.now samples) as [now|e]; simpl; [|by intros [= <- _ _]].
  destruct (observe_clock now v) as [v1 r1].
  destruct (rbind r1 _) as [[[challenge key] challenges]|e]; [|by intros [= <- _ _]].
  do 2 (case_match; [by intros [= <- _ _]|]).
  intros Hr. apply register_approved_keeps in Hr as (_ & ? & ? & _). by split.
Qed.

Lemma host_gate_clock trust samples id pid window v :
  same_clock (match XS.now samples with
              | Ok now => (observe_clock now v).1 | Err _ => v end)
    (host_gate trust samples id pid window v).1.
Proof.
  unfold host_gate, validate_clock. destruct (XS.now samples); [|done].
  by destruct (observe_clock _ _).
Qed.

Lemma step_clock `{P : Platform, C : ReceiptCodec} runtime s op s' reply :
  cross_step runtime s op = (s', reply) ->
  same_clock (match observes op with
              | Some now => (observe_clock now (System.verifier s)).1
              | None => System.verifier s end) (System.verifier s').
Proof.
  intros H. destruct op; open_step H; simpl System.verifier.
  - by eapply prepare_clock.
  - by eapply consume_clock.
  - apply cross_authorize_records in Eout as [-> _]. simpl.
    pose proof (host_gate_clock (registry_lookup (System.registry s)) samples
      (AuthReq.authorization_id request) (AuthReq.target_process_id request)
      (AuthReq.target_window_handle request) (System.verifier s)) as Hc.
    by destruct (XS.now samples).
  - apply cross_validate_records in Eout as [-> _]. simpl.
    pose proof (host_gate_clock (registry_lookup (System.registry s)) samples
      (ValReq.authorization_id request) (ValReq.target_process_id request)
      (ValReq.target_window_handle request) (System.verifier s)) as Hc.
    by destruct (XS.now samples).
  - apply cross_validate_lease_records in Eout as [-> _]. simpl.
    pose proof (host_gate_clock (registry_lookup (System.registry s)) samples
      (LeaseReq.authorization_id request) (LeaseReq.target_process_id request)
      (LeaseReq.target_window_handle request) (System.verifier s)) as Hc.
    by destruct (XS.now samples).
  - done.
Qed.

Lemma observe_clock_failed now v :
  VS.clock_failed v = true -> observe_clock now v = (v, Err CrossErr.ClockRollback).
Proof. unfold observe_clock. by intros ->. Qed.

Lemma host_gate_failed trust samples id pid window v :
  VS.clock_failed v = true ->
  exists e, (host_gate trust samples id pid window v).2 = Err e.
Proof.
  intros Hf. unfold host_gate, validate_clock.
  destruct (XS.now samples) as [now|e]; [|by eexists].
  rewrite observe_clock_failed by done. by eexists.
Qed.

Lemma step_refused `{P : Platform, C : ReceiptCodec} runtime s op s' reply :
  cross_step runtime s op = (s', reply) -> VS.clock_failed (System.verifier s) = true ->
  refused_reply reply.
Proof.
  intros H Hf. destruct op; simpl in H.
  - unfold prepare in H. destruct (XS.now samples); [|by simplify_eq].
    destruct (rbind _ _); [|by simplify_eq].
    rewrite observe_clock_failed in H by done. by simplify_eq.
  - unfold consume in H. destruct (rbind _ _) as [[receipt now]|]; [|by simplify_eq].
    rewrite observe_clock_failed in H by done. by simplify_eq/=.
  - unfold cross_authorize in H. destruct (host_gate _ _ _ _ _ _) as [v g] eqn:E.
    edestruct host_gate_failed as [e He]; [exact Hf|].
    rewrite E in He. simpl in He. subst g. by simplify_eq.
  - unfold cross_validate in H. destruct (host_gate _ _ _ _ _ _) as [v g] eqn:E.
    edestruct host_gate_failed as [e He]; [exact Hf|].
    rewrite E in He. simpl in He. subst g. by simplify_eq.
  - unfold cross_validate_lease in H. destruct (host_gate _ _ _ _ _ _) as [v g] eqn:E.
    edestruct host_gate_failed as [e He]; [exact Hf|].
    rewrite E in He. simpl in He. subst g. by simplify_eq.
  - destruct (trust_revoke _ _ _). by simplify_eq.
Qed.

(** The clock was seen at [t] or later, or has failed. *)
Definition clock_past (t : Z) (v : VS.VerifierState) : Prop :=
  VS.clock_failed v = true
  \/ exists last, VS.last_observed_unix_ms v = Some last /\ t <= last.

Lemma observe_clock_past now t v :
  clock_past t v -> clock_past t (observe_clock now v).1.
Proof.
  unfold clock_past, observe_clock. intros [Hf|(last & Hl & Hle)]; [rewrite Hf; by left|].
  destruct (VS.clock_failed v) eqn:Hf; [by left|].
  destruct (is_err _); [right; by exists last|].
  rewrite Hl. simpl. destruct (now <? last) eqn:E; [by left|]. apply Z.ltb_ge in E.
  right. exists now. split; [done | lia].
Qed.

Lemma observe_clock_reaches now v :
  now <= MAX_SAFE_JSON_INTEGER -> clock_past now (observe_clock now v).1.
Proof.
  unfold clock_past, observe_clock, validate_safe_integer. intros H.
  destruct (VS.clock_failed v) eqn:Hf; [by left|].
  rewrite (proj2 (Z.ltb_ge _ _) H). simpl. destruct (is_some_and _ _); [by left|].
  right. exists now. split; [done | lia].
Qed.

Lemma observe_clock_rollback now t v :
  now < t -> now <= MAX_SAFE_JSON_INTEGER -> clock_past t v ->
  VS.clock_failed (observe_clock now v).1 = true.
Proof.
  unfold clock_past, observe_clock, validate_safe_integer.
  intros Hlt Hle [Hf|(last & Hl & Htl)]; [by rewrite Hf|].
  destruct (VS.clock_failed v) eqn:Hf; [done|].
  rewrite (proj2 (Z.ltb_ge _ _) Hle). simpl. rewrite Hl. simpl.
  by rewrite (proj2 (Z.ltb_lt now last)) by lia.
Qed.

#[export] Instance clock_past_proper : Proper (eq ==> same_clock ==> iff) clock_past.
Proof. intros t _ <- v v' [Hl Hf]. unfold clock_past. by rewrite Hl, Hf. Qed.

Lemma step_clock_past `{P : Platform, C : ReceiptCodec} runtime s op s' reply t :
  cross_step runtime s op = (s', reply) ->
  clock_past t (System.verifier s) -> clock_past t (System.verifier s').
Proof.
  intros H Hp. rewrite <- (step_clock _ _ _ _ _ H).
  destruct (observes op); [by apply observe_clock_past | done].
Qed.

Lemma step_clock_failed `{P : Platform, C : ReceiptCodec} runtime s op s' reply :
  cross_step runtime s op = (s', reply) ->
  VS.clock_failed (System.verifier s) = true -> VS.clock_failed (System.verifier s') = true.
Proof.
  intros H Hf. destruct (step_clock _ _ _ _ _ H) as [_ ->].
  destruct (observes op); [by rewrite observe_clock_failed | done].
Qed.

(** C38: the clock latch.  When an operation records an earlier reading of the clock
    than one recorded before it, every later operation of the verifier and of its
    host is refused, for good: no challenge, no consumption, no lease, no decision.
    The readings only have to be recorded in the wrong order: each operation reads
    the clock before it takes the lock, so two concurrent operations whose readings
    are a millisecond apart are enough, with a clock that never went back. *)
Theorem clock_rollback_stops_everything `{P : Platform, C : ReceiptCodec}
    (runtime : Runtime.CrossClientTaskAuthorizationRuntime) (s : System.System)
    (ops : list cross_op) (i j k : nat) (op_i op_j : cross_op) (t_i t_j : Z)
    (r_k : cross_reply) :
  let replies := (run (cross_step runtime) s ops).2 in
  (i < j < k)%nat ->
  ops !! i = Some op_i -> observes op_i = Some t_i -> t_i <= MAX_SAFE_JSON_INTEGER ->
  ops !! j = Some op_j -> observes op_j = Some t_j -> t_j < t_i ->
  replies !! k = Some r_k -> refused_reply r_k.
Proof.
  intros replies [Hij Hjk] Hopi Hoi Hti Hopj Hoj Htj Hk.
  assert (forall n op, ops !! n = Some op -> exists r, replies !! n = Some r) as Hlen.
  { intros n op Hn%lookup_lt_Some. apply lookup_lt_is_Some. unfold replies.
    by rewrite length_run. }
  destruct (Hlen i op_i Hopi) as [r_i Hi], (Hlen j op_j Hopj) as [r_j Hj].
  destruct (run_between (cross_step runtime) (fun _ => True) s ops i j r_i r_j)
    as (opi & opj & ? & ? & _ & Ei & _ & Ej & HDi); [done..|].
  destruct (run_between (cross_step runtime) (fun _ => True) s ops j k r_j r_k)
    as (_ & opk & _ & _ & _ & _ & _ & Ek & HDk); [done..|]. simplify_eq.
  eapply step_refused; [exact Ek|].
  apply (HDk (fun s => VS.clock_failed (System.verifier s) = true)).
  { intros k' sk op sk' r _ _ _ E _. by apply (step_clock_failed _ _ _ _ _ E). }
  destruct (step_clock _ _ _ _ _ Ej) as [_ ->]. rewrite Hoj.
  apply (observe_clock_rollback _ t_i); [done | lia |].
  apply (HDi (fun s => clock_past t_i (System.verifier s))).
  { intros k' sk op sk' r _ _ _ E _. by apply (step_clock_past _ _ _ _ _ _ E). }
  rewrite <- (step_clock _ _ _ _ _ Ei), Hoi. by apply observe_clock_reaches.
Qed.

(** ** An approved challenge can be registered *)

Lemma cross_identity_shape value max :
  cross_validate_identity value max = Ok tt <-> identity_shape value max = true.
Proof.
  unfold cross_validate_identity, challenge_guard, identity_shape.
  rewrite negb_true_iff. destruct (_ || _); naive_solver.
Qed.

Lemma challenge_guard_ok b : challenge_guard b = Ok tt <-> b = false.
Proof. unfold challenge_guard, invalid_challenge. destruct b; naive_solver. Qed.

Lemma as_error_ok {A} e (r : xresult A) a : as_error e r = Ok a <-> r = Ok a.
Proof. apply rmap_err_ok. Qed.
#[export] Hint Rewrite challenge_guard_ok @as_error_ok cross_identity_shape : result_ok.

Lemma broker_identity_ok value max name :
  validate_broker_identity value max name = Ok tt <-> identity_shape value max = true.
Proof.
  unfold validate_broker_identity. rewrite invalid_if_ok. by destruct (identity_shape _ _).
Qed.

(** What [validate_challenge_request] promises of a challenge for an exact window or
    an exact browser. *)
Definition challenge_promise `{P : Platform}
    (request : ChallengeReq.CrossClientTaskAuthorizationChallengeRequest) (now : Z) : Prop :=
  let methods := ChallengeReq.allowed_host_methods request in
  let actions := ChallengeReq.allowed_actions request in
  let origins := ChallengeReq.allowed_browser_origins request in
  identity_shape (ChallengeReq.task_id request) 256 = true
  /\ identity_shape (ChallengeReq.connection_id request) 256 = true
  /\ identity_shape (ChallengeReq.task_grant_id request) MAX_TASK_GRANT_ID_CHARS = true
  /\ identity_shape (ChallengeReq.application_label request) MAX_APPLICATION_LABEL_CHARS
     = true
  /\ saturating_sub (ChallengeReq.expires_at_unix_ms request) now
     <= MAX_TASK_AUTHORIZATION_TTL_MS
  /\ (set_len methods =? 0) || negb (set_len methods =? len methods)
     || (64 <? set_len methods) = false
  /\ existsb (fun method => negb (is_task_authorizable_host_method method)) methods = false
  /\ negb (set_len actions =? len actions)
     || (MAX_TASK_AUTHORIZATION_ACTIONS <? set_len actions)
     || negb (forallb validate_action_scope actions) = false
  /\ negb (set_len origins =? len origins)
     || (MAX_TASK_AUTHORIZATION_ACTIONS <? set_len origins)
     || existsb (fun origin => negb (valid_browser_origin origin)) origins = false
  /\ cross_validate_target (ChallengeReq.target request) = Ok tt
  /\ validate_target_scope request = Ok tt.

Lemma validate_challenge_request_promise `{P : Platform} request now :
  validate_challenge_request request now = Ok tt ->
  CrossTarget.is_bootstrap (ChallengeReq.target request) = false ->
  challenge_promise request now.
Proof.
  unfold validate_challenge_request, challenge_promise. intros H Hb. rewrite Hb in H.
  apply rbind_ok in H as (_ & _ & H). apply rbind_ok in H as ([] & H1 & H).
  apply rbind_ok in H as ([] & H2 & H). apply rbind_ok in H as ([] & H3 & H).
  apply rbind_ok in H as ([] & H4 & H). apply rbind_ok in H as (_ & _ & H).
  apply rbind_ok in H as (_ & _ & H). apply rbind_ok in H as (_ & _ & H).
  apply rbind_ok in H as (_ & _ & H).
  apply rbind_ok in H as ([] & H5%challenge_guard_ok & H).
  apply rbind_ok in H as ([] & H6 & H).
  apply rbind_ok in H as ([] & H7%challenge_guard_ok & H).
  apply rbind_ok in H as ([] & H8%challenge_guard_ok & H).
  apply rbind_ok in H as ([] & H9%challenge_guard_ok & H).
  apply rbind_ok in H as ([] & H10%challenge_guard_ok & H).
  apply cross_identity_shape in H1, H2, H3, H4.
  apply orb_false_iff in H5 as [_ H5%Z.ltb_ge]. apply orb_false_iff in H7 as [H7 _].
  apply orb_false_iff in H9 as [H9 _]. apply orb_false_iff in H9 as [H9 H9'].
  apply orb_false_iff in H9 as [H9 H9'']. apply orb_false_iff in H9 as [_ H9].
  rewrite H9, H9', H9''. by split_and!.
Qed.

(** The window and the browser scope of an accepted target. *)
Lemma accepted_target_scope `{P : Platform} request pid window identity :
  live_binding (ChallengeReq.target request) = Some (pid, window, identity) ->
  CrossTarget.is_bootstrap (ChallengeReq.target request) = false ->
  cross_validate_target (ChallengeReq.target request) = Ok tt ->
  validate_target_scope request = Ok tt ->
  (pid =? 0) || (window =? 0) = false
  /\ is_some_and (fun scope =>
       negb (validate_browser_scope scope) || negb (is_exact_window (ExactWindow pid window))
       || (ChallengeReq.allowed_browser_origins request != [BrowserScope.origin scope])
       || negb ("browser_snapshot" ∈? ChallengeReq.allowed_host_methods request))
       (target_browser_scope (ChallengeReq.target request)) = false.
Proof.
  intros Hl Hb Ht Hs. unfold validate_target_scope in Hs.
  destruct (ChallengeReq.target request); simplify_eq/=;
    apply rbind_ok in Ht as ([] & [[] [Hw%challenge_guard_ok _]]%rbind_ok & Ht);
    (split; [done|]); [done|].
  apply challenge_guard_ok in Hs.
  apply orb_false_iff in Hs as [Hs _]. apply orb_false_iff in Hs as [Hs _].
  apply orb_false_iff in Hs as [-> Hsnap%negb_false_iff].
  apply existsb_true in Hsnap as (m & Hm & ->%bool_decide_eq_true).
  rewrite (bool_decide_eq_true_2 _ Hm).
  apply rbind_ok in Ht as ([] & Hids & Ho%challenge_guard_ok%negb_false_iff).
  apply rbind_ok in Hids as ([] & _ & Hids).
  apply rbind_ok in Hids as ([] & Hh%cross_identity_shape & Hids).
  apply rbind_ok in Hids as ([] & Htab%cross_identity_shape & Hids).
  apply rbind_ok in Hids as ([] & Hdoc%cross_identity_shape & _).
  unfold MAX_IDENTITY_CHARS in *. unfold validate_browser_scope. simpl.
  by rewrite Ho, Hh, Htab, Hdoc.
Qed.

(** C39: approval is not asked for in vain, with one exception.  Of a challenge that
    [prepare] accepts, an approval that expires in time can be registered with the
    broker exactly when the challenge names no capture preparation, whatever the files
    are then.  A challenge that does is accepted, shown and signed like any other, but
    its approval can only be consumed and lost: the registration carries no journal
    permission, so the broker always refuses it. *)
Theorem accepted_challenge_registers_iff `{P : Platform}
    (runtime : Runtime.CrossClientTaskAuthorizationRuntime)
    (request : ChallengeReq.CrossClientTaskAuthorizationChallengeRequest)
    (challenge_id nonce digest identity : string) (now0 now expires pid window : Z)
    (files : string -> option Metadata.Metadata) :
  let challenge := new_challenge runtime request now0 challenge_id nonce digest in
  validate_challenge_request request now0 = Ok tt ->
  CrossTarget.is_bootstrap (ChallengeReq.target request) = false ->
  live_binding (ChallengeReq.target request) = Some (pid, window, identity) ->
  now0 <= now < expires -> expires <= ChallengeReq.expires_at_unix_ms request ->
  validate_registration (P := at_files files) now
    (challenge_registration challenge pid window
       (target_browser_scope (Challenge.target challenge)) expires) = Ok tt
  <-> existsb (starts_with "capture_preparation_")
        (ChallengeReq.allowed_host_methods request) = false
      /\ existsb is_capture_preparation (ChallengeReq.allowed_actions request) = false.
Proof.
  intros challenge Hv Hb Hl Hnow Hexp.
  destruct (validate_challenge_request_promise _ _ Hv Hb) as
    (H1 & H2 & H3 & H4 & H5 & H6 & H7 & H8 & H9 & H10 & H11).
  destruct (accepted_target_scope _ _ _ _ Hl Hb H10 H11) as [Hw Hscope].
  assert ((expires <=? now)
    || (MAX_TASK_AUTHORIZATION_TTL_MS <? saturating_sub expires now) = false) as Htime.
  { unfold saturating_sub in *. apply orb_false_iff. rewrite Z.leb_gt, Z.ltb_ge. lia. }
  unfold validate_registration, challenge_registration, challenge, new_challenge.
  change (@valid_browser_origin (at_files files)) with (@valid_browser_origin P).
  change (@validate_action_scope (at_files files)) with (@validate_action_scope P).
  change (@validate_browser_scope (at_files files)) with (@validate_browser_scope P). cbn [
    Reg.allowed_host_methods Reg.allowed_actions Reg.allowed_browser_origins Reg.target
    Reg.connection_id Reg.task_id Reg.task_grant_id Reg.application_label
    Reg.expires_at_unix_ms Reg.capture_preparation Reg.recording_output_dir
    Reg.browser_scope Challenge.connection_id Challenge.task_id Challenge.task_grant_id
    Challenge.application_label Challenge.allowed_host_methods Challenge.allowed_actions
    Challenge.allowed_browser_origins Challenge.target is_some is_some_and].
  rewrite !(proj2 (broker_identity_ok _ _ _)) by done.
  rewrite Hw, Htime, H8, H7, orb_false_r, H6, H9, Hscope. cbn [rbind invalid_if].
  destruct (existsb (starts_with _) _), (existsb is_capture_preparation _); naive_solver.
Qed.

(** ** Witnesses *)

Definition sample_audience : Audience.CrossClientTaskAuthorizationAudience := {|
  Audience.client_id := "phone"; Audience.tenant_id := "studio"; Audience.user_id := "ann" |}.
Definition sample_key : Key.TrustedTaskAuthorizationKey := {|
  Key.key_id := "k"; Key.audience := sample_audience; Key.verifying_key := [42] |}.
Definition sample_runtime : Runtime.CrossClientTaskAuthorizationRuntime := {|
  Runtime.runtime_version := "1.0"; Runtime.runtime_instance_id := "rt";
  Runtime.boot_generation := 3 |}.
Definition sample_target : CrossTarget.CrossClientTaskAuthorizationTarget :=
  CrossTarget.ExactWindow 7 "born" 9.
Definition sample_challenge_request (methods : list string)
    : ChallengeReq.CrossClientTaskAuthorizationChallengeRequest := {|
  ChallengeReq.audience := sample_audience; ChallengeReq.task_id := "s";
  ChallengeReq.connection_id := "c"; ChallengeReq.task_grant_id := "g";
  ChallengeReq.application_label := "Maya"; ChallengeReq.purpose := "click";
  ChallengeReq.target := sample_target; ChallengeReq.allowed_host_methods := methods;
  ChallengeReq.allowed_actions := [sample_scope];
  ChallengeReq.allowed_browser_origins := [];
  ChallengeReq.secret_handle_policy := Forbidden;
  ChallengeReq.irreversible_operation := None;
  ChallengeReq.expires_at_unix_ms := 5000 |}.

(** The receipt whose canonical encoding is [[1]], and its toy codec: the signature
    [[8]] is valid under the key [[42]]. *)
Definition sample_receipt : Signed.CrossClientTaskAuthorizationSignedDecision := {|
  Signed.decision := {|
    UnsignedDecision.schema := CROSS_CLIENT_TASK_AUTHORIZATION_RECEIPT_SCHEMA;
    UnsignedDecision.issuer_key_id := "k"; UnsignedDecision.audience := sample_audience;
    UnsignedDecision.runtime_instance_id := "rt"; UnsignedDecision.boot_generation := 3;
    UnsignedDecision.challenge_id := "task-challenge-u"; UnsignedDecision.nonce := "n";
    UnsignedDecision.challenge_sha256 := "sha256:d";
    UnsignedDecision.decision := SignedChoice.Allow;
    UnsignedDecision.issued_at_unix_ms := 1050;
    UnsignedDecision.expires_at_unix_ms := 4000 |};
  Signed.signature := "sig" |}.

#[local] Instance sample_codec : ReceiptCodec := {|
  from_slice encoded := if encoded == [1] then Some sample_receipt else None;
  jcs_receipt _ := Some [1];
  jcs_decision _ := Some [2];
  jcs_challenge _ := Some [3];
  sha256_hex _ := "d";
  base64_encode _ := "n";
  base64_decode _ := Some [8];
  verifying_key_valid key := key == [42];
  signature_valid _ := true;
  verify_strict key _ signature := (key == [42]) && (signature == [8]) |}.

Definition sample_cross_samples (t : Z) : XS.CrossSamples := {|
  XS.now := Ok t;
  XS.observer pid window := if (pid =? 7) && (window =? 9) then Some "born" else None;
  XS.challenge_uuid := "u"; XS.nonce_bytes := [5]; XS.broker := sample_samples t |}.

Definition sample_registry : TrustRegistry :=
  {["k" := {| RegistryKey.key := sample_key; RegistryKey.revoked_at_epoch := None |}]}.
Definition sample_system : System.System := {|
  System.verifier := VS.default; System.broker := ∅; System.registry := sample_registry |}.

Definition sample_prepare (t : Z) : cross_op :=
  OpPrepare (sample_cross_samples t)
    (sample_challenge_request ["execute_action"; "snapshot"]).
Definition sample_consume (t : Z) : cross_op := OpConsume (sample_cross_samples t) [1].
Definition sample_ask (t : Z) : cross_op :=
  OpCrossAuthorize (sample_cross_samples t) (sample_clock t) t
    {| AuthReq.schema := TRUSTED_TASK_AUTHORIZATION_SCHEMA; AuthReq.request_id := "r";
       AuthReq.connection_id := "c"; AuthReq.authorization_id := "task-auth-u1";
       AuthReq.session_id := "s"; AuthReq.task_grant_id := "g";
       AuthReq.application_label := "Maya"; AuthReq.window_capability := "cua-window-c1";
       AuthReq.target_process_id := 7; AuthReq.target_window_handle := 9;
       AuthReq.request_digest := "sha256:r" |}.

Definition sample_opaque : Receipt.TrustedTaskAuthorizationReceipt := {|
  Receipt.authorization_id := "task-auth-u1"; Receipt.window_capability := "cua-window-c1";
  Receipt.expires_at_unix_ms := 4000 |}.

(** The lease is granted before the revocation, and refused after it. *)
Example sample_run_replies :
  let replies ops :=
    (run (cross_step (P := sample_platform) sample_runtime) sample_system ops).2 in
  replies [sample_prepare 1000; sample_consume 1100; sample_ask 1200] !! 1%nat
    = Some (Consumed (Some (Ok (Task sample_opaque))))
  /\ match replies [sample_prepare 1000; sample_consume 1100; sample_ask 1200] !! 2%nat with
     | Some (CrossLease (Ok _)) => True | _ => False end
  /\ replies [sample_prepare 1000; sample_consume 1100; sample_consume 1200] !! 2%nat
     = Some (Consumed (Some (Err CrossErr.Replay))).
Proof. vm_compute. split_and!; done. Qed.

Lemma decision_consumed_at_most_once_witness :
  let ops := [sample_prepare 1000; sample_consume 1100; sample_consume 1200] in
  consumes (sample_consume 1100) (Consumed (Some (Ok (Task sample_opaque))))
    "task-challenge-u"
  /\ ~ consumes (sample_consume 1200) (Consumed (Some (Err CrossErr.Replay)))
         "task-challenge-u".
Proof.
  intros ops.
  assert (consumes (sample_consume 1100) (Consumed (Some (Ok (Task sample_opaque))))
    "task-challenge-u") as H by (exists sample_receipt; split; vm_compute; reflexivity).
  split; [exact H|].
  refine (decision_consumed_at_most_once (P := sample_platform) sample_runtime
    sample_system ops 1 2 "task-challenge-u" _ _ _ _ _ eq_refl _ H _ eq_refl _).
  - lia.
  - vm_compute. reflexivity.
  - intros k r Hk. lia.
  - vm_compute. reflexivity.
Defined.

Lemma approved_task_was_signed_for_witness :
  let ops := [sample_prepare 1000; sample_consume 1100] in
  (run (cross_step (P := sample_platform) sample_runtime) sample_system ops).2 !! 1%nat
    = Some (Consumed (Some (Ok (Task sample_opaque))))
  /\ exists i challenge, (i < 1)%nat
    /\ (run (cross_step (P := sample_platform) sample_runtime) sample_system ops).2 !! i
       = Some (Prepared (Ok challenge)).
Proof.
  intros ops.
  assert ((run (cross_step (P := sample_platform) sample_runtime) sample_system ops).2
    !! 1%nat = Some (Consumed (Some (Ok (Task sample_opaque))))) as H
    by (vm_compute; reflexivity).
  split; [exact H|].
  destruct (approved_task_was_signed_for (P := sample_platform) sample_runtime
    sample_registry sample_system ops 1 _ _ _ eq_refl eq_refl H)
    as (i & challenge & _ & _ & _ & _ & _ & _ & _ & Hi & Hc & _).
  exists i, challenge. split; assumption.
Defined.

Lemma revoked_key_confers_nothing_witness :
  let ops := [sample_prepare 1000; sample_consume 1100; OpTrustRevoke "k" 1;
              sample_ask 1200] in
  let replies :=
    (run (cross_step (P := sample_platform) sample_runtime) sample_system ops).2 in
  replies !! 3%nat = Some (CrossLease (Err AuthHostError.Denied))
  /\ ~ cross_confers (sample_ask 1200) (CrossLease (Err AuthHostError.Denied))
         (Receipt.authorization_id sample_opaque).
Proof.
  intros ops replies.
  assert (replies !! 3%nat = Some (CrossLease (Err AuthHostError.Denied))) as H
    by (vm_compute; reflexivity).
  split; [exact H|].
  destruct (revoked_key_confers_nothing (P := sample_platform) sample_runtime [sample_key]
    sample_registry sample_system ops 2 3 "k" 1 (sample_ask 1200)
    (CrossLease (Err AuthHostError.Denied))) as [_ Hno].
  - vm_compute. reflexivity.
  - reflexivity.
  - lia.
  - reflexivity.
  - vm_compute. reflexivity.
  - reflexivity.
  - exact H.
  - apply (Hno 1%nat (sample_cross_samples 1100) [1] sample_receipt sample_opaque).
    + lia.
    + reflexivity.
    + vm_compute. reflexivity.
    + vm_compute. reflexivity.
    + reflexivity.
    + intros [|[|[|k]]] r Hk Hr; try lia. vm_compute in Hr. injection Hr as <-. intros [].
Defined.

Lemma clock_rollback_stops_everything_witness :
  let ops := [sample_prepare 1001; sample_prepare 1000; sample_consume 1100] in
  (run (cross_step (P := sample_platform) sample_runtime) sample_system ops).2 !! 2%nat
    = Some (Consumed (Some (Err CrossErr.ClockRollback)))
  /\ refused_reply (Consumed (Some (Err CrossErr.ClockRollback))).
Proof.
  intros ops.
  assert ((run (cross_step (P := sample_platform) sample_runtime) sample_system ops).2
    !! 2%nat = Some (Consumed (Some (Err CrossErr.ClockRollback)))) as H
    by (vm_compute; reflexivity).
  split; [exact H|].
  refine (clock_rollback_stops_everything (P := sample_platform) sample_runtime
    sample_system ops 0 1 2 (sample_prepare 1001) (sample_prepare 1000) 1001 1000 _
    _ eq_refl _ _ eq_refl _ _ H).
  - lia.
  - vm_compute. reflexivity.
  - vm_compute. discriminate.
  - vm_compute. reflexivity.
  - lia.
Defined.

Lemma accepted_challenge_registers_iff_witness :
  let request := sample_challenge_request
    ["execute_action"; "snapshot"; "capture_preparation_begin"] in
  validate_challenge_request (P := sample_platform) request 1000 = Ok tt
  /\ validate_registration (P := at_files (P := sample_platform) (posix_lstat sample_tree)) 1100
       (challenge_registration
          (new_challenge sample_runtime request 1000 "task-challenge-u" "n" "sha256:d")
          7 9 None 4000) <> Ok tt.
Proof.
  intros request.
  assert (validate_challenge_request (P := sample_platform) request 1000 = Ok tt) as H
    by (vm_compute; reflexivity).
  split; [exact H|]. intros Hr.
  destruct (proj1 (accepted_challenge_registers_iff (P := sample_platform) sample_runtime
    request "task-challenge-u" "n" "sha256:d" "born" 1000 1100 4000 7 9
    (posix_lstat sample_tree) H eq_refl eq_refl ltac:(lia)
    ltac:(vm_compute; discriminate)) Hr) as [Hno _].
  vm_compute in Hno. discriminate Hno.
Defined.
