(* ===== verification/SharedImage.v ===== *)
(** * Shared images ([crates/dcc-cua-shm/src/lib.rs])

    The handoff of one image through a named region of shared memory: a header that
    names the format, the length and the lifetime, then the bytes.  The shared memory
    of the [ipckit] crate is an interface with the laws the handoff relies on. *)

From S2P Require Import Prelude RustStr Protocol.

Definition MAX_IMAGE_BYTES : Z := MAX_BINARY_FRAME_BYTES.
Definition HEADER_SIZE : Z := 48.
Definition HEADER_MAGIC : Z := 0x4355410053484D01.
Definition SEGMENT_PREFIX : string := "cua_".
Definition TTL_SECS : Z := 60.

Module SharedImageError.
Inductive SharedImageError : Type :=
| Empty
| TooLarge
| Invalid (message : string)
| Expired
| Ipc (message : string).
End SharedImageError.

Module SharedImageDescriptor.
Record SharedImageDescriptor : Type := {
  name : string;
  id : string;
  length : Z;
  mime_type : string;
}.
End SharedImageDescriptor.

Module Descriptor := SharedImageDescriptor.

(** A region that was opened, and the descriptor it was opened with. *)
Module SharedImageReader.
Record SharedImageReader : Type := {
  memory : string;
  descriptor : Descriptor.SharedImageDescriptor;
}.
End SharedImageReader.

Module Reader := SharedImageReader.

Abbreviation iresult := (result SharedImageError.SharedImageError).

(** ** The memory of the system

    The regions are a state [M]; [big_endian] is the byte order of the machine. *)
Class SharedMemory (M : Type) : Type := {
  big_endian : bool;
  create : string -> Z -> M -> result string M;
  open_size : string -> M -> result string Z;
  read_at : string -> Z -> Z -> M -> result string (list Z);
  write_at : string -> Z -> list Z -> M -> result string M;
}.

(** A region that was created has at least the size asked for; what was written is
    read back, and a write changes nothing outside its range. *)
Class LawfulSharedMemory (M : Type) `{SharedMemory M} : Prop := {
  create_size name size m m' : create name size m = Ok m' ->
    exists n, open_size name m' = Ok n /\ size <= n;
  write_size name offset bytes m m' : write_at name offset bytes m = Ok m' ->
    open_size name m' = open_size name m;
  write_read name offset bytes m m' : write_at name offset bytes m = Ok m' ->
    read_at name offset (len bytes) m' = Ok bytes;
  write_frame name offset bytes m m' offset' length' :
    write_at name offset bytes m = Ok m' ->
    offset' + length' <= offset \/ offset + len bytes <= offset' ->
    read_at name offset' length' m' = read_at name offset' length' m;
}.

(** ** [to_ne_bytes] and [from_ne_bytes] of a [u64] *)

Fixpoint le_bytes (n : nat) (x : Z) : list Z :=
  match n with O => [] | S n => x mod 256 :: le_bytes n (x / 256) end.
Fixpoint of_le_bytes (bytes : list Z) : Z :=
  match bytes with [] => 0 | b :: bytes => b + 256 * of_le_bytes bytes end.

Section Image.
Context {M : Type} `{SM : SharedMemory M}.

Definition write_u64 (value : Z) : list Z :=
  let bytes := le_bytes 8 value in if big_endian then reverse bytes else bytes.
Definition read_u64 (source : list Z) : Z :=
  of_le_bytes (if big_endian then reverse source else source).

(** The five fields and the unused rest of the 48 bytes. *)
Definition header (length now : Z) : list Z :=
  write_u64 HEADER_MAGIC ++ write_u64 length ++ write_u64 length ++ write_u64 now
  ++ write_u64 TTL_SECS ++ replicate 8 0.

Definition field_of (header : list Z) (offset : nat) : Z :=
  read_u64 (take 8 (drop offset header)).

(** [uuid] is a fresh UUID in its simple form; [now] the Unix time in seconds. *)
Definition from_bytes (uuid : string) (now : Z) (bytes : list Z) (mime_type : string)
    (m : M) : iresult Descriptor.SharedImageDescriptor * M :=
  if len bytes =? 0 then (Err SharedImageError.Empty, m)
  else if MAX_IMAGE_BYTES <? len bytes then (Err SharedImageError.TooLarge, m)
  else
    let id := String.substring 0 16 uuid in
    let name := SEGMENT_PREFIX +:+ id in
    match create name (HEADER_SIZE + len bytes) m with
    | Err error => (Err (SharedImageError.Ipc error), m)
    | Ok m =>
    match write_at name 0 (header (len bytes) now) m with
    | Err error => (Err (SharedImageError.Ipc error), m)
    | Ok m =>
    match write_at name HEADER_SIZE bytes m with
    | Err error => (Err (SharedImageError.Ipc error), m)
    | Ok m =>
        (Ok {| Descriptor.name := name; Descriptor.id := id;
               Descriptor.length := len bytes; Descriptor.mime_type := mime_type |}, m)
    end end end.

Definition ipc {A} (r : result string A) : iresult A := rmap_err SharedImageError.Ipc r.

Definition open (now : Z) (descriptor : Descriptor.SharedImageDescriptor) (m : M)
    : iresult Reader.SharedImageReader :=
  let length := Descriptor.length descriptor in
  if str_is_empty (Descriptor.name descriptor) || (length =? 0)
  then Err (SharedImageError.Invalid "name and length are required")
  else if MAX_IMAGE_BYTES <? length then Err SharedImageError.TooLarge
  else
    let? size := ipc (open_size (Descriptor.name descriptor) m) in
    if size <? HEADER_SIZE + length
    then Err (SharedImageError.Invalid
      "shared memory region is smaller than its descriptor")
    else
      let? header := ipc (read_at (Descriptor.name descriptor) 0 HEADER_SIZE m) in
      if negb (field_of header 0 =? HEADER_MAGIC)
         || negb (field_of header 8 =? length) || negb (field_of header 16 =? length)
      then Err (SharedImageError.Invalid
        "shared memory header does not match its descriptor")
      else
        let created_at := field_of header 24 in
        let ttl := field_of header 32 in
        if (now <? created_at) || (ttl <? now - created_at)
        then Err SharedImageError.Expired
        else Ok {| Reader.memory := Descriptor.name descriptor;
                   Reader.descriptor := descriptor |}.

Definition read (self : Reader.SharedImageReader) (m : M) : iresult (list Z) :=
  ipc (read_at (Reader.memory self) HEADER_SIZE
         (Descriptor.length (Reader.descriptor self)) m).
End Image.

(** ** Round trips *)

Lemma length_le_bytes n x : length (le_bytes n x) = n.
Proof. revert x. induction n as [|n IH]; intros x; simpl; [done|]. by rewrite IH. Qed.

Lemma of_le_le n x : 0 <= x < 2 ^ (8 * Z.of_nat n) -> of_le_bytes (le_bytes n x) = x.
Proof.
  revert x. induction n as [|n IH]; intros x Hx; cbn [le_bytes of_le_bytes].
  - change (2 ^ _) with 1 in Hx. lia.
  - rewrite IH.
    + pose proof (Z.div_mod x 256). lia.
    + replace (8 * Z.of_nat (S n)) with (8 + 8 * Z.of_nat n) in Hx by lia.
      rewrite Z.pow_add_r in Hx by lia. change (2 ^ 8) with 256 in Hx.
      split; [apply Z.div_pos; lia | apply Z.div_lt_upper_bound; lia].
Qed.

Section Handoff.
Context {M : Type} `{LM : LawfulSharedMemory M}.

Lemma length_write_u64 x : length (write_u64 x) = 8%nat.
Proof using Type.
  unfold write_u64. case_match; rewrite ?length_reverse; apply length_le_bytes.
Qed.

Lemma read_write_u64 x : is_u64 x -> read_u64 (write_u64 x) = x.
Proof using Type.
  unfold is_u64, U64_MAX, read_u64, write_u64. intros Hx.
  assert (of_le_bytes (le_bytes 8 x) = x) by (apply of_le_le; change (2 ^ _) with (2 ^ 64); lia).
  destruct big_endian; [by rewrite reverse_involutive | done].
Qed.

Lemma field_here x rest : is_u64 x -> field_of (write_u64 x ++ rest) 0 = x.
Proof using Type.
  intros Hx. unfold field_of. rewrite drop_0, take_app_length'; [by apply read_write_u64|].
  by rewrite length_write_u64.
Qed.

Lemma field_next x rest n : field_of (write_u64 x ++ rest) (8 + n) = field_of rest n.
Proof using Type.
  unfold field_of. rewrite <- (length_write_u64 x), <- drop_drop, drop_app_length.
  by rewrite (length_write_u64 x).
Qed.

Lemma header_fields length now :
  is_u64 length -> is_u64 now ->
  field_of (header length now) 0 = HEADER_MAGIC /\ field_of (header length now) 8 = length
  /\ field_of (header length now) 16 = length /\ field_of (header length now) 24 = now
  /\ field_of (header length now) 32 = TTL_SECS.
Proof using Type.
  intros Hl Hn. unfold header. split_and!;
    [ | rewrite (field_next _ _ 0) | rewrite (field_next _ _ 8), (field_next _ _ 0)
    | rewrite (field_next _ _ 16), (field_next _ _ 8), (field_next _ _ 0)
    | rewrite (field_next _ _ 24), (field_next _ _ 16), (field_next _ _ 8),
        (field_next _ _ 0)];
    apply field_here; by unfold is_u64, U64_MAX, HEADER_MAGIC, TTL_SECS in *.
Qed.

Lemma len_header length now : len (header length now) = HEADER_SIZE.
Proof using Type.
  unfold len, header. rewrite !length_app, !length_write_u64, length_replicate. done.
Qed.

(** What a successful handoff leaves in memory. *)
Lemma from_bytes_ok uuid now bytes mime_type m image m' :
  from_bytes uuid now bytes mime_type m = (Ok image, m') ->
  0 < len bytes <= MAX_IMAGE_BYTES /\ Descriptor.length image = len bytes
  /\ Descriptor.name image <> ""
  /\ (exists n, open_size (Descriptor.name image) m' = Ok n /\ HEADER_SIZE + len bytes <= n)
  /\ read_at (Descriptor.name image) 0 HEADER_SIZE m' = Ok (header (len bytes) now)
  /\ read_at (Descriptor.name image) HEADER_SIZE (len bytes) m' = Ok bytes.
Proof using Type*.
  unfold from_bytes. intros Hf. pose proof (len_nonneg bytes).
  destruct (len bytes =? 0) eqn:?; [done|]. destruct (_ <? _) eqn:?; [done|].
  set (name := SEGMENT_PREFIX +:+ _) in Hf.
  assert (name <> "") as Hname by (intros E; discriminate E). clearbody name.
  destruct (create name _ m) as [m1|] eqn:Ec; [|done].
  destruct (write_at name 0 _ m1) as [m2|] eqn:E1; [|done].
  destruct (write_at name HEADER_SIZE bytes m2) as [m3|] eqn:E2; [|done].
  injection Hf as <- <-. simpl. split_and!; try done; [lia..| | |].
  - rewrite (write_size _ _ _ _ _ E2), (write_size _ _ _ _ _ E1). by eapply create_size.
  - rewrite (write_frame _ _ _ _ _ _ _ E2) by (unfold HEADER_SIZE; lia).
    rewrite <- (len_header (len bytes) now). by eapply write_read.
  - by eapply write_read.
Qed.

Lemma is_u64_len (bytes : list Z) : 0 < len bytes <= MAX_IMAGE_BYTES -> is_u64 (len bytes).
Proof using Type.
  unfold is_u64, U64_MAX, MAX_IMAGE_BYTES, MAX_BINARY_FRAME_BYTES. lia.
Qed.

Lemma open_handoff uuid now bytes mime_type m image m' later :
  from_bytes uuid now bytes mime_type m = (Ok image, m') -> is_u64 now ->
  open later image m' =
    if (later <? now) || (TTL_SECS <? later - now) then Err SharedImageError.Expired
    else Ok {| Reader.memory := Descriptor.name image; Reader.descriptor := image |}.
Proof using Type*.
  intros (Hlen & Hl & Hname & (n & Hn & Hsize) & Hh & Hb)%from_bytes_ok Hnow.
  assert (is_u64 (len bytes)) as Hu by by apply is_u64_len.
  destruct (header_fields _ _ Hu Hnow) as (F0 & F1 & F2 & F3 & F4).
  unfold open. rewrite Hl, Hn, Hh. cbn [ipc rmap_err rbind].
  rewrite F0, F1, F2, F3, F4, (proj2 (str_is_empty_false _) Hname), !Z.eqb_refl.
  rewrite (proj2 (Z.eqb_neq _ _)), (proj2 (Z.ltb_ge MAX_IMAGE_BYTES _)),
    (proj2 (Z.ltb_ge n _)) by lia. done.
Qed.

Lemma shared_image_arrives uuid now bytes mime_type m image m' :
  from_bytes uuid now bytes mime_type m = (Ok image, m') -> is_u64 now ->
  forall later, now <= later <= now + TTL_SECS ->
    exists reader, open later image m' = Ok reader /\ read reader m' = Ok bytes.
Proof using Type*.
  intros Hf Hnow later Hlater. eexists. rewrite (open_handoff _ _ _ _ _ _ _ later Hf Hnow).
  rewrite (proj2 (Z.ltb_ge later _)), (proj2 (Z.ltb_ge TTL_SECS _)) by lia.
  split; [done|]. apply from_bytes_ok in Hf as (_ & Hl & _ & _ & _ & Hb).
  unfold read. simpl. by rewrite Hl, Hb.
Qed.

(** C31: a shared image arrives as it was sent, or not at all.  After a successful
    handoff the descriptor names the exact length; for a minute a reader that opens it
    gets exactly the bytes that were sent, whatever the byte order of the machine; from
    then on it is refused as expired.  No descriptor of that region with another length
    is ever opened, so no reader sees part of an image or memory beyond it. *)
Theorem shared_image_roundtrip uuid now bytes mime_type m image m' :
  from_bytes uuid now bytes mime_type m = (Ok image, m') -> is_u64 now ->
  Descriptor.length image = len bytes
  /\ (forall later, now <= later <= now + TTL_SECS ->
      exists reader, open later image m' = Ok reader /\ read reader m' = Ok bytes)
  /\ (forall later, now + TTL_SECS < later ->
      open later image m' = Err SharedImageError.Expired)
  /\ (forall later d reader, Descriptor.name d = Descriptor.name image ->
      open later d m' = Ok reader -> Descriptor.length d = len bytes).
Proof using Type*.
  intros Hf Hnow. split_and!.
  - by apply from_bytes_ok in Hf as (_ & ? & _).
  - by eapply shared_image_arrives.
  - intros later Hlater. rewrite (open_handoff _ _ _ _ _ _ _ later Hf Hnow).
    rewrite (proj2 (Z.ltb_ge later _)), (proj2 (Z.ltb_lt TTL_SECS _));
      unfold TTL_SECS in *; [done | lia..].
  - apply from_bytes_ok in Hf as (Hlen & _ & _ & _ & Hh & _).
    destruct (header_fields _ _ (is_u64_len _ Hlen) Hnow) as (_ & F1 & _).
    intros later d reader Hd Ho. unfold open in Ho. rewrite Hd in Ho.
    apply guard_ok in Ho as [_ Ho]. apply guard_ok in Ho as [_ Ho].
    apply rbind_ok in Ho as (n & _ & Ho). apply guard_ok in Ho as [_ Ho].
    rewrite Hh in Ho. cbn [ipc rmap_err rbind] in Ho. apply guard_ok in Ho as [Ho _].
    rewrite F1 in Ho. reflect_all. lia.
Qed.
End Handoff.

(** ** A concrete memory *)

Definition sample_create (name : string) (size : Z) (m : gmap string (list Z))
    : result string (gmap string (list Z)) :=
  if is_some (m !! name) then Err "exists"
  else Ok (<[name := replicate (Z.to_nat size) 0]> m).

Definition sample_range (region : list Z) (offset length : Z) : bool :=
  (0 <=? offset) && (0 <=? length) && (offset + length <=? len region).

Definition sample_read (name : string) (offset length : Z) (m : gmap string (list Z))
    : result string (list Z) :=
  match m !! name with
  | Some region =>
      if sample_range region offset length
      then Ok (take (Z.to_nat length) (drop (Z.to_nat offset) region)) else Err "range"
  | None => Err "absent"
  end.

Definition sample_write (name : string) (offset : Z) (bytes : list Z)
    (m : gmap string (list Z)) : result string (gmap string (list Z)) :=
  match m !! name with
  | Some region =>
      if sample_range region offset (len bytes)
      then
        let o := Z.to_nat offset in
        Ok (<[name := take o region ++ bytes ++ drop (o + length bytes) region]> m)
      else Err "range"
  | None => Err "absent"
  end.

#[export] Instance sample_memory : SharedMemory (gmap string (list Z)) := {|
  big_endian := false;
  create := sample_create;
  open_size name m := ok_or (option_map len (m !! name)) "absent";
  read_at := sample_read;
  write_at := sample_write;
|}.

Lemma sample_write_some name offset bytes m m' :
  sample_write name offset bytes m = Ok m' ->
  exists before after, 0 <= offset /\ len before = offset
    /\ (exists old, len old = len bytes /\ m !! name = Some (before ++ old ++ after))
    /\ m' = <[name := before ++ bytes ++ after]> m.
Proof.
  unfold sample_write, sample_range. destruct (m !! name) as [region|]; [|done].
  intros H. guard_step H. injection H as <-. reflect_all. unfold len in *.
  exists (take (Z.to_nat offset) region), (drop (Z.to_nat offset + length bytes) region).
  rewrite length_take. split_and!; [lia | lia | | done].
  exists (take (length bytes) (drop (Z.to_nat offset) region)).
  rewrite length_take, length_drop. split; [lia|]. f_equal.
  by rewrite <- drop_drop, take_drop, take_drop.
Qed.

#[export] Instance sample_lawful : LawfulSharedMemory (gmap string (list Z)).
Proof.
  split; cbn [create open_size read_at write_at sample_memory].
  - unfold sample_create. intros name size m m' H. guard_step H. injection H as <-.
    rewrite lookup_insert_eq. simpl. eexists. split; [done|]. unfold len.
    rewrite length_replicate. lia.
  - intros name offset bytes m m' (b & a & _ & _ & (old & Ho & Hm) & ->)%sample_write_some.
    rewrite lookup_insert_eq, Hm. simpl. f_equal. unfold len in *.
    rewrite !length_app. lia.
  - intros name offset bytes m m' (b & a & Hz & Hb & (old & Ho & Hm) & ->)%sample_write_some.
    unfold sample_read. rewrite lookup_insert_eq. unfold sample_range, len in *.
    rewrite !length_app. case_match; [|reflect_all; lia].
    rewrite drop_app_length', take_app_length' by lia. done.
  - intros name offset bytes m m' o' l'
      (b & a & Hz & Hb & (old & Ho & Hm) & ->)%sample_write_some Hd.
    unfold sample_read. rewrite lookup_insert_eq, Hm. unfold sample_range, len in *.
    rewrite !length_app. replace (length old) with (length bytes) by lia.
    case_match; [|done]. reflect_all. f_equal. destruct Hd as [Hd|Hd].
    + rewrite !drop_app_le, !take_app_le by (rewrite ?length_drop; lia). done.
    + rewrite !(drop_app_ge b), !drop_app_ge by lia.
      do 2 f_equal. lia.
Qed.

Lemma shared_image_roundtrip_witness :
  exists image m,
    from_bytes "0123456789abcdef0123456789abcdef" 1000 [1; 2; 3] "image/png"
      (∅ : gmap string (list Z)) = (Ok image, m)
    /\ exists reader, open 1060 image m = Ok reader /\ read reader m = Ok [1; 2; 3].
Proof.
  destruct (from_bytes "0123456789abcdef0123456789abcdef" 1000 [1; 2; 3] "image/png"
    (∅ : gmap string (list Z))) as [[image|] m] eqn:E; [|vm_compute in E; discriminate].
  exists image, m. split; [done|].
  destruct (shared_image_roundtrip _ _ _ _ _ _ _ E) as (_ & H2 & _).
  - by unfold is_u64, U64_MAX.
  - apply (H2 1060). by unfold TTL_SECS.
Defined.
