(* ===== verification/HostSession.v ===== *)
(** * The Host's window session ([crates/dcc-cua-host/src/session_state.rs])

    What the Host keeps for one opened window: the permissions of its task grant, the
    trusted lease it runs under, the core session, the browser adapter, the event
    queue, and the evidence it has published.  The Host remembers the core epoch at
    which it last synchronised, and drops its own copies of the evidence when the core
    has moved on.  An [Instant] is in milliseconds; what the clock, the driver and the
    authority answer is an argument. *)

From S2P Require Import Prelude Records Effects RustStr Json Errors TargetPolicy.
From S2P Require Import InputState SessionEvents SessionHealth HostAction Platform.
From S2P Require Import TaskGrant CapturePreparation TaskAuthorization Request.
From S2P Require Import RuntimeSession ExtensionInput BrowserEvidence BrowserSession Broker.
From S2P Require SharedImage.

(** A [SharedImage] is its descriptor and the memory behind it. *)
Abbreviation SharedImageDescriptor := SharedImage.Descriptor.SharedImageDescriptor.

Module HostEvidenceEpochSyncPlan.
Record HostEvidenceEpochSyncPlan : Type := {
  epoch_changed : bool;
  invalidate_browser_snapshot : bool;
  bind_browser_snapshot : bool;
}.
End HostEvidenceEpochSyncPlan.

Module SyncPlan := HostEvidenceEpochSyncPlan.

#[export] Instance Epoch_eq_dec : EqDecision Epoch.
Proof. solve_decision. Defined.

Definition evidence_epoch_sync_plan (synchronized current : Epoch)
    (publication : Publication.HostEvidencePublication)
    : SyncPlan.HostEvidenceEpochSyncPlan :=
  let epoch_changed := synchronized != current in
  {| SyncPlan.epoch_changed := epoch_changed;
     SyncPlan.invalidate_browser_snapshot :=
       epoch_changed && (publication != Publication.BrowserSnapshot);
     SyncPlan.bind_browser_snapshot := publication == Publication.BrowserSnapshot |}.

Module HostSession.
Record HostSession : Type := {
  extension_observation : option ExtObs.ExtensionObservation;
  runtime_session_id : string;
  target_process_id : Z;
  target_window_handle : Z;
  task_grant_id : string;
  observation_mode : TaskObservationMode;
  allow_raw_input : bool;
  allow_app_terminate : bool;
  allow_clipboard_read : bool;
  allow_clipboard_write : bool;
  allow_recording : bool;
  allow_live_observation : bool;
  allow_browser_input : bool;
  allow_browser_prepare : bool;
  allowed_browser_origins : list string;
  allow_browser_download : bool;
  allow_native_tool : bool;
  allow_menu_invoke : bool;
  allow_session_escalation : bool;
  allow_trusted_confirmation : bool;
  task_authorization : option Lease.TrustedTaskAuthorizationLease;
  task_authorization_host : option AuthHost.TrustedTaskAuthorizationHost;
  allow_restore_activate : bool;
  capability : string;
  interrupted : bool;
  session : CS.ComputerUseSession;
  synchronized_action_evidence_epoch : Epoch;
  browser_evidence_epoch : option Epoch;
  browser : BS.BrowserSession;
  latest_observation_id : option string;
  latest_accessibility_state_id : option string;
  latest_accessibility_root : option value;
  latest_shared_image : option SharedImageDescriptor;
  latest_preparation_image : option SharedImageDescriptor;
  input_events : Q.SessionEventQueue;
  idle_timeout : Z;
  last_activity : Z;
}.

#[global] Instance HostSession_settable : Settable HostSession := fun s => {|
  extension_observation := extension_observation s;
  runtime_session_id := runtime_session_id s;
  target_process_id := target_process_id s;
  target_window_handle := target_window_handle s;
  task_grant_id := task_grant_id s;
  observation_mode := observation_mode s;
  allow_raw_input := allow_raw_input s;
  allow_app_terminate := allow_app_terminate s;
  allow_clipboard_read := allow_clipboard_read s;
  allow_clipboard_write := allow_clipboard_write s;
  allow_recording := allow_recording s;
  allow_live_observation := allow_live_observation s;
  allow_browser_input := allow_browser_input s;
  allow_browser_prepare := allow_browser_prepare s;
  allowed_browser_origins := allowed_browser_origins s;
  allow_browser_download := allow_browser_download s;
  allow_native_tool := allow_native_tool s;
  allow_menu_invoke := allow_menu_invoke s;
  allow_session_escalation := allow_session_escalation s;
  allow_trusted_confirmation := allow_trusted_confirmation s;
  task_authorization := task_authorization s;
  task_authorization_host := task_authorization_host s;
  allow_restore_activate := allow_restore_activate s;
  capability := capability s;
  interrupted := interrupted s;
  session := session s;
  synchronized_action_evidence_epoch := synchronized_action_evidence_epoch s;
  browser_evidence_epoch := browser_evidence_epoch s;
  browser := browser s;
  latest_observation_id := latest_observation_id s;
  latest_accessibility_state_id := latest_accessibility_state_id s;
  latest_accessibility_root := latest_accessibility_root s;
  latest_shared_image := latest_shared_image s;
  latest_preparation_image := latest_preparation_image s;
  input_events := input_events s;
  idle_timeout := idle_timeout s;
  last_activity := last_activity s;
|}.
End HostSession.

Module HS := HostSession.

(** ** Sessions under a lease *)

(** A panic of the adapter is [None]. *)
Definition task_browser_session (lease : option Lease.TrustedTaskAuthorizationLease)
    : option (hresult BS.BrowserSession) :=
  match lease ≫= Lease.browser_scope with
  | Some scope =>
      match bind_authorized_exact_target (BrowserScope.host_target_id scope) BS.default with
      | Some (bound, browser) =>
          Some (check? rmap_err HostError.ComputerUse bound in Ok browser)
      | None => None
      end
  | None => Some (Ok BS.default)
  end.

(** The derived [Serialize] of the two scopes. *)
Definition browser_scope_value
    (scope : BrowserScope.TrustedTaskAuthorizationBrowserScope) : value :=
  Object [("host_target_id", Str (BrowserScope.host_target_id scope));
          ("tab_id", Str (BrowserScope.tab_id scope));
          ("document_generation", Str (BrowserScope.document_generation scope));
          ("origin", Str (BrowserScope.origin scope))].

Definition action_scope_value (scope : Scope.TrustedTaskActionScope) : value :=
  let fields :=
    [("action", Str (Scope.action scope));
     ("input_kind", Str (Scope.input_kind scope));
     ("secret_input", Bool (Scope.secret_input scope));
     ("authorization_category", Str (Scope.authorization_category scope))] in
  Object (fields ++ match Scope.browser_origin scope with
                    | Some origin => [("browser_origin", Str origin)]
                    | None => []
                    end).

Definition task_authorization_response
    (authorization : Lease.TrustedTaskAuthorizationLease) : value :=
  Object
    [("status", Str "active");
     ("authorization_id", Str (Lease.authorization_id authorization));
     ("expires_at_unix_ms", Number (PosInt (Lease.expires_at_unix_ms authorization)));
     ("allowed_host_methods",
      Array (map Str (Lease.allowed_host_methods authorization)));
     ("allowed_actions",
      Array (map action_scope_value (Lease.allowed_actions authorization)));
     ("browser_scope",
      match Lease.browser_scope authorization with
      | Some scope => browser_scope_value scope
      | None => Null
      end)].

Definition native_frame_lease_matches_binding
    (lease : option Lease.TrustedTaskAuthorizationLease)
    (session_id task_grant_id capability : string) (process_id window_handle : Z) : bool :=
  is_some_and (fun lease =>
    (Lease.session_id lease == session_id)
    && (Lease.task_grant_id lease == task_grant_id)
    && (Lease.window_capability lease == capability)
    && (Lease.target_process_id lease =? process_id)
    && (Lease.target_window_handle lease =? window_handle)
    && forallb (fun required => required ∈? Lease.allowed_host_methods lease)
         ["get_window_state"; "set_window_frame"]
    && existsb is_window_frame (Lease.allowed_actions lease)) lease.

(** ** What the lease and the grant permit *)

Definition task_authorization_denied {A} (message : string) : hresult A :=
  Err (HostError.coded_protocol HostProtocolErrorCode.TaskAuthorizationDenied message).

Definition computer_use_error {A} (code : ComputerUseErrorCode.t) (message : string)
    : hresult A :=
  Err (HostError.ComputerUse (ComputerUseError.new code message)).

Definition bound_task_authorization (session_id method : string) (self : HS.HostSession)
    : option Lease.TrustedTaskAuthorizationLease :=
  match HS.task_authorization self with
  | Some lease =>
      if (Lease.session_id lease == session_id)
         && (Lease.task_grant_id lease == HS.task_grant_id self)
         && (Lease.window_capability lease == HS.capability self)
         && (Lease.target_process_id lease =? HS.target_process_id self)
         && (Lease.target_window_handle lease =? HS.target_window_handle self)
         && (method ∈? Lease.allowed_host_methods lease)
      then Some lease else None
  | None => None
  end.

(** [.filter(|lease| ..)]. *)
Definition filter_lease (test : Lease.TrustedTaskAuthorizationLease -> bool)
    (lease : option Lease.TrustedTaskAuthorizationLease)
    : option Lease.TrustedTaskAuthorizationLease :=
  lease ≫= fun lease => if test lease then Some lease else None.

Definition require_native_capture_popup_keyboard_grant (session_id : string)
    (self : HS.HostSession) : hresult Z :=
  match filter_lease (fun lease =>
          (HS.observation_mode self == PixelsOnly)
          && existsb is_native_capture_popup_keyboard (Lease.allowed_actions lease))
        (bound_task_authorization session_id "snapshot" self) with
  | Some lease => Ok (Lease.expires_at_unix_ms lease)
  | None => task_authorization_denied
      "selected native capture popup observations require the independent trusted owner ceiling"
  end.

Definition require_native_menu_dismiss_grant (session_id : string)
    (self : HS.HostSession) : hresult Z :=
  match filter_lease (fun lease =>
          (HS.observation_mode self == PixelsOnly)
          && ("get_window_state" ∈? Lease.allowed_host_methods lease)
          && existsb is_native_menu_dismiss (Lease.allowed_actions lease))
        (bound_task_authorization session_id "change_window_state" self) with
  | Some lease => Ok (Lease.expires_at_unix_ms lease)
  | None => task_authorization_denied
      "dismiss_menu requires its exact trusted pixels_only window_state/dismiss_menu scope and native state read method"
  end.

(** The [Display] of the broker's error. *)
Definition broker_error_to_string (error : TrustedTaskAuthorizationBrokerError) : string :=
  match error with
  | InvalidRegistration reason =>
      "task authorization registration is invalid: " +:+ reason
  | NotFound => "task authorization was not found"
  | BrokerUnavailable => "task authorization broker is unavailable"
  end.

Definition require_capture_preparation_grant `{P : Platform} (session_id method : string)
    (self : HS.HostSession) : hresult PrepAuth.CapturePreparationAuthorization :=
  match filter_lease (fun lease =>
          (HS.observation_mode self == PixelsOnly)
          && existsb is_capture_preparation (Lease.allowed_actions lease)
          && forallb (fun required => required ∈? Lease.allowed_host_methods lease)
               ["get_window_state"; "capture_preparation_begin";
                "capture_preparation_state"; "capture_preparation_stop"])
        (bound_task_authorization session_id method self) ≫= Lease.capture_preparation with
  | Some lease =>
      check? rmap_err (fun error => HostError.coded_protocol
                         HostProtocolErrorCode.TaskAuthorizationDenied
                         (broker_error_to_string error))
               (validate_capture_preparation_directory (PrepAuth.journal_directory lease)) in
      Ok lease
  | None => task_authorization_denied
      "capture preparation requires its exact trusted pixels_only lease, journal and closed lifecycle action scope"
  end.

Definition require_minimize_grant (session_id : string) (self : HS.HostSession)
    : hresult unit :=
  if negb (is_some_and (fun lease =>
             existsb is_window_minimize (Lease.allowed_actions lease))
           (bound_task_authorization session_id "minimize_window" self))
  then task_authorization_denied
    "minimize_window requires the trusted window_state/minimize_window action scope"
  else Ok tt.

Definition require_window_frame_grant (session_id : string) (self : HS.HostSession)
    : hresult unit :=
  if negb (native_frame_lease_matches_binding (HS.task_authorization self) session_id
             (HS.task_grant_id self) (HS.capability self) (HS.target_process_id self)
             (HS.target_window_handle self))
  then task_authorization_denied
    "set_window_frame requires its exact trusted window_state action scope and native state read method"
  else Ok tt.

Definition require_pixels_input_grant (session_id : string)
    (action : HostAction.HostAction) (self : HS.HostSession) : hresult unit :=
  if (HostAction.input_kind action != "raw_input")
     || negb (HostAction.action action ∈? PIXELS_INPUT_ACTIONS)
     || is_some (HostAction.element_index action)
     || is_some (HostAction.element_token action)
     || is_some (HostAction.secret_handle action)
     || is_some (HostAction.input_backend_id action)
     || is_some_and (fun mode => mode != "foreground") (HostAction.delivery_mode action)
  then computer_use_error ComputerUseErrorCode.InvalidAction
    "pixels_only input requires a supported raw action without semantic selectors, secrets, or alternate backends"
  else if negb (HS.allow_raw_input self)
     || negb (is_some_and (fun lease =>
          existsb (fun scope => is_pixels_input scope
                     && (Scope.action scope == HostAction.action action))
            (Lease.allowed_actions lease))
          (bound_task_authorization session_id "execute_action" self))
  then task_authorization_denied
    "pixels_only input requires the exact supported raw_input action in the bound trusted task grant"
  else Ok tt.

Definition require_task_authorized_method (method : string) (self : HS.HostSession)
    : hresult unit :=
  if is_some_and (fun authorization =>
       negb (method ∈? Lease.allowed_host_methods authorization))
     (HS.task_authorization self)
  then task_authorization_denied
    ("Host method " +:+ method +:+ " is outside the trusted task authorization")
  else Ok tt.

Definition require_allowed_browser_origin (origin : string) (self : HS.HostSession)
    : hresult unit :=
  if is_some (HS.task_authorization self)
     && negb (origin ∈? HS.allowed_browser_origins self)
  then task_authorization_denied "the browser origin is outside the task authorization"
  else Ok tt.

Definition authorized_browser_scope (self : HS.HostSession)
    : option BrowserScope.TrustedTaskAuthorizationBrowserScope :=
  HS.task_authorization self ≫= Lease.browser_scope.

Definition require_task_authorized_browser_target (target_id tab_id : string)
    (self : HS.HostSession) : hresult unit :=
  match authorized_browser_scope self with
  | None => Ok tt
  | Some scope =>
      if (target_id == BrowserScope.host_target_id scope)
         && (tab_id == BrowserScope.tab_id scope)
      then Ok tt
      else task_authorization_denied
        "the browser target or tab is outside the trusted task authorization"
  end.

Definition require_task_authorized_browser_document
    (target_id tab_id document_generation : string) (self : HS.HostSession)
    : hresult unit :=
  check? require_task_authorized_browser_target target_id tab_id self in
  match authorized_browser_scope self with
  | None => Ok tt
  | Some scope =>
      if document_generation == BrowserScope.document_generation scope then Ok tt
      else task_authorization_denied
        "the browser document generation is outside the trusted task authorization"
  end.

Definition require_current_task_authorized_browser_document (self : HS.HostSession)
    : hresult unit :=
  match authorized_browser_scope self with
  | None => Ok tt
  | Some scope =>
      if (BS.target_id (HS.browser self) == Some (BrowserScope.host_target_id scope))
         && (BS.latest_tab_id (HS.browser self) == Some (BrowserScope.tab_id scope))
         && (BS.latest_snapshot_id (HS.browser self)
             == Some (BrowserScope.document_generation scope))
         && (BS.latest_origin (HS.browser self) == Some (BrowserScope.origin scope))
      then Ok tt
      else task_authorization_denied
        "fresh browser evidence does not match the authorized target, tab, document, and origin"
  end.

Definition require_current_allowed_browser_origin (self : HS.HostSession) : hresult unit :=
  if is_none (HS.task_authorization self) then Ok tt
  else
    let? origin := ok_or (BS.latest_origin (HS.browser self))
      (HostError.coded_protocol HostProtocolErrorCode.TaskAuthorizationRequired
         "take a fresh browser snapshot before mutating an authorized browser origin") in
    require_allowed_browser_origin origin self.

(** ** Evidence *)

Definition require_latest_observation (observation_id : string) (self : HS.HostSession)
    : hresult unit :=
  if str_is_empty observation_id
     || (HS.latest_observation_id self != Some observation_id)
  then computer_use_error ComputerUseErrorCode.StaleObservation
    "observation_id does not match the latest host snapshot"
  else Ok tt.

Definition record_snapshot_observation (observation_id : string) (accessibility : value)
    (self : HS.HostSession) : HS.HostSession :=
  let self := self <| HS.latest_observation_id := Some observation_id |> in
  if HS.observation_mode self == PixelsOnly
  then self
    <| HS.latest_accessibility_state_id := None |>
    <| HS.latest_accessibility_root := None |>
  else self
    <| HS.latest_accessibility_state_id := Some observation_id |>
    <| HS.latest_accessibility_root := Some accessibility |>.

Definition is_idle_expired (now : Z) (self : HS.HostSession) : bool :=
  HS.idle_timeout self <=? now - HS.last_activity self.

Definition mark_activity (now : Z) (self : HS.HostSession) : HS.HostSession :=
  self <| HS.last_activity := now |>.

Definition clear_native_observation_caches (self : HS.HostSession) : HS.HostSession :=
  self
    <| HS.latest_observation_id := None |>
    <| HS.latest_accessibility_state_id := None |>
    <| HS.latest_accessibility_root := None |>.

Definition discard_browser_evidence (self : HS.HostSession) : HS.HostSession :=
  self
    <| HS.extension_observation := None |>
    <| HS.browser_evidence_epoch := None |>
    <| HS.browser := invalidate_snapshot (HS.browser self) |>.

Definition synchronize_action_evidence_epoch_with
    (publication : Publication.HostEvidencePublication) (self : HS.HostSession)
    : HS.HostSession * bool :=
  let current := CS.action_evidence_epoch (HS.session self) in
  let plan := evidence_epoch_sync_plan (HS.synchronized_action_evidence_epoch self)
    current publication in
  let self :=
    if SyncPlan.epoch_changed plan then
      let self := clear_native_observation_caches self in
      let self := if SyncPlan.invalidate_browser_snapshot plan
                  then discard_browser_evidence self else self in
      self <| HS.synchronized_action_evidence_epoch := current |>
    else self in
  let self :=
    if SyncPlan.bind_browser_snapshot plan
    then self <| HS.browser_evidence_epoch := Some current |> else self in
  (self, SyncPlan.epoch_changed plan).

Definition synchronize_action_evidence_epoch (self : HS.HostSession)
    : HS.HostSession * bool :=
  synchronize_action_evidence_epoch_with Publication.None_ self.

Definition synchronized (self : HS.HostSession) : HS.HostSession :=
  (synchronize_action_evidence_epoch self).1.

(** [HostSession::invalidate_action_observations]: the core's evidence, then the
    Host's copies. *)
Definition invalidate_session_observations
    (invalidate : CS.ComputerUseSession -> option CS.ComputerUseSession)
    (self : HS.HostSession) : option HS.HostSession :=
  match invalidate (HS.session self) with
  | Some session => Some (synchronized (self <| HS.session := session |>))
  | None => None
  end.

Definition invalidate_host_action_observations
    : HS.HostSession -> option HS.HostSession :=
  invalidate_session_observations invalidate_action_observations.

Definition abandon_wait_probe : HS.HostSession -> option HS.HostSession :=
  invalidate_host_action_observations.

Definition invalidate_observations (self : HS.HostSession) : HS.HostSession :=
  discard_browser_evidence (clear_native_observation_caches (self
    <| HS.synchronized_action_evidence_epoch :=
         CS.action_evidence_epoch (HS.session self) |>)).

Abbreviation host_op E A := (eff HS.HostSession E A).

Definition sync {E} : host_op E unit := modify synchronized.

Definition observe_input_readiness {E} (readiness : Rdy.ComputerUseInputReadiness)
    (observed_at : Z) : host_op E bool :=
  do? self := read id in
  let '(queue, event) := observe (HS.input_events self) readiness observed_at in
  let transitioned := is_some event in
  run? modify (fun self => self <| HS.input_events := queue |>) in
  run? (if transitioned then update invalidate_host_action_observations else ret tt) in
  ret transitioned.

(** The sample is [input_readiness_sample()]. *)
Definition refresh_input_readiness {E} (readiness : Rdy.ComputerUseInputReadiness)
    (observed_at : Z) : host_op E unit :=
  run? observe_input_readiness readiness observed_at in ret tt.

(** A target sample, and what a transition invalidates. *)
Definition observe_availability {E} (availability : Avl.ComputerUseTargetAvailability)
    (observed_at : Z) (invalidate : HS.HostSession -> option HS.HostSession)
    : host_op E bool :=
  do? self := read id in
  let '(queue, transitioned) :=
    refresh_target_availability (HS.input_events self) availability observed_at in
  run? modify (fun self => self <| HS.input_events := queue |>) in
  run? (if transitioned : bool then update invalidate else ret tt) in
  ret transitioned.

Definition observe_target_availability {E}
    (availability : Avl.ComputerUseTargetAvailability) (observed_at : Z)
    : host_op E bool :=
  observe_availability availability observed_at invalidate_host_action_observations.

(** The Windows configuration: a fresh native token survives the transition that its
    own reading revealed. *)
Definition observe_target_state {E} (state : value) (now observed_at : Z)
    : host_op E bool :=
  let availability := from_window_state state in
  match get state "menu_dismiss_window_state_id" ≫= as_str with
  | Some menu_id =>
      observe_availability availability observed_at
        (invalidate_session_observations
           (invalidate_action_observations_preserving_native_menu_state now menu_id
              (get state "window_state_id" ≫= as_str)))
  | None =>
  match get state "window_state_id" ≫= as_str with
  | Some state_id =>
      observe_availability availability observed_at
        (invalidate_session_observations
           (invalidate_action_observations_preserving_native_state now state_id))
  | None => observe_target_availability availability observed_at
  end
  end.

(** ** Outcomes *)

Definition target_status_of (code : ComputerUseErrorCode.t)
    : option ComputerUseTargetStatus.t :=
  match code with
  | ComputerUseErrorCode.TargetMinimized => Some ComputerUseTargetStatus.Minimized
  | ComputerUseErrorCode.TargetUnavailable | ComputerUseErrorCode.MissingWindow =>
      Some ComputerUseTargetStatus.Unavailable
  | _ => None
  end.

Definition invalidating_codes : list ComputerUseErrorCode.t :=
  [ComputerUseErrorCode.InvalidTarget; ComputerUseErrorCode.SessionRefreshRequired;
   ComputerUseErrorCode.CompletionUnknown].

(** [HostSession::finish_observation_sensitive_attempt]; [unreachable!] is a panic. *)
Definition finish_host_attempt {A} (observed_at : Z) (result : cresult A)
    : host_op cerror A :=
  run? sync in
  match result with
  | Ok value => ret value
  | Err error =>
      let code := ComputerUseError.code error in
      let input_unavailable := code == ComputerUseErrorCode.InteractiveDesktopUnavailable in
      let target_status := target_status_of code in
      run? (if input_unavailable || is_some target_status || (code ∈? invalidating_codes)
            then update invalidate_host_action_observations else ret tt) in
      run? (if input_unavailable
            then
              run? observe_input_readiness
                {| Rdy.status := ComputerUseInputStatus.Suspended;
                   Rdy.code := "interactive_desktop_unavailable";
                   Rdy.reason := Some (ComputerUseError.message error) |} observed_at in
              ret tt
            else ret tt) in
      run? (match target_status with
            | Some status =>
                do? code := (match status with
                  | ComputerUseTargetStatus.Minimized => ret "target_minimized"
                  | ComputerUseTargetStatus.Unavailable => ret "target_unavailable"
                  | ComputerUseTargetStatus.Available => Effects.panic
                  end) in
                run? observe_target_availability
                  {| Avl.status := status; Avl.code := code; Avl.visible := false;
                     Avl.minimized := status == ComputerUseTargetStatus.Minimized;
                     Avl.foreground := false |} observed_at in
                ret tt
            | None => ret tt
            end) in
      throw error
  end.

Definition finish_browser_snapshot_attempt {A} (observed_at : Z) (result : cresult A)
    (publishes_snapshot_evidence : bool) : host_op HostError.HostError A :=
  match result with
  | Ok value =>
      if publishes_snapshot_evidence then
        do? document := read require_current_task_authorized_browser_document in
        match document with
        | Err error =>
            run? modify discard_browser_evidence in
            throw error
        | Ok _ =>
            run? modify (fun self =>
              (synchronize_action_evidence_epoch_with Publication.BrowserSnapshot self).1) in
            ret value
        end
      else
        run? modify discard_browser_evidence in
        run? sync in
        ret value
  | Err error =>
      run? modify discard_browser_evidence in
      map_error HostError.ComputerUse (finish_host_attempt observed_at (Err error))
  end.

Definition require_current_browser_evidence_epoch : host_op cerror unit :=
  run? sync in
  do? self := read id in
  if HS.browser_evidence_epoch self == Some (HS.synchronized_action_evidence_epoch self)
  then ret tt
  else throw (ComputerUseError.new ComputerUseErrorCode.StaleObservation
    "take a fresh browser snapshot after action evidence changed").

(** ** The table of a connection ([crates/dcc-cua-host/src/lib.rs]) *)

Abbreviation Sessions := (gmap string HS.HostSession).
Abbreviation table_op A := (eff Sessions HostError.HostError A).

(** What the outside answers while a session is authorized: the clock, a fresh
    identifier for the authority, and the driver's answer should the session have to
    be stopped. *)
Module Environment.
Record Environment : Type := {
  now : Z;
  unix_now : Z;
  uuid : string;
  end_session : cresult unit;
}.
End Environment.

Module Env := Environment.

(** [session.session.stop().await] and the note on its failure. *)
Definition stop_session (env : Env.Environment) : host_op HostError.HostError string :=
  do? stopped := attempt (map_error HostError.ComputerUse
    (on_part HS.session (fun session self => self <| HS.session := session |>)
       (stop (Env.end_session env)))) in
  ret (match stopped with
       | Err error => "; CUA cleanup also failed: " +:+ HostError.to_string error
       | Ok _ => ""
       end).

Definition stopped_banner_failure (failure : cerror) (cleanup_note : string) : cerror :=
  ComputerUseError.new (ComputerUseError.code failure)
    ("the visible control banner failed and the session was stopped: "
     +:+ ComputerUseError.message failure +:+ cleanup_note).

Definition set_interrupted (self : HS.HostSession) : HS.HostSession :=
  self <| HS.interrupted := true |>.

Definition user_interrupted {A} (message : string) : host_op HostError.HostError A :=
  lift (computer_use_error ComputerUseErrorCode.UserInterrupted message).

Definition ensure_session_not_interrupted (env : Env.Environment)
    : host_op HostError.HostError unit :=
  do? self := read id in
  if HS.interrupted self
  then user_interrupted
    "Escape or a shared Host stop interrupted this session; the session is stopped"
  else if control_banner_interrupted (HS.session self) then
    do? cleanup_note := stop_session env in
    run? modify set_interrupted in
    user_interrupted
      ("Escape, the safety banner, or a shared Host stop interrupted this session; the session was stopped"
       +:+ cleanup_note)
  else match control_banner_failure (HS.session self) with
  | Some failure =>
      do? cleanup_note := stop_session env in
      throw (HostError.ComputerUse (stopped_banner_failure failure cleanup_note))
  | None => ret tt
  end.

(** An operation of the session of a table entry that carries the credentials. *)
Definition session_with_capability {A} (session_id grant_id capability : string)
    (m : host_op HostError.HostError A) : table_op A := fun sessions =>
  match sessions !! session_id with
  | None => Some (Err HostError.session_not_found, sessions)
  | Some session =>
      if (HS.task_grant_id session != grant_id) || (HS.capability session != capability)
      then Some (Err (HostError.Protocol "session grant or capability mismatch"), sessions)
      else match m session with
      | Some (r, session) => Some (r, <[session_id := session]> sessions)
      | None => None
      end
  end.

Section Table.
Context `{P : Platform}.
Context `{DL : !Digestible UnsignedLease.UnsignedTaskAuthorizationLeaseValidationRequest}.

Definition lease_is_active (env : Env.Environment) (self : HS.HostSession)
    : hresult unit :=
  validate_active_task_authorization (Env.unix_now env) (Env.uuid env)
    (HS.task_authorization_host self) (HS.task_authorization self).

Definition authorize_session (env : Env.Environment) : host_op HostError.HostError unit :=
  do? self := read id in
  if is_idle_expired (Env.now env) self then
    run? stop_session env in
    run? modify set_interrupted in
    run? modify invalidate_observations in
    lift (computer_use_error ComputerUseErrorCode.SessionRefreshRequired
      "session idle timeout expired; open a new logical-task session")
  else
    run? lift (lease_is_active env self) in
    run? ensure_session_not_interrupted env in
    modify (mark_activity (Env.now env)).

(** The session it returns is the table's entry. *)
Definition authorized_session (env : Env.Environment)
    (session_id grant_id capability : string) : table_op unit :=
  session_with_capability session_id grant_id capability (authorize_session env).
End Table.

Definition route_session (route : option EvidenceRoute.WindowEvidenceEpochRoute)
    (f : EvidenceRoute.WindowEvidenceEpochRoute -> HS.HostSession -> HS.HostSession)
    (sessions : Sessions) : Sessions :=
  match route with
  | Some route =>
      match sessions !! EvidenceRoute.session_id route with
      | Some host => <[EvidenceRoute.session_id route := f route host]> sessions
      | None => sessions
      end
  | None => sessions
  end.

(** [request_handler/evidence_epoch.rs]. *)
Definition prepare_window_evidence_request
    (route : option EvidenceRoute.WindowEvidenceEpochRoute) (sessions : Sessions)
    : Sessions :=
  route_session route (fun _ => synchronized) sessions.

Definition finish_host_request (now : Z) (succeeded : bool)
    (route : EvidenceRoute.WindowEvidenceEpochRoute) (host : HS.HostSession)
    : HS.HostSession :=
  let publication := EvidenceRoute.publication route in
  let host := if negb (HS.interrupted host) then mark_activity now host else host in
  if succeeded then (synchronize_action_evidence_epoch_with publication host).1
  else
    let host := synchronized host in
    if publication ∈? [Publication.BrowserSnapshot; Publication.BrowserSnapshotAttempt]
    then discard_browser_evidence host else host.

Definition finish_window_evidence_request {A} (now : Z)
    (route : option EvidenceRoute.WindowEvidenceEpochRoute) (result : hresult A)
    (sessions : Sessions) : hresult A * Sessions :=
  (result, route_session route (finish_host_request now (is_ok result)) sessions).

(** A loop over the entries; the table's order is not specified, so the loop takes the
    list of the keys in the order it meets them. *)
Fixpoint for_each_session (f : string -> HS.HostSession -> option HS.HostSession)
    (ids : list string) (sessions : Sessions) : option Sessions :=
  match ids with
  | [] => Some sessions
  | id :: ids =>
      match sessions !! id with
      | Some session =>
          match f id session with
          | Some session => for_each_session f ids (<[id := session]> sessions)
          | None => None
          end
      | None => for_each_session f ids sessions
      end
  end.

(** An operation whose result the loop ignores. *)
Definition leaves {E A} (m : host_op E A) (self : HS.HostSession) : option HS.HostSession :=
  option_map snd (m self).

(** The sessions removed are stopped outside the table. *)
Definition reap_idle_window_sessions (now : Z) (sessions : Sessions) : Sessions :=
  filter (fun entry => is_idle_expired now entry.2 = false) sessions.

Section Refresh.
Context `{P : Platform}.
Context `{DL : !Digestible UnsignedLease.UnsignedTaskAuthorizationLeaseValidationRequest}.

(** The body of the loop of [refresh_connection_session_states]; [availability] is what
    the core's probe of the target answers and leaves. *)
Definition refresh_session_state (env : Env.Environment)
    (readiness : Rdy.ComputerUseInputReadiness) (observed_at : Z)
    (probe : session_op Avl.ComputerUseTargetAvailability)
    : host_op HostError.HostError unit :=
  run? observe_input_readiness readiness observed_at in
  do? self := read id in
  if is_err (lease_is_active env self) then
    run? modify (fun self =>
      invalidate_observations self <| HS.latest_preparation_image := None |>) in
    if HS.interrupted self then ret tt
    else
      run? modify set_interrupted in
      run? stop_session env in
      ret tt
  else
    do? availability := attempt (on_part HS.session
      (fun session self => self <| HS.session := session |>) probe) in
    do? availability := attempt (finish_host_attempt observed_at availability) in
    match availability with
    | Ok availability =>
        run? observe_target_availability availability observed_at in
        ret tt
    | Err _ => ret tt
    end.

Definition refresh_connection_session_states (env : string -> Env.Environment)
    (readiness : Rdy.ComputerUseInputReadiness) (observed_at : Z)
    (probe : string -> session_op Avl.ComputerUseTargetAvailability)
    : list string -> Sessions -> option Sessions :=
  for_each_session (fun id =>
    leaves (refresh_session_state (env id) readiness observed_at (probe id))).
End Refresh.

(** The body of the loop of [stop_connection_control_sessions] over the windows. *)
Definition stop_control_session (env : Env.Environment)
    : host_op HostError.HostError unit :=
  do? self := read id in
  if HS.interrupted self then ret tt
  else
    run? modify set_interrupted in
    run? stop_session env in
    modify invalidate_observations.

Definition stop_connection_control_windows (env : string -> Env.Environment)
    : list string -> Sessions -> option Sessions :=
  for_each_session (fun id => leaves (stop_control_session (env id))).

(** ** What every operation keeps *)

Definition core_epoch (self : HS.HostSession) : Z := epoch_of (HS.session self).
Definition host_epoch (self : HS.HostSession) : Z :=
  ActionEvidenceEpoch.value (HS.synchronized_action_evidence_epoch self).

(** What identifies the session and bounds it. *)
Definition credentials (self : HS.HostSession) :=
  ((HS.runtime_session_id self, HS.task_grant_id self, HS.capability self,
    HS.target_process_id self, HS.target_window_handle self, HS.task_authorization self,
    HS.observation_mode self, HS.idle_timeout self),
   (HS.allow_raw_input self, HS.allow_app_terminate self, HS.allow_clipboard_read self,
    HS.allow_clipboard_write self, HS.allow_recording self, HS.allow_live_observation self,
    HS.allow_browser_input self, HS.allow_browser_prepare self,
    HS.allowed_browser_origins self, HS.allow_browser_download self),
   (HS.allow_native_tool self, HS.allow_menu_invoke self,
    HS.allow_session_escalation self, HS.allow_trusted_confirmation self,
    HS.allow_restore_activate self)).

(** An operation may move the core on and drop the Host's copies of the evidence; it
    may not keep a copy across a synchronisation, date it anew, or revive a session. *)
Record host_le (self self' : HS.HostSession) : Prop := {
  le_core : core_epoch self <= core_epoch self';
  le_host : host_epoch self <= core_epoch self -> host_epoch self' <= core_epoch self';
  le_native : HS.latest_observation_id self' = None
    \/ HS.latest_observation_id self' = HS.latest_observation_id self
       /\ host_epoch self' = host_epoch self;
  le_browser : HS.browser_evidence_epoch self' = None
    \/ HS.browser_evidence_epoch self' = HS.browser_evidence_epoch self;
  le_interrupted : HS.interrupted self = true -> HS.interrupted self' = true;
  le_credentials : credentials self' = credentials self;
}.

#[export] Instance host_le_preorder : PreOrder host_le.
Proof.
  split.
  - intros h. split; auto with lia.
  - intros h1 h2 h3 [? ? ? ? ? ?] [? ? ? ? ? ?]. split; [lia | auto | | | auto | congruence].
    + intuition congruence.
    + intuition congruence.
Qed.

(** A change of the core session alone. *)
Lemma host_le_core self session :
  epoch_le (HS.session self) session -> host_le self (self <| HS.session := session |>).
Proof.
  unfold epoch_le. intros H. split; unfold core_epoch, host_epoch in *; simpl; auto with lia.
Qed.

Ltac host_le := split; unfold core_epoch, host_epoch, epoch_of; simpl; auto with lia.

Lemma host_le_discard self : host_le self (discard_browser_evidence self).
Proof. host_le. Qed.

Lemma host_le_invalidate_observations self : host_le self (invalidate_observations self).
Proof. host_le. Qed.

Lemma host_le_sync publication self :
  publication <> Publication.BrowserSnapshot ->
  host_le self (synchronize_action_evidence_epoch_with publication self).1.
Proof.
  intros Hp. unfold synchronize_action_evidence_epoch_with, evidence_epoch_sync_plan. simpl.
  rewrite (bool_decide_eq_false_2 (publication = _)) by done. simpl.
  case_bool_decide; simpl; [reflexivity | host_le].
Qed.

Lemma host_le_synchronized self : host_le self (synchronized self).
Proof. by apply host_le_sync. Qed.

Lemma synchronized_epoch publication self :
  let self' := (synchronize_action_evidence_epoch_with publication self).1 in
  HS.synchronized_action_evidence_epoch self' = CS.action_evidence_epoch (HS.session self)
  /\ HS.session self' = HS.session self.
Proof.
  unfold synchronize_action_evidence_epoch_with, evidence_epoch_sync_plan. simpl.
  repeat case_bool_decide; done.
Qed.

Lemma host_le_invalidate f self self' :
  (forall s s', f s = Some s' -> epoch_le s s') ->
  invalidate_session_observations f self = Some self' -> host_le self self'.
Proof.
  unfold invalidate_session_observations. intros Hf.
  destruct (f (HS.session self)) as [s|] eqn:E; [|done]. intros [= <-].
  etrans; [apply host_le_core, Hf, E | apply host_le_synchronized].
Qed.

Lemma invalidate_epoch_le s s' : invalidate_action_observations s = Some s' -> epoch_le s s'.
Proof. intros H. by apply invalidated_epoch_le, invalidate_invalidated. Qed.

Lemma preserving_native_epoch_le now id s s' :
  invalidate_action_observations_preserving_native_state now id s = Some s' ->
  epoch_le s s'.
Proof.
  unfold invalidate_action_observations_preserving_native_state.
  destruct (invalidate_action_observations s) as [s1|] eqn:E; [|done]. intros [= <-].
  by apply invalidate_epoch_le in E.
Qed.

Lemma preserving_menu_epoch_le now id frame s s' :
  invalidate_action_observations_preserving_native_menu_state now id frame s = Some s' ->
  epoch_le s s'.
Proof.
  unfold invalidate_action_observations_preserving_native_menu_state.
  set (s0 := s <| CS.native_menu_metadata := None |>).
  assert (epoch_le s s0) as Hs by exact (Z.le_refl _).
  destruct (match frame with Some _ => _ | None => _ end) as [s1|] eqn:E; [|done].
  intros H%(inj Some). rewrite <- H. etrans; [exact Hs|]. clear H. clearbody s0. destruct frame.
  - by apply preserving_native_epoch_le in E.
  - by apply invalidate_epoch_le in E.
Qed.

Lemma respects_host_update {E} f :
  (forall s s', f s = Some s' -> epoch_le s s') ->
  respects host_le (update (E := E) (invalidate_session_observations f)).
Proof.
  intros Hf. apply respects_update; [apply _|]. intros self self'. by apply host_le_invalidate.
Qed.

Lemma respects_session {E A} (m : eff CS.ComputerUseSession E A) :
  respects epoch_le m ->
  respects host_le (on_part HS.session (fun session self => self <| HS.session := session |>) m).
Proof.
  intros Hm self r self'. unfold on_part. destruct (m _) as [[r' s]|] eqn:Em; [|done].
  intros [= _ <-]. apply host_le_core. by apply Hm in Em.
Qed.

#[export] Hint Extern 1 (respects host_le (update invalidate_host_action_observations)) =>
  apply (respects_host_update _ invalidate_epoch_le) : respects.
#[export] Hint Extern 1 (respects host_le (update (invalidate_session_observations _))) =>
  apply respects_host_update; eauto using preserving_native_epoch_le,
    preserving_menu_epoch_le : respects.
#[export] Hint Extern 2 (respects host_le (modify _)) =>
  apply respects_modify; [apply _|]; intros ?; first
    [apply host_le_synchronized | apply host_le_discard | apply host_le_invalidate_observations
    | host_le; fail] : respects.
#[export] Hint Extern 1 (respects host_le (on_part HS.session _ _)) =>
  apply respects_session : respects.

(** ** The operations keep it *)

Lemma host_le_observe_input {E} readiness observed_at :
  respects host_le (observe_input_readiness (E := E) readiness observed_at).
Proof. unfold observe_input_readiness. respects. Qed.

Lemma host_le_observe_availability {E} availability observed_at f :
  (forall s s', f s = Some s' -> epoch_le s s') ->
  respects host_le (observe_availability (E := E) availability observed_at
    (invalidate_session_observations f)).
Proof. intros Hf. unfold observe_availability. respects. Qed.

#[export] Hint Resolve host_le_observe_input : respects.

Lemma host_le_observe_target {E} availability observed_at :
  respects host_le (observe_target_availability (E := E) availability observed_at).
Proof. apply host_le_observe_availability, invalidate_epoch_le. Qed.

Lemma host_le_observe_state {E} state now observed_at :
  respects host_le (observe_target_state (E := E) state now observed_at).
Proof.
  unfold observe_target_state. repeat case_match;
    apply host_le_observe_availability;
    eauto using preserving_menu_epoch_le, preserving_native_epoch_le, invalidate_epoch_le.
Qed.

#[export] Hint Resolve host_le_observe_target host_le_observe_state : respects.

Lemma host_le_finish_attempt {A} observed_at (result : cresult A) :
  respects host_le (finish_host_attempt observed_at result).
Proof. unfold finish_host_attempt, sync. respects. Qed.

Lemma host_le_require_browser : respects host_le require_current_browser_evidence_epoch.
Proof. unfold require_current_browser_evidence_epoch, sync. respects. Qed.

#[export] Hint Resolve host_le_finish_attempt host_le_require_browser epoch_le_stop : respects.

Lemma host_le_stop env : respects host_le (stop_session env).
Proof. unfold stop_session. respects. Qed.

#[export] Hint Resolve host_le_stop : respects.

Lemma host_le_ensure env : respects host_le (ensure_session_not_interrupted env).
Proof. unfold ensure_session_not_interrupted, user_interrupted. respects. Qed.

#[export] Hint Resolve host_le_ensure : respects.

Lemma host_le_stop_control env : respects host_le (stop_control_session env).
Proof. unfold stop_control_session. respects. Qed.

Section Session.
Context `{P : Platform}.
Context `{DL : !Digestible UnsignedLease.UnsignedTaskAuthorizationLeaseValidationRequest}.

Lemma host_le_authorize env : respects host_le (authorize_session env).
Proof using Type*. unfold authorize_session. respects. Qed.

Lemma host_le_refresh env readiness observed_at probe :
  respects epoch_le probe ->
  respects host_le (refresh_session_state env readiness observed_at probe).
Proof using Type*.
  intros Hp. unfold refresh_session_state. respects; by apply respects_session.
Qed.

(** ** The life of a session

    Everything that touches a window session, one operation at a time.  [CoreStep] is
    an operation of the core session, [BrowserStep] one of the browser adapter, and
    [AuthorityMoves] a change inside the authority. *)
Inductive session_event : Type :=
| CoreStep (f : CS.ComputerUseSession -> option CS.ComputerUseSession)
| BrowserStep (f : BS.BrowserSession -> BS.BrowserSession)
| ExtensionObserved (observation : ExtObs.ExtensionObservation)
| AuthorityMoves (host : AuthHost.TrustedTaskAuthorizationHost)
| RecordSnapshot (observation_id : string) (accessibility : value)
| FinishSnapshot (observed_at : Z) (result : cresult unit) (publishes : bool)
| FinishAttempt (observed_at : Z) (result : cresult unit)
| FinishRequest (now : Z) (succeeded : bool) (route : EvidenceRoute.WindowEvidenceEpochRoute)
| PrepareRequest
| RequireBrowser
| ObserveInput (readiness : Rdy.ComputerUseInputReadiness) (observed_at : Z)
| ObserveTarget (availability : Avl.ComputerUseTargetAvailability) (observed_at : Z)
| ObserveState (state : value) (now observed_at : Z)
| AbandonWait
| Invalidate
| Authorize (env : Env.Environment)
| RefreshState (env : Env.Environment) (readiness : Rdy.ComputerUseInputReadiness)
    (observed_at : Z) (probe : session_op Avl.ComputerUseTargetAvailability)
| StopControl (env : Env.Environment).

Definition session_step (self : HS.HostSession) (event : session_event)
    : option HS.HostSession :=
  match event with
  | CoreStep f => option_map (fun s => self <| HS.session := s |>) (f (HS.session self))
  | BrowserStep f => Some (self <| HS.browser := f (HS.browser self) |>)
  | ExtensionObserved o => Some (self <| HS.extension_observation := Some o |>)
  | AuthorityMoves host => Some (self <| HS.task_authorization_host := Some host |>)
  | RecordSnapshot id accessibility =>
      Some (record_snapshot_observation id accessibility self)
  | FinishSnapshot t result publishes =>
      leaves (finish_browser_snapshot_attempt t result publishes) self
  | FinishAttempt t result => leaves (finish_host_attempt t result) self
  | FinishRequest now succeeded route => Some (finish_host_request now succeeded route self)
  | PrepareRequest => Some (synchronized self)
  | RequireBrowser => leaves require_current_browser_evidence_epoch self
  | ObserveInput r t => leaves (E := cerror) (observe_input_readiness r t) self
  | ObserveTarget a t => leaves (E := cerror) (observe_target_availability a t) self
  | ObserveState v now t => leaves (E := cerror) (observe_target_state v now t) self
  | AbandonWait => abandon_wait_probe self
  | Invalidate => Some (invalidate_observations self)
  | Authorize env => leaves (authorize_session env) self
  | RefreshState env r t probe => leaves (refresh_session_state env r t probe) self
  | StopControl env => leaves (stop_control_session env) self
  end.

(** The core's operations never move its epoch back. *)
Definition lawful (event : session_event) : Prop :=
  match event with
  | CoreStep f => forall s s', f s = Some s' -> epoch_le s s'
  | RefreshState _ _ _ probe => respects epoch_le probe
  | _ => True
  end.

(** The events that publish evidence. *)
Definition records (event : session_event) (id : string) : Prop :=
  exists accessibility, event = RecordSnapshot id accessibility.
Definition publishes_snapshot (event : session_event) : Prop :=
  (exists t, event = FinishSnapshot t (Ok tt) true)
  \/ (exists now route, event = FinishRequest now true route
      /\ EvidenceRoute.publication route = Publication.BrowserSnapshot).

Lemma leaves_le {E A} (m : host_op E A) self self' :
  respects host_le m -> leaves m self = Some self' -> host_le self self'.
Proof.
  unfold leaves. intros Hm. destruct (m self) as [[r s]|] eqn:Em; [|done].
  intros [= <-]. by apply Hm in Em.
Qed.

Lemma finish_snapshot_le observed_at (result : cresult unit) publishes self self' :
  leaves (finish_browser_snapshot_attempt observed_at result publishes) self = Some self' ->
  result = Ok tt /\ publishes = true \/ host_le self self'.
Proof using Type*.
  intros H. destruct result as [[]|error].
  - destruct publishes; [by left|]. right. eapply leaves_le; [|exact H].
    unfold finish_browser_snapshot_attempt, sync. respects.
  - right. eapply leaves_le; [|exact H]. unfold finish_browser_snapshot_attempt. respects.
Qed.

Lemma finish_request_le now succeeded route self :
  EvidenceRoute.publication route <> Publication.BrowserSnapshot \/ succeeded = false ->
  host_le self (finish_host_request now succeeded route self).
Proof using Type*.
  intros H. unfold finish_host_request.
  set (self1 := if negb (HS.interrupted self) then _ else _).
  assert (host_le self self1) as H1 by (unfold self1; case_match; [host_le | done]).
  etrans; [exact H1|]. clearbody self1. destruct succeeded.
  - apply host_le_sync. naive_solver.
  - case_match; [etrans; [apply host_le_synchronized | apply host_le_discard]|].
    apply host_le_synchronized.
Qed.

(** A step either only keeps and drops, or publishes a new copy. *)
Lemma session_step_le self event self' :
  lawful event -> session_step self event = Some self' ->
  (exists id, records event id) \/ publishes_snapshot event \/ host_le self self'.
Proof using Type*.
  intros Hl. destruct event; simpl in *; intros Hs;
    try (apply (inj Some) in Hs; rewrite <- Hs); try solve [right; right; host_le];
    try (right; right; eapply leaves_le; [|exact Hs];
         eauto using host_le_authorize, host_le_refresh, host_le_stop_control with respects;
         fail).
  - destruct (f (HS.session self)) as [s|] eqn:E; [|done]. right; right.
    apply (inj Some) in Hs. rewrite <- Hs. by apply host_le_core, Hl.
  - left. exists observation_id. by eexists.
  - right. apply finish_snapshot_le in Hs as [[-> ->]|Hs]; [left | by right].
    left. by eexists.
  - right. destruct (decide (EvidenceRoute.publication route = Publication.BrowserSnapshot));
      [destruct succeeded|]; [left; right; eauto | right..]; apply finish_request_le; auto.
  - right; right. apply host_le_synchronized.
  - right; right. eapply host_le_invalidate; [apply invalidate_epoch_le | exact Hs].
Qed.

Lemma record_step self id accessibility :
  let self' := record_snapshot_observation id accessibility self in
  core_epoch self' = core_epoch self /\ host_epoch self' = host_epoch self
  /\ HS.latest_observation_id self' = Some id
  /\ HS.browser_evidence_epoch self' = HS.browser_evidence_epoch self.
Proof using Type. unfold record_snapshot_observation. simpl. by case_bool_decide. Qed.

(** Synchronising with a snapshot stamps it with the core's epoch. *)
Lemma publish_sync self :
  let self' := (synchronize_action_evidence_epoch_with Publication.BrowserSnapshot self).1 in
  HS.session self' = HS.session self /\ host_epoch self' = core_epoch self
  /\ (HS.latest_observation_id self' = None
      \/ HS.latest_observation_id self' = HS.latest_observation_id self
         /\ host_epoch self' = host_epoch self)
  /\ HS.browser_evidence_epoch self' = Some (CS.action_evidence_epoch (HS.session self)).
Proof using Type.
  unfold synchronize_action_evidence_epoch_with, evidence_epoch_sync_plan, host_epoch,
    core_epoch, epoch_of. simpl. case_bool_decide as H; simpl; rewrite ?H; auto 8.
Qed.

Lemma publish_step self event self' :
  publishes_snapshot event -> session_step self event = Some self' ->
  core_epoch self' = core_epoch self
  /\ (host_epoch self <= core_epoch self -> host_epoch self' <= core_epoch self)
  /\ (HS.latest_observation_id self' = None
      \/ HS.latest_observation_id self' = HS.latest_observation_id self
         /\ host_epoch self' = host_epoch self)
  /\ (HS.browser_evidence_epoch self' = None
      \/ HS.browser_evidence_epoch self'
         = Some (CS.action_evidence_epoch (HS.session self'))).
Proof using Type*.
  intros [[t ->]|(now & route & -> & Hp)] Hs; cbn [session_step] in Hs.
  - unfold leaves, finish_browser_snapshot_attempt, bind, read, modify, ret, throw in Hs.
    destruct (require_current_task_authorized_browser_document self);
      cbn [option_map snd] in Hs; apply (inj Some) in Hs; rewrite <- Hs.
    + destruct (publish_sync self) as (E & He & Hn & Hb). unfold core_epoch in *.
      rewrite E, Hb. split_and!; auto with lia.
    + split_and!; auto.
  - apply (inj Some) in Hs. rewrite <- Hs. unfold finish_host_request. rewrite Hp.
    set (self1 := if negb (HS.interrupted self) then _ else _).
    assert (HS.session self1 = HS.session self /\ host_epoch self1 = host_epoch self
            /\ HS.latest_observation_id self1 = HS.latest_observation_id self)
      as (E1 & He1 & Hn1) by (unfold self1; by case_match).
    clearbody self1. destruct (publish_sync self1) as (E & He & Hn & Hb).
    unfold core_epoch in *. rewrite E, Hb, <- Hn1, <- He1, <- E1. split_and!; auto with lia.
Qed.

(** ** Lives

    A session from the state [h0] in which it was opened, with the events so far and
    the core epoch each of them left. *)
Inductive life (h0 : HS.HostSession) : list (session_event * Z) -> HS.HostSession -> Prop :=
| life_opened : life h0 [] h0
| life_event trace h event h' :
    life h0 trace h -> lawful event -> session_step h event = Some h' ->
    life h0 (trace ++ [(event, core_epoch h')]) h'.

(** A session as it is opened: nothing published yet. *)
Definition opened (h : HS.HostSession) : Prop :=
  HS.latest_observation_id h = None /\ HS.browser_evidence_epoch h = None
  /\ host_epoch h <= core_epoch h.

(** An event of the trace, at the epoch [r], and the core has not gone back since. *)
Definition dated (Q : session_event -> Prop) (r : Z) (trace : list (session_event * Z)) : Prop :=
  exists before event since, trace = before ++ (event, r) :: since /\ Q event
    /\ Forall (fun entry => r <= entry.2) since.

Lemma dated_snoc (Q : session_event -> Prop) r trace e r' :
  r <= r' -> dated Q r trace -> dated Q r (trace ++ [(e, r')]).
Proof using Type.
  intros Hr (before & event & since & -> & HQ & Hs).
  exists before, event, (since ++ [(e, r')]). split_and!; [|done|].
  - by rewrite <- app_assoc.
  - by apply Forall_app_2, Forall_cons_2; [|simpl|].
Qed.

Lemma dated_last (Q : session_event -> Prop) r trace event :
  Q event -> dated Q r (trace ++ [(event, r)]).
Proof using Type. intros HQ. by exists trace, event, []. Qed.

Lemma dated_bound (Q : session_event -> Prop) r trace n :
  Forall (fun entry => entry.2 <= n) trace -> dated Q r trace -> r <= n.
Proof using Type.
  intros Ht (b & e & q & -> & _). apply Forall_app in Ht as [_ Ht].
  by apply Forall_cons in Ht as [Ht _].
Qed.

(** The Host's copies are dated: no later than the core, and no earlier than the last
    synchronisation. *)
Record well_dated (trace : list (session_event * Z)) (h : HS.HostSession) : Prop := {
  dated_host : host_epoch h <= core_epoch h;
  dated_trace : Forall (fun entry => entry.2 <= core_epoch h) trace;
  dated_native id : HS.latest_observation_id h = Some id ->
    exists r, host_epoch h <= r /\ dated (fun e => records e id) r trace;
  dated_browser epoch : HS.browser_evidence_epoch h = Some epoch ->
    dated publishes_snapshot (ActionEvidenceEpoch.value epoch) trace;
}.

Lemma well_dated_step trace h event h' :
  well_dated trace h -> lawful event -> session_step h event = Some h' ->
  well_dated (trace ++ [(event, core_epoch h')]) h'.
Proof using Type*.
  intros [Hh Ht Hn Hb] Hl Hs.
  assert (core_epoch h <= core_epoch h') as Hcore.
  { destruct (session_step_le _ _ _ Hl Hs) as [(id & a & ->)|[Hp|[? _ _ _ _ _]]]; [|..|done].
    - apply (inj Some) in Hs. rewrite <- Hs.
      destruct (record_step h id a) as [-> _]. done.
    - by destruct (publish_step _ _ _ Hp Hs) as [-> _]. }
  assert (Forall (fun entry => entry.2 <= core_epoch h') (trace ++ [(event, core_epoch h')]))
    as Ht'.
  { apply Forall_app_2; [|by apply Forall_cons_2; [simpl|]].
    eapply Forall_impl; [exact Ht|]. simpl. lia. }
  assert (forall id r, host_epoch h <= r /\ dated (fun e => records e id) r trace ->
            host_epoch h <= r
            /\ dated (fun e => records e id) r (trace ++ [(event, core_epoch h')])) as Hkeep.
  { intros id r [Hr Hd]. split; [done|]. apply dated_snoc; [|done].
    pose proof (dated_bound _ _ _ _ Ht Hd). lia. }
  assert (forall epoch, HS.browser_evidence_epoch h = Some epoch ->
            dated publishes_snapshot (ActionEvidenceEpoch.value epoch)
              (trace ++ [(event, core_epoch h')])) as Hbk.
  { intros epoch Hd%Hb. apply dated_snoc; [|done].
    pose proof (dated_bound _ _ _ _ Ht Hd). lia. }
  destruct (session_step_le _ _ _ Hl Hs) as [(id & a & ->)|[Hp|[_ Hs' Hn' Hb' _ _]]].
  - cbn [session_step] in Hs. apply (inj Some) in Hs. revert Ht' Hkeep Hbk.
    rewrite <- Hs. destruct (record_step h id a) as (Hce & He & Hid & Hbe).
    rewrite Hce. intros Ht' Hkeep Hbk. split; rewrite ?Hce, ?He, ?Hid, ?Hbe; auto.
    intros ? [= <-]. exists (core_epoch h). split; [done|]. apply dated_last. by eexists.
  - destruct (publish_step _ _ _ Hp Hs) as (Hc & Hho & Hna & Hbr). split; [lia | done | |].
    + intros id Hid. destruct Hna as [Hna|[Hna ->]]; [congruence|].
      rewrite Hna in Hid. apply Hn in Hid as [r Hr]. exists r. by apply Hkeep.
    + intros epoch He. destruct Hbr as [Hbr|Hbr]; [congruence|]. rewrite He in Hbr.
      injection Hbr as ->. by apply dated_last.
  - split; [auto | done | |].
    + intros id Hid. destruct Hn' as [Hn'|[Hn' ->]]; [congruence|].
      rewrite Hn' in Hid. apply Hn in Hid as [r Hr]. exists r. by apply Hkeep.
    + intros epoch He. destruct Hb' as [Hb'|Hb']; [congruence|]. rewrite He in Hb'. eauto.
Qed.

Lemma life_well_dated h0 trace h : opened h0 -> life h0 trace h -> well_dated trace h.
Proof using Type*.
  intros (Hn & Hb & He) Hlife. induction Hlife as [|trace h event h' _ IH Hl Hs].
  - split; [done | done | congruence | congruence].
  - by eapply well_dated_step.
Qed.

(** An entry at the core's epoch, and none since at another. *)
Definition current (Q : session_event -> Prop) (h : HS.HostSession)
    (trace : list (session_event * Z)) : Prop :=
  exists before event since, trace = before ++ (event, core_epoch h) :: since /\ Q event
    /\ Forall (fun entry => entry.2 = core_epoch h) since.

Lemma dated_current Q r trace h :
  Forall (fun entry => entry.2 <= core_epoch h) trace -> r = core_epoch h ->
  dated Q r trace -> current Q h trace.
Proof using Type.
  intros Ht -> (before & event & since & -> & HQ & Hs). exists before, event, since.
  split_and!; [done..|]. apply Forall_app in Ht as [_ Ht]. apply Forall_cons in Ht as [_ Ht].
  rewrite Forall_forall in *. intros e He. specialize (Hs e He). specialize (Ht e He).
  simpl in *. lia.
Qed.

Lemma synchronized_native id h :
  HS.latest_observation_id (synchronized h) = Some id ->
  HS.latest_observation_id h = Some id /\ host_epoch h = core_epoch h.
Proof using Type.
  unfold synchronized, synchronize_action_evidence_epoch,
    synchronize_action_evidence_epoch_with, evidence_epoch_sync_plan, host_epoch,
    core_epoch, epoch_of. simpl. case_bool_decide as H; simpl; [|done]. by rewrite H.
Qed.

Lemma require_browser_ok h h' :
  require_current_browser_evidence_epoch h = Some (Ok tt, h') ->
  HS.browser_evidence_epoch h = Some (CS.action_evidence_epoch (HS.session h)).
Proof using Type.
  unfold require_current_browser_evidence_epoch. intros H.
  apply bind_ok in H as (? & h1 & H1 & H). unfold sync, modify in H1.
  injection H1 as _ H1. apply bind_ok in H as (self & h2 & [Hself Hh2]%read_some & H).
  injection Hself as ->. subst h2. case_bool_decide as E; [|done].
  destruct (synchronized_epoch Publication.None_ h) as [He _].
  change (synchronize_action_evidence_epoch_with Publication.None_ h).1 with (synchronized h)
    in He. simpl in E. rewrite <- H1, He in E. rewrite <- E.
  destruct (host_le_synchronized h) as [_ _ _ [Hb|Hb] _ _]; [congruence | done].
Qed.

(** C6: the Host never accepts evidence that the core has dropped.  Take any life of a
    window session after it was opened: operations of the core, of the browser and of
    the Host, in any order.  When the Host, having synchronised, accepts an observation
    by its name, that observation was recorded by an earlier event, and the core's
    evidence epoch has been the same ever since: nothing in between invalidated the
    evidence.  Likewise, when it accepts the browser evidence, a browser snapshot was
    published earlier, at the core's present epoch, with no invalidation in between. *)
Theorem accepted_evidence_is_current h0 trace h :
  opened h0 -> life h0 trace h ->
  (forall id, require_latest_observation id (synchronized h) = Ok tt ->
     current (fun e => records e id) h trace)
  /\ (forall h', require_current_browser_evidence_epoch h = Some (Ok tt, h') ->
     current publishes_snapshot h trace).
Proof using Type*.
  intros Ho Hlife. pose proof (life_well_dated _ _ _ Ho Hlife) as [Hh Ht Hn Hb]. split.
  - unfold require_latest_observation. intros id [Hid _]%guard_ok. reflect_all.
    match goal with H : _ = Some id |- _ => apply synchronized_native in H as [Hid' He] end.
    destruct (Hn _ Hid') as (r & Hr & Hd). pose proof (dated_bound _ _ _ _ Ht Hd).
    eapply dated_current; [done | | exact Hd]. lia.
  - intros h' H%require_browser_ok. by eapply dated_current; [| |apply Hb].
Qed.

(** ** Authorization of a request on a session *)

(** The lease of a session, if it has one, is in time and well scoped, and its authority
    answered that it is active. *)
Definition live_lease (env : Env.Environment) (self : HS.HostSession) : Prop :=
  match HS.task_authorization self with
  | None => True
  | Some lease =>
      lease_in_time (Env.unix_now env) lease /\ lease_scope_valid lease
      /\ exists authority question decision,
           HS.task_authorization_host self = Some authority
           /\ LeaseReq.authorization_id question = Lease.authorization_id lease
           /\ LeaseReq.lease_request_digest question = Lease.request_digest lease
           /\ AuthHost.validate_lease authority question = Ok decision
           /\ ValDecision.status decision = Active
           /\ ValDecision.request_digest decision = LeaseReq.request_digest question
  end.

(** Everything the Host asks of a session before a request may use it. *)
Record admits (env : Env.Environment) (self : HS.HostSession) : Prop := {
  admits_not_idle : Env.now env - HS.last_activity self < HS.idle_timeout self;
  admits_lease : lease_is_active env self = Ok tt;
  admits_live_lease : live_lease env self;
  admits_live : HS.interrupted self = false;
  admits_banner : forall banner, CS.control_banner (HS.session self) = Some banner ->
    Banner.interrupted banner = false
    /\ forall kind message, Banner.failure banner = Some (kind, message) ->
       kind = BannerFailureKind.Rendering;
}.

(** A core session that was stopped: inactive, without a target, its evidence dropped. *)
Definition stopped (session session' : CS.ComputerUseSession) : Prop :=
  invalidated session session' /\ CS.active session' = false /\ CS.target session' = None
  /\ CS.upstream_session_state session' = Upstream.Inactive.

(** What a refused request leaves of the session it named: an idle session is stopped,
    interrupted and without evidence; one that the banner stopped is stopped and
    interrupted; one whose banner failed is stopped; any other is as it was. *)
Inductive refused (env : Env.Environment) (self : HS.HostSession) : HS.HostSession -> Prop :=
| refused_idle session self' :
    HS.idle_timeout self <= Env.now env - HS.last_activity self ->
    stopped (HS.session self) session ->
    self' = self <| HS.session := session |> <| HS.interrupted := true |>
              <| HS.synchronized_action_evidence_epoch := CS.action_evidence_epoch session |>
              <| HS.latest_observation_id := None |>
              <| HS.latest_accessibility_state_id := None |>
              <| HS.latest_accessibility_root := None |>
              <| HS.extension_observation := None |>
              <| HS.browser_evidence_epoch := None |>
              <| HS.browser := invalidate_snapshot (HS.browser self) |> ->
    refused env self self'
| refused_stopped banner session :
    Env.now env - HS.last_activity self < HS.idle_timeout self ->
    CS.control_banner (HS.session self) = Some banner -> Banner.interrupted banner = true ->
    stopped (HS.session self) session ->
    refused env self (self <| HS.session := session |> <| HS.interrupted := true |>)
| refused_failed banner kind message session :
    Env.now env - HS.last_activity self < HS.idle_timeout self ->
    CS.control_banner (HS.session self) = Some banner ->
    Banner.failure banner = Some (kind, message) -> kind <> BannerFailureKind.Rendering ->
    stopped (HS.session self) session ->
    refused env self (self <| HS.session := session |>)
| refused_as_it_was :
    Env.now env - HS.last_activity self < HS.idle_timeout self ->
    HS.interrupted self = true \/ lease_is_active env self <> Ok tt ->
    refused env self self.

Lemma live_lease_active env self : lease_is_active env self = Ok tt -> live_lease env self.
Proof using Type*.
  unfold lease_is_active, live_lease. intros H%active_lease_is_live.
  destruct (HS.task_authorization self) as [lease|]; [|done].
  destruct H as (Ht & Hs & authority & question & decision & ? & Hq & ? & ? & ?).
  split_and!; try done. exists authority, question, decision.
  unfold lease_validation_request in Hq. apply rbind_ok in Hq as (? & _ & Hq).
  injection Hq as <-. by split_and!.
Qed.

Lemma banner_clear session :
  control_banner_interrupted session = false /\ control_banner_failure session = None <->
  forall banner, CS.control_banner session = Some banner -> Banner.interrupted banner = false
    /\ forall kind message, Banner.failure banner = Some (kind, message) ->
       kind = BannerFailureKind.Rendering.
Proof using Type.
  unfold control_banner_interrupted, control_banner_failure.
  destruct (CS.control_banner session) as [banner|]; cbn; [|naive_solver].
  split.
  - intros [Hi Hf] _ [= <-]. split; [done|]. intros kind message E. rewrite E in Hf.
    by destruct kind.
  - intros H. destruct (H _ eq_refl) as [? Hf]. split; [done|].
    destruct (Banner.failure banner) as [[kind message]|]; [|done].
    by rewrite (Hf _ _ eq_refl).
Qed.

Lemma ensure_ok env self u self' :
  ensure_session_not_interrupted env self = Some (Ok u, self') <->
  HS.interrupted self = false /\ control_banner_interrupted (HS.session self) = false
  /\ control_banner_failure (HS.session self) = None /\ self' = self.
Proof using Type.
  destruct u. unfold ensure_session_not_interrupted, user_interrupted, computer_use_error.
  rewrite bind_ok. split.
  - intros (? & ? & [[= ->] ->]%read_some & H). cbv [id] in H.
    destruct (HS.interrupted self); [discriminate H|].
    destruct (control_banner_interrupted _).
    { apply bind_ok in H as (? & ? & _ & H). by apply bind_ok in H as (? & ? & _ & H). }
    destruct (control_banner_failure _).
    { by apply bind_ok in H as (? & ? & _ & H). }
    by injection H as <-.
  - intros (H1 & H2 & H3 & ->). exists self, self. split; [done|]. cbv [id].
    by rewrite H1, H2, H3.
Qed.

Lemma authorize_session_ok env self u self' :
  authorize_session env self = Some (Ok u, self') <->
  admits env self /\ self' = mark_activity (Env.now env) self.
Proof using Type*.
  destruct u. unfold authorize_session. rewrite bind_ok. split.
  - intros (? & ? & [[= ->] ->]%read_some & H). cbv [id] in H.
    destruct (is_idle_expired _ _) eqn:Hi.
    { apply bind_ok in H as (? & ? & _ & H). apply bind_ok in H as (? & ? & _ & H).
      by apply bind_ok in H as (? & ? & _ & H). }
    apply bind_ok in H as ([] & ? & [Hl ->]%lift_some & H). symmetry in Hl.
    apply bind_ok in H as (? & ? & (H1 & H2 & H3 & ->)%ensure_ok & H).
    injection H as <-. split; [|done]. apply Z.leb_gt in Hi.
    split; try done; [by apply live_lease_active | by apply banner_clear].
  - intros [[Hi%Z.leb_gt Hl _ H1 H2%banner_clear] ->]. destruct H2 as [H2 H3].
    exists self, self. split; [done|]. cbv [id]. fold (is_idle_expired (Env.now env) self) in Hi.
    rewrite Hi, bind_ok. exists tt, self. split; [by rewrite Hl|].
    rewrite bind_ok. exists tt, self. split; [by apply ensure_ok | done].
Qed.

(** A session is stopped whatever the driver answers. *)
Lemma stop_session_some env self r self' :
  stop_session env self = Some (r, self') ->
  is_ok r = true
  /\ exists session, stopped (HS.session self) session /\ self' = self <| HS.session := session |>.
Proof using Type.
  unfold stop_session. intros H.
  assert (Hs : exists note, r = Ok note /\ exists r1,
    map_error HostError.ComputerUse (on_part HS.session (fun session self =>
      self <| HS.session := session |>) (stop (Env.end_session env))) self = Some (r1, self')).
  { apply bind_some in H as [(e & s1 & H1 & [= -> ->])|(a & s1 & H1 & H)].
    - by apply attempt_some in H1 as (? & _ & [=]).
    - apply attempt_some in H1 as (r1 & H1 & [= <-]). injection H as <- <-. eauto. }
  destruct Hs as (note & -> & r1 & H1). split; [done|].
  apply map_error_some in H1 as (r2 & H1 & _). unfold on_part in H1.
  destruct (stop _ _) as [[r3 session]|] eqn:E; [|done]. injection H1 as _ <-.
  exists session. split; [|done]. apply invalidate_local_invalidated. unfold stop in E.
  apply bind_some in E as [(e & s1 & [[=] _]%read_some & _)|(x & s1 & [_ ->]%read_some & E)].
  destruct (negb _); [by apply update_some in E as [_ E]|].
  apply bind_some in E as [(e & s1 & [[=] _]%update_some & _)|(y & s1 & [_ E1]%update_some & E)].
  by apply lift_some in E as [_ ->].
Qed.

(** An authorization never touches more than the session it names. *)
Lemma authorize_err env self e self' :
  authorize_session env self = Some (Err e, self') -> host_le self self' /\ refused env self self'.
Proof using Type*.
  intros H. split; [by eapply host_le_authorize|]. unfold authorize_session in H.
  apply bind_err in H as [H|(? & ? & [[= ->] ->]%read_some & H)]; [done|]. cbv [id] in H.
  destruct (is_idle_expired (Env.now env) self) eqn:Hi.
  { apply Z.leb_le in Hi.
    apply bind_err in H as [[[=] _]%stop_session_some|(? & ? & (_ & session & Hs & ->)%stop_session_some & H)].
    apply bind_err in H as [H|(? & ? & [= _ <-] & H)]; [done|].
    apply bind_err in H as [H|(? & ? & [= _ <-] & H)]; [done|].
    injection H as _ <-. by eapply refused_idle. }
  apply Z.leb_gt in Hi.
  apply bind_err in H as [[Hl ->]%lift_some|([] & ? & [Hl ->]%lift_some & H)].
  { apply refused_as_it_was; [done|]. right. congruence. }
  apply bind_err in H as [H|(? & ? & _ & H)]; [|done].
  unfold ensure_session_not_interrupted, user_interrupted, computer_use_error in H.
  apply bind_err in H as [H|(? & ? & [[= ->] ->]%read_some & H)]; [done|]. cbv [id] in H.
  destruct (HS.interrupted self) eqn:Hint.
  { apply lift_some in H as [_ ->]. apply refused_as_it_was; auto. }
  unfold control_banner_interrupted, control_banner_failure in H.
  destruct (CS.control_banner (HS.session self)) as [banner|] eqn:Eb; [|done]. cbn in H.
  destruct (Banner.interrupted banner) eqn:Ei.
  { apply bind_err in H as [[[=] _]%stop_session_some|(? & ? & (_ & session & Hs & ->)%stop_session_some & H)].
    apply bind_err in H as [H|(? & ? & [= _ <-] & H)]; [done|].
    apply lift_some in H as [_ ->]. by eapply refused_stopped. }
  destruct (Banner.failure banner) as [[kind message]|] eqn:Ef; [|done].
  assert (Hk : kind <> BannerFailureKind.Rendering) by (by intros ->).
  assert (Hfail : exists failure, (do? cleanup_note := stop_session env in
      throw (A := unit) (HostError.ComputerUse (stopped_banner_failure failure cleanup_note))) self
      = Some (Err e, self')) by (destruct kind; eauto; done).
  destruct Hfail as (failure & Hfail).
  apply bind_err in Hfail as [[[=] _]%stop_session_some|(? & ? & (_ & session & Hs & ->)%stop_session_some & Hfail)].
  injection Hfail as _ <-. by eapply refused_failed.
Qed.

Lemma sync_keeps publication self :
  let self' := (synchronize_action_evidence_epoch_with publication self).1 in
  HS.interrupted self' = HS.interrupted self /\ credentials self' = credentials self.
Proof using Type.
  unfold synchronize_action_evidence_epoch_with, evidence_epoch_sync_plan. simpl.
  repeat case_bool_decide; done.
Qed.

Lemma finish_request_keeps now succeeded route self :
  let self' := finish_host_request now succeeded route self in
  HS.interrupted self' = HS.interrupted self /\ credentials self' = credentials self.
Proof using Type.
  unfold finish_host_request.
  set (self1 := if negb (HS.interrupted self) then _ else _).
  assert (HS.interrupted self1 = HS.interrupted self /\ credentials self1 = credentials self)
    as [<- <-] by (unfold self1; by case_match).
  unfold synchronized, synchronize_action_evidence_epoch.
  repeat case_match; apply sync_keeps.
Qed.

(** No event revives an interrupted session or changes what it is bound to. *)
Lemma session_step_keeps self event self' :
  lawful event -> session_step self event = Some self' ->
  (HS.interrupted self = true -> HS.interrupted self' = true)
  /\ credentials self' = credentials self.
Proof using Type*.
  intros Hl Hs. destruct (session_step_le _ _ _ Hl Hs) as [(id & a & ->)|[Hp|[]]]; [| |done].
  - apply (inj Some) in Hs. rewrite <- Hs. unfold record_snapshot_observation.
    by case_bool_decide.
  - destruct Hp as [[t ->]|(now & route & -> & _)]; cbn [session_step] in Hs.
    + unfold leaves, finish_browser_snapshot_attempt, bind, read, modify, ret, throw in Hs.
      destruct (require_current_task_authorized_browser_document self);
        cbn [option_map snd] in Hs; apply (inj Some) in Hs; rewrite <- Hs; [|done].
      by destruct (sync_keeps Publication.BrowserSnapshot self) as [-> ->].
    + apply (inj Some) in Hs. rewrite <- Hs.
      by destruct (finish_request_keeps now true route self) as [-> ->].
Qed.

Lemma life_keeps h0 trace h :
  life h0 trace h ->
  (HS.interrupted h0 = true -> HS.interrupted h = true) /\ credentials h = credentials h0.
Proof using Type*.
  induction 1 as [|trace h event h' _ [IHi IHc] Hl Hs]; [done|].
  destruct (session_step_keeps _ _ _ Hl Hs) as [Hi Hc]. split; [auto | congruence].
Qed.

(** C32: a request reaches a window session exactly when everything that bounds it
    allows it.  [authorized_session] answers with the session if and only if the table
    holds it under that name, the request carries its grant and its capability, it has
    not been idle for its timeout, its lease (when it has one) is in time, well scoped and
    confirmed by the authority, and neither a stop, nor the safety banner, nor a banner
    failure has ended it; then nothing but its activity time changes.  A refusal may only
    stop the session, and leaves everything else of it, its activity time included, as it
    was: with wrong credentials, without a live lease or when it was interrupted before,
    nothing changes; the banner stops it; an expired session is stopped, interrupted and
    without evidence.  No other session is touched.  An interrupted session is never
    admitted again, whatever happens to it afterwards. *)
Theorem authorization_admits_exactly env sessions id grant cap r sessions' :
  authorized_session env id grant cap sessions = Some (r, sessions') ->
  (r = Ok tt <-> exists self, sessions !! id = Some self /\ HS.task_grant_id self = grant
     /\ HS.capability self = cap /\ admits env self)
  /\ (forall self, sessions !! id = Some self -> r = Ok tt ->
       sessions' = <[id := self <| HS.last_activity := Env.now env |>]> sessions)
  /\ (r <> Ok tt -> forall self, sessions !! id = Some self ->
       exists self', sessions' !! id = Some self' /\ host_le self self'
         /\ (HS.task_grant_id self <> grant \/ HS.capability self <> cap -> self' = self)
         /\ (HS.task_grant_id self = grant -> HS.capability self = cap ->
             refused env self self'))
  /\ (forall other, other <> id -> sessions' !! other = sessions !! other)
  /\ (forall self trace later env', sessions !! id = Some self ->
       HS.interrupted self = true -> life self trace later -> ~ admits env' later).
Proof using Type*.
  intros H. assert (forall self trace later env', sessions !! id = Some self ->
       HS.interrupted self = true -> life self trace later -> ~ admits env' later) as Hlatch.
  { intros self trace later env' _ Hi Hlife [_ _ _ Hn _].
    apply life_keeps in Hlife as [Hlife _]. rewrite Hlife in Hn; done. }
  unfold authorized_session, session_with_capability in H.
  destruct (sessions !! id) as [self|] eqn:Hid.
  2: { injection H as <- <-. split_and!; try done. split; [done|]. by intros (? & ? & _). }
  destruct ((_ != grant) || _) eqn:Hc; reflect_in Hc.
  { injection H as <- <-. split_and!; try done.
    - split; [done|]. intros (s & [= <-] & ? & ? & _). naive_solver.
    - intros _ s [= <-]. exists self. split_and!; [done | reflexivity | done | naive_solver]. }
  destruct Hc as [Hg Hk].
  destruct (authorize_session env self) as [[r0 self']|] eqn:Ha; [|done].
  apply (inj Some) in H. apply pair_eq in H as [<- <-]. destruct r0 as [[]|e].
  - apply authorize_session_ok in Ha as [Hadm ->]. split_and!; try done.
    + split; [|done]. intros _. by exists self.
    + by intros s [= <-].
    + intros other Ho. by apply lookup_insert_ne.
  - assert (~ admits env self) as Hno.
    { intros Hadm. pose proof (proj2 (authorize_session_ok env self tt _) (conj Hadm eq_refl)) as E.
      rewrite Ha in E. discriminate E. }
    apply authorize_err in Ha as [Hle Hrefused]. split_and!; try done.
    + split; [done|]. by intros (s & [= <-] & _ & _ & ?).
    + intros _ s [= <-]. exists self'. split_and!; [apply lookup_insert_eq | done | | done].
      naive_solver.
    + intros other Ho. by apply lookup_insert_ne.
Qed.
End Session.

(** ** Samples *)

Definition sample_lease_digest
    : Digestible UnsignedLease.UnsignedTaskAuthorizationLeaseValidationRequest :=
  fun _ => Ok "d".

Definition sample_window_host : HS.HostSession := {|
  HS.extension_observation := None; HS.runtime_session_id := "r"; HS.target_process_id := 1;
  HS.target_window_handle := 2; HS.task_grant_id := "g"; HS.observation_mode := TaskGrant.Semantic;
  HS.allow_raw_input := true; HS.allow_app_terminate := false;
  HS.allow_clipboard_read := false; HS.allow_clipboard_write := false;
  HS.allow_recording := false; HS.allow_live_observation := false;
  HS.allow_browser_input := true; HS.allow_browser_prepare := false;
  HS.allowed_browser_origins := []; HS.allow_browser_download := false;
  HS.allow_native_tool := false; HS.allow_menu_invoke := false;
  HS.allow_session_escalation := false; HS.allow_trusted_confirmation := false;
  HS.task_authorization := None; HS.task_authorization_host := None;
  HS.allow_restore_activate := false; HS.capability := "c"; HS.interrupted := false;
  HS.session := sample_session;
  HS.synchronized_action_evidence_epoch := ActionEvidenceEpoch.Epoch 3;
  HS.browser_evidence_epoch := None; HS.browser := BS.default;
  HS.latest_observation_id := None; HS.latest_accessibility_state_id := None;
  HS.latest_accessibility_root := None; HS.latest_shared_image := None;
  HS.latest_preparation_image := None;
  HS.input_events := new_with_restore_capability sample_target
    (sample_readiness ComputerUseInputStatus.Ready) (sample_availability false) false 0;
  HS.idle_timeout := 1000; HS.last_activity := 0 |}.

Lemma accepted_evidence_is_current_witness :
  let h := record_snapshot_observation "o1" Null (synchronized sample_window_host) in
  require_latest_observation "o1" (synchronized h) = Ok tt
  /\ current (fun e => records e "o1") h
       [(PrepareRequest, core_epoch h); (RecordSnapshot "o1" Null, core_epoch h)].
Proof.
  assert (life (P := sample_platform) (DL := sample_lease_digest) sample_window_host
    [(PrepareRequest, core_epoch sample_window_host);
     (RecordSnapshot "o1" Null, core_epoch sample_window_host)]
    (record_snapshot_observation "o1" Null (synchronized sample_window_host))) as Hlife.
  { exact (life_event sample_window_host [(PrepareRequest, _)]
      (synchronized sample_window_host) (RecordSnapshot "o1" Null) _
      (life_event sample_window_host [] sample_window_host PrepareRequest _
        (life_opened _) I eq_refl) I eq_refl). }
  split; [vm_compute; reflexivity|].
  refine (proj1 (accepted_evidence_is_current (P := sample_platform)
    (DL := sample_lease_digest) sample_window_host _ _ _ Hlife) "o1" _).
  - split_and!; vm_compute; done.
  - vm_compute. reflexivity.
Defined.

Definition sample_environment (now : Z) : Env.Environment :=
  {| Env.now := now; Env.unix_now := now; Env.uuid := "u"; Env.end_session := Ok tt |}.

Lemma authorization_admits_exactly_witness :
  exists r sessions',
    authorized_session (P := sample_platform) (DL := sample_lease_digest)
      (sample_environment 10) "s" "g" "c" {["s" := sample_window_host]}
    = Some (r, sessions')
    /\ r = Ok tt.
Proof.
  destruct (authorized_session (P := sample_platform) (DL := sample_lease_digest)
    (sample_environment 10) "s" "g" "c" {["s" := sample_window_host]})
    as [[r sessions']|] eqn:E; [|vm_compute in E; discriminate].
  exists r, sessions'. split; [done|].
  apply (proj1 (authorization_admits_exactly (P := sample_platform)
    (DL := sample_lease_digest) _ _ _ _ _ _ _ E)).
  exists sample_window_host. split; [reflexivity|]. do 2 (split; [reflexivity|]).
  split; [reflexivity | vm_compute; reflexivity | exact I | reflexivity |].
  intros banner H. vm_compute in H. try discriminate H. injection H as <-.
  split; [reflexivity|]. intros kind message Hf. discriminate Hf.
Defined.
