(* ===== verification/Calls.v ===== *)
(** * Calls of the outside world

    A component that asks the driver, the operating system or a user is run against an
    oracle: a function that answers the next call from the calls made so far.  The
    history of calls and answers is part of the state, so that a theorem can say what was
    asked, in which order, and for every way the world may behave. *)

From S2P Require Import Prelude Effects.

(** Calls are indexed by the type of their answer. *)
Definition history (call : Type -> Type) : Type := list {A & (call A * A)%type}.
Definition oracle (call : Type -> Type) : Type :=
  forall A, history call -> call A -> A.

Definition asked {call : Type -> Type} {A} (c : call A) (a : A)
    : {A & (call A * A)%type} := existT A (c, a).

Section Asking.
Context {call : Type -> Type} (world : oracle call).

Definition ask {S E A} (c : call A) : eff (history call * S) E A := fun '(h, s) =>
  let a := world A h c in Some (Ok a, (h ++ [asked c a], s)).
End Asking.

(** An operation that asks nothing. *)
Definition silent {call S E A} (m : eff S E A) : eff (history call * S) E A :=
  on_part snd (fun s t => (t.1, s)) m.

(** An operation of a part of the state that does ask. *)
Definition on_focus {call S T E A} (get : T -> S) (set : S -> T -> T)
    (m : eff (history call * S) E A) : eff (history call * T) E A :=
  on_part (fun t => (t.1, get t.2)) (fun s t => (s.1, set s.2 t.2)) m.

(** An operation of a local variable that asks; its result and the variable's last value. *)
Definition with_local {call S T E F A} (x : T) (m : eff (history call * T) E A)
    : eff (history call * S) F (result E A * T) := fun '(h, s) =>
  match m (h, x) with Some (r, (h', x')) => Some (Ok (r, x'), (h', s)) | None => None end.

(** ** What an operation asks *)

(** The history only grows. *)
Definition extends {call S} (s s' : history call * S) : Prop :=
  exists new, s'.1 = s.1 ++ new.

#[export] Instance extends_preorder {call S} : PreOrder (@extends call S).
Proof.
  split.
  - intros s. exists []. by rewrite app_nil_r.
  - intros s1 s2 s3 [n1 H1] [n2 H2]. exists (n1 ++ n2). by rewrite H2, H1, app_assoc.
Qed.

Lemma extends_ask {call S E A} (world : oracle call) (c : call A) :
  respects (@extends call S) (ask (E := E) world c).
Proof. intros [h s] r [h' s'] Hm. injection Hm as _ <- _. by eexists. Qed.

Lemma extends_silent {call S E A} (m : eff S E A) :
  respects (@extends call S) (silent m).
Proof.
  intros [h s] r [h' s']. unfold silent, on_part. simpl.
  destruct (m s) as [[r1 s1]|]; [|done]. intros H. injection H as _ <- _. exists []. by rewrite app_nil_r.
Qed.

#[export] Hint Resolve extends_ask extends_silent : respects.

Lemma ask_some {call S E A} (world : oracle call) (c : call A) h (s : S)
    (r : result E A) h' s' :
  ask world c (h, s) = Some (r, (h', s')) <->
  r = Ok (world A h c) /\ h' = h ++ [asked c (world A h c)] /\ s' = s.
Proof. unfold ask. naive_solver. Qed.

Lemma silent_some {call S E A} (m : eff S E A) (h : history call) s (r : result E A) h' s' :
  silent m (h, s) = Some (r, (h', s')) <-> m s = Some (r, s') /\ h' = h.
Proof.
  unfold silent, on_part. simpl. destruct (m s) as [[r1 s1]|]; naive_solver.
Qed.

Lemma on_focus_some {call S T E A} (get : T -> S) (set : S -> T -> T)
    (m : eff (history call * S) E A) h t (r : result E A) h' t' :
  on_focus get set m (h, t) = Some (r, (h', t')) <->
  exists s', m (h, get t) = Some (r, (h', s')) /\ t' = set s' t.
Proof.
  unfold on_focus, on_part. simpl.
  destruct (m (h, get t)) as [[r1 [h1 s1]]|]; naive_solver.
Qed.

Lemma with_local_some {call S T E F A} (x : T) (m : eff (history call * T) E A) h (s : S)
    (r : result F (result E A * T)) h' s' :
  with_local x m (h, s) = Some (r, (h', s')) <->
  exists r1 x', m (h, x) = Some (r1, (h', x')) /\ r = Ok (r1, x') /\ s' = s.
Proof.
  unfold with_local. destruct (m (h, x)) as [[r1 [h1 x1]]|]; naive_solver.
Qed.

Lemma total_ask {call S E A} (world : oracle call) (c : call A) :
  total (S := history call * S) (E := E) (ask world c).
Proof. by intros [h s]. Qed.
Lemma total_silent {call S E A} (m : eff S E A) :
  total m -> total (silent (call := call) m).
Proof. apply total_on_part. Qed.
Lemma total_on_focus {call S T E A} (get : T -> S) (set : S -> T -> T)
    (m : eff (history call * S) E A) :
  total m -> total (on_focus get set m).
Proof. apply total_on_part. Qed.

Lemma total_with_local {call S T E F A} (x : T) (m : eff (history call * T) E A) :
  total m -> total (S := history call * S) (E := F) (with_local x m).
Proof.
  intros Hm [h s]. specialize (Hm (h, x)). unfold with_local. by destruct (m _) as [[? [??]]|].
Qed.

#[export] Hint Resolve total_ask total_silent total_on_focus total_with_local : total.

(** ** The calls of interest

    Of the calls an operation makes, those a property is about, say the inputs that
    reach a driver. *)

Section Acts.
Context {call : Type -> Type} (of_interest : {A & (call A * A)%type} -> bool).

Definition of_interest_in (h : history call) : history call := List.filter of_interest h.

Lemma of_interest_app h1 h2 :
  of_interest_in (h1 ++ h2) = of_interest_in h1 ++ of_interest_in h2.
Proof. apply List.filter_app. Qed.

(** The history grows by calls that are not of interest. *)
Definition quiet {S} (s s' : history call * S) : Prop :=
  exists new, s'.1 = s.1 ++ new /\ of_interest_in new = [].

#[export] Instance quiet_preorder {S} : PreOrder (@quiet S).
Proof.
  split.
  - intros s. exists []. by rewrite app_nil_r.
  - intros s1 s2 s3 (n1 & H1 & Q1) (n2 & H2 & Q2). exists (n1 ++ n2). split.
    + by rewrite H2, H1, app_assoc.
    + by rewrite of_interest_app, Q1, Q2.
Qed.

Lemma quiet_ask {S E A} (world : oracle call) (c : call A) :
  (forall a, of_interest (asked c a) = false) ->
  respects (@quiet S) (ask (E := E) world c).
Proof.
  intros Hc [h s] r [h' s'] Hm. injection Hm as _ <- _. eexists. split; [done|].
  simpl. by rewrite Hc.
Qed.
Lemma quiet_silent {S E A} (m : eff S E A) : respects (@quiet S) (silent m).
Proof.
  intros [h s] r [h' s'] [_ ->]%silent_some. exists []. by rewrite app_nil_r.
Qed.
Lemma quiet_on_focus {S T E A} (get : T -> S) (set : S -> T -> T)
    (m : eff (history call * S) E A) :
  respects quiet m -> respects quiet (on_focus get set m).
Proof.
  intros Hm [h t] r [h' t'] (s' & Hs & ->)%on_focus_some. exact (Hm _ _ _ Hs).
Qed.

Lemma quiet_with_local {S T E F A} (x : T) (m : eff (history call * T) E A) :
  respects quiet m ->
  respects quiet (S := history call * S) (E := F) (with_local x m).
Proof.
  intros Hm [h s] r [h' s'] (r1 & x' & H & -> & ->)%with_local_some. exact (Hm _ _ _ H).
Qed.

(** Between the two states there was at most one call of interest, one that [Phi] allows
    after the calls made until then. *)
Definition acted {S} (Phi : history call -> {A & (call A * A)%type} -> Prop)
    (s s' : history call * S) : Prop :=
  quiet s s'
  \/ exists before c after, s'.1 = s.1 ++ before ++ c :: after
       /\ of_interest_in before = [] /\ of_interest c = true /\ of_interest_in after = []
       /\ Phi (s.1 ++ before) c.

Lemma acted_after {S} Phi (s s1 s' : history call * S) :
  quiet s s1 -> acted Phi s1 s' -> acted Phi s s'.
Proof.
  intros Hq [Hq2|(bs & c & cs & E2 & Q2 & Hc & Q3 & HP)]; [left; by etrans|].
  right. destruct Hq as (n1 & E1 & Q1). exists (n1 ++ bs), c, cs.
  rewrite E1 in E2, HP. rewrite of_interest_app, Q1, E2, <- !app_assoc.
  by rewrite <- app_assoc in HP.
Qed.

(** From this state, [m] makes at most one call of interest. *)
Definition acts {S E A} (Phi : history call -> {A & (call A * A)%type} -> Prop)
    (m : eff (history call * S) E A) (s : history call * S) : Prop :=
  forall r s', m s = Some (r, s') -> acted Phi s s'.

Lemma acts_quiet {S E A} Phi (m : eff (history call * S) E A) s :
  respects quiet m -> acts Phi m s.
Proof. intros Hm r s' H. left. exact (Hm _ _ _ H). Qed.

(** A quiet operation before the act. *)
Lemma acts_after {S E A B} Phi (m : eff (history call * S) E A) (k : A -> _ B) s :
  respects quiet m ->
  (forall a s', m s = Some (Ok a, s') -> acts Phi (k a) s') ->
  acts (E := E) Phi (bind m k) s.
Proof.
  intros Hm Hk r s' [(e & s1 & H1 & [= -> ->]) | (a & s1 & H1 & H2)]%bind_some.
  - left. exact (Hm _ _ _ H1).
  - eapply acted_after; [by eapply Hm | by eapply Hk].
Qed.

(** A quiet operation after it. *)
Lemma acts_before {S E A B} Phi (m : eff (history call * S) E A) (k : A -> _ B) s :
  acts Phi m s -> (forall a, respects quiet (k a)) -> acts (E := E) Phi (bind m k) s.
Proof.
  intros Hm Hk r s' [(e & s1 & H1 & [= -> ->]) | (a & s1 & H1 & H2)]%bind_some.
  - exact (Hm _ _ H1).
  - apply Hk in H2 as Hq. destruct (Hm _ _ H1) as [Hq1|(bs & c & cs & E1 & Q1 & Hc & Q2 & HP)].
    + left. by etrans.
    + right. destruct Hq as (n2 & E2 & Q3). exists bs, c, (cs ++ n2).
      rewrite E2, E1, of_interest_app, Q2, Q3, <- !app_assoc. split_and!; try done.
Qed.

Lemma acts_on_focus {S T E A} Phi (get : T -> S) (set : S -> T -> T)
    (m : eff (history call * S) E A) h t :
  acts Phi m (h, get t) -> acts Phi (on_focus get set m) (h, t).
Proof. intros Hm r [h' t'] (s' & Hs & ->)%on_focus_some. exact (Hm _ _ Hs). Qed.

Lemma acts_impl {S E A} (Phi Psi : _ -> _ -> Prop) (m : eff (history call * S) E A) s :
  (forall h c, Phi h c -> Psi h c) -> acts Phi m s -> acts Psi m s.
Proof.
  intros HP Hm r s' H. destruct (Hm _ _ H) as [?|(bs & c & cs & ? & ? & ? & ? & ?)]; [by left|].
  right. exists bs, c, cs. split_and!; auto.
Qed.
Lemma acts_read {S E A B} Phi (f : S -> A) (k : A -> _ B) h s :
  acts (E := E) Phi (k (f s)) (h, s) -> acts Phi (bind (silent (read f)) k) (h, s).
Proof. done. Qed.
Lemma acts_lift {S E A B} Phi (x : result E A) (k : A -> _ B) (s : history call * S) :
  (forall a, x = Ok a -> acts (E := E) Phi (k a) s) -> acts Phi (bind (lift x) k) s.
Proof.
  intros Hk. apply acts_after; [apply respects_lift; apply _|].
  intros a s' [Ha ->]%lift_some. auto.
Qed.
(** A call that is not of interest, and its answer. *)
Lemma acts_ask {S E A B} Phi (world : oracle call) (c : call A) (k : A -> _ B) h (s : S) :
  (forall a, of_interest (asked c a) = false) ->
  (forall a, acts (E := E) Phi (k a) (h ++ [asked c a], s)) ->
  acts Phi (bind (ask world c) k) (h, s).
Proof.
  intros Hc Hk. apply acts_after; [by apply quiet_ask|].
  intros a [h' s'] ([= ->] & -> & ->)%ask_some. done.
Qed.
(** The act. *)
Lemma acts_act {S E A} Phi (world : oracle call) (c : call A) h (s : S) :
  (forall a, of_interest (asked c a) = true) ->
  (forall a, Phi h (asked c a)) -> acts Phi (ask (E := E) world c) (h, s).
Proof.
  intros Hc HP r [h' s'] (_ & -> & ->)%ask_some. right.
  exists [], (asked c (world A h c)), []. rewrite app_nil_r. by split_and!.
Qed.

Lemma acts_map_error {S E F A} Phi (f : E -> F) (m : eff (history call * S) E A) s :
  acts Phi m s -> acts Phi (map_error f m) s.
Proof. intros Hm r s' (r' & H & _)%map_error_some. exact (Hm _ _ H). Qed.
Lemma acts_attempt {S E F A} Phi (m : eff (history call * S) E A) s :
  acts Phi m s -> acts Phi (attempt (F := F) m) s.
Proof. intros Hm r s' (r' & H & _)%attempt_some. exact (Hm _ _ H). Qed.

(** The calls made until the act begin with those made before the operation. *)
Lemma acts_from {S E A} Phi (m : eff (history call * S) E A) s :
  acts Phi m s -> acts (fun h c => (exists calls, h = s.1 ++ calls) /\ Phi h c) m s.
Proof.
  intros Hm r s' H. destruct (Hm _ _ H) as [?|(bs & c & cs & ? & ? & ? & ? & ?)]; [by left|].
  right. exists bs, c, cs. split_and!; eauto.
Qed.

(** [Psi] holds of the calls an operation made since [h], and of the one after them. *)
Definition since (h : history call) (Psi : history call -> {A & (call A * A)%type} -> Prop)
    (h' : history call) (c : {A & (call A * A)%type}) : Prop :=
  exists calls, h' = h ++ calls /\ Psi calls c.

Lemma acted_since {S} Psi h (s : S) h' s' :
  acted (since h Psi) (h, s) (h', s') ->
  exists new, h' = h ++ new
    /\ (of_interest_in new = []
        \/ exists before c after, new = before ++ c :: after
             /\ of_interest_in new = [c] /\ Psi before c).
Proof.
  intros [(new & E1 & Q)|(bs & c & cs & E1 & Q1 & Hc & Q2 & HP)].
  - exists new. auto.
  - exists (bs ++ c :: cs). split; [done|]. right. exists bs, c, cs.
    destruct HP as (calls & ->%app_inv_head & HP). split_and!; try done.
    rewrite of_interest_app, Q1. unfold of_interest_in in *. simpl. by rewrite Hc, Q2.
Qed.
End Acts.

#[export] Hint Resolve quiet_silent quiet_on_focus quiet_with_local : respects.
