(* ===== verification/Images.v ===== *)
(** * Tool results and their images ([crates/dcc-cua-core/src/policy.rs],
    [crates/dcc-cua-host/src/action_response.rs])

    The decoding of a native tool's result, and the transport of its images to the
    client: one image through shared memory, or all of them in one binary frame with a
    descriptor for each. *)

From S2P Require Import Prelude Effects RustStr Json Protocol Errors TargetPolicy.
From S2P Require Import RuntimeSession.
From S2P Require SharedImage.

(** ** Results of native tools *)

Module ComputerUseImage.
Record ComputerUseImage : Type := { data : list Z; mime_type : string }.
End ComputerUseImage.

Module Image := ComputerUseImage.

Inductive ComputerUseToolStatus : Type := Succeeded | Rejected.

#[export] Instance ComputerUseToolStatus_eq_dec : EqDecision ComputerUseToolStatus.
Proof. solve_decision. Defined.

Definition status_value (status : ComputerUseToolStatus) : value :=
  Str match status with Succeeded => "succeeded" | Rejected => "rejected" end.

Module ComputerUseToolResult.
Record ComputerUseToolResult : Type := {
  status : ComputerUseToolStatus;
  answer : value;
  text : string;
  images : list Image.ComputerUseImage;
  degraded : bool;
}.
End ComputerUseToolResult.

Module NativeResult := ComputerUseToolResult.

Definition MAX_NATIVE_TOOL_IMAGES : Z := 8.
Definition MAX_NATIVE_TOOL_IMAGE_BYTES : Z := MAX_BINARY_FRAME_BYTES.
Definition MAX_NATIVE_TOOL_TOTAL_IMAGE_BYTES : Z := MAX_BINARY_FRAME_BYTES.

(** The base64 decoder and the JSON parser, with the text of their errors. *)
Class NativeDecoder : Type := {
  base64_decode : string -> result string (list Z);
  parse_json : string -> result string value;
}.

Definition capture_failed {A} (message : string) : cresult A :=
  Err (ComputerUseError.new ComputerUseErrorCode.CaptureFailed message).

Section Decoding.
Context `{ND : NativeDecoder}.

Fixpoint decode_images (total_bytes : Z) (images : list ToolResult.ToolImage)
    : cresult (list Image.ComputerUseImage) :=
  match images with
  | [] => Ok []
  | image :: images =>
      if MAX_NATIVE_TOOL_IMAGE_BYTES * 2 <? str_len (ToolResult.data_base64 image)
      then capture_failed "CUA native tool image exceeds 64 MiB"
      else
        let? data := rmap_err (ComputerUseError.new ComputerUseErrorCode.CaptureFailed)
                       (base64_decode (ToolResult.data_base64 image)) in
        if len data =? 0 then capture_failed "CUA native tool returned an empty image"
        else if MAX_NATIVE_TOOL_IMAGE_BYTES <? len data
        then capture_failed "CUA native tool image exceeds 64 MiB"
        else
          let? total_bytes := ok_or (checked_add total_bytes (len data))
            (ComputerUseError.new ComputerUseErrorCode.CaptureFailed
               "CUA native tool images exceed 64 MiB in total") in
          if MAX_NATIVE_TOOL_TOTAL_IMAGE_BYTES <? total_bytes
          then capture_failed "CUA native tool images exceed 64 MiB in total"
          else
            let? decoded := decode_images total_bytes images in
            Ok ({| Image.data := data;
                   Image.mime_type := ToolResult.image_mime_type image |} :: decoded)
  end.

Definition native_tool_result (result : ToolResult.ToolResult)
    : cresult NativeResult.ComputerUseToolResult :=
  if MAX_NATIVE_TOOL_IMAGES <? len (ToolResult.images result)
  then capture_failed ("CUA native tool returned more than "
    +:+ show MAX_NATIVE_TOOL_IMAGES +:+ " images")
  else
    let? images := decode_images 0 (ToolResult.images result) in
    let? answer := rmap_err (fun error =>
        ComputerUseError.new ComputerUseErrorCode.BackendUnavailable
          ("CUA native tool returned invalid JSON: " +:+ error))
      (parse_json (ToolResult.raw_json result)) in
    Ok {| NativeResult.status := Succeeded; NativeResult.answer := answer;
          NativeResult.text := ToolResult.text result; NativeResult.images := images;
          NativeResult.degraded := ToolResult.degraded result |}.
End Decoding.

(** ** Transport *)

Inductive SnapshotTransport : Type := SharedMemory | BinaryFrame.

#[export] Instance SnapshotTransport_eq_dec : EqDecision SnapshotTransport.
Proof. solve_decision. Defined.

Module PreparedImageTransport.
Record PreparedImageTransport : Type := {
  primary : option value;
  attachments : list value;
  attachment : option (list Z);
  use_shared_memory : bool;
}.
End PreparedImageTransport.

Module Prepared := PreparedImageTransport.

(** The [n]th image item of the content is annotated with the [n]th descriptor, as long
    as there are descriptors. *)
Definition annotate_item (index : nat) (descriptor item : value) : value :=
  let item := set_index item "data" Null in
  let item := set_index item "encoding" descriptor.["encoding"] in
  let item := set_index item "attachment_index" (Number (PosInt (Z.of_nat index))) in
  let item := set_index item "offset" descriptor.["offset"] in
  set_index item "length" descriptor.["length"].

Fixpoint annotate_items (attachments : list value) (index : nat) (items : list value)
    : list value :=
  match items with
  | [] => []
  | item :: items =>
      if is_str item.["type"] "image" then
        match attachments !! index with
        | None => item :: items
        | Some descriptor =>
            annotate_item index descriptor item :: annotate_items attachments (S index) items
        end
      else item :: annotate_items attachments index items
  end.

Definition annotate_content (self : Prepared.PreparedImageTransport) (answer : value)
    : value :=
  match get answer "content" ≫= as_array with
  | Some content =>
      set_index answer "content" (Array (annotate_items (Prepared.attachments self) 0 content))
  | None => answer
  end.

(** The derived [Serialize]. *)
Definition descriptor_value (d : SharedImage.Descriptor.SharedImageDescriptor) : value :=
  Object [("name", Str (SharedImage.Descriptor.name d));
          ("id", Str (SharedImage.Descriptor.id d));
          ("length", Number (PosInt (SharedImage.Descriptor.length d)));
          ("mime_type", Str (SharedImage.Descriptor.mime_type d))].

Definition shared_image_error_to_string (error : SharedImage.SharedImageError.SharedImageError)
    : string :=
  match error with
  | SharedImage.SharedImageError.Empty => "shared image is empty"
  | SharedImage.SharedImageError.TooLarge =>
      "shared image is larger than " +:+ show SharedImage.MAX_IMAGE_BYTES +:+ " bytes"
  | SharedImage.SharedImageError.Invalid message =>
      "shared image descriptor is invalid: " +:+ message
  | SharedImage.SharedImageError.Expired => "shared image has expired"
  | SharedImage.SharedImageError.Ipc message => "shared memory failed: " +:+ message
  end.

Fixpoint combined_length (total : Z) (images : list Image.ComputerUseImage)
    : hresult Z :=
  match images with
  | [] => Ok total
  | image :: images =>
      let? total := ok_or (checked_add total (len (Image.data image)))
        (HostError.Protocol "combined image payload length overflowed") in
      combined_length total images
  end.

Definition attachment_value (index offset : Z) (image : Image.ComputerUseImage)
    (use_shared_memory : bool) : value :=
  Object
    [("index", Number (PosInt index));
     ("offset", Number (PosInt offset));
     ("length", Number (PosInt (len (Image.data image))));
     ("mime_type", Str (Image.mime_type image));
     ("encoding", Str (if use_shared_memory then "shared_memory" else "binary_frame"))].

Fixpoint attachment_values (index offset : Z) (use_shared_memory : bool)
    (images : list Image.ComputerUseImage) : list value :=
  match images with
  | [] => []
  | image :: images =>
      attachment_value index offset image use_shared_memory
      :: attachment_values (index + 1) (offset + len (Image.data image))
           use_shared_memory images
  end.

Section Transport.
Context {M : Type} `{SM : SharedImage.SharedMemory M}.

(** The memory of the system, and the image the session holds in it. *)
Abbreviation image_op A :=
  (eff (M * option SharedImage.Descriptor.SharedImageDescriptor) HostError.HostError A).

(** The environment of a handoff: a fresh UUID and the Unix time in seconds. *)
Definition share_image (uuid : string) (now : Z) (data : list Z) (mime_type : string)
    : image_op value := fun '(m, shared) =>
  match SharedImage.from_bytes uuid now data mime_type m with
  | (Ok descriptor, m) =>
      Some (Ok (set_index (descriptor_value descriptor) "encoding" (Str "shared_memory")),
            (m, Some descriptor))
  | (Err error, m) =>
      Some (Err (HostError.Protocol (shared_image_error_to_string error)), (m, shared))
  end.

(** The index of the only image panics when there is none, which the choice of the
    transport excludes. *)
Definition prepare_image_transport_with_limit (uuid : string) (now : Z)
    (images : list Image.ComputerUseImage) (mode : SnapshotTransport)
    (binary_frame_limit : Z) : image_op Prepared.PreparedImageTransport :=
  let use_shared_memory := (mode == SharedMemory) && (len images =? 1) in
  do? combined := lift (if use_shared_memory then Ok 0 else combined_length 0 images) in
  if binary_frame_limit <? combined
  then throw (HostError.Protocol
    ("combined image payload exceeds the " +:+ show binary_frame_limit
     +:+ "-byte binary frame limit"))
  else
    let attachments := attachment_values 0 0 use_shared_memory images in
    do? primary :=
      (if use_shared_memory then
         match images with
         | image :: _ =>
             do? descriptor :=
               share_image uuid now (Image.data image) (Image.mime_type image) in
             ret (Some descriptor)
         | [] => Effects.panic
         end
       else ret (head attachments)) in
    ret {| Prepared.primary := primary;
           Prepared.attachments := attachments;
           Prepared.attachment :=
             if use_shared_memory || (len images =? 0) then None
             else Some (concat (map Image.data images));
           Prepared.use_shared_memory := use_shared_memory |}.

Definition prepare_image_transport (uuid : string) (now : Z)
    (images : list Image.ComputerUseImage) (mode : SnapshotTransport)
    : image_op Prepared.PreparedImageTransport :=
  prepare_image_transport_with_limit uuid now images mode MAX_BINARY_FRAME_BYTES.

(** A response and the binary frame that follows it. *)
Abbreviation response := (value * option (list Z))%type.

(** [value["success"] = ..] panics on an answer that is neither an object nor null. *)
Definition mark_success (answer : value) (success : bool) : image_op value :=
  match answer with
  | Null | Object _ => ret (set_index answer "success" (Bool success))
  | _ => Effects.panic
  end.

Definition native_tool_response_with_transport (uuid : string) (now : Z)
    (session_id : option string) (tool : string)
    (result : NativeResult.ComputerUseToolResult) (mode : SnapshotTransport)
    : image_op response :=
  do? answer := mark_success (NativeResult.answer result)
    (NativeResult.status result == Succeeded) in
  do? prepared := prepare_image_transport uuid now (NativeResult.images result) mode in
  let answer := annotate_content prepared answer in
  let response := Object
    [("type", Str "tool_result");
     ("session_id", match session_id with Some id => Str id | None => Null end);
     ("tool", Str tool);
     ("status", status_value (NativeResult.status result));
     ("result", answer);
     ("text", Str (NativeResult.text result));
     ("degraded", Bool (NativeResult.degraded result))] in
  let response := match Prepared.primary prepared with
    | Some image =>
        let response := set_index response "image" image in
        if Prepared.use_shared_memory prepared then response
        else set_index response "attachments" (Array (Prepared.attachments prepared))
    | None => response
    end in
  ret (response, Prepared.attachment prepared).

(** [take] moves the field out. *)
Definition move_field (source : value) (response : value) (field : string) : value :=
  set_index response field source.[field].

Definition move_present (source : value) (response : value) (field : string) : value :=
  if negb (is_null source.[field]) then set_index response field source.[field]
  else response.

Definition action_completed_response (uuid : string) (now : Z)
    (session_id action_id message : string)
    (result : NativeResult.ComputerUseToolResult) (mode : SnapshotTransport)
    : image_op response :=
  let success := NativeResult.status result == Succeeded in
  do? (tool_response, attachment) := native_tool_response_with_transport uuid now
    (Some session_id) "action" result mode in
  let response := Object
    [("type", Str "action_completed");
     ("success", Bool success);
     ("status", Null);
     ("action_id", Str action_id);
     ("target_closed", Bool false);
     ("policy_tier", Str "task_grant");
     ("message", Str message);
     ("result", Null);
     ("text", Null);
     ("degraded", Null)] in
  let response :=
    fold_left (move_field tool_response) ["status"; "result"; "text"; "degraded"] response in
  let response := fold_left (move_present tool_response) ["image"; "attachments"] response in
  ret (response, attachment).

Definition response_image_descriptor (response : value) (image_index : nat)
    : option value :=
  or_else (as_array response.["attachments"] ≫= fun attachments => attachments !! image_index)
    (if (image_index =? 0)%nat && negb (is_null response.["image"])
     then Some response.["image"] else None).

Definition push_image (result : NativeResult.ComputerUseToolResult) (data : list Z)
    : NativeResult.ComputerUseToolResult :=
  {| NativeResult.status := NativeResult.status result;
     NativeResult.answer := NativeResult.answer result;
     NativeResult.text := NativeResult.text result;
     NativeResult.images := NativeResult.images result
       ++ [{| Image.data := data; Image.mime_type := "image/png" |}];
     NativeResult.degraded := NativeResult.degraded result |}.

(** The post-action snapshot of both kinds of session: its fields, and the image that
    is sent after those of the tool. *)
Definition completed_with_snapshot (uuid : string) (now : Z)
    (session_id action_id message : string)
    (result : NativeResult.ComputerUseToolResult) (post_snapshot : value) (data : list Z)
    (mode : SnapshotTransport) : image_op response :=
  let image_index := length (NativeResult.images result) in
  do? (response, attachment) := action_completed_response uuid now session_id action_id
    message (push_image result data) mode in
  let post_snapshot := set_some post_snapshot "image" id
    (response_image_descriptor response image_index) in
  ret (set_index response "post_snapshot" post_snapshot, attachment).
End Transport.

(** ** What never panics *)

(** An answer that takes a field. *)
Definition is_object_or_null (v : value) : bool :=
  match v with Null | Object _ => true | _ => false end.

Section TransportReturns.
Context {M : Type} `{SM : SharedImage.SharedMemory M}.

Lemma total_share_image uuid now data mime_type :
  total (share_image (M := M) uuid now data mime_type).
Proof. intros [m shared]. unfold share_image. by destruct (SharedImage.from_bytes _ _ _ _ m) as [[]]. Qed.
#[local] Hint Resolve total_share_image : total.

Lemma total_prepare_image_transport uuid now images mode limit :
  total (prepare_image_transport_with_limit (M := M) uuid now images mode limit).
Proof.
  unfold prepare_image_transport_with_limit.
  destruct ((mode == SharedMemory) && (len images =? 1)) eqn:Hshm; [|total].
  destruct images as [|image images]; [by rewrite andb_false_r in Hshm|]. total.
Qed.

Lemma total_action_completed_response uuid now session_id action_id message result mode :
  is_object_or_null (NativeResult.answer result) = true ->
  total (action_completed_response (M := M) uuid now session_id action_id message result
    mode).
Proof.
  intros Ha. pose proof total_prepare_image_transport.
  unfold action_completed_response, native_tool_response_with_transport,
    prepare_image_transport, mark_success.
  destruct (NativeResult.answer result); try discriminate Ha; total.
Qed.

Lemma total_completed_with_snapshot uuid now session_id action_id message result
    post_snapshot data mode :
  is_object_or_null (NativeResult.answer result) = true ->
  total (completed_with_snapshot (M := M) uuid now session_id action_id message result
    post_snapshot data mode).
Proof.
  intros Ha. unfold completed_with_snapshot.
  pose proof total_action_completed_response. total.
Qed.
End TransportReturns.

(** ** What the client fetches *)

Section Fetch.
Context {M : Type} `{LM : SharedImage.LawfulSharedMemory M}.

(** [serde_json::from_value], as far as a descriptor needs it. *)
Definition descriptor_from_value (v : value)
    : option SharedImage.Descriptor.SharedImageDescriptor :=
  name ← as_str v.["name"];
  id ← as_str v.["id"];
  length ← as_u64 v.["length"];
  mime_type ← as_str v.["mime_type"];
  Some {| SharedImage.Descriptor.name := name; SharedImage.Descriptor.id := id;
          SharedImage.Descriptor.length := length;
          SharedImage.Descriptor.mime_type := mime_type |}.

(** The [i]th image, from the message that the client receives and the memory of the
    system: a part of the binary frame, or the region that the response describes. *)
Definition fetch_image (now : Z) (m : M) (message : value * option (list Z)) (i : nat)
    : option (list Z) :=
  let '(answer, attachment) := message in
  match attachment with
  | Some payload =>
      attachments ← as_array answer.["attachments"];
      descriptor ← attachments !! i;
      offset ← as_u64 descriptor.["offset"];
      size ← as_u64 descriptor.["length"];
      Some (take (Z.to_nat size) (drop (Z.to_nat offset) payload))
  | None =>
      if is_str answer.["image"].["encoding"] "shared_memory" && (i =? 0)%nat then
        descriptor ← descriptor_from_value answer.["image"];
        match SharedImage.open now descriptor m with
        | Ok reader =>
            match SharedImage.read reader m with Ok bytes => Some bytes | Err _ => None end
        | Err _ => None
        end
      else None
  end.

Lemma combined_length_ok images total n :
  combined_length total images = Ok n ->
  n = total + len (concat (map Image.data images)).
Proof using Type.
  revert total. induction images as [|image images IH]; intros total Hc.
  - injection Hc as <-. unfold len. simpl. lia.
  - cbn [combined_length] in Hc. apply rbind_ok in Hc as (t & Ht%ok_or_ok & Hc).
    apply IH in Hc as ->. unfold checked_add in Ht. case_match; [|done].
    injection Ht as <-. cbn [map concat]. unfold len. rewrite length_app. lia.
Qed.

Lemma length_attachment_values index offset shm images :
  length (attachment_values index offset shm images) = length images.
Proof using Type.
  revert index offset. induction images as [|image images IH]; intros index offset; simpl;
    [done|]. by rewrite IH.
Qed.

(** The descriptors cut the payload back into the images. *)
Lemma attachment_slices images index before shm i :
  (descriptor ← attachment_values index (len before) shm images !! i;
   offset ← as_u64 descriptor.["offset"];
   size ← as_u64 descriptor.["length"];
   Some (take (Z.to_nat size)
           (drop (Z.to_nat offset) (before ++ concat (map Image.data images)))))
  = option_map Image.data (images !! i).
Proof using Type.
  revert index before i. induction images as [|image images IH]; intros index before i; [done|].
  cbn [attachment_values map concat]. destruct i as [|i].
  - cbn [lookup list_lookup]. simpl. unfold len.
    rewrite !Nat2Z.id, drop_app_length, take_app_length. done.
  - specialize (IH (index + 1) (before ++ Image.data image) i).
    replace (len (before ++ Image.data image)) with (len before + len (Image.data image))
      in IH by (unfold len; rewrite length_app; lia).
    rewrite <- app_assoc in IH. exact IH.
Qed.

Lemma share_image_ok uuid now data mime_type m shared u m' shared' :
  share_image uuid now data mime_type (m, shared) = Some (Ok u, (m', shared')) ->
  exists descriptor, shared' = Some descriptor
    /\ SharedImage.from_bytes uuid now data mime_type m = (Ok descriptor, m').
Proof using Type.
  unfold share_image. destruct (SharedImage.from_bytes _ _ _ _ m) as [[d|e] m1] eqn:E; [|done].
  intros Hs. injection Hs as _ <- <-. by exists d.
Qed.

(** What a preparation leaves to be sent: the region the only image was put in, or all
    images in one payload. *)
Definition prepared_for (uuid : string) (now limit : Z) (images : list Image.ComputerUseImage)
    (m : M) (prepared : Prepared.PreparedImageTransport) (m' : M) : Prop :=
  (exists image d, images = [image] /\ Prepared.use_shared_memory prepared = true
     /\ SharedImage.from_bytes uuid now (Image.data image) (Image.mime_type image) m
        = (Ok d, m')
     /\ Prepared.primary prepared
        = Some (set_index (descriptor_value d) "encoding" (Str "shared_memory"))
     /\ Prepared.attachment prepared = None)
  \/ (Prepared.use_shared_memory prepared = false
      /\ Prepared.attachments prepared = attachment_values 0 0 false images
      /\ Prepared.primary prepared = head (Prepared.attachments prepared)
      /\ len (concat (map Image.data images)) <= limit
      /\ Prepared.attachment prepared
         = if len images =? 0 then None else Some (concat (map Image.data images))).

Lemma prepare_cases uuid now images mode limit m shared :
  exists r m' shared',
    prepare_image_transport_with_limit uuid now images mode limit (m, shared)
    = Some (r, (m', shared'))
    /\ match r with
       | Ok prepared => prepared_for uuid now limit images m prepared m'
       | Err _ => shared' = shared
       end.
Proof using Type*.
  unfold prepare_image_transport_with_limit.
  set (shm := (mode == SharedMemory) && (len images =? 1)).
  destruct (if shm then Ok 0 else combined_length 0 images) as [n|e] eqn:Hn.
  2: { by exists (Err e), m, shared. }
  unfold bind at 1. unfold lift.
  destruct (limit <? n) eqn:Hlimit; [by eexists _, m, shared|].
  destruct shm eqn:Hshm.
  - unfold shm in Hshm. destruct images as [|image [|]];
      [by rewrite andb_false_r in Hshm | | reflect_all; unfold len in *; simpl in *; lia].
    unfold bind, share_image.
    destruct (SharedImage.from_bytes _ _ _ _ m) as [[d|e] m'] eqn:E.
    + eexists (Ok _), m', (Some d). split; [reflexivity|]. left. exists image, d.
      by split_and!.
    + by exists (Err (HostError.Protocol (shared_image_error_to_string e))), m', shared.
  - apply combined_length_ok in Hn as ->. reflect_in Hlimit. simpl in Hlimit.
    eexists (Ok _), m, shared. split; [reflexivity|]. right. by split_and!.
Qed.

Lemma descriptor_roundtrip d encoding :
  descriptor_from_value (set_index (descriptor_value d) "encoding" encoding) = Some d.
Proof using Type. by destruct d. Qed.

(** The images of a message with these fields. *)
Lemma fetched uuid now limit images m prepared m' answer :
  is_u64 now -> prepared_for uuid now limit images m prepared m' ->
  answer.["image"] = (match Prepared.primary prepared with Some v => v | None => Null end) ->
  (Prepared.use_shared_memory prepared = false -> images <> [] ->
     answer.["attachments"] = Array (Prepared.attachments prepared)) ->
  forall later i, now <= later <= now + SharedImage.TTL_SECS ->
  fetch_image later m' (answer, Prepared.attachment prepared) i
  = option_map Image.data (images !! i).
Proof using Type*.
  intros Hnow [(image & d & -> & _ & Hf & Hp & ->)|(Hshm & Ha & Hp & _ & ->)] Himage Hattach
    later i Hl; unfold fetch_image; rewrite Hp in Himage.
  - rewrite Himage, descriptor_roundtrip.
    change (is_str _.["encoding"] "shared_memory") with true. destruct i as [|i]; [|done].
    destruct (SharedImage.shared_image_arrives _ _ _ _ _ _ _ Hf Hnow _ Hl) as (reader & Ho & Hr).
    cbn. by rewrite Ho, Hr.
  - destruct images as [|image images].
    { rewrite Ha in Himage. cbn in *. by rewrite Himage. }
    rewrite (proj2 (Z.eqb_neq _ _)) by (unfold len; simpl; lia).
    rewrite (Hattach Hshm) by done. rewrite Ha. exact (attachment_slices _ 0 [] false i).
Qed.

(** C18: every image of a result reaches the client whole.  The response to a native tool
    with an answer that takes a field never panics.  When it succeeds, the binary frame
    stays within its limit, and the client that follows the descriptors of the message it
    receives (within the minute an image stays in shared memory) fetches exactly the images
    of the result, each in its place, whichever of the two transports was chosen.  When it
    fails, the image the session shared before is still the one it shares. *)
Theorem images_arrive_intact uuid now session_id tool result mode m shared :
  is_u64 now -> is_object_or_null (NativeResult.answer result) = true ->
  exists r m' shared',
    native_tool_response_with_transport uuid now session_id tool result mode (m, shared)
    = Some (r, (m', shared'))
    /\ match r with
       | Ok message =>
           (forall payload, message.2 = Some payload -> len payload <= MAX_BINARY_FRAME_BYTES)
           /\ forall later i, now <= later <= now + SharedImage.TTL_SECS ->
                fetch_image later m' message i
                = option_map Image.data (NativeResult.images result !! i)
       | Err _ => shared' = shared
       end.
Proof using Type*.
  intros Hnow Hanswer. unfold native_tool_response_with_transport.
  assert (exists answer, mark_success (M := M) (NativeResult.answer result)
    (NativeResult.status result == Succeeded) = ret answer) as [answer ->].
  { destruct (NativeResult.answer result); try discriminate Hanswer; by eexists. }
  unfold bind at 1, ret at 1, prepare_image_transport, bind.
  destruct (prepare_cases uuid now (NativeResult.images result) mode MAX_BINARY_FRAME_BYTES m
    shared) as (r & m' & shared' & -> & Hcases).
  destruct r as [prepared|e]; [|by exists (Err e), m', shared'].
  eexists (Ok _), m', shared'. split; [reflexivity|]. cbn [fst snd]. split.
  - intros payload Hpay. destruct Hcases as [(? & ? & _ & _ & _ & _ & Hn)|(_ & _ & _ & Hlen & Hn)];
      rewrite Hn in Hpay; [done|]. destruct (_ =? 0); [done|]. by injection Hpay as <-.
  - apply (fetched _ _ _ _ _ _ _ _ Hnow Hcases).
    + by destruct (Prepared.primary prepared), (Prepared.use_shared_memory prepared).
    + intros Hshm Hne. rewrite Hshm.
      destruct Hcases as [(_ & _ & _ & Hshm' & _)|(_ & Ha & Hp & _)]; [congruence|].
      rewrite Hp, Ha. by destruct (NativeResult.images result).
Qed.
End Fetch.

Definition sample_images : list Image.ComputerUseImage :=
  [{| Image.data := [1; 2; 3]; Image.mime_type := "image/png" |};
   {| Image.data := [4; 5]; Image.mime_type := "image/png" |}].

#[local] Existing Instances SharedImage.sample_memory SharedImage.sample_lawful.

Definition sample_image_result : NativeResult.ComputerUseToolResult := {|
  NativeResult.status := Succeeded; NativeResult.answer := Object [];
  NativeResult.text := "two images"; NativeResult.images := sample_images;
  NativeResult.degraded := false |}.

Lemma images_arrive_intact_witness :
  exists message m shared,
    native_tool_response_with_transport "0123456789abcdef" 1000 None "screenshot"
      sample_image_result BinaryFrame (∅ : gmap string (list Z), None)
    = Some (Ok message, (m, shared))
    /\ fetch_image 1001 m message 1 = Some [4; 5].
Proof.
  destruct (images_arrive_intact (M := gmap string (list Z)) "0123456789abcdef" 1000
    None "screenshot" sample_image_result BinaryFrame ∅ None) as (r & m & shared & E & H).
  - by unfold is_u64, U64_MAX.
  - reflexivity.
  - destruct r as [message|e]; [|vm_compute in E; discriminate].
    exists message, m, shared. split; [exact E|].
    destruct H as (_ & H). apply (H 1001 1%nat). by unfold SharedImage.TTL_SECS.
Defined.
