(* ===== verification/DesktopCommand.v ===== *)
(** * The driver command of a desktop action, field by field

    What the tool and the arguments of an action on the desktop are, written down as a
    relation, and that [desktop_action_arguments] ([policy.rs]) builds nothing else. *)

From S2P Require Import Prelude Records RustStr Json Errors Contracts HostAction ActionPolicy.

Definition field_of {A} (key : string) (f : A -> value) (o : option A)
    : list (string * value) :=
  match o with Some a => [(key, f a)] | None => [] end.
Definition number (n : Z) : value := Number (PosInt n).
Definition strings (l : list string) : value := Array (map Str l).

(** The keys of a shortcut: the modifiers, and every other key once, whatever its case. *)
Inductive shortcut : list string -> list string -> list string -> Prop :=
| shortcut_done tokens : shortcut tokens [] tokens
| shortcut_repeated tokens token key keys out :
    token ∈ tokens -> eq_ignore_ascii_case token key = true ->
    shortcut tokens keys out -> shortcut tokens (key :: keys) out
| shortcut_new tokens key keys out :
    (forall token, token ∈ tokens -> eq_ignore_ascii_case token key = false) ->
    shortcut (tokens ++ [key]) keys out -> shortcut tokens (key :: keys) out.

(** The direction and the length of a scroll. *)
Inductive scrolls (horizontal vertical : Z) : string -> Z -> Prop :=
| scrolls_left : horizontal < 0 -> scrolls horizontal vertical "left" (- horizontal)
| scrolls_right : 0 < horizontal -> scrolls horizontal vertical "right" horizontal
| scrolls_up : horizontal = 0 -> vertical < 0 -> scrolls horizontal vertical "up" (- vertical)
| scrolls_down : horizontal = 0 -> 0 <= vertical -> scrolls horizontal vertical "down" vertical.

(** Where a drag starts and ends: at the ends of the path, or at the coordinates. *)
Inductive drags (a : CA.ComputerUseAction)
    : ComputerUsePoint.ComputerUsePoint -> ComputerUsePoint.ComputerUsePoint -> Prop :=
| drags_between p q : CA.path a = [p; q] -> drags a p q
| drags_at p : CA.path a = [p] -> drags a p p
| drags_nowhere p : CA.path a = [] ->
    ComputerUsePoint.x p = unwrap_or (CA.x a) f64_zero ->
    ComputerUsePoint.y p = unwrap_or (CA.y a) f64_zero -> drags a p p.

Definition coordinates (a : CA.ComputerUseAction) : list (string * value) :=
  [("x", json_opt_f64 (CA.x a)); ("y", json_opt_f64 (CA.y a))].
Definition typed (a : CA.ComputerUseAction) : value := Str (unwrap_or (CA.text a) "").

(** The tool, and the fields besides the session and the scope. *)
Inductive desktop_command (a : CA.ComputerUseAction) : string -> list (string * value) -> Prop :=
| moves : CA.action a = "move" -> desktop_command a "move_cursor" (coordinates a)
| clicks : CA.action a ∈ ["click"; "toggle"] ->
    desktop_command a "click" (coordinates a
      ++ [("count", number 1); ("button", Str (unwrap_or (CA.button a) "left"))])
| double_clicks : CA.action a = "double_click" ->
    desktop_command a "click" (coordinates a
      ++ [("count", number 2); ("button", Str (unwrap_or (CA.button a) "left"))])
| right_clicks : CA.action a = "right_click" ->
    desktop_command a "click" (coordinates a
      ++ [("count", number 1); ("button", Str (unwrap_or (CA.button a) "right"))])
| drag_between p q : CA.action a = "drag" -> drags a p q ->
    desktop_command a "drag"
      ([("from_x", json_f64 (ComputerUsePoint.x p)); ("from_y", json_f64 (ComputerUsePoint.y p));
        ("to_x", json_f64 (ComputerUsePoint.x q)); ("to_y", json_f64 (ComputerUsePoint.y q))]
       ++ field_of "button" Str (CA.button a)
       ++ field_of "modifier" strings
            (if CA.modifiers a then None else Some (CA.modifiers a))
       ++ field_of "duration_ms" number (CA.duration_ms a)
       ++ field_of "steps" number (CA.steps a))
| scroll direction amount : CA.action a = "scroll" ->
    scrolls (unwrap_or (CA.scroll_x a) 0) (unwrap_or (CA.scroll_y a) 0) direction amount ->
    desktop_command a "scroll" (coordinates a ++ [("direction", Str direction)]
      ++ field_of "amount" number (if amount =? 0 then None else Some amount)
      ++ field_of "by" Str (CA.scroll_by a))
| types : CA.action a = "type" -> desktop_command a "type_text" [("text", typed a)]
| types_chars : CA.action a = "type_chars" ->
    desktop_command a "type_text"
      (("text", typed a) :: field_of "delay_ms" number (CA.delay_ms a))
| presses : CA.action a = "keypress" ->
    desktop_command a "press_key" (("key", Str (unwrap_or (head (CA.keys a)) ""))
      :: field_of "modifiers" strings
           (if CA.modifiers a then None else Some (CA.modifiers a)))
| shortcuts keys : CA.action a = "keyboard_shortcut" ->
    shortcut (CA.modifiers a) (CA.keys a) keys ->
    desktop_command a "hotkey" [("keys", strings keys)].

Lemma shortcut_keys_spec keys tokens :
  shortcut tokens keys (foldl (fun keys key =>
      if contains_ignoring_case keys key then keys else keys ++ [key]) tokens keys).
Proof.
  revert tokens. induction keys as [|key keys IH]; intros tokens; cbn; [constructor|].
  unfold contains_ignoring_case at 2. destruct (existsb _ tokens) eqn:E.
  - apply existsb_exists in E as (token & Hin%list_elem_of_In & He).
    by apply (shortcut_repeated _ token).
  - apply shortcut_new; [|done]. intros token Hin%list_elem_of_In.
    destruct (eq_ignore_ascii_case token key) eqn:He; [|done].
    assert (existsb (fun existing => eq_ignore_ascii_case existing key) tokens = true)
      by (apply existsb_exists; eauto). congruence.
Qed.

(** The kinds of action the driver has a tool for on the desktop. *)
Lemma desktop_tool a tool :
  action_tool a ActScope.Desktop = Some tool ->
  CA.action a ∈ ["click"; "double_click"; "right_click"; "toggle"] /\ tool = "click"
  \/ CA.action a = "drag" /\ tool = "drag" \/ CA.action a = "scroll" /\ tool = "scroll"
  \/ CA.action a ∈ ["type"; "type_chars"] /\ tool = "type_text"
  \/ CA.action a = "keypress" /\ tool = "press_key"
  \/ CA.action a = "keyboard_shortcut" /\ tool = "hotkey"
  \/ CA.action a = "move" /\ tool = "move_cursor".
Proof.
  unfold action_tool. cbn [ActScope.is_window]. rewrite andb_false_r. intros H.
  repeat guard_step H; reflect_all; set_solver.
Qed.

Definition bound_to_desktop (session : string) (fields : list (string * value)) : value :=
  Object (("session", Str session) :: ("scope", Str "desktop") :: fields).

Lemma drag_fields a session :
  2 <? len (CA.path a) = false ->
  exists p q, drags a p q /\ drag_arguments (bound_to_desktop session []) a
    = bound_to_desktop session
      ([("from_x", json_f64 (ComputerUsePoint.x p)); ("from_y", json_f64 (ComputerUsePoint.y p));
        ("to_x", json_f64 (ComputerUsePoint.x q)); ("to_y", json_f64 (ComputerUsePoint.y q))]
       ++ field_of "button" Str (CA.button a)
       ++ field_of "modifier" strings
            (if CA.modifiers a then None else Some (CA.modifiers a))
       ++ field_of "duration_ms" number (CA.duration_ms a)
       ++ field_of "steps" number (CA.steps a)).
Proof.
  intros Hlen. unfold drag_arguments.
  destruct (CA.path a) as [|p [|q [|r path]]] eqn:Ep; cbn [head last].
  - eexists {| ComputerUsePoint.x := _; ComputerUsePoint.y := _ |}, _.
    split; [by apply drags_nowhere|].
    by destruct (CA.button a), (CA.modifiers a), (CA.duration_ms a), (CA.steps a).
  - exists p, p. split; [by apply drags_at|].
    by destruct (CA.button a), (CA.modifiers a), (CA.duration_ms a), (CA.steps a).
  - exists p, q. split; [by apply drags_between|].
    by destruct (CA.button a), (CA.modifiers a), (CA.duration_ms a), (CA.steps a).
  - apply Z.ltb_ge in Hlen. unfold len in Hlen. cbn in Hlen. lia.
Qed.

Lemma desktop_scroll_fields a session :
  exists direction amount,
    scrolls (unwrap_or (CA.scroll_x a) 0) (unwrap_or (CA.scroll_y a) 0) direction amount
    /\ insert_scroll_arguments (insert_xy (bound_to_desktop session []) a) a
       = bound_to_desktop session (coordinates a ++ [("direction", Str direction)]
           ++ field_of "amount" number (if amount =? 0 then None else Some amount)
           ++ field_of "by" Str (CA.scroll_by a)).
Proof.
  unfold insert_scroll_arguments, unsigned_abs.
  set (h := unwrap_or (CA.scroll_x a) 0). set (v := unwrap_or (CA.scroll_y a) 0).
  assert (Hout : forall direction amount, 0 <= amount ->
    let object := set_index (insert_xy (bound_to_desktop session []) a) "direction"
      (Str direction) in
    let object := if 0 <? amount then set_index object "amount" (Number (PosInt amount))
                  else object in
    match CA.scroll_by a with Some by_ => set_index object "by" (Str by_) | None => object end
    = bound_to_desktop session (coordinates a ++ [("direction", Str direction)]
        ++ field_of "amount" number (if amount =? 0 then None else Some amount)
        ++ field_of "by" Str (CA.scroll_by a))).
  { intros direction amount Ha.
    destruct (Z.ltb_spec 0 amount), (Z.eqb_spec amount 0); try lia; by destruct (CA.scroll_by a). }
  destruct (Z.ltb_spec h 0); [|destruct (Z.ltb_spec 0 h); [|destruct (Z.ltb_spec v 0);
    [|destruct (Z.ltb_spec 0 v)]]].
  - exists "left", (- h). rewrite Z.abs_neq by lia. split; [by constructor | apply Hout; lia].
  - exists "right", h. rewrite Z.abs_eq by lia. split; [by constructor | apply Hout; lia].
  - exists "up", (- v). rewrite Z.abs_neq by lia. split; [constructor; lia | apply Hout; lia].
  - exists "down", v. rewrite Z.abs_eq by lia. split; [constructor; lia | apply Hout; lia].
  - exists "down", v. split; [constructor; lia|]. replace v with 0 by lia. by apply Hout.
Qed.

Lemma desktop_command_of a session command :
  desktop_action_arguments a session = Ok command ->
  exists fields, desktop_command a (Command.tool command) fields
    /\ Command.arguments command = bound_to_desktop session fields.
Proof.
  unfold desktop_action_arguments. intros H.
  assert (Hlen : (CA.action a == "drag") && (2 <? len (CA.path a)) = false).
  { by apply rbind_ok in H as (? & Hl%reject_unit & _). }
  apply driver_action_command_ok in H as (tool & o1 & o2 & Htool & _ & Hf & Hl & ->).
  cbn in Hl. injection Hl as <-. cbn [Command.tool Command.arguments].
  change (scope_arguments a tool session ActScope.Desktop)
    with (bound_to_desktop session []) in Hf.
  unfold action_fields in Hf. apply desktop_tool in Htool.
  destruct Htool as [[Ha ->]|[[Ha ->]|[[Ha ->]|[[Ha ->]|[[Ha ->]|[[Ha ->]|[Ha ->]]]]]]].
  - set_unfold in Ha.
    destruct Ha as [Ha|[Ha|[Ha|[Ha|[]]]]]; rewrite Ha in Hf; injection Hf as <-;
      eexists; (split; [|reflexivity]);
      first [by apply double_clicks | by apply right_clicks
            | apply clicks; rewrite Ha; set_solver].
  - rewrite Ha in Hf, Hlen. injection Hf as <-. destruct (drag_fields a session) as (p & q & ? & ->); [done|].
    eexists. split; [|reflexivity]. by apply drag_between.
  - rewrite Ha in Hf. injection Hf as <-. destruct (desktop_scroll_fields a session) as (d & n & ? & ->).
    eexists. split; [|reflexivity]. by apply scroll.
  - set_unfold in Ha. destruct Ha as [Ha|[Ha|[]]]; rewrite Ha in Hf; injection Hf as <-.
    + exists [("text", typed a)]. split; [by apply types|].
      unfold insert_window_xy. by destruct (CA.x a), (CA.y a).
    + eexists. split; [by apply types_chars|]. by destruct (CA.delay_ms a).
  - rewrite Ha in Hf. injection Hf as <-. eexists. split; [by apply presses|].
    unfold insert_window_xy. by destruct (CA.modifiers a), (CA.x a), (CA.y a).
  - rewrite Ha in Hf. injection Hf as <-. eexists. split.
    + apply shortcuts; [done|]. apply shortcut_keys_spec.
    + unfold insert_window_xy. by destruct (CA.x a), (CA.y a).
  - rewrite Ha in Hf. injection Hf as <-. eexists. split; [by apply moves | done].
Qed.
