(* ===== verification/DesktopSession.v ===== *)
(** * Desktop sessions
    ([crates/dcc-cua-core/src/runtime.rs], [crates/dcc-cua-host/src/request_handler.rs])

    The session that sees and drives the whole desktop: the core session that owns the
    latest observation, and the Host's handlers that open it, take its screenshots,
    authorize and execute its actions, and stop it.  The driver, the desktop's state, the
    vault and the counters are called through an oracle, so that the history of a run
    says what reached the driver; DesktopInput has the theorems. *)

From S2P Require Import Prelude Records Effects Calls RustStr Json Protocol Errors.
From S2P Require Import TargetPolicy HostAction Confirmation Platform TaskGrant Request.
From S2P Require Import RuntimeSession ActionPolicy Images SecretVault.
From S2P Require SharedImage.

Abbreviation response := (value * option (list Z))%type.

(** ** Labels ([crates/dcc-cua-indicator/src/lib.rs]) *)

Definition MAX_DISPLAY_NAME_CHARS : nat := 80.

Definition display_name (name fallback : string) : string :=
  let name := of_chunks (take MAX_DISPLAY_NAME_CHARS
    (List.filter (fun c => negb (is_control (fst c))) (char_chunks (trim name)))) in
  if str_is_empty name then fallback else name.

(** The part of a language tag before its first [-] or [_]. *)
Fixpoint primary_language (tag : string) : string :=
  match tag with
  | EmptyString => EmptyString
  | String a tag =>
      if (byte_of a =? 45) || (byte_of a =? 95) then EmptyString
      else String a (primary_language tag)
  end.

Definition localized_control_label_for_language (language_tag agent_name app_name : string)
    : string :=
  let agent := display_name agent_name "Agent" in
  let app := display_name app_name "application" in
  let language := to_ascii_lowercase (primary_language language_tag) in
  if language == "zh" then agent +:+ " 正在操作 " +:+ app
  else if language == "ja" then agent +:+ " が " +:+ app +:+ " を操作中"
  else if language == "ko" then agent +:+ "이(가) " +:+ app +:+ "을(를) 조작 중"
  else if language == "fr" then agent +:+ " contrôle " +:+ app
  else if language == "de" then agent +:+ " steuert " +:+ app
  else if language == "es" then agent +:+ " está controlando " +:+ app
  else agent +:+ " is controlling " +:+ app.

(** ** Data *)

Module ComputerUseMarker.
Record ComputerUseMarker : Type := { visible : bool; label : string; backend : string }.
End ComputerUseMarker.

Module Marker := ComputerUseMarker.

(** The derived [Serialize]. *)
Definition marker_value (marker : Marker.ComputerUseMarker) : value :=
  Object [("visible", Bool (Marker.visible marker)); ("label", Str (Marker.label marker));
          ("backend", Str (Marker.backend marker))].

Definition option_value {A} (f : A -> value) (o : option A) : value :=
  match o with Some a => f a | None => Null end.
Definition integer_value (n : Z) : value :=
  Number (if n <? 0 then NegInt n else PosInt n).
Definition point_value (p : ComputerUsePoint.ComputerUsePoint) : value :=
  Object [("x", json_f64 (ComputerUsePoint.x p)); ("y", json_f64 (ComputerUsePoint.y p))].

(** The derived [Serialize] of an action: every field, its text included. *)
Definition action_value (a : CA.ComputerUseAction) : value :=
  Object
    [("action", Str (CA.action a));
     ("observation_id", option_value Str (CA.observation_id a));
     ("element_index", option_value integer_value (CA.element_index a));
     ("element_token", option_value Str (CA.element_token a));
     ("delivery_mode", option_value Str (CA.delivery_mode a));
     ("input_backend_id", option_value Str (CA.input_backend_id a));
     ("x", option_value json_f64 (CA.x a));
     ("y", option_value json_f64 (CA.y a));
     ("button", option_value Str (CA.button a));
     ("scroll_x", option_value integer_value (CA.scroll_x a));
     ("scroll_y", option_value integer_value (CA.scroll_y a));
     ("scroll_by", option_value Str (CA.scroll_by a));
     ("path", Array (map point_value (CA.path a)));
     ("text", option_value Str (CA.text a));
     ("delay_ms", option_value integer_value (CA.delay_ms a));
     ("duration_ms", option_value integer_value (CA.duration_ms a));
     ("steps", option_value integer_value (CA.steps a));
     ("type_chars_only", Bool (CA.type_chars_only a));
     ("keys", Array (map Str (CA.keys a)));
     ("modifiers", Array (map Str (CA.modifiers a)))].

Module ComputerUseDesktopSnapshot.
Record ComputerUseDesktopSnapshot : Type := {
  data : list Z;
  state : value;
  observation_id : string;
}.
End ComputerUseDesktopSnapshot.

Module DesktopSnapshot := ComputerUseDesktopSnapshot.

Module ComputerUseDesktopSession.
Record ComputerUseDesktopSession : Type := {
  session_id : string;
  marker : Marker.ComputerUseMarker;
  active : bool;
  latest_observation_id : option string;
}.

#[global] Instance ComputerUseDesktopSession_settable
    : Settable ComputerUseDesktopSession := fun s => {|
  session_id := session_id s;
  marker := marker s;
  active := active s;
  latest_observation_id := latest_observation_id s;
|}.
End ComputerUseDesktopSession.

Module DS := ComputerUseDesktopSession.

(** ** The world *)

Inductive desktop_call : Type -> Type :=
| CallTool (tool : string) (arguments : value) (operation : string)
    : desktop_call (cresult ToolResult.ToolResult)
| CursorRendererEnabled : desktop_call bool
| ObservationAvailable : desktop_call (cresult unit)
| InputAvailable : desktop_call (cresult unit)
| SnapshotTimedOut : desktop_call bool
| NextObservation : desktop_call Z
| ResolveSecret (handle : string) : desktop_call (result HostSecretVaultError string)
| InterruptGeneration : desktop_call Z
| LanguageTag : desktop_call string
| FreshUuid : desktop_call string
| UnixSeconds : desktop_call Z
(** A sleep, and the milliseconds that really passed. *)
| Sleep (duration : Z) : desktop_call Z.

Section Core.
Context `{ND : NativeDecoder} (world : oracle desktop_call).

Abbreviation desktop_op A := (eff (history desktop_call * DS.ComputerUseDesktopSession) cerror A).

Definition call_driver_tool (tool : string) (arguments : value) (operation : string)
    : desktop_op ToolResult.ToolResult :=
  do? answer := ask world (CallTool tool arguments operation) in
  lift answer.

Definition MOUSE_CURSOR_THEME : string := "com.dcc-mcp.cursor".
Definition CURSOR_GLIDE_MS : Z := 180.

Definition invalid_desktop_action {A} (message : string) : desktop_op A :=
  throw (ComputerUseError.new ComputerUseErrorCode.InvalidAction message).

(** [ComputerUseDesktopSession::new]; the label is built in the system's language. *)
Definition new_desktop_session (label session_id : string)
    : cresult DS.ComputerUseDesktopSession :=
  if str_is_empty (trim session_id)
  then Err (ComputerUseError.new ComputerUseErrorCode.InvalidAction
    "desktop session_id must not be empty")
  else Ok {| DS.session_id := session_id;
             DS.marker := {| Marker.visible := false; Marker.label := label;
                             Marker.backend := "cua-driver-sdk" |};
             DS.active := false;
             DS.latest_observation_id := None |}.

Definition cleanup_started_session (session_id : string) : desktop_op unit :=
  run? attempt (F := cerror) (call_driver_tool "end_session"
    (Object [("session", Str session_id)]) "cleanup CUA session") in
  ret tt.

(** One tool of the marker; a failure ends the session that was started. *)
Definition marker_tool (session_id tool : string) (arguments : value) (context : string)
    : desktop_op unit :=
  do? answer := attempt (call_driver_tool tool arguments context) in
  let answer := let? answer := answer in ensure_tool_ok context answer in
  match answer with
  | Ok _ => ret tt
  | Err error =>
      run? cleanup_started_session session_id in
      throw error
  end.

Definition enable_session_marker (session_id context : string) : desktop_op unit :=
  do? enabled := ask world CursorRendererEnabled in
  if negb enabled then ret tt
  else
    run? marker_tool session_id "set_agent_cursor_enabled"
      (Object [("session", Str session_id); ("enabled", Bool true)]) context in
    marker_tool session_id "set_agent_cursor_motion"
      (Object [("session", Str session_id);
               ("glide_duration_ms", Number (PosInt CURSOR_GLIDE_MS))]) context.

Definition show_marker (visible : bool) (self : DS.ComputerUseDesktopSession)
    : DS.ComputerUseDesktopSession :=
  self <| DS.marker := {| Marker.visible := visible;
                          Marker.label := Marker.label (DS.marker self);
                          Marker.backend := Marker.backend (DS.marker self) |} |>.

(** The state of the session alone. *)
Definition session_read {A} (f : DS.ComputerUseDesktopSession -> A) : desktop_op A :=
  silent (read f).
Definition session_modify (f : DS.ComputerUseDesktopSession -> DS.ComputerUseDesktopSession)
    : desktop_op unit :=
  silent (modify f).

Definition start : desktop_op value :=
  do? self := session_read id in
  if DS.active self then invalid_desktop_action "desktop session is already active"
  else
    do? available := ask world ObservationAvailable in
    run? lift available in
    do? result := call_driver_tool "start_session" (Object
      [("session", Str (DS.session_id self));
       ("capture_scope", Str "desktop");
       ("cursor_theme", Object [("theme_id", Str MOUSE_CURSOR_THEME);
                                ("reduced_motion", Str "auto")]);
       ("_public_session_label", Str (Marker.label (DS.marker self)))])
      "start CUA desktop session" in
    run? lift (ensure_tool_ok "start CUA desktop session" result) in
    run? enable_session_marker (DS.session_id self) "show CUA desktop marker" in
    run? session_modify (fun self => show_marker true (self <| DS.active := true |>)) in
    do? self := session_read id in
    ret (Object [("success", Bool true); ("active", Bool true);
                 ("marker", marker_value (DS.marker self))]).

(** [desktop_snapshot_for] with a session. *)
Definition desktop_snapshot_for (session : string)
    : desktop_op DesktopSnapshot.ComputerUseDesktopSnapshot :=
  do? available := ask world ObservationAvailable in
  run? lift available in
  do? result := call_driver_tool "get_desktop_state" (Object [("session", Str session)])
    "capture CUA desktop state" in
  run? lift (ensure_tool_ok "capture CUA desktop state" result) in
  do? image := lift (ok_or (head (ToolResult.images result))
    (ComputerUseError.new ComputerUseErrorCode.CaptureFailed
       "CUA desktop state returned no screenshot")) in
  do? data := lift (rmap_err (ComputerUseError.new ComputerUseErrorCode.CaptureFailed)
    (base64_decode (ToolResult.data_base64 image))) in
  let state :=
    match ToolResult.structured_json result with
    | Some json => match parse_json json with Ok v => v | Err _ => Object [] end
    | None => Object []
    end in
  do? n := ask world NextObservation in
  ret {| DesktopSnapshot.data := data; DesktopSnapshot.state := state;
         DesktopSnapshot.observation_id := "desktop-" +:+ show n |}.

(** The capture runs under a timeout; its result counts only when it was in time. *)
Definition screenshot : desktop_op DesktopSnapshot.ComputerUseDesktopSnapshot :=
  do? self := session_read id in
  if negb (DS.active self) then invalid_desktop_action "desktop session is not active"
  else
    do? captured := attempt (desktop_snapshot_for (DS.session_id self)) in
    do? timed_out := ask world SnapshotTimedOut in
    if timed_out : bool
    then throw (ComputerUseError.new ComputerUseErrorCode.InputFailed
      "CUA desktop snapshot timed out; the desktop session was invalidated")
    else
      do? snapshot := lift captured in
      run? session_modify (fun self => self
        <| DS.latest_observation_id := Some (DesktopSnapshot.observation_id snapshot) |>) in
      ret snapshot.

Definition observation_matches (self : DS.ComputerUseDesktopSession)
    (action : CA.ComputerUseAction) : bool :=
  match DS.latest_observation_id self, CA.observation_id action with
  | Some latest, Some requested => latest == requested
  | _, _ => false
  end.

Definition perform_action (action : CA.ComputerUseAction)
    : desktop_op NativeResult.ComputerUseToolResult :=
  do? self := session_read id in
  if negb (DS.active self) then invalid_desktop_action "desktop session is not active"
  else
    run? lift (validate_action action) in
    if is_some (CA.element_index action) || is_some (CA.element_token action)
       || (CA.action action ∈? ["set_text"; "set_value"])
    then invalid_desktop_action "desktop actions support only screen-coordinate input"
    else if negb (observation_matches self action)
    then throw (ComputerUseError.new ComputerUseErrorCode.StaleObservation
      "take a fresh desktop snapshot before acting")
    else
      do? available := ask world InputAvailable in
      run? lift available in
      do? command := lift (desktop_action_arguments action (DS.session_id self)) in
      let operation := "execute desktop CUA " +:+ Command.tool command in
      do? result := call_driver_tool (Command.tool command) (Command.arguments command)
        operation in
      run? lift (ensure_tool_ok operation result) in
      do? result := lift (native_tool_result result) in
      run? session_modify (fun self => self <| DS.latest_observation_id := None |>) in
      ret {| NativeResult.status := NativeResult.status result;
             NativeResult.answer := Object
               [("success", Bool true); ("action", action_value action);
                ("marker", marker_value (DS.marker self));
                ("cua", NativeResult.answer result)];
             NativeResult.text := NativeResult.text result;
             NativeResult.images := NativeResult.images result;
             NativeResult.degraded := NativeResult.degraded result |}.

Definition end_desktop_session : desktop_op unit :=
  session_modify (fun self => show_marker false (self
    <| DS.active := false |>
    <| DS.latest_observation_id := None |>)).

(** A tool that answers with an error leaves the session active. *)
Definition stop_desktop : desktop_op value :=
  do? self := session_read id in
  if negb (DS.active self)
  then ret (Object [("success", Bool true); ("active", Bool false)])
  else
    do? result := attempt (call_driver_tool "end_session"
      (Object [("session", Str (DS.session_id self))]) "stop CUA desktop session") in
    match result with
    | Err error =>
        run? end_desktop_session in
        throw error
    | Ok result =>
        run? lift (ensure_tool_ok "stop CUA desktop session" result) in
        run? end_desktop_session in
        do? self := session_read id in
        ret (Object [("success", Bool true); ("active", Bool false);
                     ("marker", marker_value (DS.marker self))])
    end.
End Core.

(** ** The Host's desktop sessions *)

Module HostDesktopSession.
Record HostDesktopSession : Type := {
  runtime_session_id : string;
  task_grant_id : string;
  allow_raw_input : bool;
  allow_trusted_confirmation : bool;
  capability : string;
  interrupt_generation : Z;
  interrupted : bool;
  session : DS.ComputerUseDesktopSession;
  latest_shared_image : option SharedImage.Descriptor.SharedImageDescriptor;
}.

#[global] Instance HostDesktopSession_settable : Settable HostDesktopSession := fun s => {|
  runtime_session_id := runtime_session_id s;
  task_grant_id := task_grant_id s;
  allow_raw_input := allow_raw_input s;
  allow_trusted_confirmation := allow_trusted_confirmation s;
  capability := capability s;
  interrupt_generation := interrupt_generation s;
  interrupted := interrupted s;
  session := session s;
  latest_shared_image := latest_shared_image s;
|}.
End HostDesktopSession.

Module HDS := HostDesktopSession.

(** The services the embedding gave the Host. *)
Module DesktopServices.
Record DesktopServices : Type := {
  confirmation_host : option TrustedActionConfirmationHost;
  has_vault : bool;
  agent_name : string;
  other_sessions : Z;
}.
End DesktopServices.

Module Services := DesktopServices.

(** What the request's action, its evidence and its credentials amount to. *)
Module DesktopAction.
Record DesktopAction : Type := {
  session_id : string;
  task_grant_id : string;
  desktop_capability : string;
  observation_id : string;
  action : HA.HostAction;
  capture_after : bool;
  post_snapshot_delay_ms : Z;
}.
End DesktopAction.

Section Host.
Context {M : Type} `{SM : SharedImage.SharedMemory M} `{ND : NativeDecoder} `{P : Platform}.
Context (world : oracle desktop_call) (services : Services.DesktopServices).
Context (sha256_json : Unsigned.UnsignedConfirmationRequest -> result string string).
Context (to_value : HA.HostAction -> result string value).

(** The memory of the system, and one session or the table of them. *)
Abbreviation host_op A :=
  (eff (history desktop_call * (M * HDS.HostDesktopSession)) HostError.HostError A).
Abbreviation table_op A :=
  (eff (history desktop_call * (M * gmap string HDS.HostDesktopSession))
     HostError.HostError A).

(** An operation of the core session. *)
Definition core {A}
    (m : eff (history desktop_call * DS.ComputerUseDesktopSession) cerror A) : host_op A :=
  map_error HostError.ComputerUse
    (on_focus (fun t => HDS.session t.2) (fun s t => (t.1, t.2 <| HDS.session := s |>)) m).

(** An operation on the image the session shares. *)
Definition imaging {A}
    (m : eff (M * option SharedImage.Descriptor.SharedImageDescriptor) HostError.HostError A)
    : host_op A :=
  silent (on_part (fun t => (t.1, HDS.latest_shared_image t.2))
    (fun s t => (s.1, t.2 <| HDS.latest_shared_image := s.2 |>)) m).

Definition host_read {A} (f : HDS.HostDesktopSession -> A) : host_op A :=
  silent (read (fun t => f t.2)).
Definition host_modify (f : HDS.HostDesktopSession -> HDS.HostDesktopSession) : host_op unit :=
  silent (modify (fun t => (t.1, f t.2))).

Definition desktop_interrupted {A} (message : string) : host_op A :=
  throw (HostError.ComputerUse
    (ComputerUseError.new ComputerUseErrorCode.UserInterrupted message)).

Definition ensure_desktop_session_not_interrupted : host_op unit :=
  do? interrupted := host_read HDS.interrupted in
  if interrupted : bool
  then desktop_interrupted
    "Escape or a shared Host stop interrupted this desktop session; the session is stopped"
  else
    do? started := host_read HDS.interrupt_generation in
    do? current := ask world InterruptGeneration in
    if interrupt_generation_changed started current then
      do? stopped := attempt (core (stop_desktop world)) in
      let cleanup_note := match stopped with
        | Err error => "; CUA cleanup also failed: " +:+ HostError.to_string error
        | Ok _ => ""
        end in
      run? host_modify (fun self => self <| HDS.interrupted := true |>) in
      desktop_interrupted
        ("a shared Host stop interrupted this desktop session" +:+ cleanup_note)
    else ret tt.

(** An operation of the session with these credentials. *)
Definition authorized_desktop_session {A} (session_id grant_id capability : string)
    (m : host_op A) : table_op A := fun '(h, (memory, sessions)) =>
  match sessions !! session_id with
  | None => Some (Err HostError.session_not_found, (h, (memory, sessions)))
  | Some host =>
      if (HDS.task_grant_id host != grant_id) || (HDS.capability host != capability)
      then Some (Err (HostError.Protocol "desktop session grant or capability mismatch"),
                 (h, (memory, sessions)))
      else
        match (run? ensure_desktop_session_not_interrupted in m) (h, (memory, host)) with
        | Some (r, (h, (memory, host))) =>
            Some (r, (h, (memory, <[session_id := host]> sessions)))
        | None => None
        end
  end.

(** The loop of [wait_for_desktop_post_snapshot_delay] with what remains until the
    deadline; a sleep takes at least as long as it was asked to, so that one round per
    started slice, and a last one, are enough fuel. *)
Fixpoint wait_for_post_snapshot (fuel : nat) (remaining : Z) : host_op unit :=
  match fuel with
  | O => Effects.panic
  | S fuel =>
      run? ensure_desktop_session_not_interrupted in
      if remaining <=? 0 then ret tt
      else
        do? slept := ask world (Sleep (interrupt_poll_slice remaining)) in
        wait_for_post_snapshot fuel (saturating_sub remaining slept)
  end.

Definition wait_for_desktop_post_snapshot_delay (delay : Z) : host_op unit :=
  wait_for_post_snapshot (S (S (Z.to_nat (delay / 50)))) delay.

(** The image of a snapshot, through the transport the connection chose. *)
Definition snapshot_image (mode : SnapshotTransport) (data : list Z) (observation_id : string)
    : host_op response :=
  match mode with
  | SharedMemory =>
      do? uuid := ask world FreshUuid in
      do? now := ask world UnixSeconds in
      do? descriptor := imaging (share_image uuid now data "image/png") in
      ret (descriptor, None)
  | BinaryFrame =>
      ret (Object [("name", Str ""); ("id", Str observation_id);
                   ("length", Number (PosInt (len data)));
                   ("mime_type", Str "image/png"); ("encoding", Str "binary_frame")],
           Some data)
  end.

Definition desktop_session_snapshot (mode : SnapshotTransport)
    (session_id grant_id capability : string) : table_op response :=
  authorized_desktop_session session_id grant_id capability (
    do? snapshot := core (screenshot world) in
    do? (image, attachment) := snapshot_image mode (DesktopSnapshot.data snapshot)
      (DesktopSnapshot.observation_id snapshot) in
    ret (Object
      [("type", Str "desktop_snapshot"); ("session_id", Str session_id);
       ("observation_id", Str (DesktopSnapshot.observation_id snapshot));
       ("state", DesktopSnapshot.state snapshot); ("image", image)], attachment)).

Definition open_desktop_session (session_id : string) (grant : Grant.TaskGrant)
    : table_op response := fun '(h, (memory, sessions)) =>
  (do? sessions := silent (read snd) in
   run? lift (if is_some (sessions !! session_id)
              then Err (HostError.Protocol "desktop session already exists") else Ok tt) in
   run? lift (ensure_connection_session_capacity
                (Services.other_sessions services + Z.of_nat (size sessions))) in
   run? lift (validate_identity grant) in
   run? lift (reject_task_authorization grant "open_desktop_session") in
   do? session_generation := ask world InterruptGeneration in
   do? runtime_uuid := ask world FreshUuid in
   let runtime_session_id := new_runtime_session_id "desktop" runtime_uuid in
   do? language := ask world LanguageTag in
   let label := localized_control_label_for_language language
     (Services.agent_name services) "Desktop" in
   do? session := lift (rmap_err HostError.ComputerUse
     (new_desktop_session label runtime_session_id)) in
   do? (started, session) := (fun t =>
     match start world (t.1, session) with
     | Some (Ok started, (h, session)) => Some (Ok (started, session), (h, t.2))
     | Some (Err error, (h, _)) => Some (Err (HostError.ComputerUse error), (h, t.2))
     | None => None
     end) in
   do? capability_uuid := ask world FreshUuid in
   let capability := "cua-desktop-" +:+ capability_uuid in
   let host :=
     {| HDS.runtime_session_id := runtime_session_id;
        HDS.task_grant_id := Grant.task_grant_id grant;
        HDS.allow_raw_input := Grant.allow_raw_input grant;
        HDS.allow_trusted_confirmation := Grant.allow_trusted_confirmation grant;
        HDS.capability := capability;
        HDS.interrupt_generation := session_generation;
        HDS.interrupted := false;
        HDS.session := session;
        HDS.latest_shared_image := None |} in
   run? silent (modify (fun t => (t.1, <[session_id := host]> t.2))) in
   ret (Object
     [("type", Str "desktop_session_opened"); ("session_id", Str session_id);
      ("desktop_capability", Str capability); ("started", started)], None))
  (h, (memory, sessions)).

(** A session taken out of the table is stopped outside it. *)
Definition stop_desktop_session (session_id : string) : table_op response :=
  fun '(h, (memory, sessions)) =>
  match sessions !! session_id with
  | None => Some (Err HostError.session_not_found, (h, (memory, sessions)))
  | Some host =>
      let sessions := delete session_id sessions in
      match stop_desktop world (h, HDS.session host) with
      | Some (Ok result, (h, _)) =>
          Some (Ok (Object [("type", Str "desktop_session_stopped");
                            ("session_id", Str session_id); ("result", result)], None),
                (h, (memory, sessions)))
      | Some (Err error, (h, _)) =>
          Some (Err (HostError.ComputerUse error), (h, (memory, sessions)))
      | None => None
      end
  end.

(** *** Actions *)

Definition action_refused (policy_tier message error : string) : response :=
  (Object [("type", Str "action_completed"); ("success", Bool false);
           ("policy_tier", Str policy_tier); ("message", Str message);
           ("error", Str error)], None).

Definition confirm_desktop_action (request : DesktopAction.DesktopAction)
    : host_op ActionConfirmationOutcome :=
  do? uuid := ask world FreshUuid in
  do? confirmation := lift (for_desktop_action sha256_json to_value uuid
    (DesktopAction.session_id request) (DesktopAction.task_grant_id request)
    (DesktopAction.desktop_capability request) (DesktopAction.observation_id request)
    (DesktopAction.action request)) in
  do? allowed := host_read HDS.allow_trusted_confirmation in
  ret (authorize_action_confirmation (Services.confirmation_host services) allowed
         confirmation).

(** The text of a secret handle comes from the vault. *)
Definition resolve_secret (action : HA.HostAction) : host_op HA.HostAction :=
  match HA.secret_handle action with
  | Some handle =>
      if negb (Services.has_vault services)
      then throw (secret_vault_error VaultUnavailable)
      else
        do? secret := ask world (ResolveSecret handle) in
        do? secret := lift (rmap_err secret_vault_error secret) in
        ret (action <| HA.text := Some secret |> <| HA.secret_handle := None |>)
  | None => ret action
  end.

(** [error.message] of the core's error. *)
Definition desktop_error_message (error : HostError.HostError) : string :=
  match error with
  | HostError.ComputerUse error => ComputerUseError.message error
  | _ => ""
  end.

(** The response to an executed action, before a snapshot is added. *)
Definition desktop_action_response (session_id action_id message : string)
    (result : NativeResult.ComputerUseToolResult) (mode : SnapshotTransport)
    : host_op response :=
  do? uuid := ask world FreshUuid in
  do? now := ask world UnixSeconds in
  imaging (action_completed_response uuid now session_id action_id message result mode).

Definition observation_required (response : value) : value :=
  set_index response "observation_required" (Bool true).

(** An action that ran, although its snapshot did not. *)
Definition snapshot_missing (code message response : value) : value :=
  observation_required (set_index response "post_snapshot"
    (Object [("success", Bool false); ("action_was_executed", Bool true);
             ("code", code); ("message", message)])).

Definition finish_desktop_action (session_id action_id : string) (capture_after : bool)
    (delay : Z) (result : NativeResult.ComputerUseToolResult) (mode : SnapshotTransport)
    : host_op response :=
  if negb capture_after then
    do? (response, attachment) := desktop_action_response session_id action_id
      "desktop CUA action completed" result mode in
    ret (observation_required response, attachment)
  else
    do? waited := attempt (wait_for_desktop_post_snapshot_delay delay) in
    match waited with
    | Err error =>
        let failure := host_error_response error in
        do? (response, attachment) := desktop_action_response session_id action_id
          "desktop CUA action completed, but the post-action snapshot was interrupted"
          result mode in
        ret (snapshot_missing failure.["code"] failure.["message"] response, attachment)
    | Ok _ =>
        do? snapshot := attempt (F := HostError.HostError) (core (screenshot world)) in
        match snapshot with
        | Ok snapshot =>
            do? uuid := ask world FreshUuid in
            do? now := ask world UnixSeconds in
            imaging (completed_with_snapshot uuid now session_id action_id
              "desktop CUA action completed with a fresh post-action snapshot" result
              (Object [("success", Bool true);
                       ("observation_id", Str (DesktopSnapshot.observation_id snapshot));
                       ("state", DesktopSnapshot.state snapshot)])
              (DesktopSnapshot.data snapshot) mode)
        | Err error =>
            do? (response, attachment) := desktop_action_response session_id action_id
              "desktop CUA action completed, but the post-action snapshot failed"
              result mode in
            ret (snapshot_missing (Str (error_code error)) (Str (desktop_error_message error)) response,
                 attachment)
        end
    end.

(** The action of an authorized request, from the grant to the driver. *)
Definition perform_desktop_action (request : DesktopAction.DesktopAction)
    (mode : SnapshotTransport) (delay : Z) : host_op response :=
  let action := DesktopAction.action request in
  do? allow_raw_input := host_read HDS.allow_raw_input in
  if negb allow_raw_input
  then throw (denied HostProtocolErrorCode.RawInputNotGranted "raw input")
  else
    run? lift (rmap_err HostError.ComputerUse (validate_secret_source action)) in
    let safety_tier := safety_tier action None in
    match rejection safety_tier with
    | Some (policy_tier, code, message) => ret (action_refused policy_tier message code)
    | None =>
        do? outcome := (if requires_confirmation safety_tier
                        then confirm_desktop_action request else ret Allowed) in
        if outcome != Allowed
        then match action_confirmation_refusal outcome with
             | Some (error, message) =>
                 ret (action_refused "action_confirmation" message error)
             | None => Effects.panic
             end
        else
          do? action := resolve_secret action in
          do? action := lift (rmap_err HostError.ComputerUse
            (into_computer_use action (DesktopAction.observation_id request))) in
          do? result := core (perform_action world action) in
          do? uuid := ask world FreshUuid in
          finish_desktop_action (DesktopAction.session_id request)
            ("cua-desktop-action-" +:+ uuid) (DesktopAction.capture_after request) delay
            result mode
    end.

Definition execute_desktop_action (request : DesktopAction.DesktopAction)
    (mode : SnapshotTransport) : table_op response :=
  do? delay := lift (post_snapshot_delay (DesktopAction.capture_after request)
    (DesktopAction.post_snapshot_delay_ms request)) in
  authorized_desktop_session (DesktopAction.session_id request)
    (DesktopAction.task_grant_id request) (DesktopAction.desktop_capability request)
    (perform_desktop_action request mode delay).
End Host.
