(* ===== verification/DesktopInput.v ===== *)
(** * The input and the waits of a desktop session
    ([crates/dcc-cua-core/src/runtime.rs], [crates/dcc-cua-host/src/request_handler.rs])

    What reaches the driver of the desktop, by whose word and on what evidence, and that
    every request returns: the theorems on DesktopSession. *)

From S2P Require Import Prelude Records Effects Calls RustStr Json Protocol Errors.
From S2P Require Import TargetPolicy HostAction Confirmation Platform TaskGrant Request.
From S2P Require Import RuntimeSession ActionPolicy Images SecretVault Admission.
From S2P Require Import DesktopCommand DesktopSession.
From S2P Require SharedImage.

Abbreviation call_record := {A & (desktop_call A * A)%type}.

(** ** What a request does to the desktop *)

(** The calls that act on the desktop. *)
Definition is_input (c : call_record) : bool :=
  match c with
  | existT _ (CallTool tool _ _, _) => negb (tool ∈? ["end_session"; "get_desktop_state"])
  | _ => false
  end.

Definition driver_inputs (h : history desktop_call) : history desktop_call :=
  of_interest_in is_input h.

(** A screenshot of the desktop. *)
Definition is_capture (c : call_record) : bool :=
  match c with
  | existT _ (CallTool tool _ _, _) => tool == "get_desktop_state"
  | _ => false
  end.

(** A reading of the counter of the shared stop. *)
Definition is_stop_check (c : call_record) : bool :=
  match c with existT _ (InterruptGeneration, _) => true | _ => false end.

(** A sleep, a screenshot or an input: what a stopped session may not do. *)
Definition goes_on (c : call_record) : bool :=
  match c with
  | existT _ (Sleep _, _) => true
  | _ => is_input c || is_capture c
  end.

(** The call is the command of [action], for the driver's session. *)
Definition is_command_of (action : CA.ComputerUseAction) (session_id : string)
    (c : call_record) : Prop :=
  exists tool fields answer, desktop_command action tool fields
    /\ c = asked (CallTool tool (bound_to_desktop session_id fields)
         ("execute desktop CUA " +:+ tool)) answer.

(** The action, with the text the vault gave for its secret if it names one. *)
Definition resolves (calls : history desktop_call) (action resolved : HA.HostAction) : Prop :=
  match HA.secret_handle action with
  | None => resolved = action
  | Some handle => exists secret, asked (ResolveSecret handle) (Ok secret) ∈ calls
      /\ resolved = action <| HA.text := Some secret |> <| HA.secret_handle := None |>
  end.

(** The user said yes to a request bound to this session, grant, observation and action. *)
Definition confirmed_action (services : Services.DesktopServices)
    (sha256_json : Unsigned.UnsignedConfirmationRequest -> result string string)
    (to_value : HA.HostAction -> result string value) (request : DesktopAction.DesktopAction)
    : Prop :=
  exists v confirmation, to_value (DesktopAction.action request) = Ok v
    /\ asks_about sha256_json (DesktopAction.session_id request)
         (DesktopAction.task_grant_id request) (DesktopAction.desktop_capability request) None
         (DesktopAction.observation_id request) None
         (HA.intent (DesktopAction.action request)) v confirmation
    /\ user_allows (Services.confirmation_host services) confirmation.

(** What the Host requires before an action's input: the credentials of a session that
    was not stopped, its grant, a tier that may run, the user's word where the tier asks
    for it, and the observation the session recorded last. *)
Definition admitted_input (services : Services.DesktopServices)
    (sha256_json : Unsigned.UnsignedConfirmationRequest -> result string string)
    (to_value : HA.HostAction -> result string value)
    (sessions : gmap string HDS.HostDesktopSession) (request : DesktopAction.DesktopAction)
    (calls : history desktop_call) (c : call_record) : Prop :=
  let tier := safety_tier (DesktopAction.action request) None in
  exists host resolved action,
    sessions !! DesktopAction.session_id request = Some host
    /\ HDS.task_grant_id host = DesktopAction.task_grant_id request
    /\ HDS.capability host = DesktopAction.desktop_capability request
    /\ HDS.interrupted host = false
    /\ asked InterruptGeneration (HDS.interrupt_generation host) ∈ calls
    /\ DS.active (HDS.session host) = true
    /\ DS.latest_observation_id (HDS.session host)
       = Some (DesktopAction.observation_id request)
    /\ HDS.allow_raw_input host = true
    /\ tier <> HardDeny
    /\ (tier ∈ [ActionConfirmation; PreApproval] ->
        HDS.allow_trusted_confirmation host = true
        /\ confirmed_action services sha256_json to_value request)
    /\ resolves calls (DesktopAction.action request) resolved
    /\ sent_as resolved (DesktopAction.observation_id request) action
    /\ is_command_of action (DS.session_id (HDS.session host)) c.

Section CoreLemmas.
Context `{ND : NativeDecoder} (world : oracle desktop_call).

Section Quiet.
Context (interesting : call_record -> bool).

Lemma quiet_call_driver_tool tool arguments operation :
  (forall answer, interesting (asked (CallTool tool arguments operation) answer) = false) ->
  respects (quiet interesting) (call_driver_tool world tool arguments operation).
Proof. intros Ht. unfold call_driver_tool. respects. by apply quiet_ask. Qed.

Lemma quiet_stop_desktop :
  (forall arguments operation answer,
     interesting (asked (CallTool "end_session" arguments operation) answer) = false) ->
  respects (quiet interesting) (stop_desktop world).
Proof.
  intros H. unfold stop_desktop, end_desktop_session, session_read, session_modify. respects.
  by apply quiet_call_driver_tool.
Qed.

Lemma quiet_screenshot :
  (forall available, interesting (asked ObservationAvailable available) = false) ->
  (forall arguments operation answer,
     interesting (asked (CallTool "get_desktop_state" arguments operation) answer) = false) ->
  (forall timed_out, interesting (asked SnapshotTimedOut timed_out) = false) ->
  (forall n, interesting (asked NextObservation n) = false) ->
  respects (quiet interesting) (screenshot world).
Proof.
  intros. unfold screenshot, desktop_snapshot_for, session_read, session_modify,
    invalid_desktop_action. respects; by (apply quiet_ask || apply quiet_call_driver_tool).
Qed.
End Quiet.

Lemma desktop_command_acts a tool fields :
  desktop_command a tool fields -> (tool ∈? ["end_session"; "get_desktop_state"]) = false.
Proof. by destruct 1. Qed.

(** An action is one command, of the observation recorded last, in an active session. *)
Lemma acts_perform_action action h s :
  acts is_input
    (fun _ c => is_command_of action (DS.session_id s) c /\ DS.active s = true
              /\ is_Some (CA.observation_id action)
              /\ CA.observation_id action = DS.latest_observation_id s)
    (perform_action world action) (h, s).
Proof.
  unfold perform_action, session_read, session_modify, invalid_desktop_action.
  apply acts_read. simpl.
  destruct (DS.active s) eqn:Ha; simpl; [|apply acts_quiet; respects].
  apply acts_lift. intros _ _.
  destruct (_ || _ : bool); [apply acts_quiet; respects|].
  destruct (observation_matches s action) eqn:Ho; simpl; [|apply acts_quiet; respects].
  apply acts_ask; [done|]. intros available. apply acts_lift. intros _ _.
  apply acts_lift. intros command (fields & Hc & Hf)%desktop_command_of.
  apply acts_before; [|intros; respects].
  unfold call_driver_tool. apply acts_before; [|intros; respects].
  apply acts_act.
  - intros answer. simpl. by rewrite (desktop_command_acts _ _ _ Hc).
  - intros answer. unfold observation_matches in Ho.
    destruct (DS.latest_observation_id s), (CA.observation_id action); try done.
    reflect_in Ho. subst. split_and!; try done. rewrite Hf. by eexists _, _, _.
Qed.
End CoreLemmas.

Section HostLemmas.
Context {M : Type} `{SM : SharedImage.SharedMemory M} `{ND : NativeDecoder}.
Context (world : oracle desktop_call) (services : Services.DesktopServices).
Context (sha256_json : Unsigned.UnsignedConfirmationRequest -> result string string).
Context (to_value : HA.HostAction -> result string value).

Lemma quiet_core interesting {A} (m : eff _ cerror A) :
  respects (quiet interesting) m -> respects (quiet interesting) (core (M := M) m).
Proof. intros Hm. unfold core. respects. Qed.
Hint Resolve quiet_core : respects.

(** A session that passes was not stopped, and is left as it was. *)
Lemma ensure_not_interrupted_ok h s u h' s' :
  ensure_desktop_session_not_interrupted (M := M) world (h, s) = Some (Ok u, (h', s')) ->
  HDS.interrupted s.2 = false /\ s' = s
  /\ h' = h ++ [asked InterruptGeneration (HDS.interrupt_generation s.2)].
Proof.
  unfold ensure_desktop_session_not_interrupted, host_read, host_modify.
  intros (interrupted & s1 & H1 & H)%bind_ok. injection H1 as <- <-.
  destruct (HDS.interrupted s.2); [done|].
  apply bind_ok in H as (started & s1 & H1 & H). injection H1 as <- <-.
  apply bind_ok in H as (current & s1 & H1 & H). injection H1 as <- <-.
  destruct (interrupt_generation_changed _ _) eqn:E.
  - apply bind_ok in H as (stopped & s1 & _ & H).
    by apply bind_ok in H as (? & s2 & _ & ?).
  - injection H as _ <- <-. unfold interrupt_generation_changed in E.
    apply negb_false_iff, Z.eqb_eq in E. by rewrite <- E.
Qed.

(** What a check for a stop asks. *)
Lemma quiet_desktop_ensure interesting :
  (forall n, interesting (asked InterruptGeneration n) = false) ->
  (forall arguments operation answer,
     interesting (asked (CallTool "end_session" arguments operation) answer) = false) ->
  respects (quiet interesting) (ensure_desktop_session_not_interrupted (M := M) world).
Proof.
  intros Hn He. unfold ensure_desktop_session_not_interrupted, host_read, host_modify,
    desktop_interrupted. respects; by (apply quiet_ask || apply quiet_core, quiet_stop_desktop).
Qed.

Lemma quiet_wait interesting fuel remaining :
  (forall n, interesting (asked InterruptGeneration n) = false) ->
  (forall arguments operation answer,
     interesting (asked (CallTool "end_session" arguments operation) answer) = false) ->
  (forall d n, interesting (asked (Sleep d) n) = false) ->
  respects (quiet interesting) (wait_for_post_snapshot (M := M) world fuel remaining).
Proof.
  intros. revert remaining. induction fuel as [|fuel IH]; intros remaining; simpl; respects.
  - by apply quiet_desktop_ensure.
  - by apply quiet_ask.
Qed.

Lemma quiet_response interesting session_id action_id message result mode :
  (forall uuid, interesting (asked FreshUuid uuid) = false) ->
  (forall now, interesting (asked UnixSeconds now) = false) ->
  respects (quiet interesting)
    (desktop_action_response (M := M) world session_id action_id message result mode).
Proof.
  intros. unfold desktop_action_response, imaging. respects; by apply quiet_ask.
Qed.

(** *** The input *)

Lemma quiet_finish session_id action_id capture_after delay result mode :
  respects (quiet is_input)
    (finish_desktop_action (M := M) world session_id action_id capture_after delay result
       mode).
Proof.
  unfold finish_desktop_action, wait_for_desktop_post_snapshot_delay, imaging.
  respects; first [by apply quiet_response | by apply quiet_wait | by apply quiet_ask
                  | by apply quiet_core, quiet_screenshot].
Qed.

Lemma confirm_ok request h s h' s' :
  confirm_desktop_action (M := M) world services sha256_json to_value request (h, s)
  = Some (Ok Allowed, (h', s')) ->
  HDS.allow_trusted_confirmation s.2 = true
  /\ confirmed_action services sha256_json to_value request.
Proof.
  intros (uuid & s1 & H1 & H)%bind_ok. injection H1 as _ <-.
  apply bind_ok in H as (confirmation & s1 & (Hf & ->)%lift_some & H).
  apply bind_ok in H as (allowed & s1 & H1 & H). injection H1 as <- <-.
  injection H as Ha _ _. apply authorize_allows in Ha as [? Ha]. split; [done|].
  symmetry in Hf. unfold for_desktop_action, new in Hf.
  apply rbind_ok in Hf as (v & Hv%rmap_err_ok & Hf).
  exists v, confirmation. split_and!; try done. by apply new_value_asks in Hf.
Qed.

Lemma confirm_keeps request h s outcome h' s' :
  confirm_desktop_action (M := M) world services sha256_json to_value request (h, s)
  = Some (Ok outcome, (h', s')) -> s' = s /\ exists new, h' = h ++ new.
Proof.
  intros (uuid & s1 & H1 & H)%bind_ok. injection H1 as _ <-.
  apply bind_ok in H as (confirmation & s1 & (Hf & ->)%lift_some & H).
  apply bind_ok in H as (allowed & s1 & H1 & H). injection H1 as <- <-.
  injection H as _ <- <-. eauto.
Qed.

Lemma resolve_secret_ok action resolved h s h' s' :
  resolve_secret (M := M) world services action (h, s) = Some (Ok resolved, (h', s')) ->
  s' = s /\ exists new, h' = h ++ new /\ resolves new action resolved.
Proof.
  unfold resolve_secret, resolves. destruct (HA.secret_handle action) as [handle|].
  2:{ intros [= <- <- <-]. split; [done|]. exists []. by rewrite app_nil_r. }
  destruct (negb _); [done|].
  intros (secret & s1 & H1 & H)%bind_ok. injection H1 as Hw <-.
  apply bind_ok in H as (text & s1 & (Ht & ->)%lift_some & H).
  symmetry in Ht. apply rmap_err_ok in Ht. injection H as <- <- <-. split; [done|].
  eexists. split; [done|]. exists text. split; [|done]. rewrite Hw, Ht. by left.
Qed.

Lemma resolves_desktop_app calls more action resolved :
  resolves more action resolved -> resolves (calls ++ more) action resolved.
Proof.
  unfold resolves. destruct (HA.secret_handle action); [|done].
  intros (secret & Hin & ?). exists secret. split; [|done]. apply elem_of_app. by right.
Qed.
Lemma resolves_before calls more action resolved :
  resolves calls action resolved -> resolves (calls ++ more) action resolved.
Proof.
  unfold resolves. destruct (HA.secret_handle action); [|done].
  intros (secret & Hin & ?). exists secret. split; [|done]. apply elem_of_app. by left.
Qed.

Lemma acts_desktop_action request mode delay h calls m host sessions :
  sessions !! DesktopAction.session_id request = Some host ->
  HDS.task_grant_id host = DesktopAction.task_grant_id request ->
  HDS.capability host = DesktopAction.desktop_capability request ->
  HDS.interrupted host = false ->
  asked InterruptGeneration (HDS.interrupt_generation host) ∈ calls ->
  acts is_input
    (since h (admitted_input services sha256_json to_value sessions request))
    (perform_desktop_action (M := M) world services sha256_json to_value request mode delay)
    (h ++ calls, (m, host)).
Proof.
  intros Hs Hg Hcap Hi Hgen. unfold perform_desktop_action, host_read.
  apply acts_read. simpl.
  destruct (HDS.allow_raw_input host) eqn:Hr; simpl; [|apply acts_quiet; respects].
  apply acts_lift. intros _ _.
  destruct (rejection _) as [[[??]?]|] eqn:Ht; [apply acts_quiet; respects|].
  apply acts_after.
  { unfold confirm_desktop_action, host_read. respects. by apply quiet_ask. }
  intros outcome [h1 s1] Hc.
  destruct (decide (outcome = Allowed)) as [->|Hne].
  2:{ rewrite bool_decide_eq_false_2 by done. simpl. apply acts_quiet. respects. }
  assert (s1 = (m, host) /\ (exists n1, h1 = (h ++ calls) ++ n1)
    /\ (safety_tier (DesktopAction.action request) None ∈ [ActionConfirmation; PreApproval] ->
        HDS.allow_trusted_confirmation host = true
        /\ confirmed_action services sha256_json to_value request))
    as (-> & (n1 & ->) & Hconfirmed).
  { destruct (requires_confirmation _) eqn:Hreq.
    - destruct (confirm_keeps _ _ _ _ _ _ Hc) as [-> ?]. split_and!; try done.
      by apply confirm_ok in Hc.
    - injection Hc as <- <-. split_and!; [done | exists []; by rewrite app_nil_r|].
      intros Hin. set_unfold in Hin. destruct Hin as [Hin|[Hin|[]]]; by rewrite Hin in Hreq. }
  clear Hc. rewrite bool_decide_eq_true_2 by done. cbn [negb].
  apply acts_after; [unfold resolve_secret; respects; by apply quiet_ask|].
  intros resolved [h2 s2] (-> & n2 & -> & Hact)%resolve_secret_ok.
  apply acts_lift. intros action Hu%rmap_err_ok%into_computer_use_sends.
  apply acts_before; [|intros; respects; [by apply quiet_ask | apply quiet_finish]].
  unfold core. apply acts_map_error, acts_on_focus.
  eapply acts_impl; [|apply acts_from, acts_perform_action]. simpl.
  intros hist c ((n3 & ->) & Hc & Ha & _ & Hl).
  exists (calls ++ n1 ++ n2 ++ n3). split; [by rewrite <- !app_assoc|].
  rewrite (sent_observation _ _ _ Hu) in Hl.
  exists host, resolved, action. split_and!; try done.
  - apply elem_of_app. by left.
  - by destruct (safety_tier _ _).
  - apply resolves_desktop_app, resolves_desktop_app. by apply resolves_before.
Qed.

Lemma acts_desktop_request request mode h m sessions :
  acts is_input (since h (admitted_input services sha256_json to_value sessions request))
    (execute_desktop_action (M := M) world services sha256_json to_value request mode)
    (h, (m, sessions)).
Proof.
  unfold execute_desktop_action. apply acts_lift. intros delay _ r [h' [m' sessions']].
  unfold authorized_desktop_session.
  destruct (sessions !! _) as [host|] eqn:Es.
  2:{ intros H. injection H as _ <- _ _. left. exists []. by rewrite app_nil_r. }
  destruct (_ || _ : bool) eqn:Ec.
  { intros H. injection H as _ <- _ _. left. exists []. by rewrite app_nil_r. }
  apply orb_false_iff in Ec as [Hg Hk]. reflect_all.
  destruct (bind _ _ _) as [[r1 [h1 [m1 host1]]]|] eqn:E; [|done].
  intros H. injection H as _ <- _ _.
  eapply (acts_after is_input _ _ _ (h, (m, host))) in E; cycle 1.
  - by apply quiet_desktop_ensure.
  - intros [] [h2 s2] (Hi & -> & ->)%ensure_not_interrupted_ok.
    apply (acts_desktop_action request mode delay h _ m host sessions); try done. by left.
  - exact E.
Qed.
End HostLemmas.

(** ** Waits and stops *)

(** A wait of [remaining] milliseconds that went through: the counter of the shared stop
    stood at [generation] before every sleep and at the end, each sleep was a slice of at
    most 50 milliseconds, and together they took the time that was to pass. *)
Inductive waited (generation : Z) : Z -> history desktop_call -> Prop :=
| waited_over remaining :
    remaining <= 0 -> waited generation remaining [asked InterruptGeneration generation]
| waited_slice remaining duration slept calls :
    1 <= duration <= 50 -> duration <= remaining -> waited generation (remaining - slept) calls ->
    waited generation remaining
      (asked InterruptGeneration generation :: asked (Sleep duration) slept :: calls).

(** Once the counter says that the session was stopped, it goes on no more. *)
Definition heeds (generation : Z) (calls : history desktop_call) : Prop :=
  forall before current after, calls = before ++ asked InterruptGeneration current :: after ->
    current <> generation -> forall c, c ∈ after -> goes_on c = false.

(** A screenshot is taken only after a wait of [delay] milliseconds went through. *)
Definition captured_after (generation delay : Z) (calls : history desktop_call)
    (c : call_record) : Prop :=
  exists before wait available,
    calls = before ++ wait ++ [asked ObservationAvailable available]
    /\ waited generation delay wait.

(** No reading of the counter says that the session was stopped. *)
Definition undisturbed (generation : Z) (calls : history desktop_call) : Prop :=
  forall current, asked InterruptGeneration current ∈ calls -> current = generation.

(** What the counter read. *)
Definition reading (c : call_record) : option Z :=
  match projT2 c with
  | (call, answer) =>
      match call in desktop_call A return A -> option Z with
      | InterruptGeneration => Some
      | _ => fun _ => None
      end answer
  end.

Lemma reading_check n c : asked InterruptGeneration n = c -> reading c = Some n.
Proof. by intros <-. Qed.

Lemma undisturbed_app g l1 l2 : undisturbed g l1 -> undisturbed g l2 -> undisturbed g (l1 ++ l2).
Proof. intros H1 H2 n [?|?]%elem_of_app; auto. Qed.

Lemma undisturbed_quiet g calls : of_interest_in is_stop_check calls = [] -> undisturbed g calls.
Proof.
  intros Hq n Hin%list_elem_of_In. exfalso.
  assert (H : In (asked InterruptGeneration n) (of_interest_in is_stop_check calls))
    by (by apply filter_In). by rewrite Hq in H.
Qed.

Lemma heeds_app g l1 l2 : undisturbed g l1 -> heeds g l2 -> heeds g (l1 ++ l2).
Proof.
  intros Hu Hh before n after E Hn.
  apply app_eq_app in E as (l & [[-> E]|[-> E]]).
  - destruct l as [|c l]; [by apply (Hh [] n after)|]. injection E as <- ->.
    destruct Hn. apply Hu, elem_of_app. right. by left.
  - by apply (Hh l n after).
Qed.

Lemma heeds_idle g l1 l2 :
  heeds g l1 -> of_interest_in goes_on l2 = [] -> heeds g (l1 ++ l2).
Proof.
  intros Hh Hq before n after E Hn c Hin.
  assert (Hidle : forall c, c ∈ l2 -> goes_on c = false).
  { intros c' Hc'%list_elem_of_In. destruct (goes_on c') eqn:Eg; [|done].
    assert (H : In c' (of_interest_in goes_on l2)) by (by apply filter_In). by rewrite Hq in H. }
  apply app_eq_app in E as (l & [[-> E]|[-> E]]).
  - destruct l as [|c' l]; cbn in E.
    + apply Hidle. rewrite <- E. by right.
    + injection E as <- ->. apply elem_of_app in Hin as [Hin|Hin]; [|by apply Hidle].
      by apply (Hh before n l).
  - apply Hidle. rewrite E. apply elem_of_app. right. by right.
Qed.

Lemma undisturbed_heeds g calls : undisturbed g calls -> heeds g calls.
Proof.
  intros Hu before n after -> Hn. destruct Hn. apply Hu, elem_of_app. right. by left.
Qed.

Lemma waited_undisturbed g remaining calls : waited g remaining calls -> undisturbed g calls.
Proof.
  induction 1 as [|remaining d n calls ? ? ? IH]; intros m Hin.
  - apply list_elem_of_singleton, reading_check in Hin. by injection Hin.
  - apply elem_of_cons in Hin as [Hin%reading_check|[Hin%reading_check|Hin]%elem_of_cons];
      [by injection Hin | done | auto].
Qed.

Lemma waited_nothing g remaining calls :
  remaining <= 0 -> waited g (Z.max 0 remaining) calls -> waited g remaining calls.
Proof. intros Hr H. inversion H; subst; [by constructor | lia]. Qed.

Section Waits.
Context {M : Type} `{SM : SharedImage.SharedMemory M} `{ND : NativeDecoder}.
Context (world : oracle desktop_call) (services : Services.DesktopServices).
Context (sha256_json : Unsigned.UnsignedConfirmationRequest -> result string string).
Context (to_value : HA.HostAction -> result string value).

(** What an operation of a session whose counter stood at [g] calls: a failed one heeds a
    stop, and a successful one saw none. *)
Definition attentive {A} (m : eff (history desktop_call * (M * HDS.HostDesktopSession))
    HostError.HostError A) : Prop :=
  forall h s r h' s', m (h, s) = Some (r, (h', s')) ->
    exists new, h' = h ++ new /\ heeds (HDS.interrupt_generation s.2) new
      /\ (is_ok r = true -> undisturbed (HDS.interrupt_generation s.2) new /\ s' = s).

Lemma quiet_check_heeds g h h' :
  (exists new, h' = h ++ new /\ of_interest_in is_stop_check new = []) ->
  exists new, h' = h ++ new /\ undisturbed g new.
Proof. intros (new & -> & Hq). exists new. split; [done|]. by apply undisturbed_quiet. Qed.

Lemma attentive_ensure :
  attentive (ensure_desktop_session_not_interrupted (M := M) world).
Proof.
  intros h s r h' s' H. destruct r as [[]|e].
  { apply ensure_not_interrupted_ok in H as (_ & -> & ->). eexists. split; [done|].
    assert (Hu : undisturbed (HDS.interrupt_generation s.2)
      [asked InterruptGeneration (HDS.interrupt_generation s.2)])
      by (intros n Hin%list_elem_of_singleton%reading_check; by injection Hin).
    by split; [apply undisturbed_heeds|]. }
  unfold ensure_desktop_session_not_interrupted, host_read, host_modify in H.
  apply bind_err in H as [H|(interrupted & s1 & H1 & H)]; [done|]. injection H1 as <- <-.
  destruct (HDS.interrupted s.2).
  { injection H as _ <- _. exists []. rewrite app_nil_r. split_and!; [done| |done].
    by intros [] ? ?. }
  apply bind_err in H as [H|(started & s1 & H1 & H)]; [done|]. injection H1 as <- <-.
  apply bind_err in H as [H|(current & s1 & H1 & H)]; [done|]. injection H1 as _ <-.
  destruct (interrupt_generation_changed _ _); [|done].
  assert (Hq : respects (quiet goes_on) (do? stopped := attempt (core (M := M) (stop_desktop world)) in
      run? silent (modify (fun t => (t.1, t.2 <| HDS.interrupted := true |>))) in
      desktop_interrupted (A := unit) ("a shared Host stop interrupted this desktop session" +:+
        match stopped with
        | Err error => "; CUA cleanup also failed: " +:+ HostError.to_string error
        | Ok _ => ""
        end))).
  { unfold desktop_interrupted. respects. by apply quiet_core, quiet_stop_desktop. }
  apply Hq in H as (n2 & E2 & Q2). simpl in E2. subst h'. rewrite <- app_assoc.
  eexists. split; [done|]. split; [|done]. apply heeds_idle; [|done].
  intros [|? []] n after E Hn; [|done|done]. injection E as _ <-. by intros c ?%not_elem_of_nil.
Qed.

Lemma attentive_wait fuel remaining h s r h' s' :
  wait_for_post_snapshot (M := M) world fuel remaining (h, s) = Some (r, (h', s')) ->
  exists new, h' = h ++ new /\ heeds (HDS.interrupt_generation s.2) new
    /\ (is_ok r = true -> waited (HDS.interrupt_generation s.2) remaining new /\ s' = s).
Proof.
  revert remaining h. induction fuel as [|fuel IH]; intros remaining h; [done|].
  cbn [wait_for_post_snapshot].
  intros [(e & [h1 s1] & H1 & [= -> -> ->]) | ([] & [h1 s1] & H1 & H)]%bind_some.
  { apply attentive_ensure in H1 as (new & ? & ? & _). by exists new. }
  apply ensure_not_interrupted_ok in H1 as (_ & -> & ->).
  destruct (remaining <=? 0) eqn:Ez.
  { injection H as <- <- <-. apply Z.leb_le in Ez. eexists. split; [done|].
    assert (Hw : waited (HDS.interrupt_generation s.2) remaining
      [asked InterruptGeneration (HDS.interrupt_generation s.2)]) by (by constructor).
    split; [|done]. eapply undisturbed_heeds, waited_undisturbed, Hw. }
  apply Z.leb_gt in Ez.
  apply bind_some in H as [(e & s2 & H2 & _)|(slept & [h2 s2] & H2 & H)]; [done|].
  injection H2 as <- <- <-. apply IH in H as (new & -> & Hh & Hok).
  rewrite <- !app_assoc. eexists. split; [done|]. split.
  - apply heeds_app; [|apply heeds_app; [|done]].
    + intros n Hin%list_elem_of_singleton%reading_check. by injection Hin.
    + by intros n Hin%list_elem_of_singleton%reading_check.
  - intros [Hw ->]%Hok. split; [|done]. unfold interrupt_poll_slice, saturating_sub in *.
    constructor; [lia | lia |].
    set (slept := world Z _ _) in *.
    destruct (Z.le_gt_cases (remaining - slept) 0); [by apply waited_nothing|].
    by rewrite Z.max_r in Hw by lia.
Qed.

(** *** The second snapshot *)

Lemma quiet_perform_action interesting action :
  (forall available, interesting (asked InputAvailable available) = false) ->
  (forall tool fields arguments operation answer, desktop_command action tool fields ->
     interesting (asked (CallTool tool arguments operation) answer) = false) ->
  respects (quiet interesting) (perform_action world action).
Proof.
  intros Hi Ht. unfold perform_action, session_read, session_modify, invalid_desktop_action.
  respects_step; [apply quiet_silent|]. respects_step; [respects|].
  do 2 (respects_step; [respects|]). respects_step; [respects|].
  respects_step; [by apply quiet_ask|]. respects_step; [respects|].
  apply respects_bind_lift; [apply _|]. intros command (fields & Hc & _)%desktop_command_of.
  respects_step; [|respects]. apply quiet_call_driver_tool. intros answer. by eapply Ht.
Qed.

(** The operations before the wait: they read the counter not at all, take no screenshot,
    and leave the session's own reading alone. *)
Definition before_wait (s s' : history desktop_call * (M * HDS.HostDesktopSession)) : Prop :=
  quiet is_stop_check s s' /\ quiet is_capture s s'
  /\ HDS.interrupt_generation s'.2.2 = HDS.interrupt_generation s.2.2.

#[local] Instance before_wait_preorder : PreOrder before_wait.
Proof.
  split; [by intros s; split_and!|]. intros s1 s2 s3 (? & ? & ?) (? & ? & ?).
  split_and!; [by etrans | by etrans | congruence].
Qed.

Lemma before_wait_ask {E A} (c : desktop_call A) :
  (forall a, is_stop_check (asked c a) = false) -> (forall a, is_capture (asked c a) = false) ->
  respects before_wait (ask (E := E) world c).
Proof.
  intros H1 H2 s r s' H. pose proof (quiet_ask is_stop_check world c H1 _ _ _ H).
  pose proof (quiet_ask is_capture world c H2 _ _ _ H). split_and!; try done.
  destruct s, s'. by apply ask_some in H as (_ & _ & ->).
Qed.

Lemma before_wait_read {A} (f : HDS.HostDesktopSession -> A) :
  respects before_wait (host_read (M := M) f).
Proof. intros [h t] r s' H. injection H as _ <-. reflexivity. Qed.

Lemma before_wait_perform action :
  respects before_wait (core (M := M) (perform_action world action)).
Proof.
  intros [h [m s]] r [h' [m' s']] H.
  assert (Hq : forall i, (forall available, i (asked InputAvailable available) = false) ->
    (forall tool fields arguments operation answer, desktop_command action tool fields ->
      i (asked (CallTool tool arguments operation) answer) = false) ->
    quiet i (h, (m, s)) (h', (m', s'))).
  { intros i Hi Ht. exact (quiet_core i _ (quiet_perform_action i action Hi Ht) _ _ _ H). }
  split_and!.
  - by apply Hq.
  - apply Hq; [done|]. intros tool fields arguments operation answer Hc. simpl.
    apply desktop_command_acts in Hc. apply bool_decide_eq_false in Hc.
    apply bool_decide_eq_false. set_solver.
  - unfold core in H. apply map_error_some in H as (? & H & _).
    apply on_focus_some in H as (? & _ & H). by injection H as _ ->.
Qed.

Hint Resolve before_wait_read before_wait_perform : respects.
Hint Extern 1 (respects before_wait (ask _ _)) => by apply before_wait_ask : respects.

Lemma quiet_heeds {S E A} g h l (k : eff (history desktop_call * S) E A) s r s' :
  k s = Some (r, s') -> respects (quiet is_stop_check) k -> s.1 = h ++ l ->
  undisturbed g l -> exists calls, s'.1 = h ++ calls /\ heeds g calls.
Proof using Type.
  intros H Hk Hl Hu. apply Hk in H as (n & Hn & Q). exists (l ++ n).
  rewrite Hn, Hl, app_assoc. split; [done|].
  by apply undisturbed_heeds, undisturbed_app, undisturbed_quiet.
Qed.

Section Finish.
Context (generation delay : Z) (session_id action_id : string) (capture_after : bool).
Context (result : NativeResult.ComputerUseToolResult) (mode : SnapshotTransport).

Abbreviation finish_it :=
  (finish_desktop_action (M := M) world session_id action_id capture_after delay result mode).

Lemma finish_heeds h calls m host r s' :
  HDS.interrupt_generation host = generation -> undisturbed generation calls ->
  finish_it (h ++ calls, (m, host)) = Some (r, s') ->
  exists calls', s'.1 = h ++ calls' /\ heeds generation calls'.
Proof.
  intros Hg Hu H.
  unfold finish_desktop_action in H. destruct (negb capture_after).
  { eapply quiet_heeds in H; [exact H| | done | done]. respects. by apply quiet_response. }
  apply bind_some in H as [(e & s1 & H1 & _)|(waited & [h1 s1] & H1 & H)].
  { by apply attempt_some in H1 as (? & _ & [=]). }
  apply attempt_some in H1 as (w & H1 & [= <-]).
  apply attentive_wait in H1 as (n & -> & Hh & Hok). simpl in Hh, Hok. rewrite Hg in *.
  destruct waited as [[]|e].
  - destruct (Hok eq_refl) as [Hw ->]. rewrite <- app_assoc in H.
    eapply quiet_heeds in H; [exact H| | done |].
    + respects; first [by apply quiet_response | by apply quiet_core, quiet_screenshot
        | by apply quiet_ask | unfold imaging; apply quiet_silent].
    + by apply undisturbed_app; [|eapply waited_undisturbed].
  - assert (Hi : forall message code text, respects (quiet goes_on)
      (do? (response, attachment) := desktop_action_response (M := M) world session_id action_id
         message result mode in ret (snapshot_missing code text response, attachment))).
    { intros. respects. by apply quiet_response. }
    apply Hi in H as (n2 & E & Q). exists (calls ++ n ++ n2). simpl in E.
    rewrite E, <- !app_assoc. split; [done|].
    apply heeds_app; [done|]. by apply heeds_idle.
Qed.

Lemma finish_captures h calls m host :
  HDS.interrupt_generation host = generation ->
  acts is_capture (since h (captured_after generation delay)) finish_it
    (h ++ calls, (m, host)).
Proof.
  intros Hg. unfold finish_desktop_action.
  destruct (negb capture_after).
  { apply acts_quiet. respects. by apply quiet_response. }
  apply acts_after.
  { unfold wait_for_desktop_post_snapshot_delay. respects. by apply quiet_wait. }
  intros waited [h1 s1] (w & H1 & [= <-])%attempt_some.
  apply attentive_wait in H1 as (n & -> & _ & Hok). simpl in Hok. rewrite Hg in Hok.
  destruct waited as [[]|e]; [|apply acts_quiet; respects; by apply quiet_response].
  destruct (Hok eq_refl) as [Hw ->].
  apply acts_before.
  2:{ intros. respects; first [by apply quiet_response | by apply quiet_ask
        | unfold imaging; apply quiet_silent]. }
  apply acts_attempt. unfold core. apply acts_map_error, acts_on_focus.
  unfold screenshot, session_read, session_modify, invalid_desktop_action. apply acts_read.
  simpl. destruct (negb _); [apply acts_quiet; respects|].
  apply acts_before; [|intros; respects; by apply quiet_ask]. apply acts_attempt.
  unfold desktop_snapshot_for. apply acts_ask; [done|]. intros available.
  apply acts_lift. intros _ _. apply acts_before; [|intros; respects; by apply quiet_ask].
  unfold call_driver_tool. apply acts_before; [|intros; respects].
  apply acts_act; [done|]. intros answer. exists (calls ++ n ++ [asked ObservationAvailable available]).
  rewrite <- !app_assoc. split; [done|]. by exists calls, n, available.
Qed.
End Finish.

(** An action either ends before its wait, or comes to [finish_desktop_action]. *)
Definition comes_to_finish (request : DesktopAction.DesktopAction) (mode : SnapshotTransport)
    (delay : Z) (s : history desktop_call * (M * HDS.HostDesktopSession))
    (r : hresult response) (s' : history desktop_call * (M * HDS.HostDesktopSession)) : Prop :=
  before_wait s s'
  \/ exists action_id result s1, before_wait s s1
       /\ finish_desktop_action (M := M) world (DesktopAction.session_id request) action_id
            (DesktopAction.capture_after request) delay result mode s1 = Some (r, s').

Lemma comes_to_finish_bind {A} request mode delay (op : eff _ HostError.HostError A) k s r s' :
  bind op k s = Some (r, s') -> respects before_wait op ->
  (forall a s1, k a s1 = Some (r, s') -> comes_to_finish request mode delay s1 r s') ->
  comes_to_finish request mode delay s r s'.
Proof.
  intros [(e & s1 & H1 & [= -> ->]) | (a & s1 & H1 & H2)]%bind_some Hop Hk.
  - left. by eapply Hop.
  - apply Hop in H1. destruct (Hk _ _ H2) as [?|(id & result & s2 & ? & ?)].
    + left. by etrans.
    + right. exists id, result, s2. split; [by etrans | done].
Qed.

Lemma perform_comes_to_finish request mode delay s r s' :
  perform_desktop_action (M := M) world services sha256_json to_value request mode delay s
    = Some (r, s') -> comes_to_finish request mode delay s r s'.
Proof.
  assert (Hleft : forall {A} (op : eff _ HostError.HostError A) s1 (r1 : hresult A),
    respects before_wait op -> op s1 = Some (r1, s') -> comes_to_finish request mode delay s1 r s').
  { intros A op s1 r1 Hop H1. left. by eapply Hop. }
  unfold perform_desktop_action. intros H.
  eapply comes_to_finish_bind in H; [exact H | respects |]. clear s H. intros raw s H.
  destruct (negb raw); [eapply Hleft; [|exact H]; respects|].
  eapply comes_to_finish_bind in H; [exact H | respects |]. clear s H. intros [] s H.
  destruct (rejection _) as [[[??]?]|]; [eapply Hleft; [|exact H]; respects|].
  eapply comes_to_finish_bind in H; [exact H | unfold confirm_desktop_action; respects |].
  clear s H. intros outcome s H.
  destruct (outcome != Allowed); [eapply Hleft; [|exact H]; respects|].
  eapply comes_to_finish_bind in H; [exact H | unfold resolve_secret; respects |].
  clear s H. intros resolved s H.
  eapply comes_to_finish_bind in H; [exact H | respects |]. clear s H. intros action s H.
  eapply comes_to_finish_bind in H; [exact H | respects |]. clear s H. intros result s H.
  eapply comes_to_finish_bind in H; [exact H | respects |]. clear s H. intros uuid s H.
  right. by eexists _, _, s.
Qed.

(** The calls of an action, from the check for a stop on. *)
Lemma perform_waits request mode delay h m host r s' :
  let generation := HDS.interrupt_generation host in
  let s := (h ++ [asked InterruptGeneration generation], (m, host)) in
  perform_desktop_action (M := M) world services sha256_json to_value request mode delay s
    = Some (r, s') ->
  (exists calls, s'.1 = h ++ calls /\ heeds generation calls)
  /\ acted is_capture (since h (captured_after generation delay)) s s'.
Proof.
  intros generation s H. apply perform_comes_to_finish in H.
  assert (Hu : undisturbed generation [asked InterruptGeneration generation])
    by (intros n Hin%list_elem_of_singleton%reading_check; by injection Hin).
  destruct H as [((n & E & Q) & Hc & _)|(id & result & [h1 [m1 host1]] & ((n & E & Q) & Hc & Hg) & H)].
  - split; [|by left]. exists ([asked InterruptGeneration generation] ++ n).
    rewrite E, app_assoc. split; [done|].
    by apply undisturbed_heeds, undisturbed_app, undisturbed_quiet.
  - simpl in E, Hg. subst h1. rewrite <- app_assoc in H. split.
    + eapply finish_heeds in H; [exact H | done |].
      by apply undisturbed_app, undisturbed_quiet.
    + eapply acted_after; [exact Hc|]. simpl. rewrite <- app_assoc.
      by eapply finish_captures in H.
Qed.

(** The calls of a request. *)
Lemma execute_waits request mode h m sessions host r s' :
  sessions !! DesktopAction.session_id request = Some host ->
  execute_desktop_action (M := M) world services sha256_json to_value request mode
    (h, (m, sessions)) = Some (r, s') ->
  let generation := HDS.interrupt_generation host in
  (exists new, s'.1 = h ++ new /\ heeds generation new)
  /\ acted is_capture
       (since h (captured_after generation (DesktopAction.post_snapshot_delay_ms request)))
       (h, (m, sessions)) s'.
Proof.
  intros Es H generation. destruct s' as [h' [m' sessions']].
  assert (Hno : h' = h -> (exists new, h' = h ++ new /\ heeds generation new)
    /\ acted is_capture (since h (captured_after generation
         (DesktopAction.post_snapshot_delay_ms request))) (h, (m, sessions))
         (h', (m', sessions'))).
  { intros ->. split; [exists []|left; exists []]; rewrite app_nil_r; (split; [done|]); [|done].
    by intros [] ? ?. }
  unfold execute_desktop_action in H.
  apply bind_some in H as [(e & s1 & [_ ->]%lift_some & H)|(delay & s1 & [Hd ->]%lift_some & H)].
  { injection H as _ -> _ _. by apply Hno. }
  assert (delay = DesktopAction.post_snapshot_delay_ms request) as ->.
  { unfold post_snapshot_delay, request_invalid_action in Hd. symmetry in Hd.
    do 2 (apply guard_ok in Hd as [_ Hd]). congruence. }
  unfold authorized_desktop_session in H. rewrite Es in H.
  destruct (_ || _ : bool); [by injection H as _ <- _ _; apply Hno|].
  destruct (bind _ _ _) as [[r1 [h1 [m1 host1]]]|] eqn:E; [|done].
  injection H as _ <- _ _. simpl.
  apply bind_some in E as [(e & [h2 s2] & H1 & [= _ <- _])|([] & [h2 s2] & H1 & E)].
  - apply attentive_ensure in H1 as Hn. split; [by destruct Hn as (n & ? & ? & _); exists n|].
    left. exact (quiet_desktop_ensure world is_capture ltac:(done) ltac:(done) _ _ _ H1).
  - apply ensure_not_interrupted_ok in H1 as (_ & -> & ->). apply perform_waits in E as [Hh Ha].
    split; [exact Hh|].
    assert (Hq : quiet is_capture (h, (m, sessions)) (h ++ [asked InterruptGeneration generation], (m, sessions)))
      by (by eexists).
    eapply acted_after; [exact Hq|]. exact Ha.
Qed.
End Waits.

(** ** Every desktop request returns *)

(** A sleep takes at least as long as it was asked to. *)
Definition sleeps_in_full (world : oracle desktop_call) : Prop :=
  forall h d, d <= world Z h (Sleep d).

Section Returns.
Context {M : Type} `{SM : SharedImage.SharedMemory M} `{ND : NativeDecoder}.
Context (world : oracle desktop_call) (Hsleep : sleeps_in_full world).
Context (services : Services.DesktopServices).
Context (sha256_json : Unsigned.UnsignedConfirmationRequest -> result string string).
Context (to_value : HA.HostAction -> result string value).

Lemma total_call_driver_tool tool arguments operation :
  total (call_driver_tool world tool arguments operation).
Proof using Type. unfold call_driver_tool. total. Qed.
Hint Resolve total_call_driver_tool : total.

Lemma total_stop_desktop : total (stop_desktop world).
Proof using Type. unfold stop_desktop, end_desktop_session, session_read, session_modify. total. Qed.

Lemma total_screenshot : total (screenshot world).
Proof using Type.
  unfold screenshot, desktop_snapshot_for, session_read, session_modify,
    invalid_desktop_action. total.
Qed.

Lemma total_perform_action action : total (perform_action world action).
Proof using Type.
  unfold perform_action, session_read, session_modify, invalid_desktop_action. total.
Qed.
Hint Resolve total_stop_desktop total_screenshot total_perform_action : total.

(** The answer of an action is an object, which its response can extend. *)
Lemma perform_action_answer action s result s' :
  perform_action world action s = Some (Ok result, s') ->
  is_object_or_null (NativeResult.answer result) = true.
Proof using Type.
  unfold perform_action. intros H.
  repeat first
    [ apply bind_ok in H as (? & ? & _ & H)
    | match type of H with (if ?b then _ else _) _ = _ => destruct b; [done|] end ].
  by injection H as <- _.
Qed.

Lemma total_core {A} (m : eff _ cerror A) : total m -> total (core (M := M) m).
Proof using Type. intros Hm. unfold core. total. Qed.
Hint Resolve total_core : total.

Lemma total_ensure_not_interrupted :
  total (ensure_desktop_session_not_interrupted (M := M) world).
Proof using Type.
  unfold ensure_desktop_session_not_interrupted, host_read, host_modify,
    desktop_interrupted. total.
Qed.
Hint Resolve total_ensure_not_interrupted : total.

(** The wait ends: each round takes a slice off what remains. *)
Lemma total_wait fuel remaining :
  (0 < fuel)%nat -> remaining <= 50 * (Z.of_nat fuel - 1) ->
  total (wait_for_post_snapshot (M := M) world fuel remaining).
Proof using Hsleep.
  revert remaining. induction fuel as [|fuel IH]; intros remaining Hf Hr; [lia|].
  simpl. apply total_bind; [total|]. intros _.
  destruct (remaining <=? 0) eqn:Hz; [total|]. reflect_in Hz.
  intros s. apply total_bind_at; [apply total_ask|].
  destruct s as [h t]. intros slept s' H. injection H as <- _.
  apply IH; [lia|]. pose proof (Hsleep h (interrupt_poll_slice remaining)) as Hs.
  unfold interrupt_poll_slice, saturating_sub in *. lia.
Qed.

Lemma total_wait_for_delay delay :
  total (wait_for_desktop_post_snapshot_delay (M := M) world delay).
Proof using Hsleep.
  apply total_wait; [lia|].
  pose proof (Z_div_mod_eq_full delay 50). pose proof (Z.mod_pos_bound delay 50). lia.
Qed.
Hint Resolve total_wait_for_delay : total.

Lemma total_imaging {A} (m : eff _ HostError.HostError A) :
  total m -> total (imaging (M := M) m).
Proof using Type. intros Hm. unfold imaging. apply total_silent. total. Qed.

Lemma total_finish session_id action_id capture_after delay result mode :
  is_object_or_null (NativeResult.answer result) = true ->
  total (finish_desktop_action (M := M) world session_id action_id capture_after delay result
    mode).
Proof using Hsleep.
  intros Ha.
  assert (forall message,
    total (desktop_action_response (M := M) world session_id action_id message result mode)).
  { intros message. unfold desktop_action_response. total.
    apply total_imaging. by apply total_action_completed_response. }
  unfold finish_desktop_action. total.
  apply total_imaging. by apply total_completed_with_snapshot.
Qed.

Lemma total_confirm request :
  total (confirm_desktop_action (M := M) world services sha256_json to_value request).
Proof using Type. unfold confirm_desktop_action, host_read. total. Qed.
Lemma total_resolve action : total (resolve_secret (M := M) world services action).
Proof using Type. unfold resolve_secret. total. Qed.

Lemma total_perform_desktop_action request mode delay :
  total (perform_desktop_action (M := M) world services sha256_json to_value request mode
    delay).
Proof using Hsleep.
  pose proof total_confirm. pose proof total_resolve.
  unfold perform_desktop_action, host_read.
  apply total_bind; [total|]. intros raw. destruct (negb raw); [total|].
  apply total_bind; [total|]. intros _. destruct (rejection _) as [[[??]?]|]; [total|].
  apply total_bind; [total|]. intros outcome.
  destruct (outcome != Allowed) eqn:Ho.
  { destruct outcome; try (simpl; total); done. }
  apply total_bind; [total|]. intros resolved.
  apply total_bind; [total|]. intros action s.
  apply total_bind_at; [apply total_core; total|].
  intros result s' Hp. unfold core in Hp.
  apply map_error_some in Hp as ([result'|] & Hp & [=]). subst result'.
  destruct s, s'. apply on_focus_some in Hp as (ds & Hp & _).
  apply perform_action_answer in Hp. apply total_bind; [total|]. intros uuid.
  by apply total_finish.
Qed.

Lemma total_execute request mode h m sessions :
  execute_desktop_action (M := M) world services sha256_json to_value request mode
    (h, (m, sessions)) <> None.
Proof using Hsleep.
  unfold execute_desktop_action.
  apply total_bind_at; [done|]. intros delay [h1 [m1 sessions1]] _.
  unfold authorized_desktop_session.
  destruct (sessions1 !! _) as [host|]; [|done].
  destruct (_ || _ : bool); [done|].
  destruct (bind _ _ _) as [[r1 [h2 [m2 host2]]]|] eqn:E; [done|].
  exfalso. revert E. apply total_bind; [apply total_ensure_not_interrupted | intros _].
  by apply total_perform_desktop_action.
Qed.
End Returns.

Section Properties.
Context {M : Type} `{SM : SharedImage.SharedMemory M} `{ND : NativeDecoder}.
Context (world : oracle desktop_call) (services : Services.DesktopServices).
Context (sha256_json : Unsigned.UnsignedConfirmationRequest -> result string string).
Context (to_value : HA.HostAction -> result string value).

(** C5: a desktop request puts at most one input through the driver, and only an
    admitted one.  Whatever the driver, the vault and the user answer, the history of a
    request holds no call that acts on the desktop, or exactly one: the driver's tool for
    the requested action with its coordinates, buttons, keys, text and times as they were
    given, a secret with the text the vault answered; for a session with the presented
    grant and capability that is active and whose shared stop was found not to have been
    used since it was opened, whose grant allows raw input, at the observation the session
    recorded last; its safety tier may run, and if the tier requires the user's
    confirmation, the trusted host answered a request bound to this very session, grant,
    observation and action with [Allow]. *)
Theorem desktop_input_is_admitted request mode h m sessions r h' m' sessions' :
  execute_desktop_action (M := M) world services sha256_json to_value request mode
    (h, (m, sessions)) = Some (r, (h', (m', sessions'))) ->
  exists new, h' = h ++ new
    /\ (driver_inputs new = []
        \/ exists before c after, new = before ++ c :: after /\ driver_inputs new = [c]
           /\ admitted_input services sha256_json to_value sessions request before c).
Proof. intros H. eapply acted_since, acts_desktop_request, H. Qed.

(** C29: every desktop action comes to an end, and its second snapshot waits for it.
    Whatever the driver, the vault and the user answer, a request with a clock that does
    not sleep short returns a response or an error, with no panic.  It takes at most one
    screenshot, after a wait that went through: in slices of at most 50 milliseconds that
    together took the requested delay, with a look at the shared stop before each of them
    and at the end.  As soon as a look finds the session stopped, there is no further
    sleep, screenshot or input. *)
Theorem desktop_action_returns request mode h m sessions :
  sleeps_in_full world ->
  exists r h' m' sessions',
    execute_desktop_action (M := M) world services sha256_json to_value request mode
      (h, (m, sessions)) = Some (r, (h', (m', sessions')))
    /\ forall host, sessions !! DesktopAction.session_id request = Some host ->
       exists new, h' = h ++ new
         /\ heeds (HDS.interrupt_generation host) new
         /\ (of_interest_in is_capture new = []
             \/ exists before c after, new = before ++ c :: after
                  /\ of_interest_in is_capture new = [c]
                  /\ captured_after (HDS.interrupt_generation host)
                       (DesktopAction.post_snapshot_delay_ms request) before c).
Proof.
  intros Hsleep.
  destruct (execute_desktop_action _ _ _ _ _ _ _) as [[r [h' [m' sessions']]]|] eqn:E.
  2:{ exfalso. by apply (total_execute world Hsleep services sha256_json to_value) in E. }
  exists r, h', m', sessions'. split; [done|]. intros host Hs.
  destruct (execute_waits _ _ _ _ _ _ _ _ _ _ _ _ Hs E) as [(n & Hn & Hh) Ha].
  apply acted_since in Ha as (new & -> & Hc). apply app_inv_head in Hn as ->.
  by exists n.
Qed.
End Properties.

(** ** A sample run *)

#[local] Existing Instances SharedImage.sample_memory SharedImage.sample_lawful.

(** A decoder that knows one answer. *)
Definition sample_decoder : NativeDecoder := {|
  base64_decode _ := Ok [1];
  parse_json _ := Ok (Object []);
|}.
#[local] Existing Instance sample_decoder.

Definition sample_answer : ToolResult.ToolResult := {|
  ToolResult.is_error := false; ToolResult.error_code := None; ToolResult.text := "done";
  ToolResult.raw_json := "{}"; ToolResult.structured_json := None;
  ToolResult.images := [{| ToolResult.data_base64 := "AQ"; ToolResult.image_mime_type := "image/png" |}];
  ToolResult.degraded := false |}.

(** A driver that does what it is told, and a clock that sleeps as asked. *)
Definition sample_world : oracle desktop_call := fun A h c =>
  match c in desktop_call A return A with
  | CallTool _ _ _ => Ok sample_answer
  | CursorRendererEnabled => false
  | ObservationAvailable => Ok tt
  | InputAvailable => Ok tt
  | SnapshotTimedOut => false
  | NextObservation => 2
  | ResolveSecret _ => Ok "secret"
  | InterruptGeneration => 0
  | LanguageTag => "en-US"
  | FreshUuid => "0123456789abcdef"
  | UnixSeconds => 1000
  | Sleep d => d
  end.

Definition sample_desktop : HDS.HostDesktopSession := {|
  HDS.runtime_session_id := "dcc-cua-desktop-1"; HDS.task_grant_id := "grant";
  HDS.allow_raw_input := true; HDS.allow_trusted_confirmation := true;
  HDS.capability := "cua-desktop-1"; HDS.interrupt_generation := 0;
  HDS.interrupted := false;
  HDS.session := {|
    DS.session_id := "dcc-cua-desktop-1";
    DS.marker := {| Marker.visible := true; Marker.label := "Agent";
                    Marker.backend := "cua-driver-sdk" |};
    DS.active := true; DS.latest_observation_id := Some "desktop-1" |};
  HDS.latest_shared_image := None |}.

(** A click with a held key, which the user has to confirm, and a snapshot after it. *)
Definition sample_desktop_action : DesktopAction.DesktopAction := {|
  DesktopAction.session_id := "s"; DesktopAction.task_grant_id := "grant";
  DesktopAction.desktop_capability := "cua-desktop-1";
  DesktopAction.observation_id := "desktop-1";
  DesktopAction.action := sample_click ["A"] None;
  DesktopAction.capture_after := true; DesktopAction.post_snapshot_delay_ms := 120 |}.

Definition sample_services : Services.DesktopServices := {|
  Services.confirmation_host := Some sample_host; Services.has_vault := true;
  Services.agent_name := "Agent"; Services.other_sessions := 0 |}.

Definition sample_run :=
  execute_desktop_action (M := gmap string (list Z)) sample_world sample_services
    sample_sha256 (fun _ => Ok Null) sample_desktop_action BinaryFrame
    ([], (∅, {["s" := sample_desktop]})).

Lemma desktop_input_is_admitted_witness :
  exists r h m sessions before c, sample_run = Some (r, (h, (m, sessions)))
    /\ driver_inputs h = [c]
    /\ admitted_input sample_services sample_sha256
         (fun _ => Ok Null) {["s" := sample_desktop]} sample_desktop_action before c.
Proof.
  assert (Hl : option_map (fun p => length (driver_inputs p.2.1)) sample_run
               = Some 1%nat) by (vm_compute; reflexivity).
  destruct sample_run as [[r [h [m sessions]]]|] eqn:E; [|discriminate Hl].
  unfold sample_run in E.
  apply desktop_input_is_admitted in E as (new & Hn & [Hq|(bs & c & cs & Hb & Hc & Ha)]).
  - exfalso. simpl in Hl, Hn. subst h. rewrite Hq in Hl. discriminate.
  - exists r, h, m, sessions, bs, c. simpl in Hn. subst h. done.
Defined.

(** The counter of the shared stop is read before the action and before, between and after
    the slices of its wait. *)
Lemma desktop_action_returns_witness :
  sleeps_in_full sample_world
  /\ exists r h m sessions, sample_run = Some (r, (h, (m, sessions)))
     /\ length (of_interest_in is_capture h) = 1%nat
     /\ exists before c, captured_after 0 120 before c.
Proof.
  assert (H : sleeps_in_full sample_world) by (intros h d; simpl; lia).
  split; [exact H|]. unfold sample_run.
  destruct (desktop_action_returns (M := gmap string (list Z)) sample_world sample_services
    sample_sha256 (fun _ => Ok Null) sample_desktop_action BinaryFrame [] ∅
    {["s" := sample_desktop]} H) as (r & h & m & sessions & E & Hw).
  exists r, h, m, sessions. split; [exact E|].
  assert (Hl : option_map (fun p => length (of_interest_in is_capture p.2.1)) sample_run
               = Some 1%nat) by (vm_compute; reflexivity).
  change (sample_run = Some (r, (h, (m, sessions)))) in E. rewrite E in Hl.
  injection Hl as Hl. split; [exact Hl|].
  destruct (Hw sample_desktop eq_refl) as (new & Hn & _ & [Hq|(bs & c & cs & _ & _ & Hc)]).
  - exfalso. simpl in Hn. subst h. rewrite Hq in Hl. discriminate Hl.
  - by exists bs, c.
Defined.
