(* ===== verification/AuthorizationScope.v ===== *)
(** * The scope of a trusted authorization
    ([crates/dcc-cua-host/src/task_authorization_scope.rs])

    A session that runs under a trusted lease is confined twice: when it is opened, the
    grant of the client must agree with the lease, which must be for the window that was
    really opened; and every request is checked against the lease, the observation mode
    and the exact browser document before its handler runs. *)

From S2P Require Import Prelude Records Effects RustStr Json Errors Contracts HostAction.
From S2P Require Import Confirmation Platform TaskGrant TaskAuthorization.
From S2P Require Import Request RuntimeSession BrowserSession HostSession.

(** ** Opening a session *)

Definition has_method (method : string) (lease : Lease.TrustedTaskAuthorizationLease)
    : bool :=
  method ∈? Lease.allowed_host_methods lease.
Definition has_methods (methods : list string) (lease : Lease.TrustedTaskAuthorizationLease)
    : bool :=
  forallb (fun method => has_method method lease) methods.
Definition has_scope (test : Scope.TrustedTaskActionScope -> bool)
    (lease : Lease.TrustedTaskAuthorizationLease) : bool :=
  existsb test (Lease.allowed_actions lease).

(** [a != b] of two sets collected from vectors. *)
Definition same_set (a b : list string) : bool :=
  bool_decide (list_to_set a =@{gset string} list_to_set b).

Definition recording_lifecycle : list string :=
  ["recording_start"; "recording_state"; "recording_stop"].
Definition live_observation_lifecycle : list string :=
  ["live_observation_start"; "live_observation_state"; "live_observation_stop"].

(** The action scopes a session without semantics can use. *)
Definition is_pixels_scope (scope : Scope.TrustedTaskActionScope) : bool :=
  is_window_minimize scope || is_native_capture_popup_keyboard scope
  || is_window_frame scope || is_native_menu_dismiss scope
  || is_capture_preparation scope || is_pixels_input scope.

(** The part for [PixelsOnly] sessions. *)
Definition validate_pixels_only_grant (grant : Grant.TaskGrant)
    (lease : Lease.TrustedTaskAuthorizationLease) : hresult unit :=
  let trusted_raw_input := has_scope is_pixels_input lease in
  if negb (Bool.eqb (Grant.allow_raw_input grant) trusted_raw_input)
     || has_scope (fun scope => negb (is_pixels_scope scope)) lease
     || (has_method "execute_action" lease && negb trusted_raw_input)
  then task_authorization_denied
    "pixels_only grant must exactly derive supported raw input from its trusted action scopes"
  else if has_method "set_window_frame" lease
     && (negb (has_scope is_window_frame lease)
         || negb (has_method "get_window_state" lease))
  then task_authorization_denied
    "set_window_frame requires its closed action scope and explicit native state read method"
  else
    check? (if Grant.allow_recording grant then
              if (Grant.recording_output_dir grant != Lease.recording_output_dir lease)
                 || is_none (Lease.recording_output_dir lease)
                 || negb (has_methods recording_lifecycle lease)
              then task_authorization_denied
                "pixels_only recording output and lifecycle must exactly match trusted authorization"
              else Ok tt
            else if is_some (Grant.recording_output_dir grant)
                    || is_some (Lease.recording_output_dir lease)
            then task_authorization_denied
              "manual recording output requires explicit recording permission"
            else Ok tt) in
    try_each (fun group =>
      if is_some_and (fun start => has_method start lease) (head group)
         && negb (has_methods group lease)
      then task_authorization_denied
        "native lifecycle start requires its state and stop methods"
      else Ok tt) [recording_lifecycle; live_observation_lifecycle].

Definition validate_grant_against_task_authorization (grant : Grant.TaskGrant)
    (lease : Lease.TrustedTaskAuthorizationLease) : hresult unit :=
  let pixels_only := Grant.observation_mode grant == PixelsOnly in
  if negb (Bool.eqb (Grant.allow_capture_preparation grant)
             (is_some (Lease.capture_preparation lease)))
     || (is_some (Lease.capture_preparation lease) && negb pixels_only)
  then task_authorization_denied
    "capture preparation must exactly derive from its trusted pixels_only lease permission"
  else if (is_some (Grant.recording_output_dir grant)
           || is_some (Lease.recording_output_dir lease)) && negb pixels_only
  then task_authorization_denied
    "trusted native recording output cannot authorize a semantic trajectory session"
  else if has_scope is_native_menu_dismiss lease
     && (negb pixels_only
         || negb (has_methods ["get_window_state"; "change_window_state"] lease))
  then task_authorization_denied
    "dismiss_menu requires explicit pixels_only and its native state read and change methods"
  else
    check? (if pixels_only then validate_pixels_only_grant grant lease else Ok tt) in
    if negb (same_set (Grant.allowed_browser_origins grant)
               (Lease.allowed_browser_origins lease))
    then task_authorization_denied
      "task grant browser origins do not match the trusted authorization"
    else if is_some (Grant.showcase_output_dir grant)
            && negb (has_method "recording_start" lease)
    then task_authorization_denied
      "automatic showcase recording is outside the trusted task authorization"
    else Ok tt.

Definition window_binding (connection_id authorization_id session_id : string)
    (grant : Grant.TaskGrant) (window_capability : string)
    (target : Window.ConfirmationWindowIdentity) : AuthBinding.TaskAuthorizationBinding := {|
  AuthBinding.connection_id := connection_id;
  AuthBinding.authorization_id := authorization_id;
  AuthBinding.session_id := session_id;
  AuthBinding.task_grant_id := Grant.task_grant_id grant;
  AuthBinding.application_label := Grant.application_label grant;
  AuthBinding.window_capability := window_capability;
  AuthBinding.target := target |}.

Section Opening.
Context `{P : Platform}.
Context `{DA : !Digestible UnsignedAuth.UnsignedTaskAuthorizationRequest}.
Context (now : Z) (uuid : string) (host : option AuthHost.TrustedTaskAuthorizationHost).

(** A lease for the window, which agrees with the grant. *)
Definition issue_for_window (connection_id authorization_id session_id : string)
    (grant : Grant.TaskGrant) (window_capability : string)
    (target : Window.ConfirmationWindowIdentity)
    : hresult (option Lease.TrustedTaskAuthorizationLease) :=
  let? lease := issue_task_authorization now uuid host
    (window_binding connection_id authorization_id session_id grant window_capability
       target) in
  check? validate_grant_against_task_authorization grant lease in
  Ok (Some lease).

Definition preauthorize_task_session (connection_id : string) (grant : Grant.TaskGrant)
    (session_id window_capability : string) (activate_before : bool)
    : hresult (option Lease.TrustedTaskAuthorizationLease) :=
  check? reject_task_authorization_activation grant activate_before in
  let? target := task_authorization_preflight_target grant in
  match target with
  | None => Ok None
  | Some target =>
      let? authorization_id := ok_or (Grant.task_authorization_id grant)
        (HostError.coded_protocol HostProtocolErrorCode.TaskAuthorizationRequired
           "task authorization preflight lost its authorization identity") in
      issue_for_window connection_id authorization_id session_id grant window_capability
        target
  end.

Definition finalize_task_session_authorization (connection_id : string)
    (grant : Grant.TaskGrant) (session_id window_capability : string)
    (observed_target : Window.ConfirmationWindowIdentity)
    (preauthorized : option Lease.TrustedTaskAuthorizationLease)
    : hresult (option Lease.TrustedTaskAuthorizationLease) :=
  match preauthorized with
  | Some lease =>
      if negb (Lease.target_process_id lease =? Window.process_id observed_target)
         || negb (Lease.target_window_handle lease =? Window.window_handle observed_target)
      then task_authorization_denied
        "the opened session target does not match the preauthorized exact window"
      else Ok (Some lease)
  | None =>
      match Grant.task_authorization_id grant with
      | None => Ok None
      | Some authorization_id =>
          issue_for_window connection_id authorization_id session_id grant
            window_capability observed_target
      end
  end.
End Opening.

(** ** Every request *)

Definition enforce_task_authorized_browser_scope (host : HS.HostSession)
    (request : Request.Request) : hresult unit :=
  if is_none (authorized_browser_scope host) then Ok tt
  else match request with
  | Request.BrowserSnapshot _ _ _ request =>
      match BSnapshot.target_id request, BSnapshot.tab_id request with
      | Some target_id, Some tab_id =>
          require_task_authorized_browser_target target_id tab_id host
      | _, _ => task_authorization_denied
          "an exact task-authorized browser snapshot requires target_id and tab_id"
      end
  | Request.BrowserPrepare _ _ _ _ => task_authorization_denied
      "browser_prepare is outside a final exact-browser task authorization"
  | Request.BrowserNavigate _ _ _ request =>
      check? require_task_authorized_browser_target (BNavigate.target_id request)
               (BNavigate.tab_id request) host in
      require_current_task_authorized_browser_document host
  | Request.BrowserClick _ _ _ request =>
      require_task_authorized_browser_document (BClick.target_id request)
        (BClick.tab_id request) (BClick.snapshot_id request) host
  | Request.BrowserType _ _ _ request =>
      require_task_authorized_browser_document (BType.target_id request)
        (BType.tab_id request) (BType.snapshot_id request) host
  | Request.BrowserPointer _ _ _ request =>
      require_task_authorized_browser_document (BPointer.target_id request)
        (BPointer.tab_id request) (BPointer.snapshot_id request) host
  | Request.BrowserSetInputFiles _ _ _ request =>
      require_task_authorized_browser_document (BFiles.target_id request)
        (BFiles.tab_id request) (BFiles.snapshot_id request) host
  | Request.BrowserDownload _ _ _ request =>
      require_task_authorized_browser_document (BDownload.target_id request)
        (BDownload.tab_id request) (BDownload.snapshot_id request) host
  | Request.BrowserDialog _ _ _ request =>
      check? require_task_authorized_browser_target (BDialog.target_id request)
               (BDialog.tab_id request) host in
      require_current_task_authorized_browser_document host
  | _ => Ok tt
  end.

(** A native recording is video only, in the directory of the lease. *)
Definition enforce_recording_start `{P : Platform} (host : HS.HostSession)
    (request : RecStart.ComputerUseRecordingStartRequest) : hresult unit :=
  let directory :=
    if HS.allow_recording host
    then HS.task_authorization host ≫= Lease.recording_output_dir else None in
  let? directory := ok_or directory
    (HostError.coded_protocol HostProtocolErrorCode.TaskAuthorizationDenied
       "native recording requires a trusted immutable output directory") in
  if negb (RecStart.record_video request) || (RecStart.output_dir request != directory)
  then task_authorization_denied
    "native recording requires video-only output in its exact authorized directory"
  else validate_recording_output_location directory.

(** The checks on the session a request names. *)
Definition enforce_on_session `{P : Platform} (session_id method : string)
    (request : Request.Request) (host : HS.HostSession) : hresult unit :=
  check? require_task_authorized_method method host in
  if negb (permits_method (HS.observation_mode host) method)
  then task_authorization_denied
    "Host method requires semantic observation and is unavailable in pixels_only sessions"
  else
    check? (if HS.observation_mode host == PixelsOnly then
              match request with
              | Request.ExecuteAction _ _ _ observation_id _ action _ _ _ _ _ =>
                  check? require_pixels_input_grant session_id action host in
                  require_latest_observation observation_id host
              | Request.RecordingStart _ _ _ request =>
                  enforce_recording_start host request
              | _ => Ok tt
              end
            else Ok tt) in
    enforce_task_authorized_browser_scope host request.

Definition enforce_task_authorized_method `{P : Platform} (sessions : Sessions)
    (request : Request.Request) : hresult unit :=
  match window_method_scope request with
  | None => Ok tt
  | Some (session_id, task_grant_id, window_capability, method) =>
      match sessions !! session_id with
      | None => Err HostError.session_not_found
      | Some host =>
          if (HS.task_grant_id host != task_grant_id)
             || (HS.capability host != window_capability)
          then Err (HostError.Protocol "session grant or capability mismatch")
          else enforce_on_session session_id method request host
      end
  end.

(** ** What the checks establish *)

(** The permissions of the grant are those of the lease. *)
Record agrees (grant : Grant.TaskGrant) (lease : Lease.TrustedTaskAuthorizationLease)
    : Prop := {
  agrees_preparation :
    Grant.allow_capture_preparation grant = is_some (Lease.capture_preparation lease);
  agrees_origins origin :
    origin ∈ Grant.allowed_browser_origins grant
    <-> origin ∈ Lease.allowed_browser_origins lease;
  agrees_showcase : is_Some (Grant.showcase_output_dir grant) ->
    "recording_start" ∈ Lease.allowed_host_methods lease;
  agrees_semantic : Grant.observation_mode grant = TaskGrant.Semantic ->
    Lease.capture_preparation lease = None
    /\ Grant.recording_output_dir grant = None
    /\ Lease.recording_output_dir lease = None
    /\ (forall scope, scope ∈ Lease.allowed_actions lease ->
        is_native_menu_dismiss scope = false);
  agrees_pixels : Grant.observation_mode grant = PixelsOnly ->
    (Grant.allow_raw_input grant = true
       <-> exists scope, scope ∈ Lease.allowed_actions lease /\ is_pixels_input scope = true)
    /\ (forall scope, scope ∈ Lease.allowed_actions lease -> is_pixels_scope scope = true)
    /\ ("execute_action" ∈ Lease.allowed_host_methods lease ->
        Grant.allow_raw_input grant = true)
    /\ Lease.recording_output_dir lease = Grant.recording_output_dir grant
    /\ (Grant.allow_recording grant = true <-> is_Some (Lease.recording_output_dir lease))
    /\ ("recording_start" ∈ Lease.allowed_host_methods lease ->
        forall m, m ∈ recording_lifecycle -> m ∈ Lease.allowed_host_methods lease)
    /\ ("live_observation_start" ∈ Lease.allowed_host_methods lease ->
        forall m, m ∈ live_observation_lifecycle -> m ∈ Lease.allowed_host_methods lease);
}.

Lemma denied_ok {A} (message : string) (a : A) : task_authorization_denied message <> Ok a.
Proof. done. Qed.

Lemma denied_if_ok {A} (b : bool) (message : string) (k : hresult A) a :
  (if b then task_authorization_denied message else k) = Ok a <-> b = false /\ k = Ok a.
Proof. destruct b; naive_solver. Qed.

Lemma same_set_true a b : same_set a b = true <-> forall x, x ∈ a <-> x ∈ b.
Proof. unfold same_set. rewrite bool_decide_eq_true. set_solver. Qed.

#[local] Hint Rewrite @denied_if_ok : result_ok.

Lemma has_method_true method lease :
  has_method method lease = true <-> method ∈ Lease.allowed_host_methods lease.
Proof. apply bool_decide_eq_true. Qed.

Lemma has_methods_true methods lease :
  has_methods methods lease = true
  <-> forall m, m ∈ methods -> m ∈ Lease.allowed_host_methods lease.
Proof.
  unfold has_methods. rewrite forallb_true. by setoid_rewrite has_method_true.
Qed.

Lemma validate_pixels_only_ok grant lease :
  validate_pixels_only_grant grant lease = Ok tt ->
  (Grant.allow_raw_input grant = true
     <-> exists scope, scope ∈ Lease.allowed_actions lease /\ is_pixels_input scope = true)
  /\ (forall scope, scope ∈ Lease.allowed_actions lease -> is_pixels_scope scope = true)
  /\ ("execute_action" ∈ Lease.allowed_host_methods lease ->
      Grant.allow_raw_input grant = true)
  /\ Lease.recording_output_dir lease = Grant.recording_output_dir grant
  /\ (Grant.allow_recording grant = true <-> is_Some (Lease.recording_output_dir lease))
  /\ ("recording_start" ∈ Lease.allowed_host_methods lease ->
      forall m, m ∈ recording_lifecycle -> m ∈ Lease.allowed_host_methods lease)
  /\ ("live_observation_start" ∈ Lease.allowed_host_methods lease ->
      forall m, m ∈ live_observation_lifecycle -> m ∈ Lease.allowed_host_methods lease).
Proof.
  unfold validate_pixels_only_grant. intros [Hraw H]%denied_if_ok.
  apply denied_if_ok in H as [_ H]. apply rbind_ok in H as ([] & Hrec & Hcycles).
  apply orb_false_iff in Hraw as [Hraw Hexec]. apply orb_false_iff in Hraw as [Hraw Hall].
  apply negb_false_iff, eqb_prop in Hraw.
  pose proof (existsb_true is_pixels_input (Lease.allowed_actions lease)) as Hin.
  unfold has_scope in Hraw. rewrite <- Hraw in Hin.
  rewrite try_each_ok in Hcycles.
  pose proof (Hcycles recording_lifecycle ltac:(set_solver)) as Hc1.
  pose proof (Hcycles live_observation_lifecycle ltac:(set_solver)) as Hc2.
  apply denied_if_ok in Hc1 as [Hc1 _]. apply denied_if_ok in Hc2 as [Hc2 _].
  change (has_method "recording_start" lease
          && negb (has_methods recording_lifecycle lease) = false) in Hc1.
  change (has_method "live_observation_start" lease
          && negb (has_methods live_observation_lifecycle lease) = false) in Hc2.
  split_and!.
  - exact Hin.
  - intros scope Hs. unfold has_scope in Hall. rewrite existsb_false in Hall.
    specialize (Hall scope Hs). by apply negb_false_iff in Hall.
  - intros He. rewrite <- has_method_true in He. rewrite He in Hexec. simpl in Hexec.
    rewrite Hraw. by apply negb_false_iff.
  - destruct (Grant.allow_recording grant); apply denied_if_ok in Hrec as [Hrec _].
    + repeat apply orb_false_iff in Hrec as [Hrec ?]. by reflect_all.
    + apply orb_false_iff in Hrec as [Hg Hl]. reflect_all. congruence.
  - destruct (Grant.allow_recording grant); apply denied_if_ok in Hrec as [Hrec _].
    + repeat apply orb_false_iff in Hrec as [Hrec ?]. by reflect_all.
    + apply orb_false_iff in Hrec as [Hg Hl]. reflect_all.
      split; [done | intros [? ?]; congruence].
  - intros Hs%has_method_true. rewrite Hs in Hc1. apply negb_false_iff in Hc1.
    by apply has_methods_true.
  - intros Hs%has_method_true. rewrite Hs in Hc2. apply negb_false_iff in Hc2.
    by apply has_methods_true.
Qed.

Lemma validate_grant_agrees grant lease :
  validate_grant_against_task_authorization grant lease = Ok tt -> agrees grant lease.
Proof.
  unfold validate_grant_against_task_authorization. intros [Hprep H]%denied_if_ok.
  apply denied_if_ok in H as [Hdir H]. apply denied_if_ok in H as [Hmenu H].
  apply rbind_ok in H as ([] & Hpixels & H).
  apply denied_if_ok in H as [Horigins H]. apply denied_if_ok in H as [Hshow _].
  apply orb_false_iff in Hprep as [Hprep Hprep2].
  apply negb_false_iff, eqb_prop in Hprep.
  apply negb_false_iff in Horigins. rewrite same_set_true in Horigins. split.
  - exact Hprep.
  - exact Horigins.
  - intros Hs%is_some_true. rewrite Hs in Hshow. apply negb_false_iff in Hshow.
    by apply has_method_true.
  - intros Hm. rewrite Hm in *. simpl in *. rewrite !andb_true_r in *.
    apply orb_false_iff in Hdir as [? ?]. reflect_all. split_and!; try done.
    unfold has_scope in Hmenu. by rewrite existsb_false in Hmenu.
  - intros Hm. rewrite Hm in *. by apply validate_pixels_only_ok.
Qed.

(** ** Opening *)

Section OpeningFacts.
Context `{P : Platform}.
Context `{DA : !Digestible UnsignedAuth.UnsignedTaskAuthorizationRequest}.

(** The lease is for this window, in force, and agrees with the grant. *)
Definition leased_for (connection_id session_id window_capability : string)
    (grant : Grant.TaskGrant) (target : Window.ConfirmationWindowIdentity) (now : Z)
    (lease : Lease.TrustedTaskAuthorizationLease) : Prop :=
  Lease.connection_id lease = connection_id
  /\ Grant.task_authorization_id grant = Some (Lease.authorization_id lease)
  /\ Lease.session_id lease = session_id
  /\ Lease.task_grant_id lease = Grant.task_grant_id grant
  /\ Lease.application_label lease = Grant.application_label grant
  /\ Lease.window_capability lease = window_capability
  /\ Lease.target_process_id lease = Window.process_id target
  /\ Lease.target_window_handle lease = Window.window_handle target
  /\ lease_in_time now lease /\ lease_scope_valid lease /\ agrees grant lease.

Lemma issue_for_window_ok now uuid host connection_id authorization_id session_id grant
    window_capability target lease :
  Grant.task_authorization_id grant = Some authorization_id ->
  issue_for_window now uuid host connection_id authorization_id session_id grant
    window_capability target = Ok lease ->
  exists l, lease = Some l
    /\ leased_for connection_id session_id window_capability grant target now l.
Proof.
  intros Hid. unfold issue_for_window. intros (l & Hl & H)%rbind_ok.
  apply rbind_ok in H as ([] & Hagree%validate_grant_agrees & H). injection H as <-.
  apply issue_task_authorization_ok in Hl as
    (? & Ha & ? & ? & ? & ? & ? & ? & _ & ? & ? & _).
  exists l. split; [done|]. cbn in Ha. unfold leased_for. rewrite Ha. by split_and!.
Qed.

Lemma preauthorize_ok now uuid host connection_id grant session_id window_capability
    activate_before lease :
  preauthorize_task_session now uuid host connection_id grant session_id window_capability
    activate_before = Ok lease ->
  (is_Some (Grant.task_authorization_id grant) -> activate_before = false)
  /\ forall l, lease = Some l -> exists target,
       leased_for connection_id session_id window_capability grant target now l.
Proof.
  unfold preauthorize_task_session. intros ([] & Hact & H)%rbind_ok.
  apply rbind_ok in H as (target & _ & H). split.
  - unfold reject_task_authorization_activation in Hact. apply guard_ok in Hact as [Hact _].
    intros Hs%is_some_true. by rewrite Hs in Hact.
  - intros l ->. destruct target as [target|]; [|done].
    apply rbind_ok in H as (id & Hid%ok_or_ok & H).
    apply issue_for_window_ok in H as (l' & [= <-] & H); eauto.
Qed.

(** The authorization of a new session is first asked for, and then settled for the
    window that was really opened: a grant that claims one ends with a lease for that
    window, issued at one of the two times. *)
Lemma finalized_session_is_leased now uuid now' uuid' host connection_id grant session_id
    window_capability activate_before observed pre lease :
  preauthorize_task_session now uuid host connection_id grant session_id window_capability
    activate_before = Ok pre ->
  finalize_task_session_authorization now' uuid' host connection_id grant session_id
    window_capability observed pre = Ok lease ->
  match lease with
  | None => Grant.task_authorization_id grant = None
  | Some lease => activate_before = false
      /\ exists issued, issued ∈ [now; now']
         /\ leased_for connection_id session_id window_capability grant observed issued lease
  end.
Proof.
  intros [Hact Hpre]%preauthorize_ok Hfin. unfold finalize_task_session_authorization in Hfin.
  destruct pre as [l|].
  - destruct (_ || _ : bool) eqn:Ht in Hfin; [done|]. injection Hfin as <-.
    destruct (Hpre l eq_refl) as (target & Hc & Hid & ? & ? & ? & ? & Hp & Hh & Hrest).
    apply orb_false_iff in Ht as [Htp Hth]. reflect_all.
    split; [apply Hact; by rewrite Hid|]. exists now. split; [set_solver|].
    unfold leased_for. by split_and!.
  - destruct (Grant.task_authorization_id grant) as [id|] eqn:Hid; [|by injection Hfin as <-].
    apply issue_for_window_ok in Hfin as (l & -> & H); [|done].
    split; [by apply Hact|]. exists now'. split; [set_solver | done].
Qed.
End OpeningFacts.

(** ** Requests *)

(** The document a browser mutation addresses; none, where it is the current one. *)
Definition browser_mutation (request : Request.Request)
    : option (string * string * option string) :=
  match request with
  | Request.BrowserNavigate _ _ _ r =>
      Some (BNavigate.target_id r, BNavigate.tab_id r, None)
  | Request.BrowserClick _ _ _ r =>
      Some (BClick.target_id r, BClick.tab_id r, Some (BClick.snapshot_id r))
  | Request.BrowserType _ _ _ r =>
      Some (BType.target_id r, BType.tab_id r, Some (BType.snapshot_id r))
  | Request.BrowserPointer _ _ _ r =>
      Some (BPointer.target_id r, BPointer.tab_id r, Some (BPointer.snapshot_id r))
  | Request.BrowserSetInputFiles _ _ _ r =>
      Some (BFiles.target_id r, BFiles.tab_id r, Some (BFiles.snapshot_id r))
  | Request.BrowserDownload _ _ _ r =>
      Some (BDownload.target_id r, BDownload.tab_id r, Some (BDownload.snapshot_id r))
  | Request.BrowserDialog _ _ _ r =>
      Some (BDialog.target_id r, BDialog.tab_id r, None)
  | _ => None
  end.

(** The document of the scope is the one addressed, or the current one. *)
Definition addresses (host : HS.HostSession)
    (scope : BrowserScope.TrustedTaskAuthorizationBrowserScope)
    (mutation : string * string * option string) : Prop :=
  let '(target_id, tab_id, document) := mutation in
  target_id = BrowserScope.host_target_id scope /\ tab_id = BrowserScope.tab_id scope
  /\ match document with
     | Some document => document = BrowserScope.document_generation scope
     | None =>
         BS.target_id (HS.browser host) = Some (BrowserScope.host_target_id scope)
         /\ BS.latest_tab_id (HS.browser host) = Some (BrowserScope.tab_id scope)
         /\ BS.latest_snapshot_id (HS.browser host)
            = Some (BrowserScope.document_generation scope)
         /\ BS.latest_origin (HS.browser host) = Some (BrowserScope.origin scope)
     end.

(** The lease names the window of the session, and the method. *)
Definition bound_to (session_id method : string) (host : HS.HostSession)
    (lease : Lease.TrustedTaskAuthorizationLease) : Prop :=
  HS.task_authorization host = Some lease
  /\ Lease.session_id lease = session_id
  /\ Lease.task_grant_id lease = HS.task_grant_id host
  /\ Lease.window_capability lease = HS.capability host
  /\ Lease.target_process_id lease = HS.target_process_id host
  /\ Lease.target_window_handle lease = HS.target_window_handle host
  /\ method ∈ Lease.allowed_host_methods lease.

Lemma bound_task_authorization_some session_id method host lease :
  bound_task_authorization session_id method host = Some lease ->
  bound_to session_id method host lease.
Proof.
  unfold bound_task_authorization, bound_to.
  destruct (HS.task_authorization host) as [l|]; [|done].
  destruct (_ && _ : bool) eqn:E; [|done]. intros [= ->].
  reflect_all. by split_and!.
Qed.

(** What a request may do that passed the checks. *)
Record permitted `{P : Platform} (session_id method : string) (request : Request.Request)
    (host : HS.HostSession) : Prop := {
  permitted_method lease : HS.task_authorization host = Some lease ->
    method ∈ Lease.allowed_host_methods lease;
  permitted_mode : HS.observation_mode host = PixelsOnly -> method ∈ pixels_only_methods;
  permitted_action s g c observation_id state_id action a d x y z :
    HS.observation_mode host = PixelsOnly ->
    request = Request.ExecuteAction s g c observation_id state_id action a d x y z ->
    HS.allow_raw_input host = true
    /\ HA.input_kind action = "raw_input" /\ HA.secret_handle action = None
    /\ HA.element_index action = None /\ HA.element_token action = None
    /\ HS.latest_observation_id host = Some observation_id
    /\ exists lease scope, bound_to session_id "execute_action" host lease
       /\ scope ∈ Lease.allowed_actions lease /\ is_pixels_input scope = true
       /\ Scope.action scope = HA.action action;
  permitted_recording s g c recording : HS.observation_mode host = PixelsOnly ->
    request = Request.RecordingStart s g c recording ->
    HS.allow_recording host = true /\ RecStart.record_video recording = true
    /\ HS.task_authorization host ≫= Lease.recording_output_dir
       = Some (RecStart.output_dir recording)
    /\ validate_recording_output_location (RecStart.output_dir recording) = Ok tt;
  permitted_document scope : authorized_browser_scope host = Some scope ->
    (forall s g c prepare, request <> Request.BrowserPrepare s g c prepare)
    /\ (forall mutation, browser_mutation request = Some mutation ->
        addresses host scope mutation);
}.

Lemma require_browser_target_ok scope target_id tab_id host :
  authorized_browser_scope host = Some scope ->
  require_task_authorized_browser_target target_id tab_id host = Ok tt ->
  target_id = BrowserScope.host_target_id scope /\ tab_id = BrowserScope.tab_id scope.
Proof.
  unfold require_task_authorized_browser_target. intros ->.
  destruct (_ && _ : bool) eqn:E; [|done]. intros _. by reflect_all.
Qed.

Lemma require_browser_document_ok scope target_id tab_id document host :
  authorized_browser_scope host = Some scope ->
  require_task_authorized_browser_document target_id tab_id document host = Ok tt ->
  addresses host scope (target_id, tab_id, Some document).
Proof.
  intros Hs. unfold require_task_authorized_browser_document.
  intros ([] & Ht & H)%rbind_ok. rewrite Hs in H.
  destruct (require_browser_target_ok _ _ _ _ Hs Ht) as [-> ->].
  destruct (_ == _) eqn:E; [|done]. by reflect_all.
Qed.

Lemma require_current_document_ok scope target_id tab_id host :
  authorized_browser_scope host = Some scope ->
  rbind (require_task_authorized_browser_target target_id tab_id host)
    (fun _ => require_current_task_authorized_browser_document host) = Ok tt ->
  addresses host scope (target_id, tab_id, None).
Proof.
  intros Hs ([] & Ht & H)%rbind_ok.
  unfold require_current_task_authorized_browser_document in H. rewrite Hs in H.
  destruct (require_browser_target_ok _ _ _ _ Hs Ht) as [-> ->].
  destruct (_ && _ : bool) eqn:E in H; [|done]. reflect_all. by split_and!.
Qed.

Lemma enforce_browser_scope_ok scope host request :
  authorized_browser_scope host = Some scope ->
  enforce_task_authorized_browser_scope host request = Ok tt ->
  (forall s g c prepare, request <> Request.BrowserPrepare s g c prepare)
  /\ (forall mutation, browser_mutation request = Some mutation ->
      addresses host scope mutation).
Proof.
  intros Hs. unfold enforce_task_authorized_browser_scope. rewrite Hs. simpl.
  intros H. split; [by intros ? ? ? ? ->|].
  intros mutation Hm. destruct request; try discriminate Hm; injection Hm as <-;
    first [by eapply require_browser_document_ok | by eapply require_current_document_ok].
Qed.

Lemma require_pixels_input_ok session_id action host :
  require_pixels_input_grant session_id action host = Ok tt ->
  HS.allow_raw_input host = true
  /\ HA.input_kind action = "raw_input" /\ HA.secret_handle action = None
  /\ HA.element_index action = None /\ HA.element_token action = None
  /\ exists lease scope, bound_to session_id "execute_action" host lease
     /\ scope ∈ Lease.allowed_actions lease /\ is_pixels_input scope = true
     /\ Scope.action scope = HA.action action.
Proof.
  unfold require_pixels_input_grant, computer_use_error.
  intros [Hshape H]%guard_ok. apply denied_if_ok in H as [H _].
  apply orb_false_iff in Hshape as [Hshape _]. apply orb_false_iff in Hshape as [Hshape _].
  apply orb_false_iff in Hshape as [Hshape Hsecret].
  apply orb_false_iff in Hshape as [Hshape Htoken].
  apply orb_false_iff in Hshape as [Hshape Hindex].
  apply orb_false_iff in Hshape as [Hkind _].
  apply orb_false_iff in H as [Hraw Hlease].
  apply negb_false_iff in Hlease. reflect_in Hlease. destruct Hlease as (lease & Hl & He).
  apply bound_task_authorization_some in Hl.
  apply existsb_true in He as (scope & Hin & He). reflect_all.
  split_and!; try done. by exists lease, scope.
Qed.

Lemma enforce_recording_ok `{P : Platform} host recording :
  enforce_recording_start host recording = Ok tt ->
  HS.allow_recording host = true /\ RecStart.record_video recording = true
  /\ HS.task_authorization host ≫= Lease.recording_output_dir
     = Some (RecStart.output_dir recording)
  /\ validate_recording_output_location (RecStart.output_dir recording) = Ok tt.
Proof.
  unfold enforce_recording_start. intros (directory & Hd%ok_or_ok & H)%rbind_ok.
  destruct (HS.allow_recording host); [|done].
  apply denied_if_ok in H as [Hr Hv]. apply orb_false_iff in Hr as [Hvideo Hdir].
  reflect_all. subst directory. by rewrite Hd.
Qed.

Lemma enforce_on_session_permits `{P : Platform} session_id method request host :
  enforce_on_session session_id method request host = Ok tt ->
  permitted session_id method request host.
Proof.
  unfold enforce_on_session. intros ([] & Hmethod & H)%rbind_ok.
  apply denied_if_ok in H as [Hmode H]. apply rbind_ok in H as ([] & Hpixels & Hbrowser).
  split.
  - intros lease Hl. unfold require_task_authorized_method in Hmethod. rewrite Hl in Hmethod.
    apply denied_if_ok in Hmethod as [Hm _]. simpl in Hm. by reflect_all.
  - intros Hm. apply negb_false_iff in Hmode. unfold permits_method in Hmode.
    rewrite Hm in Hmode. apply orb_true_iff in Hmode as [Hmode|Hmode]; by reflect_all.
  - intros * Hm ->. rewrite bool_decide_eq_true_2 in Hpixels by done.
    apply rbind_ok in Hpixels as ([] & Hgrant%require_pixels_input_ok & Hlatest).
    unfold require_latest_observation, computer_use_error in Hlatest.
    apply guard_ok in Hlatest as [Hlatest _]. apply orb_false_iff in Hlatest as [_ Hlatest].
    reflect_in Hlatest. destruct Hgrant as (? & ? & ? & ? & ? & ?). by split_and!.
  - intros * Hm ->. rewrite bool_decide_eq_true_2 in Hpixels by done.
    by apply enforce_recording_ok.
  - intros scope Hs. by apply enforce_browser_scope_ok.
Qed.

(** C7: no handler runs a request its lease or its mode does not permit.  A request for
    a window that passes the check in front of the handlers names an open session with
    its grant and capability; the lease of the session, if it has one, lists the method;
    a [pixels_only] session allows the method, raw input only with a lease bound to its
    window that scopes this very action, at the latest observation, without secret or
    element, and a recording only as video into the directory of the lease; and under a
    lease for one browser document every mutation addresses that document, or is made
    while it is the current one, and the browser is not prepared anew. *)
Theorem enforced_request_is_permitted `{P : Platform} sessions request session_id
    task_grant_id window_capability method :
  enforce_task_authorized_method sessions request = Ok tt ->
  window_method_scope request
    = Some (session_id, task_grant_id, window_capability, method) ->
  exists host, sessions !! session_id = Some host
    /\ HS.task_grant_id host = task_grant_id /\ HS.capability host = window_capability
    /\ permitted session_id method request host.
Proof.
  unfold enforce_task_authorized_method. intros H Hscope. rewrite Hscope in H.
  destruct (sessions !! session_id) as [host|] eqn:Es; [|done].
  apply guard_ok in H as [Hc H]. apply orb_false_iff in Hc as [Hg Hk]. reflect_all.
  exists host. split_and!; try done. by apply enforce_on_session_permits.
Qed.

(** ** Samples *)

#[local] Instance sample_auth_digest :
  Digestible UnsignedAuth.UnsignedTaskAuthorizationRequest :=
  fun u => Ok (UnsignedAuth.request_id u).
#[local] Existing Instance sample_platform.

Definition sample_leased_grant : Grant.TaskGrant := {|
  Grant.task_grant_id := "g"; Grant.application_label := "Maya";
  Grant.observation_mode := PixelsOnly; Grant.process_id := Some 7;
  Grant.window_handle := Some 9; Grant.window_title := None;
  Grant.owned_browser_launch := None; Grant.allowed_browser_origins := [];
  Grant.allow_raw_input := true; Grant.allow_app_launch := false;
  Grant.allow_app_terminate := false; Grant.allow_clipboard_read := false;
  Grant.allow_clipboard_write := false; Grant.allow_recording := false;
  Grant.allow_capture_preparation := false; Grant.showcase_output_dir := None;
  Grant.recording_output_dir := None; Grant.allow_live_observation := false;
  Grant.allow_browser_input := false; Grant.allow_browser_prepare := false;
  Grant.allow_browser_download := false; Grant.allow_native_tool := false;
  Grant.allow_menu_invoke := false; Grant.allow_session_escalation := false;
  Grant.allow_trusted_confirmation := false;
  Grant.task_authorization_id := Some "a";
  Grant.task_authorization_window_capability := Some "w" |}.

Definition sample_leased_host : HS.HostSession := sample_window_host
  <| HS.observation_mode := PixelsOnly |>
  <| HS.task_authorization := Some sample_lease |>
  <| HS.target_process_id := 7 |> <| HS.target_window_handle := 9 |>
  <| HS.capability := "w" |> <| HS.latest_observation_id := Some "o" |>.

Lemma enforced_request_is_permitted_witness :
  exists host, ({["s" := sample_leased_host]} : Sessions) !! "s" = Some host
    /\ HS.latest_observation_id host = Some "o" /\ HS.allow_raw_input host = true.
Proof.
  destruct (enforced_request_is_permitted {["s" := sample_leased_host]}
    (Request.ExecuteAction "s" "g" "w" "o" "" (sample_click [] None) false 0 1 1 Full)
    "s" "g" "w" "execute_action") as (host & Hh & _ & _ & Hp);
    [vm_compute; reflexivity .. |].
  exists host. split; [exact Hh|].
  assert (HS.observation_mode host = PixelsOnly) as Hm.
  { rewrite lookup_singleton_eq in Hh. injection Hh as <-. reflexivity. }
  destruct (permitted_action _ _ _ _ Hp _ _ _ _ _ _ _ _ _ _ _ Hm eq_refl)
    as (? & _ & _ & _ & _ & ? & _). by split.
Defined.
