(* ===== verification/WindowWorld.v ===== *)
(** * What a window session calls
    ([crates/dcc-cua-host/src/request_handler.rs], [crates/dcc-cua-host/src/lib.rs])

    The handlers of a window session talk to its core session, to the clocks, the vault
    and the interrupt counter.  Each of these is a call that an oracle answers: an
    operation of the core session is answered with its result and the core session it
    leaves, for every way it may behave.  The history of the calls is what the theorems
    on the handlers speak of. *)

From S2P Require Import Prelude Records Effects Calls RustStr Json Protocol Errors.
From S2P Require Import Contracts TargetPolicy InputState SessionEvents SessionHealth.
From S2P Require Import HostAction.
From S2P Require Import Confirmation Platform CapturePreparation TaskGrant.
From S2P Require Import TaskAuthorization Request SecretVault RuntimeSession.
From S2P Require Import BrowserEvidence BrowserSession Broker HostSession Images.
From S2P Require SharedImage.

(** ** The core session's operations *)

Module ComputerUseScreenshot.
Record ComputerUseScreenshot : Type := {
  data : list Z;
  observation : Observation.ComputerUseObservation;
  accessibility : value;
}.
End ComputerUseScreenshot.

Module Screenshot := ComputerUseScreenshot.

Module ComputerUseVerification.
Record ComputerUseVerification : Type := {
  answer : value;
  image : option Image.ComputerUseImage;
}.
End ComputerUseVerification.

Module Verification := ComputerUseVerification.

(** [ComputerUseSessionStopResult]; what the clean-up reports is serialized as it is. *)
Module ComputerUseSessionStopResult.
Record ComputerUseSessionStopResult : Type := {
  success : bool;
  active : bool;
  cleanup_pending : bool;
  cleanup_issues : value;
  marker : value;
  recording_video : option value;
  live_observation : option value;
  capture_preparation : option value;
}.
End ComputerUseSessionStopResult.

Module StopResult := ComputerUseSessionStopResult.

(** The operations of a [ComputerUseSession] that the Host's handlers call; an [Instant]
    is the milliseconds left until it. *)
Module CoreOp.
Inductive core_op : Type -> Type :=
| TerminateApp : core_op (cresult value)
| ClipboardRead (include_text : bool) : core_op (cresult value)
| ClipboardWrite (write : ClipboardWriteRequest.ComputerUseClipboardWriteRequest)
    : core_op (cresult value)
| RecordingStart (request : RecStart.ComputerUseRecordingStartRequest)
    : core_op (cresult value)
| RecordingStop : core_op (cresult value)
| RecordingState : core_op (cresult value)
| StartLiveObservation (request : LiveStart.ComputerUseLiveObservationStartRequest)
    : core_op (cresult value)
| StopLiveObservation : core_op value
| NativeWindowStateForMenuDismiss : core_op (cresult value)
| NativeWindowStateForFrame : core_op (cresult value)
| WindowState : core_op (cresult value)
| Activate : core_op (cresult value)
| RestoreActivate : core_op (cresult value)
| CloseWindow : core_op (cresult value)
| MinimizeWindow (observation_id : string) : core_op (cresult value)
| SetWindowFrame (frame : WindowFrame.ComputerUseWindowFrameRequest)
    : core_op (cresult value)
| SetWindowFrameFromNativeState (window_state_id : string)
    (frame : WindowFrame.ComputerUseWindowFrameRequest) : core_op (cresult value)
| DismissNativeMenuFromState (state_id : string) (remaining : Z) : core_op (cresult value)
| InvokeMenu (request : Menu.ComputerUseMenuRequest) : core_op (cresult value)
| TargetAvailability : core_op (cresult Avl.ComputerUseTargetAvailability)
| ScreenshotNativeCapturePopups (selected : list Z) (diagnostics : bool) (remaining : Z)
    : core_op (cresult (Screenshot.ComputerUseScreenshot
                        * list Screenshot.ComputerUseScreenshot * value))
| ScreenshotPixelsOnly (diagnostics : bool)
    : core_op (cresult Screenshot.ComputerUseScreenshot)
| ScreenshotWithBounds (max_elements max_depth : Z)
    : core_op (cresult Screenshot.ComputerUseScreenshot)
| Zoom (request : Zoom.ComputerUseZoomRequest)
    : core_op (cresult NativeResult.ComputerUseToolResult)
| AccessibilitySnapshot (max_elements max_depth : Z) : core_op (cresult value)
| VerifyState (expect : value) (timeout_ms stable_samples : option Z)
    (include_screenshot : bool) : core_op (cresult Verification.ComputerUseVerification)
| CallTool (name : string) (arguments : value)
    : core_op (cresult NativeResult.ComputerUseToolResult)
| PerformAction (action : CA.ComputerUseAction)
    : core_op (cresult NativeResult.ComputerUseToolResult)
| ResumeAfterUserApproval : core_op (cresult unit)
| SessionState : core_op (cresult value)
| CursorTool (name : string) (arguments : value) : core_op (cresult value)
| Escalate (reason : string) (detail : option string) : core_op (cresult value)
| CallBrowserTool (name : string) (arguments : value) : core_op (cresult value)
| CallBrowserDownloadTool (arguments : value) : core_op (cresult value)
| CapturePreparationBegin (request : BeginRequest.CapturePreparationBeginRequest)
    (authorization : PrepAuth.CapturePreparationAuthorization) (expires_at : Z)
    : core_op (cresult value)
| CapturePreparationState : core_op (cresult value)
| CapturePreparationStop : core_op (cresult value)
| CapturePreparationSnapshot : core_op (cresult (Image.ComputerUseImage * value))
| Stop : core_op (cresult StopResult.ComputerUseSessionStopResult).
End CoreOp.

Import CoreOp (core_op).

(** How a probe of a wait ends ([crates/dcc-cua-host/src/wait.rs]). *)
Inductive WaitProbeOutcome (A : Type) : Type :=
| Cancelled_
| TimedOut_
| Completed_ (a : A).
Arguments Cancelled_ {A}.
Arguments TimedOut_ {A}.
Arguments Completed_ {A} a.

(** ** The calls *)

Inductive window_call : Type -> Type :=
| Core {A} (op : core_op A) (session : CS.ComputerUseSession)
    : window_call (A * CS.ComputerUseSession)
(** The descriptions [status()["marker"]] and [live_observation_state()]. *)
| MarkerStatus (session : CS.ComputerUseSession) : window_call value
| LiveObservationState (session : CS.ComputerUseSession) : window_call value
(** A wait for an accessibility snapshot or an interval, until a deadline or until it is
    cancelled, and the milliseconds it took; an abandoned snapshot leaves some core
    session behind. *)
| ProbeUntilDeadline (max_elements max_depth remaining : Z) (session : CS.ComputerUseSession)
    : window_call (WaitProbeOutcome (cresult value * Z) * CS.ComputerUseSession)
| SleepUntilDeadline (interval remaining : Z) : window_call (WaitProbeOutcome Z)
(** The clocks, the state of the input desktop and of the control banner. *)
| SampleEnvironment : window_call Env.Environment
| SampleBanner : window_call (option Banner.ControlBanner)
| SampleInput : window_call (Rdy.ComputerUseInputReadiness * Z)
| ObservedAt : window_call Z
(** The size and the modification time of a file of the recording. *)
| RecordingMetadata : window_call (string -> option (Z * option Z))
(** The milliseconds since a deadline was last looked at. *)
| Elapsed : window_call Z
| Monotonic : window_call Z
| UnixMillis : window_call Z
| UnixSeconds : window_call Z
| FreshUuid : window_call string
| InterruptGeneration : window_call Z
(** The registration of a wait that can be cancelled. *)
| RegisterWait (session_id task_grant_id window_capability : string)
    : window_call (hresult unit)
(** The turn of the process in the queue of physical input. *)
| AwaitInputTurn : window_call unit
(** A sleep, and the milliseconds that really passed. *)
| Sleep (duration : Z) : window_call Z
| ResolveSecret (handle : string) : window_call (result HostSecretVaultError string)
| StoreSecret (handle text : string) : window_call (result HostSecretVaultError unit).

Abbreviation call_record := {A & (window_call A * A)%type}.

(** ** The wire format

    The derived [Serialize] of the records that the responses carry, and the digest of a
    confirmation. *)
Class WireFormat : Type := {
  target_json : Target.WindowTarget -> value;
  observation_json : Observation.ComputerUseObservation -> value;
  input_state_json : InS.ComputerUseSessionInputState -> value;
  target_state_json : TgS.ComputerUseSessionTargetState -> value;
  events_page_json : Page.ComputerUseSessionEventsPage -> result string value;
  health_json : Health.ComputerUseSessionHealth -> value;
  action_json : HA.HostAction -> result string value;
  browser_type_json : BType.BrowserTypeRequest -> value;
  confirmation_digest : Unsigned.UnsignedConfirmationRequest -> result string string;
}.

(** ** Operations of one window session *)

Section World.
Context {M : Type} `{P : Platform}.
Context `{DL : !Digestible UnsignedLease.UnsignedTaskAuthorizationLeaseValidationRequest}.
Context (world : oracle window_call).

(** The memory of the system, and the session or the table of them. *)
Abbreviation window_op E A := (eff (history window_call * (M * HS.HostSession)) E A).
Abbreviation table_op A :=
  (eff (history window_call * (M * Sessions)) HostError.HostError A).

(** The Host's own part of an operation. *)
Definition host {E A} (m : eff HS.HostSession E A) : window_op E A :=
  silent (on_part snd (fun host t => (t.1, host)) m).
Definition host_read {E A} (f : HS.HostSession -> A) : window_op E A := host (read f).
Definition host_modify {E} (f : HS.HostSession -> HS.HostSession) : window_op E unit :=
  host (modify f).
Definition host_check {E A} (f : HS.HostSession -> result E A) : window_op E A :=
  do? self := host_read id in lift (f self).

(** [?] on an error of the core. *)
Definition core_error {A} (m : window_op cerror A) : window_op HostError.HostError A :=
  map_error HostError.ComputerUse m.

(** [host.session.op().await]. *)
Definition call_core {E A} (op : core_op A) : window_op E A :=
  do? session := host_read HS.session in
  do? (answer, session) := ask world (Core op session) in
  run? host_modify (fun self => self <| HS.session := session |>) in
  ret answer.

(** [host.finish_observation_sensitive_attempt(result)]. *)
Definition finish {A} (result : cresult A) : window_op cerror A :=
  do? observed_at := ask world ObservedAt in
  host (finish_host_attempt observed_at result).

(** Both, as most handlers do them. *)
Definition sensitive {A} (op : core_op (cresult A)) : window_op cerror A :=
  do? result := call_core op in
  finish result.

Definition refresh_input_readiness_now {E} : window_op E unit :=
  do? (readiness, observed_at) := ask world SampleInput in
  host (refresh_input_readiness readiness observed_at).

Definition observe_availability_now {E} (availability : Avl.ComputerUseTargetAvailability)
    : window_op E unit :=
  do? observed_at := ask world ObservedAt in
  run? host (observe_target_availability availability observed_at) in
  ret tt.

(** [if let Ok(availability) = host.finish..(host.session.target_availability())]; whether
    the probe failed. *)
Definition probe_target {E} : window_op E bool :=
  do? result := call_core CoreOp.TargetAvailability in
  do? availability := attempt (finish result) in
  run? (match availability with
        | Ok availability => observe_availability_now availability
        | Err _ => ret tt
        end) in
  ret (is_err result).

Definition observe_target_state_now {E} (state : value) : window_op E unit :=
  do? now := ask world Monotonic in
  do? observed_at := ask world ObservedAt in
  run? host (observe_target_state state now observed_at) in
  ret tt.

(** The control banner is shared with the process that draws it: its flags are read anew
    whenever they are looked at. *)
Definition with_banner (banner : option Banner.ControlBanner)
    (session : CS.ComputerUseSession) : CS.ComputerUseSession :=
  session <| CS.control_banner := if is_some (CS.control_banner session)
                                  then banner else None |>.

Definition refresh_banner {E} : window_op E unit :=
  do? banner := ask world SampleBanner in
  host_modify (fun self => self <| HS.session := with_banner banner (HS.session self) |>).

Definition ensure_not_interrupted : window_op HostError.HostError unit :=
  run? refresh_banner in
  do? env := ask world SampleEnvironment in
  host (ensure_session_not_interrupted env).

(** [revalidate_queued_window_mutation] ([session_helpers.rs]). *)
Definition revalidate_queued_window_mutation : window_op HostError.HostError unit :=
  run? ensure_not_interrupted in
  do? env := ask world SampleEnvironment in
  host_check (lease_is_active env).

Definition await_input_turn {E} : window_op E unit := ask world AwaitInputTurn.

(** The operation [m] of the session a request names. *)
Definition on_session {A} (session_id grant_id capability : string)
    (m : window_op HostError.HostError A) : table_op A := fun '(h, (memory, sessions)) =>
  match sessions !! session_id with
  | None => Some (Err HostError.session_not_found, (h, (memory, sessions)))
  | Some host =>
      if (HS.task_grant_id host != grant_id) || (HS.capability host != capability)
      then Some (Err (HostError.Protocol "session grant or capability mismatch"),
                 (h, (memory, sessions)))
      else
        match m (h, (memory, host)) with
        | Some (r, (h, (memory, host))) =>
            Some (r, (h, (memory, <[session_id := host]> sessions)))
        | None => None
        end
  end.

(** [authorized_session(..).await?], and what follows it. *)
Definition authorized {A} (session_id grant_id capability : string)
    (m : window_op HostError.HostError A) : table_op A :=
  on_session session_id grant_id capability (
    run? refresh_banner in
    do? env := ask world SampleEnvironment in
    run? host (authorize_session env) in
    m).

(** The browser adapter drives the core session. *)
Definition browser_native {A} (op : core_op (cresult A))
    : eff (history window_call * CS.ComputerUseSession) cerror A := fun '(h, session) =>
  match ask (E := cerror) world (Core op session) (h, session) with
  | Some (Ok (answer, session), (h, _)) => lift answer (h, session)
  | Some (Err error, s) => Some (Err error, s)
  | None => None
  end.

Context `{WF : WireFormat}.

Definition target (session : CS.ComputerUseSession) : option value :=
  option_map target_json (CS.target session).

#[local] Instance window_browser_native
    : BrowserNative (history window_call * CS.ComputerUseSession) := {
  call_browser_tool := fun name args => browser_native (CoreOp.CallBrowserTool name args);
  call_browser_download_tool := fun args => browser_native (CoreOp.CallBrowserDownloadTool args);
  native_target := fun s => target s.2;
}.

(** [host.browser.op(&mut host.session, ..)]. *)
Definition browser {A}
    (m : eff ((history window_call * CS.ComputerUseSession) * BS.BrowserSession) cerror A)
    : window_op cerror A := fun '(h, (memory, host)) =>
  match m ((h, HS.session host), HS.browser host) with
  | Some (r, ((h, session), browser)) =>
      Some (r, (h, (memory, host <| HS.session := session |> <| HS.browser := browser |>)))
  | None => None
  end.

Definition imaging {SM : SharedImage.SharedMemory M} {A}
    (m : eff (M * option SharedImage.Descriptor.SharedImageDescriptor) HostError.HostError A)
    : window_op HostError.HostError A :=
  silent (on_part (fun t => (t.1, HS.latest_shared_image t.2))
    (fun s t => (s.1, t.2 <| HS.latest_shared_image := s.2 |>)) m).
End World.

(** ** What an operation calls, and what it keeps *)

(** The core operations among the calls satisfy [permitted]. *)
Definition core_calls (permitted : forall A, core_op A -> Prop) (c : call_record) : Prop :=
  match (projT2 c).1 with
  | Core op _ => permitted _ op
  | _ => True
  end.

(** What identifies the session and bounds it never changes. *)
Definition keeps (self self' : HS.HostSession) : Prop :=
  credentials self' = credentials self.

#[export] Instance keeps_preorder : PreOrder keeps.
Proof. split; [done|]. unfold keeps. intros ???. congruence. Qed.

Lemma keeps_host_le {E A} (m : eff HS.HostSession E A) :
  respects host_le m -> respects keeps m.
Proof. intros Hm self r self' H. apply Hm in H. by destruct H. Qed.

Lemma keeps_record_snapshot id root self : keeps self (record_snapshot_observation id root self).
Proof. unfold keeps, record_snapshot_observation. simpl. by case_bool_decide. Qed.

Lemma keeps_sync publication self :
  keeps self (synchronize_action_evidence_epoch_with publication self).1.
Proof. apply sync_keeps. Qed.

Lemma keeps_finish_snapshot {A} observed_at (result : cresult A) publishes :
  respects keeps (finish_browser_snapshot_attempt observed_at result publishes).
Proof.
  unfold finish_browser_snapshot_attempt, sync. respects.
  all: try (apply respects_modify; [apply _ | intros ?; reflexivity || apply keeps_sync]).
  apply keeps_host_le, host_le_finish_attempt.
Qed.

Lemma keeps_invalidate_core {E} (invalidate : CS.ComputerUseSession -> option CS.ComputerUseSession) :
  respects keeps (update (E := E) (fun self =>
    match invalidate (HS.session self) with
    | Some session => Some (self <| HS.session := session |>)
    | None => None
    end)).
Proof.
  apply respects_update; [apply _|]. intros self self'.
  destruct (invalidate _); [|done]. intros <-%(inj Some). reflexivity.
Qed.

Lemma keeps_abandon {E} : respects keeps (update (E := E) abandon_wait_probe).
Proof. apply keeps_host_le, respects_host_update, invalidate_epoch_le. Qed.

Section Calling.
Context {M : Type} (permitted : forall A, core_op A -> Prop) (host0 : HS.HostSession).

(** An operation of a session with the credentials of [host0] makes only permitted core
    calls, and leaves those credentials. *)
Definition makes (s s' : history window_call * (M * HS.HostSession)) : Prop :=
  credentials s.2.2 = credentials host0 ->
  credentials s'.2.2 = credentials host0
  /\ exists new, s'.1 = s.1 ++ new /\ Forall (core_calls permitted) new.

#[export] Instance makes_preorder : PreOrder makes.
Proof.
  split.
  - intros s Hs. split; [done|]. exists []. rewrite app_nil_r. by split.
  - intros s1 s2 s3 H12 H23 H1. destruct (H12 H1) as (H2 & n1 & E1 & F1).
    destruct (H23 H2) as (H3 & n2 & E2 & F2). split; [done|]. exists (n1 ++ n2).
    rewrite E2, E1, app_assoc. split; [done|]. by apply Forall_app.
Qed.

(** The same for the browser adapter, which sees only the core session. *)
Definition native_makes (s s' : (history window_call * CS.ComputerUseSession) * BS.BrowserSession)
    : Prop :=
  exists new, s'.1.1 = s.1.1 ++ new /\ Forall (core_calls permitted) new.

#[export] Instance native_makes_preorder : PreOrder native_makes.
Proof.
  split.
  - intros s. exists []. rewrite app_nil_r. by split.
  - intros s1 s2 s3 (n1 & E1 & F1) (n2 & E2 & F2). exists (n1 ++ n2).
    rewrite E2, E1, app_assoc. split; [done|]. by apply Forall_app.
Qed.

Context `{P : Platform}.
Context `{DL : !Digestible UnsignedLease.UnsignedTaskAuthorizationLeaseValidationRequest}.
Context (world : oracle window_call).

Lemma makes_ask {E A} (c : window_call A) :
  (forall a, core_calls permitted (asked c a)) -> respects makes (ask (E := E) world c).
Proof using Type.
  intros Hc [h [mem host]] r [h' t'] (-> & -> & ->)%ask_some Hs.
  split; [done|]. eexists. split; [done|]. by constructor.
Qed.

Lemma makes_host {E A} (m : eff HS.HostSession E A) :
  respects keeps m -> respects makes (host (M := M) m).
Proof using Type.
  intros Hm [h [mem self]] r [h' [mem' self']] [H ->]%silent_some Hs.
  unfold on_part in H. simpl in *. destruct (m self) as [[r1 self1]|] eqn:E1; [|done].
  injection H as _ <- <-. apply Hm in E1. unfold keeps in E1.
  split; [congruence|]. exists []. rewrite app_nil_r. by split.
Qed.

Lemma makes_modify {E} (f : HS.HostSession -> HS.HostSession) :
  (forall self, keeps self (f self)) -> respects makes (host_modify (M := M) (E := E) f).
Proof using Type. intros Hf. by apply makes_host, respects_modify; [apply _|]. Qed.
Lemma makes_read {E A} (f : HS.HostSession -> A) :
  respects makes (host_read (M := M) (E := E) f).
Proof using Type. apply makes_host, respects_read, _. Qed.

(** What is read of the credentials is what [host0] says. *)
Lemma makes_read_of {E A B} (f : HS.HostSession -> A) (k : A -> eff (history window_call * (M * HS.HostSession)) E B) :
  (forall self, credentials self = credentials host0 -> f self = f host0) ->
  respects makes (k (f host0)) -> respects makes (bind (host_read f) k).
Proof using Type.
  intros Hf Hk [h [mem self]] r s' H Hs. simpl in Hs. change (k (f self) (h, (mem, self)) = Some (r, s')) in H.
  rewrite (Hf _ Hs) in H. by apply Hk in H; apply H.
Qed.

(** A check of the session, and what it establishes. *)
Lemma makes_check {E A B} (f : HS.HostSession -> result E A) (k : A -> eff (history window_call * (M * HS.HostSession)) E B) :
  (forall self a, credentials self = credentials host0 -> f self = Ok a ->
     respects makes (k a)) ->
  respects makes (bind (host_check f) k).
Proof using Type.
  intros Hk [h [mem self]] r s' H Hs. simpl in Hs.
  change (bind (lift (f self)) k (h, (mem, self)) = Some (r, s')) in H.
  apply bind_some in H as [(e & s1 & H1 & [= -> ->]) | (a & s1 & H1 & H2)].
  - apply lift_some in H1 as [_ ->]. split; [done|]. exists []. rewrite app_nil_r. by split.
  - apply lift_some in H1 as [H1 ->]. symmetry in H1. apply (Hk _ _ Hs H1) in H2. by apply H2.
Qed.

(** A value computed before: the rest runs only if it is one. *)
Lemma makes_lift {E A B} (x : result E A) (k : A -> eff (history window_call * (M * HS.HostSession)) E B) :
  (forall a, x = Ok a -> respects makes (k a)) -> respects makes (bind (lift x) k).
Proof using Type.
  intros Hk s r s' [(e & s1 & H1 & [= -> ->]) | (a & s1 & H1 & H2)]%bind_some.
  - apply lift_some in H1 as [_ ->]. reflexivity.
  - apply lift_some in H1 as [H1 ->]. symmetry in H1. by eapply Hk.
Qed.

Lemma makes_call_core {E A} (op : core_op A) :
  permitted A op -> respects makes (call_core (M := M) (E := E) world op).
Proof using Type.
  intros Hop. unfold call_core. apply respects_bind; [apply _ | apply makes_read|].
  intros session. apply respects_bind; [apply _ | by apply makes_ask|].
  intros [answer session']. apply respects_bind; [apply _ | by apply makes_modify|].
  intros _. apply respects_ret, _.
Qed.

#[local] Hint Extern 1 (respects keeps _) =>
  apply keeps_host_le; solve [eauto with respects] : respects.
#[local] Hint Extern 1 (respects makes (host _)) => apply makes_host : respects.
#[local] Hint Extern 1 (respects makes (host_read _)) => apply makes_read : respects.
#[local] Hint Extern 1 (respects makes (host_modify _)) =>
  apply makes_modify; intros ?; reflexivity : respects.
#[local] Hint Extern 1 (respects makes (ask _ _)) => apply makes_ask; done : respects.

Lemma makes_host_check {E A} (f : HS.HostSession -> result E A) :
  respects makes (host_check (M := M) f).
Proof using Type. unfold host_check. respects. Qed.

Lemma makes_finish {A} (result : cresult A) : respects makes (finish (M := M) world result).
Proof using Type. unfold finish. respects. Qed.

Lemma makes_sensitive {A} (op : core_op (cresult A)) :
  permitted _ op -> respects makes (sensitive (M := M) world op).
Proof using Type.
  intros Hop. unfold sensitive.
  apply respects_bind; [apply _ | by apply makes_call_core | intros ?; apply makes_finish].
Qed.

Lemma makes_observe_availability {E} availability :
  respects makes (observe_availability_now (M := M) (E := E) world availability).
Proof using Type. unfold observe_availability_now. respects. Qed.

Lemma makes_observe_target_state {E} state :
  respects makes (observe_target_state_now (M := M) (E := E) world state).
Proof using Type. unfold observe_target_state_now. respects. Qed.

Lemma makes_refresh_input {E} :
  respects makes (refresh_input_readiness_now (M := M) (E := E) world).
Proof using Type.
  unfold refresh_input_readiness_now, refresh_input_readiness.
  apply respects_bind; [apply _ | by apply makes_ask|]. intros [readiness at_].
  apply makes_host, keeps_host_le. respects.
Qed.

Lemma makes_probe_target {E} :
  permitted _ CoreOp.TargetAvailability ->
  respects makes (probe_target (M := M) (E := E) world).
Proof using Type.
  intros Hop. unfold probe_target.
  apply respects_bind; [apply _ | by apply makes_call_core|]. intros result.
  apply respects_bind; [apply _ | apply respects_attempt; [apply _ | apply makes_finish]|].
  intros [availability|].
  all: apply respects_bind; [apply _ | | intros ?; apply respects_ret, _].
  - apply makes_observe_availability.
  - apply respects_ret, _.
Qed.

Lemma makes_refresh_banner {E} : respects makes (refresh_banner (M := M) (E := E) world).
Proof using Type. unfold refresh_banner. respects. Qed.

Lemma makes_ensure : respects makes (ensure_not_interrupted (M := M) world).
Proof using Type.
  unfold ensure_not_interrupted.
  apply respects_bind; [apply _ | apply makes_refresh_banner|]. intros _. respects.
Qed.

Lemma makes_revalidate : respects makes (revalidate_queued_window_mutation (M := M) world).
Proof using Type.
  unfold revalidate_queued_window_mutation, host_check.
  apply respects_bind; [apply _ | apply makes_ensure|]. intros _. respects.
Qed.

Lemma makes_part {S E A} (get : M * HS.HostSession -> S)
    (set : S -> M * HS.HostSession -> M * HS.HostSession) (m : eff S E A) :
  (forall s t, credentials (set s t).2 = credentials t.2) ->
  respects makes (silent (on_part get set m)).
Proof using Type.
  intros Hset [h t] r [h' t'] [H ->]%silent_some Hs. unfold on_part in H.
  destruct (m (get t)) as [[r1 s1]|]; [|done]. injection H as _ <-. simpl in *.
  split; [by rewrite Hset|]. exists []. rewrite app_nil_r. by split.
Qed.

Lemma makes_imaging `{SM : SharedImage.SharedMemory M} {A}
    (m : eff (M * option SharedImage.Descriptor.SharedImageDescriptor) HostError.HostError A) :
  respects makes (imaging m).
Proof using Type. by apply makes_part. Qed.

(** ** The browser adapter *)

Lemma native_makes_tool {A} (op : core_op (cresult A)) :
  permitted _ op -> respects native_makes (with_native (browser_native world op)).
Proof using Type.
  intros Hop [[h session] b] r [[h' session'] b'].
  unfold with_native, on_part, browser_native. simpl. unfold ask.
  destruct (world _ h (Core op session)) as [answer session1].
  intros H. injection H as _ <- <- <-. eexists. split; [done|]. by constructor.
Qed.

Lemma native_makes_read {A} (f : history window_call * CS.ComputerUseSession -> A) :
  respects native_makes (with_native (read f)).
Proof using Type.
  intros [[h session] b] r s' H. injection H as _ <-. reflexivity.
Qed.

Lemma native_makes_session {A} (m : eff BS.BrowserSession cerror A) :
  respects native_makes (with_session m).
Proof using Type.
  intros [[h session] b] r s'. unfold with_session, on_part. simpl.
  destruct (m b) as [[r1 b1]|]; [|done]. intros H. injection H as _ <-.
  exists []. rewrite app_nil_r. by split.
Qed.

Lemma makes_browser {A}
    (m : eff ((history window_call * CS.ComputerUseSession) * BS.BrowserSession) cerror A) :
  respects native_makes m -> respects makes (browser (M := M) m).
Proof using Type.
  intros Hm [h [mem self]] r [h' [mem' self']]. unfold browser.
  destruct (m _) as [[r1 [[h1 s1] b1]]|] eqn:E1; [|done].
  intros H Hs. injection H as _ <- <- <-. apply Hm in E1. by split.
Qed.
End Calling.

#[export] Hint Extern 1 (respects keeps _) =>
  apply keeps_host_le; solve [eauto with respects] : respects.
#[export] Hint Resolve keeps_finish_snapshot keeps_invalidate_core keeps_abandon : respects.
#[export] Hint Extern 1 (respects (makes _ _) (host _)) => apply makes_host : respects.
#[export] Hint Extern 1 (respects (makes _ _) (host_read _)) => apply makes_read : respects.
#[export] Hint Extern 1 (respects (makes _ _) (host_modify _)) =>
  apply makes_modify; intros ?;
  first [reflexivity | apply keeps_record_snapshot] : respects.
#[export] Hint Extern 1 (respects (makes _ _) (ask _ _)) =>
  apply makes_ask; done : respects.
#[export] Hint Resolve makes_host_check makes_finish makes_observe_availability makes_observe_target_state
  makes_refresh_input makes_refresh_banner makes_ensure makes_revalidate makes_imaging
  native_makes_read native_makes_session : respects.
#[export] Hint Extern 1 (respects (makes _ _) (call_core _ _)) =>
  apply makes_call_core : respects.
#[export] Hint Extern 1 (respects (makes _ _) (sensitive _ _)) =>
  apply makes_sensitive : respects.
#[export] Hint Extern 1 (respects (makes _ _) (probe_target _)) =>
  apply makes_probe_target : respects.
