(* ===== verification/WindowRequests.v ===== *)
(** * The requests on an open window session
    ([crates/dcc-cua-host/src/request_handler.rs])

    One definition per handler of [handle_request_inner] that observes the window, reads
    or writes its clipboard, records it, drives its browser or its session; the handlers
    that change the window are in WindowMutations, those that act in it in WindowActions.
    Each is what follows [authorized_session(..).await?] in its arm of the match. *)

From S2P Require Import Prelude Records Effects Calls RustStr Json Protocol Errors.
From S2P Require Import Contracts TargetPolicy InputState SessionEvents SessionHealth.
From S2P Require Import HostAction.
From S2P Require Import Confirmation Platform TaskGrant TaskAuthorization Request.
From S2P Require Import SecretVault RuntimeSession BrowserEvidence BrowserSession.
From S2P Require Import HostSession Images WindowWorld.
From S2P Require SharedImage.

Import CoreOp (core_op).

(** ** Responses *)

(** A response and the binary frame that follows it. *)
Abbreviation response := (value * option (list Z))%type.

Definition observation_mode_value (mode : TaskObservationMode) : value :=
  Str (match mode with TaskGrant.Semantic => "semantic" | PixelsOnly => "pixels_only" end).

Definition optional (o : option string) : value :=
  match o with Some s => Str s | None => Null end.

(** [wire.rs]. *)
Definition target_wire (target : value) : value :=
  Object [("process_id", target.["pid"]); ("window_handle", target.["window_id"]);
          ("window_title", target.["title"])].

Definition node_count (root : value) : value :=
  Number (PosInt (match as_array root.["elements"] with Some l => len l | None => 0 end)).

(** A response of one result. *)
Definition session_response (kind session_id : string) (result : value) : response :=
  (Object [("type", Str kind); ("session_id", Str session_id); ("result", result)], None).

Definition window_state_changed_response (session_id operation : string)
    (state result : value) : value :=
  Object [("type", Str "window_state_changed"); ("session_id", Str session_id);
          ("operation", Str operation); ("state", state); ("result", result)].

Definition session_stopped_response (session_id : string)
    (result : StopResult.ComputerUseSessionStopResult) : value :=
  let response := Object
    [("type", Str "session_stopped"); ("session_id", Str session_id);
     ("success", Bool (StopResult.success result)); ("active", Bool (StopResult.active result));
     ("cleanup_pending", Bool (StopResult.cleanup_pending result));
     ("cleanup_issues", StopResult.cleanup_issues result);
     ("marker", StopResult.marker result)] in
  let response := set_some response "recording_video" id (StopResult.recording_video result) in
  let response := set_some response "live_observation" id (StopResult.live_observation result) in
  set_some response "capture_preparation" id (StopResult.capture_preparation result).

(** ** Refusals *)

Definition validate_snapshot_capture_diagnostics (mode : TaskObservationMode)
    (capture_diagnostics : bool) : hresult unit :=
  if capture_diagnostics && (mode != PixelsOnly)
  then Err (HostError.Protocol
    "capture_diagnostics is available only for an explicit pixels_only snapshot")
  else Ok tt.

Definition cached_target_pre_dispatch_refusal (code : ComputerUseErrorCode.t)
    (message : string) : cerror :=
  ComputerUseError.with_details (ComputerUseError.new code message)
    (Details.default
      <| Details.phase := Some Phase.PreDispatch |>
      <| Details.action_attempted := Some false |>
      <| Details.input_sent := Some InputSent.NotSent |>
      <| Details.completion := Some Completion.Known |>
      <| Details.effect_unknown := Some false |>
      <| Details.local_session_invalidated := Some false |>
      <| Details.session_remains_active := Some true |>
      <| Details.automatic_input := Some false |>
      <| Details.blind_retry := Some false |>
      <| Details.fresh_observation_required := Some true |>).

(** [exact_http_origin]. *)
Definition exact_http_origin `{P : Platform} (url : string) : hresult string :=
  match url_parse url with
  | None => Err (HostError.Protocol "browser URL must be absolute")
  | Some parsed =>
      if negb (Url.scheme parsed ∈? ["http"; "https"])
      then Err (HostError.Protocol
        "authorized browser navigation requires an HTTP(S) URL")
      else Ok (Url.origin_ascii_serialization parsed)
  end.

Section Handlers.
Context {M : Type} `{SM : SharedImage.SharedMemory M} `{P : Platform}.
Context `{DL : !Digestible UnsignedLease.UnsignedTaskAuthorizationLeaseValidationRequest}.
Context `{WF : WireFormat} `{BF : BrowserFiles}.
Context (world : oracle window_call).

Abbreviation window_op E A := (eff (history window_call * (M * HS.HostSession)) E A).
Abbreviation host_op A := (window_op HostError.HostError A).

Definition granted (flag : HS.HostSession -> bool) (code : HostProtocolErrorCode.t)
    (capability : string) : host_op unit :=
  do? allowed := host_read flag in
  refuse_if (negb allowed) (denied code capability).

Definition require_live_observation : host_op unit :=
  do? allowed := host_read HS.allow_live_observation in
  refuse_if (negb allowed) (HostError.Protocol "live observation is not granted").

(** The handlers whose response is the answer of one core operation. *)
Definition respond_with (kind session_id : string) (op : core_op (cresult value))
    : host_op response :=
  do? result := core_error (sensitive world op) in
  ret (session_response kind session_id result).

Definition handle_terminate_app : host_op value :=
  run? granted HS.allow_app_terminate HostProtocolErrorCode.AppTerminateNotGranted
         "application termination" in
  core_error (sensitive world CoreOp.TerminateApp).

Definition handle_clipboard_read (session_id : string) (include_text : bool)
    : host_op response :=
  run? granted HS.allow_clipboard_read HostProtocolErrorCode.ClipboardReadNotGranted
         "clipboard read" in
  respond_with "clipboard_read" session_id (CoreOp.ClipboardRead include_text).

Definition handle_clipboard_write (session_id : string)
    (write : ClipboardWriteRequest.ComputerUseClipboardWriteRequest) : host_op response :=
  run? granted HS.allow_clipboard_write HostProtocolErrorCode.ClipboardWriteNotGranted
         "clipboard write" in
  respond_with "clipboard_written" session_id (CoreOp.ClipboardWrite write).

(** The three recording requests. *)
Definition handle_recording (kind session_id : string) (op : core_op (cresult value))
    : host_op response :=
  run? granted HS.allow_recording HostProtocolErrorCode.RecordingNotGranted "recording" in
  respond_with kind session_id op.

Definition handle_live_observation_start (session_id : string)
    (request : LiveStart.ComputerUseLiveObservationStartRequest) : host_op response :=
  run? require_live_observation in
  do? result := core_error (sensitive world (CoreOp.StartLiveObservation request)) in
  run? host_modify invalidate_observations in
  ret (session_response "live_observation_started" session_id result).

Definition handle_live_observation_state (session_id : string) : host_op response :=
  run? require_live_observation in
  do? session := host_read HS.session in
  do? result := ask world (LiveObservationState session) in
  ret (session_response "live_observation_state" session_id result).

Definition handle_live_observation_stop (session_id : string) : host_op response :=
  run? require_live_observation in
  do? result := call_core world CoreOp.StopLiveObservation in
  run? host_modify invalidate_observations in
  ret (session_response "live_observation_stopped" session_id result).

(** [observed_window_state_response]. *)
Definition handle_get_window_state (session_id : string) : host_op response :=
  do? self := host_read id in
  do? state := core_error (
    if is_ok (require_native_menu_dismiss_grant session_id self)
    then sensitive world CoreOp.NativeWindowStateForMenuDismiss
    else if HS.observation_mode self == PixelsOnly
    then sensitive world CoreOp.NativeWindowStateForFrame
    else sensitive world CoreOp.WindowState) in
  run? observe_target_state_now world state in
  ret (Object [("type", Str "window_state"); ("session_id", Str session_id);
               ("state", state)], None).

(** [capture_popup::capture_snapshot]. *)
Definition capture_snapshot (session_id : string) (selected : list Z)
    (capture_diagnostics : bool) (max_nodes max_depth : Z)
    : host_op (Screenshot.ComputerUseScreenshot * list Screenshot.ComputerUseScreenshot
               * value) :=
  let root m := do? root := m in ret (root, [], Null) in
  match selected with
  | _ :: _ =>
      do? expires := host_check (require_native_capture_popup_keyboard_grant session_id) in
      do? now := ask world UnixMillis in
      core_error (sensitive world (CoreOp.ScreenshotNativeCapturePopups selected
        capture_diagnostics (saturating_sub expires now)))
  | [] =>
      do? mode := host_read HS.observation_mode in
      if mode == PixelsOnly
      then core_error (root (sensitive world (CoreOp.ScreenshotPixelsOnly capture_diagnostics)))
      else core_error (root (sensitive world (CoreOp.ScreenshotWithBounds max_nodes max_depth)))
  end.

(** The index of the attachment with each overlay. *)
Fixpoint attach_overlays (items attachments : list value) : list value :=
  match items, attachments with
  | item :: items, attachment :: attachments =>
      set_index item "image" attachment :: attach_overlays items attachments
  | items, _ => items
  end.

Definition png (data : list Z) : Image.ComputerUseImage :=
  {| Image.data := data; Image.mime_type := "image/png" |}.

(** [action_response::snapshot_image_transport], and the popup's metadata it leaves. *)
Definition snapshot_image_transport (root : list Z)
    (observation : Observation.ComputerUseObservation)
    (overlays : list Screenshot.ComputerUseScreenshot) (popup : value)
    (mode : SnapshotTransport) : host_op (Prepared.PreparedImageTransport * value) :=
  do? uuid := ask world FreshUuid in
  do? now := ask world UnixSeconds in
  match overlays with
  | [] =>
      let prepared primary attachment :=
        {| Prepared.primary := Some primary; Prepared.attachments := [];
           Prepared.attachment := attachment;
           Prepared.use_shared_memory := mode == SharedMemory |} in
      match mode with
      | SharedMemory =>
          do? descriptor := imaging (share_image uuid now root "image/png") in
          ret (prepared descriptor None, popup)
      | BinaryFrame =>
          ret (prepared (Object
            [("name", Str ""); ("id", Str (Observation.observation_id observation));
             ("length", Number (PosInt (len root))); ("mime_type", Str "image/png");
             ("encoding", Str "binary_frame")]) (Some root), popup)
      end
  | _ =>
      let images := png root :: map (fun frame => png (Screenshot.data frame)) overlays in
      do? prepared := imaging (prepare_image_transport uuid now images mode) in
      run? (if is_object_or_null popup then ret tt else Effects.panic) in
      do? items := lift (ok_or (as_array popup.["overlays"])
        (HostError.Protocol "selected popup metadata is missing")) in
      if negb (len items + 1 =? len (Prepared.attachments prepared))
      then throw (HostError.Protocol "selected popup images and metadata differ")
      else ret (prepared, set_index popup "overlays"
             (Array (attach_overlays items (drop 1 (Prepared.attachments prepared)))))
  end.

Definition snapshot_response (accessibility_state_id : option string)
    (mode : TaskObservationMode) (screenshot : Screenshot.ComputerUseScreenshot)
    (prepared : Prepared.PreparedImageTransport) (popup : value)
    (activation : option value) : response :=
  let observation := Screenshot.observation screenshot in
  let response := Object
    [("type", Str "snapshot");
     ("observation_id", Str (Observation.observation_id observation));
     ("accessibility_state_id", optional accessibility_state_id);
     ("observation_mode", observation_mode_value mode);
     ("target", Object
       [("process_id", Number (PosInt (Observation.process_id observation)));
        ("window_handle", Number (PosInt (Observation.window_handle observation)));
        ("window_title", Str (Observation.window_title observation))]);
     ("observation", observation_json observation);
     ("root", Screenshot.accessibility screenshot);
     ("node_count", node_count (Screenshot.accessibility screenshot));
     ("image", unwrap_or (Prepared.primary prepared) Null);
     ("activation", unwrap_or activation Null)] in
  let response :=
    match Prepared.attachments prepared with
    | [] => response
    | attachments =>
        set_index (set_index response "attachments" (Array attachments))
          "native_capture_popup_observation" popup
    end in
  (response, Prepared.attachment prepared).

Definition handle_snapshot (session_id : string) (max_depth max_nodes : Z)
    (activate_before capture_diagnostics : bool) (popups : list Z) (mode : SnapshotTransport)
    : host_op response :=
  run? host_check (fun self =>
    validate_snapshot_capture_diagnostics (HS.observation_mode self) capture_diagnostics) in
  run? host_check (fun self =>
    if (HS.observation_mode self == PixelsOnly) && activate_before
    then Err (HostError.Protocol
      "pixels_only snapshot cannot activate the target; use an explicitly authorized change_window_state method")
    else Ok tt) in
  do? activation := (if activate_before
    then do? activation := core_error (sensitive world CoreOp.Activate) in ret (Some activation)
    else ret None) in
  do? (screenshot, overlays, popup) :=
    capture_snapshot session_id popups capture_diagnostics max_nodes max_depth in
  let observation := Screenshot.observation screenshot in
  run? host_modify (record_snapshot_observation (Observation.observation_id observation)
         (Screenshot.accessibility screenshot)) in
  do? prepared := attempt (snapshot_image_transport (Screenshot.data screenshot) observation
    overlays popup mode) in
  match prepared with
  | Err error =>
      run? host_modify invalidate_observations in
      throw error
  | Ok (prepared, popup) =>
      do? self := host_read id in
      ret (snapshot_response (HS.latest_accessibility_state_id self)
             (HS.observation_mode self) screenshot prepared popup activation)
  end.

(** A tool's answer and its images. *)
Definition tool_response (session_id tool : string)
    (result : NativeResult.ComputerUseToolResult) (mode : SnapshotTransport)
    : host_op response :=
  do? uuid := ask world FreshUuid in
  do? now := ask world UnixSeconds in
  imaging (native_tool_response_with_transport uuid now (Some session_id) tool result mode).

Definition handle_zoom (session_id : string) (request : Zoom.ComputerUseZoomRequest)
    (mode : SnapshotTransport) : host_op response :=
  do? result := core_error (sensitive world (CoreOp.Zoom request)) in
  do? (response, attachment) := tool_response session_id "zoom" result mode in
  ret (set_index (set_index response "type" (Str "zoom"))
         "observation_id" (Str (Zoom.observation_id request)), attachment).

(** What a fresh accessibility tree is cached as. *)
Definition record_accessibility (observation_id : string) (root : value)
    (self : HS.HostSession) : HS.HostSession :=
  self
    <| HS.latest_observation_id := Some observation_id |>
    <| HS.latest_accessibility_state_id := Some observation_id |>
    <| HS.latest_accessibility_root := Some root |>.

Definition latest_observation (self : HS.HostSession)
    : option Observation.ComputerUseObservation :=
  CS.observation (HS.session self).

Definition require_target : host_op value :=
  host_check (fun self => ok_or (target (HS.session self))
    (HostError.Protocol "CUA did not return a target")).

Definition handle_accessibility_snapshot (max_depth max_nodes : Z) : host_op response :=
  do? root := core_error (sensitive world (CoreOp.AccessibilitySnapshot max_nodes max_depth)) in
  do? observation := host_check (fun self => ok_or (latest_observation self)
    (HostError.Protocol "accessibility snapshot returned no observation")) in
  let observation_id := Observation.observation_id observation in
  run? host_modify (record_accessibility observation_id root) in
  do? target := require_target in
  ret (Object
    [("type", Str "accessibility_snapshot"); ("observation_id", Str observation_id);
     ("accessibility_state_id", Str observation_id); ("target", target_wire target);
     ("root", root); ("node_count", node_count root)], None).

(** [image_response]; one image always has a descriptor. *)
Definition image_response (image : Image.ComputerUseImage) (mode : SnapshotTransport)
    : host_op response :=
  do? uuid := ask world FreshUuid in
  do? now := ask world UnixSeconds in
  do? prepared := imaging (prepare_image_transport uuid now [image] mode) in
  match Prepared.primary prepared with
  | None => Effects.panic
  | Some descriptor =>
      let descriptor :=
        if is_str descriptor.["encoding"] "binary_frame"
        then set_index (set_index descriptor "name" (Str "")) "id" (Str "")
        else descriptor in
      ret (descriptor, Prepared.attachment prepared)
  end.

Definition handle_verify_state (session_id : string) (expect : value)
    (timeout_ms stable_samples : option Z) (include_screenshot : bool)
    (mode : SnapshotTransport) : host_op response :=
  do? verification := core_error (sensitive world
    (CoreOp.VerifyState expect timeout_ms stable_samples include_screenshot)) in
  let response := Object
    [("type", Str "state_verified"); ("session_id", Str session_id);
     ("result", Verification.answer verification)] in
  match Verification.image verification with
  | Some image =>
      do? (descriptor, attachment) := image_response image mode in
      ret (set_index response "image" descriptor, attachment)
  | None => ret (response, None)
  end.

Definition handle_call_tool (session_id tool : string) (arguments : value)
    (mode : SnapshotTransport) : host_op response :=
  run? granted HS.allow_native_tool HostProtocolErrorCode.NativeToolNotGranted
         "native CUA tool calls" in
  do? result := core_error (sensitive world (CoreOp.CallTool tool arguments)) in
  tool_response session_id tool result mode.

(** *** The browser *)

(** The bytes of an image of the adapter. *)
Definition browser_image (image : BrowserImage.BrowserImage) : Image.ComputerUseImage :=
  {| Image.data := map byte_of (String.list_ascii_of_string (BrowserImage.data image));
     Image.mime_type := BrowserImage.mime_type image |}.

Definition browser_response (kind session_id : string) (result : BResult.BrowserResult)
    (mode : SnapshotTransport) : host_op response :=
  do? uuid := ask world FreshUuid in
  do? now := ask world UnixSeconds in
  do? prepared := imaging (prepare_image_transport uuid now
    (map browser_image (BResult.images result)) mode) in
  let response := Object
    [("type", Str kind); ("session_id", Str session_id);
     ("result", annotate_content prepared (BResult.answer result))] in
  let response := set_some response "image" id (Prepared.primary prepared) in
  let response :=
    if 1 <? len (Prepared.attachments prepared)
    then set_index response "attachments" (Array (Prepared.attachments prepared))
    else response in
  ret (response, Prepared.attachment prepared).

Abbreviation adapter_op A :=
  (eff ((history window_call * CS.ComputerUseSession) * BS.BrowserSession) cerror A).

#[local] Instance adapter : BrowserNative (history window_call * CS.ComputerUseSession) :=
  window_browser_native world.

Definition handle_browser_snapshot (session_id : string)
    (request : BSnapshot.BrowserSnapshotRequest) (mode : SnapshotTransport)
    : host_op response :=
  do? result := attempt (browser (BrowserSession.snapshot request)) in
  let publishes := match result with
    | Ok result => publishes_snapshot_evidence result
    | Err _ => false
    end in
  do? observed_at := ask world ObservedAt in
  do? result := host (finish_browser_snapshot_attempt observed_at result publishes) in
  browser_response "browser_snapshot" session_id result mode.

(** What the other browser handlers do with the adapter's result. *)
Definition run_browser (kind session_id : string) (m : adapter_op BResult.BrowserResult)
    (mode : SnapshotTransport) : host_op response :=
  do? result := attempt (browser m) in
  do? result := core_error (finish world result) in
  browser_response kind session_id result mode.

Definition handle_browser_prepare (session_id : string)
    (request : BPrepare.BrowserPrepareRequest) (mode : SnapshotTransport)
    : host_op response :=
  run? granted HS.allow_browser_prepare HostProtocolErrorCode.BrowserPrepareNotGranted
         "browser preparation" in
  run_browser "browser_prepared" session_id (prepare request) mode.

Definition require_browser_input : host_op unit :=
  granted HS.allow_browser_input HostProtocolErrorCode.BrowserInputNotGranted
    "browser input".

Definition handle_browser_navigate (session_id : string)
    (request : BNavigate.BrowserNavigateRequest) (mode : SnapshotTransport)
    : host_op response :=
  run? require_browser_input in
  do? origin := lift (exact_http_origin (BNavigate.url request)) in
  run? host_check (require_allowed_browser_origin origin) in
  run_browser "browser_navigated" session_id (navigate request) mode.

(** A mutation needs the evidence of a snapshot that is still current. *)
Definition require_current_browser_evidence : host_op unit :=
  run? core_error (host require_current_browser_evidence_epoch) in
  host_check require_current_allowed_browser_origin.

Definition handle_browser_click (session_id : string) (request : BClick.BrowserClickRequest)
    (mode : SnapshotTransport) : host_op response :=
  run? require_browser_input in
  run? require_current_browser_evidence in
  run_browser "browser_clicked" session_id (click request) mode.

Definition handle_browser_pointer (session_id : string)
    (request : BPointer.BrowserPointerRequest) (mode : SnapshotTransport)
    : host_op response :=
  run? require_browser_input in
  run? require_current_browser_evidence in
  run_browser "browser_pointer_completed" session_id (pointer request) mode.

Definition handle_browser_set_input_files (session_id : string)
    (request : BFiles.BrowserSetInputFilesRequest) (mode : SnapshotTransport)
    : host_op response :=
  run? require_browser_input in
  run? require_current_browser_evidence in
  run_browser "browser_files_uploaded" session_id (set_input_files request) mode.

Definition handle_browser_download (session_id : string)
    (request : BDownload.BrowserDownloadRequest) (mode : SnapshotTransport)
    : host_op response :=
  run? granted HS.allow_browser_download HostProtocolErrorCode.BrowserDownloadNotGranted
         "browser download" in
  run? require_current_browser_evidence in
  run_browser "browser_downloaded" session_id (download request) mode.

Definition handle_browser_dialog (session_id : string)
    (request : BDialog.BrowserDialogRequest) (mode : SnapshotTransport) : host_op response :=
  run? require_browser_input in
  run? host_check require_current_allowed_browser_origin in
  run_browser "browser_dialog_completed" session_id (dialog request) mode.
End Handlers.
