(* ===== verification/WindowMutations.v ===== *)
(** * The requests that change an open window
    ([crates/dcc-cua-host/src/request_handler.rs], [request_handler/native_menu.rs],
     [request_handler/capture_preparation.rs])

    Activating, restoring, closing, minimizing and moving the window, dismissing and
    invoking its menus, and preparing it for a capture: the handlers that wait for their
    turn of the physical input, revalidate the session and its lease once they have it,
    and drop every observation whatever the outcome. *)

From S2P Require Import Prelude Records Effects Calls RustStr Json Protocol Errors.
From S2P Require Import Contracts TargetPolicy HostAction Confirmation Platform.
From S2P Require Import CapturePreparation TaskGrant TaskAuthorization Request.
From S2P Require Import SecretVault RuntimeSession HostSession Images WindowWorld.
From S2P Require Import WindowRequests.
From S2P Require SharedImage.

Import CoreOp (core_op).

(** What an error says when nothing was dispatched yet. *)
Definition native_frame_pre_dispatch_failure (error : HostError.HostError)
    : HostError.HostError :=
  match error with
  | HostError.ComputerUse error =>
      let details := unwrap_or (ComputerUseError.details error) Details.default in
      let details :=
        if is_none (Details.action_attempted details) then details
          <| Details.phase := Some Phase.PreDispatch |>
          <| Details.action_attempted := Some false |>
          <| Details.input_sent := Some InputSent.NotSent |>
          <| Details.completion := Some Completion.Known |>
          <| Details.effect_unknown := Some false |>
          <| Details.automatic_input := Some false |>
          <| Details.blind_retry := Some false |>
          <| Details.fresh_observation_required := Some true |>
        else details in
      HostError.ComputerUse (ComputerUseError.with_details error details)
  | _ => error
  end.

Definition validate_window_operation_scope (scopes : list Scope.TrustedTaskActionScope)
    (operation : WindowOperation.WindowOperation) : hresult unit :=
  if existsb is_native_menu_dismiss scopes && (operation != WindowOperation.DismissMenu)
  then task_authorization_denied
    "a dismiss_menu action scope cannot authorize activate, restore_activate or close"
  else Ok tt.

(** The identifier of a native menu state. *)
Definition menu_state_id (state_id : option string) : hresult string :=
  match state_id with
  | Some id =>
      if negb (str_is_empty id) && (str_len id <=? 128) && (trim id == id)
         && negb (any_char is_control id)
      then Ok id
      else computer_use_error ComputerUseErrorCode.StaleObservation
        "dismiss_menu requires a fresh purpose-bound menu window_state_id"
  | None => computer_use_error ComputerUseErrorCode.StaleObservation
      "dismiss_menu requires a fresh purpose-bound menu window_state_id"
  end.

Definition frame_state_id (state_id : option string) : hresult string :=
  match state_id with
  | Some id =>
      if negb (str_is_empty id) && (str_len id <=? 128) then Ok id
      else computer_use_error ComputerUseErrorCode.StaleObservation
        "set_window_frame requires a fresh native window_state_id"
  | None => computer_use_error ComputerUseErrorCode.StaleObservation
      "set_window_frame requires a fresh native window_state_id"
  end.

(** The milliseconds a lease has left. *)
Definition menu_lease_remaining (expires_at now : Z) : hresult Z :=
  if (now <=? expires_at) && (0 <? expires_at - now) && (expires_at - now <=? U64_MAX)
  then Ok (expires_at - now)
  else task_authorization_denied "native menu task authorization expired".

Section Mutations.
Context {M : Type} `{SM : SharedImage.SharedMemory M} `{P : Platform}.
Context `{DL : !Digestible UnsignedLease.UnsignedTaskAuthorizationLeaseValidationRequest}.
Context `{WF : WireFormat}.
Context (world : oracle window_call).

Abbreviation window_op E A := (eff (history window_call * (M * HS.HostSession)) E A).
Abbreviation host_op A := (window_op HostError.HostError A).

(** [finish_window_mutation_attempt(result, || host.invalidate_observations())]. *)
Definition mutation (op : core_op (cresult value)) : host_op value :=
  do? result := attempt (sensitive world op) in
  run? host_modify invalidate_observations in
  lift (rmap_err HostError.ComputerUse result).

(** [host.session.invalidate_action_observations()]. *)
Definition invalidate_core {E} : window_op E unit :=
  host (update (fun self =>
    match invalidate_action_observations (HS.session self) with
    | Some session => Some (self <| HS.session := session |>)
    | None => None
    end)).

(** [native_menu::validate_other_operation]. *)
Definition validate_other_operation (operation : WindowOperation.WindowOperation)
    (state_id : option string) : host_op unit :=
  do? scopes := host_read (fun self =>
    match HS.task_authorization self with
    | Some lease => Lease.allowed_actions lease
    | None => []
    end) in
  match validate_window_operation_scope scopes operation with
  | Err error =>
      run? invalidate_core in
      run? host_modify invalidate_observations in
      throw error
  | Ok _ =>
      refuse_if (is_some state_id) (HostError.Protocol
        "window_state_id is accepted only for dismiss_menu in change_window_state")
  end.

(** Evidence that the operation did not consume is dropped after it. *)
Definition consume_evidence {A} (m : host_op A) : host_op (hresult A) :=
  do? prior_epoch := host_read (fun self => CS.action_evidence_epoch (HS.session self)) in
  do? result := attempt m in
  do? epoch := host_read (fun self => CS.action_evidence_epoch (HS.session self)) in
  run? (if epoch == prior_epoch then invalidate_core else ret tt) in
  run? host_modify invalidate_observations in
  ret result.

(** The queue and the lease have been waited for without an interruption. *)
Definition require_generation (generation : Z) (message : string) : host_op unit :=
  do? current := ask world InterruptGeneration in
  if current =? generation then ret tt
  else lift (computer_use_error ComputerUseErrorCode.UserInterrupted message).

(** [native_menu::dismiss_menu]. *)
Definition dismiss_native_menu (session_id : string) (state_id : option string)
    (mutation_generation : Z) : host_op value :=
  run? host_check (require_native_menu_dismiss_grant session_id) in
  do? id := lift (menu_state_id state_id) in
  run? await_input_turn world in
  run? revalidate_queued_window_mutation world in
  run? ensure_not_interrupted world in
  run? require_generation mutation_generation
    "native menu dismissal was interrupted while awaiting its trusted queue or lease" in
  do? expires_at := host_check (require_native_menu_dismiss_grant session_id) in
  do? now := ask world UnixMillis in
  do? remaining := lift (menu_lease_remaining expires_at now) in
  core_error (sensitive world (CoreOp.DismissNativeMenuFromState id remaining)).

Definition dismiss_menu (session_id : string) (state_id : option string)
    (mutation_generation : Z) : host_op response :=
  do? result := consume_evidence
    (map_error native_frame_pre_dispatch_failure
       (dismiss_native_menu session_id state_id mutation_generation)) in
  do? result := lift result in
  ret (Object [("type", Str "window_state_changed"); ("session_id", Str session_id);
               ("operation", Str "dismiss_menu"); ("result", result)], None).

(** The state after a change of the window. *)
Definition changed_state (session_id operation : string) (result : value)
    : host_op response :=
  do? state := core_error (sensitive world CoreOp.WindowState) in
  run? observe_target_state_now world state in
  ret (window_state_changed_response session_id operation state result, None).

Definition restore_activate (session_id : string) : host_op response :=
  do? allowed := host_read HS.allow_restore_activate in
  if negb allowed
  then lift (computer_use_error ComputerUseErrorCode.InvalidTarget
    "restore_activate requires an exact process_id and window_handle grant binding")
  else
    do? result := attempt (mutation CoreOp.RestoreActivate) in
    run? probe_target world in
    do? result := lift result in
    changed_state session_id "restore_activate" result.

Definition close_window (session_id : string) : host_op response :=
  do? allowed := host_read HS.allow_trusted_confirmation in
  if negb allowed
  then lift (computer_use_error ComputerUseErrorCode.InvalidAction
    "close requires explicit trusted action-time confirmation")
  else
    do? result := mutation CoreOp.CloseWindow in
    ret (window_state_changed_response session_id "close"
           (Object [("exists", Bool false)]) result, None).

(** The generation is read when the request arrives; [authorized_session] follows. *)
Definition handle_change_window_state (session_id : string)
    (operation : WindowOperation.WindowOperation) (window_state_id : option string)
    (mutation_generation : Z) : host_op response :=
  match operation with
  | WindowOperation.DismissMenu =>
      dismiss_menu session_id window_state_id mutation_generation
  | _ =>
      run? validate_other_operation operation window_state_id in
      run? await_input_turn world in
      match operation with
      | WindowOperation.Activate =>
          do? result := mutation CoreOp.Activate in
          changed_state session_id "activate" result
      | WindowOperation.RestoreActivate => restore_activate session_id
      | WindowOperation.Close => close_window session_id
      | WindowOperation.DismissMenu => Effects.panic
      end
  end.

Definition handle_minimize_window (session_id observation_id : string) : host_op response :=
  run? host_check (require_latest_observation observation_id) in
  run? host_check (require_minimize_grant session_id) in
  run? await_input_turn world in
  run? revalidate_queued_window_mutation world in
  do? result := mutation (CoreOp.MinimizeWindow observation_id) in
  changed_state session_id "minimize" result.

Definition frame_response (session_id : string) (result : value) (state : option value)
    : response :=
  (set_some (Object [("type", Str "window_frame_set"); ("session_id", Str session_id);
                     ("result", result)]) "state" id state, None).

(** The frame of a window observed by pixels. *)
Definition set_native_frame (session_id : string) (window_state_id : option string)
    (frame : WindowFrame.ComputerUseWindowFrameRequest) (mutation_generation : Z)
    : host_op value :=
  run? host_check (require_window_frame_grant session_id) in
  do? state_id := lift (frame_state_id window_state_id) in
  run? await_input_turn world in
  run? revalidate_queued_window_mutation world in
  run? ensure_not_interrupted world in
  run? require_generation mutation_generation
    "frame mutation was interrupted while awaiting its trusted queue or lease" in
  run? host_check (require_window_frame_grant session_id) in
  core_error (sensitive world (CoreOp.SetWindowFrameFromNativeState state_id frame)).

Definition handle_set_window_frame (session_id : string) (window_state_id : option string)
    (frame : WindowFrame.ComputerUseWindowFrameRequest) (mutation_generation : Z)
    : host_op response :=
  do? mode := host_read HS.observation_mode in
  if mode == PixelsOnly then
    do? result := consume_evidence
      (map_error native_frame_pre_dispatch_failure
         (set_native_frame session_id window_state_id frame mutation_generation)) in
    do? result := lift result in
    let state := result.["state"] in
    run? observe_target_state_now world state in
    ret (frame_response session_id result (Some state))
  else if is_some window_state_id
  then lift (computer_use_error ComputerUseErrorCode.InvalidAction
    "native window_state_id is reserved for explicit pixels_only frame mutations")
  else
    run? lift (rmap_err HostError.ComputerUse (validate_window_frame frame)) in
    run? await_input_turn world in
    do? result := mutation (CoreOp.SetWindowFrame frame) in
    ret (frame_response session_id result None).

(** The path was validated before the session was authorized. *)
Definition handle_invoke_menu (session_id : string) (request : Menu.ComputerUseMenuRequest)
    : host_op response :=
  run? granted HS.allow_menu_invoke HostProtocolErrorCode.MenuInvokeNotGranted
         "native menu invocation" in
  run? await_input_turn world in
  do? result := mutation (CoreOp.InvokeMenu request) in
  ret (session_response "menu_invoked" session_id result).

(** ** Capture preparation *)

Definition clear_preparation_image (self : HS.HostSession) : HS.HostSession :=
  self <| HS.latest_preparation_image := None |>.

Definition begin_preparation (session_id : string)
    (request : BeginRequest.CapturePreparationBeginRequest) (generation : Z)
    : host_op value :=
  run? host_check (require_capture_preparation_grant session_id "capture_preparation_begin") in
  run? await_input_turn world in
  run? revalidate_queued_window_mutation world in
  run? require_generation generation
    "capture preparation was interrupted while awaiting its trusted queue or lease" in
  do? authorization := host_check
    (require_capture_preparation_grant session_id "capture_preparation_begin") in
  do? lease := host_read HS.task_authorization in
  match lease with
  | None => Effects.panic
  | Some lease =>
      let expires := Lease.expires_at_unix_ms lease in
      do? now := ask world UnixMillis in
      let authorization :=
        {| PrepAuth.journal_directory := PrepAuth.journal_directory authorization;
           PrepAuth.max_lifetime_ms := Z.min (PrepAuth.max_lifetime_ms authorization)
                                         (saturating_sub expires now) |} in
      core_error (sensitive world
        (CoreOp.CapturePreparationBegin request authorization expires))
  end.

(** [capture_preparation::begin] after its authorization. *)
Definition handle_preparation_begin (session_id : string)
    (request : BeginRequest.CapturePreparationBeginRequest) (generation : Z)
    : host_op response :=
  do? result := consume_evidence (begin_preparation session_id request generation) in
  run? host_modify clear_preparation_image in
  do? result := lift result in
  ret (session_response "capture_preparation_begin" session_id result).

(** [capture_preparation::state]. *)
Definition handle_preparation_state (session_id : string) : host_op response :=
  run? host_check (require_capture_preparation_grant session_id "capture_preparation_state") in
  do? result := core_error (sensitive world CoreOp.CapturePreparationState) in
  ret (session_response "capture_preparation_state" session_id result).

(** [capture_preparation::stop]. *)
Definition handle_preparation_stop (session_id : string) (generation : Z)
    : host_op response :=
  run? host_check (require_capture_preparation_grant session_id "capture_preparation_stop") in
  run? await_input_turn world in
  run? revalidate_queued_window_mutation world in
  run? require_generation generation
    "capture preparation stop was interrupted while awaiting its trusted queue or lease" in
  run? host_check (require_capture_preparation_grant session_id "capture_preparation_stop") in
  do? result := attempt (mutation CoreOp.CapturePreparationStop) in
  run? host_modify clear_preparation_image in
  do? result := lift result in
  ret (session_response "capture_preparation_stop" session_id result).

(** The image a session holds for its preparation. *)
Definition preparing {A}
    (m : eff (M * option SharedImage.Descriptor.SharedImageDescriptor) HostError.HostError A)
    : host_op A :=
  silent (on_part (fun t => (t.1, HS.latest_preparation_image t.2))
    (fun s t => (s.1, t.2 <| HS.latest_preparation_image := s.2 |>)) m).

(** Prepared pixels carry nothing an action could use. *)
Definition passive_preparation_snapshot_response (session_id : string) (metadata : value)
    (image : Prepared.PreparedImageTransport) : hresult response :=
  if negb (is_bool metadata.["passive"] true)
     || negb (is_bool metadata.["input_authorized"] false)
     || existsb (fun key => is_some (get metadata key))
          ["observation_id"; "accessibility_state_id"; "element_token"; "window_state_id"]
  then Err (HostError.Protocol
    "prepared pixels cannot publish an actionable observation or input token")
  else Ok (Object
    [("type", Str "capture_preparation_snapshot"); ("session_id", Str session_id);
     ("passive", Bool true); ("input_authorized", Bool false); ("metadata", metadata);
     ("image", unwrap_or (Prepared.primary image) Null);
     ("images", Array (Prepared.attachments image));
     ("use_shared_memory", Bool (Prepared.use_shared_memory image))],
    Prepared.attachment image).

(** [capture_preparation::snapshot]. *)
Definition handle_preparation_snapshot (session_id : string) (mode : SnapshotTransport)
    : host_op response :=
  run? host_check
    (require_capture_preparation_grant session_id "capture_preparation_snapshot") in
  do? result := attempt (sensitive world CoreOp.CapturePreparationSnapshot) in
  run? host_modify invalidate_observations in
  do? (image, metadata) := lift (rmap_err HostError.ComputerUse result) in
  do? uuid := ask world FreshUuid in
  do? now := ask world UnixSeconds in
  do? prepared := preparing (prepare_image_transport uuid now [image] mode) in
  lift (passive_preparation_snapshot_response session_id metadata prepared).
End Mutations.
