(* ===== verification/WindowQueries.v ===== *)
(** * The queries of an open window and the waits on it
    ([crates/dcc-cua-host/src/request_handler.rs], [crates/dcc-cua-host/src/wait.rs])

    Finding elements in the cached tree, waiting for a condition, the state and the health
    of a session, its events, its cursor, its escalation and its end.  The loops carry the
    milliseconds that remain until their deadline. *)

From S2P Require Import Prelude Records Effects Calls RustStr Json Protocol Errors.
From S2P Require Import Contracts TargetPolicy InputState SessionEvents SessionHealth.
From S2P Require Import HostAction Confirmation Platform TaskGrant TaskAuthorization.
From S2P Require Import Request SecretVault RuntimeSession HostSession Images WindowWorld.
From S2P Require Import WindowRequests.

Import CoreOp (core_op).

Definition session_health_state_changed (evidence_epoch_before : Epoch)
    (transition_sequence_before : Z) (action_evidence_epoch : Epoch)
    (transition_sequence : Z) : bool :=
  (evidence_epoch_before != action_evidence_epoch)
  || negb (transition_sequence_before =? transition_sequence).

(** [wait.rs]. *)
Definition cancelled_response (session_id : string) (elapsed : Z) : value :=
  Object [("type", Str "wait_cancelled"); ("success", Bool false);
          ("session_id", Str session_id); ("error_code", Str "cancelled");
          ("elapsed_ms", Number (PosInt elapsed))].

Definition timeout_response (session_id : string) (condition : WaitCondition.WaitCondition)
    (elapsed : Z) : value :=
  Object [("type", Str "wait_completed"); ("success", Bool false);
          ("session_id", Str session_id); ("condition", Str (WaitCondition.kind condition));
          ("error_code", Str "timeout"); ("elapsed_ms", Number (PosInt elapsed))].

Definition matched_response (session_id : string) (condition : WaitCondition.WaitCondition)
    (elapsed : Z) : value :=
  Object [("type", Str "wait_completed"); ("success", Bool true);
          ("session_id", Str session_id); ("condition", Str (WaitCondition.kind condition));
          ("elapsed_ms", Number (PosInt elapsed))].

Section Queries.
Context {M : Type} `{P : Platform}.
Context `{DL : !Digestible UnsignedLease.UnsignedTaskAuthorizationLeaseValidationRequest}.
Context `{WF : WireFormat}.
Context (world : oracle window_call).

Abbreviation window_op E A := (eff (history window_call * (M * HS.HostSession)) E A).
Abbreviation host_op A := (window_op HostError.HostError A).

(** What a cached tree is worth without a usable target. *)
Definition cached_target_refusal (self : HS.HostSession)
    (status : ComputerUseTargetStatus.t) : cresult unit :=
  let input := Q.input_current (HS.input_events self) in
  if InS.status input == ComputerUseInputStatus.Suspended
  then Err (cached_target_pre_dispatch_refusal
    ComputerUseErrorCode.InteractiveDesktopUnavailable
    (unwrap_or (InS.reason input) "interactive desktop is unavailable"))
  else match status with
  | ComputerUseTargetStatus.Available => Ok tt
  | ComputerUseTargetStatus.Minimized => Err (cached_target_pre_dispatch_refusal
      ComputerUseErrorCode.TargetMinimized
      "the exact target is minimized and cached accessibility evidence is stale")
  | ComputerUseTargetStatus.Unavailable => Err (cached_target_pre_dispatch_refusal
      ComputerUseErrorCode.TargetUnavailable
      "the exact target is unavailable and cached accessibility evidence is stale")
  end.

Definition finish_target_sensitive_cached_read
    (availability : cresult Avl.ComputerUseTargetAvailability) : window_op cerror unit :=
  do? availability := finish world availability in
  run? observe_availability_now world availability in
  host_check (fun self => cached_target_refusal self (Avl.status availability)).

(** The query was validated before the session was authorized. *)
Definition handle_find (query : FindQuery.FindQuery) (max_results : Z) : host_op response :=
  run? refresh_input_readiness_now world in
  do? availability := call_core world CoreOp.TargetAvailability in
  run? core_error (finish_target_sensitive_cached_read availability) in
  do? root := host_check (fun self => ok_or (HS.latest_accessibility_root self)
    (HostError.ComputerUse (ComputerUseError.new ComputerUseErrorCode.StaleObservation
       "take a snapshot before finding accessibility elements"))) in
  do? state_id := host_check (fun self => ok_or (HS.latest_accessibility_state_id self)
    (HostError.ComputerUse (ComputerUseError.new ComputerUseErrorCode.StaleObservation
       "accessibility state is unavailable; take a snapshot first"))) in
  do? target := require_target in
  ret (Object
    [("type", Str "find_results"); ("accessibility_state_id", Str state_id);
     ("target", target_wire target);
     ("matches", Array (find_elements root query max_results));
     ("node_count", node_count root)], None).

Definition abandon_probe : host_op unit := host (update abandon_wait_probe).

Definition elapsed_since (started : Z) : host_op Z :=
  do? now := ask world Monotonic in ret (now - started).

(** A round of the loop of [handle_wait_for]. *)
Definition wait_round (session_id : string) (condition : WaitCondition.WaitCondition)
    (interval started remaining : Z) : host_op (Z + response) :=
  let timed_out :=
    do? elapsed := elapsed_since started in
    ret (inr (timeout_response session_id condition elapsed, None)) in
  let cancelled :=
    do? elapsed := elapsed_since started in
    ret (inr (cancelled_response session_id elapsed, None)) in
  run? ensure_not_interrupted world in
  do? session := host_read HS.session in
  do? (outcome, session) := ask world (ProbeUntilDeadline 5000 25 remaining session) in
  run? host_modify (fun self => self <| HS.session := session |>) in
  match outcome with
  | Cancelled_ => run? abandon_probe in cancelled
  | TimedOut_ => run? abandon_probe in timed_out
  | Completed_ (result, took) =>
      let remaining := remaining - took in
      do? root := core_error (finish world result) in
      run? ensure_not_interrupted world in
      if wait_condition_matches root condition then
        do? elapsed := elapsed_since started in
        ret (inr (matched_response session_id condition elapsed, None))
      else
        do? slept := ask world (SleepUntilDeadline interval remaining) in
        match slept with
        | Cancelled_ => cancelled
        | TimedOut_ => timed_out
        | Completed_ slept => ret (inl (remaining - slept))
        end
  end.

(** A loop that ran out of fuel; [window_waits_end] shows that none does. *)
Definition ended {A} (m : host_op (option A)) : host_op A :=
  do? out := m in
  match out with Some a => ret a | None => Effects.panic end.

(** One round per interval that fits before the deadline, and a last one. *)
Definition wait_rounds (timeout_ms interval_ms : Z) : nat :=
  S (S (Z.to_nat (timeout_ms / interval_ms))).

Definition handle_wait_for (session_id : string) (condition : WaitCondition.WaitCondition)
    (timeout_ms interval_ms : Z) : host_op response :=
  do? started := ask world Monotonic in
  ended (loop (wait_rounds timeout_ms interval_ms)
    (wait_round session_id condition interval_ms started) timeout_ms).

Definition handle_resume_session (session_id : string) : host_op response :=
  do? result := call_core world CoreOp.ResumeAfterUserApproval in
  run? lift (rmap_err HostError.ComputerUse result) in
  ret (Object [("type", Str "session_resumed"); ("session_id", Str session_id)], None).

Definition handle_get_session_state (session_id : string) : host_op response :=
  do? state := core_error (sensitive world CoreOp.SessionState) in
  ret (Object [("type", Str "session_state"); ("session_id", Str session_id);
               ("state", state)], None).

Definition handle_get_input_state (session_id : string) : host_op response :=
  run? refresh_input_readiness_now world in
  run? probe_target world in
  do? events := host_read HS.input_events in
  ret (Object
    [("type", Str "input_state"); ("session_id", Str session_id);
     ("state", input_state_json (Q.input_current events));
     ("target_state", target_state_json (Q.target_current events));
     ("latest_sequence", Number (PosInt (Q.latest_sequence events)))], None).

Definition refresh_session_health_input_and_target : host_op bool :=
  run? refresh_input_readiness_now world in
  probe_target world.

Definition recording_health (policy : Policy.ComputerUseSessionHealthPolicy)
    : host_op Recording.ComputerUseRecordingHealth :=
  do? allowed := host_read HS.allow_recording in
  if allowed : bool then
    do? state := call_core world CoreOp.RecordingState in
    do? state := attempt (finish world state) in
    do? metadata := ask world RecordingMetadata in
    ret (match state with
         | Ok state => from_state metadata true state policy
         | Err _ => from_state metadata true Null policy
         end)
  else
    do? metadata := ask world RecordingMetadata in
    ret (from_state metadata false Null policy).

Definition is_stopped_or_failing (self : HS.HostSession) : bool :=
  HS.interrupted self || control_banner_interrupted (HS.session self)
  || is_some (control_banner_failure (HS.session self)).

Definition handle_session_health (session_id : string)
    (policy : Policy.ComputerUseSessionHealthPolicy) : host_op response :=
  do? before := host_read id in
  do? failed_first := refresh_session_health_input_and_target in
  do? recording := recording_health policy in
  do? failed_last := refresh_session_health_input_and_target in
  run? refresh_banner world in
  do? self := host_read id in
  let epoch := CS.action_evidence_epoch (HS.session self) in
  let sequence := Q.latest_sequence (HS.input_events self) in
  let evaluation :=
    {| Evaluation.policy := policy;
       Evaluation.input_state := Q.input_current (HS.input_events self);
       Evaluation.target_state := Q.target_current (HS.input_events self);
       Evaluation.recording := recording;
       Evaluation.action_evidence_epoch := epoch;
       Evaluation.transition_sequence := sequence;
       Evaluation.state_changed_during_probe :=
         session_health_state_changed (CS.action_evidence_epoch (HS.session before))
           (Q.latest_sequence (HS.input_events before)) epoch sequence;
       Evaluation.interrupted := is_stopped_or_failing self;
       Evaluation.target_probe_failed := failed_first || failed_last |} in
  match evaluate evaluation with
  | Err _ => Effects.panic
  | Ok health =>
      ret (Object [("type", Str "session_health"); ("session_id", Str session_id);
                   ("health", health_json health)], None)
  end.

(** [session_events_response]. *)
Definition session_events_response (session_id : string)
    (page : Page.ComputerUseSessionEventsPage) : hresult value :=
  let? response := rmap_err HostError.Protocol (events_page_json page) in
  Ok (set_index (set_index response "type" (Str "session_events"))
        "session_id" (Str session_id)).

(** A page that holds something is not a page that timed out. *)
Definition settle_page (page : Page.ComputerUseSessionEventsPage)
    : Page.ComputerUseSessionEventsPage :=
  if Page.resync_required page || negb (len (Page.events page) =? 0)
  then {| Page.after_sequence := Page.after_sequence page;
          Page.latest_sequence := Page.latest_sequence page;
          Page.oldest_available_sequence := Page.oldest_available_sequence page;
          Page.resync_required := Page.resync_required page;
          Page.timed_out := false;
          Page.current_state := Page.current_state page;
          Page.current_target_state := Page.current_target_state page;
          Page.events := Page.events page |}
  else page.

Definition page_is_ready (page : Page.ComputerUseSessionEventsPage) : bool :=
  Page.timed_out page || Page.resync_required page || negb (len (Page.events page) =? 0).

(** A round of [poll_session_events]; the session it looks up in every round is the same
    one, for nothing else runs on the connection. *)
Definition poll_round (session_id : string) (after_sequence remaining : Z)
    : host_op (Z + response) :=
  run? ensure_not_interrupted world in
  run? refresh_input_readiness_now world in
  run? probe_target world in
  do? events := host_read HS.input_events in
  let page := settle_page (page_after events after_sequence (remaining <=? 0)) in
  if page_is_ready page then
    do? response := lift (session_events_response session_id page) in
    ret (inr (response, None))
  else
    do? passed := ask world Elapsed in
    let remaining := saturating_sub remaining passed in
    do? slept := ask world (Sleep (interrupt_poll_slice remaining)) in
    ret (inl (saturating_sub remaining slept)).

(** One round per started slice of 50 milliseconds, and a last one. *)
Definition poll_rounds (timeout : Z) : nat := S (S (Z.to_nat (timeout / 50))).

Definition handle_poll_session_events (session_id : string)
    (after_sequence timeout : Z) : host_op response :=
  ended (loop (poll_rounds timeout) (poll_round session_id after_sequence) timeout).

(** [wait_for_window_post_snapshot_delay]. *)
Definition delay_round (remaining : Z) : host_op (Z + unit) :=
  run? ensure_not_interrupted world in
  do? passed := ask world Elapsed in
  let remaining := saturating_sub remaining passed in
  if remaining <=? 0 then ret (inr tt)
  else
    do? slept := ask world (Sleep (interrupt_poll_slice remaining)) in
    ret (inl (saturating_sub remaining slept)).

Definition wait_for_window_post_snapshot_delay (delay : Z) : host_op unit :=
  ended (loop (poll_rounds delay) delay_round delay).

Definition handle_cursor_tool (session_id tool : string) (arguments : value)
    : host_op response :=
  run? await_input_turn world in
  do? result := core_error (sensitive world (CoreOp.CursorTool tool arguments)) in
  do? session := host_read HS.session in
  do? marker := ask world (MarkerStatus session) in
  ret (Object
    [("type", Str "cursor_tool_result"); ("session_id", Str session_id);
     ("tool", Str tool); ("result", result); ("marker", marker)], None).

Definition handle_escalate_session (session_id reason : string) (detail : option string)
    : host_op response :=
  run? granted HS.allow_session_escalation HostProtocolErrorCode.SessionEscalationNotGranted
         "session escalation" in
  respond_with world "session_escalated" session_id (CoreOp.Escalate reason detail).
End Queries.

(** ** The loops end *)

(** A world in which waiting takes time: a sleep at least as long as it was asked to, and
    never past the deadline it is given. *)
Record waits_take_time (world : oracle window_call) : Prop := {
  sleep_in_full h d : d <= world _ h (Sleep d);
  elapsed_forward h : 0 <= world _ h Elapsed;
  sleep_before_deadline h interval remaining slept :
    world _ h (SleepUntilDeadline interval remaining) = Completed_ slept ->
    interval <= slept <= remaining;
  probe_forward h nodes depth remaining session answer took session' :
    world _ h (ProbeUntilDeadline nodes depth remaining session)
      = (Completed_ (answer, took), session') -> 0 <= took;
}.

Section Waits.
Context {M : Type} `{P : Platform}.
Context `{DL : !Digestible UnsignedLease.UnsignedTaskAuthorizationLeaseValidationRequest}.
Context `{WF : WireFormat}.
Context (world : oracle window_call) (Htime : waits_take_time world).

(** The slices of 50 milliseconds that are left. *)
Definition slices (remaining : Z) : nat := Z.to_nat ((remaining + 49) / 50).

Lemma wait_round_shortens session_id condition interval started remaining s remaining' s' :
  0 < interval ->
  wait_round (M := M) world session_id condition interval started remaining s
    = Some (Ok (inl remaining'), s') ->
  (Z.to_nat (remaining' / interval) < Z.to_nat (remaining / interval))%nat.
Proof using Htime.
  intros Hi. unfold wait_round.
  intros ([] & [h1 t1] & _ & H)%bind_ok.
  apply bind_ok in H as (session & [h2 t2] & _ & H).
  apply bind_ok in H as ([outcome session'] & [h3 t3] & Hp & H).
  injection Hp as Hp _ _. apply bind_ok in H as ([] & [h4 t4] & _ & H).
  destruct outcome as [| |[result took]].
  1-2: repeat (apply bind_ok in H as (? & ? & _ & H)); by injection H.
  apply (probe_forward _ Htime) in Hp.
  apply bind_ok in H as (root & [h5 t5] & _ & H).
  apply bind_ok in H as ([] & [h6 t6] & _ & H).
  destruct (wait_condition_matches _ _).
  { repeat (apply bind_ok in H as (? & ? & _ & H)); by injection H. }
  apply bind_ok in H as (slept & [h7 t7] & Hs & H). injection Hs as Hs _ _.
  destruct slept as [| |slept].
  1-2: repeat (apply bind_ok in H as (? & ? & _ & H)); by injection H.
  apply (sleep_before_deadline _ Htime) in Hs. injection H as <- _.
  assert ((remaining - took - slept) / interval <= (remaining - interval) / interval)
    by (apply Z.div_le_mono; lia).
  replace (remaining - interval) with (remaining + (-1) * interval) in * by lia.
  rewrite Z.div_add in * by lia.
  assert (1 <= remaining / interval) by (apply Z.div_le_lower_bound; lia). lia.
Qed.

(** A slice that was slept in full is one slice less. *)
Lemma slice_shortens remaining passed slept :
  0 < remaining -> 0 <= passed ->
  interrupt_poll_slice (saturating_sub remaining passed) <= slept ->
  (slices (saturating_sub (saturating_sub remaining passed) slept) < slices remaining)%nat.
Proof.
  unfold slices, saturating_sub, interrupt_poll_slice. intros Hr Hp Hs.
  assert (Hle : (Z.max 0 (Z.max 0 (remaining - passed) - slept) + 49) / 50
                <= (Z.max 0 (remaining - 50) + 49) / 50) by (apply Z.div_le_mono; lia).
  destruct (Z.le_gt_cases remaining 50).
  - replace (Z.max 0 (remaining - 50)) with 0 in Hle by lia. change ((0 + 49) / 50) with 0 in Hle.
    assert (1 <= (remaining + 49) / 50) by (apply Z.div_le_lower_bound; lia). lia.
  - rewrite (Z.max_r 0 (remaining - 50)) in Hle by lia.
    replace (remaining - 50 + 49) with (remaining + 49 + (-1) * 50) in Hle by lia.
    rewrite Z.div_add in Hle by lia.
    assert (1 <= (remaining + 49) / 50) by (apply Z.div_le_lower_bound; lia). lia.
Qed.

Lemma poll_round_shortens session_id after_sequence remaining s remaining' s' :
  poll_round (M := M) world session_id after_sequence remaining s
    = Some (Ok (inl remaining'), s') ->
  (slices remaining' < slices remaining)%nat.
Proof using Htime.
  unfold poll_round. intros ([] & s1 & _ & H)%bind_ok.
  apply bind_ok in H as ([] & s2 & _ & H). apply bind_ok in H as (probe & s3 & _ & H).
  apply bind_ok in H as (events & [h4 t4] & _ & H).
  destruct (page_is_ready _) eqn:Er.
  { by apply bind_ok in H as (? & ? & _ & H). }
  assert (0 < remaining).
  { destruct (Z.leb_spec remaining 0) as [Hz|]; [|lia]. exfalso. revert Er.
    unfold page_is_ready, settle_page. replace (remaining <=? 0) with true by lia.
    set (page := page_after events after_sequence true).
    assert (Ht : Page.timed_out page = negb (Page.resync_required page)) by done.
    clearbody page. destruct (Page.resync_required page) eqn:E1; simpl; [done|].
    destruct (negb (len (Page.events page) =? 0)) eqn:E2; simpl; rewrite ?E1, ?E2, ?Ht; done. }
  apply bind_ok in H as (passed & [h5 t5] & Hp & H). injection Hp as Hp _ _.
  apply bind_ok in H as (slept & [h6 t6] & Hs & H). injection Hs as Hs _ _.
  injection H as <- _. subst. apply slice_shortens; [done | by apply Htime | by apply Htime].
Qed.

Lemma delay_round_shortens remaining s remaining' s' :
  delay_round (M := M) world remaining s = Some (Ok (inl remaining'), s') ->
  (slices remaining' < slices remaining)%nat.
Proof using Htime.
  unfold delay_round. intros ([] & [h1 t1] & _ & H)%bind_ok.
  apply bind_ok in H as (passed & [h2 t2] & Hp & H). injection Hp as Hp _ _.
  destruct (_ <=? 0) eqn:Ez; [done|].
  apply bind_ok in H as (slept & [h3 t3] & Hs & H). injection Hs as Hs _ _.
  injection H as <- _. assert (0 <= passed) by (subst; by apply Htime).
  apply slice_shortens; [unfold saturating_sub in Ez; lia | done | subst; by apply Htime].
Qed.

Lemma slices_fit timeout fuel :
  0 <= timeout -> (poll_rounds timeout <= fuel)%nat -> (slices timeout < fuel)%nat.
Proof.
  unfold poll_rounds, slices. intros Ht Hf.
  assert ((timeout + 49) / 50 <= timeout / 50 + 1).
  { rewrite <- Z.div_add by lia. apply Z.div_le_mono; lia. }
  assert (0 <= timeout / 50) by (apply Z.div_pos; lia). lia.
Qed.

(** What is left of a loop when its rounds suffice: it has ended, and more rounds would
    change nothing. *)
Definition ends_within {S E A B} (rounds : nat) (round : A -> eff S E (A + B)) (a : A) : Prop :=
  forall fuel s, (rounds <= fuel)%nat ->
    loop fuel round a s = loop rounds round a s
    /\ forall s', loop fuel round a s <> Some (Ok None, s').

Lemma measure_ends {S E A B} (round : A -> eff S E (A + B)) (measure : A -> nat) rounds a :
  (forall a s a' s', round a s = Some (Ok (inl a'), s') -> (measure a' < measure a)%nat) ->
  (measure a < rounds)%nat -> ends_within rounds round a.
Proof.
  intros Hm Hr fuel s Hf. split; [apply (loop_enough _ measure); auto; lia|].
  intros s'. apply (loop_ends _ measure); auto; lia.
Qed.

(** C28: the loops of a window session end.  In a world in which waiting takes time,
    [handle_wait_for] with the interval and the timeout of a validated condition,
    [poll_session_events] and the delay before a second snapshot have an answer after at
    most one round per interval, or per started slice of 50 milliseconds, of their
    timeout and two more; whatever the core, the desktop and the banner do in between, no
    further round follows. *)
Theorem window_waits_end session_id condition timeout_ms interval_ms started after_sequence
    timeout :
  validate_wait condition = Ok (timeout_ms, interval_ms) -> 0 <= timeout ->
  ends_within (wait_rounds timeout_ms interval_ms)
    (wait_round (M := M) world session_id condition interval_ms started) timeout_ms
  /\ ends_within (poll_rounds timeout)
       (poll_round (M := M) world session_id after_sequence) timeout
  /\ ends_within (poll_rounds timeout) (delay_round (M := M) world) timeout.
Proof using Htime.
  intros Hv Ht. split_and!.
  - apply (measure_ends _ (fun remaining => Z.to_nat (remaining / interval_ms)));
      [|unfold wait_rounds; lia].
    intros * H. eapply wait_round_shortens; [|exact H].
    unfold validate_wait in Hv. do 3 apply guard_ok in Hv as [_ Hv]. injection Hv.
    unfold clamp. lia.
  - apply (measure_ends _ slices); [|by apply slices_fit].
    intros * H. by eapply poll_round_shortens.
  - apply (measure_ends _ slices); [|by apply slices_fit].
    intros * H. by eapply delay_round_shortens.
Qed.
End Waits.
