(* ===== verification/WindowActions.v ===== *)
(** * Actions in an open window
    ([crates/dcc-cua-host/src/request_handler.rs], [request_handler/confirmation_evidence.rs],
     [crates/dcc-cua-host/src/secret_vault.rs])

    The execution of an action: the grant and the evidence it needs, the confirmation or
    the lease that authorizes it, the evidence refreshed after a confirmation, the secret
    it resolves, its turn in the queue of physical input, and the observation after it.
    With it the two other uses of a confirmation: taking a secret from the clipboard and
    typing one into a page. *)

From S2P Require Import Prelude Records Effects Calls RustStr Json Protocol Errors.
From S2P Require Import Contracts TargetPolicy HostAction Confirmation Platform.
From S2P Require Import TaskGrant TaskAuthorization Request SecretVault RuntimeSession.
From S2P Require Import BrowserEvidence BrowserSession HostSession Images WindowWorld.
From S2P Require Import WindowRequests WindowMutations WindowQueries.
From S2P Require SharedImage DesktopSession.

Import CoreOp (core_op).

(** ** The evidence of a confirmed action *)

Inductive ConfirmedActionEvidenceRefresh : Type :=
| NotRequired | AccessibilityObservation | FreshSnapshotRequired.

#[export] Instance ConfirmedActionEvidenceRefresh_eq_dec :
  EqDecision ConfirmedActionEvidenceRefresh.
Proof. solve_decision. Defined.

Definition confirmed_action_evidence_refresh (action : HA.HostAction) (refresh_due : bool)
    : ConfirmedActionEvidenceRefresh :=
  if negb refresh_due then NotRequired
  else if (HA.input_kind action == "raw_input")
          && (HA.action action ∈? ["type"; "type_chars"])
          && is_none (HA.element_index action) && is_none (HA.element_token action)
          && is_none (HA.x action) && is_none (HA.y action) && is_empty (HA.path action)
  then AccessibilityObservation
  else FreshSnapshotRequired.

(** What the user is asked about: the action and its category. *)
Definition confirmed_value (action_value : value) (category : string) : value :=
  set_index action_value "authorization_category" (Str category).

Definition same_exact_target (expected : Window.ConfirmationWindowIdentity)
    (observation : Observation.ComputerUseObservation) : bool :=
  (Observation.process_id observation =? Window.process_id expected)
  && (Observation.window_handle observation =? Window.window_handle expected).

Definition same_geometry (previous refreshed : Observation.ComputerUseObservation) : bool :=
  (Observation.session_id previous == Observation.session_id refreshed)
  && (Observation.source_rect previous == Observation.source_rect refreshed)
  && (Observation.width previous =? Observation.width refreshed)
  && (Observation.height previous =? Observation.height refreshed).

Definition rebind_confirmed_action_evidence `{WF : WireFormat} (action : HA.HostAction)
    (confirmed_action_value : value) (expected_target : Window.ConfirmationWindowIdentity)
    (previous refreshed : Observation.ComputerUseObservation)
    (refreshed_accessibility_root : value) : cresult string :=
  let category := authorization_category action (Some refreshed_accessibility_root) in
  let? action_value := rmap_err (fun error =>
      ComputerUseError.new ComputerUseErrorCode.InvalidAction
        ("could not revalidate confirmed action identity: " +:+ error))
    (action_json action) in
  let same_action_scope :=
    value_eqb (confirmed_value action_value category) confirmed_action_value
    && (safety_tier action (Some refreshed_accessibility_root) == ActionConfirmation)
    && (category ∈? ["raw_input"; "credential"]) in
  if negb (same_exact_target expected_target previous
           && same_exact_target expected_target refreshed)
     || negb (same_geometry previous refreshed) || negb same_action_scope
  then Err (cached_target_pre_dispatch_refusal ComputerUseErrorCode.StaleObservation
    "the exact target or approved action scope changed while waiting for confirmation")
  else Ok (Observation.observation_id refreshed).

Definition require_keyboard_raw_input_grant (action : HA.HostAction) (allow_raw_input : bool)
    : hresult unit :=
  if uses_physical_keyboard action && negb allow_raw_input
  then Err (denied HostProtocolErrorCode.RawInputNotGranted "raw input")
  else Ok tt.

(** ** Data *)

(** [HostSecurityServices], and how its confirmation host was given. *)
Module HostSecurityServices.
Record HostSecurityServices : Type := {
  extension_transport_only : bool;
  confirmation_host : option TrustedActionConfirmationHost;
  task_authorization_host : option AuthHost.TrustedTaskAuthorizationHost;
  has_vault : bool;
}.
End HostSecurityServices.

Module Services := HostSecurityServices.

(** The fields of [Request::ExecuteAction]. *)
Module WindowAction.
Record WindowAction : Type := {
  session_id : string;
  task_grant_id : string;
  window_capability : string;
  observation_id : string;
  accessibility_state_id : string;
  action : HA.HostAction;
  capture_after : bool;
  post_snapshot_max_depth : Z;
  post_snapshot_max_nodes : Z;
  post_snapshot_mode : PostSnapshotMode;
}.
End WindowAction.

Module WA := WindowAction.

(** [BoundSecretRequest::confirmation_binding]. *)
Definition confirmation_binding (session_id task_grant_id window_capability : string)
    (host : HS.HostSession) (observation_id : string) (accessibility_state_id : option string)
    : Binding.ConfirmationBinding :=
  Binding.window session_id task_grant_id window_capability
    {| Window.process_id := HS.target_process_id host;
       Window.window_handle := HS.target_window_handle host |}
    observation_id accessibility_state_id.

Section Actions.
Context {M : Type} `{SM : SharedImage.SharedMemory M} `{P : Platform}.
Context `{DL : !Digestible UnsignedLease.UnsignedTaskAuthorizationLeaseValidationRequest}.
Context `{DV : !Digestible UnsignedVal.UnsignedTaskAuthorizationValidationRequest}.
Context `{WF : WireFormat} `{BF : BrowserFiles}.
Context (world : oracle window_call) (services : Services.HostSecurityServices).

Abbreviation window_op E A := (eff (history window_call * (M * HS.HostSession)) E A).
Abbreviation host_op A := (window_op HostError.HostError A).

(** A confirmation request, and who decides on it: the lease if there is one, the user
    otherwise. *)
Definition decide (confirmation : Req.TrustedActionConfirmationRequest)
    : host_op ActionConfirmationOutcome :=
  do? now := ask world UnixMillis in
  do? uuid := ask world FreshUuid in
  do? self := host_read id in
  ret (authorize_window_confirmation now uuid (Services.task_authorization_host services)
         (Services.confirmation_host services) (HS.task_authorization self)
         (HS.allow_trusted_confirmation self) confirmation).

Definition confirm (binding : HS.HostSession -> Binding.ConfirmationBinding)
    (intent : string) (action : value) : host_op ActionConfirmationOutcome :=
  do? uuid := ask world FreshUuid in
  do? confirmation := host_check (fun self =>
    for_bound_window_action_value confirmation_digest uuid (binding self) intent action) in
  decide confirmation.

(** [action_confirmation_refusal(outcome)]. *)
Definition refusal_response (outcome : ActionConfirmationOutcome) : host_op response :=
  match action_confirmation_refusal outcome with
  | Some (error, message) =>
      ret (DesktopSession.action_refused "action_confirmation" message error)
  | None => Effects.panic
  end.

(** *** Before the action *)

(** The grant and the evidence. *)
Definition check_action (request : WA.WindowAction) (self : HS.HostSession) : hresult unit :=
  let action := WA.action request in
  check? (if (HA.input_kind action == "raw_input") && negb (HS.allow_raw_input self)
          then Err (denied HostProtocolErrorCode.RawInputNotGranted "raw input")
          else Ok tt) in
  check? rmap_err HostError.ComputerUse (validate_secret_source action) in
  check? (if HS.observation_mode self == PixelsOnly then
            check? require_pixels_input_grant (WA.session_id request) action self in
            if WA.capture_after request && (WA.post_snapshot_mode request == Request.Semantic)
            then computer_use_error ComputerUseErrorCode.InvalidAction
              "pixels_only input cannot request a semantic post-action observation"
            else Ok tt
          else Ok tt) in
  check? require_latest_observation (WA.observation_id request) self in
  if (is_some (HA.element_index action) || is_some (HA.element_token action))
     && (HS.latest_accessibility_state_id self != Some (WA.accessibility_state_id request))
  then computer_use_error ComputerUseErrorCode.StaleObservation
    "semantic action requires the latest accessibility_state_id"
  else Ok tt.

(** The tree is read again after a confirmation that took too long for the session. *)
Definition refresh_confirmed_evidence (request : WA.WindowAction) (confirmed : value)
    (previous : Observation.ComputerUseObservation) : host_op string :=
  do? root := core_error (sensitive world (CoreOp.AccessibilitySnapshot
    (WA.post_snapshot_max_nodes request) (WA.post_snapshot_max_depth request))) in
  do? refreshed := host_check (fun self => ok_or (latest_observation self)
    (HostError.Protocol "confirmed action evidence refresh returned no observation")) in
  do? self := host_read id in
  match rebind_confirmed_action_evidence (WA.action request) confirmed
          {| Window.process_id := HS.target_process_id self;
             Window.window_handle := HS.target_window_handle self |}
          previous refreshed root with
  | Err error =>
      run? host_modify invalidate_observations in
      throw (HostError.ComputerUse error)
  | Ok observation_id =>
      run? host_modify (record_accessibility observation_id root) in
      ret observation_id
  end.

(** The confirmation of an action, and the observation it is performed on. *)
Definition confirm_action (request : WA.WindowAction) (tier : HostActionSafetyTier)
    (category : string) : host_op (ActionConfirmationOutcome * string) :=
  let action := WA.action request in
  do? previous := host_check (fun self => ok_or (latest_observation self)
    (HostError.ComputerUse (ComputerUseError.new ComputerUseErrorCode.StaleObservation
       "take a fresh exact-target observation before requesting confirmation"))) in
  do? action_value := lift (rmap_err (fun error =>
      HostError.Protocol ("could not bind task authorization: " +:+ error))
    (action_json action)) in
  let confirmed := confirmed_value action_value category in
  do? outcome := confirm (fun self =>
    confirmation_binding (WA.session_id request) (WA.task_grant_id request)
      (WA.window_capability request) self (WA.observation_id request)
      (if HS.observation_mode self == TaskGrant.Semantic
       then Some (WA.accessibility_state_id request) else None))
    (HA.intent action) confirmed in
  do? self := host_read id in
  do? now := ask world Monotonic in
  if (outcome == Allowed) && requires_confirmation tier
     && (HS.observation_mode self == TaskGrant.Semantic)
     && (confirmed_action_evidence_refresh action
           (confirmed_action_evidence_refresh_due now (HS.session self))
         == AccessibilityObservation)
  then
    do? observation_id := refresh_confirmed_evidence request confirmed previous in
    ret (outcome, observation_id)
  else ret (outcome, WA.observation_id request).

(** The text of a secret handle comes from the vault. *)
Definition resolve_secret (handle : string) : host_op string :=
  if negb (Services.has_vault services)
  then throw (secret_vault_error VaultUnavailable)
  else
    do? secret := ask world (ResolveSecret handle) in
    lift (rmap_err secret_vault_error secret).

Definition resolve_action_secret (action : HA.HostAction) : host_op HA.HostAction :=
  match HA.secret_handle action with
  | Some handle =>
      do? secret := resolve_secret handle in
      ret (action <| HA.text := Some secret |> <| HA.secret_handle := None |>)
  | None => ret action
  end.

(** [revalidate_queued_action]. *)
Definition revalidate_queued_action : host_op unit :=
  do? self := host_read id in
  if (HS.observation_mode self == PixelsOnly) || is_some (HS.task_authorization self)
  then revalidate_queued_window_mutation world
  else ret tt.

(** The action reaches the core. *)
Definition dispatch_action (action : HA.HostAction) (observation_id : string)
    : host_op NativeResult.ComputerUseToolResult :=
  do? allowed := host_read HS.allow_raw_input in
  run? lift (require_keyboard_raw_input_grant action allowed) in
  do? action := resolve_action_secret action in
  let raw_input := (HA.input_kind action == "raw_input") || uses_physical_keyboard action in
  do? action := lift (rmap_err HostError.ComputerUse
    (into_computer_use action observation_id)) in
  run? (if raw_input : bool then await_input_turn world else ret tt) in
  run? revalidate_queued_action in
  do? result := attempt (sensitive world (CoreOp.PerformAction action)) in
  do? mode := host_read HS.observation_mode in
  run? (if mode == PixelsOnly then host_modify invalidate_observations else ret tt) in
  lift (rmap_err HostError.ComputerUse result).

(** *** After it *)

Definition action_response (session_id action_id message : string)
    (result : NativeResult.ComputerUseToolResult) (mode : SnapshotTransport)
    : host_op response :=
  do? uuid := ask world FreshUuid in
  do? now := ask world UnixSeconds in
  imaging (action_completed_response uuid now session_id action_id message result mode).

(** An action whose observation is missing needs a new one. *)
Definition without_snapshot (session_id action_id message : string) (code reason : value)
    (result : NativeResult.ComputerUseToolResult) (mode : SnapshotTransport)
    : host_op response :=
  run? host_modify clear_native_observation_caches in
  do? (response, attachment) := action_response session_id action_id message result mode in
  ret (DesktopSession.snapshot_missing code reason response, attachment).

(** The failure of a post-action observation. *)
Definition failed_snapshot (session_id action_id message : string) (error : cerror)
    (result : NativeResult.ComputerUseToolResult) (mode : SnapshotTransport)
    : host_op response :=
  without_snapshot session_id action_id message
    (Str (error_code (HostError.ComputerUse error))) (Str (ComputerUseError.message error))
    result mode.

Definition post_snapshot_value (observation : Observation.ComputerUseObservation)
    (root : value) : value :=
  let observation_id := Observation.observation_id observation in
  Object
    [("success", Bool true); ("observation_id", Str observation_id);
     ("accessibility_state_id", Str observation_id);
     ("observation", observation_json observation); ("root", root);
     ("node_count", node_count root)].

Definition finish_with_accessibility (request : WA.WindowAction) (action_id : string)
    (result : NativeResult.ComputerUseToolResult) (mode : SnapshotTransport)
    : host_op response :=
  let session_id := WA.session_id request in
  do? accessibility := attempt (F := HostError.HostError) (sensitive world
    (CoreOp.AccessibilitySnapshot (WA.post_snapshot_max_nodes request)
       (WA.post_snapshot_max_depth request))) in
  match accessibility with
  | Ok accessibility =>
      do? observation := host_check (fun self => ok_or (latest_observation self)
        (HostError.Protocol "semantic post-action snapshot returned no observation")) in
      run? host_modify
        (record_accessibility (Observation.observation_id observation) accessibility) in
      do? (response, attachment) := action_response session_id action_id
        "CUA action completed with a fresh semantic post-action snapshot" result mode in
      ret (set_index response "post_snapshot" (post_snapshot_value observation accessibility),
           attachment)
  | Err error =>
      failed_snapshot session_id action_id
        "CUA action completed, but the semantic post-action snapshot failed" error result mode
  end.

Definition finish_with_screenshot (request : WA.WindowAction) (action_id : string)
    (result : NativeResult.ComputerUseToolResult) (mode : SnapshotTransport)
    : host_op response :=
  let session_id := WA.session_id request in
  do? pixels_only := host_read (fun self => HS.observation_mode self == PixelsOnly) in
  do? screenshot := attempt (F := HostError.HostError) (
    if pixels_only : bool
    then sensitive world (CoreOp.ScreenshotPixelsOnly false)
    else sensitive world (CoreOp.ScreenshotWithBounds
           (WA.post_snapshot_max_nodes request) (WA.post_snapshot_max_depth request))) in
  match screenshot with
  | Ok screenshot =>
      let observation := Screenshot.observation screenshot in
      let root := Screenshot.accessibility screenshot in
      run? host_modify
        (record_snapshot_observation (Observation.observation_id observation) root) in
      do? uuid := ask world FreshUuid in
      do? now := ask world UnixSeconds in
      do? (response, attachment) := imaging (completed_with_snapshot uuid now session_id
        action_id "CUA action completed with a fresh post-action snapshot" result
        (post_snapshot_value observation root) (Screenshot.data screenshot) mode) in
      do? self := host_read id in
      let snapshot := set_index response.["post_snapshot"] "accessibility_state_id"
        (optional (HS.latest_accessibility_state_id self)) in
      let snapshot := set_index snapshot "observation_mode"
        (observation_mode_value (HS.observation_mode self)) in
      ret (set_index response "post_snapshot" snapshot, attachment)
  | Err error =>
      failed_snapshot session_id action_id
        "CUA action completed, but the post-action snapshot failed" error result mode
  end.

Definition finish_action (request : WA.WindowAction) (action_id : string) (delay : Z)
    (result : NativeResult.ComputerUseToolResult) (mode : SnapshotTransport)
    : host_op response :=
  let session_id := WA.session_id request in
  if negb (WA.capture_after request) then
    run? host_modify clear_native_observation_caches in
    do? (response, attachment) := action_response session_id action_id
      "CUA action completed" result mode in
    ret (DesktopSession.observation_required response, attachment)
  else
    do? waited := attempt (wait_for_window_post_snapshot_delay world delay) in
    match waited with
    | Err error =>
        let failure := host_error_response error in
        without_snapshot session_id action_id
          "CUA action completed, but the post-action snapshot was interrupted"
          failure.["code"] failure.["message"] result mode
    | Ok _ =>
        if WA.post_snapshot_mode request == Request.Semantic
        then finish_with_accessibility request action_id result mode
        else finish_with_screenshot request action_id result mode
    end.

(** *** The whole request *)

(** The two checks of the snapshot's parameters precede the authorization. *)
Definition handle_execute_action (request : WA.WindowAction) (delay : Z)
    (mode : SnapshotTransport) : host_op response :=
  let action := WA.action request in
  run? host_check (check_action request) in
  do? self := host_read id in
  let root := HS.latest_accessibility_root self in
  let tier := safety_tier action root in
  let category := authorization_category action root in
  match rejection tier with
  | Some (policy_tier, code, message) =>
      ret (DesktopSession.action_refused policy_tier message code)
  | None =>
      do? (outcome, observation_id) :=
        (if requires_confirmation tier || is_some (HS.task_authorization self)
         then confirm_action request tier category
         else ret (Allowed, WA.observation_id request)) in
      if outcome != Allowed then refusal_response outcome
      else
        do? result := dispatch_action action observation_id in
        do? uuid := ask world FreshUuid in
        finish_action request ("cua-action-" +:+ uuid) delay result mode
  end.

(** ** Secrets *)

Definition clear_clipboard : ClipboardWriteRequest.ComputerUseClipboardWriteRequest :=
  {| ClipboardWriteRequest.text := Some "";
     ClipboardWriteRequest.image_path := None;
     ClipboardWriteRequest.file_path := None |}.

Definition check_capture (observation_id secret_handle : string) (self : HS.HostSession)
    : hresult unit :=
  check? rmap_err secret_vault_error (validate_vault_handle secret_handle) in
  if negb (HS.allow_clipboard_read self)
  then Err (denied HostProtocolErrorCode.ClipboardReadNotGranted "clipboard read")
  else if negb (HS.allow_clipboard_write self)
  then Err (denied HostProtocolErrorCode.ClipboardWriteNotGranted "clipboard write")
  else if HS.latest_observation_id self != Some observation_id
  then computer_use_error ComputerUseErrorCode.StaleObservation
    "clipboard secret capture requires the latest exact-window observation"
  else Ok tt.

(** The secret goes from the clipboard into the vault, and the clipboard is cleared. *)
Definition store_clipboard_secret (session_id secret_handle : string) : host_op response :=
  if negb (Services.has_vault services)
  then throw (secret_vault_error VaultUnavailable)
  else
    do? result := core_error (sensitive world (CoreOp.ClipboardRead true)) in
    do? secret := lift (rmap_err secret_vault_error (extract_clipboard_secret result)) in
    do? stored := ask world (StoreSecret secret_handle secret) in
    run? lift (rmap_err secret_vault_error stored) in
    do? cleared := attempt (sensitive world (CoreOp.ClipboardWrite clear_clipboard)) in
    ret (Object
      [("type", Str "clipboard_secret_captured"); ("session_id", Str session_id);
       ("secret_handle", Str secret_handle); ("clipboard_cleared", Bool (is_ok cleared))],
      None).

Definition capture_clipboard_secret (session_id task_grant_id window_capability : string)
    (observation_id secret_handle : string) : host_op response :=
  run? host_check (check_capture observation_id secret_handle) in
  do? outcome := confirm (fun self =>
    confirmation_binding session_id task_grant_id window_capability self observation_id
      (HS.latest_accessibility_state_id self)) "credential_capture"
    (Object [("action", Str "clipboard_capture_secret");
             ("secret_handle", Str secret_handle);
             ("clear_clipboard_after_store", Bool true)]) in
  if outcome != Allowed then refusal_response outcome
  else store_clipboard_secret session_id secret_handle.

(** The text a page is typed into, or the refusal of the user. *)
Definition resolve_browser_type_request (session_id task_grant_id window_capability : string)
    (request : BType.BrowserTypeRequest)
    : host_op (Resolved.ResolvedBrowserTypeRequest + response) :=
  run? host_check (fun self =>
    rmap_err HostError.ComputerUse (validate_type_request request (HS.browser self))) in
  let resolved secret :=
    match resolve request secret with
    | None => Effects.panic
    | Some request =>
        do? request := lift (rmap_err HostError.ComputerUse request) in
        ret (inl request)
    end in
  match BType.secret_handle request with
  | None => resolved None
  | Some handle =>
      do? origin := host_read (fun self => BS.latest_origin (HS.browser self)) in
      do? outcome := confirm (fun self =>
        confirmation_binding session_id task_grant_id window_capability self
          (BType.snapshot_id request) (Some (BType.tab_id request))) "credential_input"
        (Object [("method", Str "browser_type"); ("request", browser_type_json request);
                 ("browser_origin", optional origin)]) in
      if outcome != Allowed then
        do? refusal := refusal_response outcome in
        ret (inr refusal)
      else
        do? secret := resolve_secret handle in
        resolved (Some secret)
  end.

#[local] Instance adapter : BrowserNative (history window_call * CS.ComputerUseSession) :=
  window_browser_native world.

Definition handle_browser_type (session_id task_grant_id window_capability : string)
    (request : BType.BrowserTypeRequest) (mode : SnapshotTransport) : host_op response :=
  run? require_browser_input in
  run? require_current_browser_evidence in
  do? resolution := resolve_browser_type_request session_id task_grant_id
    window_capability request in
  match resolution with
  | inl request => run_browser world "browser_typed" session_id (type_text request) mode
  | inr (refusal, _) => ret (refusal, None)
  end.
End Actions.
