(* ===== verification/WindowDispatch.v ===== *)
(** * A request on a window session, from the wire to the core
    ([crates/dcc-cua-host/src/request_handler.rs])

    The dispatch of a request to its handler: the checks of the transport and of the
    trusted lease in front of it, the synchronisation of the session's evidence around it,
    and the session it is authorized for. *)

From S2P Require Import Prelude Records Effects Calls RustStr Json Protocol Errors.
From S2P Require Import Contracts TargetPolicy InputState SessionEvents SessionHealth.
From S2P Require Import HostAction Confirmation Platform CapturePreparation TaskGrant.
From S2P Require Import TaskAuthorization Request SecretVault RuntimeSession.
From S2P Require Import BrowserEvidence BrowserSession HostSession Images.
From S2P Require Import AuthorizationScope WindowWorld WindowRequests WindowMutations.
From S2P Require Import WindowQueries WindowActions.
From S2P Require SharedImage.

Import CoreOp (core_op).

Section Dispatch.
Context {M : Type} `{SM : SharedImage.SharedMemory M} `{P : Platform}.
Context `{DL : !Digestible UnsignedLease.UnsignedTaskAuthorizationLeaseValidationRequest}.
Context `{DV : !Digestible UnsignedVal.UnsignedTaskAuthorizationValidationRequest}.
Context `{WF : WireFormat} `{BF : BrowserFiles}.
Context (world : oracle window_call) (services : Services.HostSecurityServices).

Abbreviation host_op A :=
  (eff (history window_call * (M * HS.HostSession)) HostError.HostError A).
Abbreviation table_op A :=
  (eff (history window_call * (M * Sessions)) HostError.HostError A).

(** The generation of the interrupts when the request arrived. *)
Definition with_generation {A} (k : Z -> table_op A) : table_op A :=
  do? generation := ask world InterruptGeneration in k generation.

(** The application's session ends with it. *)
Definition terminate_app (session_id task_grant_id window_capability : string)
    : table_op response :=
  do? result := authorized world session_id task_grant_id window_capability
    (handle_terminate_app world) in
  run? silent (modify (fun t => (t.1, delete session_id t.2))) in
  ret (session_response "app_terminated" session_id result).

(** [take_connection_session]: the session is stopped outside the table. *)
Definition stop_session_request (session_id : string) : table_op response :=
  fun '(h, (memory, sessions)) =>
  match sessions !! session_id with
  | None => Some (Err HostError.session_not_found, (h, (memory, sessions)))
  | Some host =>
      let sessions := delete session_id sessions in
      match call_core (E := HostError.HostError) world CoreOp.Stop (h, (memory, host)) with
      | Some (Ok (Ok result), (h, _)) =>
          Some (Ok (session_stopped_response session_id result, None),
                (h, (memory, sessions)))
      | Some (Ok (Err error), (h, _)) =>
          Some (Err (HostError.ComputerUse error), (h, (memory, sessions)))
      | Some (Err error, (h, _)) => Some (Err error, (h, (memory, sessions)))
      | None => None
      end
  end.

(** The arms of the match for the requests that an authorized session handles. *)
Definition session_handler (mode : SnapshotTransport) (request : Request.Request)
    : option (host_op response) :=
  match request with
  | Request.ClipboardRead id _ _ include_text =>
      Some (handle_clipboard_read world id include_text)
  | Request.ClipboardCaptureSecret id g c observation_id secret_handle =>
      Some (capture_clipboard_secret world services id g c observation_id secret_handle)
  | Request.ClipboardWrite id _ _ write => Some (handle_clipboard_write world id write)
  | Request.CapturePreparationState params =>
      Some (handle_preparation_state world (PrepBindings.session_id params))
  | Request.CapturePreparationSnapshot params =>
      Some (handle_preparation_snapshot world (PrepBindings.session_id params) mode)
  | Request.RecordingStart id _ _ request =>
      Some (handle_recording world "recording_started" id (CoreOp.RecordingStart request))
  | Request.RecordingStop id _ _ =>
      Some (handle_recording world "recording_stopped" id CoreOp.RecordingStop)
  | Request.RecordingState id _ _ =>
      Some (handle_recording world "recording_state" id CoreOp.RecordingState)
  | Request.LiveObservationStart id _ _ request =>
      Some (handle_live_observation_start world id request)
  | Request.LiveObservationState id _ _ => Some (handle_live_observation_state world id)
  | Request.LiveObservationStop id _ _ => Some (handle_live_observation_stop world id)
  | Request.GetWindowState id _ _ => Some (handle_get_window_state world id)
  | Request.MinimizeWindow id _ _ observation_id =>
      Some (handle_minimize_window world id observation_id)
  | Request.Snapshot id _ _ max_depth max_nodes activate diagnostics popups =>
      Some (handle_snapshot world id max_depth max_nodes activate diagnostics popups mode)
  | Request.Zoom id _ _ request => Some (handle_zoom world id request mode)
  | Request.AccessibilitySnapshot _ _ _ max_depth max_nodes =>
      Some (handle_accessibility_snapshot world max_depth max_nodes)
  | Request.VerifyState id _ _ expect timeout samples screenshot =>
      Some (handle_verify_state world id expect timeout samples screenshot mode)
  | Request.CallTool id _ _ tool arguments =>
      Some (handle_call_tool world id tool arguments mode)
  | Request.BrowserSnapshot id _ _ request =>
      Some (handle_browser_snapshot world id request mode)
  | Request.BrowserPrepare id _ _ request => Some (handle_browser_prepare world id request mode)
  | Request.BrowserNavigate id _ _ request =>
      Some (handle_browser_navigate world id request mode)
  | Request.BrowserClick id _ _ request => Some (handle_browser_click world id request mode)
  | Request.BrowserType id g c request =>
      Some (handle_browser_type world services id g c request mode)
  | Request.BrowserPointer id _ _ request => Some (handle_browser_pointer world id request mode)
  | Request.BrowserSetInputFiles id _ _ request =>
      Some (handle_browser_set_input_files world id request mode)
  | Request.BrowserDownload id _ _ request =>
      Some (handle_browser_download world id request mode)
  | Request.BrowserDialog id _ _ request => Some (handle_browser_dialog world id request mode)
  | Request.ResumeSession id _ _ => Some (handle_resume_session world id)
  | Request.GetSessionState id _ _ => Some (handle_get_session_state world id)
  | Request.CursorTool id _ _ tool arguments => Some (handle_cursor_tool world id tool arguments)
  | Request.EscalateSession id _ _ reason detail =>
      Some (handle_escalate_session world id reason detail)
  | _ => None
  end.

(** The requests that check their parameters, or read the generation, before the session
    is authorized. *)
Definition checked_handler (mode : SnapshotTransport) (request : Request.Request)
    : option (table_op response) :=
  match request with
  | Request.CapturePreparationBegin params =>
      let id := PrepBegin.session_id params in
      Some (with_generation (fun generation =>
        authorized world id (PrepBegin.task_grant_id params)
          (PrepBegin.window_capability params)
          (handle_preparation_begin world id (PrepBegin.request params) generation)))
  | Request.CapturePreparationStop params =>
      let id := PrepBindings.session_id params in
      Some (with_generation (fun generation =>
        authorized world id (PrepBindings.task_grant_id params)
          (PrepBindings.window_capability params)
          (handle_preparation_stop world id generation)))
  | Request.ChangeWindowState id g c operation state_id =>
      Some (with_generation (fun generation => authorized world id g c
        (handle_change_window_state world id operation state_id generation)))
  | Request.SetWindowFrame id g c state_id frame =>
      Some (with_generation (fun generation => authorized world id g c
        (handle_set_window_frame world id state_id frame generation)))
  | Request.InvokeMenu id g c request => Some (
      run? lift (rmap_err HostError.ComputerUse (validate_menu_request request)) in
      authorized world id g c (handle_invoke_menu world id request))
  | Request.Find id g c query => Some (
      do? max_results := lift (validate_find query) in
      authorized world id g c (handle_find world query max_results))
  | Request.WaitFor id g c condition => Some (
      do? (timeout_ms, interval_ms) := lift (validate_wait condition) in
      do? registered := ask world (RegisterWait id g c) in
      run? lift registered in
      authorized world id g c (handle_wait_for world id condition timeout_ms interval_ms))
  | Request.ExecuteAction id g c observation_id state_id action capture_after delay_ms
      max_depth max_nodes snapshot_mode => Some (
      do? delay := lift (post_snapshot_delay capture_after delay_ms) in
      run? lift (validate_post_snapshot_mode capture_after snapshot_mode) in
      authorized world id g c (handle_execute_action world services
        {| WA.session_id := id; WA.task_grant_id := g; WA.window_capability := c;
           WA.observation_id := observation_id; WA.accessibility_state_id := state_id;
           WA.action := action; WA.capture_after := capture_after;
           WA.post_snapshot_max_depth := max_depth;
           WA.post_snapshot_max_nodes := max_nodes;
           WA.post_snapshot_mode := snapshot_mode |} delay mode))
  | _ => None
  end.

(** The requests that an idle or interrupted session still answers. *)
Definition unguarded_handler (request : Request.Request) : option (table_op response) :=
  match request with
  | Request.GetInputState id g c =>
      Some (on_session id g c (handle_get_input_state world id))
  | Request.SessionHealth id g c policy =>
      Some (on_session id g c (handle_session_health world id policy))
  | Request.PollSessionEvents id g c after_sequence timeout_ms => Some (
      do? timeout := lift (poll_session_events_timeout timeout_ms) in
      on_session id g c (handle_poll_session_events world id after_sequence timeout))
  | _ => None
  end.

Definition window_handler (mode : SnapshotTransport) (request : Request.Request)
    : option (table_op response) :=
  match request with
  | Request.TerminateApp id g c => Some (terminate_app id g c)
  | Request.StopSession id => Some (stop_session_request id)
  | _ =>
      match session_handler mode request, window_method_scope request with
      | Some m, Some (id, g, c, _) => Some (authorized world id g c m)
      | _, _ => or_else (checked_handler mode request) (unguarded_handler request)
      end
  end.

(** [handle_request_inner], for the requests of window sessions. *)
Definition handle_request_inner (transport : option SnapshotTransport)
    (request : Request.Request) : table_op response :=
  run? lift (require_provider_transport_request
               (Services.extension_transport_only services) request) in
  match transport with
  | None => throw (HostError.Protocol "hello is required before stateful requests")
  | Some mode =>
      do? sessions := silent (read snd) in
      run? lift (enforce_task_authorized_method sessions request) in
      match window_handler mode request with
      | Some m => m
      | None => Effects.panic
      end
  end.

Definition on_table {E} (f : Sessions -> Sessions) : eff (history window_call * (M * Sessions)) E unit :=
  silent (modify (fun t => (t.1, f t.2))).

(** [handle_request_with_security_services]. *)
Definition handle_request (transport : option SnapshotTransport)
    (request : Request.Request) : table_op response :=
  let route := window_evidence_epoch_route request in
  run? on_table (prepare_window_evidence_request route) in
  do? result := attempt (handle_request_inner transport request) in
  do? now := ask world Monotonic in
  run? on_table (fun sessions =>
    (finish_window_evidence_request now route result sessions).2) in
  lift result.
End Dispatch.
