(* ===== verification/WindowPermissions.v ===== *)
(** * What a window session lets its requests do

    Every operation of the core session that the handling of a request uses is one that
    stands for the request's own method and that the grant, or the trusted lease, of the
    session named by the request permits. *)

From S2P Require Import Prelude Records Effects Calls RustStr Json Protocol Errors.
From S2P Require Import Contracts TargetPolicy InputState SessionEvents SessionHealth.
From S2P Require Import HostAction Confirmation Platform CapturePreparation TaskGrant.
From S2P Require Import TaskAuthorization Request SecretVault RuntimeSession.
From S2P Require Import BrowserEvidence BrowserSession HostSession Images.
From S2P Require Import AuthorizationScope WindowWorld WindowRequests WindowMutations.
From S2P Require Import WindowQueries WindowActions WindowDispatch.
From S2P Require SharedImage.

Import CoreOp (core_op).

(** ** What a session permits

    The operations of the core that a request may use, under the grant and the lease of
    its session. *)

(** A click, a key or a text of the user's desktop needs the raw input grant. *)
Definition input_is_granted (host : HS.HostSession) (action : CA.ComputerUseAction) : Prop :=
  exists wire observation_id,
    into_computer_use wire observation_id = Ok action
    /\ (HA.input_kind wire = "raw_input" \/ uses_physical_keyboard wire = true ->
        HS.allow_raw_input host = true).

Abbreviation holds check := (is_ok check = true).

Definition browser_tool_is_granted (method tool : string) (host : HS.HostSession) : Prop :=
  (method = "browser_snapshot" /\ tool = "get_browser_state")
  \/ (method = "browser_prepare" /\ tool = "browser_prepare"
      /\ HS.allow_browser_prepare host = true)
  \/ (method = tool /\ HS.allow_browser_input host = true
      /\ tool ∈ ["browser_navigate"; "browser_click"; "browser_type"; "browser_pointer";
                 "browser_set_input_files"; "browser_dialog"]).

Definition licensed `{P : Platform} (id method : string) (host : HS.HostSession)
    (A : Type) (op : core_op A) : Prop :=
  match op with
  | CoreOp.TerminateApp => method = "terminate_app" /\ HS.allow_app_terminate host = true
  | CoreOp.ClipboardRead _ =>
      method ∈ ["clipboard_read"; "clipboard_capture_secret"]
      /\ HS.allow_clipboard_read host = true
  | CoreOp.ClipboardWrite write =>
      (method = "clipboard_write"
       \/ method = "clipboard_capture_secret" /\ write = clear_clipboard)
      /\ HS.allow_clipboard_write host = true
  | CoreOp.RecordingStart _ =>
      method = "recording_start" /\ HS.allow_recording host = true
  | CoreOp.RecordingStop => method = "recording_stop" /\ HS.allow_recording host = true
  | CoreOp.RecordingState =>
      method ∈ ["recording_state"; "session_health"] /\ HS.allow_recording host = true
  | CoreOp.StartLiveObservation _ =>
      method = "live_observation_start" /\ HS.allow_live_observation host = true
  | CoreOp.StopLiveObservation =>
      method = "live_observation_stop" /\ HS.allow_live_observation host = true
  | CoreOp.NativeWindowStateForMenuDismiss =>
      method = "get_window_state" /\ holds (require_native_menu_dismiss_grant id host)
  | CoreOp.NativeWindowStateForFrame =>
      method = "get_window_state" /\ HS.observation_mode host = PixelsOnly
  | CoreOp.WindowState =>
      method = "get_window_state" /\ HS.observation_mode host = TaskGrant.Semantic
      \/ method ∈ ["change_window_state"; "minimize_window"]
  | CoreOp.Activate =>
      method = "change_window_state"
      \/ method = "snapshot" /\ HS.observation_mode host = TaskGrant.Semantic
  | CoreOp.RestoreActivate =>
      method = "change_window_state" /\ HS.allow_restore_activate host = true
  | CoreOp.CloseWindow =>
      method = "change_window_state" /\ HS.allow_trusted_confirmation host = true
  | CoreOp.MinimizeWindow _ =>
      method = "minimize_window" /\ holds (require_minimize_grant id host)
  | CoreOp.SetWindowFrame frame =>
      method = "set_window_frame" /\ HS.observation_mode host = TaskGrant.Semantic
      /\ validate_window_frame frame = Ok tt
  | CoreOp.SetWindowFrameFromNativeState _ _ =>
      method = "set_window_frame" /\ holds (require_window_frame_grant id host)
  | CoreOp.DismissNativeMenuFromState _ _ =>
      method = "change_window_state" /\ holds (require_native_menu_dismiss_grant id host)
  | CoreOp.InvokeMenu request =>
      method = "invoke_menu" /\ HS.allow_menu_invoke host = true
      /\ validate_menu_request request = Ok tt
  | CoreOp.ScreenshotNativeCapturePopups _ _ _ =>
      method = "snapshot" /\ holds (require_native_capture_popup_keyboard_grant id host)
  | CoreOp.ScreenshotPixelsOnly _ =>
      method ∈ ["snapshot"; "execute_action"] /\ HS.observation_mode host = PixelsOnly
  | CoreOp.ScreenshotWithBounds _ _ =>
      method ∈ ["snapshot"; "execute_action"]
      /\ HS.observation_mode host = TaskGrant.Semantic
  | CoreOp.Zoom _ => method = "zoom"
  | CoreOp.AccessibilitySnapshot _ _ =>
      method = "accessibility_snapshot"
      \/ method = "execute_action" /\ HS.observation_mode host = TaskGrant.Semantic
  | CoreOp.VerifyState _ _ _ _ => method = "verify_state"
  | CoreOp.CallTool _ _ => method = "call_tool" /\ HS.allow_native_tool host = true
  | CoreOp.PerformAction action =>
      method = "execute_action" /\ input_is_granted host action
  | CoreOp.ResumeAfterUserApproval => method = "resume_session"
  | CoreOp.SessionState => method = "get_session_state"
  | CoreOp.CursorTool _ _ => method = "cursor_tool"
  | CoreOp.Escalate _ _ =>
      method = "escalate_session" /\ HS.allow_session_escalation host = true
  | CoreOp.CallBrowserTool tool _ => browser_tool_is_granted method tool host
  | CoreOp.CallBrowserDownloadTool _ =>
      method = "browser_download" /\ HS.allow_browser_download host = true
  | CoreOp.CapturePreparationBegin _ _ _ | CoreOp.CapturePreparationState
  | CoreOp.CapturePreparationStop | CoreOp.CapturePreparationSnapshot =>
      holds (require_capture_preparation_grant id method host)
  | CoreOp.TargetAvailability | CoreOp.Stop => True
  end.

(** ** What is read of a session's credentials *)

(** A function of the session that only looks at what never changes. *)
Class Fixed {A} (f : HS.HostSession -> A) : Prop :=
  fixed self self' : credentials self = credentials self' -> f self = f self'.

Ltac fixed :=
  intros self self' H; unfold credentials in H; injection H; intros; clear H;
  repeat match goal with E : ?f self = ?f self' |- _ => try rewrite E; clear E end;
  reflexivity.

#[export] Instance fixed_app_terminate : Fixed HS.allow_app_terminate.
Proof. fixed. Qed.
#[export] Instance fixed_clipboard_read : Fixed HS.allow_clipboard_read.
Proof. fixed. Qed.
#[export] Instance fixed_clipboard_write : Fixed HS.allow_clipboard_write.
Proof. fixed. Qed.
#[export] Instance fixed_recording : Fixed HS.allow_recording.
Proof. fixed. Qed.
#[export] Instance fixed_live_observation : Fixed HS.allow_live_observation.
Proof. fixed. Qed.
#[export] Instance fixed_browser_input : Fixed HS.allow_browser_input.
Proof. fixed. Qed.
#[export] Instance fixed_browser_prepare : Fixed HS.allow_browser_prepare.
Proof. fixed. Qed.
#[export] Instance fixed_browser_download : Fixed HS.allow_browser_download.
Proof. fixed. Qed.
#[export] Instance fixed_native_tool : Fixed HS.allow_native_tool.
Proof. fixed. Qed.
#[export] Instance fixed_menu_invoke : Fixed HS.allow_menu_invoke.
Proof. fixed. Qed.
#[export] Instance fixed_escalation : Fixed HS.allow_session_escalation.
Proof. fixed. Qed.
#[export] Instance fixed_confirmation : Fixed HS.allow_trusted_confirmation.
Proof. fixed. Qed.
#[export] Instance fixed_restore : Fixed HS.allow_restore_activate.
Proof. fixed. Qed.
#[export] Instance fixed_raw_input : Fixed HS.allow_raw_input.
Proof. fixed. Qed.
#[export] Instance fixed_mode : Fixed HS.observation_mode.
Proof. fixed. Qed.
#[export] Instance fixed_lease : Fixed HS.task_authorization.
Proof. fixed. Qed.
#[export] Instance fixed_grant : Fixed HS.task_grant_id.
Proof. fixed. Qed.
#[export] Instance fixed_capability : Fixed HS.capability.
Proof. fixed. Qed.
#[export] Instance fixed_process : Fixed HS.target_process_id.
Proof. fixed. Qed.
#[export] Instance fixed_window : Fixed HS.target_window_handle.
Proof. fixed. Qed.
#[export] Instance fixed_minimize id : Fixed (require_minimize_grant id).
Proof. unfold require_minimize_grant, bound_task_authorization. fixed. Qed.
#[export] Instance fixed_frame id : Fixed (require_window_frame_grant id).
Proof. unfold require_window_frame_grant. fixed. Qed.
#[export] Instance fixed_menu id : Fixed (require_native_menu_dismiss_grant id).
Proof. unfold require_native_menu_dismiss_grant, bound_task_authorization. fixed. Qed.
#[export] Instance fixed_popup id : Fixed (require_native_capture_popup_keyboard_grant id).
Proof.
  unfold require_native_capture_popup_keyboard_grant, bound_task_authorization. fixed.
Qed.
#[export] Instance fixed_preparation `{P : Platform} id method :
  Fixed (require_capture_preparation_grant id method).
Proof. unfold require_capture_preparation_grant, bound_task_authorization. fixed. Qed.

(** ** The rules for what a handler reads and checks *)

Section Rules.
Context {M : Type} (allowed : forall A, core_op A -> Prop) (host0 : HS.HostSession).

Abbreviation window_op E A := (eff (history window_call * (M * HS.HostSession)) E A).

Lemma makes_fixed {E A B} (f : HS.HostSession -> A) `{!Fixed f} (k : A -> window_op E B) :
  respects (makes allowed host0) (k (f host0)) ->
  respects (makes allowed host0) (bind (host_read f) k).
Proof. apply makes_read_of. intros self H. by apply fixed. Qed.

Lemma makes_fixed_check {E A B} (f : HS.HostSession -> result E A) `{!Fixed f}
    (k : A -> window_op E B) :
  (forall a, f host0 = Ok a -> respects (makes allowed host0) (k a)) ->
  respects (makes allowed host0) (bind (host_check f) k).
Proof.
  intros Hk. apply makes_check. intros self a H Ha. apply Hk. rewrite <- Ha.
  symmetry. by apply fixed.
Qed.

Lemma makes_read_any {E A B} (f : HS.HostSession -> A) (k : A -> window_op E B) :
  (forall self, credentials self = credentials host0 ->
     respects (makes allowed host0) (k (f self))) ->
  respects (makes allowed host0) (bind (host_read f) k).
Proof. intros Hk [h [mem self]] r s' H Hs. by apply (Hk self Hs) in H; apply H. Qed.

Lemma makes_refuse {E B} (b : bool) (e : E) (k : unit -> window_op E B) :
  (b = false -> respects (makes allowed host0) (k tt)) ->
  respects (makes allowed host0) (bind (refuse_if b e) k).
Proof.
  intros Hk. destruct b; [|exact (Hk eq_refl)].
  intros s r s' H. injection H as _ <-. reflexivity.
Qed.

Lemma makes_granted {B} flag `{!Fixed flag} code capability
    (k : unit -> window_op HostError.HostError B) :
  (flag host0 = true -> respects (makes allowed host0) (k tt)) ->
  respects (makes allowed host0) (bind (granted flag code capability) k).
Proof.
  intros Hk. apply respects_assoc, makes_fixed; [done|]. apply makes_refuse.
  intros Hf. apply Hk. by apply negb_false_iff.
Qed.
End Rules.

(** Walks through a handler; what is left is why each operation is permitted. *)
Ltac calls_step :=
  lazymatch goal with
  | |- PreOrder _ => typeclasses eauto
  | |- respects (makes _ _) (bind (bind _ _) _) => apply respects_assoc
  | |- respects ?R (bind (ret ?x) ?k) => change (respects R (k x)); cbv beta
  | |- respects (makes _ _) (bind (granted _ _ _) _) =>
      apply makes_granted; [typeclasses eauto | intros ?]
  | |- respects (makes _ _) (bind (refuse_if _ _) _) => apply makes_refuse; intros ?
  | |- respects (makes _ _) (bind (host_check ?f) _) =>
      first [apply makes_fixed_check; [typeclasses eauto | intros ? ?]
            | apply makes_check; intros ? ? ? ?]
  | |- respects (makes _ _) (bind (host_read ?f) _) =>
      first [apply makes_fixed; [typeclasses eauto | ]
            | apply makes_read_any; intros ? ?; unfold Datatypes.id]
  | |- respects (makes _ _) (bind (lift _) _) => apply makes_lift; intros ? ?
  | |- respects (makes _ _) (call_core _ _) => apply makes_call_core
  | |- respects (makes _ _) (sensitive _ _) => apply makes_sensitive
  | |- respects (makes _ _) (probe_target _) => apply makes_probe_target
  | |- respects (makes _ _) (core_error _) =>
      unfold core_error; apply respects_map_error; [typeclasses eauto |]
  | |- respects _ (if ?b then _ else _) => destruct b eqn:?
  | |- respects _ (match ?x with _ => _ end) => destruct x eqn:?
  | |- respects _ _ => respects_step
  end.
Ltac calls := repeat calls_step.

Section Handlers.
Context {M : Type} `{SM : SharedImage.SharedMemory M} `{P : Platform}.
Context `{DL : !Digestible UnsignedLease.UnsignedTaskAuthorizationLeaseValidationRequest}.
Context `{DV : !Digestible UnsignedVal.UnsignedTaskAuthorizationValidationRequest}.
Context `{WF : WireFormat} `{BF : BrowserFiles}.
Context (world : oracle window_call) (services : Services.HostSecurityServices).
Context (id : string) (host0 : HS.HostSession).

(** The handler of [method] uses only what is permitted. *)
Abbreviation behaves method m := (respects (makes (licensed id method host0) host0) m).

Lemma not_pixels mode : mode <> PixelsOnly -> mode = TaskGrant.Semantic.
Proof. by destruct mode. Qed.

(** What the checks of a handler established, said of [host0]. *)
Ltac facts :=
  repeat match goal with
  | H : rmap_err _ _ = Ok _ |- _ => apply rmap_err_ok in H
  | H : (if ?b then Err _ else Ok _) = Ok _ |- _ =>
      destruct b eqn:?; [discriminate H | clear H]
  | Hc : credentials ?a = credentials ?b, H : context [?f ?a] |- _ =>
      rewrite (fixed (f := f) a b Hc) in H
  end;
  rewrite ?andb_true_r, ?andb_true_iff, ?negb_false_iff, ?negb_true_iff,
    ?bool_decide_eq_true, ?bool_decide_eq_false in *;
  repeat match goal with H : _ /\ _ |- _ => destruct H end;
  repeat match goal with H : _ <> PixelsOnly |- _ => apply not_pixels in H end;
  repeat match goal with H : ?x = Ok _ |- context [?x] => rewrite H end.

(** A permission that is a conjunction of the grant's flags and of the request's name. *)
Ltac licensed :=
  cbn [licensed]; facts;
  first [exact I | done | split; (done || set_solver) | split_and!; done
        | left; (done || split; done) | right; (done || split; done || set_solver)].
Ltac behaves := calls; try solve [licensed].

Lemma terminate_app_behaves : behaves "terminate_app" (handle_terminate_app (M := M) world).
Proof. unfold handle_terminate_app. behaves. Qed.

Lemma clipboard_read_behaves include_text :
  behaves "clipboard_read" (handle_clipboard_read (M := M) world id include_text).
Proof. unfold handle_clipboard_read, respond_with. behaves. Qed.

Lemma clipboard_write_behaves write :
  behaves "clipboard_write" (handle_clipboard_write (M := M) world id write).
Proof. unfold handle_clipboard_write, respond_with. behaves. Qed.

Lemma recording_behaves method kind op :
  (HS.allow_recording host0 = true -> licensed id method host0 _ op) ->
  behaves method (handle_recording (M := M) world kind id op).
Proof. intros H. unfold handle_recording, respond_with. behaves. auto. Qed.

Lemma live_start_behaves request :
  behaves "live_observation_start" (handle_live_observation_start (M := M) world id request).
Proof. unfold handle_live_observation_start, require_live_observation. behaves. Qed.

Lemma live_state_behaves :
  behaves "live_observation_state" (handle_live_observation_state (M := M) world id).
Proof. unfold handle_live_observation_state, require_live_observation. behaves. Qed.

Lemma live_stop_behaves :
  behaves "live_observation_stop" (handle_live_observation_stop (M := M) world id).
Proof. unfold handle_live_observation_stop, require_live_observation. behaves. Qed.

Lemma get_window_state_behaves :
  behaves "get_window_state" (handle_get_window_state (M := M) world id).
Proof.
  unfold handle_get_window_state. behaves.
Qed.

Lemma capture_snapshot_behaves popups diagnostics nodes depth :
  behaves "snapshot" (capture_snapshot (M := M) world id popups diagnostics nodes depth).
Proof. unfold capture_snapshot. behaves. Qed.

Lemma snapshot_transport_behaves method root observation overlays popup mode :
  behaves method (snapshot_image_transport world root observation overlays popup mode).
Proof. unfold snapshot_image_transport. behaves. Qed.

Hint Resolve capture_snapshot_behaves snapshot_transport_behaves : respects.

Lemma snapshot_behaves depth nodes activate diagnostics popups mode :
  behaves "snapshot"
    (handle_snapshot world id depth nodes activate diagnostics popups mode).
Proof.
  unfold handle_snapshot. behaves.
Qed.

Lemma tool_response_behaves method session_id tool result mode :
  behaves method (tool_response world session_id tool result mode).
Proof. unfold tool_response. behaves. Qed.

Lemma image_response_behaves method image mode :
  behaves method (image_response world image mode).
Proof. unfold image_response. behaves. Qed.

Hint Resolve tool_response_behaves image_response_behaves : respects.

Lemma zoom_behaves request mode : behaves "zoom" (handle_zoom world id request mode).
Proof. unfold handle_zoom. behaves. Qed.

Lemma accessibility_snapshot_behaves depth nodes :
  behaves "accessibility_snapshot" (handle_accessibility_snapshot (M := M) world depth nodes).
Proof. unfold handle_accessibility_snapshot, require_target. behaves. Qed.

Lemma verify_state_behaves expect timeout samples screenshot mode :
  behaves "verify_state"
    (handle_verify_state world id expect timeout samples screenshot mode).
Proof. unfold handle_verify_state. behaves. Qed.

Lemma call_tool_behaves tool arguments mode :
  behaves "call_tool" (handle_call_tool world id tool arguments mode).
Proof. unfold handle_call_tool. behaves. Qed.

(** *** The browser *)

Lemma browser_response_behaves method kind result mode :
  behaves method (browser_response world kind id result mode).
Proof. unfold browser_response. behaves. Qed.

Hint Resolve browser_response_behaves : respects.

#[local] Instance adapter : BrowserNative (history window_call * CS.ComputerUseSession) :=
  window_browser_native world.

(** An operation of the browser adapter calls only permitted tools. *)
Abbreviation adapts method m := (respects (native_makes (licensed id method host0)) m).

Lemma run_browser_behaves method kind m mode :
  adapts method m -> behaves method (run_browser world kind id m mode).
Proof.
  intros Hm. unfold run_browser. behaves. by apply makes_browser.
Qed.

Lemma attempt_tool_adapts method tool args :
  browser_tool_is_granted method tool host0 -> adapts method (attempt_tool tool args).
Proof.
  intros Ht. unfold attempt_tool, begin_snapshot_sensitive_native_attempt, decode.
  respects. by apply native_makes_tool.
Qed.

Lemma require_adapts {A} method (f : BS.BrowserSession -> cresult A) :
  adapts method (require f).
Proof. apply native_makes_session. Qed.

Hint Resolve require_adapts : respects.

(** A handler of the browser: the flag it needs, its evidence and its adapter. *)
Ltac browses :=
  behaves; try apply run_browser_behaves; unfold decode; respects;
  try (apply attempt_tool_adapts; right; (left; split_and!; done) || right; split_and!; [done | done | set_solver]).

Lemma snapshot_adapts request : adapts "browser_snapshot" (BrowserSession.snapshot request).
Proof.
  unfold BrowserSession.snapshot. respects. all: apply attempt_tool_adapts; by left.
Qed.

Lemma browser_snapshot_behaves request mode :
  behaves "browser_snapshot" (handle_browser_snapshot world id request mode).
Proof.
  unfold handle_browser_snapshot. behaves. apply makes_browser, snapshot_adapts.
Qed.

Lemma browser_prepare_behaves request mode :
  behaves "browser_prepare" (handle_browser_prepare world id request mode).
Proof.
  unfold handle_browser_prepare, prepare, begin_snapshot_sensitive_native_attempt. browses.
  apply native_makes_tool. right. left. done.
Qed.

Lemma browser_navigate_behaves request mode :
  behaves "browser_navigate" (handle_browser_navigate world id request mode).
Proof. unfold handle_browser_navigate, require_browser_input, navigate. browses. Qed.

Lemma browser_click_behaves request mode :
  behaves "browser_click" (handle_browser_click world id request mode).
Proof.
  unfold handle_browser_click, require_browser_input, require_current_browser_evidence, click.
  browses.
Qed.

Lemma browser_pointer_behaves request mode :
  behaves "browser_pointer" (handle_browser_pointer world id request mode).
Proof.
  unfold handle_browser_pointer, require_browser_input, require_current_browser_evidence,
    pointer.
  browses.
Qed.

Lemma browser_files_behaves request mode :
  behaves "browser_set_input_files" (handle_browser_set_input_files world id request mode).
Proof.
  unfold handle_browser_set_input_files, require_browser_input,
    require_current_browser_evidence, set_input_files.
  browses.
Qed.

Lemma browser_download_behaves request mode :
  behaves "browser_download" (handle_browser_download world id request mode).
Proof.
  unfold handle_browser_download, require_current_browser_evidence, download,
    begin_snapshot_sensitive_native_attempt.
  browses. by apply native_makes_tool.
Qed.

Lemma browser_dialog_behaves request mode :
  behaves "browser_dialog" (handle_browser_dialog world id request mode).
Proof. unfold handle_browser_dialog, require_browser_input, dialog. browses. Qed.

(** *** The window *)

Lemma mutation_behaves method op :
  licensed id method host0 _ op -> behaves method (mutation (M := M) world op).
Proof. intros Hop. unfold mutation. behaves. Qed.

Lemma consume_evidence_behaves {A} method
    (m : eff (history window_call * (M * HS.HostSession)) HostError.HostError A) :
  behaves method m -> behaves method (consume_evidence m).
Proof. intros Hm. unfold consume_evidence, invalidate_core. behaves. Qed.

Lemma require_generation_behaves method generation message :
  behaves method (require_generation (M := M) world generation message).
Proof. unfold require_generation. behaves. Qed.

Lemma await_input_turn_behaves {E} method :
  behaves method (await_input_turn (M := M) (E := E) world).
Proof. unfold await_input_turn. behaves. Qed.

Hint Resolve require_generation_behaves await_input_turn_behaves : respects.

Lemma validate_other_operation_behaves method operation state_id :
  behaves method (validate_other_operation (M := M) operation state_id).
Proof. unfold validate_other_operation, invalidate_core. behaves. Qed.

Lemma changed_state_behaves method operation result :
  method ∈ ["change_window_state"; "minimize_window"] ->
  behaves method (changed_state (M := M) world id operation result).
Proof. intros Hm. unfold changed_state. behaves. Qed.

Hint Resolve validate_other_operation_behaves : respects.

Lemma dismiss_menu_behaves state_id generation :
  behaves "change_window_state" (dismiss_menu (M := M) world id state_id generation).
Proof.
  unfold dismiss_menu. behaves. apply consume_evidence_behaves.
  unfold dismiss_native_menu. behaves.
Qed.

Lemma restore_activate_behaves :
  behaves "change_window_state" (restore_activate (M := M) world id).
Proof.
  unfold restore_activate. behaves.
  - apply mutation_behaves. licensed.
  - apply changed_state_behaves. set_solver.
Qed.

Lemma close_window_behaves : behaves "change_window_state" (close_window (M := M) world id).
Proof. unfold close_window. behaves. apply mutation_behaves. licensed. Qed.

Hint Resolve restore_activate_behaves close_window_behaves : respects.

Lemma change_window_state_behaves operation state_id generation :
  behaves "change_window_state"
    (handle_change_window_state (M := M) world id operation state_id generation).
Proof.
  unfold handle_change_window_state. destruct operation; [..|apply dismiss_menu_behaves].
  all: behaves.
  - apply mutation_behaves. licensed.
  - apply changed_state_behaves. set_solver.
Qed.

Lemma minimize_window_behaves observation_id :
  behaves "minimize_window" (handle_minimize_window (M := M) world id observation_id).
Proof.
  unfold handle_minimize_window. behaves.
  - apply mutation_behaves. licensed.
  - apply changed_state_behaves. set_solver.
Qed.

Lemma set_window_frame_behaves state_id frame generation :
  behaves "set_window_frame"
    (handle_set_window_frame (M := M) world id state_id frame generation).
Proof.
  unfold handle_set_window_frame. behaves.
  - apply consume_evidence_behaves. unfold set_native_frame. behaves.
  - apply mutation_behaves. destruct a. licensed.
Qed.

(** The path of the menu was validated before. *)
Lemma invoke_menu_behaves request :
  validate_menu_request request = Ok tt ->
  behaves "invoke_menu" (handle_invoke_menu (M := M) world id request).
Proof.
  intros Hv. unfold handle_invoke_menu. behaves. apply mutation_behaves. licensed.
Qed.

(** *** Capture preparation *)

Lemma preparation_begin_behaves request generation :
  behaves "capture_preparation_begin"
    (handle_preparation_begin (M := M) world id request generation).
Proof.
  unfold handle_preparation_begin. behaves. apply consume_evidence_behaves.
  unfold begin_preparation. behaves.
Qed.

Lemma preparation_state_behaves :
  behaves "capture_preparation_state" (handle_preparation_state (M := M) world id).
Proof. unfold handle_preparation_state. behaves. Qed.

Lemma preparation_stop_behaves generation :
  behaves "capture_preparation_stop" (handle_preparation_stop (M := M) world id generation).
Proof. unfold handle_preparation_stop. behaves. apply mutation_behaves. licensed. Qed.

Lemma preparing_behaves {A} method
    (m : eff (M * option SharedImage.Descriptor.SharedImageDescriptor) HostError.HostError A) :
  behaves method (preparing m).
Proof. by apply makes_part. Qed.

Hint Resolve preparing_behaves : respects.

Lemma preparation_snapshot_behaves mode :
  behaves "capture_preparation_snapshot" (handle_preparation_snapshot world id mode).
Proof. unfold handle_preparation_snapshot. behaves. Qed.

(** *** Queries *)

Lemma find_behaves query max_results :
  behaves "find" (handle_find (M := M) world query max_results).
Proof.
  unfold handle_find, finish_target_sensitive_cached_read, require_target. behaves.
Qed.

Lemma ended_behaves {A} method
    (m : eff (history window_call * (M * HS.HostSession)) HostError.HostError (option A)) :
  behaves method m -> behaves method (ended m).
Proof. intros Hm. unfold ended. behaves. Qed.

Lemma elapsed_since_behaves method started :
  behaves method (elapsed_since (M := M) world started).
Proof. unfold elapsed_since. behaves. Qed.

Lemma abandon_probe_behaves method : behaves method (abandon_probe (M := M)).
Proof. unfold abandon_probe. behaves. Qed.

Hint Resolve elapsed_since_behaves abandon_probe_behaves : respects.

Lemma wait_for_behaves condition timeout interval :
  behaves "wait_for" (handle_wait_for (M := M) world id condition timeout interval).
Proof.
  unfold handle_wait_for. calls. apply ended_behaves, respects_loop; [apply _|]. intros remaining.
  unfold wait_round. behaves.
Qed.

Lemma resume_session_behaves :
  behaves "resume_session" (handle_resume_session (M := M) world id).
Proof. unfold handle_resume_session. behaves. Qed.

Lemma get_session_state_behaves :
  behaves "get_session_state" (handle_get_session_state (M := M) world id).
Proof. unfold handle_get_session_state. behaves. Qed.

Lemma get_input_state_behaves method :
  behaves method (handle_get_input_state (M := M) world id).
Proof. unfold handle_get_input_state. behaves. Qed.

Lemma refresh_health_behaves method :
  behaves method (refresh_session_health_input_and_target (M := M) world).
Proof. unfold refresh_session_health_input_and_target. behaves. Qed.

Lemma recording_health_behaves policy :
  behaves "session_health" (recording_health (M := M) world policy).
Proof. unfold recording_health. behaves. Qed.

Hint Resolve refresh_health_behaves recording_health_behaves : respects.

Lemma session_health_behaves policy :
  behaves "session_health" (handle_session_health (M := M) world id policy).
Proof. unfold handle_session_health. behaves. Qed.

Lemma poll_session_events_behaves method after timeout :
  behaves method (handle_poll_session_events (M := M) world id after timeout).
Proof.
  unfold handle_poll_session_events. apply ended_behaves, respects_loop; [apply _|].
  intros remaining. unfold poll_round. behaves.
Qed.

Lemma post_snapshot_delay_behaves method delay :
  behaves method (wait_for_window_post_snapshot_delay (M := M) world delay).
Proof.
  unfold wait_for_window_post_snapshot_delay. apply ended_behaves, respects_loop; [apply _|].
  intros remaining. unfold delay_round. behaves.
Qed.

Lemma cursor_tool_behaves tool arguments :
  behaves "cursor_tool" (handle_cursor_tool (M := M) world id tool arguments).
Proof. unfold handle_cursor_tool. behaves. Qed.

Lemma escalate_session_behaves reason detail :
  behaves "escalate_session" (handle_escalate_session (M := M) world id reason detail).
Proof. unfold handle_escalate_session, respond_with. behaves. Qed.

(** *** Actions and secrets *)

(** An input without semantics: a raw one, in the foreground, under a lease for it. *)
Definition pixels_input (session_id : string) (action : HA.HostAction)
    (self : HS.HostSession) : Prop :=
  HA.input_kind action = "raw_input" /\ HA.action action ∈ PIXELS_INPUT_ACTIONS
  /\ HA.element_index action = None /\ HA.element_token action = None
  /\ HA.secret_handle action = None /\ HA.input_backend_id action = None
  /\ HA.delivery_mode action ∈ [None; Some "foreground"]
  /\ HS.allow_raw_input self = true
  /\ exists lease scope, HS.task_authorization self = Some lease
       /\ Lease.session_id lease = session_id
       /\ "execute_action" ∈ Lease.allowed_host_methods lease
       /\ scope ∈ Lease.allowed_actions lease
       /\ Scope.action scope = HA.action action
       /\ Scope.input_kind scope = "raw_input" /\ Scope.secret_input scope = false.

(** What an action is checked for before anything else happens. *)
Record checked (request : WA.WindowAction) (self : HS.HostSession) : Prop := {
  checked_raw : HA.input_kind (WA.action request) = "raw_input" ->
    HS.allow_raw_input self = true;
  checked_source : is_Some (HA.secret_handle (WA.action request)) ->
    HA.text (WA.action request) = None
    /\ HA.action (WA.action request) ∈ ["type"; "type_chars"; "set_text"; "set_value"];
  checked_pixels : HS.observation_mode self = PixelsOnly ->
    pixels_input (WA.session_id request) (WA.action request) self;
  checked_snapshot : WA.capture_after request = true ->
    WA.post_snapshot_mode request = Request.Semantic ->
    HS.observation_mode self = TaskGrant.Semantic;
  checked_observation : WA.observation_id request <> ""
    /\ HS.latest_observation_id self = Some (WA.observation_id request);
  checked_element :
    is_Some (HA.element_index (WA.action request))
    \/ is_Some (HA.element_token (WA.action request)) ->
    HS.latest_accessibility_state_id self = Some (WA.accessibility_state_id request);
}.

Lemma validate_secret_source_ok a :
  validate_secret_source a = Ok tt -> is_Some (HA.secret_handle a) ->
  HA.text a = None /\ HA.action a ∈ ["type"; "type_chars"; "set_text"; "set_value"].
Proof.
  unfold validate_secret_source. intros [Ht H]%guard_ok [handle Hs].
  rewrite Hs in *. apply rbind_ok in H as (_ & _ & H). apply guard_ok in H as [Ha _].
  rewrite andb_true_r in Ht. apply negb_false_iff, bool_decide_eq_true in Ha.
  by destruct (HA.text a).
Qed.

Lemma require_pixels_input_grant_ok session_id action self :
  require_pixels_input_grant session_id action self = Ok tt ->
  pixels_input session_id action self.
Proof.
  unfold require_pixels_input_grant, computer_use_error, task_authorization_denied.
  intros [Ha [Hb _]%guard_ok]%guard_ok.
  apply orb_false_iff in Hb as [Hraw%negb_false_iff Hb%negb_false_iff].
  rewrite !orb_false_iff, !negb_false_iff, !bool_decide_eq_true in Ha.
  destruct Ha as ((((((Hk & Hact) & Hi) & Ht) & Hs) & Hbe) & Hm).
  destruct (bound_task_authorization session_id "execute_action" self) as [lease|] eqn:El; [|done].
  cbn in Hb. apply existsb_exists in Hb as (scope & Hin%list_elem_of_In & Hsc).
  apply andb_true_iff in Hsc as [Hp Hn%bool_decide_eq_true].
  unfold is_pixels_input in Hp. rewrite !andb_true_iff, negb_true_iff, !bool_decide_eq_true in Hp.
  unfold bound_task_authorization in El.
  destruct (HS.task_authorization self) as [lease'|] eqn:Ea; [|done].
  destruct (_ && _ : bool) eqn:Eb in El; [|done]. injection El as ->.
  rewrite !andb_true_iff, !bool_decide_eq_true in Eb.
  unfold pixels_input. split_and!; try done.
  - by destruct (HA.element_index action).
  - by destruct (HA.element_token action).
  - by destruct (HA.secret_handle action).
  - by destruct (HA.input_backend_id action).
  - destruct (HA.delivery_mode action) as [mode|]; [|set_solver].
    cbn in Hm. apply negb_false_iff, bool_decide_eq_true in Hm. set_solver.
  - exists lease, scope. naive_solver.
Qed.

Lemma check_action_ok request self : check_action request self = Ok tt -> checked request self.
Proof.
  unfold check_action, computer_use_error. intros H. open_ok. split.
  - intros Hr. rewrite Hr in H. destruct (HS.allow_raw_input self); naive_solver.
  - by apply validate_secret_source_ok.
  - intros Hm. rewrite Hm in H1. simpl in H1. open_ok. by apply require_pixels_input_grant_ok.
  - intros Hc Hs. destruct (HS.observation_mode self) eqn:Hm; [done|].
    simpl in H1. open_ok. by rewrite Hc, Hs in H6.
  - unfold require_latest_observation, computer_use_error in H2. apply guard_ok in H2 as [H2 _].
    apply orb_false_iff in H2 as [Hne Hl%negb_false_iff%bool_decide_eq_true]. split; [|done].
    by intros E; rewrite E in Hne.
  - intros He. assert (Hb : is_some (HA.element_index (WA.action request))
      || is_some (HA.element_token (WA.action request)) = true)
      by (destruct He as [[? ->]|[? ->]]; [done | by rewrite orb_true_r]).
    rewrite Hb in H3. simpl in H3. by apply negb_false_iff, bool_decide_eq_true in H3.
Qed.

Lemma confirm_behaves method binding intent action :
  behaves method (confirm (M := M) world services binding intent action).
Proof. unfold confirm, decide. behaves. Qed.

Lemma refusal_response_behaves method outcome :
  behaves method (refusal_response (M := M) outcome).
Proof. unfold refusal_response. behaves. Qed.

Lemma resolve_secret_behaves method handle :
  behaves method (resolve_secret (M := M) world services handle).
Proof. unfold resolve_secret. behaves. Qed.

Lemma revalidate_queued_action_behaves method :
  behaves method (revalidate_queued_action (M := M) world).
Proof. unfold revalidate_queued_action. behaves. Qed.

Hint Resolve confirm_behaves refusal_response_behaves resolve_secret_behaves
  revalidate_queued_action_behaves : respects.

(** A resolved action is the action with another text. *)
Lemma bind_resolve_behaves {B} method action
    (k : HA.HostAction -> eff (history window_call * (M * HS.HostSession)) HostError.HostError B) :
  (forall resolved, HA.input_kind resolved = HA.input_kind action ->
     uses_physical_keyboard resolved = uses_physical_keyboard action -> behaves method (k resolved)) ->
  behaves method (bind (resolve_action_secret world services action) k).
Proof.
  intros Hk. unfold resolve_action_secret.
  destruct (HA.secret_handle action); [|by apply Hk].
  apply respects_assoc. calls.
Qed.

Lemma dispatch_action_behaves action observation_id :
  (HA.input_kind action = "raw_input" -> HS.allow_raw_input host0 = true) ->
  behaves "execute_action" (dispatch_action (M := M) world services action observation_id).
Proof.
  intros Hraw. unfold dispatch_action, require_keyboard_raw_input_grant. do 2 calls_step.
  apply bind_resolve_behaves. intros resolved Hk Hp. calls.
  split; [done|]. exists resolved, observation_id. facts. split; [done|].
  rewrite Hk, Hp. intros [Hr|Hu]; [by apply Hraw|].
  destruct (HS.allow_raw_input host0); [done|]. by rewrite Hu in *.
Qed.

Lemma refresh_confirmed_evidence_behaves request confirmed previous :
  HS.observation_mode host0 = TaskGrant.Semantic ->
  behaves "execute_action" (refresh_confirmed_evidence (M := M) world request confirmed previous).
Proof. intros Hm. unfold refresh_confirmed_evidence. behaves. Qed.

Lemma confirm_action_behaves request tier category :
  behaves "execute_action" (confirm_action (M := M) world services request tier category).
Proof.
  unfold confirm_action. behaves. apply refresh_confirmed_evidence_behaves. by facts.
Qed.

Lemma action_response_behaves method action_id message result mode :
  behaves method (action_response world id action_id message result mode).
Proof. unfold action_response. behaves. Qed.

Hint Resolve confirm_action_behaves action_response_behaves : respects.

Lemma without_snapshot_behaves method action_id message code reason result mode :
  behaves method (without_snapshot world id action_id message code reason result mode).
Proof. unfold without_snapshot. behaves. Qed.

Lemma failed_snapshot_behaves method action_id message error result mode :
  behaves method (failed_snapshot world id action_id message error result mode).
Proof. apply without_snapshot_behaves. Qed.

Hint Resolve without_snapshot_behaves failed_snapshot_behaves post_snapshot_delay_behaves
  : respects.

Lemma finish_action_behaves request action_id delay result mode :
  WA.session_id request = id ->
  (WA.capture_after request = true -> WA.post_snapshot_mode request = Request.Semantic ->
   HS.observation_mode host0 = TaskGrant.Semantic) ->
  behaves "execute_action" (finish_action world request action_id delay result mode).
Proof.
  intros Hid Hm.
  unfold finish_action, finish_with_accessibility, finish_with_screenshot. rewrite Hid. behaves.
Qed.

Lemma execute_action_behaves request delay mode :
  WA.session_id request = id ->
  behaves "execute_action" (handle_execute_action world services request delay mode).
Proof.
  intros Hid. unfold handle_execute_action. apply makes_check. intros self0 [] H0 Hc.
  apply check_action_ok in Hc as [Hraw _ _ Hs _ _].
  rewrite (fixed (f := HS.allow_raw_input) _ _ H0) in Hraw.
  rewrite (fixed (f := HS.observation_mode) _ _ H0) in Hs.
  calls.
  - by apply dispatch_action_behaves.
  - by apply finish_action_behaves.
Qed.

Lemma capture_clipboard_secret_behaves grant capability observation_id handle :
  behaves "clipboard_capture_secret"
    (capture_clipboard_secret (M := M) world services id grant capability observation_id handle).
Proof.
  unfold capture_clipboard_secret, check_capture, store_clipboard_secret.
  apply makes_check. intros self0 [] H0 Hc. unfold computer_use_error in Hc. open_ok.
  behaves.
Qed.

(** The text typed into a page is resolved before the adapter is used. *)
Lemma resolve_browser_type_behaves grant capability request :
  behaves "browser_type"
    (resolve_browser_type_request (M := M) world services id grant capability request).
Proof. unfold resolve_browser_type_request. behaves. Qed.

Hint Resolve resolve_browser_type_behaves : respects.

Lemma browser_type_behaves grant capability request mode :
  behaves "browser_type" (handle_browser_type world services id grant capability request mode).
Proof.
  unfold handle_browser_type, require_browser_input, require_current_browser_evidence,
    type_text.
  browses.
Qed.

(** ** The table of the sessions *)

(** What a table holds under [id] is the session of [host0], if anything. *)
Definition holds_session (sessions : Sessions) : Prop :=
  forall host, sessions !! id = Some host -> credentials host = credentials host0.

(** An operation leaves the other sessions alone, keeps what identifies the session if it
    keeps the session, opens none, and makes only calls that [allowed] holds of. *)
Record serves (allowed : forall A, core_op A -> Prop)
    (s s' : history window_call * (M * Sessions)) : Prop := {
  serves_others other : other <> id -> s'.2.2 !! other = s.2.2 !! other;
  serves_session : holds_session s.2.2 -> holds_session s'.2.2;
  serves_none : s.2.2 !! id = None -> s'.2.2 !! id = None;
  serves_calls : holds_session s.2.2 ->
    exists new, s'.1 = s.1 ++ new /\ Forall (core_calls allowed) new;
}.

#[export] Instance serves_preorder allowed : PreOrder (serves allowed).
Proof.
  split.
  - intros s. split; try done. intros _. exists []. rewrite app_nil_r. by split.
  - intros s1 s2 s3 [O12 C12 N12 K12] [O23 C23 N23 K23]. split; [|auto..|].
    + intros other Ho. rewrite O23, O12; done.
    + intros Hc. destruct (K12 Hc) as (n1 & E1 & F1).
      destruct (K23 (C12 Hc)) as (n2 & E2 & F2). exists (n1 ++ n2).
      rewrite E2, E1, app_assoc. split; [done|]. by apply Forall_app.
Qed.

Lemma serves_on_session {A} allowed grant capability
    (m : eff (history window_call * (M * HS.HostSession)) HostError.HostError A) :
  respects (makes allowed host0) m ->
  respects (serves allowed) (on_session id grant capability m).
Proof.
  intros Hm [h [mem sessions]] r [h' [mem' sessions']]. unfold on_session.
  destruct (sessions !! id) as [host|] eqn:Eid; [|intros H; injection H as _ <- <- <-; reflexivity].
  destruct (_ || _ : bool); [intros H; injection H as _ <- <- <-; reflexivity|].
  destruct (m _) as [[r1 [h1 [mem1 host1]]]|] eqn:Em; [|done].
  intros H. injection H as _ <- <- <-. apply Hm in Em. split; simpl.
  - intros other Ho. by rewrite lookup_insert_ne.
  - intros Hc host'. rewrite lookup_insert. case_decide; [|done]. intros [= <-].
    by apply Em, Hc.
  - congruence.
  - intros Hc. by apply Em, Hc.
Qed.

Lemma serves_authorized {A} allowed grant capability
    (m : eff (history window_call * (M * HS.HostSession)) HostError.HostError A) :
  respects (makes allowed host0) m ->
  respects (serves allowed) (authorized world id grant capability m).
Proof.
  intros Hm. unfold authorized. apply serves_on_session. respects.
  apply makes_host, keeps_host_le, host_le_authorize.
Qed.

Lemma serves_ask {E A} allowed (c : window_call A) :
  (forall a, core_calls allowed (asked c a)) ->
  respects (serves allowed) (ask (E := E) world c).
Proof.
  intros Hc [h t] r [h' t'] (-> & -> & ->)%ask_some. split; try done.
  intros _. eexists. split; [done|]. by constructor.
Qed.

Lemma serves_table {E} allowed (f : Sessions -> Sessions) :
  (forall sessions other, other <> id -> f sessions !! other = sessions !! other) ->
  (forall sessions host', f sessions !! id = Some host' ->
     exists host, sessions !! id = Some host /\ credentials host' = credentials host) ->
  respects (serves allowed) (on_table (M := M) (E := E) f).
Proof.
  intros Ho Hid [h [mem sessions]] r s' H. injection H as _ <-. split; simpl.
  - auto.
  - intros Hc host' (host & Hs & Hk)%Hid. rewrite Hk. by apply Hc.
  - intros Hn. destruct (f sessions !! id) eqn:Ef; [|done].
    apply Hid in Ef as (? & ? & _). congruence.
  - intros _. exists []. rewrite app_nil_r. by split.
Qed.

(** *** Every request *)

Hint Resolve terminate_app_behaves clipboard_read_behaves clipboard_write_behaves
  live_start_behaves live_state_behaves live_stop_behaves get_window_state_behaves
  snapshot_behaves zoom_behaves accessibility_snapshot_behaves verify_state_behaves
  call_tool_behaves browser_snapshot_behaves browser_prepare_behaves
  browser_navigate_behaves browser_click_behaves browser_pointer_behaves
  browser_files_behaves browser_download_behaves browser_dialog_behaves
  browser_type_behaves change_window_state_behaves minimize_window_behaves
  set_window_frame_behaves preparation_begin_behaves preparation_state_behaves
  preparation_stop_behaves preparation_snapshot_behaves find_behaves wait_for_behaves
  resume_session_behaves get_session_state_behaves get_input_state_behaves
  session_health_behaves poll_session_events_behaves cursor_tool_behaves
  escalate_session_behaves capture_clipboard_secret_behaves : respects.
Hint Extern 1 (respects (makes _ _) (handle_recording _ _ _ _)) =>
  apply recording_behaves; intros ?; cbn [licensed]; set_solver : respects.
Hint Extern 1 (respects (makes _ _) (handle_execute_action _ _ _ _ _)) =>
  by apply execute_action_behaves : respects.
Hint Extern 1 (respects (makes _ _) (handle_invoke_menu _ _ _)) =>
  by apply invoke_menu_behaves : respects.
Hint Resolve serves_authorized serves_on_session : respects.
Hint Extern 1 (respects (serves _) (ask _ _)) => by apply serves_ask : respects.

Lemma bind_lift_serves {A B} allowed (x : hresult A)
    (k : A -> eff (history window_call * (M * Sessions)) HostError.HostError B) :
  (forall a, x = Ok a -> respects (serves allowed) (k a)) ->
  respects (serves allowed) (bind (lift x) k).
Proof.
  intros Hk s r s' H. destruct x as [a|e].
  - by eapply Hk.
  - injection H as _ <-. reflexivity.
Qed.

Lemma terminate_app_serves grant capability :
  respects (serves (licensed id "terminate_app" host0))
    (terminate_app (M := M) world id grant capability).
Proof.
  unfold terminate_app. respects.
  apply (serves_table (E := HostError.HostError) _ (delete id)).
  - intros sessions other Ho. by rewrite lookup_delete_ne.
  - intros sessions host' H. by rewrite lookup_delete_eq in H.
Qed.

Lemma window_handler_serves mode request grant capability method m :
  window_method_scope request = Some (id, grant, capability, method) ->
  window_handler (M := M) world services mode request = Some m ->
  respects (serves (licensed id method host0)) m.
Proof.
  intros Hs Hw.
  destruct request; simpl in Hs; try discriminate Hs; injection Hs; intros; subst;
    cbn -[authorized on_session] in Hw; apply (inj Some) in Hw; subst m;
    repeat match goal with H : _ = id |- _ => rewrite H; clear H end.
  all: try solve [eauto with respects].
  all: unfold with_generation; repeat (apply bind_lift_serves; intros); respects.
  - by apply terminate_app_serves.
  - apply serves_authorized, invoke_menu_behaves. match goal with
    | H : rmap_err _ _ = Ok ?u |- _ => apply rmap_err_ok in H; by destruct u
    end.
Qed.

(** ** What a request leaves and what it calls *)

Lemma serves_route {E} allowed route f :
  EvidenceRoute.session_id route = id ->
  (forall host, credentials (f route host) = credentials host) ->
  respects (serves allowed) (on_table (M := M) (E := E) (route_session (Some route) f)).
Proof.
  intros Hr Hf. apply serves_table; unfold route_session; rewrite Hr.
  - intros sessions other Ho. destruct (sessions !! id); [|done]. by rewrite lookup_insert_ne.
  - intros sessions host'. destruct (sessions !! id) as [host|] eqn:E1; [|congruence].
    rewrite lookup_insert_eq. intros [= <-]. by exists host.
Qed.

Lemma scope_is_routed request grant capability method :
  window_method_scope request = Some (id, grant, capability, method) ->
  exists route, window_evidence_epoch_route request = Some route
    /\ EvidenceRoute.session_id route = id.
Proof.
  destruct request; simpl; intros H; try discriminate H; injection H; intros; subst; by eauto.
Qed.

(** The request itself, once its session is synchronised. *)
Lemma handle_request_inner_serves transport request grant capability method sessions h m r s' :
  window_method_scope request = Some (id, grant, capability, method) ->
  handle_request_inner (M := M) world services transport request (h, (m, sessions))
    = Some (r, s') ->
  s' = (h, (m, sessions))
  \/ enforce_task_authorized_method sessions request = Ok tt
     /\ serves (licensed id method host0) (h, (m, sessions)) s'.
Proof.
  intros Hs. unfold handle_request_inner.
  intros [(e & s1 & [_ ->]%lift_some & [= -> ->]) | ([] & s1 & [_ ->]%lift_some & H)]%bind_some;
    [by left|].
  destruct transport as [mode|]; [|injection H as _ <-; by left].
  change (bind (lift (enforce_task_authorized_method sessions request)) (fun _ =>
    match window_handler world services mode request with
    | Some m => m
    | None => Effects.panic
    end) (h, (m, sessions)) = Some (r, s')) in H.
  apply bind_some in H as
    [(e & s1 & [_ ->]%lift_some & [= -> ->]) | ([] & s1 & [He ->]%lift_some & H)]; [by left|].
  right. split; [done|]. destruct (window_handler _ _ _ _) as [m1|] eqn:Ew; [|done].
  by eapply window_handler_serves in H.
Qed.
End Handlers.

Section Requests.
Context {M : Type} `{SM : SharedImage.SharedMemory M} `{P : Platform}.
Context `{DL : !Digestible UnsignedLease.UnsignedTaskAuthorizationLeaseValidationRequest}.
Context `{DV : !Digestible UnsignedVal.UnsignedTaskAuthorizationValidationRequest}.
Context `{WF : WireFormat} `{BF : BrowserFiles}.
Context (world : oracle window_call) (services : Services.HostSecurityServices).

(** A request around its inner part: before it the session is synchronised, after it the
    session is dated. *)
Lemma handle_request_serves transport request id host0 grant capability method allowed s r s' :
  window_method_scope request = Some (id, grant, capability, method) ->
  handle_request (M := M) world services transport request s = Some (r, s') ->
  (forall inner s2,
    handle_request_inner (M := M) world services transport request
      (s.1, (s.2.1, prepare_window_evidence_request (window_evidence_epoch_route request) s.2.2))
      = Some (inner, s2) ->
    serves id host0 allowed
      (s.1, (s.2.1, prepare_window_evidence_request (window_evidence_epoch_route request) s.2.2))
      s2) ->
  serves id host0 allowed s s'.
Proof.
  intros Hs H Hinner. destruct (scope_is_routed _ _ _ _ _ Hs) as (route & Hroute & Hid).
  destruct s as [h [m sessions]]. unfold handle_request in H. rewrite Hroute in *.
  apply bind_some in H as [(? & ? & [=] & _) | ([] & s1 & H1 & H)].
  etrans; [eapply (serves_route _ _ _ route (fun _ => synchronized)), H1; [done|]|].
  { intros host. apply sync_keeps. }
  injection H1 as <-.
  apply bind_some in H as [(? & ? & (? & _ & [=])%attempt_some & _) | (inner & s2 & H2 & H)].
  apply attempt_some in H2 as (inner' & H2 & _). etrans; [by eapply Hinner|].
  revert H. apply respects_bind; [apply _ | by apply serves_ask | intros now].
  apply respects_bind; [apply _ | | intros _; apply respects_lift, _].
  apply (serves_route _ _ _ route); [done|]. intros host. apply finish_request_keeps.
Qed.

(** The session that a core operation of a request is licensed by. *)
Definition granted_operation (request : Request.Request) (sessions : Sessions)
    (id grant capability method : string) (A : Type) (op : core_op A) : Prop :=
  exists host, sessions !! id = Some host
    /\ HS.task_grant_id host = grant /\ HS.capability host = capability
    /\ AuthorizationScope.permitted id method request (synchronized host)
    /\ licensed id method host A op.

Lemma serves_weaken id host0 (p q : forall A, core_op A -> Prop)
    (s s' : history window_call * (M * Sessions)) :
  (forall A op, p A op -> q A op) -> serves id host0 p s s' -> serves id host0 q s s'.
Proof.
  intros Hpq [Ho Hs Hn Hc]. split; try done. intros H. destruct (Hc H) as (new & E & F).
  exists new. split; [done|]. eapply Forall_impl; [exact F|].
  intros [A [[] ?]]; try done. apply Hpq.
Qed.

Lemma prepared_session request id grant capability method sessions host :
  window_method_scope request = Some (id, grant, capability, method) ->
  prepare_window_evidence_request (window_evidence_epoch_route request) sessions !! id
    = Some host ->
  exists host0, sessions !! id = Some host0 /\ host = synchronized host0.
Proof.
  intros Hs. destruct (scope_is_routed _ _ _ _ _ Hs) as (route & -> & Hid).
  unfold prepare_window_evidence_request, route_session. rewrite Hid.
  destruct (sessions !! id) as [host0|] eqn:E; [|congruence].
  rewrite lookup_insert_eq. intros [= <-]. by exists host0.
Qed.

(** What the check in front of the handlers found, said of the table before it. *)
Lemma enforced_session request id grant capability method sessions :
  window_method_scope request = Some (id, grant, capability, method) ->
  enforce_task_authorized_method
    (prepare_window_evidence_request (window_evidence_epoch_route request) sessions) request
    = Ok tt ->
  exists host, sessions !! id = Some host
    /\ HS.task_grant_id host = grant /\ HS.capability host = capability
    /\ AuthorizationScope.permitted id method request (synchronized host).
Proof.
  intros Hs. unfold enforce_task_authorized_method. rewrite Hs.
  destruct (_ !! id) as [host|] eqn:Eid; [|done].
  apply (prepared_session _ _ _ _ _ _ _ Hs) in Eid as (host0 & Eid & ->).
  intros [Hc Hp]%guard_ok. apply orb_false_iff in Hc as [Hg Hk].
  apply negb_false_iff, bool_decide_eq_true in Hg, Hk.
  destruct (sync_keeps Publication.None_ host0) as [_ Hcred]. exists host0.
  rewrite <- (fixed (f := HS.task_grant_id) _ _ Hcred).
  rewrite <- (fixed (f := HS.capability) _ _ Hcred).
  split_and!; [done .. | by apply enforce_on_session_permits].
Qed.

(** C1: a request uses the core session only for what its session was granted.  Whatever
    the core, the clocks, the vault and the user answer, a request for a window session
    that returns leaves every other session of the connection as it was, opens none, and
    does not change what its session is identified by and granted.  Every operation of
    the core session it calls belongs to the method of the request; the session exists
    under the presented grant and capability, its lease and its mode permit the method,
    and the flag or the trusted scope that the operation needs is among its grants. *)
Theorem window_calls_are_licensed transport request id grant capability method
    h m sessions r h' m' sessions' :
  window_method_scope request = Some (id, grant, capability, method) ->
  handle_request (M := M) world services transport request (h, (m, sessions))
    = Some (r, (h', (m', sessions'))) ->
  (forall other, other <> id -> sessions' !! other = sessions !! other)
  /\ (forall host', sessions' !! id = Some host' ->
      exists host, sessions !! id = Some host /\ credentials host' = credentials host)
  /\ exists new, h' = h ++ new
     /\ Forall (core_calls (granted_operation request sessions id grant capability method))
          new.
Proof.
  intros Hs H. set (host0 := unwrap_or (sessions !! id) sample_window_host).
  assert (Hheld : holds_session id host0 sessions).
  { intros host Hh. unfold host0. by rewrite Hh. }
  assert (Hserves : serves id host0
    (granted_operation request sessions id grant capability method)
    (h, (m, sessions)) (h', (m', sessions'))).
  { eapply handle_request_serves; [exact Hs | exact H|]. intros inner s2 Hi.
    eapply handle_request_inner_serves in Hi as [->|[He Hi]]; [reflexivity | | exact Hs].
    eapply serves_weaken; [|exact Hi]. intros A op Hl.
    destruct (enforced_session _ _ _ _ _ _ Hs He) as (host & Eh & ? & ? & ?).
    cbn [fst snd] in Eh. exists host. unfold host0 in Hl. rewrite Eh in Hl. by split_and!. }
  destruct Hserves as [Ho Hcred Hn Hcalls]. split_and!; [exact Ho | | by apply Hcalls].
  intros host' Hh'. specialize (Hcred Hheld host' Hh'). unfold host0 in Hcred.
  destruct (sessions !! id) as [host|] eqn:E; [by exists host|].
  specialize (Hn E). simpl in Hn. congruence.
Qed.
End Requests.
