(* ===== verification/WindowInput.v ===== *)
(** * The input and the secrets of a window session
    ([crates/dcc-cua-host/src/request_handler.rs])

    An action of a window session reaches its core at most once, after the checks, the
    policy and the confirmation that the Host asks for; a secret reaches the vault only
    after the user, or the lease, allowed it, and never a response. *)

From S2P Require Import Prelude Records Effects Calls RustStr Json Protocol Errors.
From S2P Require Import Contracts TargetPolicy InputState SessionEvents SessionHealth.
From S2P Require Import HostAction Confirmation Platform CapturePreparation TaskGrant.
From S2P Require Import TaskAuthorization Request SecretVault RuntimeSession Admission.
From S2P Require Import BrowserEvidence BrowserSession HostSession Images.
From S2P Require Import AuthorizationScope WindowWorld WindowRequests WindowMutations.
From S2P Require Import WindowQueries WindowActions WindowDispatch WindowPermissions.
From S2P Require SharedImage.

Import CoreOp (core_op).

(** ** Calls that act *)

Definition is_perform {A} (op : core_op A) : bool :=
  match op with CoreOp.PerformAction _ => true | _ => false end.

(** An action that reaches the core. *)
Definition is_input (c : call_record) : bool :=
  match (projT2 c).1 with
  | Core op _ => is_perform op
  | _ => false
  end.

(** A secret that reaches the vault. *)
Definition is_store (c : call_record) : bool :=
  match (projT2 c).1 with StoreSecret _ _ => true | _ => false end.

(** ** What an input was admitted by

    The answers an admission rests on are among the [calls] made before it. *)

(** The confirmation of [action] for the evidence of a session was allowed: by the
    authority of its lease, at a time read from the clock, or else by the user. *)
Definition confirmed_by `{WF : WireFormat}
    `{DV : !Digestible UnsignedVal.UnsignedTaskAuthorizationValidationRequest}
    (services : Services.HostSecurityServices) (host : HS.HostSession)
    (calls : history window_call) (session_id grant capability observation_id : string)
    (accessibility_state_id : option string) (intent : string) (action : value) : Prop :=
  exists confirmation,
    asks_about confirmation_digest session_id grant capability
      (Some (HS.target_process_id host, HS.target_window_handle host))
      observation_id accessibility_state_id intent action confirmation
    /\ match HS.task_authorization host with
       | Some lease => exists now, asked UnixMillis now ∈ calls
           /\ lease_allows (Services.task_authorization_host services) now lease confirmation
       | None => HS.allow_trusted_confirmation host = true
           /\ user_allows (Services.confirmation_host services) confirmation
       end.

(** The confirmation an action needs, with its category, for the evidence it names. *)
Definition confirmed_action `{WF : WireFormat}
    `{DV : !Digestible UnsignedVal.UnsignedTaskAuthorizationValidationRequest}
    (services : Services.HostSecurityServices) (request : WA.WindowAction)
    (host : HS.HostSession) (calls : history window_call) (category : string) : Prop :=
  exists v, action_json (WA.action request) = Ok v
    /\ confirmed_by services host calls (WA.session_id request) (WA.task_grant_id request)
         (WA.window_capability request) (WA.observation_id request)
         (match HS.observation_mode host with
          | TaskGrant.Semantic => Some (WA.accessibility_state_id request)
          | PixelsOnly => None
          end)
         (HA.intent (WA.action request)) (confirmed_value v category).

(** Two observations of the window of a session, with the same geometry. *)
Definition same_view (host : HS.HostSession)
    (previous refreshed : Observation.ComputerUseObservation) : Prop :=
  (forall observation, observation ∈ [previous; refreshed] ->
     Observation.process_id observation = HS.target_process_id host
     /\ Observation.window_handle observation = HS.target_window_handle host)
  /\ Observation.session_id refreshed = Observation.session_id previous
  /\ Observation.source_rect refreshed = Observation.source_rect previous
  /\ Observation.width refreshed = Observation.width previous
  /\ Observation.height refreshed = Observation.height previous.

(** The observation an action is performed on: the one it names, or, when the tree had to
    be read again after its confirmation, the one the core recorded with this reading: of
    the same window with the same geometry, and with a tree under which the action is what
    the user was asked about. *)
Definition performed_on `{WF : WireFormat} (request : WA.WindowAction)
    (host : HS.HostSession) (calls : history window_call) (category : string)
    (observation_id : string) : Prop :=
  observation_id = WA.observation_id request
  \/ HS.observation_mode host = TaskGrant.Semantic
     /\ exists nodes depth session session' root v previous refreshed,
        asked (Core (CoreOp.AccessibilitySnapshot nodes depth) session) (Ok root, session') ∈ calls
        /\ CS.observation (HS.session host) = Some previous
        /\ CS.observation session' = Some refreshed
        /\ Observation.observation_id refreshed = observation_id
        /\ same_view host previous refreshed
        /\ action_json (WA.action request) = Ok v
        /\ value_eqb (confirmed_value v (authorization_category (WA.action request) (Some root)))
             (confirmed_value v category) = true
        /\ safety_tier (WA.action request) (Some root) = ActionConfirmation.

(** The action, with the text the vault gave for its secret if it names one. *)
Definition resolves (services : Services.HostSecurityServices) (calls : history window_call)
    (action resolved : HA.HostAction) : Prop :=
  match HA.secret_handle action with
  | None => resolved = action
  | Some handle =>
      Services.has_vault services = true
      /\ exists secret, asked (ResolveSecret handle) (Ok secret) ∈ calls
         /\ resolved = action <| HA.text := Some secret |> <| HA.secret_handle := None |>
  end.

Definition admitted_input `{WF : WireFormat}
    `{DV : !Digestible UnsignedVal.UnsignedTaskAuthorizationValidationRequest}
    (services : Services.HostSecurityServices) (request : WA.WindowAction)
    (host : HS.HostSession) (calls : history window_call) (c : call_record) : Prop :=
  let action := WA.action request in
  let tier := safety_tier action (HS.latest_accessibility_root host) in
  let category := authorization_category action (HS.latest_accessibility_root host) in
  checked request host
  /\ tier <> HardDeny
  /\ (tier ∈ [ActionConfirmation; PreApproval] \/ is_Some (HS.task_authorization host) ->
      confirmed_action services request host calls category)
  /\ (HA.input_kind action = "raw_input" \/ HA.keys action <> [] \/ HA.modifiers action <> []
      \/ HA.action action ∈ ["keypress"; "press"; "press_key"; "keyboard_shortcut"; "hotkey"] ->
      HS.allow_raw_input host = true)
  /\ exists resolved observation_id performed session answer,
      resolves services calls action resolved
      /\ performed_on request host calls category observation_id
      /\ sent_as resolved observation_id performed
      /\ c = asked (Core (CoreOp.PerformAction performed) session) answer.

#[local] Set Default Proof Using "Type*".

Section Quiet.
Context {M : Type} `{SM : SharedImage.SharedMemory M} `{P : Platform}.
Context `{DL : !Digestible UnsignedLease.UnsignedTaskAuthorizationLeaseValidationRequest}.
Context `{DV : !Digestible UnsignedVal.UnsignedTaskAuthorizationValidationRequest}.
Context `{WF : WireFormat} `{BF : BrowserFiles}.
Context (world : oracle window_call) (services : Services.HostSecurityServices).

(** Of the calls, at most core operations and what is stored in the vault. *)
Class Calm (interesting : call_record -> bool) : Prop :=
  calm A (c : window_call A) a :
    match c with
    | Core _ _ | StoreSecret _ _ => True
    | _ => interesting (asked c a) = false
    end.

#[export] Instance calm_input : Calm is_input.
Proof. by intros ? []. Qed.
#[export] Instance calm_store : Calm is_store.
Proof. by intros ? []. Qed.

(** An operation of the core that is not of interest. *)
Definition unseen {A} (interesting : call_record -> bool) (op : core_op A) : Prop :=
  forall session a, interesting (asked (Core op session) a) = false.

Hint Extern 1 (respects (quiet _) (ask _ ?c)) =>
  apply quiet_ask; intros ?; exact (calm _ c _) : respects.
Hint Extern 1 (respects (quiet _) (host _)) => apply quiet_silent : respects.
Hint Extern 1 (respects (quiet _) (host_read _)) => apply quiet_silent : respects.
Hint Extern 1 (respects (quiet _) (host_modify _)) => apply quiet_silent : respects.
Hint Extern 1 (respects (quiet _) (imaging _)) => apply quiet_silent : respects.

Section Calm.
Context (interesting : call_record -> bool) `{C : !Calm interesting}.

Abbreviation quietly m := (respects (quiet interesting) m).

Lemma quiet_call_core {E A} (op : core_op A) :
  unseen interesting op -> quietly (call_core (M := M) (E := E) world op).
Proof. intros Hop. unfold call_core. respects. apply quiet_ask, Hop. Qed.

Lemma quiet_finish_attempt {A} (result : cresult A) : quietly (finish (M := M) world result).
Proof. unfold finish. respects. Qed.
Hint Resolve quiet_finish_attempt : respects.

Lemma quiet_sensitive {A} (op : core_op (cresult A)) :
  unseen interesting op -> quietly (sensitive (M := M) world op).
Proof. intros Hop. unfold sensitive. respects. by apply quiet_call_core. Qed.

Lemma quiet_host_check {E A} (f : HS.HostSession -> result E A) :
  quietly (host_check (M := M) f).
Proof. unfold host_check. respects. Qed.
Hint Resolve quiet_host_check : respects.

Lemma quiet_ensure : quietly (ensure_not_interrupted (M := M) world).
Proof. unfold ensure_not_interrupted, refresh_banner. respects. Qed.
Hint Resolve quiet_ensure : respects.

Lemma quiet_revalidate : quietly (revalidate_queued_action (M := M) world).
Proof. unfold revalidate_queued_action, revalidate_queued_window_mutation. respects. Qed.

Lemma quiet_confirm binding intent action :
  quietly (confirm (M := M) world services binding intent action).
Proof. unfold confirm, decide. respects. Qed.

Lemma quiet_refusal outcome : quietly (refusal_response (M := M) outcome).
Proof. unfold refusal_response. respects. Qed.
End Calm.

Hint Resolve calm_input calm_store quiet_finish_attempt quiet_host_check quiet_ensure quiet_revalidate quiet_confirm
  quiet_refusal : respects.
Hint Extern 1 (respects (quiet _) (sensitive _ _)) =>
  apply quiet_sensitive; first [apply _ | intros ? ?; reflexivity] : respects.

Abbreviation quietly m := (respects (quiet is_input) m).

Lemma quiet_confirm_action request tier category :
  quietly (confirm_action (M := M) world services request tier category).
Proof. unfold confirm_action, refresh_confirmed_evidence, core_error. respects. Qed.

Lemma quiet_resolve action :
  quietly (resolve_action_secret (M := M) world services action).
Proof. unfold resolve_action_secret, resolve_secret. respects. Qed.

Lemma quiet_finish_action request action_id delay result mode :
  quietly (finish_action (M := M) world request action_id delay result mode).
Proof.
  unfold finish_action, wait_for_window_post_snapshot_delay, ended, delay_round,
    finish_with_accessibility, finish_with_screenshot, failed_snapshot, without_snapshot,
    action_response.
  respects.
Qed.

(** ** What the steps of an action establish *)

Lemma host_read_ok {E A} (f : HS.HostSession -> A) h m host a s' :
  host_read (M := M) (E := E) f (h, (m, host)) = Some (Ok a, s') ->
  a = f host /\ s' = (h, (m, host)).
Proof. intros H. by injection H as <- <-. Qed.

Lemma host_check_ok {E A} (f : HS.HostSession -> result E A) h m host a s' :
  host_check (M := M) f (h, (m, host)) = Some (Ok a, s') ->
  f host = Ok a /\ s' = (h, (m, host)).
Proof. intros H. by injection H as <- <-. Qed.

Lemma ask_ok {S E A} (c : window_call A) h (t : S) a s' :
  ask (E := E) world c (h, t) = Some (Ok a, s') ->
  a = world A h c /\ s' = (h ++ [asked c a], t).
Proof. intros H. by injection H as <- <-. Qed.

(** An operation of the core that succeeds leaves the session the core answered. *)
Lemma sensitive_ok {A} (op : core_op (cresult A)) a h m host h' m' host' :
  sensitive (M := M) world op (h, (m, host)) = Some (Ok a, (h', (m', host'))) ->
  exists session' now, h' = h ++ [asked (Core op (HS.session host)) (Ok a, session')]
                              ++ [asked ObservedAt now]
    /\ m' = m /\ HS.session host' = session'.
Proof.
  unfold sensitive, call_core. intros (result & s1 & H1 & H)%bind_ok.
  apply bind_ok in H1 as (session & s2 & [-> ->]%host_read_ok & H1).
  apply bind_ok in H1 as ([answer session'] & s2 & [Hw ->]%ask_ok & H1).
  apply bind_ok in H1 as ([] & s2 & H2 & H1). injection H2 as <-. injection H1 as <- <-.
  unfold finish in H. apply bind_ok in H as (now & s2 & [-> ->]%ask_ok & H).
  unfold WindowWorld.host in H. apply silent_some in H as [H ->]. cbn in H.
  destruct answer as [a'|e].
  - injection H as -> <- <-. eexists session', _. rewrite <- app_assoc.
    split_and!; [done..|]. exact (proj2 (synchronized_epoch Publication.None_ _)).
  - unfold on_part in H. destruct (finish_host_attempt (A := A) _ _ _) as [[r1 host1]|] eqn:E; [|done].
    injection H as -> _ _. unfold finish_host_attempt in E.
    by repeat apply bind_ok in E as (? & ? & _ & E).
Qed.

(** The act: one call. *)
Lemma acts_perform {E} action (s : history window_call * (M * HS.HostSession)) :
  acts is_input (fun _ c => exists session answer,
      c = asked (Core (CoreOp.PerformAction action) session) answer)
    (attempt (F := E) (sensitive (M := M) world (CoreOp.PerformAction action))) s.
Proof.
  destruct s as [h [m host]]. apply acts_attempt. unfold sensitive, call_core.
  apply acts_before; [|intros; apply quiet_finish_attempt, _].
  apply acts_after; [apply quiet_silent|]. intros session s1 [-> ->]%host_read_ok.
  apply acts_before; [|intros [? ?]; respects]. by apply acts_act; [|eauto].
Qed.

Lemma confirmed_by_app services' host calls more session_id grant capability id state intent v :
  confirmed_by services' host calls session_id grant capability id state intent v ->
  confirmed_by services' host (calls ++ more) session_id grant capability id state intent v.
Proof.
  intros (confirmation & Ha & Hc). exists confirmation. split; [done|].
  destruct (HS.task_authorization host); [|done]. destruct Hc as (now & Hin & ?).
  exists now. split; [|done]. apply elem_of_app. by left.
Qed.

Lemma confirmed_action_app request host calls more category :
  confirmed_action services request host calls category ->
  confirmed_action services request host (calls ++ more) category.
Proof. intros (v & ? & ?). exists v. split; [done|]. by apply confirmed_by_app. Qed.

Lemma performed_on_app request host calls more category id :
  performed_on request host calls category id ->
  performed_on request host (calls ++ more) category id.
Proof.
  intros [?|(Hm & nodes & depth & session & session' & root & v & p & q & Hin & ?)]; [by left|].
  right. split; [done|]. exists nodes, depth, session, session', root, v, p, q.
  split; [|done]. apply elem_of_app. by left.
Qed.

Lemma performed_on_after request host calls more category id :
  performed_on request host more category id ->
  performed_on request host (calls ++ more) category id.
Proof.
  intros [?|(Hm & nodes & depth & session & session' & root & v & p & q & Hin & ?)]; [by left|].
  right. split; [done|]. exists nodes, depth, session, session', root, v, p, q.
  split; [|done]. apply elem_of_app. by right.
Qed.

Lemma resolves_after services' calls more action resolved :
  resolves services' more action resolved -> resolves services' (calls ++ more) action resolved.
Proof.
  unfold resolves. destruct (HA.secret_handle action); [|done].
  intros (? & secret & Hin & ?). split; [done|]. exists secret. split; [|done].
  apply elem_of_app. by right.
Qed.

Lemma resolves_app services' calls more action resolved :
  resolves services' calls action resolved -> resolves services' (calls ++ more) action resolved.
Proof.
  unfold resolves. destruct (HA.secret_handle action); [|done].
  intros (? & secret & Hin & ?). split; [done|]. exists secret. split; [|done].
  apply elem_of_app. by left.
Qed.

Lemma window_confirm_ok session_id grant capability observation_id state intent action h m host
    outcome h' t' :
  confirm (M := M) world services (fun self =>
      confirmation_binding session_id grant capability self observation_id (state self))
    intent action (h, (m, host)) = Some (Ok outcome, (h', t')) ->
  t' = (m, host) /\ exists new, h' = h ++ new
    /\ (outcome = Allowed -> confirmed_by services host new session_id grant capability
          observation_id (state host) intent action).
Proof.
  unfold confirm, decide.
  intros (uuid & s1 & [_ ->]%ask_ok & H)%bind_ok.
  apply bind_ok in H as (confirmation & s1 & [Hc ->]%host_check_ok & H).
  apply bind_ok in H as (now & s1 & [-> ->]%ask_ok & H).
  apply bind_ok in H as (uuid' & s1 & [_ ->]%ask_ok & H).
  apply bind_ok in H as (self & s1 & [-> ->]%host_read_ok & H).
  injection H as <- <- <-. split; [done|]. eexists. rewrite <- !app_assoc. split; [done|].
  intros Ha. exists confirmation. apply new_value_asks in Hc. split; [exact Hc|].
  apply authorize_window_allows in Ha. unfold Datatypes.id in Ha.
  destruct (HS.task_authorization host) as [lease|]; [|done].
  eexists. split; [|exact Ha]. right. by left.
Qed.

Lemma rebind_ok action confirmed window previous refreshed root id :
  rebind_confirmed_action_evidence action confirmed window previous refreshed root = Ok id ->
  Observation.observation_id refreshed = id
  /\ (forall observation, observation ∈ [previous; refreshed] ->
      Observation.process_id observation = Window.process_id window
      /\ Observation.window_handle observation = Window.window_handle window)
  /\ Observation.session_id refreshed = Observation.session_id previous
  /\ Observation.source_rect refreshed = Observation.source_rect previous
  /\ Observation.width refreshed = Observation.width previous
  /\ Observation.height refreshed = Observation.height previous
  /\ exists v, action_json action = Ok v
     /\ value_eqb (confirmed_value v (authorization_category action (Some root))) confirmed = true
     /\ safety_tier action (Some root) = ActionConfirmation.
Proof.
  unfold rebind_confirmed_action_evidence, same_exact_target, same_geometry.
  intros (v & Hv%rmap_err_ok & H)%rbind_ok. apply guard_ok in H as [Hb H]. injection H as <-.
  rewrite !orb_false_iff, !negb_false_iff, !andb_true_iff, !bool_decide_eq_true, !Z.eqb_eq in Hb.
  destruct Hb as (([[? ?] [? ?]] & [[[? ?] ?] ?]) & [[? ?] ?]).
  split_and!; try done.
  - intros observation Hin. set_unfold in Hin. by destruct Hin as [->|[->|[]]].
  - by exists v.
Qed.

Lemma refresh_ok request v category previous observation_id h m host h' t' :
  HS.observation_mode host = TaskGrant.Semantic ->
  CS.observation (HS.session host) = Some previous ->
  action_json (WA.action request) = Ok v ->
  refresh_confirmed_evidence (M := M) world request (confirmed_value v category) previous
    (h, (m, host)) = Some (Ok observation_id, (h', t')) ->
  exists new, h' = h ++ new /\ performed_on request host new category observation_id.
Proof.
  intros Hm Hp Hv. unfold refresh_confirmed_evidence.
  intros (root & [h1 [m1 host1]] & H1 & H)%bind_ok.
  assert (Hc : credentials host1 = credentials host).
  { assert (Hmakes : respects (makes (fun _ _ => True) host) (core_error (sensitive (M := M) world
      (CoreOp.AccessibilitySnapshot (WA.post_snapshot_max_nodes request)
         (WA.post_snapshot_max_depth request))))).
    { unfold core_error. respects. }
    by apply Hmakes in H1; apply H1. }
  unfold core_error in H1. apply map_error_some in H1 as ([root'|] & H1 & [=]). subst root'.
  apply sensitive_ok in H1 as (session' & now & -> & -> & Hs).
  apply bind_ok in H as (refreshed & s2 & [Hr%ok_or_ok ->]%host_check_ok & H).
  apply bind_ok in H as (self & s2 & [-> ->]%host_read_ok & H).
  unfold Datatypes.id in H. rewrite (fixed (f := HS.target_process_id) _ _ Hc) in H.
  rewrite (fixed (f := HS.target_window_handle) _ _ Hc) in H.
  destruct (rebind_confirmed_action_evidence _ _ _ _ _ _) as [id|e] eqn:Er.
  2:{ by apply bind_ok in H as (? & ? & _ & [=]). }
  apply bind_ok in H as (? & ? & H1 & H). injection H1 as _ <-. injection H as <- <- _.
  eexists. split; [done|]. right. split; [done|].
  apply rebind_ok in Er as (? & ? & ? & ? & ? & ? & v' & Hv' & ? & ?).
  rewrite Hv in Hv'. injection Hv' as <-. unfold latest_observation in Hr. rewrite Hs in Hr.
  exists (WA.post_snapshot_max_nodes request), (WA.post_snapshot_max_depth request),
    (HS.session host), session', root, v, previous, refreshed.
  unfold same_view. split_and!; try done. by left.
Qed.

Lemma confirm_action_ok request tier category outcome observation_id h m host h' t' :
  confirm_action (M := M) world services request tier category (h, (m, host))
    = Some (Ok (outcome, observation_id), (h', t')) ->
  exists new, h' = h ++ new /\ performed_on request host new category observation_id
    /\ (outcome = Allowed -> confirmed_action services request host new category).
Proof.
  unfold confirm_action. intros (previous & s1 & [Hp ->]%host_check_ok & H)%bind_ok.
  apply ok_or_ok in Hp.
  apply bind_ok in H as (v & s1 & [Hv ->]%lift_some & H). symmetry in Hv.
  apply rmap_err_ok in Hv.
  apply bind_ok in H as (outcome1 & [h1 t1] & (-> & n1 & -> & Hc)%window_confirm_ok & H).
  apply bind_ok in H as (self & s1 & [-> ->]%host_read_ok & H).
  apply bind_ok in H as (now & s1 & [_ ->]%ask_ok & H).
  assert (Hconf : outcome1 = Allowed -> confirmed_action services request host n1 category).
  { intros Ha. exists v. split; [done|]. specialize (Hc Ha).
    by destruct (HS.observation_mode host). }
  destruct (_ && _ : bool) eqn:Eb.
  - apply bind_ok in H as (id & [h2 t2] & H1 & H). injection H as <- <- <- _.
    apply andb_true_iff in Eb as [Eb _]. apply andb_true_iff in Eb as [_ Em].
    apply bool_decide_eq_true in Em.
    apply (refresh_ok request v category) in H1 as (n2 & -> & Hr); [|done..].
    eexists. rewrite <- !app_assoc. split; [done|]. split.
    + by apply performed_on_after, performed_on_after.
    + intros Ha. by apply confirmed_action_app, Hconf.
  - injection H as <- <- <- _. eexists. rewrite <- app_assoc. split; [done|].
    split; [by left|]. intros Ha. by apply confirmed_action_app, Hconf.
Qed.

Lemma resolve_action_secret_ok action resolved h (t : M * HS.HostSession) h' t' :
  resolve_action_secret (M := M) world services action (h, t) = Some (Ok resolved, (h', t')) ->
  t' = t /\ exists new, h' = h ++ new /\ resolves services new action resolved.
Proof.
  unfold resolve_action_secret, resolves.
  destruct (HA.secret_handle action) as [handle|].
  - intros (secret & [h1 t1] & H1 & H)%bind_ok. injection H as <- <- <-.
    unfold resolve_secret in H1. destruct (Services.has_vault services); [|done]. simpl in H1.
    apply bind_ok in H1 as (answer & [h2 t2] & H2 & H1).
    apply ask_some in H2 as ([= ->] & -> & ->).
    apply lift_some in H1 as [Hs [= -> ->]]. symmetry in Hs. apply rmap_err_ok in Hs.
    split; [done|]. eexists. split; [done|]. split; [done|]. exists secret.
    split; [rewrite Hs; by left | done].
  - intros H. injection H as <- <- <-. split; [done|]. exists []. by rewrite app_nil_r.
Qed.

Lemma dispatch_acts action observation_id h calls m host :
  acts is_input (since h (fun calls' c => (exists more, calls' = calls ++ more)
      /\ (uses_physical_keyboard action = true -> HS.allow_raw_input host = true)
      /\ exists resolved performed session answer, resolves services calls' action resolved
         /\ sent_as resolved observation_id performed
         /\ c = asked (Core (CoreOp.PerformAction performed) session) answer))
    (dispatch_action (M := M) world services action observation_id) (h ++ calls, (m, host)).
Proof.
  unfold dispatch_action.
  apply acts_after; [apply quiet_silent|]. intros allowed s1 [-> ->]%host_read_ok.
  apply acts_lift. intros [] Hraw.
  apply acts_after; [apply quiet_resolve|].
  intros resolved [h2 t2] (-> & n2 & -> & Hr)%resolve_action_secret_ok.
  apply acts_lift. intros performed Hp%rmap_err_ok%into_computer_use_sends.
  eapply acts_impl.
  2:{ apply acts_from. apply acts_after.
      { destruct (_ || _ : bool); unfold await_input_turn; respects; by apply quiet_ask. }
      intros [] s3 _. apply acts_after; [apply quiet_revalidate, _|]. intros [] [h4 [m4 host4]] _.
      apply acts_before; [|intros; respects]. apply acts_perform. }
  intros hist c ((n3 & ->) & session & answer & ->). simpl.
  exists (calls ++ n2 ++ n3). split; [by rewrite <- !app_assoc|]. split_and!.
  - by exists (n2 ++ n3).
  - intros Hu. unfold require_keyboard_raw_input_grant in Hraw. rewrite Hu in Hraw.
    by destruct (HS.allow_raw_input host).
  - exists resolved, performed, session, answer. split_and!; try done.
    by apply resolves_after, resolves_app.
Qed.

(** The confirmation of an action, if it needs one. *)
Lemma confirmed_step request tier category observation_id h m host h1 m1 host1 :
  (if requires_confirmation tier || is_some (HS.task_authorization host)
   then confirm_action (M := M) world services request tier category
   else ret (Allowed, WA.observation_id request)) (h, (m, host))
    = Some (Ok (Allowed, observation_id), (h1, (m1, host1))) ->
  credentials host1 = credentials host
  /\ exists new, h1 = h ++ new /\ performed_on request host new category observation_id
  /\ (tier ∈ [ActionConfirmation; PreApproval] \/ is_Some (HS.task_authorization host) ->
      confirmed_action services request host new category).
Proof using All.
  destruct (_ || _ : bool) eqn:Eb.
  - intros H. split.
    + by apply (confirm_action_behaves world services (WA.session_id request) host) in H; apply H.
    + apply confirm_action_ok in H as (new & ? & ? & Hc). exists new. auto.
  - intros H. injection H as <- <- _ <-. split; [done|]. exists []. rewrite app_nil_r.
    split_and!; [done | by left |]. apply orb_false_iff in Eb as [Hr Hl]. intros [Ht|[lease Ht]].
    + set_unfold in Ht. by destruct Ht as [->|[->|[]]].
    + by rewrite Ht in Hl.
Qed.

Lemma uses_physical_keyboard_true action :
  HA.keys action <> [] \/ HA.modifiers action <> []
  \/ HA.action action ∈ ["keypress"; "press"; "press_key"; "keyboard_shortcut"; "hotkey"] ->
  uses_physical_keyboard action = true.
Proof.
  unfold uses_physical_keyboard, physical_keyboard_actions. intros [H|[H|H]].
  - destruct (HA.keys action); [done|]. by rewrite orb_true_r.
  - destruct (HA.modifiers action); [done|]. by rewrite orb_true_r.
  - by rewrite bool_decide_eq_true_2.
Qed.

(** C2: an action reaches the core of its window at most once, and only as the Host
    admitted it.  Whatever the core, the vault, the clocks and the user answer, the
    history of [handle_execute_action] holds no [perform_action], or exactly one: for a
    request that passed the checks of its grant, of its mode and of its evidence, whose
    safety tier may run, confirmed before by the authority of the session's lease, or by
    the user if there is no lease and the tier asks for it, with the raw input grant if it
    drives the pointer or the keyboard, and on the observation it names or the one under
    which the core was found to show still what was confirmed.  What the core performs is
    the requested action field by field, a secret in it being the text that the vault
    answered for its handle. *)
Theorem window_input_is_admitted request delay mode h m host r h' t' :
  handle_execute_action (M := M) world services request delay mode (h, (m, host))
    = Some (r, (h', t')) ->
  exists new, h' = h ++ new
    /\ (List.filter is_input new = []
        \/ exists before c after, new = before ++ c :: after /\ List.filter is_input new = [c]
           /\ admitted_input services request host before c).
Proof using All.
  revert r h' t'. enough (Ha : acts is_input (since h (admitted_input services request host))
    (handle_execute_action (M := M) world services request delay mode) (h, (m, host)))
    by (intros r h' t' H; exact (acted_since _ _ _ _ _ _ (Ha _ _ H))).
  unfold handle_execute_action.
  apply acts_after; [apply quiet_host_check, _|]. intros [] s1 [Hc%check_action_ok ->]%host_check_ok.
  apply acts_after; [apply quiet_silent|]. intros self s1 [-> ->]%host_read_ok.
  unfold Datatypes.id. destruct (rejection _) as [[[? ?] ?]|] eqn:Er; [apply acts_quiet; respects|].
  apply acts_after.
  { destruct (_ || _ : bool); [apply quiet_confirm_action | apply respects_ret, _]. }
  intros [outcome observation_id] [h1 [m1 host1]] H1.
  destruct (outcome != Allowed) eqn:Eo; [apply acts_quiet, quiet_refusal, _|].
  apply negb_false_iff, bool_decide_eq_true in Eo as ->.
  apply confirmed_step in H1 as (Hcred & n1 & -> & Hperformed & Hconfirmed).
  apply acts_before; [|intros; respects; apply quiet_finish_action].
  eapply acts_impl; [|apply dispatch_acts].
  intros hist c (calls & -> & (more & ->) & Hraw & resolved & performed & session & answer & Hr & Hp & ->).
  rewrite (fixed (f := HS.allow_raw_input) _ _ Hcred) in Hraw.
  eexists. split; [done|]. split_and!.
  - done.
  - by destruct (safety_tier _ _).
  - intros Hn. by apply confirmed_action_app, Hconfirmed.
  - intros [Hk|Hk]; [by apply (checked_raw _ _ Hc)|]. by apply Hraw, uses_physical_keyboard_true.
  - exists resolved, observation_id, performed, session, answer.
    split_and!; try done. by apply performed_on_app.
Qed.

(** ** Secrets *)

Definition capture_response (session_id secret_handle : string) (cleared : bool) : response :=
  (Object
    [("type", Str "clipboard_secret_captured"); ("session_id", Str session_id);
     ("secret_handle", Str secret_handle); ("clipboard_cleared", Bool cleared)], None).

(** A handle: letters and digits, and after the first of them also [-], [.], [:] and [_]. *)
Definition well_formed_handle (handle : string) : Prop :=
  (exists first rest, chars handle = first :: rest /\ is_ascii_alphanumeric first = true)
  /\ chars_count handle <= MAX_SECRET_HANDLE_CHARS
  /\ Forall (fun c => is_ascii_alphanumeric c = true \/ c ∈ [45; 46; 58; 95])
       (chars handle).

(** The text of a clipboard that the driver answered, marked as supported, as sensitive
    and as kept from telemetry. *)
Definition sensitive_clipboard (clipboard : value) (text : string) : Prop :=
  exists fields, get clipboard "structuredContent" = Some (Object fields)
    /\ (forall key, key ∈ ["supported"; "privacy_sensitive"; "content_redacted_from_telemetry"] ->
         field fields key = Some (Bool true))
    /\ field fields "text" = Some (Str text)
    /\ text <> "" /\ chars_count text <= MAX_SECRET_VALUE_CHARS.

(** What is stored: the text of the clipboard that the core read, under the handle that
    was confirmed. *)
Definition captured (session_id grant capability observation_id secret_handle : string)
    (host : HS.HostSession) (calls : history window_call) (c : call_record) : Prop :=
  well_formed_handle secret_handle
  /\ HS.allow_clipboard_read host = true /\ HS.allow_clipboard_write host = true
  /\ HS.latest_observation_id host = Some observation_id
  /\ Services.has_vault services = true
  /\ confirmed_by services host calls session_id grant capability observation_id
       (HS.latest_accessibility_state_id host) "credential_capture"
       (Object [("action", Str "clipboard_capture_secret");
                ("secret_handle", Str secret_handle);
                ("clear_clipboard_after_store", Bool true)])
  /\ exists session session' clipboard secret answer,
       asked (Core (CoreOp.ClipboardRead true) session) (Ok clipboard, session') ∈ calls
       /\ sensitive_clipboard clipboard secret
       /\ c = asked (StoreSecret secret_handle secret) answer.

Lemma extract_clipboard_secret_spec clipboard secret :
  extract_clipboard_secret clipboard = Ok secret -> sensitive_clipboard clipboard secret.
Proof using Type.
  unfold extract_clipboard_secret, sensitive_clipboard.
  intros (fields & Hf%ok_or_ok & H)%rbind_ok. apply bind_Some in Hf as (v & Hg & Hv).
  exists fields. apply guard_ok in H as [Hb H]. apply rbind_ok in H as (text & Ht%ok_or_ok & H).
  unfold new_secret_value in H. apply guard_ok in H as [Hl H]. injection H as ->.
  rewrite !orb_false_iff, !negb_false_iff, !bool_decide_eq_true in Hb.
  apply orb_false_iff in Hl as [Hne Hl%Z.ltb_ge].
  assert (Htrue : forall key, field fields key ≫= as_bool = Some true ->
    field fields key = Some (Bool true)).
  { intros key. destruct (field fields key) as [[]|]; cbn; congruence. }
  split_and!.
  - rewrite Hg. by destruct v; simplify_eq/=.
  - intros key Hin. set_unfold in Hin. destruct Hb as [[? ?] ?].
    destruct Hin as [->|[->|[->|[]]]]; by apply Htrue.
  - destruct (field fields "text") as [[]|]; by simplify_eq/=.
  - intros E. by rewrite E in Hne.
  - done.
Qed.

Lemma validate_vault_handle_ok handle :
  validate_vault_handle handle = Ok tt -> well_formed_handle handle.
Proof using Type.
  unfold validate_vault_handle, validate_secret_handle, well_formed_handle.
  intros H%rmap_err_ok. apply guard_ok in H as [H _].
  rewrite !orb_false_iff, !negb_false_iff in H. destruct H as [[[_ Hl%Z.ltb_ge] Hh] Ha].
  split_and!; [|done|].
  - destruct (chars handle) as [|c cs]; [done|]. by exists c, cs.
  - unfold all_chars in Ha. rewrite forallb_forall in Ha. apply Forall_forall.
    intros c Hin%list_elem_of_In%Ha%orb_true_iff. destruct Hin as [?|Hin]; [by left|].
    right. unfold secret_handle_punctuation in Hin. rewrite !orb_true_iff, !Z.eqb_eq in Hin.
    set_solver.
Qed.

Lemma check_capture_ok observation_id secret_handle self :
  check_capture observation_id secret_handle self = Ok tt ->
  well_formed_handle secret_handle
  /\ HS.allow_clipboard_read self = true /\ HS.allow_clipboard_write self = true
  /\ HS.latest_observation_id self = Some observation_id.
Proof.
  unfold check_capture, computer_use_error. intros H. open_ok.
  rewrite negb_false_iff in *. reflect_all. split_and!; try done.
  by apply validate_vault_handle_ok.
Qed.

Lemma store_acts session_id secret_handle h m host :
  acts is_store (since h (fun calls c => Services.has_vault services = true
      /\ exists session session' clipboard secret answer,
         asked (Core (CoreOp.ClipboardRead true) session) (Ok clipboard, session') ∈ calls
         /\ sensitive_clipboard clipboard secret
         /\ c = asked (StoreSecret secret_handle secret) answer))
    (store_clipboard_secret (M := M) world services session_id secret_handle) (h, (m, host)).
Proof.
  unfold store_clipboard_secret.
  destruct (Services.has_vault services); cbn [negb]; [|apply acts_quiet; respects].
  apply acts_after; [unfold core_error; respects|]. intros clipboard [h1 [m1 host1]] H1.
  unfold core_error in H1. apply map_error_some in H1 as ([clipboard'|] & H1 & [=]). subst clipboard'.
  apply sensitive_ok in H1 as (session' & now & -> & -> & _).
  apply acts_lift. intros secret Hs%rmap_err_ok%extract_clipboard_secret_spec.
  apply acts_before; [|intros stored; respects].
  apply acts_act; [done|]. intros answer. eexists. split; [done|]. split; [done|].
  eexists _, session', clipboard, secret, answer. split_and!; [|done..]. by left.
Qed.

End Quiet.
