(* ===== verification/WindowSamples.v ===== *)
(** * Sample runs of a window session

    A world that answers every call, and requests that run in it: each theorem on the
    requests of a window session holds of a run that reaches the core. *)

From S2P Require Import Prelude Records Effects Calls RustStr Json Protocol Errors.
From S2P Require Import Contracts TargetPolicy InputState SessionEvents SessionHealth.
From S2P Require Import HostAction Confirmation Platform CapturePreparation TaskGrant.
From S2P Require Import TaskAuthorization Request SecretVault RuntimeSession.
From S2P Require Import BrowserEvidence BrowserSession HostSession Images.
From S2P Require Import AuthorizationScope WindowWorld WindowRequests WindowMutations.
From S2P Require Import WindowQueries WindowActions WindowDispatch WindowPermissions.
From S2P Require Import WindowInput.
From S2P Require SharedImage.

Import CoreOp (core_op).

#[local] Existing Instances sample_platform SharedImage.sample_memory
  SharedImage.sample_lawful.
#[local] Instance sample_lease_validation :
  Digestible UnsignedLease.UnsignedTaskAuthorizationLeaseValidationRequest :=
  fun _ => Ok "d".
#[local] Instance sample_validation :
  Digestible UnsignedVal.UnsignedTaskAuthorizationValidationRequest := fun _ => Ok "d".

#[local] Instance sample_wire : WireFormat := {
  target_json _ := Null; observation_json _ := Null; input_state_json _ := Null;
  target_state_json _ := Null; events_page_json _ := Ok (Object []);
  health_json _ := Null; action_json action := Ok (Object [("action", Str (HA.action action))]);
  browser_type_json _ := Null; confirmation_digest := sample_sha256;
}.

(** ** A world *)

Definition sample_tool_result : NativeResult.ComputerUseToolResult := {|
  NativeResult.status := Images.Succeeded; NativeResult.answer := Null;
  NativeResult.text := "done"; NativeResult.images := []; NativeResult.degraded := false |}.

Definition sample_screenshot : Screenshot.ComputerUseScreenshot := {|
  Screenshot.data := [1]; Screenshot.observation := sample_observation;
  Screenshot.accessibility := Null |}.

(** A clipboard whose text is private. *)
Definition sample_clipboard : value :=
  Object [("structuredContent", Object
    [("supported", Bool true); ("privacy_sensitive", Bool true);
     ("content_redacted_from_telemetry", Bool true); ("text", Str "password")])].

Definition sample_core {A} (op : core_op A) : A :=
  match op in core_op A return A with
  | CoreOp.ClipboardRead _ => Ok sample_clipboard
  | CoreOp.StopLiveObservation => Null
  | CoreOp.TargetAvailability => Ok (sample_availability false)
  | CoreOp.ScreenshotNativeCapturePopups _ _ _ => Ok (sample_screenshot, [], Null)
  | CoreOp.ScreenshotPixelsOnly _ => Ok sample_screenshot
  | CoreOp.ScreenshotWithBounds _ _ => Ok sample_screenshot
  | CoreOp.VerifyState _ _ _ _ =>
      Ok {| Verification.answer := Null; Verification.image := None |}
  | CoreOp.Zoom _ => Ok sample_tool_result
  | CoreOp.CallTool _ _ => Ok sample_tool_result
  | CoreOp.PerformAction _ => Ok sample_tool_result
  | CoreOp.ResumeAfterUserApproval => Ok tt
  | CoreOp.CapturePreparationSnapshot => Ok (png [1], Null)
  | CoreOp.Stop => Ok {| StopResult.success := true; StopResult.active := false;
      StopResult.cleanup_pending := false; StopResult.cleanup_issues := Null;
      StopResult.marker := Null; StopResult.recording_video := None;
      StopResult.live_observation := None; StopResult.capture_preparation := None |}
  | _ => Ok (Object [])
  end.

Definition sample_world : oracle window_call := fun A _ c =>
  match c in window_call A return A with
  | Core op session => (sample_core op, session)
  | MarkerStatus _ => Null
  | LiveObservationState _ => Null
  | ProbeUntilDeadline _ _ _ session => (Completed_ (Ok Null, 1), session)
  | SleepUntilDeadline interval remaining =>
      if interval <=? remaining then Completed_ interval else TimedOut_
  | SampleEnvironment => sample_environment 10
  | SampleBanner => Some {| Banner.interrupted := false; Banner.failure := None |}
  | SampleInput => (sample_readiness ComputerUseInputStatus.Ready, 5)
  | ObservedAt => 5
  | RecordingMetadata => fun _ => None
  | Elapsed => 1
  | Monotonic => 10
  | UnixMillis => 10
  | UnixSeconds => 10
  | FreshUuid => "u"
  | InterruptGeneration => 0
  | RegisterWait _ _ _ => Ok tt
  | AwaitInputTurn => tt
  | Sleep duration => duration
  | ResolveSecret _ => Ok "password"
  | StoreSecret _ _ => Ok tt
  end.

Definition sample_services : Services.HostSecurityServices := {|
  Services.extension_transport_only := false;
  Services.confirmation_host := Some sample_host;
  Services.task_authorization_host := None;
  Services.has_vault := true |}.

(** ** Requests that reach the core *)

Definition is_session_state (c : call_record) : bool :=
  match (projT2 c).1 with
  | Core op _ => match op with CoreOp.SessionState => true | _ => false end
  | _ => false
  end.

Lemma window_calls_are_licensed_witness :
  exists c, is_session_state c = true
    /\ core_calls (granted_operation (Request.GetSessionState "s" "g" "c")
         {["s" := sample_window_host]} "s" "g" "c" "get_session_state") c.
Proof.
  destruct (handle_request (M := gmap string (list Z)) sample_world sample_services
    (Some BinaryFrame) (Request.GetSessionState "s" "g" "c")
    ([], (∅, {["s" := sample_window_host]}))) as [[r [h [m sessions]]]|] eqn:E;
    [|vm_compute in E; discriminate E].
  assert (Hs : existsb is_session_state h = true).
  { vm_compute in E. injection E as _ <- _ _. reflexivity. }
  apply (window_calls_are_licensed sample_world sample_services (Some BinaryFrame)
    (Request.GetSessionState "s" "g" "c") "s" "g" "c" "get_session_state")
    in E as (_ & _ & new & Hn & Hnew); [|reflexivity].
  simpl in Hn. subst h. apply existsb_exists in Hs as (c & Hin & Hc).
  exists c. split; [exact Hc|]. rewrite Forall_forall in Hnew.
  apply Hnew. by apply list_elem_of_In.
Defined.

(** A click with a held key, which the user has to confirm. *)
Definition sample_action : WA.WindowAction := {|
  WA.session_id := "s"; WA.task_grant_id := "g"; WA.window_capability := "c";
  WA.observation_id := "o"; WA.accessibility_state_id := "";
  WA.action := sample_click ["A"] None; WA.capture_after := true;
  WA.post_snapshot_max_depth := 5; WA.post_snapshot_max_nodes := 100;
  WA.post_snapshot_mode := Full |}.

Definition sample_acting_host : HS.HostSession := sample_window_host
  <| HS.latest_observation_id := Some "o" |> <| HS.allow_trusted_confirmation := true |>
  <| HS.allow_clipboard_read := true |> <| HS.allow_clipboard_write := true |>.

Lemma window_input_is_admitted_witness :
  exists before c, is_input c = true
    /\ admitted_input sample_services sample_action sample_acting_host before c.
Proof.
  destruct (handle_execute_action (M := gmap string (list Z)) sample_world sample_services
    sample_action 100 BinaryFrame ([], (∅, sample_acting_host))) as [[r [h t]]|] eqn:E;
    [|vm_compute in E; discriminate E].
  assert (Hl : length (List.filter is_input h) = 1%nat).
  { vm_compute in E. injection E as _ <- _. reflexivity. }
  apply window_input_is_admitted in E as (new & Hn & [Hq|(bs & c & cs & Hb & Hc & Ha)]).
  all: simpl in Hn; subst h.
  - rewrite Hq in Hl. discriminate Hl.
  - exists bs, c. split; [|exact Ha].
    assert (Hin : In c (List.filter is_input new)) by (rewrite Hc; by left).
    by apply filter_In in Hin as [_ ?].
Defined.


(** ** Waits *)

Lemma sample_world_waits : waits_take_time sample_world.
Proof.
  split; simpl; intros; try lia.
  - destruct (_ <=? _) eqn:E; simplify_eq. lia.
  - simplify_eq. lia.
Qed.

Definition sample_wait : WaitCondition.WaitCondition := {|
  WaitCondition.kind := "element_present"; WaitCondition.element_index := None;
  WaitCondition.text := None; WaitCondition.value := None;
  WaitCondition.timeout_ms := Some 50; WaitCondition.interval_ms := Some 20 |}.

Lemma window_waits_end_witness :
  validate_wait sample_wait = Ok (50, 20)
  /\ ends_within (wait_rounds 50 20)
       (wait_round (M := gmap string (list Z)) sample_world "s" sample_wait 20 10) 50
  /\ ends_within (poll_rounds 120)
       (poll_round (M := gmap string (list Z)) sample_world "s" 0) 120.
Proof.
  assert (Hv : validate_wait sample_wait = Ok (50, 20)) by (vm_compute; reflexivity).
  destruct (window_waits_end (M := gmap string (list Z)) sample_world sample_world_waits "s"
    sample_wait 50 20 10 0 120) as (Hw & Hp & _); [exact Hv | lia |].
  by split_and!.
Defined.
