(* ===== verification/Ledger.v ===== *)
(** * A ledger of calls

    Some calls take a resource and others give it back.  A weight for every call makes
    the calls of a run a ledger with a balance, and the rules here compute, along an
    operation, the calls it makes together with the state it leaves, for every way the
    world may answer. *)

From S2P Require Import Prelude Effects Calls.

Section Balance.
Context {call : Type -> Type} (weight : {A & (call A * A)%type} -> Z).

Definition balance (h : history call) : Z := foldr (fun c n => weight c + n) 0 h.

Lemma balance_app h1 h2 : balance (h1 ++ h2) = balance h1 + balance h2.
Proof. induction h1 as [|c h1 IH]; simpl; lia. Qed.
End Balance.

Section Ledger.
Context {call : Type -> Type} {S E : Type}.
Implicit Types (calls : history call) (s : S).

(** Run from the object [s] when [calls] were already made, the operation ends in [post]
    of its result, of those calls with its own after them, and of the object. *)
Definition books {A} (m : eff (history call * S) E A)
    (post : result E A -> history call -> S -> Prop) calls s : Prop :=
  forall h r h' s', m (h ++ calls, s) = Some (r, (h', s')) ->
    exists calls', h' = h ++ calls' /\ post r calls' s'.

Lemma books_mono {A} (m : eff _ E A) (P Q : result E A -> history call -> S -> Prop) calls s :
  books m P calls s -> (forall r calls' s', P r calls' s' -> Q r calls' s') ->
  books m Q calls s.
Proof. intros Hm HPQ h r h' s' H. destruct (Hm _ _ _ _ H) as (calls' & ? & ?). eauto. Qed.

(** What an operation does after other calls it does after none. *)
Lemma books_frame {A} (m : eff _ E A) (P : result E A -> history call -> S -> Prop) calls s :
  books m P [] s ->
  books m (fun r calls' s' => exists own, calls' = calls ++ own /\ P r own s') calls s.
Proof.
  intros Hm h r h' s' H. rewrite <- (app_nil_r (h ++ calls)) in H.
  destruct (Hm _ _ _ _ H) as (own & -> & HP). exists (calls ++ own).
  rewrite app_assoc. eauto.
Qed.

Lemma books_bind {A B} (m : eff _ E A) (k : A -> eff _ E B) Q calls s :
  books m (fun r calls' s' => match r with
                              | Ok a => books (k a) Q calls' s'
                              | Err e => Q (Err e) calls' s'
                              end) calls s ->
  books (bind m k) Q calls s.
Proof.
  intros Hm h r h' s' [(e & [h1 s1] & H1 & [= -> -> ->]) | (a & [h1 s1] & H1 & H2)]%bind_some;
    destruct (Hm _ _ _ _ H1) as (calls' & -> & HQ).
  - eauto.
  - exact (HQ _ _ _ _ H2).
Qed.

Lemma books_ask {A} (world : oracle call) (c : call A)
    (Q : result E A -> history call -> S -> Prop) calls s :
  (forall a, Q (Ok a) (calls ++ [asked c a]) s) -> books (ask world c) Q calls s.
Proof.
  intros HQ h r h' s' (-> & -> & ->)%ask_some. eexists. rewrite <- app_assoc. eauto.
Qed.
Lemma books_lift {A} (x : result E A) (Q : result E A -> history call -> S -> Prop) calls s :
  Q x calls s -> books (lift x) Q calls s.
Proof. intros HQ h r h' s' [= <- <- <-]. eauto. Qed.
Lemma books_ret {A} (a : A) (Q : result E A -> history call -> S -> Prop) calls s :
  Q (Ok a) calls s -> books (ret a) Q calls s.
Proof. apply books_lift. Qed.
Lemma books_throw {A} (e : E) (Q : result E A -> history call -> S -> Prop) calls s :
  Q (Err e) calls s -> books (throw e) Q calls s.
Proof. apply books_lift. Qed.
Lemma books_panic {A} (Q : result E A -> history call -> S -> Prop) calls s :
  books Effects.panic Q calls s.
Proof. by intros h r h' s'. Qed.
Lemma books_refuse_if b (e : E) (Q : result E unit -> history call -> S -> Prop) calls s :
  (b = true -> Q (Err e) calls s) -> (b = false -> Q (Ok tt) calls s) ->
  books (refuse_if b e) Q calls s.
Proof. destruct b; intros H1 H2; [apply books_throw | apply books_ret]; auto. Qed.
Lemma books_read {A} (f : S -> A) (Q : result E A -> history call -> S -> Prop) calls s :
  Q (Ok (f s)) calls s -> books (silent (read f)) Q calls s.
Proof. intros HQ h r h' s' [= <- <- <-]. eauto. Qed.
Lemma books_modify (f : S -> S) (Q : result E unit -> history call -> S -> Prop) calls s :
  Q (Ok tt) calls (f s) -> books (silent (modify f)) Q calls s.
Proof. intros HQ h r h' s' [= <- <- <-]. eauto. Qed.
(** A value computed without a trace in the object, by calls that [P] tells of. *)
Lemma books_value {A} (m : eff _ E A) (P : A -> history call -> Prop)
    (Q : result E A -> history call -> S -> Prop) calls s :
  books m (fun r own s' => s' = s /\ exists a, r = Ok a /\ P a own) [] s ->
  (forall a own, P a own -> Q (Ok a) (calls ++ own) s) -> books m Q calls s.
Proof.
  intros Hm HQ. eapply books_mono; [by apply books_frame|].
  intros r calls' s' (own & -> & -> & a & -> & HP). eauto.
Qed.
End Ledger.

(** One operation of a chain. *)
Ltac books :=
  match goal with
  | |- books (bind _ _) _ _ _ => apply books_bind
  | |- books (ask _ _) _ _ _ => apply books_ask; intros ?
  | |- books (lift _) _ _ _ => apply books_lift
  | |- books (ret _) _ _ _ => apply books_ret
  | |- books (throw _) _ _ _ => apply books_throw
  | |- books Effects.panic _ _ _ => apply books_panic
  | |- books (refuse_if _ _) _ _ _ => apply books_refuse_if; intros ?
  | |- books (silent (read _)) _ _ _ => apply books_read
  | |- books (silent (modify _)) _ _ _ => apply books_modify
  | |- _ => progress cbn beta iota delta [rmap_err]
  end.

(** An operation whose books are known, for it alone. *)
Tactic Notation "books_by" constr(lemma) "as" simple_intropattern(pattern) :=
  eapply books_mono; [apply books_frame, lemma | intros ? ? ? (? & -> & pattern)].

(** A call is among those made. *)
Ltac among :=
  first
    [ eassumption
    | apply list_elem_of_singleton; reflexivity
    | apply elem_of_app; first [right; among | left; among] ].
