(* ===== verification/Cancellation.v ===== *)
(** * Waits that can be cancelled ([crates/dcc-cua-host/src/lib.rs])

    The registry of a connection's running waits.  A wait registers a handle under a key
    and removes it when it ends; a cancel request that arrives meanwhile finds the handle
    and raises its flag.  A wait of a session is known by the session's id and belongs to
    the holder of the session's credentials; a wait for a window is known by the id of its
    request. *)

From S2P Require Import Prelude RustStr Json Protocol Errors.

(** The flag is shared with the wait that polls it. *)
Module CancellationHandle.
Record CancellationHandle : Type := {
  task_grant_id : string;
  window_capability : string;
  cancelled : bool;
}.
End CancellationHandle.

Module Handle := CancellationHandle.

(** [Mutex<HashMap<String, CancellationHandle>>]; a lock whose holder panicked is
    poisoned. *)
Module CancellationRegistry.
Record CancellationRegistry : Type := {
  poisoned : bool;
  waits : gmap string Handle.CancellationHandle;
}.
End CancellationRegistry.

Module Registry := CancellationRegistry.

Definition with_waits (self : Registry.CancellationRegistry)
    (waits : gmap string Handle.CancellationHandle) : Registry.CancellationRegistry :=
  {| Registry.poisoned := Registry.poisoned self; Registry.waits := waits |}.

(** [registry.lock()]. *)
Definition locked (self : Registry.CancellationRegistry)
    : hresult (gmap string Handle.CancellationHandle) :=
  if Registry.poisoned self
  then Err (HostError.Protocol "cancellation registry is unavailable")
  else Ok (Registry.waits self).

(** [cancelled.store(true)]. *)
Definition cancel (handle : Handle.CancellationHandle) : Handle.CancellationHandle := {|
  Handle.task_grant_id := Handle.task_grant_id handle;
  Handle.window_capability := Handle.window_capability handle;
  Handle.cancelled := true |}.

Definition validate_window_wait_id (wait_id : string) : hresult unit :=
  if str_is_empty wait_id || (MAX_REQUEST_ID_CHARS <? chars_count wait_id)
  then Err (HostError.Protocol
    ("wait_id must contain 1.." +:+ show MAX_REQUEST_ID_CHARS +:+ " characters"))
  else Ok tt.

Definition window_wait_key (wait_id : string) : string := "window_wait:" +:+ wait_id.

(** The guard is the key to remove. *)
Definition register (key task_grant_id window_capability busy : string)
    (self : Registry.CancellationRegistry)
    : hresult (string * Registry.CancellationRegistry) :=
  let? waits := locked self in
  if is_some (waits !! key)
  then Err (HostError.coded_protocol HostProtocolErrorCode.RequestInProgress busy)
  else Ok (key, with_waits self
    (<[key := {| Handle.task_grant_id := task_grant_id;
                 Handle.window_capability := window_capability;
                 Handle.cancelled := false |}]> waits)).

Definition register_wait (session_id task_grant_id window_capability : string)
    : Registry.CancellationRegistry -> hresult (string * Registry.CancellationRegistry) :=
  register session_id task_grant_id window_capability "wait_for is already running".

Definition register_window_wait (wait_id : string) (self : Registry.CancellationRegistry)
    : hresult (string * Registry.CancellationRegistry) :=
  check? validate_window_wait_id wait_id in
  register (window_wait_key wait_id) "" ""
    "window_wait is already running for this wait_id" self.

(** [CancellationGuard::drop]. *)
Definition drop_guard (key : string) (self : Registry.CancellationRegistry)
    : Registry.CancellationRegistry :=
  if Registry.poisoned self then self else with_waits self (delete key (Registry.waits self)).

Definition cancel_window_wait (wait_id : string) (self : Registry.CancellationRegistry)
    : hresult (value * Registry.CancellationRegistry) :=
  check? validate_window_wait_id wait_id in
  let? waits := locked self in
  let? handle := ok_or (waits !! window_wait_key wait_id)
    (HostError.coded_protocol HostProtocolErrorCode.RequestNotFound
       "no window_wait is running for this wait_id") in
  Ok (Object [("type", Str "window_wait_cancel_requested"); ("wait_id", Str wait_id)],
      with_waits self (<[window_wait_key wait_id := cancel handle]> waits)).

Definition cancel_wait (session_id task_grant_id window_capability : string)
    (self : Registry.CancellationRegistry)
    : hresult (value * Registry.CancellationRegistry) :=
  let? waits := locked self in
  let? handle := ok_or (waits !! session_id)
    (HostError.coded_protocol HostProtocolErrorCode.RequestNotFound
       "no wait_for is running for this session") in
  if (Handle.task_grant_id handle != task_grant_id)
     || (Handle.window_capability handle != window_capability)
  then Err (HostError.coded_protocol HostProtocolErrorCode.Forbidden
    "cancel credentials do not match the running wait_for")
  else Ok (Object [("type", Str "wait_cancel_requested"); ("session_id", Str session_id)],
           with_waits self (<[session_id := cancel handle]> waits)).

(** ** The life of a wait *)

Inductive registry_event : Type :=
| RegisterSessionWait (session_id task_grant_id window_capability : string)
| RegisterWindowWait (wait_id : string)
| CancelSessionWait (session_id task_grant_id window_capability : string)
| CancelWindowWait (wait_id : string)
| DropGuard (key : string).

(** A refused request leaves the registry as it was. *)
Definition kept {A} (self : Registry.CancellationRegistry)
    (r : hresult (A * Registry.CancellationRegistry)) : Registry.CancellationRegistry :=
  match r with Ok (_, self') => self' | Err _ => self end.

Definition registry_step (self : Registry.CancellationRegistry) (event : registry_event)
    : Registry.CancellationRegistry :=
  match event with
  | RegisterSessionWait id g c => kept self (register_wait id g c self)
  | RegisterWindowWait wait_id => kept self (register_window_wait wait_id self)
  | CancelSessionWait id g c => kept self (cancel_wait id g c self)
  | CancelWindowWait wait_id => kept self (cancel_window_wait wait_id self)
  | DropGuard key => drop_guard key self
  end.

#[export] Instance registry_event_eq_dec : EqDecision registry_event.
Proof. solve_decision. Defined.

Definition waiting (session_id task_grant_id window_capability : string) (cancelled : bool)
    (self : Registry.CancellationRegistry) : Prop :=
  Registry.poisoned self = false
  /\ Registry.waits self !! session_id =
       Some {| Handle.task_grant_id := task_grant_id;
               Handle.window_capability := window_capability;
               Handle.cancelled := cancelled |}.

(** A session whose id is not in the name space of the window waits. *)
Definition session_key (session_id : string) : Prop :=
  forall wait_id, session_id <> window_wait_key wait_id.

Lemma register_waiting id g c b key g' c' busy self :
  waiting id g c b self ->
  waiting id g c b (kept self (register key g' c' busy self)).
Proof.
  intros [Hp Hw]. unfold register, locked. rewrite Hp. cbn [rbind].
  destruct (Registry.waits self !! key) eqn:Hk; [done|].
  split; [done|]. simpl. rewrite lookup_insert_ne; [done | congruence].
Qed.

Lemma cancel_waiting id g c b g' c' self :
  waiting id g c b self ->
  waiting id g c (b || ((g' == g) && (c' == c))) (kept self (cancel_wait id g' c' self)).
Proof.
  intros [Hp Hw]. unfold cancel_wait, locked. rewrite Hp. cbn [rbind]. rewrite Hw. cbn.
  repeat case_bool_decide; try congruence; cbn; rewrite ?orb_true_r, ?orb_false_r; try done.
  split; [done|]. cbn. rewrite lookup_insert_eq. unfold cancel. cbn. congruence.
Qed.

Lemma cancel_other_waiting id g c b key handle self :
  id <> key -> waiting id g c b self ->
  waiting id g c b (with_waits self (<[key := handle]> (Registry.waits self))).
Proof. intros Hne [Hp Hw]. split; [done|]. simpl. by rewrite lookup_insert_ne. Qed.

Lemma step_waiting id g c b event self :
  session_key id -> event <> DropGuard id -> waiting id g c b self ->
  waiting id g c (b || (event == CancelSessionWait id g c)) (registry_step self event).
Proof.
  intros Hkey Hdrop Hw. pose proof Hw as [Hp _].
  destruct (decide (event = CancelSessionWait id g c)) as [->|Hne].
  { rewrite bool_decide_eq_true_2, orb_true_r by done.
    apply (cancel_waiting _ _ _ _ g c) in Hw. revert Hw.
    by rewrite !bool_decide_eq_true_2, orb_true_r by done. }
  rewrite bool_decide_eq_false_2, orb_false_r by done.
  destruct event as [key g' c'|wait_id|key g' c'|wait_id|key]; cbn [registry_step].
  - by apply register_waiting.
  - unfold register_window_wait. destruct (validate_window_wait_id _); [|done].
    by apply register_waiting.
  - destruct (decide (key = id)) as [->|Hk].
    + apply (cancel_waiting _ _ _ _ g' c') in Hw. revert Hw.
      repeat case_bool_decide; by rewrite ?orb_false_r; subst.
    + unfold cancel_wait, locked. rewrite Hp. cbn [rbind].
      destruct (Registry.waits self !! key); [|done]. cbn.
      destruct (_ || _); [done | by apply cancel_other_waiting].
  - unfold cancel_window_wait, locked. destruct (validate_window_wait_id _); [|done].
    rewrite Hp. cbn [rbind]. destruct (Registry.waits self !! _); [|done]. cbn.
    by apply cancel_other_waiting.
  - unfold drop_guard. rewrite Hp. split; [done|]. cbn.
    rewrite lookup_delete_ne; [apply Hw | by intros ->].
Qed.

Lemma run_waiting id g c b events self :
  session_key id -> DropGuard id ∉ events -> waiting id g c b self ->
  waiting id g c (b || (CancelSessionWait id g c ∈? events))
    (foldl registry_step self events).
Proof.
  intros Hkey. revert b self. induction events as [|event events IH]; intros b self Hdrop Hw.
  { rewrite bool_decide_eq_false_2 by set_solver. by rewrite orb_false_r. }
  apply not_elem_of_cons in Hdrop as [Hd Hdrop].
  apply (step_waiting _ _ _ _ event) in Hw; [|done | congruence].
  apply (IH _ _ Hdrop) in Hw. simpl.
  replace (CancelSessionWait id g c ∈? event :: events)
    with ((event == CancelSessionWait id g c) || (CancelSessionWait id g c ∈? events));
    [by rewrite orb_assoc|].
  repeat case_bool_decide; set_solver.
Qed.

(** C40: a running wait of a session is cancelled by the holder of its credentials and by
    nobody else.  A wait that was registered is there as long as its guard is, whatever
    else is registered, cancelled or finished in the meantime, and its flag is raised
    exactly when a cancel request arrived that names the session, its grant and its
    capability.  The identifiers of sessions must not be taken from the name space of the
    window waits: [window_cancel_reaches_session_wait] shows what happens otherwise. *)
Theorem wait_is_cancelled_by_its_holder session_id task_grant_id window_capability
    registry key registered events :
  session_key session_id ->
  register_wait session_id task_grant_id window_capability registry = Ok (key, registered) ->
  DropGuard key ∉ events ->
  exists handle,
    Registry.waits (foldl registry_step registered events) !! session_id = Some handle
    /\ (Handle.cancelled handle = true
        <-> CancelSessionWait session_id task_grant_id window_capability ∈ events).
Proof.
  intros Hkey Hreg Hdrop. unfold register_wait, register, locked in Hreg.
  destruct (Registry.poisoned registry) eqn:Hp; [done|]. cbn in Hreg.
  destruct (Registry.waits registry !! session_id); [done|].
  injection Hreg as <- <-.
  destruct (run_waiting session_id task_grant_id window_capability false events
    (with_waits registry (<[session_id := {| Handle.task_grant_id := task_grant_id;
       Handle.window_capability := window_capability; Handle.cancelled := false |}]>
       (Registry.waits registry)))) as [_ Hw]; [done | done | |].
  - split; [exact Hp|]. cbn. by rewrite lookup_insert_eq.
  - eexists. split; [exact Hw|]. cbn. apply bool_decide_eq_true.
Qed.

(** The two kinds of waits share their keys, so a cancel request without credentials
    reaches the wait of a session whose id has the prefix of the window waits. *)
Lemma window_cancel_reaches_session_wait task_grant_id window_capability key registered :
  register_wait "window_wait:w" task_grant_id window_capability
    {| Registry.poisoned := false; Registry.waits := ∅ |} = Ok (key, registered) ->
  exists handle,
    Registry.waits (registry_step registered (CancelWindowWait "w")) !! "window_wait:w"
      = Some handle
    /\ Handle.cancelled handle = true.
Proof.
  intros H. injection H as <- <-.
  exists {| Handle.task_grant_id := task_grant_id;
            Handle.window_capability := window_capability; Handle.cancelled := true |}.
  by vm_compute.
Qed.

Definition sample_registry : Registry.CancellationRegistry :=
  {| Registry.poisoned := false; Registry.waits := ∅ |}.

Lemma wait_is_cancelled_by_its_holder_witness :
  exists handle,
    Registry.waits (foldl registry_step
      (kept sample_registry (register_wait "s" "g" "c" sample_registry))
      [CancelSessionWait "s" "g" "x"; CancelWindowWait "s"; RegisterWindowWait "s";
       CancelSessionWait "s" "g" "c"]) !! "s" = Some handle
    /\ Handle.cancelled handle = true.
Proof.
  destruct (wait_is_cancelled_by_its_holder "s" "g" "c" sample_registry "s"
    (kept sample_registry (register_wait "s" "g" "c" sample_registry))
    [CancelSessionWait "s" "g" "x"; CancelWindowWait "s"; RegisterWindowWait "s";
     CancelSessionWait "s" "g" "c"]) as (handle & Hlookup & Hflag);
    [intros wait_id; discriminate | reflexivity | set_solver |].
  exists handle. split; [exact Hlookup|]. apply Hflag. set_solver.
Defined.
