(* ===== verification/SessionOpening.v ===== *)
(** * Opening sessions, and the applications launched for them
    ([crates/dcc-cua-host/src/session_state.rs], [request_contract.rs],
     [request_handler.rs], [request_handler/session_helpers.rs])

    The sessions of one connection, and the handlers that add to them: [LaunchApp] starts
    an application under a runtime session of its own, and [OpenSession] opens a window
    session, under a lease where the grant claims one, in the runtime session of the
    launch where there is one.  The core session, the driver and the embedding are called
    through an oracle. *)

From S2P Require Import Prelude Records Effects Calls RustStr Json Protocol Errors.
From S2P Require Import Contracts TargetPolicy InputState SessionEvents Confirmation Platform.
From S2P Require Import TaskGrant TaskAuthorization Request SecretVault RuntimeSession.
From S2P Require Import RecordingFence BrowserEvidence BrowserSession HostSession Images.
From S2P Require Import AuthorizationScope WindowWorld WindowRequests WindowActions.
From S2P Require Import DesktopSession Ledger.

(** ** The sessions of a connection *)

Module HostLaunchSession.
Record HostLaunchSession : Type := {
  runtime_session_id : string;
  task_grant_id : string;
  application_label : string;
  process_id : Z;
}.
End HostLaunchSession.

Module Launch := HostLaunchSession.

Module ConnectionSessions.
Record ConnectionSessions : Type := {
  connection_id : string;
  agent_name : string;
  windows : Sessions;
  desktops : gmap string HDS.HostDesktopSession;
  launches : gmap string Launch.HostLaunchSession;
}.

#[global] Instance ConnectionSessions_settable : Settable ConnectionSessions := fun s => {|
  connection_id := connection_id s;
  agent_name := agent_name s;
  windows := windows s;
  desktops := desktops s;
  launches := launches s;
|}.
End ConnectionSessions.

Module Conn := ConnectionSessions.

(** [sessions.len() + desktop_sessions.len() + launch_sessions.len()]. *)
Definition session_count (self : Conn.ConnectionSessions) : Z :=
  Z.of_nat (size (Conn.windows self)) + Z.of_nat (size (Conn.desktops self))
  + Z.of_nat (size (Conn.launches self)).

(** ** What is asked for *)

Inductive open_call : Type -> Type :=
(** [ComputerUseDriver::owned_browser_session_with_agent] and [session_with_agent]. *)
| OwnedBrowserSession (launch : ComputerUseOwnedBrowserLaunchSpec.ComputerUseOwnedBrowserLaunchSpec)
    (app_name agent_name session_id : string)
    (request : StartRequest.ComputerUseSessionStartRequest)
    : open_call (cresult (CS.ComputerUseSession * value))
| SessionWithAgent (scope : TargetScope.ComputerUseTargetScope)
    (app_name agent_name session_id : string) : open_call (cresult CS.ComputerUseSession)
(** Operations of the new core session. *)
| SetNativeTaskAuthorization (authorization : Native.NativeTaskAuthorization)
    (session : CS.ComputerUseSession) : open_call (cresult unit * CS.ComputerUseSession)
| SetRecordingAuthorization (authorization : Fence.RecordingAuthorization)
    (session : CS.ComputerUseSession) : open_call CS.ComputerUseSession
| StartPixelsOnly (session : CS.ComputerUseSession)
    : open_call (cresult value * CS.ComputerUseSession)
| StartWithRequest (request : StartRequest.ComputerUseSessionStartRequest)
    (session : CS.ComputerUseSession) : open_call (cresult value * CS.ComputerUseSession)
| StartRecording (request : RecStart.ComputerUseRecordingStartRequest)
    (session : CS.ComputerUseSession) : open_call (cresult value * CS.ComputerUseSession)
| SessionStatus (session : CS.ComputerUseSession) : open_call value
| StopWindowSession (session : CS.ComputerUseSession)
    : open_call (cresult StopResult.ComputerUseSessionStopResult * CS.ComputerUseSession)
(** What the embedding shares for a lease. *)
| NativeTargetAuthorization (lease : Lease.TrustedTaskAuthorizationLease)
    : open_call (option Native.NativeTaskAuthorization)
| RecordingAuthorizationOf (lease : Lease.TrustedTaskAuthorizationLease)
    : open_call (option Fence.RecordingAuthorization)
(** The driver. *)
| LaunchAppForSession (launch : value) (session_id : string) : open_call (cresult value)
| EndLaunchSession (session_id : string) : open_call (cresult value)
| UpstreamCursorRendererEnabled : open_call bool
(** The state of the input desktop, the clocks and the identifiers. *)
| InputReadinessSample : open_call (Rdy.ComputerUseInputReadiness * Z)
| MonotonicNow : open_call Z
| UnixMillisNow : open_call Z
| NewUuid : open_call string.

Abbreviation open_record := {A & (open_call A * A)%type}.

(** ** Pure parts *)

Definition bind_launched_process (launched : Launch.HostLaunchSession)
    (grant : Grant.TaskGrant) : hresult Grant.TaskGrant :=
  if (Grant.task_grant_id grant != Launch.task_grant_id launched)
     || (Grant.application_label grant != Launch.application_label launched)
  then Err (HostError.Protocol "launch and window session grants do not match")
  else if is_some_and (fun process_id => negb (process_id =? Launch.process_id launched))
            (Grant.process_id grant)
  then Err (HostError.Protocol "window session does not target the launched process")
  else Ok (grant <| Grant.process_id := Some (Launch.process_id launched) |>).

Definition bound_grant (launched : option Launch.HostLaunchSession) (grant : Grant.TaskGrant)
    : hresult Grant.TaskGrant :=
  match launched with
  | Some launched => bind_launched_process launched grant
  | None => Ok grant
  end.

(** On Windows. *)
Definition restore_activate_available (grant : Grant.TaskGrant) : bool :=
  is_some (Grant.process_id grant) && is_some (Grant.window_handle grant).

(** [.and_then(|value| u32::try_from(value).ok())]. *)
Definition as_u32 (v : value) : option Z :=
  as_u64 v ≫= fun n => if n <=? U32_MAX then Some n else None.

Definition input_target_from_cua (session_id : string) (target : value)
    : hresult ComputerUseInputTarget.ComputerUseInputTarget :=
  let? process_id := ok_or (as_u32 target.["pid"])
    (HostError.Protocol "CUA target PID is invalid") in
  let? window_handle := ok_or (as_u64 target.["window_id"])
    (HostError.Protocol "CUA target window handle is invalid") in
  Ok {| ComputerUseInputTarget.session_id := session_id;
        ComputerUseInputTarget.process_id := process_id;
        ComputerUseInputTarget.window_handle := window_handle |}.

Definition cursor_render_backend (upstream_cursor_renderer_enabled : bool) : string :=
  if upstream_cursor_renderer_enabled then "cua-driver-sdk" else "unavailable".

Definition grant_scope (grant : Grant.TaskGrant) : TargetScope.ComputerUseTargetScope := {|
  TargetScope.process_id := Grant.process_id grant;
  TargetScope.window_handle := Grant.window_handle grant;
  TargetScope.window_title := Grant.window_title grant |}.

(** ** The handlers *)

Section Handlers.
Context `{P : Platform}.
Context `{DA : !Digestible UnsignedAuth.UnsignedTaskAuthorizationRequest}.
Context `{WF : WireFormat}.
Context (world : oracle open_call) (services : Services.HostSecurityServices).

Abbreviation conn_op A :=
  (eff (history open_call * Conn.ConnectionSessions) HostError.HostError A).

Definition conn_modify (f : Conn.ConnectionSessions -> Conn.ConnectionSessions)
    : conn_op unit := silent (modify f).

(** [let _ = session.stop().await; return Err(error)]. *)
Definition abandon_session {A} (session : CS.ComputerUseSession)
    (error : HostError.HostError) : conn_op A :=
  run? ask world (StopWindowSession session) in
  throw error.

(** [?] on an answer of the core. *)
Definition core_answer {A} (answer : cresult A) : conn_op A :=
  lift (rmap_err HostError.ComputerUse answer).

(** The start in the observation mode of the grant. *)
Definition start_session_in_mode (grant : Grant.TaskGrant)
    (start_request : StartRequest.ComputerUseSessionStartRequest)
    (session : CS.ComputerUseSession) : conn_op (value * CS.ComputerUseSession) :=
  do? (answer, session) :=
    if Grant.observation_mode grant == PixelsOnly then
      if StartRequest.activate_before start_request
      then throw (HostError.Protocol
        "pixels_only session startup cannot activate the target")
      else ask world (StartPixelsOnly session)
    else ask world (StartWithRequest start_request session) in
  do? started := core_answer answer in
  ret (started, session).

Definition start_granted_window_session (grant : Grant.TaskGrant)
    (launched : option Launch.HostLaunchSession) (agent_name runtime_session_id : string)
    (start_request : StartRequest.ComputerUseSessionStartRequest)
    (native_target_authorization : option Native.NativeTaskAuthorization)
    : conn_op (CS.ComputerUseSession * value) :=
  match Grant.owned_browser_launch grant with
  | Some launch =>
      if is_some launched
      then throw (HostError.Protocol
        "owned browser tasks cannot reuse an application launch session")
      else
        do? answer := ask world (OwnedBrowserSession launch (Grant.application_label grant)
          agent_name runtime_session_id start_request) in
        core_answer answer
  | None =>
      do? answer := ask world (SessionWithAgent (grant_scope grant)
        (Grant.application_label grant) agent_name runtime_session_id) in
      do? session := core_answer answer in
      do? session :=
        match native_target_authorization with
        | Some authorization =>
            do? (answer, session) :=
              ask world (SetNativeTaskAuthorization authorization session) in
            run? core_answer answer in
            ret session
        | None => ret session
        end in
      do? (started, session) := start_session_in_mode grant start_request session in
      ret (session, started)
  end.

(** The recording fence is bound before any recorder starts. *)
Definition bind_recording_fence (grant : Grant.TaskGrant)
    (task_authorization : option Lease.TrustedTaskAuthorizationLease)
    (session : CS.ComputerUseSession) : conn_op CS.ComputerUseSession :=
  match task_authorization with
  | Some lease =>
      if Grant.allow_recording grant || Grant.allow_live_observation grant then
        do? authorization :=
          match Services.task_authorization_host services with
          | Some _ => ask world (RecordingAuthorizationOf lease)
          | None => ret None
          end in
        match authorization with
        | None => abandon_session session
            (HostError.coded_protocol HostProtocolErrorCode.TaskAuthorizationDenied
               "native capture requires a constructor-owned producer revocation fence")
        | Some authorization => ask world (SetRecordingAuthorization authorization session)
        end
      else ret session
  | None => ret session
  end.

Definition prepare_granted_session_recording (grant : Grant.TaskGrant)
    (task_authorization : option Lease.TrustedTaskAuthorizationLease)
    (session : CS.ComputerUseSession) : conn_op (option value * CS.ComputerUseSession) :=
  do? session := bind_recording_fence grant task_authorization session in
  match Grant.showcase_output_dir grant with
  | Some output_dir =>
      if negb (Grant.allow_recording grant)
      then abandon_session session
        (HostError.Protocol "showcase recording requires allow_recording")
      else
        do? (result, session) := ask world (StartRecording
          {| RecStart.output_dir := output_dir; RecStart.record_video := true |} session) in
        match result with
        | Ok result => ret (Some result, session)
        | Err error => abandon_session session (HostError.ComputerUse error)
        end
  | None => ret (None, session)
  end.

Definition launch_app (session_id : string) (grant : Grant.TaskGrant) (launch : value)
    : conn_op response :=
  run? refuse_if (str_is_empty (trim session_id))
         (HostError.Protocol "launch session_id must not be empty") in
  do? self := silent (read Datatypes.id) in
  run? refuse_if (is_some (Conn.windows self !! session_id)
                  || is_some (Conn.launches self !! session_id))
         (HostError.Protocol "session already exists") in
  run? lift (ensure_connection_session_capacity (session_count self)) in
  run? lift (validate_identity grant) in
  run? lift (reject_task_authorization grant "launch_app") in
  run? refuse_if (negb (Grant.allow_app_launch grant))
         (denied HostProtocolErrorCode.AppLaunchNotGranted "application launch") in
  do? uuid := ask world NewUuid in
  let runtime_session_id := new_runtime_session_id "launch" uuid in
  do? answer := ask world (LaunchAppForSession launch runtime_session_id) in
  do? result := core_answer answer in
  let process_id := as_u32 result.["structuredContent"].["pid"] in
  run? match process_id with
       | Some process_id =>
           let launched :=
             {| Launch.runtime_session_id := runtime_session_id;
                Launch.task_grant_id := Grant.task_grant_id grant;
                Launch.application_label := Grant.application_label grant;
                Launch.process_id := process_id |} in
           conn_modify (fun self => self
             <| Conn.launches := <[session_id := launched]> (Conn.launches self) |>)
       | None =>
           run? ask world (EndLaunchSession runtime_session_id) in ret tt
       end in
  ret (Object
    [("type", Str "app_launched"); ("session_id", Str session_id);
     ("task_grant_id", Str (Grant.task_grant_id grant));
     ("lifecycle_bound", Bool (is_some process_id)); ("result", result)], None).
(** The entry of the table for a session that was opened. *)
Definition opened_host (grant : Grant.TaskGrant)
    (task_authorization : option Lease.TrustedTaskAuthorizationLease)
    (capability runtime_session_id : string) (session : CS.ComputerUseSession)
    (browser : BS.BrowserSession) (input_target : ComputerUseInputTarget.ComputerUseInputTarget)
    (input_events : Q.SessionEventQueue) (idle_timeout_ms now : Z) : HS.HostSession := {|
  HS.extension_observation := None;
  HS.runtime_session_id := runtime_session_id;
  HS.target_process_id := ComputerUseInputTarget.process_id input_target;
  HS.target_window_handle := ComputerUseInputTarget.window_handle input_target;
  HS.task_grant_id := Grant.task_grant_id grant;
  HS.observation_mode := Grant.observation_mode grant;
  HS.allow_raw_input := Grant.allow_raw_input grant;
  HS.allow_app_terminate := Grant.allow_app_terminate grant;
  HS.allow_clipboard_read := Grant.allow_clipboard_read grant;
  HS.allow_clipboard_write := Grant.allow_clipboard_write grant;
  HS.allow_recording := Grant.allow_recording grant;
  HS.allow_live_observation := Grant.allow_live_observation grant;
  HS.allow_browser_input := Grant.allow_browser_input grant;
  HS.allow_browser_prepare := Grant.allow_browser_prepare grant;
  HS.allowed_browser_origins := Grant.allowed_browser_origins grant;
  HS.allow_browser_download := Grant.allow_browser_download grant;
  HS.allow_native_tool := Grant.allow_native_tool grant;
  HS.allow_menu_invoke := Grant.allow_menu_invoke grant;
  HS.allow_session_escalation := Grant.allow_session_escalation grant;
  HS.allow_trusted_confirmation := Grant.allow_trusted_confirmation grant;
  HS.task_authorization := task_authorization;
  HS.task_authorization_host := Services.task_authorization_host services;
  HS.allow_restore_activate := restore_activate_available grant;
  HS.capability := capability;
  HS.interrupted := false;
  HS.session := session;
  HS.synchronized_action_evidence_epoch := CS.action_evidence_epoch session;
  HS.browser_evidence_epoch := None;
  HS.browser := browser;
  HS.latest_observation_id := None;
  HS.latest_accessibility_state_id := None;
  HS.latest_accessibility_root := None;
  HS.latest_shared_image := None;
  HS.latest_preparation_image := None;
  HS.input_events := input_events;
  HS.idle_timeout := idle_timeout_ms;
  HS.last_activity := now |}.

(** An absent showcase is [null]; the last three fields are there when they are known. *)
Definition session_opened_response (session_id capability : string) (grant : Grant.TaskGrant)
    (task_authorization : option Lease.TrustedTaskAuthorizationLease)
    (target status started : value) (renderer : bool) (showcase : option value)
    (input_events : Q.SessionEventQueue) (idle_timeout_ms : Z) : value :=
  let response := Object
    [("type", Str "session_opened"); ("session_id", Str session_id);
     ("window_capability", Str capability);
     ("observation_mode", observation_mode_value (Grant.observation_mode grant));
     ("target", target_wire target); ("marker", status.["marker"]);
     ("banner", status.["banner"]); ("upstream_session", status.["upstream_session"]);
     ("cursor", Object
        [("visible", status.["marker"].["visible"]); ("shape", Str "mouse_pointer");
         ("theme", started.["cursor_theme"]);
         ("render_backend", Str (cursor_render_backend renderer));
         ("motion_backend", Str "cua-driver-sdk")]);
     ("showcase", option_value Datatypes.id showcase);
     ("input_state", input_state_json (Q.input_current input_events));
     ("target_state", target_state_json (Q.target_current input_events));
     ("latest_sequence", Number (PosInt (Q.latest_sequence input_events)));
     ("idle_timeout_ms", Number (PosInt idle_timeout_ms))] in
  let response := set_some response "owned_browser" Datatypes.id (get started "owned_browser") in
  let response := set_some response "task_authorization" task_authorization_response
    task_authorization in
  set_some response "activation" Datatypes.id (get started "activation").

(** The clock and the identifier that the issue of a lease reads. *)
Definition with_lease_clock {A} (k : Z -> string -> hresult A) : conn_op (hresult A) :=
  do? now := ask world UnixMillisNow in
  do? uuid := ask world NewUuid in
  ret (k now uuid).

(** From the window that was opened: the lease, the recorder and the table. *)
Definition finish_opening (session_id : string) (grant : Grant.TaskGrant)
    (capability runtime_session_id : string) (idle_timeout_ms : Z)
    (preauthorized : option Lease.TrustedTaskAuthorizationLease)
    (browser : BS.BrowserSession) (session : CS.ComputerUseSession) (started : value)
    : conn_op response :=
  match WindowWorld.target session with
  | None => abandon_session session (HostError.Protocol "CUA did not return a target")
  | Some target =>
      do? status := ask world (SessionStatus session) in
      do? renderer := ask world UpstreamCursorRendererEnabled in
      match input_target_from_cua session_id target with
      | Err error => abandon_session session error
      | Ok input_target =>
          do? self := silent (read Datatypes.id) in
          do? finalized := with_lease_clock (fun now uuid =>
            finalize_task_session_authorization now uuid
              (Services.task_authorization_host services) (Conn.connection_id self) grant
              session_id capability
              {| Window.process_id := ComputerUseInputTarget.process_id input_target;
                 Window.window_handle := ComputerUseInputTarget.window_handle input_target |}
              preauthorized) in
          match finalized with
          | Err error => abandon_session session error
          | Ok task_authorization =>
              do? (showcase, session) :=
                prepare_granted_session_recording grant task_authorization session in
              run? conn_modify (fun self => self
                <| Conn.launches := delete session_id (Conn.launches self) |>) in
              do? (readiness, observed_at) := ask world InputReadinessSample in
              let input_events := new_with_restore_capability input_target readiness
                (from_window_state target) (restore_activate_available grant)
                observed_at in
              do? now := ask world MonotonicNow in
              let host := opened_host grant task_authorization capability
                runtime_session_id session browser input_target input_events
                idle_timeout_ms now in
              run? conn_modify (fun self => self
                <| Conn.windows := <[session_id := host]> (Conn.windows self) |>) in
              ret (session_opened_response session_id capability grant task_authorization
                target status started renderer showcase input_events idle_timeout_ms, None)
          end
      end
  end.

Definition open_session (session_id : string) (grant : Grant.TaskGrant)
    (activate_before : bool) (indicator_motion : value) (idle_timeout_ms : Z)
    : conn_op response :=
  do? self := silent (read Datatypes.id) in
  run? refuse_if (is_some (Conn.windows self !! session_id))
         (HostError.Protocol "session already exists") in
  run? lift (validate_identity grant) in
  run? refuse_if (negb ((MIN_SESSION_IDLE_TIMEOUT_MS <=? idle_timeout_ms)
                        && (idle_timeout_ms <=? MAX_SESSION_IDLE_TIMEOUT_MS)))
         (HostError.Protocol ("idle_timeout_ms must be between "
            +:+ show MIN_SESSION_IDLE_TIMEOUT_MS +:+ " and "
            +:+ show MAX_SESSION_IDLE_TIMEOUT_MS)) in
  let launched := Conn.launches self !! session_id in
  run? lift (if is_none launched
             then ensure_connection_session_capacity (session_count self) else Ok tt) in
  do? grant := lift (bound_grant launched grant) in
  do? capability :=
    match Grant.task_authorization_window_capability grant with
    | Some capability => ret capability
    | None => do? uuid := ask world NewUuid in ret ("cua-window-" +:+ uuid)
    end in
  do? preauthorized := with_lease_clock (fun now uuid =>
    preauthorize_task_session now uuid (Services.task_authorization_host services)
      (Conn.connection_id self) grant session_id capability activate_before) in
  do? preauthorized := lift preauthorized in
  do? browser := match task_browser_session preauthorized with
                 | Some browser => lift browser
                 | None => Effects.panic
                 end in
  do? runtime_session_id :=
    match launched with
    | Some launched => ret (Launch.runtime_session_id launched)
    | None => do? uuid := ask world NewUuid in ret (new_runtime_session_id "window" uuid)
    end in
  do? native_target_authorization :=
    match preauthorized, Services.task_authorization_host services with
    | Some lease, Some _ => ask world (NativeTargetAuthorization lease)
    | _, _ => ret None
    end in
  do? (session, started) := start_granted_window_session grant launched
    (Conn.agent_name self) runtime_session_id
    {| StartRequest.activate_before := activate_before;
       StartRequest.indicator_motion := indicator_motion |}
    native_target_authorization in
  finish_opening session_id grant capability runtime_session_id idle_timeout_ms
    preauthorized browser session started.
End Handlers.

(** ** The sessions that run *)

(** A start that succeeded, and a stop, of a core session. *)
Definition session_weight (c : open_record) : Z :=
  match c with
  | existT _ (call, answer) =>
      match call in open_call A return A -> Z with
      | OwnedBrowserSession _ _ _ _ _ => fun answer => if is_ok answer then 1 else 0
      | StartPixelsOnly _ => fun answer => if is_ok answer.1 then 1 else 0
      | StartWithRequest _ _ => fun answer => if is_ok answer.1 then 1 else 0
      | StopWindowSession _ => fun _ => -1
      | _ => fun _ => 0
      end answer
  end.

(** The same for the runtime sessions of launched applications. *)
Definition launch_weight (c : open_record) : Z :=
  match c with
  | existT _ (call, answer) =>
      match call in open_call A return A -> Z with
      | LaunchAppForSession _ _ => fun answer => if is_ok answer then 1 else 0
      | EndLaunchSession _ => fun _ => -1
      | _ => fun _ => 0
      end answer
  end.

(** ** What an opening has to leave *)

Section Opened.
Context `{P : Platform}.
Context `{WF : WireFormat}.
Implicit Types (calls : history open_call).

(** The calls include this one, with this answer. *)
Abbreviation made calls call answer := (asked call answer ∈ calls).

(** The grant is the one of the launch: for a launched application it is narrowed to the
    process that was launched. *)
Definition bound_to (launched : option Launch.HostLaunchSession)
    (grant bound : Grant.TaskGrant) : Prop :=
  match launched with
  | None => bound = grant
  | Some launched =>
      Grant.task_grant_id grant = Launch.task_grant_id launched
      /\ Grant.application_label grant = Launch.application_label launched
      /\ (Grant.process_id grant = None
          \/ Grant.process_id grant = Some (Launch.process_id launched))
      /\ bound = grant <| Grant.process_id := Some (Launch.process_id launched) |>
  end.

(** [started] is the core session the driver started for the grant: its own browser, or
    the application and window the grant names, in the mode of the grant. *)
Definition started_for calls (grant : Grant.TaskGrant) (agent_name runtime_session_id : string)
    (activate_before : bool) (indicator_motion : value)
    (started : CS.ComputerUseSession) : Prop :=
  exists report,
    let request := {| StartRequest.activate_before := activate_before;
                      StartRequest.indicator_motion := indicator_motion |} in
    match Grant.owned_browser_launch grant with
    | Some launch =>
        made calls (OwnedBrowserSession launch (Grant.application_label grant) agent_name
          runtime_session_id request) (Ok (started, report))
    | None => exists created prepared,
        made calls (SessionWithAgent
            {| TargetScope.process_id := Grant.process_id grant;
               TargetScope.window_handle := Grant.window_handle grant;
               TargetScope.window_title := Grant.window_title grant |}
            (Grant.application_label grant) agent_name runtime_session_id) (Ok created)
        /\ (prepared = created
            \/ exists lease authorization,
                 made calls (NativeTargetAuthorization lease) (Some authorization)
                 /\ made calls (SetNativeTaskAuthorization authorization created)
                      (Ok tt, prepared))
        /\ match Grant.observation_mode grant with
           | PixelsOnly => activate_before = false
               /\ made calls (StartPixelsOnly prepared) (Ok report, started)
           | _ => made calls (StartWithRequest request prepared) (Ok report, started)
           end
    end.

(** Before anything is recorded under a lease, the core session holds the fence its
    authority revokes; a showcase is recorded where the grant says. *)
Definition recorded_for calls (grant : Grant.TaskGrant)
    (lease : option Lease.TrustedTaskAuthorizationLease)
    (started session : CS.ComputerUseSession) : Prop :=
  exists fenced,
    match lease with
    | Some lease =>
        if Grant.allow_recording grant || Grant.allow_live_observation grant
        then exists authorization,
          made calls (RecordingAuthorizationOf lease) (Some authorization)
          /\ made calls (SetRecordingAuthorization authorization started) fenced
        else fenced = started
    | None => fenced = started
    end
    /\ match Grant.showcase_output_dir grant with
       | Some output_dir => Grant.allow_recording grant = true
           /\ exists report, made calls (StartRecording
                {| RecStart.output_dir := output_dir; RecStart.record_video := true |} fenced)
                (Ok report, session)
       | None => session = fenced
       end.

(** A core session, and what the calls made it. *)
Inductive became calls : CS.ComputerUseSession -> CS.ComputerUseSession -> Prop :=
| became_same session : became calls session session
| became_fenced authorization session fenced later :
    made calls (SetRecordingAuthorization authorization session) fenced ->
    became calls fenced later -> became calls session later
| became_recorded request session answer recorded later :
    made calls (StartRecording request session) (answer, recorded) ->
    became calls recorded later -> became calls session later.

(** The core sessions the driver started. *)
Definition started_session (c : open_record) : option CS.ComputerUseSession :=
  match c with
  | existT _ (call, answer) =>
      match call in open_call A return A -> option CS.ComputerUseSession with
      | OwnedBrowserSession _ _ _ _ _ => fun answer =>
          match answer with Ok (session, _) => Some session | Err _ => None end
      | StartPixelsOnly _ => fun answer =>
          match answer with (Ok _, session) => Some session | _ => None end
      | StartWithRequest _ _ => fun answer =>
          match answer with (Ok _, session) => Some session | _ => None end
      | _ => fun _ => None
      end answer
  end.
Definition starts calls : list CS.ComputerUseSession := omap started_session calls.

(** The driver was told to stop it, or what it became. *)
Definition is_stopped calls (session : CS.ComputerUseSession) : Prop :=
  exists last answer, became calls session last
    /\ made calls (StopWindowSession last) answer.

(** The browser of a new session: at most the target of the lease is bound to it, and no
    snapshot was taken. *)
Definition new_browser (lease : option Lease.TrustedTaskAuthorizationLease)
    (browser : BS.BrowserSession) : Prop :=
  browser = BS.default
  \/ exists l scope, lease = Some l /\ Lease.browser_scope l = Some scope
       /\ browser = {| BS.target_id := Some (BrowserScope.host_target_id scope);
                       BS.mutation_allowed := true;
                       BS.latest_snapshot_id := None;
                       BS.latest_tab_id := None;
                       BS.latest_origin := None;
                       BS.pending_ancestor_continuation := None |}.

(** Every permission of a new session is the grant's; it was not interrupted, and nothing
    was observed in it yet. *)
Record permitted_by (services : Services.HostSecurityServices) (grant : Grant.TaskGrant)
    (host : HS.HostSession) : Prop := {
  of_grant : HS.task_grant_id host = Grant.task_grant_id grant;
  same_mode : HS.observation_mode host = Grant.observation_mode grant;
  same_raw_input : HS.allow_raw_input host = Grant.allow_raw_input grant;
  same_terminate : HS.allow_app_terminate host = Grant.allow_app_terminate grant;
  same_clipboard_read : HS.allow_clipboard_read host = Grant.allow_clipboard_read grant;
  same_clipboard_write : HS.allow_clipboard_write host = Grant.allow_clipboard_write grant;
  same_recording : HS.allow_recording host = Grant.allow_recording grant;
  same_live : HS.allow_live_observation host = Grant.allow_live_observation grant;
  same_browser_input : HS.allow_browser_input host = Grant.allow_browser_input grant;
  same_browser_prepare : HS.allow_browser_prepare host = Grant.allow_browser_prepare grant;
  same_origins : HS.allowed_browser_origins host = Grant.allowed_browser_origins grant;
  same_download : HS.allow_browser_download host = Grant.allow_browser_download grant;
  same_native_tool : HS.allow_native_tool host = Grant.allow_native_tool grant;
  same_menu : HS.allow_menu_invoke host = Grant.allow_menu_invoke grant;
  same_escalation : HS.allow_session_escalation host = Grant.allow_session_escalation grant;
  same_confirmation :
    HS.allow_trusted_confirmation host = Grant.allow_trusted_confirmation grant;
  restores_exact_windows : HS.allow_restore_activate host = true <->
    is_Some (Grant.process_id grant) /\ is_Some (Grant.window_handle grant);
  same_authority :
    HS.task_authorization_host host = Services.task_authorization_host services;
  not_interrupted : HS.interrupted host = false;
  nothing_observed : HS.extension_observation host = None
    /\ HS.browser_evidence_epoch host = None
    /\ HS.latest_observation_id host = None
    /\ HS.latest_accessibility_state_id host = None
    /\ HS.latest_accessibility_root host = None
    /\ HS.latest_shared_image host = None
    /\ HS.latest_preparation_image host = None;
}.

(** The entry for the core session [started]: its target is the window that session was
    found to have. *)
Record entered calls (services : Services.HostSecurityServices) (session_id : string)
    (grant : Grant.TaskGrant) (idle_timeout_ms : Z) (started : CS.ComputerUseSession)
    (host : HS.HostSession) : Prop := {
  has_permissions : permitted_by services grant host;
  claimed_capability : forall c,
    Grant.task_authorization_window_capability grant = Some c -> HS.capability host = c;
  found_target : exists target, WindowWorld.target started = Some target
    /\ as_u64 target.["pid"] = Some (HS.target_process_id host)
    /\ HS.target_process_id host <= U32_MAX
    /\ as_u64 target.["window_id"] = Some (HS.target_window_handle host)
    /\ exists readiness observed_at,
         made calls InputReadinessSample (readiness, observed_at)
         /\ HS.input_events host = new_with_restore_capability
              {| ComputerUseInputTarget.session_id := session_id;
                 ComputerUseInputTarget.process_id := HS.target_process_id host;
                 ComputerUseInputTarget.window_handle := HS.target_window_handle host |}
              readiness (from_window_state target) (HS.allow_restore_activate host)
              observed_at;
  runs_session : recorded_for calls grant (HS.task_authorization host) started
    (HS.session host);
  same_epoch : HS.synchronized_action_evidence_epoch host
    = CS.action_evidence_epoch (HS.session host);
  starts_browser : new_browser (HS.task_authorization host) (HS.browser host);
  idles : HS.idle_timeout host = idle_timeout_ms
    /\ MIN_SESSION_IDLE_TIMEOUT_MS <= idle_timeout_ms <= MAX_SESSION_IDLE_TIMEOUT_MS
    /\ made calls MonotonicNow (HS.last_activity host);
}.

(** The lease of a session with this host, as its grant asks for it, in force at a time
    the clock showed. *)
Definition lease_of_grant calls (connection_id session_id : string) (grant : Grant.TaskGrant)
    (activate_before : bool) (host : HS.HostSession) : Prop :=
  match HS.task_authorization host with
  | None => Grant.task_authorization_id grant = None
  | Some lease => activate_before = false
      /\ exists issued, made calls UnixMillisNow issued
         /\ leased_for connection_id session_id (HS.capability host) grant
              {| Window.process_id := HS.target_process_id host;
                 Window.window_handle := HS.target_window_handle host |} issued lease
  end.

(** The table with a session more and its launch consumed. *)
Definition with_session (session_id : string) (host : HS.HostSession)
    (self : Conn.ConnectionSessions) : Conn.ConnectionSessions :=
  self <| Conn.launches := delete session_id (Conn.launches self) |>
       <| Conn.windows := <[session_id := host]> (Conn.windows self) |>.
End Opened.

(** ** Openings keep the books *)

Section Books.
Context `{P : Platform}.
Context `{DA : !Digestible UnsignedAuth.UnsignedTaskAuthorizationRequest}.
Context `{WF : WireFormat}.
Context (world : oracle open_call) (services : Services.HostSecurityServices).
Implicit Types (calls : history open_call) (s : Conn.ConnectionSessions).

Abbreviation balanced := (balance session_weight).
Ltac balance := rewrite ?balance_app; simpl in *; lia.

Lemma became_mono calls calls' session later :
  calls ⊆ calls' -> became calls session later -> became calls' session later.
Proof.
  intros Hc. induction 1; [constructor | eapply became_fenced | eapply became_recorded]; eauto.
Qed.
Lemma started_for_mono calls calls' grant agent_name id activate motion started :
  calls ⊆ calls' -> started_for calls grant agent_name id activate motion started ->
  started_for calls' grant agent_name id activate motion started.
Proof.
  intros Hc. unfold started_for. destruct (Grant.owned_browser_launch grant); [naive_solver|].
  intros (report & created & prepared & H1 & H2 & H3). exists report, created, prepared.
  split; [auto|]. split; [naive_solver|]. destruct (Grant.observation_mode grant); naive_solver.
Qed.
Lemma recorded_for_mono calls calls' grant lease started session :
  calls ⊆ calls' -> recorded_for calls grant lease started session ->
  recorded_for calls' grant lease started session.
Proof.
  intros Hc (fenced & Hf & Hs). exists fenced. split.
  - destruct lease; [|done]. destruct (_ || _ : bool); naive_solver.
  - destruct (Grant.showcase_output_dir grant); naive_solver.
Qed.
Lemma more_calls calls more : calls ⊆ calls ++ more.
Proof. intros c Hc. apply elem_of_app. auto. Qed.
#[local] Hint Resolve more_calls : core.

Lemma starts_app calls more : starts (calls ++ more) = starts calls ++ starts more.
Proof. apply omap_app. Qed.

Lemma books_abandon {A} session error
    (Q : result _ A -> history open_call -> Conn.ConnectionSessions -> Prop) calls s :
  (forall answer, Q (Err error) (calls ++ [asked (StopWindowSession session) answer]) s) ->
  books (abandon_session world session error) Q calls s.
Proof. intros HQ. unfold abandon_session. repeat books. apply HQ. Qed.

Ltac destruct_result :=
  match goal with
  | r : result _ (_ * _) |- _ => destruct r as [[]|]
  | r : result _ _ |- _ => destruct r
  end.
(** ** The start *)

(** A failed start started nothing. *)
Abbreviation not_started s calls s' := (s' = s /\ starts calls = [] /\ balanced calls = 0).

Lemma start_in_mode_books grant request session s :
  books (start_session_in_mode world grant request session)
    (fun r calls s' => match r with
     | Err _ => not_started s calls s'
     | Ok (report, started) => s' = s /\ starts calls = [started] /\ balanced calls = 1
         /\ match Grant.observation_mode grant with
            | PixelsOnly => StartRequest.activate_before request = false
                /\ asked (StartPixelsOnly session) (Ok report, started) ∈ calls
            | _ => asked (StartWithRequest request session) (Ok report, started) ∈ calls
            end
     end) [] s.
Proof.
  unfold start_session_in_mode, core_answer.
  destruct (Grant.observation_mode grant); simpl;
    [|destruct (StartRequest.activate_before request) eqn:?]; repeat books; try done;
    destruct a as [[]]; repeat books; split_and!; try done; by among.
Qed.

Ltac count := rewrite ?starts_app, ?balance_app; simpl; try split_and!; try done; try lia.

(** With the calls made before, of which none started anything. *)
Lemma start_granted_books grant launched agent_name id request native calls s :
  (forall authorization, native = Some authorization -> exists lease,
     asked (NativeTargetAuthorization lease) (Some authorization) ∈ calls) ->
  starts calls = [] -> balanced calls = 0 ->
  books (start_granted_window_session world grant launched agent_name id request native)
    (fun r calls' s' => match r with
     | Err _ => not_started s calls' s'
     | Ok (started, _) => s' = s /\ starts calls' = [started] /\ balanced calls' = 1
         /\ calls ⊆ calls'
         /\ started_for calls' grant agent_name id (StartRequest.activate_before request)
              (StartRequest.indicator_motion request) started
     end) calls s.
Proof.
  intros Hnative Hstarts Hbalance. unfold start_granted_window_session, core_answer, started_for.
  destruct (Grant.owned_browser_launch grant).
  - destruct (is_some launched); repeat books; [done|].
    destruct a as [[]|]; rewrite starts_app, Hstarts; split_and!; try done; try balance;
      try apply more_calls. eexists. destruct request. among.
  - repeat books. destruct a as [created|]; repeat books;
      [|rewrite starts_app, Hstarts; split_and!; try done; balance].
    destruct native as [authorization|]; repeat books;
      [destruct a as [[[]|] prepared]; repeat books; [|count; by rewrite Hstarts]|];
      (eapply books_mono; [apply books_frame, start_in_mode_books|];
       intros r ? s' (own & -> & H); destruct_result; repeat books).
    all: try (destruct H as (-> & Hs & Hb); count; by rewrite Hstarts, Hs).
    all: destruct H as (-> & Hs & Hb & H); split; [done|];
      rewrite ?starts_app, ?balance_app, Hstarts, Hs; split; [done|]; split; [simpl; lia|];
      (split; [intros c' Hc'; among|]).
    + exists v, created, prepared. split; [among|]. split.
      * right. destruct (Hnative authorization eq_refl) as (lease & Hl).
        exists lease, authorization. split; among.
      * destruct request, (Grant.observation_mode grant); [|destruct H as [? H]; split; [done|]];
          among.
    + exists v, created, created. split; [among|]. split; [by left|].
      destruct request, (Grant.observation_mode grant); [|destruct H as [? H]; split; [done|]];
        among.
Qed.

(** ** What follows the start *)

(** Of a session that runs, with the calls made before: it is kept, as [kept] says, or
    it is stopped and nothing has changed. *)
Definition keeps calls s (session : CS.ComputerUseSession) {A}
    (kept : A -> history open_call -> Conn.ConnectionSessions -> Prop) (r : hresult A)
    (calls' : history open_call) (s' : Conn.ConnectionSessions) : Prop :=
  exists own, calls' = calls ++ own /\ starts own = []
    /\ match r with
       | Ok a => balanced own = 0 /\ kept a calls' s'
       | Err _ => s' = s /\ balanced own = -1 /\ is_stopped calls' session
       end.

Lemma keeps_ok calls own s session {A} (kept : A -> _ -> _ -> Prop) a s' :
  starts own = [] -> balanced own = 0 -> kept a (calls ++ own) s' ->
  keeps calls s session kept (Ok a) (calls ++ own) s'.
Proof. exists own. eauto. Qed.

Lemma keeps_abandoned calls own s session last error {A} (kept : A -> _ -> _ -> Prop) :
  starts own = [] -> balanced own = 0 -> became (calls ++ own) session last ->
  books (abandon_session world last error) (keeps calls s session kept) (calls ++ own) s.
Proof.
  intros Hs Hb Hl. apply books_abandon. intros answer. eexists. rewrite <- app_assoc.
  split; [done|]. rewrite starts_app, Hs. split; [done|]. split; [done|].
  split; [balance|]. rewrite app_assoc. exists last, answer.
  split; [eapply became_mono; [apply more_calls | done] | among].
Qed.

Lemma became_last calls started fenced later :
  became calls started fenced -> became calls fenced later -> became calls started later.
Proof.
  intros H1 H2. induction H1; [done | eapply became_fenced | eapply became_recorded]; eauto.
Qed.

(** The fence a lease asks for. *)
Definition fenced_for calls (grant : Grant.TaskGrant)
    (lease : option Lease.TrustedTaskAuthorizationLease)
    (started fenced : CS.ComputerUseSession) : Prop :=
  match lease with
  | Some lease =>
      if Grant.allow_recording grant || Grant.allow_live_observation grant
      then exists authorization,
        asked (RecordingAuthorizationOf lease) (Some authorization) ∈ calls
        /\ asked (SetRecordingAuthorization authorization started) fenced ∈ calls
      else fenced = started
  | None => fenced = started
  end.

Lemma fenced_became calls grant lease started fenced :
  fenced_for calls grant lease started fenced -> became calls started fenced.
Proof.
  unfold fenced_for. destruct lease; [|intros ->; constructor].
  destruct (_ || _ : bool); [|intros ->; constructor].
  intros (authorization & _ & H). eapply became_fenced; [exact H | constructor].
Qed.

(** Calls made before, and those of the operation. *)
Ltac own := rewrite <- ?app_assoc.

Lemma bind_fence_books grant lease session calls own s :
  starts own = [] -> balanced own = 0 ->
  books (bind_recording_fence world services grant lease session)
    (keeps calls s session (fun fenced calls' s' =>
       s' = s /\ fenced_for calls' grant lease session fenced)) (calls ++ own) s.
Proof.
  intros Hs Hb. unfold bind_recording_fence, fenced_for.
  destruct lease as [lease|]; [|books; by apply keeps_ok].
  destruct (_ || _ : bool); [|books; by apply keeps_ok].
  destruct (Services.task_authorization_host services); repeat books; [destruct a; [books|]|].
  - own. apply keeps_ok; [by rewrite starts_app, Hs | balance|].
    split; [done|]. rewrite app_assoc. eexists. split; among.
  - own. apply keeps_abandoned; [by rewrite starts_app, Hs | balance | constructor].
  - apply keeps_abandoned; [done.. | constructor].
Qed.

Lemma prepare_recording_books grant lease session calls own s :
  starts own = [] -> balanced own = 0 ->
  books (prepare_granted_session_recording world services grant lease session)
    (keeps calls s session (fun '(_, last) calls' s' =>
       s' = s /\ recorded_for calls' grant lease session last)) (calls ++ own) s.
Proof.
  intros Hs Hb. unfold prepare_granted_session_recording. books.
  eapply books_mono; [by apply bind_fence_books|].
  clear own Hs Hb. intros [fenced|e] c1 s1 (own & -> & Hs & H); [|by exists own].
  destruct H as (Hb & -> & H). pose proof (fenced_became _ _ _ _ _ H) as Hbecame.
  destruct (Grant.showcase_output_dir grant) as [dir|] eqn:Hdir.
  2: { books. apply keeps_ok; try done. split; [done|]. exists fenced.
       split; [exact H | by rewrite Hdir]. }
  destruct (Grant.allow_recording grant) eqn:Hrec; simpl; [|by apply keeps_abandoned].
  repeat books. destruct a as [[report|e] last].
  - books. own. apply keeps_ok; [by rewrite starts_app, Hs | balance|].
    rewrite app_assoc. split; [done|]. exists fenced.
    split; [|rewrite Hdir; split; [done|]; exists report; among].
    unfold fenced_for in H. destruct lease; [|done]. destruct (_ || _ : bool); [|done].
    destruct H as (authorization & H1 & H2). exists authorization. split; among.
  - own. apply keeps_abandoned; [by rewrite starts_app, Hs | balance|].
    rewrite app_assoc. eapply became_last.
    + eapply became_mono; [apply more_calls | exact Hbecame].
    + eapply became_recorded; [among | constructor].
Qed.

(** ** The rest of an opening *)

Lemma restore_spec grant :
  restore_activate_available grant = true <->
    is_Some (Grant.process_id grant) /\ is_Some (Grant.window_handle grant).
Proof. unfold restore_activate_available. by rewrite andb_true_iff, !is_some_true. Qed.

Lemma opened_permissions grant lease capability id session browser input_target events idle now :
  permitted_by services grant (opened_host services grant lease capability id session browser
    input_target events idle now).
Proof. constructor; try done. apply restore_spec. Qed.

Lemma input_target_spec session_id target input_target :
  input_target_from_cua session_id target = Ok input_target ->
  as_u64 target.["pid"] = Some (ComputerUseInputTarget.process_id input_target)
  /\ ComputerUseInputTarget.process_id input_target <= U32_MAX
  /\ as_u64 target.["window_id"] = Some (ComputerUseInputTarget.window_handle input_target)
  /\ ComputerUseInputTarget.session_id input_target = session_id.
Proof.
  unfold input_target_from_cua, as_u32. intros (pid & Hp%ok_or_ok & H)%rbind_ok.
  apply rbind_ok in H as (handle & Hh%ok_or_ok & H). injection H as <-. simpl.
  apply bind_Some in Hp as (n & Hn & Hp). case_match eqn:E; [|done]. injection Hp as ->.
  split_and!; try done. lia.
Qed.

(** The lease is settled for the target of this host. *)
Definition finalized_for (connection_id session_id capability : string)
    (grant : Grant.TaskGrant) (preauthorized : option Lease.TrustedTaskAuthorizationLease)
    calls (host : HS.HostSession) : Prop :=
  exists now uuid, asked UnixMillisNow now ∈ calls
    /\ finalize_task_session_authorization now uuid
         (Services.task_authorization_host services) connection_id grant session_id capability
         {| Window.process_id := HS.target_process_id host;
            Window.window_handle := HS.target_window_handle host |}
         preauthorized = Ok (HS.task_authorization host).

Lemma finish_opening_books session_id grant capability runtime_session_id idle preauthorized
    browser started report calls s :
  (forall c, Grant.task_authorization_window_capability grant = Some c -> capability = c) ->
  MIN_SESSION_IDLE_TIMEOUT_MS <= idle <= MAX_SESSION_IDLE_TIMEOUT_MS ->
  books (finish_opening world services session_id grant capability runtime_session_id
      idle preauthorized browser started report)
    (keeps calls s started (fun _ calls' s' => exists host,
       HS.capability host = capability /\ HS.runtime_session_id host = runtime_session_id
       /\ finalized_for (Conn.connection_id s) session_id capability grant preauthorized
            calls' host
       /\ (new_browser (HS.task_authorization host) browser ->
            entered calls' services session_id grant idle started host)
       /\ s' = with_session session_id host s)) calls s.
Proof.
  intros Hcapability Hidle. unfold finish_opening. rewrite <- (app_nil_r calls) at 2.
  destruct (WindowWorld.target started) as [target|] eqn:Htarget;
    [|apply keeps_abandoned; [done.. | constructor]].
  repeat books. own.
  destruct (input_target_from_cua session_id target) as [input_target|] eqn:Hinput;
    [|apply keeps_abandoned; [done.. | constructor]].
  unfold with_lease_clock. repeat books. own.
  destruct (finalize_task_session_authorization _ _ _ _ _ _ _ _ _) as [lease|] eqn:Hlease;
    [|apply keeps_abandoned; [done.. | constructor]].
  books. set (asked_so_far := calls ++ _).
  rewrite <- (app_nil_r asked_so_far). eapply books_mono; [by apply prepare_recording_books|].
  intros [[showcase session]|e] c1 s1 (own & -> & Hs & H); subst asked_so_far.
  2: { destruct H as (-> & Hb & Hstop). own. eexists. split; [done|].
       split; [exact Hs|]. split; [done|]. split; [balance|].
       rewrite <- !app_assoc in Hstop. exact Hstop. }
  destruct H as (Hb & -> & Hrecorded). unfold conn_modify. repeat books.
  destruct a3 as [readiness observed_at]. repeat books. own.
  apply keeps_ok; [by rewrite !starts_app, Hs | balance|].
  pose proof (input_target_spec _ _ _ Hinput) as (Hpid & Hle & Hhandle & Hid).
  match goal with |- context [<[session_id := ?host]>] => exists host end.
  split; [reflexivity|]. split; [reflexivity|]. split; [|split; [|reflexivity]].
  - exists a1, a2. split; [among | exact Hlease].
  - intros Hbrowser. constructor; try done.
    + apply opened_permissions.
    + exists target. split_and!; try done. exists readiness, observed_at.
      split; [among|]. simpl. f_equal. destruct input_target.
      simpl in *. by subst.
    + eapply recorded_for_mono; [|exact Hrecorded].
      intros c. rewrite !elem_of_app. tauto.
    + split_and!; try done; try lia. among.
Qed.

Lemma with_session_count session_id host s :
  Conn.windows s !! session_id = None ->
  (Conn.launches s !! session_id = None -> session_count s < MAX_SESSIONS_PER_CONNECTION) ->
  session_count s <= MAX_SESSIONS_PER_CONNECTION ->
  session_count (with_session session_id host s) <= MAX_SESSIONS_PER_CONNECTION.
Proof.
  intros Hw Hfree Hle. unfold session_count, with_session in *. simpl.
  rewrite map_size_insert, Hw, map_size_delete.
  destruct (Conn.launches s !! session_id) as [l|] eqn:E; simpl; [|specialize (Hfree eq_refl); lia].
  assert (size (Conn.launches s) <> 0%nat) by (intros H0%map_size_empty_inv; by rewrite H0 in E).
  lia.
Qed.

Lemma capacity_ok count :
  ensure_connection_session_capacity count = Ok tt -> count < MAX_SESSIONS_PER_CONNECTION.
Proof. unfold ensure_connection_session_capacity. case_match eqn:H; [|done]. lia. Qed.

Lemma bound_grant_spec launched grant bound :
  bound_grant launched grant = Ok bound -> bound_to launched grant bound.
Proof.
  unfold bound_grant, bound_to, bind_launched_process. destruct launched as [l|]; [|by intros [=]].
  destruct (_ || _ : bool) eqn:E1; [done|]. destruct (is_some_and _ _) eqn:E2; [done|].
  intros [= <-]. apply orb_false_iff in E1 as [E1 E1']. reflect_all. split_and!; try done.
  destruct (Grant.process_id grant) as [p|]; [|by left]. right.
  specialize (E2 p eq_refl). apply negb_false_iff in E2. f_equal. lia.
Qed.

(** The browser a lease opens with. *)
Lemma browser_spec pre browser :
  task_browser_session pre = Some (Ok browser) -> new_browser pre browser.
Proof.
  unfold task_browser_session, new_browser.
  destruct (pre ≫= Lease.browser_scope) as [scope|] eqn:Hs; [|by intros [= <-]; left].
  unfold bind_authorized_exact_target, bind, read, throw, modify; simpl.
  destruct (_ || _ : bool); simpl; [done|]. intros [= <-]. right.
  destruct pre as [l|]; [|done]. by exists l, scope.
Qed.

Lemma finalized_browser now uuid connection_id session_id capability grant window pre lease
    browser :
  finalize_task_session_authorization now uuid (Services.task_authorization_host services)
    connection_id grant session_id capability window pre = Ok lease ->
  new_browser pre browser -> new_browser lease browser.
Proof.
  unfold finalize_task_session_authorization, new_browser. destruct pre as [l|].
  - destruct (_ || _ : bool); [done|]. by intros [= <-].
  - intros _ [?|(? & ? & ? & _)]; [by left | done].
Qed.

(** An opening, with the calls it made. *)
Definition opens_or_not session_id grant activate_before indicator_motion idle
    (s : Conn.ConnectionSessions) (r : hresult response) calls s' : Prop :=
  match r with
  | Err _ => s' = s /\ balanced calls = 0
      /\ forall started, started ∈ starts calls -> is_stopped calls started
  | Ok _ => Conn.windows s !! session_id = None
      /\ (Conn.launches s !! session_id = None ->
           session_count s < MAX_SESSIONS_PER_CONNECTION)
      /\ exists bound started host,
           balanced calls = 1 /\ starts calls = [started]
           /\ bound_to (Conn.launches s !! session_id) grant bound
           /\ started_for calls bound (Conn.agent_name s) (HS.runtime_session_id host)
                activate_before indicator_motion started
           /\ entered calls services session_id bound idle started host
           /\ (forall launched, Conn.launches s !! session_id = Some launched ->
                HS.runtime_session_id host = Launch.runtime_session_id launched)
           /\ lease_of_grant calls (Conn.connection_id s) session_id bound activate_before host
           /\ s' = with_session session_id host s
  end.

Lemma opens_not session_id grant activate_before indicator_motion idle s error calls :
  starts calls = [] -> balanced calls = 0 ->
  opens_or_not session_id grant activate_before indicator_motion idle s (Err error) calls s.
Proof.
  intros Hs Hb. split_and!; [done..|]. intros started. rewrite Hs. by intros ?%elem_of_nil.
Qed.

(** Nothing was started yet, and nothing stopped. *)
Definition idle_calls calls : Prop := starts calls = [] /\ balanced calls = 0.
Lemma idle_app calls more : idle_calls calls -> idle_calls more -> idle_calls (calls ++ more).
Proof.
  intros [H1 H2] [H3 H4]. unfold idle_calls. rewrite starts_app, balance_app, H1, H3.
  split; [done | lia].
Qed.

(** The last part of an opening, under the authorization it starts with. *)
Lemma start_and_finish_books session_id grant bound activate_before indicator_motion idle launched
    capability runtime_session_id now uuid pre browser native calls s :
  Conn.windows s !! session_id = None ->
  (Conn.launches s !! session_id = None -> session_count s < MAX_SESSIONS_PER_CONNECTION) ->
  MIN_SESSION_IDLE_TIMEOUT_MS <= idle <= MAX_SESSION_IDLE_TIMEOUT_MS ->
  bound_to (Conn.launches s !! session_id) grant bound ->
  (forall c, Grant.task_authorization_window_capability bound = Some c -> capability = c) ->
  (forall l, Conn.launches s !! session_id = Some l ->
    runtime_session_id = Launch.runtime_session_id l) ->
  preauthorize_task_session now uuid (Services.task_authorization_host services)
    (Conn.connection_id s) bound session_id capability activate_before = Ok pre ->
  new_browser pre browser -> asked UnixMillisNow now ∈ calls ->
  (forall authorization, native = Some authorization -> exists lease,
     asked (NativeTargetAuthorization lease) (Some authorization) ∈ calls) ->
  idle_calls calls ->
  books (do? (session, started) := start_granted_window_session world bound launched
           (Conn.agent_name s) runtime_session_id
           {| StartRequest.activate_before := activate_before;
              StartRequest.indicator_motion := indicator_motion |} native in
         finish_opening world services session_id bound capability runtime_session_id idle
           pre browser session started)
    (opens_or_not session_id grant activate_before indicator_motion idle s) calls s.
Proof.
  intros Hw Hcap Hidle Hbound Hcapability Hruntime Hpre Hbrowser Hnow Hnative [Hs Hb].
  books. eapply books_mono; [by apply start_granted_books|]. clear Hs Hb.
  intros [[started report]|e] c1 s1 H; [|destruct H as (-> & Hs & Hb); by apply opens_not].
  destruct H as (-> & Hs & Hb & Hcalls & Hstarted).
  eapply books_mono; [by apply finish_opening_books|].
  intros [[answer attachment]|e] c2 s2 (own & -> & Hs' & H).
  - destruct H as (Hb' & host & Hc & Hr & (now' & uuid' & Hnow' & Hfin) & Hentered & ->);
      subst capability runtime_session_id.
    split; [done|]. split; [done|]. exists bound, started, host.
    split; [balance|]. split; [by rewrite starts_app, Hs, Hs'|]. split; [done|].
    split; [eapply started_for_mono; [apply more_calls | exact Hstarted]|].
    split; [apply Hentered; by eapply finalized_browser|]. split; [done|]. split; [|done].
    pose proof (finalized_session_is_leased _ _ _ _ _ _ _ _ _ _ _ _ _ Hpre Hfin) as Hl.
    unfold lease_of_grant. destruct (HS.task_authorization host) as [lease|]; [|done].
    destruct Hl as (Hact & issued & Hi & Hl). split; [done|]. exists issued. split; [|done].
    apply elem_of_cons in Hi as [-> | ->%list_elem_of_singleton]; [|done].
    apply elem_of_app. left. by apply Hcalls.
  - destruct H as (-> & Hb' & Hstop). split; [done|]. split; [balance|].
    intros session. rewrite starts_app, Hs, Hs'. by intros ->%list_elem_of_singleton.
Qed.

Lemma open_session_books session_id grant activate_before indicator_motion idle s :
  books (open_session world services session_id grant activate_before indicator_motion idle)
    (opens_or_not session_id grant activate_before indicator_motion idle s) [] s.
Proof.
  assert (forall error calls, idle_calls calls -> opens_or_not session_id grant activate_before
    indicator_motion idle s (Err error) calls s) as Hrefused.
  { intros error calls []. by apply opens_not. }
  unfold open_session. repeat books; [by apply Hrefused|]. unfold Datatypes.id in *.
  destruct (validate_identity grant) as [|]; repeat books; [by apply Hrefused| |by apply Hrefused].
  match goal with |- context [match ?c with Ok _ => _ | Err _ => _ end] =>
    destruct c eqn:Hcapacity end; repeat books; [|by apply Hrefused].
  destruct (bound_grant _ grant) as [bound|] eqn:Hbound; repeat books; [|by apply Hrefused].
  apply bound_grant_spec in Hbound.
  apply (books_value _ (fun c own => idle_calls own /\ forall c',
    Grant.task_authorization_window_capability bound = Some c' -> c = c')).
  { destruct (Grant.task_authorization_window_capability bound); repeat books;
      (split; [done|]; eexists; split; [done|]; split; [done|]; by intros ? [=]). }
  intros capability own [Hown Hcapability]. unfold with_lease_clock. repeat books.
  destruct (preauthorize_task_session _ _ _ _ _ _ _ _) as [pre|] eqn:Hpre; repeat books;
    [|by apply Hrefused; repeat apply idle_app].
  destruct (task_browser_session pre) as [[browser|]|] eqn:Hbrowser; repeat books;
    [|by apply Hrefused; repeat apply idle_app].
  apply browser_spec in Hbrowser.
  apply (books_value _ (fun i own => idle_calls own
    /\ forall l, Conn.launches s !! session_id = Some l -> i = Launch.runtime_session_id l)).
  { destruct (Conn.launches s !! session_id); repeat books;
      (split; [done|]; eexists; split; [done|]; split; [done|]; intros l Hl; by simplify_eq). }
  intros runtime_session_id own' [Hown' Hruntime]. books.
  apply (books_value _ (fun native own => idle_calls own
    /\ forall authorization, native = Some authorization -> exists lease,
         asked (NativeTargetAuthorization lease) (Some authorization) ∈ own)).
  { destruct pre as [lease|]; [destruct (Services.task_authorization_host services)|];
      repeat books; (split; [done|]; eexists; split; [done|]; split; [done|]; try done).
    intros authorization ->. exists lease. among. }
  intros native own'' [Hown'' Hnative]. eapply start_and_finish_books; try done.
  - by apply is_some_false.
  - intros Hn. rewrite Hn in Hcapacity. destruct a0. by apply capacity_ok.
  - reflect_all. lia.
  - among.
  - intros authorization [lease Hl]%Hnative. exists lease. among.
  - by repeat apply idle_app.
Qed.

(** ** Launches keep them too *)

Abbreviation launch_balanced := (balance launch_weight).

Lemma launch_app_books session_id grant launch s :
  books (launch_app world session_id grant launch)
    (fun r calls s' => match r with
     | Err _ => s' = s /\ launch_balanced calls = 0
     | Ok _ => Conn.windows s !! session_id = None /\ Conn.launches s !! session_id = None
         /\ session_count s < MAX_SESSIONS_PER_CONNECTION
         /\ Grant.allow_app_launch grant = true /\ Grant.task_authorization_id grant = None
         /\ ((s' = s /\ launch_balanced calls = 0)
             \/ launch_balanced calls = 1 /\ exists launched,
                 Launch.task_grant_id launched = Grant.task_grant_id grant
                 /\ Launch.application_label launched = Grant.application_label grant
                 /\ s' = s <| Conn.launches := <[session_id := launched]> (Conn.launches s) |>)
     end) [] s.
Proof.
  unfold launch_app, core_answer. repeat books; [done|done|].
  unfold Datatypes.id in *. apply orb_false_iff in H0 as [Hw%is_some_false Hl%is_some_false].
  destruct (ensure_connection_session_capacity _) as [[]|] eqn:Hcap; repeat books; [|done].
  destruct (validate_identity grant) as [[]|]; repeat books; [|done].
  destruct (reject_task_authorization grant _) as [[]|] eqn:Hrej; repeat books;
    [done| |done].
  destruct a0 as [answer|]; repeat books; [|done].
  apply capacity_ok in Hcap. apply negb_false_iff in H0.
  assert (Grant.task_authorization_id grant = None) as Hid.
  { unfold reject_task_authorization in Hrej. destruct (_ == _); [done|].
    by destruct (Grant.task_authorization_id grant). }
  unfold conn_modify. destruct (as_u32 _); repeat books; (split_and!; try done).
  - right. split; [done|]. eexists. by split; [|split; [|reflexivity]].
  - by left.
Qed.

(** C8: opening a window session gives a running, leased session or leaves nothing behind.
    Whatever the driver, the embedding and the clocks answer, a refused or failed request
    leaves the connection as it was, and of the core sessions it started none runs: each
    was stopped again.  An accepted one leaves one more running session and exactly one
    new entry, under an identifier that was free.  The core session of the entry is the
    one the driver started for the application and window of the grant, under the runtime
    identifier of the entry, as its fence and recorder left it.  Each of its permissions
    is the one of the grant, its target is the window that core session was found to have,
    and nothing was observed in it yet.  It takes over the runtime session of an
    application launched for it, whose grant and process it must share.  If the grant
    claims a trusted authorization it holds a lease for this connection, session, grant,
    capability and target that agrees with the grant, and the window was not activated;
    without the claim it holds none.  A connection never exceeds its limit of sessions. *)
Theorem session_opens_or_leaves_nothing session_id grant activate_before indicator_motion
    idle h conn r h' conn' :
  open_session world services session_id grant activate_before indicator_motion idle (h, conn)
    = Some (r, (h', conn')) ->
  exists calls, h' = h ++ calls /\
  match r with
  | Err _ => conn' = conn /\ balance session_weight calls = 0
      /\ forall started, started ∈ starts calls -> is_stopped calls started
  | Ok _ => Conn.windows conn !! session_id = None
      /\ (session_count conn <= MAX_SESSIONS_PER_CONNECTION ->
           session_count conn' <= MAX_SESSIONS_PER_CONNECTION)
      /\ exists bound started host,
           balance session_weight calls = 1 /\ starts calls = [started]
           /\ bound_to (Conn.launches conn !! session_id) grant bound
           /\ started_for calls bound (Conn.agent_name conn) (HS.runtime_session_id host)
                activate_before indicator_motion started
           /\ entered calls services session_id bound idle started host
           /\ (forall launched, Conn.launches conn !! session_id = Some launched ->
                HS.runtime_session_id host = Launch.runtime_session_id launched)
           /\ lease_of_grant calls (Conn.connection_id conn) session_id bound activate_before
                host
           /\ conn' = with_session session_id host conn
  end.
Proof.
  intros H. rewrite <- (app_nil_r h) in H.
  apply open_session_books in H as (calls & -> & H). exists calls. split; [done|].
  destruct r as [[response attachment]|]; [|done].
  destruct H as (Hw & Hcap & bound & started & host & H).
  split; [done|]. split; [|by exists bound, started, host].
  intros Hle. destruct H as (_ & _ & _ & _ & _ & _ & _ & ->). by apply with_session_count.
Qed.
End Books.

(** ** A leased opening *)

#[local] Existing Instance sample_platform.
#[local] Instance sample_opening_digest :
  Digestible UnsignedAuth.UnsignedTaskAuthorizationRequest :=
  fun u => Ok (UnsignedAuth.request_id u).

#[local] Instance sample_opening_wire : WireFormat := {
  target_json t := Object [("pid", Number (PosInt (Target.pid t)));
                           ("window_id", Number (PosInt (Target.window_id t)))];
  observation_json _ := Null; input_state_json _ := Null;
  target_state_json _ := Null; events_page_json _ := Ok (Object []);
  health_json _ := Null; action_json action := Ok Null;
  browser_type_json _ := Null; confirmation_digest := sample_sha256;
}.

Definition sample_open_world : oracle open_call := fun A _ c =>
  match c in open_call A return A with
  | OwnedBrowserSession _ _ _ _ _ => Ok (sample_session, Object [])
  | SessionWithAgent _ _ _ _ => Ok sample_session
  | SetNativeTaskAuthorization _ session => (Ok tt, session)
  | SetRecordingAuthorization _ session => session
  | StartPixelsOnly session => (Ok (Object []), session)
  | StartWithRequest _ session => (Ok (Object []), session)
  | StartRecording _ session => (Ok Null, session)
  | SessionStatus _ => Object []
  | StopWindowSession session => (Ok {| StopResult.success := true; StopResult.active := false;
      StopResult.cleanup_pending := false; StopResult.cleanup_issues := Null;
      StopResult.marker := Null; StopResult.recording_video := None;
      StopResult.live_observation := None; StopResult.capture_preparation := None |}, session)
  | NativeTargetAuthorization _ => None
  | RecordingAuthorizationOf _ => None
  | LaunchAppForSession _ _ => Ok Null
  | EndLaunchSession _ => Ok Null
  | UpstreamCursorRendererEnabled => true
  | InputReadinessSample => (sample_readiness ComputerUseInputStatus.Ready, 5)
  | MonotonicNow => 5
  | UnixMillisNow => 1500
  | NewUuid => "u"
  end.

Definition sample_connection : Conn.ConnectionSessions := {|
  Conn.connection_id := "c"; Conn.agent_name := "agent"; Conn.windows := ∅;
  Conn.desktops := ∅; Conn.launches := ∅ |}.

Definition sample_opening_services : Services.HostSecurityServices := {|
  HostSecurityServices.extension_transport_only := false;
  HostSecurityServices.confirmation_host := None;
  HostSecurityServices.task_authorization_host := Some sample_authority;
  HostSecurityServices.has_vault := false |}.

Lemma session_opens_or_leaves_nothing_witness :
  exists host calls conn', Conn.windows conn' !! "s" = Some host
    /\ starts calls = [sample_session]
    /\ permitted_by sample_opening_services sample_leased_grant host
    /\ HS.session host = sample_session
    /\ lease_of_grant calls "c" "s" sample_leased_grant false host.
Proof.
  destruct (open_session sample_open_world sample_opening_services "s" sample_leased_grant
    false Null 60000 ([], sample_connection)) as [[[response|e] [h conn']]|] eqn:E;
    [|vm_compute in E; discriminate E ..].
  pose proof E as Hrun.
  apply session_opens_or_leaves_nothing in E
    as (calls & -> & _ & _ & bound & started & host & _ & Hs & Hb & _ & He & _ & Hl & ->).
  change (bound = sample_leased_grant) in Hb. subst bound.
  exists host, calls, (with_session "s" host sample_connection).
  split; [apply lookup_insert_eq|].
  assert (starts calls = [sample_session]) as Hsample.
  { vm_compute in Hrun. injection Hrun as _ <- _. reflexivity. }
  split; [exact Hsample|]. split; [apply He|]. split; [|exact Hl].
  rewrite Hsample in Hs. injection Hs as <-.
  destruct (runs_session _ _ _ _ _ _ _ He) as (fenced & Hf & ->). simpl in Hf.
  destruct (HS.task_authorization host); exact Hf.
Defined.
