(* ===== verification/Ordered.v ===== *)
(** * Ordered maps and sets

    A [BTreeMap<String, A>] is a finite map whose entries are visited in the order of
    their keys, and a [BTreeSet<String>] a finite set whose elements are; strings are
    ordered by their bytes.  [sort_by_key] is the stable sort of a vector. *)

From stdpp Require Import sorting.
From S2P Require Import Prelude.

Section Entries.
Context {A : Type}.

Definition key_le (a b : string * A) : Prop := String.le a.1 b.1.

#[export] Instance key_le_dec : RelDecision key_le.
Proof. intros a b. unfold key_le. apply _. Defined.
#[export] Instance key_le_trans : Transitive key_le.
Proof. intros a b c. unfold key_le. apply transitivity. Qed.
#[export] Instance key_le_total : Total key_le.
Proof. intros a b. unfold key_le. apply total, _. Qed.

(** [BTreeMap::iter], [keys] and [values]. *)
Definition entries (m : gmap string A) : list (string * A) := merge_sort key_le (map_to_list m).
Definition keys (m : gmap string A) : list string := (entries m).*1.
Definition values (m : gmap string A) : list A := (entries m).*2.

Lemma entries_permutation (m : gmap string A) : entries m ≡ₚ map_to_list m.
Proof. apply merge_sort_Permutation. Qed.

Lemma elem_of_entries (m : gmap string A) k a : (k, a) ∈ entries m <-> m !! k = Some a.
Proof. rewrite entries_permutation. apply elem_of_map_to_list. Qed.

Lemma elem_of_values (m : gmap string A) a : a ∈ values m <-> exists k, m !! k = Some a.
Proof.
  unfold values. rewrite list_elem_of_fmap. split.
  - intros ([k b] & -> & H%elem_of_entries). by exists k.
  - intros [k H%elem_of_entries]. by exists (k, a).
Qed.

Lemma elem_of_keys (m : gmap string A) k : k ∈ keys m <-> is_Some (m !! k).
Proof.
  unfold keys. rewrite list_elem_of_fmap. split.
  - intros ([k' b] & -> & H%elem_of_entries). by exists b.
  - intros [a H%elem_of_entries]. by exists (k, a).
Qed.

Lemma NoDup_keys (m : gmap string A) : NoDup (keys m).
Proof. unfold keys. rewrite entries_permutation. apply NoDup_fst_map_to_list. Qed.

Lemma length_entries (m : gmap string A) : length (entries m) = size m.
Proof. rewrite entries_permutation. apply length_map_to_list. Qed.
End Entries.

(** [BTreeSet::iter]. *)
Definition ordered (s : gset string) : list string := merge_sort String.le (elements s).

Lemma elem_of_ordered s x : x ∈ ordered s <-> x ∈ s.
Proof. unfold ordered. rewrite merge_sort_Permutation. apply elem_of_elements. Qed.
