(* ===== verification/ProfilePackages.v ===== *)
(** * Profile packages ([crates/dcc-cua-profiles/src/package.rs])

    The manifest of a package and the validation of its directory.  The file system is an
    argument; the JSON formats of the manifest and the profile are parameters. *)

From S2P Require Import Prelude RustStr Platform Ordered SemanticProfiles.
From S2P Require BrowserEvidence.

Abbreviation path_join := BrowserEvidence.path_join.

Definition MANIFEST_FILE : string := "profile-package.json".
Definition PACKAGE_KIND : string := "dcc-cua-profile-package".
Definition PACKAGE_SCHEMA_VERSION : Z := 2.
Definition MAX_PACKAGE_FILES : Z := 4096.
Definition MAX_PACKAGE_BYTES : Z := 64 * 1024 * 1024.

(** ** The file system *)

(** The parts of [std::fs::Metadata] that are observed. *)
Module FileMetadata.
Record FileMetadata : Type := {
  is_symlink : bool;
  is_file : bool;
  is_dir : bool;
  len : Z;
}.
End FileMetadata.

(** The display of a [std::io::Error], or an answer. *)
Abbreviation io A := (result string A).

(** [std::fs]: [symlink_metadata] does not follow a final symbolic link, [metadata] does;
    [read_dir] gives the names in a directory. *)
Module Files.
Record Files : Type := {
  canonicalize : string -> io string;
  symlink_metadata : string -> io FileMetadata.FileMetadata;
  metadata : string -> io FileMetadata.FileMetadata;
  read_dir : string -> io (list (io string));
  read : string -> io string;
}.
End Files.

(** ** Data *)

Inductive ProfilePackageArtifactType : Type :=
| SemanticProfileArtifact
| ContextIndex
| ContextDocumentArtifact
| AgentSkill
| Documentation
| Fixtures
| CompanionSource
| License.
#[export] Instance ProfilePackageArtifactType_eq_dec : EqDecision ProfilePackageArtifactType.
Proof. solve_decision. Defined.

Inductive ProfilePlatform : Type := Windows | Macos | Linux.
#[export] Instance ProfilePlatform_eq_dec : EqDecision ProfilePlatform.
Proof. solve_decision. Defined.

Module ProfilePackageArtifact.
Record ProfilePackageArtifact : Type := {
  artifact_type : ProfilePackageArtifactType;
  path : string;
}.
End ProfilePackageArtifact.
Module Artifact := ProfilePackageArtifact.

(** [requires] is [requires.dcc_cua]. *)
Module ProfilePackageManifest.
Record ProfilePackageManifest : Type := {
  schema_version : Z;
  kind : string;
  id : string;
  version : string;
  display_name : string;
  description : string;
  license : string;
  artifacts : list Artifact.ProfilePackageArtifact;
  requires : string;
  platforms : list ProfilePlatform;
}.
End ProfilePackageManifest.
Module Manifest := ProfilePackageManifest.

Module ValidatedProfilePackage.
Record ValidatedProfilePackage : Type := {
  manifest : Manifest.ProfilePackageManifest;
  profile : Profile.SemanticProfile;
  root : string;
  file_count : Z;
  total_bytes : Z;
}.
End ValidatedProfilePackage.
Module Package := ValidatedProfilePackage.

Module ProfilePackageError.
Inductive ProfilePackageError : Type :=
| Io (path source : string)
| Invalid (message : string)
| AlreadyInstalled (id : string)
| NotInstalled (id : string).

Definition to_string (self : ProfilePackageError) : string :=
  match self with
  | Io path source => "profile package I/O failed at " +:+ path +:+ ": " +:+ source
  | Invalid message => "invalid profile package: " +:+ message
  | AlreadyInstalled id =>
      "profile package " +:+ id +:+ " is already installed; replace must be explicitly enabled"
  | NotInstalled id => "profile package " +:+ id +:+ " is not installed"
  end.
End ProfilePackageError.
Module PackageError := ProfilePackageError.

Abbreviation pkresult A := (result PackageError.ProfilePackageError A).

Definition invalid {A} (message : string) : pkresult A := Err (PackageError.Invalid message).

(** [.map_err(|source| io_error(path, source))]. *)
Definition on_io {A} (path : string) (answer : io A) : pkresult A :=
  rmap_err (PackageError.Io path) answer.

(** [serde_json] on the two documents, [String::from_utf8], the display of a version, and
    the version and platform of this build. *)
Class PackageFormat `{SV : SemVer} : Type := {
  manifest_from_slice : string -> result string Manifest.ProfilePackageManifest;
  profile_from_str : string -> result string Profile.SemanticProfile;
  from_utf8 : string -> result string string;
  current_version : Version;
  version_to_string : Version -> string;
  current_platform : ProfilePlatform;
}.

(** ** Checks *)

Definition validate_package_id `{PT : ProfileText} (id : string) : pkresult unit :=
  if is_identifier id then Ok tt
  else invalid ("package id " +:+ debug id
         +:+ " must use 1-80 lowercase ASCII letters, numbers, '.', '_' or '-'").

(** The names of a normalized relative path. *)
Definition normal_name (component : Component) : option string :=
  match component with Normal name => Some name | _ => None end.

Definition validated_relative_path `{PT : ProfileText} (path : string)
    : pkresult (list string) :=
  if str_is_empty path || path_is_absolute path
     || existsb (fun component => is_none (normal_name component)) (components path)
  then invalid ("artifact path " +:+ debug path +:+ " must be a normalized relative path")
  else Ok (omap normal_name (components path)).

Definition is_semantic_profile (artifact : Artifact.ProfilePackageArtifact) : bool :=
  Artifact.artifact_type artifact == SemanticProfileArtifact.

Section Validation.
Context `{SV : SemVer} `{PT : ProfileText} `{PF : !PackageFormat}.
Context (files : Files.Files).

Definition validate_manifest (manifest : Manifest.ProfilePackageManifest) : pkresult unit :=
  if negb (Manifest.schema_version manifest =? PACKAGE_SCHEMA_VERSION)
  then invalid ("unsupported package schema_version "
         +:+ show (Manifest.schema_version manifest) +:+ "; expected "
         +:+ show PACKAGE_SCHEMA_VERSION)
  else if Manifest.kind manifest != PACKAGE_KIND
  then invalid ("kind must be " +:+ PACKAGE_KIND)
  else
  check? validate_package_id (Manifest.id manifest) in
  if str_is_empty (trim (Manifest.display_name manifest))
     || str_is_empty (trim (Manifest.description manifest))
     || str_is_empty (trim (Manifest.license manifest))
  then invalid "display_name, description, and license are required"
  else
  let? _ := ok_or (version_parse (Manifest.version manifest))
    (PackageError.Invalid "version must be valid SemVer") in
  if len (Manifest.artifacts manifest) =? 0 then invalid "artifacts cannot be empty"
  else
  let? minimum := ok_or (strip_prefix ">=" (Manifest.requires manifest))
    (PackageError.Invalid "requires.dcc_cua must use the >=major.minor.patch form") in
  let? required := ok_or (version_parse minimum)
    (PackageError.Invalid "requires.dcc_cua contains invalid SemVer") in
  if version_lt current_version required
  then invalid ("profile requires dcc-cua " +:+ Manifest.requires manifest
         +:+ ", but this runtime is " +:+ version_to_string current_version)
  else if negb (len (List.filter is_semantic_profile (Manifest.artifacts manifest)) =? 1)
  then invalid "artifacts must declare exactly one semantic_profile"
  else Ok tt.

Definition package_supports_current_platform (package : Package.ValidatedProfilePackage) : bool :=
  (len (Manifest.platforms (Package.manifest package)) =? 0)
  || (current_platform ∈? Manifest.platforms (Package.manifest package)).

Definition canonical_directory (path : string) : pkresult string :=
  let? root := on_io path (Files.canonicalize files path) in
  let? metadata := on_io root (Files.symlink_metadata files root) in
  if negb (FileMetadata.is_dir metadata) then invalid (root +:+ " is not a directory")
  else Ok root.

Definition ensure_regular_file (path : string) : pkresult unit :=
  let? metadata := on_io path (Files.symlink_metadata files path) in
  if FileMetadata.is_symlink metadata || negb (FileMetadata.is_file metadata)
  then invalid (path +:+ " must be a regular file")
  else Ok tt.

Definition read_bounded (path : string) (maximum : Z) : pkresult string :=
  check? ensure_regular_file path in
  let? metadata := on_io path (Files.metadata files path) in
  if maximum <? FileMetadata.len metadata
  then invalid (path +:+ " exceeds the " +:+ show maximum +:+ "-byte limit")
  else on_io path (Files.read files path).

(** A fold whose step may not end ([None]) or fail. *)
Fixpoint try_fold {A B E} (f : A -> B -> option (result E A)) (a : A) (l : list B)
    : option (result E A) :=
  match l with
  | [] => Some (Ok a)
  | b :: l =>
      match f a b with
      | Some (Ok a) => try_fold f a l
      | other => other
      end
  end.

(** The fuel bounds the depth of the tree; [None] is a deeper one. *)
Fixpoint inspect_tree (fuel : nat) (path : string) (counted : Z * Z)
    : option (pkresult (Z * Z)) :=
  match fuel with
  | O => None
  | S fuel =>
      match on_io path (Files.symlink_metadata files path) with
      | Err error => Some (Err error)
      | Ok metadata =>
          if FileMetadata.is_symlink metadata
          then Some (invalid
            ("symbolic links are not allowed in profile packages: " +:+ path))
          else if FileMetadata.is_file metadata then
            let '(file_count, total_bytes) := counted in
            let file_count := file_count + 1 in
            let total_bytes := saturating_add total_bytes (FileMetadata.len metadata) in
            if (MAX_PACKAGE_FILES <? file_count) || (MAX_PACKAGE_BYTES <? total_bytes)
            then Some (invalid ("package exceeds " +:+ show MAX_PACKAGE_FILES +:+ " files or "
                   +:+ show MAX_PACKAGE_BYTES +:+ " bytes"))
            else Some (Ok (file_count, total_bytes))
          else if negb (FileMetadata.is_dir metadata)
          then Some (invalid ("unsupported package entry " +:+ path))
          else
            match on_io path (Files.read_dir files path) with
            | Err error => Some (Err error)
            | Ok names => try_fold (fun counted entry =>
                match on_io path entry with
                | Err error => Some (Err error)
                | Ok name => inspect_tree fuel (path_join path name) counted
                end) counted names
            end
      end
  end.

(** One artifact: [declared] has the paths so far. *)
Definition inspect_artifact (fuel : nat) (root : string)
    (state : gset (list string) * (Z * Z)) (artifact : Artifact.ProfilePackageArtifact)
    : option (pkresult (gset (list string) * (Z * Z))) :=
  let '(declared, counted) := state in
  match validated_relative_path (Artifact.path artifact) with
  | Err error => Some (Err error)
  | Ok relative =>
      if bool_decide (relative ∈ declared)
      then Some (invalid ("artifacts contains duplicate path " +:+ Artifact.path artifact))
      else if relative == [MANIFEST_FILE]
      then Some (invalid
        (MANIFEST_FILE +:+ " is included automatically and must not be an artifact"))
      else
        match inspect_tree fuel (path_join root (Artifact.path artifact)) counted with
        | Some (Ok counted) => Some (Ok ({[relative]} ∪ declared, counted))
        | Some (Err error) => Some (Err error)
        | None => None
        end
  end.

(** The profile of the package, which agrees with its manifest. *)
Definition read_profile (root : string) (manifest : Manifest.ProfilePackageManifest)
    (entry : Artifact.ProfilePackageArtifact) : pkresult Profile.SemanticProfile :=
  let entry_path := path_join root (Artifact.path entry) in
  check? ensure_regular_file entry_path in
  let? bytes := read_bounded entry_path (1024 * 1024) in
  let? profile_json := rmap_err (fun error =>
    PackageError.Invalid ("profile.json: " +:+ error)) (from_utf8 bytes) in
  let? profile := rmap_err (fun error =>
    PackageError.Invalid ("profile.json: " +:+ profile_error_to_string error))
    (parse_profile (profile_from_str profile_json)) in
  if Profile.id profile != Manifest.id manifest
  then invalid ("manifest id " +:+ Manifest.id manifest +:+ " does not match profile id "
         +:+ Profile.id profile)
  else if Profile.display_name profile != Manifest.display_name manifest
  then invalid ("manifest display_name " +:+ debug (Manifest.display_name manifest)
         +:+ " does not match profile display_name " +:+ debug (Profile.display_name profile))
  else if Profile.profile_version profile != Manifest.version manifest
  then invalid ("manifest version " +:+ Manifest.version manifest
         +:+ " does not match profile_version " +:+ Profile.profile_version profile)
  else Ok profile.

(** The manifest with its size. *)
Definition read_manifest (root : string)
    : pkresult (Manifest.ProfilePackageManifest * Z) :=
  let manifest_path := path_join root MANIFEST_FILE in
  check? ensure_regular_file manifest_path in
  let? bytes := read_bounded manifest_path (64 * 1024) in
  let? manifest := rmap_err (fun error =>
    PackageError.Invalid (MANIFEST_FILE +:+ ": " +:+ error)) (manifest_from_slice bytes) in
  check? validate_manifest manifest in
  let? metadata := on_io manifest_path (Files.metadata files manifest_path) in
  Ok (manifest, FileMetadata.len metadata).

(** [None] is a tree that is deeper than the fuel, or the panic of an [expect] that cannot
    fail. *)
Definition validate_package (fuel : nat) (path : string)
    : option (pkresult Package.ValidatedProfilePackage) :=
  match canonical_directory path with
  | Err error => Some (Err error)
  | Ok root =>
  match read_manifest root with
  | Err error => Some (Err error)
  | Ok (manifest, bytes) =>
  match try_fold (inspect_artifact fuel root) (∅, (1, bytes)) (Manifest.artifacts manifest) with
  | None => None
  | Some (Err error) => Some (Err error)
  | Some (Ok (_, (file_count, total_bytes))) =>
  match List.find is_semantic_profile (Manifest.artifacts manifest) with
  | None => None
  | Some entry =>
      Some (let? profile := read_profile root manifest entry in
            Ok {| Package.manifest := manifest; Package.profile := profile;
                  Package.root := root; Package.file_count := file_count;
                  Package.total_bytes := total_bytes |})
  end end end end.
End Validation.

(** ** What an accepted package is *)

Section Accepted.
Context `{SV : SemVer} `{PT : ProfileText} `{PF : !PackageFormat}.
Context (files : Files.Files).

(** A name in a directory that is not a symbolic link. *)
Definition entry_of (directory path : string) : Prop :=
  exists metadata names name, Files.symlink_metadata files directory = Ok metadata
    /\ FileMetadata.is_symlink metadata = false /\ FileMetadata.is_dir metadata = true
    /\ FileMetadata.is_file metadata = false
    /\ Files.read_dir files directory = Ok names /\ Ok name ∈ names
    /\ path = path_join directory name.

(** The tree below a path. *)
Definition below : string -> string -> Prop := rtc entry_of.

(** A tree of a bounded depth. *)
Inductive shallow : nat -> string -> Prop :=
| Shallow depth path :
    (forall path', entry_of path path' -> shallow depth path') -> shallow (S depth) path.

(** An entry that a package may have. *)
Definition ordinary (path : string) : Prop :=
  exists metadata, Files.symlink_metadata files path = Ok metadata
    /\ FileMetadata.is_symlink metadata = false
    /\ (FileMetadata.is_file metadata = true /\ FileMetadata.len metadata <= MAX_PACKAGE_BYTES
        \/ FileMetadata.is_dir metadata = true).

(** The regular files of a tree with their sizes; a file without a link stands for itself. *)
Inductive tree_files : string -> list (string * Z) -> Prop :=
| TreeFile path metadata :
    Files.symlink_metadata files path = Ok metadata ->
    FileMetadata.is_symlink metadata = false -> FileMetadata.is_file metadata = true ->
    tree_files path [(path, FileMetadata.len metadata)]
| TreeDirectory path metadata entries parts :
    Files.symlink_metadata files path = Ok metadata ->
    FileMetadata.is_symlink metadata = false -> FileMetadata.is_file metadata = false ->
    FileMetadata.is_dir metadata = true -> Files.read_dir files path = Ok entries ->
    Forall2 (fun entry part =>
      exists name, entry = Ok name /\ tree_files (path_join path name) part) entries parts ->
    tree_files path (concat parts).

Definition bytes_of (tree : list (string * Z)) : Z := fold_right Z.add 0 (map snd tree).

(** The counters within their limits. *)
Definition within_limits (counted : Z * Z) : Prop :=
  counted.1 <= MAX_PACKAGE_FILES /\ 0 <= counted.2 <= MAX_PACKAGE_BYTES.

(** Sizes are unsigned. *)
Definition sized : Prop := forall path metadata,
  Files.symlink_metadata files path = Ok metadata \/ Files.metadata files path = Ok metadata ->
  0 <= FileMetadata.len metadata.

Lemma try_fold_ok {A B E} (f : A -> B -> option (result E A)) (I : A -> Prop)
    (P : B -> Prop) a l a' :
  (forall a b a', b ∈ l -> I a -> f a b = Some (Ok a') -> I a' /\ P b) ->
  I a -> try_fold f a l = Some (Ok a') -> I a' /\ Forall P l.
Proof.
  revert a. induction l as [|b l IH]; intros a Hf Ha; cbn [try_fold].
  { intros [= <-]. by split. }
  destruct (f a b) as [[a1|e]|] eqn:E1; [|done..]. intros H.
  destruct (Hf a b a1 ltac:(by left) Ha E1) as [Ha1 Hb].
  destruct (IH a1) as [Ha' Hl]; [|done|done|by split; [|constructor]].
  intros ? ? ? ?. apply Hf. by right.
Qed.

Lemma try_fold_ends {A B E} (f : A -> B -> option (result E A)) a l :
  (forall a b, b ∈ l -> is_Some (f a b)) -> is_Some (try_fold f a l).
Proof.
  revert a. induction l as [|b l IH]; intros a Hf; cbn [try_fold]; [by eexists|].
  destruct (Hf a b ltac:(by left)) as [[a1|e] E1]; rewrite E1; [|by eexists].
  apply IH. intros. apply Hf. by right.
Qed.

Lemma on_io_ok {A} path (answer : io A) a : on_io path answer = Ok a <-> answer = Ok a.
Proof. apply rmap_err_ok. Qed.

(** The counters over a tree more. *)
Definition counting (counted : Z * Z) (tree : list (string * Z)) : Z * Z :=
  (counted.1 + len tree, counted.2 + bytes_of tree).

Lemma bytes_of_app t u : bytes_of (t ++ u) = bytes_of t + bytes_of u.
Proof. unfold bytes_of. induction t as [|[? b] t IH]; cbn in *; [done|]. rewrite IH. lia. Qed.

Lemma counting_app counted t u : counting counted (t ++ u) = counting (counting counted t) u.
Proof.
  unfold counting, len. cbn [fst snd]. rewrite length_app, bytes_of_app. f_equal; lia.
Qed.

Lemma counting_nil counted : counting counted [] = counted.
Proof. destruct counted. unfold counting, len, bytes_of. cbn. f_equal; lia. Qed.

(** The trees that a fold of the inspection counts. *)
Lemma try_fold_counts {B E} (f : Z * Z -> B -> option (result E (Z * Z)))
    (P : B -> list (string * Z) -> Prop) counted l counted' :
  (forall c b c', b ∈ l -> within_limits c -> f c b = Some (Ok c') ->
     within_limits c' /\ exists tree, P b tree /\ c' = counting c tree) ->
  within_limits counted -> try_fold f counted l = Some (Ok counted') ->
  within_limits counted' /\ exists trees, Forall2 P l trees
    /\ counted' = counting counted (concat trees).
Proof.
  revert counted. induction l as [|b l IH]; intros c Hf Hc; cbn [try_fold].
  { intros [= <-]. split; [done|]. exists []. by rewrite counting_nil. }
  destruct (f c b) as [[c1|e]|] eqn:E1; [|done..]. intros H.
  destruct (Hf c b c1 ltac:(by left) Hc E1) as (Hc1 & tree & Hb & ->).
  destruct (IH _ ltac:(intros ? ? ? ?; apply Hf; by right) Hc1 H) as (Hc' & trees & Hl & ->).
  split; [done|]. exists (tree :: trees). split; [by constructor|].
  cbn [concat]. by rewrite counting_app.
Qed.

(** What the inspection of a path finds: a tree within the limits, without links. *)
Definition inspected (path : string) (tree : list (string * Z)) : Prop :=
  tree_files path tree /\ forall path', below path path' -> ordinary path'.

Lemma inspect_tree_ok fuel path counted counted' :
  sized -> within_limits counted ->
  inspect_tree files fuel path counted = Some (Ok counted') ->
  within_limits counted' /\ exists tree, inspected path tree /\ counted' = counting counted tree.
Proof.
  intros Hsized. revert path counted counted'.
  induction fuel as [|fuel IH]; intros path counted counted' Hl; cbn [inspect_tree]; [done|].
  destruct (on_io path (Files.symlink_metadata files path)) as [metadata|] eqn:Hm; [|done].
  apply on_io_ok in Hm. pose proof (Hsized path metadata (or_introl Hm)) as Hlen.
  destruct (FileMetadata.is_symlink metadata) eqn:Hlink; [done|].
  destruct (FileMetadata.is_file metadata) eqn:Hfile.
  - destruct counted as [count bytes]. destruct (_ || _ : bool) eqn:Hb; [done|].
    intros [= <-]. unfold within_limits in *. simpl in *. unfold saturating_add in *.
    reflect_all. assert (FileMetadata.len metadata <= MAX_PACKAGE_BYTES)
      by (unfold U64_MAX, MAX_PACKAGE_BYTES in *; lia).
    split; [unfold U64_MAX in *; lia|]. exists [(path, FileMetadata.len metadata)]. split.
    + split; [by constructor|].
      intros path' [->|(p & (m & names & name & Hm' & _ & _ & Hf & _) & _)]%rtc_inv;
        [exists metadata; auto | congruence].
    + unfold counting, bytes_of, len. cbn. f_equal.
      unfold U64_MAX, MAX_PACKAGE_BYTES in *. lia.
  - destruct (negb (FileMetadata.is_dir metadata)) eqn:Hdir; [done|].
    apply negb_false_iff in Hdir.
    destruct (on_io path (Files.read_dir files path)) as [names|] eqn:Hn; [|done].
    apply on_io_ok in Hn. intros H.
    apply (try_fold_counts _ (fun entry part => exists name, entry = Ok name
      /\ inspected (path_join path name) part)) in H as (Hl' & parts & Hall & ->); [| |done].
    + split; [done|]. exists (concat parts). split; [|done]. split.
      * eapply TreeDirectory; try done. eapply Forall2_impl; [exact Hall|].
        intros entry part (name & -> & Ht & _). by exists name.
      * intros path' [->|(p & (m & ns & name & Hm' & _ & _ & _ & Hns & Hin & ->)
          & Hp)]%rtc_inv; [exists metadata; auto|].
        rewrite Hn in Hns. injection Hns as <-.
        destruct (proj1 (list_elem_of_lookup _ _) Hin) as [k Hk].
        destruct (Forall2_lookup_l _ _ _ _ _ Hall Hk) as (part & _ & name' & [= <-] & _ & Ho).
        by apply Ho.
    + intros c entry c' _ Hc He. destruct entry as [name|]; [|done]. simpl in He.
      apply IH in He as (? & tree & ? & ->); [|done]. split; [done|]. exists tree.
      split; [by exists name | done].
Qed.

(** A tree has every regular file that is reached from its path. *)
Lemma tree_files_all path tree path' metadata :
  tree_files path tree -> below path path' ->
  Files.symlink_metadata files path' = Ok metadata -> FileMetadata.is_symlink metadata = false ->
  FileMetadata.is_file metadata = true -> (path', FileMetadata.len metadata) ∈ tree.
Proof.
  intros Ht Hb Hm Hl Hf. revert tree Ht.
  induction Hb as [path|path p path' (m & names & name & Hm' & _ & _ & Hnf & Hr & Hin & ->) _ IH];
    intros tree Ht; inversion Ht as [? m1 Hm1 _ Hf1|? m1 entries parts Hm1 _ Hf1 _ Hr1 Hall];
    subst; try congruence.
  - assert (m1 = metadata) as -> by congruence. by left.
  - rewrite Hr in Hr1. injection Hr1 as <-.
    destruct (proj1 (list_elem_of_lookup _ _) Hin) as [k Hk].
    destruct (Forall2_lookup_l _ _ _ _ _ Hall Hk) as (part & Hp & name' & [= <-] & Htp).
    apply list_elem_of_In, in_concat. exists part.
    split; [|by apply list_elem_of_In, IH].
    apply list_elem_of_In. by eapply list_elem_of_lookup_2.
Qed.

Lemma inspect_tree_ends fuel path counted :
  shallow fuel path -> is_Some (inspect_tree files fuel path counted).
Proof.
  revert path counted. induction fuel as [|fuel IH]; intros path counted Hs; [inversion Hs|].
  inversion Hs as [? ? Hall]; subst. cbn [inspect_tree].
  destruct (on_io path (Files.symlink_metadata files path)) as [metadata|] eqn:Hm; [|by eexists].
  apply on_io_ok in Hm.
  destruct (FileMetadata.is_symlink metadata) eqn:Hlink; [by eexists|].
  destruct (FileMetadata.is_file metadata) eqn:Hfile.
  { destruct counted. destruct (_ || _ : bool); by eexists. }
  destruct (FileMetadata.is_dir metadata) eqn:Hdir; [|by eexists]. simpl.
  destruct (on_io path (Files.read_dir files path)) as [names|] eqn:Hn; [|by eexists].
  apply on_io_ok in Hn. apply try_fold_ends. intros c [name|e] Hin; [|by eexists].
  apply IH, Hall. by exists metadata, names, name.
Qed.

(** *** Artifacts *)

Record accepted_artifact (root : string) (artifact : Artifact.ProfilePackageArtifact) : Prop := {
  artifact_relative : exists names, names <> [MANIFEST_FILE]
    /\ path_is_absolute (Artifact.path artifact) = false
    /\ components (Artifact.path artifact) = map Normal names;
  artifact_ordinary : forall path, below (path_join root (Artifact.path artifact)) path ->
    ordinary path;
}.

(** The files of every artifact. *)
Definition artifact_trees (root : string) (artifacts : list Artifact.ProfilePackageArtifact)
    (trees : list (list (string * Z))) : Prop :=
  Forall2 (fun artifact => tree_files (path_join root (Artifact.path artifact))) artifacts trees.

(** Every regular file that an artifact reaches is in its tree. *)
Lemma artifact_trees_all root artifacts trees artifact path metadata :
  artifact_trees root artifacts trees -> accepted_artifact root artifact ->
  artifact ∈ artifacts -> below (path_join root (Artifact.path artifact)) path ->
  Files.symlink_metadata files path = Ok metadata -> FileMetadata.is_file metadata = true ->
  (path, FileMetadata.len metadata) ∈ concat trees.
Proof.
  intros Htrees [_ Hord] Hin Hb Hm Hf. destruct (Hord path Hb) as (m & Hm' & Hl & _).
  rewrite Hm in Hm'. injection Hm' as <-.
  apply list_elem_of_lookup in Hin as [k Hk].
  destruct (Forall2_lookup_l _ _ _ _ _ Htrees Hk) as (part & Hp & Ht).
  apply list_elem_of_In, in_concat. exists part.
  split; apply list_elem_of_In; [by eapply list_elem_of_lookup_2 | by eapply tree_files_all].
Qed.

Lemma map_normal_inj names names' : map Normal names = map Normal names' -> names = names'.
Proof.
  revert names'. induction names as [|n names IH]; intros [|n' names']; try done.
  intros [= -> H]. by rewrite (IH _ H).
Qed.

Lemma relative_ok path names :
  validated_relative_path path = Ok names ->
  path_is_absolute path = false /\ components path = map Normal names.
Proof.
  unfold validated_relative_path. destruct (_ || _ : bool) eqn:H; [done|]. intros [= <-].
  apply orb_false_iff in H as [[_ Ha]%orb_false_iff Hn]. split; [done|].
  induction (components path) as [|c l IH]; [done|]. cbn [existsb] in Hn.
  apply orb_false_iff in Hn as [Hc Hl]. destruct c; try done. cbn. by rewrite <- IH.
Qed.

Lemma artifacts_ok fuel root declared counted artifacts declared' counted' :
  sized -> within_limits counted ->
  try_fold (inspect_artifact files fuel root) (declared, counted) artifacts
    = Some (Ok (declared', counted')) ->
  within_limits counted' /\ (exists trees, artifact_trees root artifacts trees
    /\ counted' = counting counted (concat trees))
  /\ Forall (accepted_artifact root) artifacts
  /\ NoDup (map (fun a => components (Artifact.path a)) artifacts)
  /\ forall a names, a ∈ artifacts -> components (Artifact.path a) = map Normal names ->
       names ∉ declared.
Proof.
  intros Hsized. revert declared counted.
  induction artifacts as [|a artifacts IH]; intros declared counted Hl; cbn [try_fold map].
  { intros [= <- <-]. split_and!; [done | | done | constructor | set_solver].
    exists []. split; [constructor | by rewrite counting_nil]. }
  unfold inspect_artifact at 1.
  destruct (validated_relative_path _) as [names|] eqn:Hrel; [|done].
  apply relative_ok in Hrel as [Habs Hrel].
  case_bool_decide as Hdup; [done|]. case_bool_decide as Hman; [done|].
  destruct (inspect_tree files fuel _ counted) as [[c1|]|] eqn:Ht; [|done..].
  apply inspect_tree_ok in Ht as (Hl1 & tree & [Htree Hbelow] & ->); [|done..].
  intros H. apply IH in H as (Hl' & (trees & Htrees & ->) & Hall & Hnd & Hdecl); [|done].
  split; [done|]. split.
  { exists (tree :: trees). split; [by constructor|]. cbn [concat]. by rewrite counting_app. }
  assert (forall b names', b ∈ artifacts -> components (Artifact.path b) = map Normal names' ->
    names' <> names) as Hne by (intros b names' Hb Hn ->; specialize (Hdecl b names Hb Hn); set_solver).
  split_and!.
  - constructor; [|done]. split; [by exists names | done].
  - constructor; [|done]. intros (b & Hb & Hin)%list_elem_of_fmap.
    apply (Hne b names Hin); [|done]. by rewrite <- Hb.
  - intros b names' [->|Hb]%elem_of_cons Hn; [|specialize (Hdecl b names' Hb Hn); set_solver].
    rewrite Hrel in Hn. apply map_normal_inj in Hn. by subst.
Qed.

(** *** Packages *)

Record accepted_manifest (manifest : Manifest.ProfilePackageManifest) : Prop := {
  manifest_schema : Manifest.schema_version manifest = 2
    /\ Manifest.kind manifest = PACKAGE_KIND;
  manifest_id : is_identifier (Manifest.id manifest) = true;
  manifest_named : nonblank (Manifest.display_name manifest)
    /\ nonblank (Manifest.description manifest) /\ nonblank (Manifest.license manifest);
  manifest_version : is_Some (version_parse (Manifest.version manifest));
  (** This build is not older than the package asks for. *)
  manifest_requires : exists minimum required,
    Manifest.requires manifest = ">=" +:+ minimum
    /\ version_parse minimum = Some required /\ version_lt current_version required = false;
  (** The only profile among the artifacts. *)
  manifest_profile : exists artifact,
    List.filter is_semantic_profile (Manifest.artifacts manifest) = [artifact];
}.

Record accepted_package (path : string) (p : Package.ValidatedProfilePackage) : Prop := {
  package_root : Files.canonicalize files path = Ok (Package.root p)
    /\ exists metadata, Files.symlink_metadata files (Package.root p) = Ok metadata
         /\ FileMetadata.is_dir metadata = true;
  package_manifest : accepted_manifest (Package.manifest p);
  (** The manifest and every file of the artifacts are counted, and within the limits. *)
  package_limits : exists manifest trees,
    Files.metadata files (path_join (Package.root p) MANIFEST_FILE) = Ok manifest
    /\ artifact_trees (Package.root p) (Manifest.artifacts (Package.manifest p)) trees
    /\ Package.file_count p = 1 + len (concat trees)
    /\ Package.total_bytes p = FileMetadata.len manifest + bytes_of (concat trees)
    /\ Package.file_count p <= 4096 /\ Package.total_bytes p <= 64 * 1024 * 1024
    /\ forall artifact path metadata, artifact ∈ Manifest.artifacts (Package.manifest p) ->
         below (path_join (Package.root p) (Artifact.path artifact)) path ->
         Files.symlink_metadata files path = Ok metadata ->
         FileMetadata.is_file metadata = true ->
         (path, FileMetadata.len metadata) ∈ concat trees;
  package_artifacts : Forall (accepted_artifact (Package.root p))
    (Manifest.artifacts (Package.manifest p));
  package_distinct : NoDup (map (fun a => components (Artifact.path a))
    (Manifest.artifacts (Package.manifest p)));
  package_profile : valid_profile (Package.profile p);
  package_agrees : Profile.id (Package.profile p) = Manifest.id (Package.manifest p)
    /\ Profile.display_name (Package.profile p) = Manifest.display_name (Package.manifest p)
    /\ Profile.profile_version (Package.profile p) = Manifest.version (Package.manifest p);
}.

Lemma filter_len_one {A} (l : list A) : (len l =? 1) = true <-> exists a, l = [a].
Proof.
  unfold len. rewrite Z.eqb_eq. destruct l as [|a [|b l]]; simpl; split; try naive_solver lia.
Qed.

Lemma manifest_ok manifest :
  validate_manifest manifest = Ok tt -> accepted_manifest manifest.
Proof.
  unfold validate_manifest. intros H. apply guard_ok in H as [Hs H]. apply guard_ok in H as [Hk H].
  apply rbind_ok in H as ([] & Hid & H). apply guard_ok in H as [Hn H].
  apply rbind_ok in H as (v & Hv%ok_or_ok & H). apply guard_ok in H as [_ H].
  apply rbind_ok in H as (m & Hm%ok_or_ok & H). apply rbind_ok in H as (r & Hr%ok_or_ok & H).
  apply guard_ok in H as [Hlt H]. apply guard_ok in H as [Hone _].
  unfold validate_package_id in Hid. apply test_ok in Hid as [Hid _].
  apply strip_prefix_some in Hm. apply negb_false_iff, filter_len_one in Hone.
  reflect_all.
  split; [by split | done | by split_and! | by eexists | by exists m, r | by eexists].
Qed.

Lemma read_manifest_ok root manifest bytes :
  sized -> read_manifest files root = Ok (manifest, bytes) ->
  accepted_manifest manifest /\ within_limits (1, bytes)
  /\ exists metadata, Files.metadata files (path_join root MANIFEST_FILE) = Ok metadata
       /\ bytes = FileMetadata.len metadata.
Proof.
  intros Hsized. unfold read_manifest. intros H.
  apply rbind_ok in H as ([] & _ & H). apply rbind_ok in H as (content & Hb & H).
  apply rbind_ok in H as (m & _ & H). apply rbind_ok in H as ([] & Hv%manifest_ok & H).
  apply rbind_ok in H as (metadata & Hm%on_io_ok & [= <- <-]). split; [done|].
  unfold read_bounded in Hb. apply rbind_ok in Hb as ([] & _ & Hb).
  apply rbind_ok in Hb as (metadata' & Hm'%on_io_ok & Hb). apply guard_ok in Hb as [Hb _].
  rewrite Hm in Hm'. injection Hm' as <-. pose proof (Hsized _ _ (or_intror Hm)).
  split; [|by exists metadata].
  unfold within_limits, MAX_PACKAGE_FILES, MAX_PACKAGE_BYTES. simpl. lia.
Qed.

Lemma read_profile_ok root manifest entry profile :
  read_profile files root manifest entry = Ok profile ->
  valid_profile profile /\ Profile.id profile = Manifest.id manifest
  /\ Profile.display_name profile = Manifest.display_name manifest
  /\ Profile.profile_version profile = Manifest.version manifest.
Proof.
  unfold read_profile. intros H. apply rbind_ok in H as ([] & _ & H).
  apply rbind_ok in H as (bytes & _ & H). apply rbind_ok in H as (json & _ & H).
  apply rbind_ok in H as (p & Hp%rmap_err_ok & H).
  apply guard_ok in H as [Hid H]. apply guard_ok in H as [Hd H]. apply guard_ok in H as [Hv H].
  injection H as <-. reflect_all. split_and!; try done.
  unfold parse_profile in Hp. apply rbind_ok in Hp as (q & _ & Hp).
  apply rbind_ok in Hp as ([] & Hp%validate_ok & [= <-]). done.
Qed.

Lemma validate_package_ok fuel path p :
  sized -> validate_package files fuel path = Some (Ok p) -> accepted_package path p.
Proof.
  intros Hsized. unfold validate_package.
  destruct (canonical_directory files path) as [root|] eqn:Hroot; [|done].
  destruct (read_manifest files root) as [[manifest bytes]|] eqn:Hman; [|done].
  apply read_manifest_ok in Hman as (Hman & Hl & m & Hm & ->); [|done].
  destruct (try_fold _ _ _) as [[[declared counted]|]|] eqn:Hf; [|done..].
  destruct counted as [count total].
  apply artifacts_ok in Hf as (Hl' & (trees & Htrees & [= Hcount Htotal]) & Hall & Hnd & _);
    [|done..].
  destruct (List.find _ _) as [entry|]; [|done]. intros [= H].
  apply rbind_ok in H as (profile & Hp%read_profile_ok & [= <-]).
  unfold canonical_directory in Hroot. apply rbind_ok in Hroot as (r & Hr%on_io_ok & H).
  apply rbind_ok in H as (metadata & Hmd%on_io_ok & H). apply guard_ok in H as [Hd [= <-]].
  split; simpl; try done; [| |by destruct Hp..].
  - split; [done|]. exists metadata. by apply negb_false_iff in Hd.
  - exists m, trees. destruct Hl' as [? []]. split_and!; [done..|].
    intros artifact path' metadata' Hin. rewrite Forall_forall in Hall.
    by eapply artifact_trees_all, Hin; [|apply Hall].
Qed.

(** C24: an accepted package is bounded and has no symbolic links in the trees of its
    artifacts.  The validation ends if the directory trees are no deeper than the fuel.  A
    package that it accepts has a manifest of the supported kind, for this build, with
    exactly one semantic profile; its artifacts are distinct relative paths below its
    canonical directory, none of them the manifest, and every path that the inspection
    reaches from them is a regular file or a directory and not a link; the manifest and
    the regular files of those trees are at most 4096 files with at most 64 MiB together,
    and the counts of the package are their number and their size; and its profile is
    valid and agrees with the manifest on identifier, name and version. *)
Theorem accepted_packages_are_bounded fuel path :
  sized ->
  (forall root, canonical_directory files path = Ok root ->
     forall artifact, shallow fuel (path_join root (Artifact.path artifact))) ->
  exists answer, validate_package files fuel path = Some answer
    /\ forall p, answer = Ok p -> accepted_package path p.
Proof.
  intros Hsized Hshallow.
  assert (is_Some (validate_package files fuel path)) as [answer Ha].
  { unfold validate_package. destruct (canonical_directory files path) as [root|] eqn:Hroot;
      [|by eexists].
    destruct (read_manifest files root) as [[manifest bytes]|] eqn:Hman; [|by eexists].
    destruct (try_fold_ends (inspect_artifact files fuel root) (∅, (1, bytes))
      (Manifest.artifacts manifest)) as [[[d [c b]]|e] Hf].
    { intros [d c] a _. unfold inspect_artifact.
      destruct (validated_relative_path _); [|by eexists]. repeat case_bool_decide; try by eexists.
      destruct (inspect_tree_ends fuel _ c (Hshallow root eq_refl a)) as [[r|e] Hi];
        rewrite Hi; by eexists. }
    - rewrite Hf. apply read_manifest_ok in Hman as ([_ _ _ _ _ [a Hone]] & _); [|done].
      destruct (List.find _ _) eqn:Hfind; [by eexists|].
      assert (a ∈ List.filter is_semantic_profile (Manifest.artifacts manifest)) as Hin
        by (rewrite Hone; by left).
      apply list_elem_of_In, filter_In in Hin as [Hin Hs].
      by rewrite (find_none _ _ Hfind a Hin) in Hs.
    - rewrite Hf. by eexists. }
  exists answer. split; [done|]. intros p ->. by eapply validate_package_ok.
Qed.
End Accepted.

(** ** A sample package *)

#[local] Existing Instances sample_semver sample_text.

Definition sample_manifest (document : string) : Manifest.ProfilePackageManifest := {|
  Manifest.schema_version := 2; Manifest.kind := PACKAGE_KIND; Manifest.id := "maya";
  Manifest.version := "1.0.0"; Manifest.display_name := "Maya";
  Manifest.description := "Maya"; Manifest.license := "MIT";
  Manifest.artifacts :=
    [{| Artifact.artifact_type := SemanticProfileArtifact; Artifact.path := "profile.json" |};
     {| Artifact.artifact_type := Documentation; Artifact.path := document |}];
  Manifest.requires := ">=1"; Manifest.platforms := [] |}.

#[local] Instance sample_format : PackageFormat := {
  manifest_from_slice content := Ok (sample_manifest content);
  profile_from_str _ := Ok sample_base;
  from_utf8 bytes := Ok bytes;
  current_version := "1";
  version_to_string v := v;
  current_platform := Linux;
}.

Definition sample_file (length : Z) : FileMetadata.FileMetadata := {|
  FileMetadata.is_symlink := false; FileMetadata.is_file := true;
  FileMetadata.is_dir := false; FileMetadata.len := length |}.
Definition sample_directory : FileMetadata.FileMetadata := {|
  FileMetadata.is_symlink := false; FileMetadata.is_file := false;
  FileMetadata.is_dir := true; FileMetadata.len := 0 |}.
Definition sample_link : FileMetadata.FileMetadata := {|
  FileMetadata.is_symlink := true; FileMetadata.is_file := false;
  FileMetadata.is_dir := false; FileMetadata.len := 0 |}.

(** A package whose directory [docs] is one, or a link to one elsewhere; [document] is the
    artifact that the manifest names. *)
Definition sample_files (linked : bool) (document : string) : Files.Files :=
  let lstat := fun path : string =>
    if path == "/pkg" then Ok sample_directory
    else if path == "/pkg/docs" then Ok (if linked then sample_link else sample_directory)
    else if path ∈? ["/pkg/profile-package.json"; "/pkg/profile.json"; "/pkg/docs/readme.md"]
    then Ok (sample_file 10)
    else Err "not found" in
  {| Files.canonicalize path := Ok path;
     Files.symlink_metadata := lstat;
     Files.metadata := lstat;
     Files.read_dir path :=
       if path == "/pkg/docs" then Ok [Ok "readme.md"] else Err "not a directory";
     Files.read _ := Ok document |}.

Lemma sample_files_shallow linked document path :
  shallow (sample_files linked document) 2 path.
Proof.
  assert (forall p, p <> "/pkg/docs" -> forall q, ~ entry_of (sample_files linked document) p q)
    as Hno.
  { intros p Hp q (m & names & name & _ & _ & _ & _ & Hr & _). simpl in Hr.
    by rewrite bool_decide_eq_false_2 in Hr. }
  constructor. intros q Hq. constructor. intros r Hr.
  destruct (decide (path = "/pkg/docs")) as [->|Hp]; [|by destruct (Hno path Hp q)].
  destruct Hq as (m & names & name & _ & _ & _ & _ & Hd & Hin & ->). injection Hd as <-.
  apply list_elem_of_singleton in Hin. injection Hin as ->. by apply Hno in Hr.
Qed.

Lemma sample_files_sized linked document : sized (sample_files linked document).
Proof.
  intros path m. simpl. repeat case_bool_decide; destruct linked; intros [[= <-]|[= <-]];
    simpl; lia.
Qed.

Lemma accepted_packages_are_bounded_witness :
  exists p, validate_package (sample_files false "docs") 2 "/pkg" = Some (Ok p)
    /\ Package.file_count p = 3 /\ accepted_package (sample_files false "docs") "/pkg" p.
Proof.
  destruct (accepted_packages_are_bounded (sample_files false "docs") 2 "/pkg"
    (sample_files_sized _ _) (fun root _ artifact => sample_files_shallow _ _ _))
    as ([p|e] & Ha & H); [|vm_compute in Ha; discriminate Ha].
  exists p. split; [exact Ha|]. split; [vm_compute in Ha; by injection Ha as <-|].
  by apply H.
Defined.

(** A link above an artifact goes unnoticed: only the named path and what is below it are
    inspected, so a package may take its files from anywhere. *)
Lemma linked_directory_is_accepted :
  let files := sample_files true "docs/readme.md" in
  Files.symlink_metadata files "/pkg/docs" = Ok sample_link
  /\ exists p, validate_package files 2 "/pkg" = Some (Ok p)
       /\ map Artifact.path (Manifest.artifacts (Package.manifest p))
          = ["profile.json"; "docs/readme.md"].
Proof. split; [reflexivity|]. eexists. split; vm_compute; reflexivity. Qed.
