(* ===== verification/ProfileStore.v ===== *)
(** * The profile store and its catalog
    ([crates/dcc-cua-profiles/src/package.rs], [catalog.rs])

    The packages of a directory become the entries of the store: the ones whose parents
    and fallbacks are there are ready.  The catalog is the built-in profiles with the ready
    ones over them.  The built-in profiles are an argument. *)

From stdpp Require Import sorting.
From S2P Require Import Prelude Records RustStr Platform Ordered SemanticProfiles ProfilePackages.

(** ** Data *)

Inductive ProfileSource : Type := Builtin | User.
#[export] Instance ProfileSource_eq_dec : EqDecision ProfileSource.
Proof. solve_decision. Defined.

Module CatalogProfile.
Record CatalogProfile : Type := { source : ProfileSource; profile : Profile.SemanticProfile }.
End CatalogProfile.

(** The profiles of a catalog in the order of their ids. *)
Definition ProfileCatalog : Type := list CatalogProfile.CatalogProfile.

Module DanglingFallback.
Record DanglingFallback : Type := {
  profile_id : string;
  target_id : string;
  fallback_profile_id : string;
  fallback_surface_id : string;
}.
Definition to_string `{PT : ProfileText} (self : DanglingFallback) : string :=
  "profile " +:+ debug (profile_id self) +:+ " target " +:+ debug (target_id self)
  +:+ " has dangling fallback to " +:+ debug (fallback_profile_id self) +:+ "/"
  +:+ debug (fallback_surface_id self).
End DanglingFallback.

Inductive ProfileStoreEntry : Type :=
| Ready (package : Package.ValidatedProfilePackage)
| Invalid (id path error : string).

Definition entry_id (self : ProfileStoreEntry) : string :=
  match self with
  | Ready package => Manifest.id (Package.manifest package)
  | Invalid id _ _ => id
  end.
Definition is_ready (self : ProfileStoreEntry) : bool :=
  match self with Ready _ => true | Invalid _ _ _ => false end.

Definition ready_package (self : ProfileStoreEntry) : option Package.ValidatedProfilePackage :=
  match self with Ready package => Some package | Invalid _ _ _ => None end.

Abbreviation packages := (gmap string Package.ValidatedProfilePackage).

Definition with_profile (package : Package.ValidatedProfilePackage)
    (profile : Profile.SemanticProfile) : Package.ValidatedProfilePackage := {|
  Package.manifest := Package.manifest package; Package.profile := profile;
  Package.root := Package.root package; Package.file_count := Package.file_count package;
  Package.total_bytes := Package.total_bytes package |}.

(** ** The catalog *)

(** [ProfileStore::ready_profiles]. *)
Definition ready_profiles (entries : list ProfileStoreEntry) : list Profile.SemanticProfile :=
  map Package.profile (omap ready_package entries).

Definition catalog_entries (source : ProfileSource) (profiles : list Profile.SemanticProfile)
    (catalog : gmap string CatalogProfile.CatalogProfile)
    : gmap string CatalogProfile.CatalogProfile :=
  fold_left (fun catalog profile =>
    <[Profile.id profile := {| CatalogProfile.source := source;
                               CatalogProfile.profile := profile |}]> catalog) profiles catalog.

(** [ProfileCatalog::from_store]. *)
Definition from_store (builtins : list Profile.SemanticProfile)
    (entries : list ProfileStoreEntry) : ProfileCatalog :=
  Ordered.values (catalog_entries User (ready_profiles entries)
    (catalog_entries Builtin builtins ∅)).

Definition catalog_profile (self : ProfileCatalog) (id : string)
    : option (Profile.SemanticProfile * ProfileSource) :=
  option_map (fun entry => (CatalogProfile.profile entry, CatalogProfile.source entry))
    (List.find (fun entry => Profile.id (CatalogProfile.profile entry) == id) self).

(** [surfaces.iter().flat_map(|surface| &surface.targets)]. *)
Definition profile_targets (profile : Profile.SemanticProfile) : list Target.SemanticTarget :=
  List.concat (map Surface.targets (Profile.surfaces profile)).

Definition validate_fallback (self : ProfileCatalog) (profile : Profile.SemanticProfile)
    (target : Target.SemanticTarget) : result DanglingFallback.DanglingFallback unit :=
  match Target.fallback target with
  | None => Ok tt
  | Some fallback =>
      if is_some_and (fun '(fallback_profile, _) =>
           is_some (surface fallback_profile (Fallback.surface_id fallback)))
           (catalog_profile self (Fallback.profile_id fallback))
      then Ok tt
      else Err {| DanglingFallback.profile_id := Profile.id profile;
                  DanglingFallback.target_id := Target.id target;
                  DanglingFallback.fallback_profile_id := Fallback.profile_id fallback;
                  DanglingFallback.fallback_surface_id := Fallback.surface_id fallback |}
  end.

Definition validate_profile (self : ProfileCatalog) (profile : Profile.SemanticProfile)
    : result DanglingFallback.DanglingFallback unit :=
  try_each (validate_fallback self profile) (profile_targets profile).

Definition validate_catalog (self : ProfileCatalog)
    : result DanglingFallback.DanglingFallback unit :=
  try_each (fun entry => validate_profile self (CatalogProfile.profile entry)) self.

(** ** Inheritance between packages *)

Section Store.
Context `{SV : SemVer} `{PT : ProfileText} `{PF : !PackageFormat}.
Context (files : Files.Files) (builtins : list Profile.SemanticProfile).

Definition missing_parent (profile : Profile.SemanticProfile)
    (reference : Reference.ProfileReference) : PackageError.ProfilePackageError :=
  PackageError.Invalid ("profile " +:+ Profile.id profile +:+ " requires missing parent "
    +:+ Reference.id reference +:+ " " +:+ Reference.version reference).

Definition resolved_over (parent profile : Profile.SemanticProfile)
    : pkresult Profile.SemanticProfile :=
  rmap_err (fun error => PackageError.Invalid (profile_error_to_string error))
    (resolve_profile parent profile).

(** The parent that a profile names: a built-in one, or of a package. *)
Definition parent_profile (packages : packages) (profile : Profile.SemanticProfile)
    (reference : Reference.ProfileReference) : pkresult Profile.SemanticProfile :=
  match builtin_profile builtins (Reference.id reference) with
  | Some parent => Ok parent
  | None => ok_or (option_map Package.profile (packages !! Reference.id reference))
              (missing_parent profile reference)
  end.

(** [None]: the parents are more than the fuel. *)
Fixpoint resolve_profile_from_packages (fuel : nat) (packages : packages)
    (visiting : gset string) (profile : Profile.SemanticProfile)
    : option (pkresult Profile.SemanticProfile) :=
  match fuel with
  | O => None
  | S fuel =>
      match Profile.extends profile with
      | None => Some (Ok profile)
      | Some reference =>
          if bool_decide (Profile.id profile ∈ visiting)
          then Some (invalid ("profile inheritance cycle includes " +:+ Profile.id profile))
          else
            match parent_profile packages profile reference with
            | Err error => Some (Err error)
            | Ok parent =>
                match resolve_profile_from_packages fuel packages
                        ({[Profile.id profile]} ∪ visiting) parent with
                | Some (Ok parent) => Some (resolved_over parent profile)
                | other => other
                end
            end
      end
  end.

(** The fuel that suffices: a profile and every parent it may have. *)
Definition inheritance_fuel (packages : packages) : nat :=
  size packages + length builtins + 2.

Definition resolve_package (candidates : packages) (package : Package.ValidatedProfilePackage)
    : option (pkresult Profile.SemanticProfile) :=
  resolve_profile_from_packages (inheritance_fuel candidates) candidates ∅
    (Package.profile package).

(** ** Refreshing the store *)

Definition path_is_dir (path : string) : bool :=
  match Files.metadata files path with
  | Ok metadata => FileMetadata.is_dir metadata
  | Err _ => false
  end.

(** One directory: the packages by their ids, and the entries that are invalid. *)
Definition load_package (fuel : nat) (root : string)
    (state : packages * list ProfileStoreEntry) (id : string)
    : option (packages * list ProfileStoreEntry) :=
  let '(packages, invalid) := state in
  let path := path_join root id in
  if starts_with "." id || negb (path_is_dir path) then Some state
  else
    match validate_package files fuel path with
    | None => None
    | Some (Ok package) =>
        let key := Manifest.id (Package.manifest package) in
        Some (<[key := package]> packages,
              if is_some (packages !! key)
              then invalid ++ [Invalid id path "duplicate package identity"] else invalid)
    | Some (Err error) =>
        Some (packages, invalid ++ [Invalid id path (PackageError.to_string error)])
    end.

Fixpoint load_packages (fuel : nat) (root : string)
    (state : packages * list ProfileStoreEntry) (ids : list string)
    : option (packages * list ProfileStoreEntry) :=
  match ids with
  | [] => Some state
  | id :: ids => load_package fuel root state id ≫= fun state => load_packages fuel root state ids
  end.

(** [format!("{:?}", ProfilePlatform::current())]. *)
Definition platform_name (platform : ProfilePlatform) : string :=
  match platform with Windows => "Windows" | Macos => "Macos" | Linux => "Linux" end.

Definition unsupported_platform : string :=
  "package does not support the current " +:+ platform_name current_platform +:+ " platform".

Definition drop_unsupported (state : packages * list ProfileStoreEntry)
    : packages * list ProfileStoreEntry :=
  let '(candidates, invalid) := state in
  let unsupported := List.filter (fun entry =>
    negb (package_supports_current_platform entry.2)) (Ordered.entries candidates) in
  (fold_left (fun candidates entry => delete entry.1 candidates) unsupported candidates,
   invalid ++ map (fun entry => Invalid entry.1 (Package.root entry.2) unsupported_platform)
                unsupported).

(** The candidates with their resolved profiles, and those that do not resolve. *)
Fixpoint resolve_candidates (candidates : packages)
    (entries : list (string * Package.ValidatedProfilePackage))
    : option (packages * list (string * string)) :=
  match entries with
  | [] => Some (∅, [])
  | (id, package) :: entries =>
      resolve_package candidates package ≫= fun answer =>
      resolve_candidates candidates entries ≫= fun '(resolved, failures) =>
      match answer with
      | Ok profile => Some (<[id := with_profile package profile]> resolved, failures)
      | Err error => Some (resolved, (id, PackageError.to_string error) :: failures)
      end
  end.

Definition remove_candidate (state : packages * list ProfileStoreEntry)
    (failure : string * string) : packages * list ProfileStoreEntry :=
  let '(candidates, invalid) := state in
  (delete failure.1 candidates,
   invalid ++ match candidates !! failure.1 with
              | Some package => [Invalid failure.1 (Package.root package) failure.2]
              | None => []
              end).

(** [loop]: until every candidate resolves. *)
Fixpoint resolve_loop (fuel : nat) (state : packages * list ProfileStoreEntry)
    : option (packages * list ProfileStoreEntry) :=
  match fuel with
  | O => None
  | S fuel =>
      let '(candidates, invalid) := state in
      resolve_candidates candidates (Ordered.entries candidates) ≫= fun '(resolved, failures) =>
      match failures with
      | [] => Some (resolved, invalid)
      | _ => resolve_loop fuel (fold_left remove_candidate failures state)
      end
  end.

Definition fallback_error (catalog : ProfileCatalog) (entry : ProfileStoreEntry)
    : option string :=
  match entry with
  | Ready package =>
      match validate_profile catalog (Package.profile package) with
      | Ok _ => None
      | Err error => Some (DanglingFallback.to_string error)
      end
  | Invalid _ _ _ => None
  end.

(** The failures by the id of the package; of two with one id the later counts. *)
Definition fallback_failures (catalog : ProfileCatalog) (entries : list ProfileStoreEntry)
    : gmap string string :=
  fold_left (fun failures entry =>
    match fallback_error catalog entry with
    | Some error => <[entry_id entry := error]> failures
    | None => failures
    end) entries ∅.

Definition invalidate_entry (failures : gmap string string) (entry : ProfileStoreEntry)
    : ProfileStoreEntry :=
  match entry with
  | Ready package =>
      match failures !! Manifest.id (Package.manifest package) with
      | Some error =>
          Invalid (Manifest.id (Package.manifest package)) (Package.root package) error
      | None => Ready package
      end
  | Invalid _ _ _ => entry
  end.

(** [loop]: until no ready profile has a dangling fallback. *)
Fixpoint fallback_loop (fuel : nat) (entries : list ProfileStoreEntry)
    : option (list ProfileStoreEntry) :=
  match fuel with
  | O => None
  | S fuel =>
      let failures := fallback_failures (from_store builtins entries) entries in
      if bool_decide (failures = ∅) then Some entries
      else fallback_loop fuel (map (invalidate_entry failures) entries)
  end.

Definition entry_le (a b : ProfileStoreEntry) : Prop := String.le (entry_id a) (entry_id b).
#[export] Instance entry_le_dec : RelDecision entry_le.
Proof. intros a b. unfold entry_le. apply _. Defined.

Definition ready_count (entries : list ProfileStoreEntry) : nat :=
  length (omap ready_package entries).

(** [.collect::<Result<Vec<_>, _>>()]. *)
Fixpoint collect_names (names : list (io string)) : io (list string) :=
  match names with
  | [] => Ok []
  | name :: names =>
      let? name := name in
      let? names := collect_names names in
      Ok (name :: names)
  end.

(** The outcome and the entries that the store has then.  [None] is a tree deeper than the
    fuel; the loops always have enough. *)
Definition refresh (fuel : nat) (root : string)
    : option (pkresult unit * list ProfileStoreEntry) :=
  if negb (path_is_dir root) then Some (Ok tt, [])
  else
    match on_io root (let? names := Files.read_dir files root in collect_names names) with
    | Err error => Some (Err error, [])
    | Ok names =>
        load_packages fuel root (∅, []) (merge_sort String.le names) ≫= fun loaded =>
        let state := drop_unsupported loaded in
        resolve_loop (S (size state.1)) state ≫= fun '(resolved, invalid) =>
        let entries :=
          merge_sort entry_le (map Ready (Ordered.values resolved) ++ invalid) in
        fallback_loop (S (ready_count entries)) entries ≫= fun entries =>
        Some (Ok tt, entries)
    end.

(** ** Reading the store *)

Definition package (entries : list ProfileStoreEntry) (id : string)
    : pkresult (option Package.ValidatedProfilePackage) :=
  check? validate_package_id id in
  match List.find (fun entry => entry_id entry == id) entries with
  | Some (Ready package) => Ok (Some package)
  | Some (Invalid _ _ error) => invalid error
  | None => Ok None
  end.

Definition store_profile (entries : list ProfileStoreEntry) (id : string)
    : pkresult (option Profile.SemanticProfile) :=
  let? found := package entries id in
  Ok (option_map Package.profile found).

Definition resolve_profile_against_store (entries : list ProfileStoreEntry)
    (profile : Profile.SemanticProfile) : pkresult Profile.SemanticProfile :=
  match Profile.extends profile with
  | None => Ok profile
  | Some reference =>
      let? parent :=
        match builtin_profile builtins (Reference.id reference) with
        | Some parent => Ok parent
        | None =>
            let? found := store_profile entries (Reference.id reference) in
            ok_or found (missing_parent profile reference)
        end in
      resolved_over parent profile
  end.
End Store.

(** ** A profile and the parents that it may have *)

Section Resolution.
Context `{SV : SemVer} `{PT : ProfileText} `{PF : !PackageFormat}.
Context (builtins : list Profile.SemanticProfile).

Abbreviation resolves_from := (resolve_profile_from_packages builtins).

(** The resolution ends well with some fuel. *)
Definition resolves (packages : packages) (profile r : Profile.SemanticProfile) : Prop :=
  exists fuel, resolves_from fuel packages ∅ profile = Some (Ok r).

Lemma parent_profile_mono packages packages' profile reference parent :
  packages ⊆ packages' -> parent_profile builtins packages profile reference = Ok parent ->
  parent_profile builtins packages' profile reference = Ok parent.
Proof.
  intros Hsub. unfold parent_profile. destruct (builtin_profile _ _); [done|].
  destruct (packages !! _) as [p|] eqn:Hp; [|done]. by rewrite (lookup_weaken _ _ _ _ Hp Hsub).
Qed.

(** More packages and more fuel change no success. *)
Lemma resolves_from_mono fuel fuel' packages packages' visiting profile r :
  packages ⊆ packages' -> (fuel <= fuel')%nat ->
  resolves_from fuel packages visiting profile = Some (Ok r) ->
  resolves_from fuel' packages' visiting profile = Some (Ok r).
Proof.
  intros Hsub. revert fuel' visiting profile r.
  induction fuel as [|fuel IH]; intros [|fuel'] visiting profile r Hf; try done; [lia|].
  cbn [resolve_profile_from_packages]. destruct (Profile.extends profile) as [reference|]; [|done].
  case_bool_decide; [done|].
  destruct (parent_profile builtins packages profile reference) as [parent|] eqn:Hp; [|done].
  rewrite (parent_profile_mono _ _ _ _ _ Hsub Hp).
  destruct (resolves_from fuel packages _ parent) as [[q|e]|] eqn:E; [|done..].
  by rewrite (IH fuel' _ _ _ ltac:(lia) E).
Qed.

Lemma resolves_from_fuel fuel fuel' packages visiting profile answer :
  (fuel <= fuel')%nat -> resolves_from fuel packages visiting profile = Some answer ->
  resolves_from fuel' packages visiting profile = Some answer.
Proof.
  revert fuel' visiting profile answer.
  induction fuel as [|fuel IH]; intros [|fuel'] visiting profile answer Hf; try done; [lia|].
  cbn [resolve_profile_from_packages]. destruct (Profile.extends profile) as [reference|]; [|done].
  case_bool_decide; [done|]. destruct (parent_profile builtins packages profile reference); [|done].
  destruct (resolves_from fuel packages _ _) as [a'|] eqn:E; [|done].
  by rewrite (IH fuel' _ _ _ ltac:(lia) E).
Qed.

Lemma builtin_profile_in id p : builtin_profile builtins id = Some p -> p ∈ builtins.
Proof. intros [H _]%find_some. by apply list_elem_of_In. Qed.

(** The ids that a chain of parents may have. *)
Definition package_ids (packages : packages) : gset string :=
  list_to_set (map (fun entry => Profile.id (Package.profile entry.2)) (map_to_list packages))
  ∪ list_to_set (map Profile.id builtins).

Lemma parent_id_known packages profile reference parent :
  parent_profile builtins packages profile reference = Ok parent ->
  Profile.id parent ∈ package_ids packages.
Proof.
  unfold parent_profile, package_ids. rewrite elem_of_union, !elem_of_list_to_set.
  destruct (builtin_profile _ _) as [p|] eqn:Hb.
  - intros [= ->]. right. apply list_elem_of_fmap. apply builtin_profile_in in Hb. by exists parent.
  - destruct (packages !! _) as [p|] eqn:Hp; [|done]. intros [= <-]. left.
    apply list_elem_of_fmap. by exists (Reference.id reference, p); rewrite elem_of_map_to_list.
Qed.

Lemma size_list_to_set_le (l : list string) : (size (list_to_set l : gset string) <= length l)%nat.
Proof.
  induction l as [|x l IH]; [by rewrite list_to_set_nil, size_empty|].
  rewrite list_to_set_cons. cbn [length].
  rewrite size_union_alt, size_singleton.
  pose proof (subseteq_size ((list_to_set l : gset string) ∖ {[x]}) (list_to_set l) ltac:(set_solver)).
  lia.
Qed.

Lemma size_package_ids packages :
  (size (package_ids packages) <= size packages + length builtins)%nat.
Proof.
  unfold package_ids. rewrite size_union_alt.
  pose proof (size_list_to_set_le
    (map (fun entry => Profile.id (Package.profile entry.2)) (map_to_list packages))) as H1.
  pose proof (size_list_to_set_le (map Profile.id builtins)) as H2.
  rewrite length_map, length_map_to_list in H1. rewrite length_map in H2.
  etrans; [apply Nat.add_le_mono; [exact H1|]|].
  - etrans; [apply subseteq_size|exact H2]. set_solver.
  - done.
Qed.

(** The chain of parents ends: each step visits a profile that was not visited. *)
Lemma resolves_from_ends fuel packages visiting profile universe :
  package_ids packages ⊆ universe -> Profile.id profile ∈ universe ->
  (size (universe ∖ visiting) < fuel)%nat ->
  is_Some (resolves_from fuel packages visiting profile).
Proof.
  intros Hids. revert visiting profile.
  induction fuel as [|fuel IH]; intros visiting profile Hin Hsize; [lia|].
  cbn [resolve_profile_from_packages]. destruct (Profile.extends profile) as [reference|]; [|by eexists].
  case_bool_decide as Hvis; [by eexists|].
  destruct (parent_profile builtins packages profile reference) as [parent|] eqn:Hp; [|by eexists].
  destruct (IH ({[Profile.id profile]} ∪ visiting) parent) as [[q|e] E].
  - apply Hids. by eapply parent_id_known.
  - enough (size (universe ∖ ({[Profile.id profile]} ∪ visiting)) < size (universe ∖ visiting))%nat
      by lia.
    apply subset_size. set_solver.
  - rewrite E. by eexists.
  - rewrite E. by eexists.
Qed.

Lemma resolve_package_ends packages package :
  is_Some (resolve_package builtins packages package).
Proof.
  apply (resolves_from_ends _ _ _ _ ({[Profile.id (Package.profile package)]} ∪ package_ids packages));
    [set_solver | set_solver|].
  pose proof (size_package_ids packages).
  pose proof (subseteq_size
    (({[Profile.id (Package.profile package)]} ∪ package_ids packages) ∖ ∅)
    ({[Profile.id (Package.profile package)]} ∪ package_ids packages) ltac:(set_solver)).
  unfold inheritance_fuel.
  assert (size ({[Profile.id (Package.profile package)]} ∪ package_ids packages)
    <= 1 + size (package_ids packages))%nat; [|lia].
  rewrite size_union_alt, size_singleton.
  pose proof (subseteq_size (package_ids packages ∖ {[Profile.id (Package.profile package)]})
    (package_ids packages) ltac:(set_solver)). lia.
Qed.

Lemma resolve_package_resolves packages package r :
  resolve_package builtins packages package = Some (Ok r)
  <-> resolves packages (Package.profile package) r.
Proof.
  split; [by eexists|]. intros [fuel H].
  destruct (resolve_package_ends packages package) as [answer Ha].
  unfold resolve_package in *.
  destruct (Nat.le_ge_cases fuel (inheritance_fuel builtins packages)) as [Hle|Hle].
  - by eapply resolves_from_mono.
  - rewrite Ha. by rewrite (resolves_from_fuel _ _ _ _ _ _ Hle Ha) in H.
Qed.

Lemma resolves_mono packages packages' profile r :
  packages ⊆ packages' -> resolves packages profile r -> resolves packages' profile r.
Proof. intros Hsub [fuel H]. exists fuel. by eapply resolves_from_mono. Qed.

(** A resolution is the profile itself or over a resolved parent. *)
Lemma resolves_cases packages profile r :
  resolves packages profile r ->
  match Profile.extends profile with
  | None => r = profile
  | Some reference => exists parent parent',
      parent_profile builtins packages profile reference = Ok parent
      /\ (exists fuel, resolves_from fuel packages {[Profile.id profile]} parent
            = Some (Ok parent'))
      /\ resolve_profile parent' profile = Ok r
  end.
Proof.
  intros [[|fuel] H]; [done|]. cbn [resolve_profile_from_packages] in H.
  destruct (Profile.extends profile) as [reference|]; [|by injection H].
  case_bool_decide; [done|].
  destruct (parent_profile builtins packages profile reference) as [parent|] eqn:Hp; [|done].
  rewrite union_empty_r_L in H.
  destruct (resolves_from fuel packages _ parent) as [[q|e]|] eqn:E; [|done..].
  injection H as H. unfold resolved_over in H. apply rmap_err_ok in H.
  exists parent, q. split_and!; try done. by exists fuel.
Qed.

(** ** The candidates that resolve *)

(** A set of packages all of which resolve within it. *)
Definition supported (packages : packages) : Prop :=
  forall id p, packages !! id = Some p -> exists r, resolves packages (Package.profile p) r.

(** The packages with their resolved profiles. *)
Definition resolved_packages (packages resolved : packages) : Prop :=
  forall id, match packages !! id with
    | Some p => exists r, resolves packages (Package.profile p) r
                  /\ resolved !! id = Some (with_profile p r)
    | None => resolved !! id = None
    end.

Lemma resolve_candidates_spec candidates l :
  NoDup l.*1 ->
  exists resolved failures, resolve_candidates builtins candidates l = Some (resolved, failures)
    /\ NoDup failures.*1 /\ (forall id p', resolved !! id = Some p' <-> exists p r, (id, p) ∈ l
          /\ resolves candidates (Package.profile p) r /\ p' = with_profile p r)
    /\ (forall id, id ∈ failures.*1 <-> exists p, (id, p) ∈ l
          /\ ~ exists r, resolves candidates (Package.profile p) r).
Proof.
  induction l as [|[id package] l IH]; cbn [resolve_candidates fmap list_fmap]; intros Hnd.
  { exists ∅, []. split_and!; [done | constructor|..].
    - intros id p'. rewrite lookup_empty. split; [done | intros (? & ? & H & _); by inversion H].
    - intros id. split; [intros H; by inversion H | intros (? & H & _); by inversion H]. }
  apply NoDup_cons in Hnd as [Hid Hnd]. destruct (IH Hnd) as (resolved & failures & E & Hnf & HR & HF).
  assert (forall p, (id, p) ∉ l) as Hfresh.
  { intros p Hin. apply Hid. apply list_elem_of_fmap. by exists (id, p). }
  destruct (resolve_package_ends candidates package) as [answer Ha]. rewrite Ha, E. cbn.
  destruct answer as [r|e].
  - apply resolve_package_resolves in Ha. eexists _, _. split; [done|]. split; [done|]. split.
    + intros id' p'. destruct (decide (id' = id)) as [->|Hne].
      * rewrite lookup_insert_eq. setoid_rewrite elem_of_cons. split.
        { intros [= <-]. exists package, r. split_and!; [by left | done | done]. }
        intros (p & r' & [[= ->]|Hin] & [fuel' Hr'] & ->); [|by apply Hfresh in Hin].
        destruct Ha as [fuel Ha].
        destruct (Nat.le_ge_cases fuel fuel') as [Hle|Hle];
          [pose proof (resolves_from_fuel _ _ _ _ _ _ Hle Ha)
          |pose proof (resolves_from_fuel _ _ _ _ _ _ Hle Hr')]; by simplify_eq.
      * rewrite lookup_insert_ne, HR by done. setoid_rewrite elem_of_cons. naive_solver.
    + intros id'. rewrite HF. setoid_rewrite elem_of_cons. split.
      { intros (p & ? & ?). eauto. }
      intros (p & [[= -> ->]|Hin] & Hno); [|eauto]. exfalso. eauto.
  - assert (~ exists r, resolves candidates (Package.profile package) r) as Hno.
    { intros [r Hr]. apply resolve_package_resolves in Hr. by rewrite Ha in Hr. }
    eexists _, _. split; [done|]. split.
    { cbn. apply NoDup_cons. split; [|done]. intros (p & Hp & _)%HF. by apply Hfresh in Hp. }
    split.
    + intros id' p'. rewrite HR. setoid_rewrite elem_of_cons. split; [naive_solver|].
      intros (p & r & [[= -> ->]|Hin] & Hr & ->); [exfalso; eauto | eauto 6].
    + intros id'. cbn. rewrite elem_of_cons, HF. setoid_rewrite elem_of_cons. split.
      * intros [->|(p & ? & ?)]; [by exists package; auto | eauto].
      * intros (p & [[= -> ->]|Hin] & ?); [by left | right; eauto].
Qed.

Lemma remove_candidates_fst failures candidates (invalid : list ProfileStoreEntry) id :
  (fold_left remove_candidate failures (candidates, invalid)).1 !! id
  = if bool_decide (id ∈ failures.*1) then None else candidates !! id.
Proof.
  revert candidates invalid. induction failures as [|[k e] failures IH]; intros candidates invalid;
    cbn [fold_left]; [done|].
  unfold remove_candidate at 2. cbn [fst snd]. rewrite IH. cbn [fmap list_fmap fst].
  destruct (decide (id = k)) as [->|Hne].
  - rewrite lookup_delete_eq, (bool_decide_eq_true_2 (k ∈ k :: _)) by (by left).
    by case_bool_decide.
  - rewrite lookup_delete_ne by done. case_bool_decide as H1; case_bool_decide as H2; try done;
      set_solver.
Qed.

(** What a step may do to the invalid entries: add some. *)
Definition adds_invalid (before after : list ProfileStoreEntry) : Prop :=
  exists added, after = before ++ added /\ Forall (fun entry => is_ready entry = false) added.

#[export] Instance adds_invalid_preorder : PreOrder adds_invalid.
Proof.
  split; [intros l; exists []; by rewrite app_nil_r|].
  intros a b c (x & -> & Hx) (y & -> & Hy). exists (x ++ y). rewrite app_assoc.
  split; [done | by apply Forall_app].
Qed.

Lemma remove_candidates_snd failures candidates invalid :
  NoDup failures.*1 ->
  adds_invalid invalid (fold_left remove_candidate failures (candidates, invalid)).2
  /\ forall id p, id ∈ failures.*1 -> candidates !! id = Some p ->
       exists error, Invalid id (Package.root p) error
         ∈ (fold_left remove_candidate failures (candidates, invalid)).2.
Proof.
  revert candidates invalid. induction failures as [|[k e] failures IH]; intros candidates invalid;
    cbn [fold_left fmap list_fmap fst]; [by split; [|set_solver]|].
  intros [Hk Hnd]%NoDup_cons. unfold remove_candidate at 2 4. cbn [fst snd].
  set (added := match candidates !! k with
                | Some package => [Invalid k (Package.root package) e] | None => [] end).
  destruct (IH (delete k candidates) (invalid ++ added) Hnd) as [Hadds Hin]. split.
  - etrans; [|exact Hadds]. exists added. split; [done|].
    unfold added. destruct (candidates !! k); by repeat constructor.
  - intros id p [->|Hid]%elem_of_cons Hp.
    + exists e. destruct Hadds as (x & -> & _). unfold added. rewrite Hp. set_solver.
    + apply Hin; [done|]. rewrite lookup_delete_ne; [done|]. by intros ->.
Qed.

(** The loop ends with the greatest set of candidates that support each other, resolved
    within it; each of the others is an invalid entry then. *)
Lemma resolve_loop_spec fuel candidates invalid :
  (size candidates < fuel)%nat ->
  exists packages resolved invalid',
    resolve_loop builtins fuel (candidates, invalid) = Some (resolved, invalid')
    /\ packages ⊆ candidates /\ supported packages /\ resolved_packages packages resolved
    /\ (forall packages', packages' ⊆ candidates -> supported packages' -> packages' ⊆ packages)
    /\ adds_invalid invalid invalid'
    /\ forall id p, candidates !! id = Some p -> packages !! id = None ->
         exists error, Invalid id (Package.root p) error ∈ invalid'.
Proof.
  revert candidates invalid. induction fuel as [|fuel IH]; intros candidates invalid Hsize; [lia|].
  cbn [resolve_loop].
  destruct (resolve_candidates_spec candidates (Ordered.entries candidates) (NoDup_keys _))
    as (resolved & failures & E & Hnf & HR & HF). rewrite E. cbn.
  setoid_rewrite elem_of_entries in HR. setoid_rewrite elem_of_entries in HF.
  assert (forall id p, candidates !! id = Some p -> id ∉ failures.*1 ->
    exists r, resolves candidates (Package.profile p) r) as Hok.
  { intros id p Hp Hid. destruct (resolve_package_ends candidates p) as [[r|e] Ha].
    - exists r. by apply resolve_package_resolves.
    - destruct Hid. apply HF. exists p. split; [done|]. intros [r Hr].
      apply resolve_package_resolves in Hr. by rewrite Ha in Hr. }
  destruct failures as [|failure rest].
  - exists candidates, resolved, invalid. split_and!; try done.
    + intros id p Hp. apply (Hok id p Hp). set_solver.
    + intros id. destruct (candidates !! id) as [p|] eqn:Hp.
      * destruct (Hok id p Hp ltac:(set_solver)) as [r Hr]. exists r. split; [done|].
        apply HR. by exists p, r.
      * apply eq_None_not_Some. intros [p' (p & _ & Hp' & _)%HR]. by rewrite Hp in Hp'.
    + intros id p Hp Hnone. by rewrite Hp in Hnone.
  - destruct (remove_candidates_snd (failure :: rest) candidates invalid Hnf) as [Hadds Hin].
    pose proof (remove_candidates_fst (failure :: rest) candidates invalid) as Hfst.
    assert (failure.1 ∈ (failure :: rest).*1) as Hhead by (cbn; by left).
    set (failures := failure :: rest) in *. clearbody failures.
    destruct (fold_left _ failures _) as [candidates' invalid1]. cbn [fst snd] in *.
    assert (candidates' ⊆ candidates) as Hsub.
    { apply map_subseteq_spec. intros id p. rewrite Hfst. by case_bool_decide. }
    destruct (IH candidates' invalid1) as
      (packages & resolved' & invalid' & E' & Hp' & Hs & HR' & Hmax & Hadds' & Hout).
    { enough (size candidates' < size candidates)%nat by lia.
      apply map_subset_size. apply HF in Hhead as Hfail. destruct Hfail as (p & Hp & _).
      apply map_subset_alt. split; [done|]. exists failure.1. split; [|by rewrite Hp].
      by rewrite Hfst, bool_decide_eq_true_2. }
    exists packages, resolved', invalid'. split_and!; try done.
    + by etrans.
    + intros packages' Hsub' Hs'. apply Hmax; [|done]. apply map_subseteq_spec.
      intros id p Hp. rewrite Hfst, bool_decide_eq_false_2 by
        (intros (p' & Hp'' & Hno)%HF; pose proof (lookup_weaken _ _ _ _ Hp Hsub');
         destruct (Hs' id p Hp) as [r Hr]; simplify_eq; apply Hno; exists r;
         by eapply resolves_mono).
      by eapply lookup_weaken.
    + by etrans.
    + intros id p Hp Hnone. destruct (decide (id ∈ failures.*1)) as [Hid|Hid].
      * destruct (Hin id p Hid Hp) as [error He]. exists error.
        destruct Hadds' as (x & -> & _). set_solver.
      * apply (Hout id p); [|done]. by rewrite Hfst, bool_decide_eq_false_2.
Qed.

(** ** The entries without dangling fallbacks *)

(** The surface that a fallback names is in the catalog. *)
Definition fallback_found (catalog : ProfileCatalog) (fallback : Fallback.SemanticFallback) : Prop :=
  exists profile source, catalog_profile catalog (Fallback.profile_id fallback)
      = Some (profile, source)
    /\ is_some (surface profile (Fallback.surface_id fallback)).

Definition fallbacks_found (catalog : ProfileCatalog) (profile : Profile.SemanticProfile) : Prop :=
  forall target fallback, target ∈ profile_targets profile ->
    Target.fallback target = Some fallback -> fallback_found catalog fallback.

Lemma validate_profile_ok catalog profile :
  validate_profile catalog profile = Ok tt <-> fallbacks_found catalog profile.
Proof.
  unfold validate_profile. rewrite try_each_ok. unfold fallbacks_found.
  split.
  - intros H target fallback Hin Hf. specialize (H target Hin). unfold validate_fallback in H.
    rewrite Hf in H. destruct (catalog_profile catalog _) as [[p source]|] eqn:Hp; [|done].
    cbn in H. exists p, source. split; [done|]. by destruct (is_some _).
  - intros H target Hin. unfold validate_fallback.
    destruct (Target.fallback target) as [fallback|] eqn:Hf; [|done].
    destruct (H target fallback Hin Hf) as (p & source & -> & Hs). cbn. by destruct (is_some _).
Qed.

Lemma try_each_err {E A} (f : A -> result E unit) (l : list A) error :
  try_each f l = Err error -> exists x, x ∈ l /\ f x = Err error.
Proof.
  induction l as [|a l IH]; [done|]. cbn. destruct (f a) as [[]|e] eqn:Ha; cbn.
  - intros (x & ? & ?)%IH. exists x. split; [by right | done].
  - intros [= <-]. exists a. split; [by left | done].
Qed.

(** A fallback of a profile to nothing, and how it is told. *)
Definition dangles (catalog : ProfileCatalog) (profile : Profile.SemanticProfile)
    (error : string) : Prop :=
  exists target fallback, target ∈ profile_targets profile
    /\ Target.fallback target = Some fallback /\ ~ fallback_found catalog fallback
    /\ error = DanglingFallback.to_string {|
         DanglingFallback.profile_id := Profile.id profile;
         DanglingFallback.target_id := Target.id target;
         DanglingFallback.fallback_profile_id := Fallback.profile_id fallback;
         DanglingFallback.fallback_surface_id := Fallback.surface_id fallback |}.

Lemma fallback_error_dangles catalog p error :
  fallback_error catalog (Ready p) = Some error -> dangles catalog (Package.profile p) error.
Proof.
  cbn. destruct (validate_profile _ _) as [|e] eqn:Hv; [done|]. intros [= <-].
  unfold validate_profile in Hv. apply try_each_err in Hv as (target & Hin & Ht).
  unfold validate_fallback in Ht.
  destruct (Target.fallback target) as [fallback|] eqn:Hf; [|done].
  destruct (is_some_and _ _) eqn:Hfound; [done|]. injection Ht as <-.
  exists target, fallback. split_and!; try done. intros (q & source & Hq & Hs).
  rewrite Hq in Hfound. cbn in Hfound. by rewrite Hfound in Hs.
Qed.

Lemma dangles_not_found catalog profile error :
  dangles catalog profile error -> ~ fallbacks_found catalog profile.
Proof. intros (target & fallback & Hin & Hf & Hno & _) H. by apply Hno, (H target). Qed.

Lemma fallback_failures_spec catalog entries id :
  is_Some (fallback_failures catalog entries !! id)
  <-> exists entry, entry ∈ entries /\ entry_id entry = id
        /\ is_Some (fallback_error catalog entry).
Proof.
  unfold fallback_failures.
  enough (forall failures : gmap string string, is_Some (fold_left (fun failures entry =>
      match fallback_error catalog entry with
      | Some error => <[entry_id entry := error]> failures
      | None => failures end) entries failures !! id)
    <-> is_Some (failures !! id) \/ exists entry, entry ∈ entries /\ entry_id entry = id
        /\ is_Some (fallback_error catalog entry)) as H.
  { rewrite H, lookup_empty. split; [|by right]. by intros [[? [=]]|]. }
  induction entries as [|entry entries IH]; intros failures; cbn [fold_left].
  { split; [by left|]. by intros [|(? & H%elem_of_nil & _)]. }
  rewrite IH. setoid_rewrite elem_of_cons.
  destruct (fallback_error catalog entry) as [error|] eqn:He.
  - destruct (decide (entry_id entry = id)) as [<-|Hne].
    + rewrite lookup_insert_eq. split; [|by intros _; left; eexists].
      intros _. right. exists entry. rewrite He. eauto.
    + rewrite lookup_insert_ne by done. naive_solver.
  - split; [naive_solver|]. intros [|(e & [->|] & ? & [x Hx])]; [by left | congruence | eauto 6].
Qed.

(** A failure is that of an entry with the id. *)
Lemma fallback_failures_from catalog entries id error :
  fallback_failures catalog entries !! id = Some error ->
  exists p, Ready p ∈ entries /\ Manifest.id (Package.manifest p) = id
    /\ dangles catalog (Package.profile p) error.
Proof.
  unfold fallback_failures.
  enough (forall failures : gmap string string, fold_left (fun failures entry =>
      match fallback_error catalog entry with
      | Some error => <[entry_id entry := error]> failures
      | None => failures end) entries failures !! id = Some error ->
    failures !! id = Some error \/ exists entry, entry ∈ entries /\ entry_id entry = id
        /\ fallback_error catalog entry = Some error) as H.
  { intros [Hn|(entry & Hin & Hid & He)]%H; [by rewrite lookup_empty in Hn|].
    destruct entry as [p|]; [|done]. exists p. split_and!; [done.. | by apply fallback_error_dangles]. }
  induction entries as [|entry entries IH]; intros failures; cbn [fold_left]; [by left|].
  intros [Hf|(e & ? & ? & ?)]%IH; [|right; exists e; set_solver].
  destruct (fallback_error catalog entry) as [e|] eqn:He; [|by left].
  apply lookup_insert_Some in Hf as [[<- <-]|[_ Hf]]; [|by left].
  right. exists entry. split_and!; [by left | done | done].
Qed.

Lemma fallback_failures_empty catalog entries :
  fallback_failures catalog entries = ∅
  <-> forall p, Ready p ∈ entries -> fallbacks_found catalog (Package.profile p).
Proof.
  split.
  - intros H p Hp. apply validate_profile_ok.
    destruct (validate_profile catalog (Package.profile p)) as [[]|error] eqn:Hv; [done|].
    destruct (proj2 (fallback_failures_spec catalog entries (entry_id (Ready p)))) as [e He].
    + exists (Ready p). split_and!; [done..|]. cbn. rewrite Hv. by eexists.
    + by rewrite H in He.
  - intros H. apply map_eq. intros id. rewrite lookup_empty. apply eq_None_not_Some.
    intros (entry & Hin & _ & Herr)%fallback_failures_spec. destruct entry as [p|]; [|by destruct Herr].
    cbn in Herr. apply H, validate_profile_ok in Hin. rewrite Hin in Herr. by destruct Herr.
Qed.

(** What the fallback loop may do to an entry: make a ready one invalid. *)
Definition kept_or_invalidated (before after : ProfileStoreEntry) : Prop :=
  after = before
  \/ exists p error, before = Ready p
       /\ after = Invalid (Manifest.id (Package.manifest p)) (Package.root p) error.

#[export] Instance kept_or_invalidated_preorder : PreOrder kept_or_invalidated.
Proof.
  split; [by left|]. intros a b c [->|(p & e & -> & ->)]; [done|].
  intros [->|(? & ? & [=] & _)]. right. by exists p, e.
Qed.

Lemma kept_or_invalidated_id before after :
  kept_or_invalidated before after -> entry_id after = entry_id before.
Proof. by intros [->|(p & e & -> & ->)]. Qed.

Lemma invalidate_entries failures entries :
  Forall2 kept_or_invalidated entries (map (invalidate_entry failures) entries).
Proof.
  induction entries as [|entry entries IH]; cbn; constructor; [|done].
  destruct entry as [p|]; [|by left]. cbn. destruct (failures !! _) as [error|]; [|by left].
  right. by exists p, error.
Qed.

Lemma invalidate_entries_count (failures : gmap string string) entries :
  (ready_count (map (invalidate_entry failures) entries) <= ready_count entries)%nat
  /\ forall p, Ready p ∈ entries -> is_Some (failures !! Manifest.id (Package.manifest p)) ->
       (ready_count (map (invalidate_entry failures) entries) < ready_count entries)%nat.
Proof.
  unfold ready_count. induction entries as [|entry entries [IH1 IH2]]; cbn.
  { split; [done | intros p H; by inversion H]. }
  destruct entry as [q|]; cbn.
  - destruct (failures !! _) as [error|] eqn:Hq; cbn; (split; [lia|]); intros p Hp Hs; [lia|].
    apply elem_of_cons in Hp as [[= ->]|Hp]; [rewrite Hq in Hs; by destruct Hs|].
    specialize (IH2 p Hp Hs). lia.
  - split; [done|]. intros p [[=]|Hp]%elem_of_cons Hs. eauto.
Qed.

Lemma kept_elem entries entries' :
  Forall2 kept_or_invalidated entries entries' ->
  map entry_id entries' = map entry_id entries
  /\ (forall id path error, Invalid id path error ∈ entries -> Invalid id path error ∈ entries')
  /\ forall p, Ready p ∈ entries' -> Ready p ∈ entries.
Proof.
  induction 1 as [|entry entry' entries entries' Hk _ (IH1 & IH2 & IH3)]; [done|]. cbn.
  rewrite IH1, (kept_or_invalidated_id _ _ Hk). split_and!; [done|..].
  - intros id path error [<-|H]%elem_of_cons; [|right; eauto].
    destruct Hk as [->|(p & e & [=] & _)]. by left.
  - intros p [<-|H]%elem_of_cons; [|right; eauto].
    destruct Hk as [->|(q & e & _ & [=])]. by left.
Qed.

(** The ready packages of the entries are those of different ids. *)
Definition ready_distinct (entries : list ProfileStoreEntry) : Prop :=
  forall p q, Ready p ∈ entries -> Ready q ∈ entries ->
    Manifest.id (Package.manifest p) = Manifest.id (Package.manifest q) -> p = q.

Lemma ready_distinct_kept entries entries' :
  Forall2 kept_or_invalidated entries entries' -> ready_distinct entries ->
  ready_distinct entries'.
Proof. intros (_ & _ & Hr)%kept_elem Hd p q Hp Hq. apply Hd; by apply Hr. Qed.

(** What a round does to a ready package. *)
Lemma invalidated_or_kept catalog entries p :
  ready_distinct entries -> Ready p ∈ entries ->
  let entries' := map (invalidate_entry (fallback_failures catalog entries)) entries in
  (Ready p ∈ entries' /\ fallbacks_found catalog (Package.profile p))
  \/ exists error, dangles catalog (Package.profile p) error
       /\ Invalid (Manifest.id (Package.manifest p)) (Package.root p) error ∈ entries'.
Proof.
  intros Hd Hp. destruct (fallback_failures catalog entries !! Manifest.id (Package.manifest p))
    as [error|] eqn:Hf.
  - right. exists error. apply fallback_failures_from in Hf as Hfrom.
    destruct Hfrom as (q & Hq & Hid & Hdangles).
    rewrite (Hd _ _ Hq Hp Hid) in Hdangles. split; [done|].
    apply list_elem_of_fmap. exists (Ready p). split; [|done]. cbn. by rewrite Hf.
  - left. split.
    + apply list_elem_of_fmap. exists (Ready p). split; [|done]. cbn. by rewrite Hf.
    + apply validate_profile_ok.
      destruct (validate_profile catalog (Package.profile p)) as [[]|e] eqn:Hv; [done|].
      destruct (proj2 (fallback_failures_spec catalog entries
        (Manifest.id (Package.manifest p)))) as [? He]; [|by rewrite Hf in He].
      exists (Ready p). split_and!; [done..|]. cbn. rewrite Hv. by eexists.
Qed.

(** The entries between two that the loop goes through. *)
Definition between (entries entries' mid : list ProfileStoreEntry) : Prop :=
  Forall2 kept_or_invalidated entries mid /\ Forall2 kept_or_invalidated mid entries'.

(** The loop ends, with no fallback to nothing; a ready package has become invalid for a
    fallback to nothing that it had on the way; and packages whose fallbacks are there as
    long as they are all ready stay. *)
Lemma fallback_loop_spec fuel entries :
  (ready_count entries < fuel)%nat -> ready_distinct entries ->
  exists entries', fallback_loop builtins fuel entries = Some entries'
    /\ Forall2 kept_or_invalidated entries entries'
    /\ (forall p, Ready p ∈ entries' ->
         fallbacks_found (from_store builtins entries') (Package.profile p))
    /\ (forall p, Ready p ∈ entries -> Ready p ∈ entries'
         \/ exists mid error, between entries entries' mid /\ Ready p ∈ mid
              /\ dangles (from_store builtins mid) (Package.profile p) error
              /\ Invalid (Manifest.id (Package.manifest p)) (Package.root p) error ∈ entries')
    /\ forall kept : Package.ValidatedProfilePackage -> Prop,
         (forall p, kept p -> Ready p ∈ entries) ->
         (forall mid, Forall2 kept_or_invalidated entries mid ->
            (forall p, kept p -> Ready p ∈ mid) -> forall p, kept p ->
            fallbacks_found (from_store builtins mid) (Package.profile p)) ->
         forall p, kept p -> Ready p ∈ entries'.
Proof.
  revert entries. induction fuel as [|fuel IH]; intros entries Hcount Hdistinct; [lia|].
  cbn [fallback_loop]. case_bool_decide as Hf.
  { exists entries. split_and!; [done | reflexivity | | by left | by auto].
    by apply fallback_failures_empty. }
  set (failures := fallback_failures _ _) in *.
  pose proof (invalidate_entries failures entries) as Hround.
  set (entries1 := map _ _) in *.
  destruct (IH entries1) as (entries' & -> & Hk & Hok & Hout & Hmax).
  - destruct (map_choose _ Hf) as (id & error & Hid).
    destruct (proj1 (fallback_failures_spec _ _ _) (mk_is_Some _ _ Hid)) as (entry & Hin & <- & He).
    destruct entry as [p|]; [|by destruct He].
    pose proof (proj2 (invalidate_entries_count failures entries) p Hin (mk_is_Some _ _ Hid)).
    unfold entries1. lia.
  - by eapply ready_distinct_kept.
  - pose proof (kept_elem _ _ Hk) as (_ & Hinv & _). exists entries'.
    split_and!; [done | by etrans | done | |].
    + intros p Hp. destruct (invalidated_or_kept (from_store builtins entries) entries p
        Hdistinct Hp) as [[Hp1 _]|(error & Hd & He)].
      * destruct (Hout p Hp1) as [?|(mid & error & [Ha Hb] & ?)]; [by left|].
        right. exists mid, error. split; [|done]. split; [by etrans | done].
      * right. exists entries, error. split_and!; [split; [done | by etrans] | done | done |].
        by apply Hinv.
    + intros kept Hkept Hstable. apply Hmax.
      * intros p Hp. destruct (invalidated_or_kept (from_store builtins entries) entries p
          Hdistinct (Hkept p Hp)) as [[? _]|(error & Hd & _)]; [done|].
        exfalso. eapply dangles_not_found, Hstable; [exact Hd | reflexivity | done | done].
      * intros mid Hmid. apply Hstable. by etrans.
Qed.
End Resolution.

(** ** The store after a refresh *)

Section Refreshed.
Context `{SV : SemVer} `{PT : ProfileText} `{PF : !PackageFormat}.
Context (files : Files.Files) (builtins : list Profile.SemanticProfile).
Context (fuel : nat) (root : string).

(** A name in the directory that stands for a package. *)
Definition package_directory (name : string) : Prop :=
  starts_with "." name = false /\ path_is_dir files (path_join root name) = true.

Definition loads (name : string) (answer : pkresult Package.ValidatedProfilePackage) : Prop :=
  validate_package files fuel (path_join root name) = Some answer.

(** The packages under their ids are accepted ones of the names. *)
Definition accepted_from (names : list string) (packages : packages) : Prop :=
  forall id p, packages !! id = Some p ->
    id = Manifest.id (Package.manifest p)
    /\ exists name, name ∈ names /\ package_directory name /\ loads name (Ok p).

(** Every package directory is a package under its id, or an invalid entry. *)
Definition accounts_for (names : list string) (ids : string -> Prop)
    (entries : list ProfileStoreEntry) : Prop :=
  forall name, name ∈ names -> package_directory name ->
    (exists p, loads name (Ok p) /\ ids (Manifest.id (Package.manifest p)))
    \/ exists error, loads name (Err error)
         /\ Invalid name (path_join root name) (PackageError.to_string error) ∈ entries.

Lemma accounts_for_mono names (ids ids' : string -> Prop) entries entries' :
  (forall id, ids id -> ids' id) -> entries ⊆ entries' ->
  accounts_for names ids entries -> accounts_for names ids' entries'.
Proof. intros Hids Hsub H name Hin Hdir. destruct (H name Hin Hdir) as [(p & ?)|(e & ?)]; set_solver. Qed.

Lemma accepted_from_mono names names' packages :
  names ⊆ names' -> accepted_from names packages -> accepted_from names' packages.
Proof. intros Hsub H id p Hp. destruct (H id p Hp) as (-> & name & ?). naive_solver. Qed.

Lemma adds_invalid_subseteq before after : adds_invalid before after -> before ⊆ after.
Proof. intros (added & -> & _). set_solver. Qed.

Lemma load_package_spec name names packages invalid :
  (package_directory name -> exists answer, loads name answer) ->
  accepted_from names packages ->
  accounts_for names (fun id => is_Some (packages !! id)) invalid ->
  exists packages' invalid',
    load_package files fuel root (packages, invalid) name = Some (packages', invalid')
    /\ accepted_from (names ++ [name]) packages'
    /\ accounts_for (names ++ [name]) (fun id => is_Some (packages' !! id)) invalid'
    /\ adds_invalid invalid invalid'.
Proof.
  intros Hends Hacc Hall. unfold load_package.
  assert (accepted_from (names ++ [name]) packages) as Hacc'
    by (by eapply accepted_from_mono, Hacc; set_solver).
  destruct (starts_with "." name || negb (path_is_dir files (path_join root name))) eqn:Hskip.
  { exists packages, invalid. split_and!; [done | done | | done].
    intros n [Hn| ->%list_elem_of_singleton]%elem_of_app Hdir; [by apply Hall|].
    destruct Hdir as [H1 H2]. by rewrite H1, H2 in Hskip. }
  apply orb_false_iff in Hskip as [H1 H2%negb_false_iff].
  assert (package_directory name) as Hdir by done.
  destruct (Hends Hdir) as [answer Ha]. unfold loads in Ha. rewrite Ha. destruct answer as [p|e].
  - set (key := Manifest.id (Package.manifest p)).
    eexists _, _. split; [done|].
    assert (adds_invalid invalid (if is_some (packages !! key)
      then invalid ++ [Invalid name (path_join root name) "duplicate package identity"]
      else invalid)) as Hadd.
    { destruct (is_some _); [|done]. eexists. split; [done|]. by repeat constructor. }
    split_and!; [| |done].
    + intros id q. destruct (decide (id = key)) as [->|Hne].
      * rewrite lookup_insert_eq. intros [= <-]. split; [done|]. exists name. set_solver.
      * rewrite lookup_insert_ne by done. apply Hacc'.
    + intros n [Hn| ->%list_elem_of_singleton]%elem_of_app Hd.
      * refine (accounts_for_mono names _ (fun id => is_Some (<[key := p]> packages !! id)) invalid _
          _ (adds_invalid_subseteq _ _ Hadd) Hall n Hn Hd).
        intros id Hid. apply lookup_insert_is_Some'. by right.
      * left. exists p. split; [done|]. rewrite lookup_insert_eq. by eexists.
  - eexists _, _. split; [done|]. split_and!; [done| |eexists; split; [done|by repeat constructor]].
    intros n [Hn| ->%list_elem_of_singleton]%elem_of_app Hd.
    + refine (accounts_for_mono names _ (fun id => is_Some (packages !! id)) invalid _ _ _
        Hall n Hn Hd); [done | set_solver].
    + right. exists e. split; [done | set_solver].
Qed.

Lemma load_packages_spec names : forall done_names packages invalid,
  (forall name, name ∈ names -> package_directory name -> exists answer, loads name answer) ->
  accepted_from done_names packages ->
  accounts_for done_names (fun id => is_Some (packages !! id)) invalid ->
  exists packages' invalid',
    load_packages files fuel root (packages, invalid) names = Some (packages', invalid')
    /\ accepted_from (done_names ++ names) packages'
    /\ accounts_for (done_names ++ names) (fun id => is_Some (packages' !! id)) invalid'
    /\ adds_invalid invalid invalid'.
Proof.
  induction names as [|name names IH]; intros done_names packages invalid Hends Hacc Hall;
    cbn [load_packages].
  { exists packages, invalid. by rewrite app_nil_r. }
  destruct (load_package_spec name done_names packages invalid)
    as (packages1 & invalid1 & -> & Hacc1 & Hall1 & Hadd1); [set_solver | done..|].
  destruct (IH (done_names ++ [name]) packages1 invalid1) as
    (packages' & invalid' & E & Hacc' & Hall' & Hadd'); [set_solver | done | done |].
  rewrite <- app_assoc in Hacc', Hall'. exists packages', invalid'. cbn. rewrite E.
  split_and!; try done. by etrans.
Qed.

Lemma fold_left_delete (l : list (string * Package.ValidatedProfilePackage)) (packages : packages) id :
  fold_left (fun packages entry => delete entry.1 packages) l packages !! id
  = if bool_decide (id ∈ l.*1) then None else packages !! id.
Proof.
  revert packages. induction l as [|[k p] l IH]; intros packages; cbn [fold_left fmap list_fmap fst];
    [done|].
  rewrite IH. destruct (decide (id = k)) as [->|Hne].
  - rewrite lookup_delete_eq, (bool_decide_eq_true_2 (k ∈ k :: _)) by (by left).
    by case_bool_decide.
  - rewrite lookup_delete_ne by done. case_bool_decide as H1; case_bool_decide as H2; try done;
      set_solver.
Qed.

(** What stays has the current platform; every other package is an invalid entry. *)
Lemma drop_unsupported_spec candidates invalid candidates' invalid' :
  drop_unsupported (candidates, invalid) = (candidates', invalid') ->
  (forall id p, candidates' !! id = Some p
     <-> candidates !! id = Some p /\ package_supports_current_platform p = true)
  /\ adds_invalid invalid invalid'
  /\ forall id p, candidates !! id = Some p -> package_supports_current_platform p = false ->
       Invalid id (Package.root p) unsupported_platform ∈ invalid'.
Proof.
  unfold drop_unsupported. set (unsupported := List.filter _ _). intros [= <- <-].
  assert (forall id p, (id, p) ∈ unsupported
    <-> candidates !! id = Some p /\ package_supports_current_platform p = false) as Hun.
  { intros id p. unfold unsupported.
    by rewrite list_elem_of_In, filter_In, <- list_elem_of_In, elem_of_entries, negb_true_iff. }
  split_and!.
  - intros id p. rewrite fold_left_delete. case_bool_decide as Hid.
    + split; [done|]. intros [Hp Hs]. apply list_elem_of_fmap in Hid as ([k q] & -> & Hk).
      apply Hun in Hk as [Hk Hq]. cbn in *. congruence.
    + split; [|by intros []]. intros Hp. split; [done|].
      apply not_false_iff_true. intros Hs. apply Hid, list_elem_of_fmap. exists (id, p).
      split; [done | by apply Hun].
  - eexists. split; [done|]. clear Hun. induction unsupported; by constructor.
  - intros id p Hp Hs. apply elem_of_app. right. apply list_elem_of_fmap. exists (id, p).
    split; [done | by apply Hun].
Qed.

(** Packages for this platform whose parents are built in or among them. *)
Definition self_supporting (loaded packages : packages) : Prop :=
  packages ⊆ loaded
  /\ (forall id p, packages !! id = Some p -> package_supports_current_platform p = true)
  /\ supported builtins packages.

(** A ready entry is a package of the set with its profile resolved there. *)
Definition ready_from (packages : packages) (p' : Package.ValidatedProfilePackage) : Prop :=
  exists p r, packages !! Manifest.id (Package.manifest p) = Some p
    /\ resolves builtins packages (Package.profile p) r /\ p' = with_profile p r.

(** Entries whose ready packages are of the set, with those of [kept] among them. *)
Definition ready_among (packages : packages) (kept : Package.ValidatedProfilePackage -> Prop)
    (entries : list ProfileStoreEntry) : Prop :=
  (forall p, Ready p ∈ entries -> ready_from packages p)
  /\ forall p, kept p -> Ready p ∈ entries.

(** The ready entries that a set of packages gives: none has a fallback to nothing; one of
    the set that is not ready has an entry with a fallback to nothing that it has in a
    catalog of it and all that are ready; and packages whose fallbacks are there in every
    catalog with all of them are ready. *)
Record ready_part (packages : packages) (entries : list ProfileStoreEntry) : Prop := {
  ready_source : forall p, Ready p ∈ entries -> ready_from packages p;
  ready_fallbacks : forall p, Ready p ∈ entries ->
    fallbacks_found (from_store builtins entries) (Package.profile p);
  ready_dropped : forall p, ready_from packages p -> Ready p ∈ entries
    \/ exists others error, ready_among packages (fun q => q = p \/ Ready q ∈ entries) others
         /\ dangles (from_store builtins others) (Package.profile p) error
         /\ Invalid (Manifest.id (Package.manifest p)) (Package.root p) error ∈ entries;
  ready_greatest : forall kept : Package.ValidatedProfilePackage -> Prop,
    (forall p, kept p -> ready_from packages p) ->
    (forall others, ready_among packages kept others -> forall p, kept p ->
       fallbacks_found (from_store builtins others) (Package.profile p)) ->
    forall p, kept p -> Ready p ∈ entries;
}.

(** The store that a directory gives: its entries in order; every package directory
    accounted for; and ready the part without fallbacks to nothing of the greatest set of
    accepted packages for this platform that support each other, with the profiles
    resolved in it. *)
Record refreshed_store (names : list string) (entries : list ProfileStoreEntry) : Prop := {
  store_sorted : Sorted String.le (map entry_id entries);
  store_accounts :
    accounts_for names (fun id => exists entry, entry ∈ entries /\ entry_id entry = id) entries;
  store_ready : exists loaded packages,
    accepted_from names loaded /\ self_supporting loaded packages
    /\ (forall packages', self_supporting loaded packages' -> packages' ⊆ packages)
    /\ ready_part packages entries;
}.

Lemma resolves_unique packages profile r r' :
  resolves builtins packages profile r -> resolves builtins packages profile r' -> r = r'.
Proof.
  intros [f H] [f' H'].
  apply (resolves_from_fuel _ _ (f `max` f')) in H; [|lia].
  apply (resolves_from_fuel _ _ (f `max` f')) in H'; [|lia]. congruence.
Qed.

Lemma elem_of_merged resolved (invalid : list ProfileStoreEntry) entry :
  entry ∈ merge_sort entry_le (map Ready (Ordered.values resolved) ++ invalid)
  <-> (exists id p, resolved !! id = Some p /\ entry = Ready p) \/ entry ∈ invalid.
Proof.
  rewrite merge_sort_Permutation, elem_of_app, list_elem_of_fmap.
  setoid_rewrite elem_of_values. naive_solver.
Qed.

(** The entries before the loop over the fallbacks: ready is what the packages give. *)
Lemma merged_ready names loaded packages resolved invalid :
  accepted_from names loaded -> packages ⊆ loaded ->
  resolved_packages builtins packages resolved ->
  Forall (fun entry => is_ready entry = false) invalid ->
  let merged := merge_sort entry_le (map Ready (Ordered.values resolved) ++ invalid) in
  (forall p, Ready p ∈ merged <-> ready_from packages p) /\ ready_distinct merged.
Proof.
  intros Hacc Hsub Hres Hinv.
  assert (forall id p, packages !! id = Some p -> id = Manifest.id (Package.manifest p)) as Hkey
    by (intros id p Hp; by destruct (Hacc id p (lookup_weaken _ _ _ _ Hp Hsub))).
  assert (forall p, Ready p ∈ merge_sort entry_le (map Ready (Ordered.values resolved) ++ invalid)
    <-> exists id, resolved !! id = Some p) as Hmerged.
  { intros p. rewrite elem_of_merged. split; [|intros [id H]; left; eauto].
    intros [(id & q & Hq & [= ->])|Hin]; [by exists id|].
    by apply (proj1 (Forall_forall _ _) Hinv) in Hin. }
  assert (forall id p', resolved !! id = Some p' -> exists p r, packages !! id = Some p
    /\ resolves builtins packages (Package.profile p) r /\ p' = with_profile p r) as Hfrom.
  { intros id p' Hp'. specialize (Hres id). destruct (packages !! id) as [p|]; [|congruence].
    destruct Hres as (r & Hr & Hid). exists p, r. split_and!; congruence. }
  split.
  - intros p'. rewrite Hmerged. split.
    + intros [id (p & r & Hp & Hr & ->)%Hfrom]. exists p, r. by rewrite <- (Hkey id p Hp).
    + intros (p & r & Hp & Hr & ->). exists (Manifest.id (Package.manifest p)).
      specialize (Hres (Manifest.id (Package.manifest p))). rewrite Hp in Hres.
      destruct Hres as (r' & Hr' & ->). by rewrite (resolves_unique _ _ _ _ Hr Hr').
  - intros p q [i Hp]%Hmerged [j Hq]%Hmerged Hid.
    destruct (Hfrom i p Hp) as (p0 & r & Hp0 & _ & ->).
    destruct (Hfrom j q Hq) as (q0 & r' & Hq0 & _ & ->). cbn in Hid.
    apply Hkey in Hp0, Hq0. congruence.
Qed.

(** What the loop over the parents and the one over the fallbacks make of a state. *)
Lemma store_loops_spec names loaded packages resolved invalid entries :
  accepted_from names loaded -> packages ⊆ loaded ->
  resolved_packages builtins packages resolved -> Forall (fun entry => is_ready entry = false) invalid ->
  Forall2 kept_or_invalidated
    (merge_sort entry_le (map Ready (Ordered.values resolved) ++ invalid)) entries ->
  Sorted String.le (map entry_id entries)
  /\ (forall id path error, Invalid id path error ∈ invalid -> Invalid id path error ∈ entries)
  /\ forall id, is_Some (packages !! id) -> exists entry, entry ∈ entries /\ entry_id entry = id.
Proof.
  intros Hacc Hsub Hres Hinv Hk. destruct (kept_elem _ _ Hk) as (Hids & Hkeep & _).
  split_and!.
  - rewrite Hids. apply (Sorted_fmap entry_id entry_le); [by intros ??|].
    apply Sorted_merge_sort. intros a b. unfold entry_le. apply total, _.
  - intros id path error H. apply Hkeep, elem_of_merged. by right.
  - intros id [p Hp]. specialize (Hres id). rewrite Hp in Hres. destruct Hres as (r & Hr & Hid).
    destruct (Hacc id p (lookup_weaken _ _ _ _ Hp Hsub)) as [-> _].
    assert (Manifest.id (Package.manifest p) ∈ map entry_id entries) as Hin.
    { rewrite Hids. apply list_elem_of_fmap. exists (Ready (with_profile p r)). split; [done|].
      apply elem_of_merged. left. eauto. }
    apply list_elem_of_fmap in Hin as (entry & ? & ?). by exists entry.
Qed.

(** What the loop over the fallbacks leaves of the entries of a set of packages. *)
Lemma ready_part_of packages merged :
  (forall p, Ready p ∈ merged <-> ready_from packages p) -> ready_distinct merged ->
  exists entries, fallback_loop builtins (S (ready_count merged)) merged = Some entries
    /\ Forall2 kept_or_invalidated merged entries /\ ready_part packages entries.
Proof.
  intros Hready Hd. destruct (fallback_loop_spec builtins (S (ready_count merged)) merged)
    as (entries & Ef & Hk & Hfall & Hdropped & Hmax); [lia | done|].
  exists entries. split_and!; [done..|].
  destruct (kept_elem _ _ Hk) as (_ & _ & Hsub).
  split; [by intros p Hp%Hsub%Hready | done | |].
  - intros p Hp%Hready. destruct (Hdropped p Hp) as [?|(mid & error & [Ha Hb] & Hm & Hdang & Hinv)];
      [by left|]. right. exists mid, error. split_and!; [|done..].
    destruct (kept_elem _ _ Ha) as (_ & _ & Hma). destruct (kept_elem _ _ Hb) as (_ & _ & Hmb).
    split; [by intros q Hq%Hma%Hready|]. intros q [-> | Hq]; [done | by apply Hmb].
  - intros kept Hkept Hstable. apply Hmax.
    + intros p Hp. by apply Hready, Hkept.
    + intros mid Hmid Hin. apply Hstable. split; [|done].
      destruct (kept_elem _ _ Hmid) as (_ & _ & Hm). by intros p Hp%Hm%Hready.
Qed.

(** The entry that an id has after a refresh. *)
Lemma known_id_has_entry loaded candidates packages resolved invalid0 invalid invalid' entries names :
  accepted_from names loaded ->
  drop_unsupported (loaded, invalid0) = (candidates, invalid) ->
  packages ⊆ candidates -> resolved_packages builtins packages resolved ->
  adds_invalid invalid invalid' -> Forall (fun entry => is_ready entry = false) invalid' ->
  (forall id p, candidates !! id = Some p -> packages !! id = None ->
     exists error, Invalid id (Package.root p) error ∈ invalid') ->
  Forall2 kept_or_invalidated
    (merge_sort entry_le (map Ready (Ordered.values resolved) ++ invalid')) entries ->
  forall id, is_Some (loaded !! id) -> exists entry, entry ∈ entries /\ entry_id entry = id.
Proof.
  intros Hacc Hdrop Hsub Hres Hadd Hinv Hout Hk id [p Hp].
  destruct (drop_unsupported_spec _ _ _ _ Hdrop) as (Hc & _ & Hun).
  assert (candidates ⊆ loaded) as Hcl by (apply map_subseteq_spec; intros i q Hq; by apply Hc in Hq as []).
  destruct (store_loops_spec names loaded packages resolved invalid' entries)
    as (_ & Hkeep & Hentry); try done; [by etrans|].
  destruct (package_supports_current_platform p) eqn:Hs.
  - destruct (packages !! id) as [q|] eqn:Hq; [apply Hentry; by eexists|].
    destruct (Hout id p) as [error He]; [by apply Hc | done|].
    exists (Invalid id (Package.root p) error). by split; [apply Hkeep|].
  - exists (Invalid id (Package.root p) unsupported_platform). split; [|done].
    apply Hkeep, (adds_invalid_subseteq _ _ Hadd). by apply Hun.
Qed.

End Refreshed.

(** ** A sample store *)

Module StoreSamples.
#[local] Existing Instances sample_semver sample_text.

Definition manifest_of (profile : Profile.SemanticProfile) : Manifest.ProfilePackageManifest := {|
  Manifest.schema_version := 2; Manifest.kind := PACKAGE_KIND;
  Manifest.id := Profile.id profile; Manifest.version := Profile.profile_version profile;
  Manifest.display_name := Profile.display_name profile; Manifest.description := "A profile";
  Manifest.license := "MIT";
  Manifest.artifacts := [{| Artifact.artifact_type := SemanticProfileArtifact;
                            Artifact.path := "profile.json" |}];
  Manifest.requires := ">=1"; Manifest.platforms := [] |}.

(** A file of a package is the name of its profile. *)
Definition profile_of (content : string) : Profile.SemanticProfile :=
  if content == "child" then sample_child else sample_base.

#[local] Instance store_format : PackageFormat := {
  manifest_from_slice content := Ok (manifest_of (profile_of content));
  profile_from_str content := Ok (profile_of content);
  from_utf8 bytes := Ok bytes;
  current_version := "1";
  version_to_string v := v;
  current_platform := Linux;
}.

(** The store has the two names of the packages, a directory that is not a package, and a
    file; [base] is the package in the directory [maya]. *)
Definition store_files (base : string) : Files.Files :=
  let lstat := fun path : string =>
    if path ∈? ["/store"; "/store/2024"; "/store/maya"; "/store/notes"; "/store/.tmp"]
    then Ok sample_directory
    else if path ∈? ["/store/2024/profile-package.json"; "/store/2024/profile.json";
                     "/store/maya/profile-package.json"; "/store/maya/profile.json";
                     "/store/readme.md"]
    then Ok (sample_file 10)
    else Err "not found" in
  {| Files.canonicalize path := Ok path;
     Files.symlink_metadata := lstat;
     Files.metadata := lstat;
     Files.read_dir path :=
       if path == "/store" then Ok [Ok "readme.md"; Ok "notes"; Ok "maya"; Ok ".tmp"; Ok "2024"]
       else Ok [];
     Files.read path := Ok (if starts_with "/store/2024/" path then "child" else base) |}.

(** The entries with their ids and whether they are ready. *)
Definition outline (entries : list ProfileStoreEntry) : list (string * bool) :=
  map (fun entry => (entry_id entry, is_ready entry)) entries.


(** Of two directories with one identity the later in order replaces the earlier, and is
    the one that is reported as the duplicate. *)
Lemma duplicate_identity_replaces_the_earlier :
  exists package, refresh (store_files "child") [sample_base] 2 "/store"
    = Some (Ok tt, [Invalid "maya" "/store/maya" "duplicate package identity";
        Ready package;
        Invalid "notes" "/store/notes"
          "profile package I/O failed at /store/notes/profile-package.json: not found"])
  /\ Package.root package = "/store/maya".
Proof. eexists. split; vm_compute; reflexivity. Qed.
End StoreSamples.
