(* ===== verification/ProfileCatalog.v ===== *)
(** * The selection of a profile for a window ([crates/dcc-cua-profiles/src/catalog.rs])

    The profiles of the catalog that match a window are ordered by how narrow they are; one
    is selected if no other is as narrow. *)

From stdpp Require Import sorting.
From S2P Require Import Prelude Records RustStr Ordered SemanticProfiles ProfilePackages ProfileStore.

(** ** Data *)

Module ProfileMatchCandidate.
Record ProfileMatchCandidate : Type := {
  id : string;
  profile_version : string;
  application : Application.ProfileApplication;
  extends : option Reference.ProfileReference;
  source : ProfileSource;
  version_specific : bool;
}.
End ProfileMatchCandidate.
Module Candidate := ProfileMatchCandidate.

Module ProfileMatch.
Record ProfileMatch : Type := {
  application_name : string;
  window_title : string;
  selected : option string;
  ambiguous : bool;
  candidates : list Candidate.ProfileMatchCandidate;
}.
End ProfileMatch.

(** ** Operations *)

Definition source_rank (source : ProfileSource) : Z :=
  match source with Builtin => 0 | User => 1 end.

Abbreviation ranked := (CatalogProfile.CatalogProfile * bool)%type.

Definition versions_len (entry : CatalogProfile.CatalogProfile) : Z :=
  len (Application.versions (Profile.application (CatalogProfile.profile entry))).

Definition entry_profile_id (entry : CatalogProfile.CatalogProfile) : string :=
  Profile.id (CatalogProfile.profile entry).

(** [Ordering::then_with]. *)
Definition then_with (first second : comparison) : comparison :=
  match first with Eq => second | _ => first end.

(** The comparison that sorts the candidates. *)
Definition candidate_cmp (left right : ranked) : comparison :=
  then_with (Z.b2z right.2 ?= Z.b2z left.2)
    (then_with (versions_len left.1 ?= versions_len right.1)
      (then_with (source_rank (CatalogProfile.source right.1)
                    ?= source_rank (CatalogProfile.source left.1))
        (String.compare (entry_profile_id left.1) (entry_profile_id right.1)))).

Definition candidate_le (left right : ranked) : Prop := candidate_cmp left right <> Gt.
#[export] Instance candidate_le_dec : RelDecision candidate_le.
Proof. intros a b. unfold candidate_le. apply _. Defined.

Definition specificity (candidate : ranked) : bool * Z := (candidate.2, versions_len candidate.1).

(** [Iterator::take_while]. *)
Fixpoint take_while {A} (f : A -> bool) (l : list A) : list A :=
  match l with
  | [] => []
  | a :: l => if f a then a :: take_while f l else []
  end.

Definition candidate_of (candidate : ranked) : Candidate.ProfileMatchCandidate :=
  let profile := CatalogProfile.profile candidate.1 in {|
  Candidate.id := Profile.id profile;
  Candidate.profile_version := Profile.profile_version profile;
  Candidate.application := Profile.application profile;
  Candidate.extends := Profile.extends profile;
  Candidate.source := CatalogProfile.source candidate.1;
  Candidate.version_specific := candidate.2 |}.

Section Matching.
Context `{SV : SemVer} `{PT : ProfileText}.

Definition matching (self : ProfileCatalog) (application_name window_title : string)
    : list ranked :=
  map (fun entry => (entry, negb (versions_len entry =? 0)))
    (List.filter (fun entry =>
       matches_window (CatalogProfile.profile entry) application_name window_title) self).

Definition match_window (self : ProfileCatalog) (application_name window_title : string)
    : ProfileMatch.ProfileMatch :=
  let candidates := merge_sort candidate_le (matching self application_name window_title) in
  let top_specificity := option_map specificity (head candidates) in
  let top_count :=
    match top_specificity with
    | None => 0
    | Some top => len (take_while (fun candidate => specificity candidate == top) candidates)
    end in
  {| ProfileMatch.application_name := application_name;
     ProfileMatch.window_title := window_title;
     ProfileMatch.selected :=
       if top_count =? 1
       then option_map (fun candidate : ranked => entry_profile_id candidate.1) (head candidates)
       else None;
     ProfileMatch.ambiguous := 1 <? top_count;
     ProfileMatch.candidates := map candidate_of candidates |}.
End Matching.

(** ** The order of the candidates *)

(** The reference: the one that names fewer versions, if it names any. *)
Definition narrower (a b : CatalogProfile.CatalogProfile) : Prop :=
  0 < versions_len a /\ (versions_len b = 0 \/ versions_len a < versions_len b).

Definition ranking (candidate : ranked) : Prop :=
  candidate.2 = negb (versions_len candidate.1 =? 0).

Lemma candidate_le_spec a b :
  candidate_le a b
  <-> Z.b2z b.2 < Z.b2z a.2 \/ Z.b2z b.2 = Z.b2z a.2
      /\ (versions_len a.1 < versions_len b.1 \/ versions_len a.1 = versions_len b.1
      /\ (source_rank (CatalogProfile.source b.1) < source_rank (CatalogProfile.source a.1)
          \/ source_rank (CatalogProfile.source b.1) = source_rank (CatalogProfile.source a.1)
      /\ String.le (entry_profile_id a.1) (entry_profile_id b.1))).
Proof.
  unfold candidate_le, candidate_cmp, then_with, String.le, String.leb.
  destruct (Z.compare_spec (Z.b2z b.2) (Z.b2z a.2)); [|intuition (lia || congruence)..].
  destruct (Z.compare_spec (versions_len a.1) (versions_len b.1)); [|intuition (lia || congruence)..].
  destruct (Z.compare_spec (source_rank (CatalogProfile.source b.1))
    (source_rank (CatalogProfile.source a.1))); [|intuition (lia || congruence)..].
  destruct (String.compare _ _); cbn; intuition (done || lia || congruence).
Qed.

#[export] Instance candidate_le_trans : Transitive candidate_le.
Proof.
  intros a b c. rewrite !candidate_le_spec. intros Hab Hbc.
  assert (String.le (entry_profile_id a.1) (entry_profile_id b.1) ->
    String.le (entry_profile_id b.1) (entry_profile_id c.1) ->
    String.le (entry_profile_id a.1) (entry_profile_id c.1)) by (intros; by etrans).
  intuition lia.
Qed.

Lemma candidate_cmp_antisym a b : candidate_cmp b a = CompOpp (candidate_cmp a b).
Proof.
  unfold candidate_cmp. rewrite (Z.compare_antisym (Z.b2z a.2)),
    (Z.compare_antisym (versions_len a.1)), (Z.compare_antisym (source_rank _)),
    (String.compare_antisym (entry_profile_id a.1)).
  by repeat destruct (_ ?= _); destruct (String.compare _ _).
Qed.

#[export] Instance candidate_le_total : Total candidate_le.
Proof.
  intros a b. unfold candidate_le. rewrite (candidate_cmp_antisym a b).
  destruct (candidate_cmp a b); auto.
Qed.

(** What comes first is as narrow as any. *)
Lemma candidate_le_narrow a b :
  ranking a -> ranking b -> candidate_le a b -> ~ narrower b.1 a.1.
Proof.
  unfold ranking, narrower. rewrite candidate_le_spec. intros -> -> H.
  assert (0 <= versions_len a.1) by (unfold versions_len, len; lia).
  destruct (versions_len a.1 =? 0) eqn:Ha, (versions_len b.1 =? 0) eqn:Hb; simpl in *; lia.
Qed.

Lemma specificity_eq a b :
  ranking a -> ranking b -> specificity a = specificity b <-> versions_len a.1 = versions_len b.1.
Proof.
  unfold ranking, specificity. intros -> ->. split; [by intros [= _ ->] | by intros ->].
Qed.

(** Two that are not as narrow as each other. *)
Lemma narrower_total a b : versions_len a = versions_len b \/ narrower a b \/ narrower b a.
Proof.
  unfold narrower. assert (0 <= versions_len a /\ 0 <= versions_len b)
    by (unfold versions_len, len; lia). lia.
Qed.

(** The candidates as narrow as the first are its neighbours. *)
Lemma take_while_filter top l :
  ranking top -> Forall ranking l -> Forall (candidate_le top) l -> StronglySorted candidate_le l ->
  take_while (fun candidate => specificity candidate == specificity top) l
  = List.filter (fun candidate => specificity candidate == specificity top) l.
Proof.
  intros Htop Hrank Hle Hsorted. revert Hrank Hle.
  induction Hsorted as [|a l Hsorted IH Ha]; intros Hrank Hle; [done|]. cbn.
  apply Forall_cons in Hrank as [Hra Hrank]. apply Forall_cons in Hle as [Hta Hle].
  case_bool_decide as Hs; [f_equal; by apply IH|]. symmetry. apply filter_none.
  intros c Hc. apply bool_decide_eq_false. intros Hs'. apply Hs.
  assert (ranking c) as Hrc by (by eapply Forall_forall in Hrank).
  assert (candidate_le a c) as Hac by (by eapply Forall_forall in Ha).
  rewrite specificity_eq in Hs' |- * by done.
  pose proof (candidate_le_narrow _ _ Htop Hra Hta). pose proof (candidate_le_narrow _ _ Hra Hrc Hac).
  destruct (narrower_total top.1 a.1) as [|[|]]; [done| |done]. unfold narrower in *. lia.
Qed.

(** ** The profiles of a catalog are different ones *)

Lemma catalog_entries_keyed source profiles catalog :
  map_Forall (fun id entry => entry_profile_id entry = id) catalog ->
  map_Forall (fun id entry => entry_profile_id entry = id) (catalog_entries source profiles catalog).
Proof.
  unfold catalog_entries. revert catalog.
  induction profiles as [|profile profiles IH]; intros catalog H; cbn [fold_left]; [done|].
  apply IH. by apply map_Forall_insert_2.
Qed.

Lemma values_NoDup (m : gmap string CatalogProfile.CatalogProfile) :
  map_Forall (fun id entry => entry_profile_id entry = id) m -> NoDup (Ordered.values m).
Proof.
  intros H. apply (NoDup_fmap_1 entry_profile_id).
  replace (entry_profile_id <$> Ordered.values m) with (Ordered.keys m); [apply NoDup_keys|].
  unfold Ordered.keys, Ordered.values. rewrite <- list_fmap_compose. apply list_fmap_ext.
  intros i [k entry] Hin%list_elem_of_lookup_2%elem_of_entries. symmetry. exact (H k entry Hin).
Qed.

Lemma from_store_NoDup builtins entries : NoDup (from_store builtins entries).
Proof.
  apply values_NoDup, catalog_entries_keyed, catalog_entries_keyed, map_Forall_empty.
Qed.

(** ** Selection *)

Section Selection.
Context `{SV : SemVer} `{PT : ProfileText}.
Context (catalog : ProfileCatalog) (application_name window_title : string).

Definition window_matches (entry : CatalogProfile.CatalogProfile) : Prop :=
  entry ∈ catalog
  /\ matches_window (CatalogProfile.profile entry) application_name window_title = true.

Definition with_rank (entry : CatalogProfile.CatalogProfile) : ranked :=
  (entry, negb (versions_len entry =? 0)).

Definition candidates : list ranked :=
  merge_sort candidate_le (matching catalog application_name window_title).

Lemma elem_of_candidates c : c ∈ candidates <-> exists e, window_matches e /\ c = with_rank e.
Proof.
  unfold candidates, matching, window_matches. rewrite merge_sort_Permutation, list_elem_of_fmap.
  split.
  - intros (e & -> & Hin). rewrite list_elem_of_In, filter_In, <- list_elem_of_In in Hin. by exists e.
  - intros (e & Hin & ->). exists e. split; [done|].
    by rewrite list_elem_of_In, filter_In, <- list_elem_of_In.
Qed.

Lemma candidates_NoDup : NoDup catalog -> NoDup candidates.
Proof.
  intros H. unfold candidates, matching. rewrite merge_sort_Permutation.
  apply NoDup_fmap_2; [by intros a b [=]|]. apply NoDup_ListNoDup, List.NoDup_filter.
  by apply NoDup_ListNoDup.
Qed.

Lemma candidates_ranking : Forall ranking candidates.
Proof. apply Forall_forall. by intros c (e & _ & ->)%elem_of_candidates. Qed.

(** The first candidate, and how many are as narrow as it is. *)
Lemma match_window_cons top rest :
  candidates = top :: rest ->
  let ties := List.filter (fun c => specificity c == specificity top) rest in
  ProfileMatch.selected (match_window catalog application_name window_title)
    = (if ties == [] then Some (entry_profile_id top.1) else None)
  /\ ProfileMatch.ambiguous (match_window catalog application_name window_title)
     = negb (ties == []).
Proof.
  intros Hl ties. unfold match_window. fold candidates. rewrite Hl. cbn [head option_map].
  pose proof (StronglySorted_merge_sort candidate_le
    (matching catalog application_name window_title)) as Hsorted.
  fold candidates in Hsorted. rewrite Hl in Hsorted. apply StronglySorted_cons in Hsorted as [Hle Hs].
  pose proof candidates_ranking as Hr. rewrite Hl in Hr. apply Forall_cons in Hr as [Htop Hr].
  cbn [take_while]. rewrite bool_decide_eq_true_2 by done.
  rewrite (take_while_filter top rest Htop Hr Hle Hs). fold ties. cbn.
  destruct ties; cbn; [done|]. unfold len. cbn [length].
  split; [|by apply Z.ltb_lt; lia]. destruct (_ =? 1) eqn:E; [lia | done].
Qed.

Lemma candidates_nil : candidates = [] -> forall e, ~ window_matches e.
Proof.
  intros Hl e He. assert (with_rank e ∈ candidates) as Hin by (apply elem_of_candidates; by exists e).
  rewrite Hl in Hin. by inversion Hin.
Qed.

(** The first candidate matches and none is narrower; the others are narrower than none of
    its ties, which are none exactly if it is the narrowest. *)
Lemma top_candidate top rest :
  NoDup catalog -> candidates = top :: rest ->
  let ties := List.filter (fun c => specificity c == specificity top) rest in
  window_matches top.1 /\ (forall e, window_matches e -> ~ narrower e top.1)
  /\ (forall e, window_matches e -> e = top.1
        \/ e <> top.1 /\ (narrower top.1 e \/ with_rank e ∈ ties))
  /\ forall c, c ∈ ties -> window_matches c.1 /\ c.1 <> top.1 /\ versions_len c.1 = versions_len top.1.
Proof.
  intros Hnd Hl ties. pose proof (candidates_NoDup Hnd) as Hcnd. rewrite Hl in Hcnd.
  apply NoDup_cons in Hcnd as [Hfresh _].
  assert (forall c, c ∈ top :: rest <-> exists e, window_matches e /\ c = with_rank e) as Hin
    by (intros c; rewrite <- Hl; apply elem_of_candidates).
  destruct (proj1 (Hin top)) as (e0 & He0 & ->); [by left|]. cbn [with_rank fst] in *.
  pose proof (StronglySorted_merge_sort candidate_le
    (matching catalog application_name window_title)) as Hsorted.
  fold candidates in Hsorted. rewrite Hl in Hsorted. apply StronglySorted_cons in Hsorted as [Hle _].
  assert (forall e, window_matches e -> e = e0 \/ with_rank e ∈ rest) as Hrest.
  { intros e He. destruct (proj1 (elem_of_cons _ _ _) (proj2 (Hin (with_rank e))
      (ex_intro _ e (conj He eq_refl)))) as [[= ?]|]; auto. }
  assert (forall e, window_matches e -> ~ narrower e e0) as Hmin.
  { intros e He. destruct (Hrest e He) as [->|Hr]; [unfold narrower; lia|].
    apply (candidate_le_narrow (with_rank e0) (with_rank e)); [done..|].
    by apply (proj1 (Forall_forall _ _) Hle). }
  assert (forall c, c ∈ ties <-> c ∈ rest /\ specificity c = specificity (with_rank e0)) as Hties.
  { intros c. unfold ties. by rewrite list_elem_of_In, filter_In, <- list_elem_of_In, bool_decide_eq_true. }
  split_and!; [done..| |].
  - intros e He. destruct (Hrest e He) as [->|Hr]; [by left|]. right.
    split; [by intros ->|]. destruct (narrower_total e0 e) as [Heq|[|Hn]];
      [|by left | by destruct (Hmin e)].
    right. apply Hties. split; [done|]. by apply specificity_eq.
  - intros c [Hc Hs]%Hties. destruct (proj1 (Hin c)) as (e & He & ->); [by right|].
    apply specificity_eq in Hs; [|done..]. split_and!; [done | intros Heq; cbn in Heq; subst e; done | done].
Qed.
End Selection.

Section Catalog.
Context `{SV : SemVer} `{PT : ProfileText}.

(** C27: matching a window selects the narrowest profile, or reports a tie.  A profile is
    selected exactly if it matches and is narrower than every other profile of the catalog
    that does: it names versions, and the other none or more of them.  The match is
    ambiguous exactly if two profiles that match are as narrow as each other and none is
    narrower, and then none is selected.  The candidates are exactly the profiles that
    match, with whether they name versions. *)
Theorem narrowest_profile_is_selected builtins entries application_name window_title :
  let catalog := from_store builtins entries in
  let matches := window_matches catalog application_name window_title in
  let answer := match_window catalog application_name window_title in
  (forall id, ProfileMatch.selected answer = Some id
     <-> exists e, matches e /\ entry_profile_id e = id
           /\ forall other, matches other -> other <> e -> narrower e other)
  /\ (ProfileMatch.ambiguous answer = true
     <-> exists a b, a <> b /\ matches a /\ matches b /\ versions_len a = versions_len b
           /\ forall c, matches c -> ~ narrower c a)
  /\ forall candidate, candidate ∈ ProfileMatch.candidates answer
     <-> exists e, matches e /\ candidate = candidate_of (with_rank e).
Proof.
  intros catalog matches answer.
  assert (forall candidate, candidate ∈ ProfileMatch.candidates answer
     <-> exists e, matches e /\ candidate = candidate_of (with_rank e)) as Hcandidates.
  { intros c. unfold answer, match_window. fold (candidates catalog application_name window_title).
    cbn. rewrite list_elem_of_fmap. setoid_rewrite elem_of_candidates. naive_solver. }
  destruct (candidates catalog application_name window_title) as [|top rest] eqn:Hl.
  { pose proof (candidates_nil _ _ _ Hl) as Hno.
    unfold answer, match_window in *. fold (candidates catalog application_name window_title) in *.
    rewrite Hl in *. cbn in *. split_and!; [| |done].
    - intros id. split; [done|]. by intros (e & He%Hno & _).
    - split; [done|]. by intros (e & _ & _ & He%Hno & _). }
  destruct (match_window_cons _ _ _ _ _ Hl) as [Hsel Hamb].
  destruct (top_candidate _ _ _ _ _ (from_store_NoDup _ _) Hl) as (Htop & Hmin & Hothers & Hin).
  fold answer in Hsel, Hamb. fold catalog matches in Htop, Hmin, Hothers, Hin.
  rewrite Hsel, Hamb, negb_true_iff, bool_decide_eq_false.
  set (ties := List.filter _ _) in *. clearbody ties. split_and!; [| |done].
  - intros id. split.
    + case_bool_decide as Ht; [|done]. intros [= <-]. exists top.1. rewrite Ht in Hothers. set_solver.
    + intros (e & He & <- & Hall). destruct (Hothers e He) as [->|(Hne & _)].
      * rewrite bool_decide_eq_true_2; [done|]. destruct ties as [|c ties]; [done|].
        destruct (Hin c) as (Hc & Hne & Heq); [by left|]. destruct (Hall c.1 Hc Hne) as [? [?|?]]; lia.
      * destruct (Hmin e He). by apply Hall.
  - split.
    + intros Ht. destruct ties as [|c ties]; [done|].
      destruct (Hin c) as (Hc & Hne & Heq); [by left|]. exists top.1, c.1. by split_and!.
    + intros (a & b & Hne & Ha & Hb & Heq & Hno) ->.
      assert (forall e, matches e -> e = top.1 \/ narrower top.1 e) as Hcase
        by (intros e He; destruct (Hothers e He) as [|(_ & [|H])]; [auto..|by inversion H]).
      destruct (Hcase a Ha) as [->|Hn]; [|by destruct (Hno top.1)].
      destruct (Hcase b Hb) as [->|[? [?|?]]]; [done | lia..].
Qed.
End Catalog.
