(* ===== verification/ProfileContext.v ===== *)
(** * The knowledge context of a profile ([crates/dcc-cua-profiles/src/context.rs])

    The documents of a package, and of a directory of the user, that apply to the
    identities and selectors of a request. *)

From S2P Require Import Prelude Records RustStr Json Platform BrowserEvidence Ordered SemanticProfiles ProfilePackages ProfileStore.

Definition USER_INDEX : string := "index.json".
Definition MAX_CONTEXT_BYTES : Z := 2 * 1024 * 1024.

(** ** Data *)

Abbreviation pairs := (gmap string string).

Module ProfileContextRequest.
Record ProfileContextRequest : Type := {
  profile_id : string;
  identities : pairs;
  selectors : pairs;
  knowledge_root : option string;
}.
End ProfileContextRequest.
Module ContextRequest := ProfileContextRequest.

Inductive ContextSelection : Type := NoSelection | Exact.
#[export] Instance ContextSelection_eq_dec : EqDecision ContextSelection.
Proof. solve_decision. Defined.

(** [index] and [path] are its provenance. *)
Module ContextDocument.
Record ContextDocument : Type := {
  id : string;
  document : value;
  index : string;
  path : string;
}.
End ContextDocument.

Module ProfileContext.
Record ProfileContext : Type := {
  schema_version : Z;
  profile_id : string;
  identities : pairs;
  selectors : pairs;
  documents : list ContextDocument.ContextDocument;
  selection : ContextSelection;
  requires_refresh : bool;
  warnings : list string;
}.
End ProfileContext.
Module Context := ProfileContext.

(** [serde_json] on a document and on the context that is returned. *)
Class ContextFormat : Type := {
  value_from_slice : string -> result string value;
  context_json_len : Context.ProfileContext -> result string Z;
}.

(** ** Checks *)

(** [for] with a state, whose body may return an error. *)
Fixpoint fold_result {A B E} (f : A -> B -> result E A) (a : A) (l : list B) : result E A :=
  match l with
  | [] => Ok a
  | b :: l => let? a := f a b in fold_result f a l
  end.

Definition portable_char (c : Z) : bool :=
  is_ascii_alphanumeric c || (c =? 45) || (c =? 95) || (c =? 46).

Definition validate_pairs (pairs : pairs) (label : string) : pkresult unit :=
  if existsb (fun '(key, value) =>
       str_is_empty key || str_is_empty value || negb (all_chars portable_char key))
       (Ordered.entries pairs)
  then invalid (label +:+ " must use a non-empty portable NAMESPACE=VALUE")
  else Ok tt.

Definition map_matches (required actual : pairs) : bool :=
  forallb (fun '(key, value) => actual !! key == Some value) (Ordered.entries required).

Definition object_strings (value : option value) (label : string) : pkresult pairs :=
  let? object := ok_or (value ≫= as_object)
    (PackageError.Invalid (label +:+ " must be an object")) in
  fold_result (fun pairs '(key, value) =>
    let? value := ok_or (as_str value)
      (PackageError.Invalid (label +:+ "." +:+ key +:+ " must be a string")) in
    Ok (<[key := value]> pairs)) ∅ object.

Definition required_string (value : value) (key label : string) : pkresult string :=
  ok_or (get value key ≫= as_str) (PackageError.Invalid (label +:+ " requires " +:+ key)).

Definition validate_owned_document (value : value) (profile_id label : string) : pkresult unit :=
  if get value "schemaVersion" ≫= as_u64 != Some 2
  then invalid (label +:+ " requires schemaVersion 2")
  else if get value "profileId" ≫= as_str != Some profile_id
  then invalid (label +:+ " profileId does not match " +:+ profile_id)
  else Ok tt.

(** [Path::starts_with]. *)
Definition path_starts_with (path root : string) : bool :=
  bool_decide (components root `prefix_of` components path).

(** ** Selection *)

Section Selection.
Context `{PT : ProfileText} `{CF : ContextFormat}.
Context (files : Files.Files).

Definition safe_child (root relative : string) : pkresult string :=
  check? validated_relative_path relative in
  let? root := on_io root (Files.canonicalize files root) in
  let candidate := path_join root relative in
  check? ensure_regular_file files candidate in
  let? path := on_io candidate (Files.canonicalize files candidate) in
  if negb (path_starts_with path root)
  then invalid "knowledge path escapes its owned root"
  else Ok path.

Definition read_json_file (path : string) : pkresult value :=
  let? metadata := on_io path (Files.symlink_metadata files path) in
  if FileMetadata.is_symlink metadata || negb (FileMetadata.is_file metadata)
     || (MAX_CONTEXT_BYTES <? FileMetadata.len metadata)
  then invalid ("context file is not a bounded regular file: " +:+ path)
  else
    let? bytes := read_bounded files path MAX_CONTEXT_BYTES in
    rmap_err PackageError.Invalid (value_from_slice bytes).

(** One entry of an index. *)
Definition select_entry (profile_id : string) (identities selectors : pairs)
    (index_path root : string) (state : list ContextDocument.ContextDocument * gset string)
    (entry : value) : pkresult (list ContextDocument.ContextDocument * gset string) :=
  let '(selected, document_ids) := state in
  let? entry_id := required_string entry "id" "context index document" in
  let? entry_identities := object_strings (get entry "identities") "identities" in
  let? entry_selectors := object_strings (get entry "selectors") "selectors" in
  if negb (map_matches entry_identities identities) || negb (map_matches entry_selectors selectors)
  then Ok state
  else if bool_decide (entry_id ∈ document_ids)
  then invalid ("conflicting context document id: " +:+ entry_id)
  else
  let? relative := required_string entry "path" "context index document" in
  let? path := safe_child root relative in
  let? document := read_json_file path in
  check? validate_owned_document document profile_id relative in
  if get document "id" ≫= as_str != Some entry_id
  then invalid (relative +:+ " id does not match index entry " +:+ entry_id)
  else
  let? fences := object_strings (get document "fences") "fences" in
  if (fences != entry_identities) || negb (map_matches fences identities)
  then invalid (relative +:+ " fences do not exactly match its index identities")
  else
  Ok (selected ++ [{| ContextDocument.id := entry_id; ContextDocument.document := document;
                      ContextDocument.index := index_path; ContextDocument.path := path |}],
      {[entry_id]} ∪ document_ids).

(** One index. *)
Definition select_index (profile_id : string) (identities selectors : pairs)
    (state : list ContextDocument.ContextDocument * gset string) (index : string * string)
    : pkresult (list ContextDocument.ContextDocument * gset string) :=
  let '(index_path, root) := index in
  let? index := read_json_file index_path in
  check? validate_owned_document index profile_id index_path in
  let? entries := ok_or (get index "documents" ≫= as_array)
    (PackageError.Invalid "context index documents must be an array") in
  fold_result (select_entry profile_id identities selectors index_path root) state entries.

Definition select_documents (profile_id : string) (identities selectors : pairs)
    (indexes : list (string * string)) : pkresult (list ContextDocument.ContextDocument) :=
  let? state := fold_result (select_index profile_id identities selectors) ([], ∅) indexes in
  Ok state.1.

(** [Path::is_file]. *)
Definition path_is_file (path : string) : bool :=
  match Files.metadata files path with
  | Ok metadata => FileMetadata.is_file metadata
  | Err _ => false
  end.

Definition context_indexes (package : Package.ValidatedProfilePackage)
    (knowledge_root : option string) : list (string * string) :=
  match knowledge_root with
  | Some knowledge_root =>
      let user_index := path_join knowledge_root USER_INDEX in
      if path_is_file user_index then [(user_index, knowledge_root)] else []
  | None => []
  end
  ++ map (fun artifact =>
       (path_join (Package.root package) (Artifact.path artifact), Package.root package))
       (List.filter (fun artifact => Artifact.artifact_type artifact == ContextIndex)
          (Manifest.artifacts (Package.manifest package))).

Definition context_of (request : ContextRequest.ProfileContextRequest)
    (documents : list ContextDocument.ContextDocument) : Context.ProfileContext :=
  let selection := match documents with [] => NoSelection | _ => Exact end in {|
  Context.schema_version := 2;
  Context.profile_id := ContextRequest.profile_id request;
  Context.identities := ContextRequest.identities request;
  Context.selectors := ContextRequest.selectors request;
  Context.documents := documents;
  Context.selection := selection;
  Context.requires_refresh := selection == NoSelection;
  Context.warnings :=
    if selection == NoSelection
    then ["no document matched every identity fence and selector"] else [] |}.

Definition select_context (entries : list ProfileStoreEntry)
    (request : ContextRequest.ProfileContextRequest) : pkresult Context.ProfileContext :=
  check? validate_pairs (ContextRequest.identities request) "identity" in
  check? validate_pairs (ContextRequest.selectors request) "selector" in
  let? found := package entries (ContextRequest.profile_id request) in
  let? package := ok_or found (PackageError.NotInstalled (ContextRequest.profile_id request)) in
  let? documents := select_documents (ContextRequest.profile_id request)
    (ContextRequest.identities request) (ContextRequest.selectors request)
    (context_indexes package (ContextRequest.knowledge_root request)) in
  let context := context_of request documents in
  let? length := rmap_err PackageError.Invalid (context_json_len context) in
  if MAX_CONTEXT_BYTES <? length
  then invalid "profile context exceeds the 2 MiB output limit"
  else Ok context.
End Selection.

(** ** What is selected *)

Lemma map_matches_true required actual : map_matches required actual = true <-> required ⊆ actual.
Proof.
  unfold map_matches. rewrite forallb_forall, map_subseteq_spec. split.
  - intros H key value Hk. specialize (H (key, value)). cbn in H.
    rewrite <- list_elem_of_In, elem_of_entries, bool_decide_eq_true in H. by apply H.
  - intros H [key value]. rewrite <- list_elem_of_In, elem_of_entries, bool_decide_eq_true. apply H.
Qed.

Lemma validate_pairs_ok pairs label :
  validate_pairs pairs label = Ok tt
  <-> map_Forall (fun key value => key <> "" /\ value <> "" /\ all_chars portable_char key = true) pairs.
Proof.
  unfold validate_pairs. destruct (existsb _ _) eqn:E.
  - split; [done|]. intros H. apply existsb_exists in E as ([key value] & Hin & Hbad).
    apply list_elem_of_In, elem_of_entries in Hin. destruct (H key value Hin) as (H1 & H2 & H3).
    rewrite H3 in Hbad. by destruct key, value.
  - split; [|done]. intros _ key value Hk. apply not_true_iff_false in E. rewrite existsb_exists in E.
    destruct (all_chars portable_char key) eqn:Hc, key, value; try done; exfalso; apply E;
      eexists (_, _); (split; [by apply list_elem_of_In, elem_of_entries|]); cbn in *; by rewrite ?Hc.
Qed.

Section Selected.
Context `{PT : ProfileText} `{CF : ContextFormat}.
Context (files : Files.Files) (request : ContextRequest.ProfileContextRequest).

Abbreviation profile_id := (ContextRequest.profile_id request).
Abbreviation identities := (ContextRequest.identities request).
Abbreviation selectors := (ContextRequest.selectors request).

(** An entry of an index, with the index and its root. *)
Abbreviation indexed := (string * string * value)%type.

(** *** What the request asks for *)

(** A portable name has ASCII letters, digits, [-], [_] and [.] only. *)
Definition portable (key : string) : Prop :=
  key <> "" /\ Forall (fun c => 97 <= c <= 122 \/ 65 <= c <= 90 \/ 48 <= c <= 57
                          \/ c ∈ [45; 95; 46]) (chars key).

(** A regular file, and one of at most 2 MiB that is the document. *)
Definition regular (path : string) : Prop :=
  exists metadata, Files.symlink_metadata files path = Ok metadata
    /\ FileMetadata.is_symlink metadata = false /\ FileMetadata.is_file metadata = true.

Record holds_json (path : string) (document : value) : Prop := {
  json_regular : regular path;
  json_bounded : exists metadata, Files.symlink_metadata files path = Ok metadata
    /\ FileMetadata.len metadata <= 2 * 1024 * 1024;
  json_read : exists bytes, Files.read files path = Ok bytes
    /\ value_from_slice bytes = Ok document;
}.

(** A document of this profile. *)
Definition owned (document : value) : Prop :=
  get document "schemaVersion" ≫= as_u64 = Some 2
  /\ get document "profileId" ≫= as_str = Some profile_id.

(** An object of strings, of which the later of one name counts. *)
Definition strings_of (object : option value) (m : pairs) : Prop :=
  exists fields, object = Some (Object (map (fun '(key, s) => (key, Str s)) fields))
    /\ m = list_to_map (reverse fields).

(** The entry's identities and selectors, and whether all are among the request's. *)
Definition asks_for (entry : value) (ids sels : pairs) : Prop :=
  is_Some (get entry "id" ≫= as_str)
  /\ strings_of (get entry "identities") ids /\ strings_of (get entry "selectors") sels.

Definition applies (ids sels : pairs) : Prop := ids ⊆ identities /\ sels ⊆ selectors.

(** A document for an entry: of this profile, under the id and the fences of the entry,
    read from a regular file below the canonical root of its index. *)
Record document_for (entry : indexed) (d : ContextDocument.ContextDocument) : Prop := {
  document_id : get entry.2 "id" ≫= as_str = Some (ContextDocument.id d)
    /\ get (ContextDocument.document d) "id" ≫= as_str = Some (ContextDocument.id d);
  document_owner : owned (ContextDocument.document d);
  document_fences : exists ids, strings_of (get entry.2 "identities") ids
    /\ strings_of (get (ContextDocument.document d) "fences") ids;
  document_index : ContextDocument.index d = entry.1.1;
  document_file : exists relative names root,
    get entry.2 "path" ≫= as_str = Some relative
    /\ path_is_absolute relative = false /\ components relative = map Normal names
    /\ Files.canonicalize files entry.1.2 = Ok root
    /\ regular (path_join root relative)
    /\ Files.canonicalize files (path_join root relative) = Ok (ContextDocument.path d)
    /\ components root `prefix_of` components (ContextDocument.path d)
    /\ holds_json (ContextDocument.path d) (ContextDocument.document d);
}.

(** The documents for the entries that apply, in order. *)
Inductive chosen : list indexed -> list ContextDocument.ContextDocument -> Prop :=
| ChosenNone : chosen [] []
| ChosenOther entry entries documents ids sels :
    asks_for entry.2 ids sels -> ~ applies ids sels ->
    chosen entries documents -> chosen (entry :: entries) documents
| ChosenDocument entry entries document documents ids sels :
    asks_for entry.2 ids sels -> applies ids sels -> document_for entry document ->
    chosen entries documents -> chosen (entry :: entries) (document :: documents).

(** The indexes of a package with the user's before them, if it is there. *)
Record indexes_of (package : Package.ValidatedProfilePackage)
    (indexes : list (string * string)) : Prop := {
  indexes_order : exists user own, indexes = user ++ own
    /\ user = match ContextRequest.knowledge_root request with
              | Some root =>
                  match Files.metadata files (path_join root "index.json") with
                  | Ok metadata => if FileMetadata.is_file metadata
                      then [(path_join root "index.json", root)] else []
                  | Err _ => []
                  end
              | None => []
              end
    /\ own = omap (fun artifact =>
         match Artifact.artifact_type artifact with
         | ContextIndex => Some (path_join (Package.root package) (Artifact.path artifact),
                                 Package.root package)
         | _ => None
         end) (Manifest.artifacts (Package.manifest package));
}.

(** An index holds the entries. *)
Definition index_holds (index : string * string) (entries : list indexed) : Prop :=
  exists document values, holds_json index.1 document /\ owned document
    /\ get document "documents" = Some (Array values)
    /\ entries = map (fun value => (index, value)) values.

(** *** What the selection does *)

Abbreviation selection_state := (list ContextDocument.ContextDocument * gset string)%type.

Definition distinct (state : selection_state) : Prop :=
  NoDup (map ContextDocument.id state.1)
  /\ forall id, id ∈ state.2 <-> id ∈ map ContextDocument.id state.1.

Lemma portable_char_ok key :
  key <> "" -> all_chars portable_char key = true -> portable key.
Proof.
  intros Hk Hc. split; [done|]. unfold all_chars in Hc. rewrite forallb_forall in Hc.
  apply Forall_forall. intros c Hin%list_elem_of_In%Hc.
  unfold portable_char, is_ascii_alphanumeric, is_ascii_lower, is_ascii_upper,
    is_ascii_digit in Hin. rewrite !elem_of_cons. reflect_all. lia.
Qed.

Lemma validate_owned_document_ok v label :
  validate_owned_document v profile_id label = Ok tt -> owned v.
Proof. unfold validate_owned_document. by do 2 (case_bool_decide; [|done]). Qed.

Lemma object_strings_ok object label m :
  object_strings object label = Ok m -> strings_of object m.
Proof.
  unfold object_strings. intros H. apply rbind_ok in H as (fields & Ho%ok_or_ok & H).
  destruct object as [v|]; [|done]. cbn in Ho. destruct v; try done. injection Ho as ->.
  unfold strings_of.
  enough (forall start, fold_result (fun pairs '(key, value) =>
      let? value := ok_or (as_str value)
        (PackageError.Invalid (label +:+ "." +:+ key +:+ " must be a string")) in
      Ok (<[key := value]> pairs)) start fields = Ok m ->
    exists strings, fields = map (fun '(key, s) => (key, Str s)) strings
      /\ m = list_to_map (reverse strings) ∪ start) as Hall.
  { destruct (Hall ∅ H) as (strings & -> & ->). exists strings. by rewrite map_union_empty. }
  clear H. induction fields as [|[key v] fields IH]; intros start H; cbn in H.
  - injection H as ->. exists []. split; [done|]. rewrite reverse_nil. cbn. by rewrite (left_id_L ∅ (∪)).
  - apply rbind_ok in H as (m1 & H1 & H). apply rbind_ok in H1 as (s & Hs%ok_or_ok & [= <-]).
    apply as_str_some in Hs as ->. destruct (IH _ H) as (strings & -> & ->).
    exists ((key, s) :: strings). split; [done|].
    rewrite reverse_cons, list_to_map_app, <- map_union_assoc. f_equal. cbn.
    by rewrite insert_empty, insert_union_singleton_l.
Qed.

Lemma ensure_regular_ok path : ensure_regular_file files path = Ok tt -> regular path.
Proof.
  unfold ensure_regular_file. intros H. apply rbind_ok in H as (m & Hm%rmap_err_ok & H).
  apply guard_ok in H as [H _]. exists m. by reflect_all.
Qed.

Lemma read_json_file_ok path v : read_json_file files path = Ok v -> holds_json path v.
Proof.
  unfold read_json_file. intros H. apply rbind_ok in H as (m & Hm%rmap_err_ok & H).
  apply guard_ok in H as [Hr H]. apply rbind_ok in H as (bytes & Hb & Hv%rmap_err_ok).
  unfold MAX_CONTEXT_BYTES in *. reflect_all. split.
  - by exists m.
  - exists m. split; [done | lia].
  - unfold read_bounded in Hb. apply rbind_ok in Hb as (u & _ & Hb).
    apply rbind_ok in Hb as (m' & _ & Hb). apply guard_ok in Hb as [_ Hb%rmap_err_ok].
    by exists bytes.
Qed.

Lemma safe_child_ok root relative path :
  safe_child files root relative = Ok path ->
  exists names root', path_is_absolute relative = false /\ components relative = map Normal names
    /\ Files.canonicalize files root = Ok root' /\ regular (path_join root' relative)
    /\ Files.canonicalize files (path_join root' relative) = Ok path
    /\ components root' `prefix_of` components path.
Proof.
  unfold safe_child, path_starts_with. intros H.
  apply rbind_ok in H as (names & [Habs Hrel]%relative_ok & H).
  apply rbind_ok in H as (root' & Hroot & H).
  apply rbind_ok in H as ([] & Hreg%ensure_regular_ok & H).
  apply rbind_ok in H as (path' & Hpath & H).
  apply rmap_err_ok in Hroot, Hpath. case_bool_decide; [|done]. injection H as <-.
  by exists names, root'.
Qed.

(** A step chooses documents for the entries, under new ids. *)
Definition chooses (entries : list indexed) (before after : selection_state) : Prop :=
  (exists added, after.1 = before.1 ++ added /\ chosen entries added)
  /\ (distinct before -> distinct after).

Lemma chooses_nil state : chooses [] state state.
Proof. split; [|done]. exists []. split; [by rewrite app_nil_r | constructor]. Qed.

Lemma chosen_app entries entries' documents documents' :
  chosen entries documents -> chosen entries' documents' ->
  chosen (entries ++ entries') (documents ++ documents').
Proof.
  induction 1; intros H'; cbn; [done | by eapply ChosenOther; eauto|].
  by eapply ChosenDocument; eauto.
Qed.

Lemma chooses_app entries entries' a b c :
  chooses entries a b -> chooses entries' b c -> chooses (entries ++ entries') a c.
Proof.
  intros [(x & Hb & Hx) H1] [(y & Hc & Hy) H2]. split; [|by auto].
  exists (x ++ y). rewrite Hc, Hb, app_assoc. split; [done | by apply chosen_app].
Qed.

(** What [select_entry] asks of an entry that applies. *)
Lemma select_entry_document index_path root entry state state' ids sels :
  select_entry files profile_id identities selectors index_path root state entry = Ok state' ->
  object_strings (get entry "identities") "identities" = Ok ids ->
  object_strings (get entry "selectors") "selectors" = Ok sels -> applies ids sels ->
  exists d, document_for (index_path, root, entry) d
    /\ ContextDocument.id d ∉ state.2
    /\ state' = (state.1 ++ [d], {[ContextDocument.id d]} ∪ state.2).
Proof.
  destruct state as [selected document_ids]. unfold select_entry. intros H Hids Hsels [Hi Hs].
  apply rbind_ok in H as (entry_id & Hid%ok_or_ok & H).
  rewrite Hids, Hsels in H. cbn [rbind] in H.
  rewrite (proj2 (map_matches_true ids _) Hi), (proj2 (map_matches_true sels _) Hs) in H.
  cbn [negb orb] in H. case_bool_decide as Hfresh; [done|].
  apply rbind_ok in H as (relative & Hrel%ok_or_ok & H).
  apply rbind_ok in H as (path & (names & root' & Hsafe)%safe_child_ok & H).
  apply rbind_ok in H as (document & Hdoc%read_json_file_ok & H).
  apply rbind_ok in H as ([] & Ho%validate_owned_document_ok & H).
  case_bool_decide as Hdid; [|done].
  apply rbind_ok in H as (fences & Hfences%object_strings_ok & H).
  destruct (bool_decide (fences = ids)) eqn:Heq; [|done]. apply bool_decide_eq_true in Heq as ->.
  destruct (map_matches ids identities); [|done]. injection H as <-.
  apply object_strings_ok in Hids. exists {| ContextDocument.id := entry_id; ContextDocument.document := document;
    ContextDocument.index := index_path; ContextDocument.path := path |}.
  split; [|by split]. destruct Hsafe as (? & ? & ? & ? & ? & ?).
  split; cbn; [done | done | by exists ids | done | by exists relative, names, root'].
Qed.

Lemma select_entry_ok index_path root state entry state' :
  select_entry files profile_id identities selectors index_path root state entry = Ok state' ->
  chooses [(index_path, root, entry)] state state'.
Proof.
  intros H. assert (exists entry_id ids sels, get entry "id" ≫= as_str = Some entry_id
    /\ object_strings (get entry "identities") "identities" = Ok ids
    /\ object_strings (get entry "selectors") "selectors" = Ok sels
    /\ (~ applies ids sels -> state' = state)) as (entry_id & ids & sels & Hid & Hi & Hs & Hno).
  { destruct state as [selected document_ids]. unfold select_entry in H.
    apply rbind_ok in H as (entry_id & Hid%ok_or_ok & H).
    apply rbind_ok in H as (ids & Hids & H). apply rbind_ok in H as (sels & Hsels & H).
    exists entry_id, ids, sels. split_and!; [done..|]. intros Hno.
    destruct (map_matches ids identities) eqn:Hmi, (map_matches sels selectors) eqn:Hms;
      try (by injection H). apply map_matches_true in Hmi, Hms. by destruct Hno. }
  assert (asks_for entry ids sels) as Hasks
    by (split_and!; [by eexists | by eapply object_strings_ok..]).
  destruct (decide (ids ⊆ identities /\ sels ⊆ selectors)) as [Happ|Happ].
  - destruct (select_entry_document _ _ _ _ _ _ _ H Hi Hs Happ) as (d & Hd & Hfresh & ->).
    destruct state as [selected document_ids]. split.
    + exists [d]. split; [done|]. eapply ChosenDocument; [done..|constructor].
    + intros [Hnd Hids']. split; cbn in *; rewrite map_app.
      * apply NoDup_app. split_and!; [done | | apply NoDup_singleton].
        intros x Hx%Hids' ->%list_elem_of_singleton. done.
      * intros x. rewrite elem_of_app, <- Hids'. set_solver.
  - rewrite (Hno Happ). split; [|done]. exists []. split; [by rewrite app_nil_r|].
    eapply ChosenOther; [done..|constructor].
Qed.

Lemma fold_choose_ok {A} (step : selection_state -> A -> pkresult selection_state)
    (P : A -> list indexed -> Prop) (l : list A) state state' :
  (forall state a state', step state a = Ok state' ->
     exists entries, P a entries /\ chooses entries state state') ->
  fold_result step state l = Ok state' ->
  exists parts, Forall2 P l parts /\ chooses (List.concat parts) state state'.
Proof.
  intros Hstep. revert state. induction l as [|a l IH]; intros state H; cbn in *.
  - injection H as <-. exists []. split; [constructor | apply chooses_nil].
  - apply rbind_ok in H as (state1 & H1 & H).
    apply Hstep in H1 as (entries & Ha & H1). apply IH in H as (parts & Hl & H).
    exists (entries :: parts). split; [by constructor | by eapply chooses_app].
Qed.

Lemma select_index_ok state index state' :
  select_index files profile_id identities selectors state index = Ok state' ->
  exists entries, index_holds index entries /\ chooses entries state state'.
Proof.
  destruct index as [index_path root]. unfold select_index. intros H.
  apply rbind_ok in H as (v & Hv%read_json_file_ok & H).
  apply rbind_ok in H as ([] & Ho%validate_owned_document_ok & H).
  apply rbind_ok in H as (values & Hvalues%ok_or_ok & H).
  apply (fold_choose_ok _ (fun value part => part = [((index_path, root), value)])) in H
    as (parts & Hparts & H); [|intros ??? ?%select_entry_ok; eauto].
  exists (List.concat parts). split; [|done]. exists v, values. split_and!; [done..| |].
  - destruct (get v "documents") as [[]|]; try done. by injection Hvalues as ->.
  - clear - Hparts. induction Hparts as [|value part values parts -> _ IH]; [done|].
    cbn. by rewrite IH.
Qed.

Lemma context_indexes_are package :
  indexes_of package (context_indexes files package (ContextRequest.knowledge_root request)).
Proof.
  split. unfold context_indexes. eexists _, _. split; [reflexivity|]. split.
  - destruct (ContextRequest.knowledge_root request) as [kr|]; [|done]. unfold path_is_file.
    by destruct (Files.metadata files _).
  - induction (Manifest.artifacts (Package.manifest package)) as [|a l IH]; [done|]. cbn.
    by destruct (Artifact.artifact_type a); cbn; rewrite <- IH.
Qed.

(** What a context is. *)
Record selected_context (entries : list ProfileStoreEntry) (context : Context.ProfileContext)
    : Prop := {
  context_pairs : Forall (map_Forall (fun key value => portable key /\ value <> ""))
    [identities; selectors];
  (** The documents are the chosen ones of all the indexes of the package. *)
  context_documents : exists package indexes parts,
    List.find (fun entry => entry_id entry == profile_id) entries = Some (Ready package)
    /\ indexes_of package indexes /\ Forall2 index_holds indexes parts
    /\ chosen (concat parts) (Context.documents context);
  context_distinct : NoDup (map ContextDocument.id (Context.documents context));
  context_request : Context.schema_version context = 2
    /\ Context.profile_id context = profile_id
    /\ Context.identities context = identities /\ Context.selectors context = selectors;
  context_says : Context.documents context <> [] ->
    Context.selection context = Exact /\ Context.requires_refresh context = false
    /\ Context.warnings context = [];
  context_says_none : Context.documents context = [] ->
    Context.selection context = NoSelection /\ Context.requires_refresh context = true
    /\ Context.warnings context = ["no document matched every identity fence and selector"];
  context_bounded : exists length, context_json_len context = Ok length
    /\ length <= 2 * 1024 * 1024;
}.

(** C25: a context has the documents that apply to its request, and no others.  Every
    identity and selector of the request is portable; the profile is that of a ready
    package; the indexes are the user's, if it is there, and every one of the package, each
    a bounded regular file with a list of documents of this profile; and the documents are,
    in order, one for each entry of them whose identities and selectors are all among the
    ones of the request, under different ids.  Each is a document of this profile whose own
    fences are the identities of its entry, read from a bounded regular file below the
    canonical root of its index.  The context is exact if it has any, and otherwise asks
    for a refresh with a warning; it is at most 2 MiB. *)
Theorem context_has_exactly_what_applies entries context :
  select_context files entries request = Ok context -> selected_context entries context.
Proof.
  unfold select_context. intros H.
  apply rbind_ok in H as ([] & Hi%validate_pairs_ok & H).
  apply rbind_ok in H as ([] & Hs%validate_pairs_ok & H).
  apply rbind_ok in H as (found & Hfound & H). apply rbind_ok in H as (package & ->%ok_or_ok & H).
  apply rbind_ok in H as (documents & Hdocs & H). apply rbind_ok in H as (length & Hlen & H).
  apply rmap_err_ok in Hlen. destruct (_ <? length) eqn:Hmax; [done|]. injection H as <-.
  unfold select_documents in Hdocs. apply rbind_ok in Hdocs as (state & Hf & [= <-]).
  apply (fold_choose_ok _ index_holds) in Hf as (parts & Hparts & (added & Hadded & Hall) & Hd);
    [|apply select_index_ok].
  cbn in Hadded. subst added.
  destruct Hd as [Hnd _]; [by split; [constructor | set_solver]|]. split; cbn.
  - rewrite !Forall_cons, Forall_nil. split_and!; [| |done]; eapply map_Forall_impl; try done;
      intros key v (Hk & Hv & Hc); (split; [by apply portable_char_ok | done]).
  - exists package, (context_indexes files package (ContextRequest.knowledge_root request)), parts.
    split_and!; [| apply context_indexes_are | done..].
    unfold ProfileStore.package in Hfound. apply rbind_ok in Hfound as (u & _ & Hfound).
    destruct (List.find _ _) as [[]|]; try done. by injection Hfound as ->.
  - done.
  - done.
  - intros Hne. by destruct state.1.
  - by intros ->.
  - exists length. unfold MAX_CONTEXT_BYTES in Hmax. split; [done | lia].
Qed.
End Selected.

(** ** A sample context *)

Module ContextSamples.
#[local] Existing Instance sample_text.

Definition sample_manifest : Manifest.ProfilePackageManifest := {|
  Manifest.schema_version := 2; Manifest.kind := PACKAGE_KIND; Manifest.id := "maya";
  Manifest.version := "1.0.0"; Manifest.display_name := "Maya";
  Manifest.description := "Maya"; Manifest.license := "MIT";
  Manifest.artifacts :=
    [{| Artifact.artifact_type := SemanticProfileArtifact; Artifact.path := "profile.json" |};
     {| Artifact.artifact_type := ContextIndex; Artifact.path := "index.json" |}];
  Manifest.requires := ">=1"; Manifest.platforms := [] |}.

Definition sample_package : Package.ValidatedProfilePackage := {|
  Package.manifest := sample_manifest; Package.profile := sample_base;
  Package.root := "/store/maya"; Package.file_count := 5; Package.total_bytes := 50 |}.

(** An index of two documents, for two versions. *)
Definition index_entry (id : string) : value := Object
  [("id", Str id); ("path", Str (id +:+ ".json"));
   ("identities", Object [("version", Str id)]); ("selectors", Object [])].
Definition sample_index : value := Object
  [("schemaVersion", Number (PosInt 2)); ("profileId", Str "maya");
   ("documents", Array [index_entry "2023"; index_entry "2024"])].
Definition sample_document : value := Object
  [("schemaVersion", Number (PosInt 2)); ("profileId", Str "maya"); ("id", Str "2024");
   ("fences", Object [("version", Str "2024")]); ("text", Str "Use the node editor.")].

#[local] Instance sample_format : ContextFormat := {
  value_from_slice content := Ok (if content == "index" then sample_index else sample_document);
  context_json_len _ := Ok 100;
}.

Definition sample_files : Files.Files := {|
  Files.canonicalize path := Ok path;
  Files.symlink_metadata _ := Ok (sample_file 10);
  Files.metadata _ := Ok (sample_file 10);
  Files.read_dir _ := Err "not a directory";
  Files.read path := Ok (if path == "/store/maya/index.json" then "index" else "document") |}.

Definition sample_request : ContextRequest.ProfileContextRequest := {|
  ContextRequest.profile_id := "maya";
  ContextRequest.identities := {[ "version" := "2024" ]};
  ContextRequest.selectors := {[ "topic" := "nodes" ]};
  ContextRequest.knowledge_root := None |}.

Lemma context_has_exactly_what_applies_witness :
  exists context,
    select_context sample_files [Ready sample_package] sample_request = Ok context
    /\ map ContextDocument.path (Context.documents context) = ["/store/maya/2024.json"]
    /\ selected_context sample_files sample_request [Ready sample_package] context.
Proof.
  destruct (select_context sample_files [Ready sample_package] sample_request)
    as [context|] eqn:E; [|vm_compute in E; discriminate E].
  exists context. split; [done|]. split; [|by apply context_has_exactly_what_applies].
  vm_compute in E. by injection E as <-.
Defined.
End ContextSamples.
