(* ===== verification/HostClient.v ===== *)
(** * A client's connection to the Host ([crates/dcc-cua-client/src/lib.rs])

    One connection carries the requests of a client.  A request is sent under an id, and
    the response with this id is its answer; the responses to a batch may come in any
    order.  An operation that ends in the middle leaves the connection unusable. *)

From S2P Require Import Prelude Records Effects RustStr Json Protocol Errors.

(** ** Data *)

Module HostResponse.
Record HostResponse : Type := {
  value : value;
  binary_attachment : option (list Z);
}.
End HostResponse.

(** [timeout_ms] is the bound in milliseconds. *)
Module HostClientError.
Inductive HostClientError : Type :=
| Connect (source : ErrorKind)
| Io (source : ErrorKind)
| Protocol (message : string)
| Timeout (timeout_ms : Z)
| Remote (code message : string) (response : value).
End HostClientError.
Module ClientError := HostClientError.

Abbreviation HostClientResult A := (result ClientError.HostClientError A).

Inductive ConnectionState : Type :=
| CONNECTION_READY
| CONNECTION_IN_FLIGHT
| CONNECTION_UNUSABLE.
#[export] Instance ConnectionState_eq_dec : EqDecision ConnectionState.
Proof. solve_decision. Defined.

Module ReceivedResponse.
Record ReceivedResponse : Type := {
  request_id : string;
  value : value;
  binary_attachment : option (list Z);
}.
End ReceivedResponse.
Module Received := ReceivedResponse.

Inductive SnapshotTransport : Type := BinaryFrame | SharedMemory.
#[export] Instance SnapshotTransport_eq_dec : EqDecision SnapshotTransport.
Proof. solve_decision. Defined.

Definition as_wire_name (self : SnapshotTransport) : string :=
  match self with BinaryFrame => "binary_frame" | SharedMemory => "shared_memory" end.

Module HostClient.
Record HostClient : Type := {
  reader : Reader.AsyncRead;
  writer : Writer.AsyncWrite;
  pending_responses : gmap string Received.ReceivedResponse;
  outstanding_request_ids : gset string;
  next_request_id : Z;
  hello_complete : bool;
  connection_id : option string;
  snapshot_transport : SnapshotTransport;
  capabilities : list string;
  connection_state : ConnectionState;
}.

#[global] Instance HostClient_settable : Settable HostClient := fun c => {|
  reader := reader c; writer := writer c; pending_responses := pending_responses c;
  outstanding_request_ids := outstanding_request_ids c; next_request_id := next_request_id c;
  hello_complete := hello_complete c; connection_id := connection_id c;
  snapshot_transport := snapshot_transport c; capabilities := capabilities c;
  connection_state := connection_state c |}.
End HostClient.
Module Client := HostClient.

Abbreviation client_op A := (eff Client.HostClient ClientError.HostClientError A).

(** [serde_json::to_vec] and [serde_json::from_slice]. *)
Class JsonText : Type := {
  to_vec : value -> result string (list Z);
  from_slice : list Z -> result string value;
}.

Definition client_error {A} (message : string) : HostClientResult A :=
  Err (ClientError.Protocol message).

(** ** The value of a response *)

Definition into_result (self : Received.ReceivedResponse)
    : HostClientResult HostResponse.HostResponse :=
  let v := Received.value self in
  if is_str v.["type"] "error"
  then Err (ClientError.Remote
         (unwrap_or (as_str v.["code"]) "host_error")
         (unwrap_or (as_str v.["message"]) "Host returned an error") v)
  else Ok {| HostResponse.value := v;
             HostResponse.binary_attachment := Received.binary_attachment self |}.

(** [usize::checked_add]. *)
Definition checked_add (a b : Z) : option Z := if a + b <=? U64_MAX then Some (a + b) else None.

(** The end of the attachments of a response. *)
Fixpoint attachments_end (total : Z) (attachments : list value) : option Z :=
  match attachments with
  | [] => Some total
  | attachment :: attachments =>
      if negb (is_str attachment.["encoding"] "binary_frame")
      then attachments_end total attachments
      else
        as_u64 attachment.["offset"] ≫= fun offset =>
        as_u64 attachment.["length"] ≫= fun length =>
        checked_add offset length ≫= fun e =>
        attachments_end (Z.max total e) attachments
  end.

Definition binary_attachment_length (response : value) : option Z :=
  match as_array response.["attachments"] with
  | Some attachments =>
      attachments_end 0 attachments ≫= fun total => if 0 <? total then Some total else None
  | None =>
      if is_str response.["image"].["encoding"] "binary_frame"
      then as_u64 response.["image"].["length"] else None
  end.

Definition response_capabilities (response : value) : HostClientResult (list string) :=
  match get response "capabilities" with
  | None => Ok []
  | Some capabilities =>
      let? names := ok_or (as_array capabilities)
        (ClientError.Protocol "Host capabilities must be an array") in
      foldr (fun v rest =>
        let? name := ok_or (as_str v)
          (ClientError.Protocol "Host capability names must be strings") in
        let? names := rest in
        Ok (name :: names)) (Ok []) names
  end.

(** ** Sending and receiving *)

Definition frame_error (error : FrameError) : ClientError.HostClientError :=
  match error with
  | FrameProtocol message => ClientError.Protocol message
  | Protocol.Io kind => ClientError.Io kind
  end.

Definition validate_client_request_id (request_id : string) : HostClientResult unit :=
  rmap_err (fun error => ClientError.Protocol (envelope_error_to_string error))
    (validate_request_id request_id).

(** The round of a fresh reader: what the frames of the Host leave behind. *)
Definition receive_frame (max : Z) : client_op (option (list Z)) := fun c =>
  let '(reader, answer) := read_frame (Client.reader c) max in
  Some (rmap_err frame_error answer, c <| Client.reader := reader |>).

Definition send_frame (body : list Z) (max : Z) : client_op unit := fun c =>
  let '(writer, answer) := write_frame_unflushed (Client.writer c) body max in
  Some (rmap_err frame_error answer, c <| Client.writer := writer |>).

(** [writer.flush()]: no bytes of this transport move. *)
Definition flush : client_op unit := ret tt.

Section Connection.
Context `{JT : JsonText}.

Definition parse_response (body : list Z) : HostClientResult value :=
  rmap_err ClientError.Protocol (from_slice body).

Definition receive_attachment (expected_length : Z) : client_op (list Z) :=
  do? attachment := receive_frame MAX_BINARY_FRAME_BYTES in
  do? attachment := lift (ok_or attachment (ClientError.Protocol
    "Host advertised a binary attachment but closed the connection")) in
  run? refuse_if (negb (len attachment =? expected_length)) (ClientError.Protocol
    ("binary attachment length " +:+ show (len attachment)
     +:+ " does not match advertised length " +:+ show expected_length)) in
  ret attachment.

Definition receive_response : client_op Received.ReceivedResponse :=
  do? body := receive_frame MAX_JSON_FRAME_BYTES in
  do? body := lift (ok_or body (ClientError.Protocol "Host closed the connection")) in
  do? response := lift (parse_response body) in
  do? binary_attachment :=
    match binary_attachment_length response with
    | Some expected_length =>
        do? attachment := receive_attachment expected_length in
        ret (Some attachment)
    | None => ret None
    end in
  do? request_id := lift (ok_or (as_str response.["request_id"])
    (ClientError.Protocol "Host response omitted request_id")) in
  ret {| Received.request_id := request_id; Received.value := response;
         Received.binary_attachment := binary_attachment |}.

Definition register_outstanding_request (request_id : string) : client_op unit :=
  do? outstanding := read Client.outstanding_request_ids in
  run? refuse_if (MAX_PARALLEL_DISCOVERY_REQUESTS <=? Z.of_nat (size outstanding))
    (ClientError.Protocol ("one client operation tracks at most "
      +:+ show MAX_PARALLEL_DISCOVERY_REQUESTS +:+ " request ids")) in
  run? modify (fun c =>
    c <| Client.outstanding_request_ids := {[request_id]} ∪ outstanding |>) in
  do? pending := read Client.pending_responses in
  refuse_if (bool_decide (request_id ∈ outstanding) || is_some (pending !! request_id))
    (ClientError.Protocol ("request_id " +:+ request_id +:+ " is already in flight")).

Definition request_value (request_id method : string) (params : value) : value :=
  Object [("request_id", Str request_id); ("method", Str method); ("params", params)].

Definition send_request_unflushed_with_id (request_id method : string) (params : value)
    : client_op string :=
  run? lift (validate_client_request_id request_id) in
  run? register_outstanding_request request_id in
  do? body := lift (rmap_err ClientError.Protocol
    (to_vec (request_value request_id method params))) in
  run? send_frame body MAX_JSON_FRAME_BYTES in
  ret request_id.

Definition send_request_with_id (request_id method : string) (params : value)
    : client_op string :=
  do? request_id := send_request_unflushed_with_id request_id method params in
  run? flush in
  ret request_id.

Definition next_request_id : client_op string :=
  do? n := read Client.next_request_id in
  run? modify (fun c => c <| Client.next_request_id := saturating_add n 1 |>) in
  ret ("cua-client-" +:+ show n).

Definition send_request (method : string) (params : value) : client_op string :=
  do? request_id := next_request_id in
  send_request_with_id request_id method params.

(** The response that arrived while another was awaited. *)
Definition take_pending (request_id : string) : client_op (option Received.ReceivedResponse) :=
  do? pending := read Client.pending_responses in
  match pending !! request_id with
  | Some response =>
      run? modify (fun c => c
        <| Client.pending_responses := delete request_id pending |>
        <| Client.outstanding_request_ids :=
             Client.outstanding_request_ids c ∖ {[request_id]} |>) in
      ret (Some response)
  | None => ret None
  end.

(** One round of the [loop]. *)
Definition receive_round (request_id : string) (_ : unit)
    : client_op (unit + Received.ReceivedResponse) :=
  do? response := receive_response in
  do? outstanding := read Client.outstanding_request_ids in
  run? refuse_if (negb (bool_decide (Received.request_id response ∈ outstanding)))
    (ClientError.Protocol ("Host returned an untracked request_id: "
       +:+ Received.request_id response)) in
  if Received.request_id response == request_id
  then
    run? modify (fun c =>
      c <| Client.outstanding_request_ids := outstanding ∖ {[request_id]} |>) in
    ret (inr response)
  else
    do? pending := read Client.pending_responses in
    run? modify (fun c => c
      <| Client.pending_responses := <[Received.request_id response := response]> pending |>) in
    run? refuse_if (is_some (pending !! Received.request_id response)) (ClientError.Protocol
      "Host returned a duplicate response for one request_id") in
    ret (inl tt).

(** A round consumes bytes, so their number bounds the rounds. *)
Definition receive_rounds (c : Client.HostClient) : nat :=
  S (length (Reader.arriving (Client.reader c))).

Definition receive_for_request_raw (request_id : string)
    : client_op Received.ReceivedResponse :=
  do? pending := take_pending request_id in
  match pending with
  | Some response => ret response
  | None =>
      do? rounds := read receive_rounds in
      do? response := loop rounds (receive_round request_id) tt in
      match response with Some response => ret response | None => panic end
  end.

Definition receive_for_request (request_id : string) : client_op HostResponse.HostResponse :=
  do? response := receive_for_request_raw request_id in
  lift (into_result response).

(** ** Operations *)

Definition begin_request_operation : client_op unit :=
  do? state := read Client.connection_state in
  match state with
  | CONNECTION_READY =>
      modify (fun c => c <| Client.connection_state := CONNECTION_IN_FLIGHT |>)
  | CONNECTION_UNUSABLE =>
      throw (ClientError.Protocol "Host connection is unusable after an interrupted or incomplete request; reconnect before sending another request")
  | CONNECTION_IN_FLIGHT =>
      throw (ClientError.Protocol "another Host request is already in flight on this connection")
  end.

Definition completes {A} (result : HostClientResult A) : bool :=
  match result with Ok _ | Err (ClientError.Remote _ _ _) => true | Err _ => false end.

(** Otherwise the guard is dropped. *)
Definition finish_request_operation {A} (result : HostClientResult A) : client_op A :=
  run? modify (fun c => c <| Client.connection_state :=
    if completes result then CONNECTION_READY else CONNECTION_UNUSABLE |>) in
  lift result.

(** [let guard = self.begin_request_operation()?; let result = op; finish]. *)
Definition guarded {A} (op : client_op A) : client_op A :=
  run? begin_request_operation in
  do? result := attempt op in
  finish_request_operation result.

Definition request_inner (method : string) (params : value) : client_op HostResponse.HostResponse :=
  guarded
    (do? request_id := send_request method params in
     receive_for_request request_id).

Definition request_inner_with_id (request_id method : string) (params : value)
    : client_op HostResponse.HostResponse :=
  guarded
    (do? request_id := send_request_with_id request_id method params in
     receive_for_request request_id).

Definition require_hello : client_op unit :=
  do? hello_complete := read Client.hello_complete in
  refuse_if (negb hello_complete)
    (ClientError.Protocol "hello must complete before stateful requests").

Definition request (method : string) (params : value) : client_op HostResponse.HostResponse :=
  run? require_hello in
  request_inner method params.

Definition request_with_id (request_id method : string) (params : value)
    : client_op HostResponse.HostResponse :=
  run? require_hello in
  run? lift (validate_client_request_id request_id) in
  request_inner_with_id request_id method params.
End Connection.

(** ** Operations that end in the middle *)

(** What an operation has done to the connection when it is dropped: the streams, the maps
    and the counter are in any state. *)
Module Progress.
Record Progress : Type := {
  reader : Reader.AsyncRead;
  writer : Writer.AsyncWrite;
  pending_responses : gmap string Received.ReceivedResponse;
  outstanding_request_ids : gset string;
  next_request_id : Z;
}.
End Progress.

Definition made (progress : Progress.Progress) (c : Client.HostClient) : Client.HostClient :=
  c <| Client.reader := Progress.reader progress |>
    <| Client.writer := Progress.writer progress |>
    <| Client.pending_responses := Progress.pending_responses progress |>
    <| Client.outstanding_request_ids := Progress.outstanding_request_ids progress |>
    <| Client.next_request_id := Progress.next_request_id progress |>.

(** Where a cancellation finds an operation that receives: after some whole rounds, with
    some bytes of the next frame consumed. *)
Module Cancelled.
Record Cancelled : Type := { rounds : nat; bytes : nat }.
End Cancelled.

Definition consume_bytes (n : nat) (c : Client.HostClient) : Client.HostClient :=
  c <| Client.reader := {| Reader.arriving := drop n (Reader.arriving (Client.reader c));
                           Reader.ending := Reader.ending (Client.reader c) |} |>.

(** ** More operations *)

(** An id, a method and its parameters. *)
Abbreviation batch_request := (string * string * value)%type.

Section Operations.
Context `{JT : JsonText}.

Definition hello (client_name : string) : client_op HostResponse.HostResponse :=
  do? hello_complete := read Client.hello_complete in
  run? refuse_if hello_complete
    (ClientError.Protocol "hello has already completed on this connection") in
  do? snapshot_transport := read Client.snapshot_transport in
  do? response := request_inner "hello" (Object
    [("protocol_version", Number (PosInt HOST_PROTOCOL_VERSION));
     ("client_name", Str client_name);
     ("snapshot_transport", Str (as_wire_name snapshot_transport))]) in
  let v := HostResponse.value response in
  run? refuse_if (negb (is_str v.["type"] "hello"))
    (ClientError.Protocol "Host hello response has an unexpected type") in
  do? capabilities := lift (response_capabilities v) in
  run? modify (fun c => c
    <| Client.capabilities := capabilities |>
    <| Client.connection_id :=
         match as_str v.["connection_id"] with
         | Some id => if str_is_empty id then None else Some id
         | None => None
         end |>
    <| Client.hello_complete := true |>) in
  ret response.

(** [tokio::time::timeout]: [timer] is what the request has done when it fires. *)
Definition timed {A} (timer : option Progress.Progress) (timeout_ms : Z) (op : client_op A)
    : client_op A :=
  match timer with
  | None => op
  | Some progress =>
      run? begin_request_operation in
      run? modify (made progress) in
      run? modify (fun c => c <| Client.connection_state := CONNECTION_UNUSABLE |>) in
      throw (ClientError.Timeout timeout_ms)
  end.

Definition request_with_timeout (timer : option Progress.Progress) (method : string)
    (params : value) (timeout_ms : Z) : client_op HostResponse.HostResponse :=
  run? require_hello in
  timed timer timeout_ms (request_inner method params).

Definition request_with_id_and_timeout (timer : option Progress.Progress)
    (request_id method : string) (params : value) (timeout_ms : Z)
    : client_op HostResponse.HostResponse :=
  run? require_hello in
  run? lift (validate_client_request_id request_id) in
  timed timer timeout_ms (request_inner_with_id request_id method params).

Definition ping : client_op HostResponse.HostResponse := request "ping" (Object []).
Definition doctor : client_op HostResponse.HostResponse := request "doctor" (Object []).
Definition interrupt_all : client_op HostResponse.HostResponse :=
  request "interrupt_all" (Object []).

(** ** Batches *)

Definition is_pipeline_safe_method (method : string) : bool :=
  Traits.pipeline_safe (host_method_traits method).

Definition shared_memory_handoff_slot (method : string) (params : value) : option string :=
  if method == "desktop_snapshot" then Some "desktop:global"
  else
    let namespace :=
      if method == "desktop_session_snapshot" then Some "desktop"
      else if method ∈? ["snapshot"; "verify_state"; "browser_snapshot"] then Some "window"
      else None in
    namespace ≫= fun namespace =>
    as_str params.["session_id"] ≫= fun session_id =>
    Some (namespace +:+ ":" +:+ session_id).

(** [for .. if !publishers.insert(slot)]. *)
Fixpoint publishers_distinct (publishers : gset string) (requests : list batch_request)
    : HostClientResult unit :=
  match requests with
  | [] => Ok tt
  | (_, method, params) :: requests =>
      match shared_memory_handoff_slot method params with
      | None => publishers_distinct publishers requests
      | Some slot =>
          if bool_decide (slot ∈ publishers)
          then client_error
            "request_batch allows at most one shared-memory image publisher per session"
          else publishers_distinct ({[slot]} ∪ publishers) requests
      end
  end.

Definition validate_shared_memory_batch_handoffs (snapshot_transport : SnapshotTransport)
    (requests : list batch_request) : HostClientResult unit :=
  match snapshot_transport with
  | SharedMemory => publishers_distinct ∅ requests
  | BinaryFrame => Ok tt
  end.

Definition batch_id (request : batch_request) : string := request.1.1.

Definition check_batch (snapshot_transport : SnapshotTransport)
    (requests : list batch_request) : HostClientResult unit :=
  if MAX_PARALLEL_DISCOVERY_REQUESTS <? len requests
  then client_error ("request_batch accepts at most " +:+ show MAX_PARALLEL_DISCOVERY_REQUESTS
         +:+ " requests")
  else if existsb (fun '(_, method, _) => negb (is_pipeline_safe_method method)) requests
  then client_error "request_batch accepts read-only Host methods only"
  else
  check? validate_shared_memory_batch_handoffs snapshot_transport requests in
  check? try_each (fun request => validate_client_request_id (batch_id request)) requests in
  if bool_decide (NoDup (map batch_id requests)) then Ok tt
  else client_error "request_batch does not allow duplicate request ids".

Fixpoint send_all (requests : list batch_request) : client_op (list string) :=
  match requests with
  | [] => ret []
  | (request_id, method, params) :: requests =>
      do? request_id := send_request_unflushed_with_id request_id method params in
      do? request_ids := send_all requests in
      ret (request_id :: request_ids)
  end.

Fixpoint receive_all (request_ids : list string)
    : client_op (list (HostClientResult HostResponse.HostResponse)) :=
  match request_ids with
  | [] => ret []
  | request_id :: request_ids =>
      do? response := receive_for_request_raw request_id in
      do? received := receive_all request_ids in
      ret (into_result response :: received)
  end.

Definition request_batch_with_ids_all (requests : list batch_request)
    : client_op (list (HostClientResult HostResponse.HostResponse)) :=
  run? require_hello in
  do? snapshot_transport := read Client.snapshot_transport in
  run? lift (check_batch snapshot_transport requests) in
  guarded
    (do? request_ids := send_all requests in
     run? flush in
     receive_all request_ids).

(** [responses.into_iter().collect()]. *)
Fixpoint collect_responses {A} (responses : list (HostClientResult A)) : HostClientResult (list A) :=
  match responses with
  | [] => Ok []
  | response :: responses =>
      let? response := response in
      let? responses := collect_responses responses in
      Ok (response :: responses)
  end.

Definition request_batch_with_ids (requests : list batch_request)
    : client_op (list HostResponse.HostResponse) :=
  do? responses := request_batch_with_ids_all requests in
  lift (collect_responses responses).

Fixpoint number_requests (requests : list (string * value)) : client_op (list batch_request) :=
  match requests with
  | [] => ret []
  | (method, params) :: requests =>
      do? request_id := next_request_id in
      do? requests := number_requests requests in
      ret ((request_id, method, params) :: requests)
  end.

Definition request_batch (requests : list (string * value))
    : client_op (list HostResponse.HostResponse) :=
  run? require_hello in
  do? requests := number_requests requests in
  request_batch_with_ids requests.

(** ** Cancellation *)

(** [select!]: the response, or nothing if the cancellation came first. *)
Definition receive_or_cancel (cancel : option Cancelled.Cancelled) (request_id : string)
    : client_op (option Received.ReceivedResponse) :=
  match cancel with
  | None => do? response := receive_for_request_raw request_id in ret (Some response)
  | Some at_ =>
      do? response := loop (Cancelled.rounds at_) (receive_round request_id) tt in
      match response with
      | Some response => ret (Some response)
      | None =>
          run? modify (consume_bytes (Cancelled.bytes at_)) in
          ret None
      end
  end.

Definition request_with_cancel (cancel : option Cancelled.Cancelled) (method : string)
    (params cancel_params : value) : client_op HostResponse.HostResponse :=
  run? require_hello in
  guarded
    (do? request_id := send_request method params in
     do? received := receive_or_cancel cancel request_id in
     match received with
     | Some received => lift (into_result received)
     | None =>
         do? cancel_id := send_request "cancel" cancel_params in
         do? cancel_result := attempt (receive_for_request cancel_id) in
         do? request_result := attempt (receive_for_request request_id) in
         run? lift cancel_result in
         lift request_result
     end).

Definition wait_for_window_with_cancel (cancel : option Cancelled.Cancelled) (params : value)
    : client_op HostResponse.HostResponse :=
  run? require_hello in
  guarded
    (do? request_id := send_request "wait_for_window" params in
     do? received := receive_or_cancel cancel request_id in
     match received with
     | Some received => lift (into_result received)
     | None =>
         do? cancel_id := send_request "cancel_window_wait"
           (Object [("wait_id", Str request_id)]) in
         run? receive_for_request cancel_id in
         receive_for_request request_id
     end).
End Operations.

Definition from_stream_with_transport (reader : Reader.AsyncRead) (writer : Writer.AsyncWrite)
    (snapshot_transport : SnapshotTransport) : Client.HostClient := {|
  Client.reader := reader; Client.writer := writer; Client.pending_responses := ∅;
  Client.outstanding_request_ids := ∅; Client.next_request_id := 1;
  Client.hello_complete := false; Client.connection_id := None;
  Client.snapshot_transport := snapshot_transport; Client.capabilities := [];
  Client.connection_state := CONNECTION_READY |}.

(** ** Reasoning on operations of a connection *)

(** The operation ends; it ends in [post], or with an error of the connection itself. *)
Definition runs {A} (m : client_op A) (c : Client.HostClient)
    (post : A -> Client.HostClient -> Prop) : Prop :=
  match m c with
  | Some (Ok a, c') => post a c'
  | Some (Err e, _) => completes (A := A) (Err e) = false
  | None => False
  end.

Lemma runs_mono {A} (m : client_op A) c (post post' : A -> Client.HostClient -> Prop) :
  runs m c post -> (forall a c', post a c' -> post' a c') -> runs m c post'.
Proof. unfold runs. destruct (m c) as [[[a|e] c']|]; eauto. Qed.
Lemma runs_ret {A} (a : A) c (post : A -> _ -> Prop) : post a c -> runs (ret a) c post.
Proof. done. Qed.
Lemma runs_read {A} (f : Client.HostClient -> A) c (post : A -> _ -> Prop) :
  post (f c) c -> runs (read f) c post.
Proof. done. Qed.
Lemma runs_modify f c (post : unit -> Client.HostClient -> Prop) :
  post tt (f c) -> runs (modify f) c post.
Proof. done. Qed.
Lemma runs_bind {A B} (m : client_op A) (k : A -> client_op B) c (post : B -> _ -> Prop) :
  runs m c (fun a c' => runs (k a) c' post) -> runs (bind m k) c post.
Proof. unfold runs, bind. by destruct (m c) as [[[a|e] c']|]. Qed.
Lemma runs_bind_inv {A B} (m : client_op A) (k : A -> client_op B) c (post : B -> _ -> Prop) :
  runs (bind m k) c post -> runs m c (fun a c' => runs (k a) c' post).
Proof. unfold runs, bind. by destruct (m c) as [[[a|e] c']|]. Qed.
Lemma runs_refuse_if b message c (post : unit -> Client.HostClient -> Prop) :
  (b = false -> post tt c) -> runs (refuse_if b (ClientError.Protocol message)) c post.
Proof. unfold runs, refuse_if. destruct b; cbn; auto. Qed.
Lemma runs_ok_or {A} (o : option A) message c (post : A -> Client.HostClient -> Prop) :
  (forall a, o = Some a -> post a c) -> runs (lift (ok_or o (ClientError.Protocol message))) c post.
Proof. unfold runs, lift. destruct o; cbn; auto. Qed.
Lemma runs_protocol {A E} (f : E -> string) (r : result E A) c (post : A -> Client.HostClient -> Prop) :
  (forall a, r = Ok a -> post a c) ->
  runs (lift (rmap_err (fun e => ClientError.Protocol (f e)) r)) c post.
Proof. unfold runs, lift. destruct r; cbn; auto. Qed.

(** ** Whole frames *)

Definition one_frame (before after : list Z) : Prop :=
  exists prefix body, before = prefix ++ body ++ after
    /\ length prefix = 4%nat /\ length body = Z.to_nat (u32_from_be_bytes prefix).

(** The reader went over whole frames. *)
Definition whole_frames : list Z -> list Z -> Prop := rtc one_frame.

Lemma one_frame_shorter before after :
  one_frame before after -> (length after < length before)%nat.
Proof. intros (prefix & body & -> & Hp & _). rewrite !length_app. lia. Qed.

Lemma whole_frames_shorter before after :
  whole_frames before after -> (length after <= length before)%nat.
Proof. induction 1 as [|a b d H _ IH]; [done|]. apply one_frame_shorter in H. lia. Qed.

Abbreviation arriving c := (Reader.arriving (Client.reader c)).

(** Nothing but the reader changed, by whole frames. *)
Definition reads (c c' : Client.HostClient) : Prop :=
  c' = c <| Client.reader := Client.reader c' |> /\ whole_frames (arriving c) (arriving c').

Lemma read_exact_some r n r' bytes :
  read_exact r n = (r', Ok bytes) ->
  Reader.arriving r = bytes ++ Reader.arriving r' /\ length bytes = Z.to_nat n.
Proof.
  unfold read_exact. destruct (n <=? _) eqn:Hn; [|done]. intros [= <- <-]. cbn.
  rewrite take_drop. split; [done|]. unfold len in *. rewrite length_take. lia.
Qed.

Lemma runs_receive_frame max c :
  runs (receive_frame max) c (fun body c' => match body with
    | Some _ => reads c c' /\ (length (arriving c') < length (arriving c))%nat
    | None => True
    end).
Proof.
  unfold runs, receive_frame, read_frame.
  destruct (read_exact (Client.reader c) 4) as [r1 [prefix|[|code]]] eqn:E1; [|done..].
  apply read_exact_some in E1 as [E1 Hp].
  destruct (_ || _) eqn:Hlen; [done|].
  destruct (read_exact r1 _) as [r2 [body|kind]] eqn:E2; [|by destruct kind].
  apply read_exact_some in E2 as [E2 Hb]. cbn.
  assert (one_frame (arriving c) (Reader.arriving r2)) as Hone.
  { exists prefix, body. by rewrite E1, E2. }
  split; [split; [by destruct c | by apply rtc_once] | by apply one_frame_shorter].
Qed.

Lemma reads_trans a b c : reads a b -> reads b c -> reads a c.
Proof.
  intros [Hab Wab] [Hbc Wbc]. split; [|by etrans].
  rewrite Hbc, Hab. by destruct a.
Qed.

Lemma reads_fields c c' :
  reads c c' ->
  Client.pending_responses c' = Client.pending_responses c
  /\ Client.outstanding_request_ids c' = Client.outstanding_request_ids c
  /\ Client.writer c' = Client.writer c /\ Client.next_request_id c' = Client.next_request_id c
  /\ Client.hello_complete c' = Client.hello_complete c
  /\ whole_frames (arriving c) (arriving c').
Proof. intros [-> W]. by split_and!. Qed.

Section Correlation.
Context `{JT : JsonText}.

(** A response is filed under the id that its value carries. *)
Definition filed (r : Received.ReceivedResponse) : Prop :=
  as_str (Received.value r).["request_id"] = Some (Received.request_id r).

Lemma runs_receive_response c :
  runs receive_response c (fun r c' =>
    reads c c' /\ (length (arriving c') < length (arriving c))%nat /\ filed r).
Proof.
  unfold receive_response. apply runs_bind.
  eapply runs_mono; [apply runs_receive_frame|]. intros body c1 Hbody.
  apply runs_bind, runs_ok_or. intros b ->. destruct Hbody as [Hr Hlt].
  apply runs_bind, runs_protocol. intros v _.
  apply runs_bind. apply (runs_mono _ _ (fun _ c2 =>
    reads c c2 /\ (length (arriving c2) < length (arriving c))%nat)).
  - destruct (binary_attachment_length v) as [n|]; [|done].
    apply runs_bind. unfold receive_attachment. apply runs_bind.
    eapply runs_mono; [apply runs_receive_frame|]. intros attachment c2 Hatt.
    apply runs_bind, runs_ok_or. intros a ->. destruct Hatt as [Hr2 Hlt2].
    apply runs_bind, runs_refuse_if. intros _. apply runs_ret, runs_ret.
    split; [by eapply reads_trans | lia].
  - intros attachment c2 [Hr2 Hlt2]. apply runs_bind, runs_ok_or. intros id Hid.
    by apply runs_ret.
Qed.

(** The connection while an operation runs: what is pending is tracked, under its id. *)
Definition tracked (c : Client.HostClient) : Prop :=
  map_Forall (fun id r => id ∈ Client.outstanding_request_ids c
    /\ Received.request_id r = id /\ filed r) (Client.pending_responses c).

(** [c'] is [c] after the response under an id was handed out. *)
Definition handed_out (id : string) (c c' : Client.HostClient) : Prop :=
  tracked c' /\ Client.outstanding_request_ids c' = Client.outstanding_request_ids c ∖ {[id]}
  /\ whole_frames (arriving c) (arriving c')
  /\ Client.writer c' = Client.writer c /\ Client.next_request_id c' = Client.next_request_id c
  /\ Client.hello_complete c' = Client.hello_complete c.

Definition answers (id : string) (r : Received.ReceivedResponse) : Prop :=
  Received.request_id r = id /\ filed r.

Lemma runs_receive_round id c :
  tracked c -> Client.pending_responses c !! id = None ->
  runs (receive_round id tt) c (fun next c' =>
    (length (arriving c') < length (arriving c))%nat
    /\ match next with
       | inr r => answers id r /\ handed_out id c c'
       | inl _ => Client.pending_responses c' !! id = None /\ tracked c'
           /\ Client.outstanding_request_ids c' = Client.outstanding_request_ids c
           /\ whole_frames (arriving c) (arriving c')
           /\ Client.writer c' = Client.writer c
           /\ Client.next_request_id c' = Client.next_request_id c
           /\ Client.hello_complete c' = Client.hello_complete c
       end).
Proof.
  intros Htr Hid. unfold receive_round. apply runs_bind.
  eapply runs_mono; [apply runs_receive_response|]. intros r c1 (Hr & Hlt & Hf).
  apply reads_fields in Hr as (Hp & Ho & Hwr & Hn & Hh & Hw).
  apply runs_bind, runs_read, runs_bind, runs_refuse_if. intros Hin.
  apply negb_false_iff, bool_decide_eq_true in Hin. rewrite Ho in Hin.
  case_bool_decide as Heq.
  - apply runs_bind, runs_modify, runs_ret. split; [done|]. split; [done|].
    split_and!; cbn; try done; [|by rewrite Ho].
    intros id' r' Hr'. cbn in *. rewrite Hp in Hr'. rewrite Ho. destruct (Htr id' r' Hr') as (Hout & ? & ?).
    split; [|done]. apply elem_of_difference. split; [done|].
    intros ->%elem_of_singleton. by rewrite Hid in Hr'.
  - apply runs_bind, runs_read, runs_bind, runs_modify, runs_bind, runs_refuse_if.
    intros Hdup. apply runs_ret. split; [done|]. split_and!; cbn; try done.
    + by rewrite lookup_insert_ne, Hp.
    + intros id' r' Hr'. cbn in *. rewrite Hp in Hr'. rewrite Ho.
      destruct (decide (id' = Received.request_id r)) as [->|Hne].
      * rewrite lookup_insert_eq in Hr'. by injection Hr' as <-.
      * rewrite lookup_insert_ne in Hr' by done. by apply Htr.
Qed.

Lemma runs_receive_loop n id c :
  tracked c -> Client.pending_responses c !! id = None -> (length (arriving c) < n)%nat ->
  runs (loop n (receive_round id) tt) c (fun r c' => exists r', r = Some r'
    /\ answers id r' /\ handed_out id c c').
Proof.
  revert c. induction n as [|n IH]; intros c Htr Hid Hn; [lia|].
  cbn [loop]. apply runs_bind. eapply runs_mono; [by apply runs_receive_round|].
  intros [[]|r] c1 [Hlt H1].
  - destruct H1 as (Hid1 & Htr1 & Ho & Hw & Hwr & Hnx & Hh).
    eapply runs_mono; [apply IH; [done | done | lia]|].
    intros o c2 (r & -> & Hr & Htr2 & Ho2 & Hw2 & Hwr2 & Hnx2 & Hh2).
    exists r. split; [done|]. split; [done|]. split_and!; [done | | by etrans | congruence..].
    by rewrite Ho2, Ho.
  - apply runs_ret. by exists r.
Qed.

Lemma runs_receive_for_request_raw id c :
  tracked c ->
  runs (receive_for_request_raw id) c (fun r c' => answers id r /\ handed_out id c c').
Proof.
  intros Htr. unfold receive_for_request_raw, take_pending.
  apply runs_bind, runs_bind, runs_read.
  destruct (Client.pending_responses c !! id) as [r|] eqn:Hid.
  - apply runs_bind, runs_modify, runs_ret, runs_ret. destruct (Htr id r Hid) as (Ho & Hr & Hf).
    split; [done|]. split_and!; cbn; try done.
    intros id' r' Hr'. cbn in *. apply lookup_delete_Some in Hr' as [Hne Hr'].
    destruct (Htr id' r' Hr') as (? & ? & ?). set_solver.
  - apply runs_ret, runs_bind, runs_read, runs_bind.
    eapply runs_mono; [apply runs_receive_loop; [done | done | unfold receive_rounds; lia]|].
    intros o c' (r & -> & Hr). by apply runs_ret.
Qed.

(** Sending registers an id that was not in use, and writes. *)
Definition sent (id : string) (c c' : Client.HostClient) : Prop :=
  id ∉ Client.outstanding_request_ids c /\ Client.pending_responses c !! id = None
  /\ Client.outstanding_request_ids c' = {[id]} ∪ Client.outstanding_request_ids c
  /\ Client.pending_responses c' = Client.pending_responses c
  /\ Client.reader c' = Client.reader c
  /\ Client.next_request_id c' = Client.next_request_id c
  /\ Client.hello_complete c' = Client.hello_complete c.

Lemma runs_send_unflushed id method params c :
  runs (send_request_unflushed_with_id id method params) c (fun id' c' => id' = id /\ sent id c c').
Proof.
  unfold send_request_unflushed_with_id, register_outstanding_request.
  apply runs_bind, runs_protocol. intros [] _.
  apply runs_bind, runs_bind, runs_read, runs_bind, runs_refuse_if. intros _.
  apply runs_bind, runs_modify, runs_bind, runs_read, runs_refuse_if. intros Hin.
  apply orb_false_iff in Hin as [Hin%bool_decide_eq_false Hp]. cbn in *.
  apply runs_bind, runs_protocol. intros body _. apply runs_bind.
  unfold runs at 1, send_frame. destruct (write_frame_unflushed _ _ _) as [w [[]|[kind|message]]]; [|done..].
  apply runs_ret. split; [done|]. split_and!; try done.
  destruct (Client.pending_responses c !! id); [done | done].
Qed.

Lemma sent_tracked id c c' : sent id c c' -> tracked c -> tracked c'.
Proof.
  intros (_ & _ & Ho & Hp & _) H id' r. rewrite Hp, Ho. intros Hr.
  destruct (H id' r Hr) as (? & ? & ?). set_solver.
Qed.

Lemma runs_send_request_with_id id method params c :
  runs (send_request_with_id id method params) c (fun id' c' => id' = id /\ sent id c c').
Proof.
  unfold send_request_with_id. apply runs_bind. eapply runs_mono; [apply runs_send_unflushed|].
  intros id' c' H. by apply runs_bind, runs_ret, runs_ret.
Qed.

Definition generated_id (n : Z) : string := "cua-client-" +:+ show n.

Definition idle (c : Client.HostClient) : Prop :=
  Client.outstanding_request_ids c = ∅ /\ Client.pending_responses c = ∅.

Lemma idle_tracked c : idle c -> tracked c.
Proof. intros [_ H] id r. by rewrite H, lookup_empty. Qed.

Lemma tracked_idle c : tracked c -> Client.outstanding_request_ids c = ∅ -> idle c.
Proof.
  intros H Ho. split; [done|]. apply map_empty. intros id.
  destruct (Client.pending_responses c !! id) as [r|] eqn:Hr; [|done].
  destruct (H id r Hr) as [Hin _]. rewrite Ho in Hin. set_solver.
Qed.

(** An operation that handed out all it asked for. *)
Definition settled (c c' : Client.HostClient) : Prop :=
  idle c' /\ whole_frames (arriving c) (arriving c')
  /\ Client.hello_complete c' = Client.hello_complete c.

Lemma runs_exchange id method params c :
  idle c ->
  runs (do? id := send_request_with_id id method params in receive_for_request_raw id) c
    (fun r c' => answers id r /\ settled c c' /\ Client.next_request_id c' = Client.next_request_id c).
Proof.
  intros Hidle. apply runs_bind. eapply runs_mono; [apply runs_send_request_with_id|].
  intros id' c1 [-> Hs]. pose proof (sent_tracked _ _ _ Hs (idle_tracked _ Hidle)) as Htr.
  destruct Hs as (Hnin & _ & Ho & Hp & Hr & Hn & Hh). destruct Hidle as [Hout _].
  eapply runs_mono; [by apply runs_receive_for_request_raw|].
  intros r c2 (Ha & Htr2 & Ho2 & Hw & _ & Hn2 & Hh2). split; [done|].
  rewrite Hr in Hw. split; [|congruence]. split_and!; [|done|congruence].
  apply tracked_idle; [done|]. rewrite Ho2, Ho, Hout. set_solver.
Qed.

Lemma runs_send_all requests c :
  tracked c ->
  runs (send_all requests) c (fun ids c' => ids = map batch_id requests /\ tracked c'
    /\ Client.outstanding_request_ids c' = list_to_set ids ∪ Client.outstanding_request_ids c
    /\ Client.reader c' = Client.reader c
    /\ Client.hello_complete c' = Client.hello_complete c).
Proof.
  revert c. induction requests as [|[[id method] params] requests IH]; intros c Htr; cbn [send_all].
  - apply runs_ret. split_and!; [done | done | set_solver | done | done].
  - apply runs_bind. eapply runs_mono; [apply runs_send_unflushed|]. intros id' c1 [-> Hs].
    apply runs_bind. eapply runs_mono; [apply IH; by eapply sent_tracked|].
    intros ids c2 (-> & Htr2 & Ho2 & Hr2 & Hh2). apply runs_ret.
    destruct Hs as (_ & _ & Ho & _ & Hr & _ & Hh).
    split_and!; [done | done | | congruence | congruence]. rewrite Ho2, Ho. cbn. set_solver.
Qed.

Lemma runs_receive_all ids c :
  tracked c ->
  runs (receive_all ids) c (fun results c' => exists received,
    results = map into_result received /\ Forall2 answers ids received /\ tracked c'
    /\ Client.outstanding_request_ids c' = Client.outstanding_request_ids c ∖ list_to_set ids
    /\ whole_frames (arriving c) (arriving c')
    /\ Client.hello_complete c' = Client.hello_complete c).
Proof.
  revert c. induction ids as [|id ids IH]; intros c Htr; cbn [receive_all].
  - apply runs_ret. exists []. split_and!; [done.. | set_solver | done | done].
  - apply runs_bind. eapply runs_mono; [by apply runs_receive_for_request_raw|].
    intros r c1 (Ha & Htr1 & Ho1 & Hw1 & _ & _ & Hh1). apply runs_bind.
    eapply runs_mono; [by apply IH|].
    intros results c2 (received & -> & Hall & Htr2 & Ho2 & Hw2 & Hh2). apply runs_ret.
    exists (r :: received). split_and!; [done | by constructor | done | | by etrans | congruence].
    rewrite Ho2, Ho1. cbn. set_solver.
Qed.

Lemma runs_batch requests c :
  idle c ->
  runs (do? ids := send_all requests in run? flush in receive_all ids) c (fun results c' =>
    exists received, results = map into_result received
      /\ Forall2 answers (map batch_id requests) received /\ settled c c').
Proof.
  intros Hidle. pose proof (idle_tracked _ Hidle) as Htr. apply runs_bind.
  eapply runs_mono; [by apply runs_send_all|]. intros ids c1 (-> & Htr1 & Ho1 & Hr1 & Hh1).
  apply runs_bind, runs_ret. eapply runs_mono; [by apply runs_receive_all|].
  intros results c2 (received & -> & Hall & Htr2 & Ho2 & Hw2 & Hh2).
  exists received. split; [done|]. split; [done|]. rewrite Hr1 in Hw2.
  split_and!; [|done|congruence]. apply tracked_idle; [done|].
  destruct Hidle as [Ho _]. rewrite Ho2, Ho1, Ho. set_solver.
Qed.

(** ** Operations under the guard *)

(** A connection that may be used, and has nothing in flight. *)
Definition usable (c : Client.HostClient) : Prop :=
  Client.connection_state c = CONNECTION_READY /\ idle c.
Definition in_flight (c : Client.HostClient) : Client.HostClient :=
  c <| Client.connection_state := CONNECTION_IN_FLIGHT |>.
Definition unusable (c : Client.HostClient) : Prop :=
  Client.connection_state c = CONNECTION_UNUSABLE.

(** How an operation may leave a usable connection. *)
Definition left_in_step (c c' : Client.HostClient) : Prop :=
  usable c' /\ whole_frames (arriving c) (arriving c') \/ unusable c'.

Lemma guarded_usable {A B} (op : client_op A) (f : A -> HostClientResult B) c
    (post : A -> Client.HostClient -> Prop) :
  Client.connection_state c = CONNECTION_READY ->
  runs op (in_flight c) post ->
  exists result c1 state,
    guarded (do? a := op in lift (f a)) c
    = Some (result, c1 <| Client.connection_state := state |>)
    /\ ((exists a, post a c1 /\ result = f a) /\ state = (if completes result
           then CONNECTION_READY else CONNECTION_UNUSABLE)
        \/ completes result = false /\ state = CONNECTION_UNUSABLE).
Proof.
  intros Hc. unfold runs, guarded, begin_request_operation, bind, read, modify, attempt,
    finish_request_operation, lift. rewrite Hc. cbn.
  unfold in_flight. cbn. destruct (op _) as [[[a|e] c1]|]; [|intros He|done].
  - intros Hpost. eexists _, c1, _. split; [done|]. left. eauto.
  - exists (Err e), c1, CONNECTION_UNUSABLE. cbn in *. rewrite He. auto.
Qed.

Lemma guarded_ext {A} (op op' : client_op A) c :
  (forall s, op s = op' s) -> guarded op c = guarded op' c.
Proof.
  intros H. unfold guarded, bind, attempt. destruct (begin_request_operation c) as [[[[]|e] s]|]; [|done..].
  by rewrite H.
Qed.

Lemma guarded_refused {A} (op : client_op A) c :
  unusable c -> exists e, guarded op c = Some (Err e, c) /\ completes (A := A) (Err e) = false.
Proof.
  unfold unusable, guarded, begin_request_operation, bind, read, throw. intros ->. by eexists.
Qed.

(** ** The calls of a client, one after the other *)

Inductive client_call : Type :=
| CallHello (client_name : string)
| CallRequest (timer : option Progress.Progress) (method : string) (params : value)
    (timeout_ms : Z)
| CallRequestWithId (timer : option Progress.Progress) (request_id method : string)
    (params : value) (timeout_ms : Z)
| CallBatch (requests : list batch_request)
| CallWithCancel (cancel : option Cancelled.Cancelled) (method : string)
    (params cancel_params : value)
| CallWaitWithCancel (cancel : option Cancelled.Cancelled) (params : value).

Abbreviation call_result := (HostClientResult HostResponse.HostResponse).

Definition single (op : client_op HostResponse.HostResponse) (c : Client.HostClient)
    : option (list call_result * Client.HostClient) :=
  match op c with Some (result, c') => Some ([result], c') | None => None end.

Definition perform (call : client_call) (c : Client.HostClient)
    : option (list call_result * Client.HostClient) :=
  match call with
  | CallHello client_name => single (hello client_name) c
  | CallRequest timer method params timeout_ms =>
      single (request_with_timeout timer method params timeout_ms) c
  | CallRequestWithId timer request_id method params timeout_ms =>
      single (request_with_id_and_timeout timer request_id method params timeout_ms) c
  | CallBatch requests =>
      match request_batch_with_ids_all requests c with
      | Some (Ok results, c') => Some (results, c')
      | Some (Err error, c') => Some ([Err error], c')
      | None => None
      end
  | CallWithCancel cancel method params cancel_params =>
      single (request_with_cancel cancel method params cancel_params) c
  | CallWaitWithCancel cancel params => single (wait_for_window_with_cancel cancel params) c
  end.

(** The ids of a call's requests. *)
Definition call_ids (c : Client.HostClient) (call : client_call) : list string :=
  match call with
  | CallHello _ | CallRequest _ _ _ _ | CallWithCancel _ _ _ _ | CallWaitWithCancel _ _ =>
      [generated_id (Client.next_request_id c)]
  | CallRequestWithId _ request_id _ _ _ => [request_id]
  | CallBatch requests => map batch_id requests
  end.

Definition response_value (result : call_result) : option value :=
  match result with
  | Ok response => Some (HostResponse.value response)
  | Err (ClientError.Remote _ _ response) => Some response
  | Err _ => None
  end.

(** Where the cancellation finds the call, if one comes before the response. *)
Definition cancelled_at (call : client_call) : option Cancelled.Cancelled :=
  match call with
  | CallWithCancel cancel _ _ _ | CallWaitWithCancel cancel _ => cancel
  | _ => None
  end.

(** In the middle of a frame, whose first bytes are lost. *)
Definition torn (call : client_call) : Prop :=
  exists at_, cancelled_at call = Some at_ /\ Cancelled.bytes at_ <> 0%nat.

(** A result that is the Host's response under an id. *)
Definition is_answer (id : string) (result : call_result) : Prop :=
  exists v, response_value result = Some v /\ as_str v.["request_id"] = Some id.

(** How a call on a usable connection ends: every request has its own answer, and the
    connection remains in step; or the call failed here. *)
Definition ends_in_step (c : Client.HostClient) (call : client_call)
    (results : list call_result) (c' : Client.HostClient) : Prop :=
  (Forall2 is_answer (call_ids c call) results /\ usable c'
     /\ whole_frames (arriving c) (arriving c'))
  \/ exists e, results = [Err e] /\ completes (A := unit) (Err e) = false /\ left_in_step c c'.

(** The Host answered the request for the cancellation with an error, which is the
    result of the call. *)
Definition cancellation_refused (c : Client.HostClient) (call : client_call)
    (results : list call_result) : Prop :=
  is_Some (cancelled_at call) /\ exists e, results = [Err e]
    /\ is_answer (generated_id (saturating_add (Client.next_request_id c) 1)) (Err e).

Lemma into_result_answer id r : answers id r -> is_answer id (into_result r).
Proof.
  intros [<- Hf]. unfold is_answer, into_result.
  destruct (is_str _ _); by eexists.
Qed.

Lemma into_result_completes r : completes (into_result r) = true.
Proof. unfold into_result. by destruct (is_str _ _). Qed.

Lemma ends_refused c call e c' :
  completes (A := unit) (Err e) = false -> left_in_step c c' -> ends_in_step c call [Err e] c'.
Proof. intros He Hl. right. eauto. Qed.

Lemma left_same c : usable c -> left_in_step c c.
Proof. intros H. by left. Qed.

(** One request under the guard. *)
Definition exchanged (id : string) (c : Client.HostClient) (result : call_result)
    (c' : Client.HostClient) : Prop :=
  is_answer id result /\ usable c' /\ whole_frames (arriving c) (arriving c')
  \/ exists e, result = Err e /\ completes (A := unit) (Err e) = false /\ unusable c'.

Lemma guarded_exchange id (op : client_op HostResponse.HostResponse)
    (op' : client_op Received.ReceivedResponse) c :
  usable c -> (forall s, op s = (do? r := op' in lift (into_result r)) s) ->
  runs op' (in_flight c) (fun r c' => answers id r /\ settled c c') ->
  exists result c', guarded op c = Some (result, c') /\ exchanged id c result c'.
Proof.
  intros [Hready Hidle] Hop Hruns.
  destruct (guarded_usable op' into_result c _ Hready Hruns) as (result & c1 & state & E & Hcase).
  rewrite <- (guarded_ext _ _ c Hop) in E. eexists _, _. split; [exact E|].
  destruct Hcase as [[(r & (Ha & Hidle1 & Hw & Hh) & ->) ->]|[Hf ->]].
  - left. rewrite into_result_completes. split; [by apply into_result_answer|]. by split_and!.
  - right. destruct result as [|e]; [done|]. by exists e.
Qed.

Lemma request_inner_usable method params c :
  usable c ->
  exists result c', request_inner method params c = Some (result, c')
    /\ exchanged (generated_id (Client.next_request_id c)) c result c'.
Proof.
  intros Hc. apply (guarded_exchange _ _ (do? id := send_request method params in
    receive_for_request_raw id) _ Hc); [intros s; by rewrite bind_assoc|].
  destruct Hc as [_ Hidle]. unfold send_request, next_request_id.
  apply runs_bind, runs_bind, runs_bind, runs_read, runs_bind, runs_modify, runs_ret.
  set (n := Client.next_request_id _). fold (generated_id n). apply runs_bind_inv.
  match goal with |- runs _ ?s _ => set (c1 := s); assert (idle c1) as Hidle1 by exact Hidle end.
  eapply runs_mono; [exact (runs_exchange (generated_id n) method params c1 Hidle1)|].
  intros r c' (Ha & Hs & _). by split.
Qed.

Lemma request_inner_with_id_usable id method params c :
  usable c ->
  exists result c', request_inner_with_id id method params c = Some (result, c')
    /\ exchanged id c result c'.
Proof.
  intros Hc. apply (guarded_exchange _ _ (do? id := send_request_with_id id method params in
    receive_for_request_raw id) _ Hc); [intros s; by rewrite bind_assoc|].
  destruct Hc as [_ Hidle].
  eapply runs_mono; [apply (runs_exchange id method params (in_flight c) Hidle)|].
  intros r c' (Ha & Hs & _). by split.
Qed.

Lemma exchanged_ends c call id result c' :
  call_ids c call = [id] -> exchanged id c result c' -> ends_in_step c call [result] c'.
Proof.
  intros Hid [(Ha & Hu & Hw)|(e & -> & He & Hu)].
  - left. rewrite Hid. split_and!; [|done..]. by apply Forall2_cons; split; [|constructor].
  - apply ends_refused; [done | by right].
Qed.

Lemma timed_usable {A} (timer : option Progress.Progress) timeout_ms (op : client_op A) c post :
  usable c -> (timer = None -> exists result c', op c = Some (result, c') /\ post result c') ->
  exists result c', timed timer timeout_ms op c = Some (result, c')
    /\ (post result c'
        \/ exists e, result = Err e /\ completes (A := unit) (Err e) = false /\ unusable c').
Proof.
  intros [Hready _] Hop. destruct timer as [progress|]; [|destruct (Hop eq_refl) as (r & c' & ? & ?); eauto].
  unfold timed, begin_request_operation, bind, read, modify, throw. rewrite Hready.
  eexists _, _. split; [done|]. right. by eexists.
Qed.

Lemma bind_read {A B} (f : Client.HostClient -> A) (k : A -> client_op B) c :
  bind (read f) k c = k (f c) c.
Proof. done. Qed.

Lemma refuse_false {A} e (k : client_op A) c :
  bind (refuse_if false e) (fun _ => k) c = k c.
Proof. done. Qed.

Lemma capabilities_fail v e :
  response_capabilities v = Err e -> completes (A := unit) (Err e) = false.
Proof.
  unfold response_capabilities. destruct (get v "capabilities") as [names|]; [|done].
  destruct (as_array names) as [l|]; [|by intros [= <-]]. cbn. clear.
  induction l as [|w l IH] in e |- *; [done|]. cbn. destruct (as_str w); [|by intros [= <-]]. cbn.
  destruct (foldr _ _ l); [done|]. cbn. intros [= <-]. by apply IH.
Qed.

Lemma hello_usable client_name c :
  usable c ->
  exists result c', hello client_name c = Some (result, c')
    /\ ends_in_step c (CallHello client_name) [result] c'.
Proof.
  intros Hc. unfold hello. rewrite bind_read.
  destruct (Client.hello_complete c) eqn:Hh.
  { eexists _, _. split; [done|]. apply ends_refused; [done | by apply left_same]. }
  rewrite refuse_false, bind_read.
  destruct (request_inner_usable "hello" (Object
    [("protocol_version", Number (PosInt HOST_PROTOCOL_VERSION)); ("client_name", Str client_name);
     ("snapshot_transport", Str (as_wire_name (Client.snapshot_transport c)))]) c Hc)
    as (result & c1 & E & Hx).
  pose proof (exchanged_ends _ (CallHello client_name) _ _ _ eq_refl Hx) as Hends.
  unfold bind at 1. rewrite E. destruct result as [response|e]; [|by eexists _, _].
  destruct Hx as [(Ha & Hu & Hw)|(e & [=] & _)].
  assert (left_in_step c c1) as Hleft by (by left).
  destruct (negb _).
  { eexists _, _. split; [done|]. by apply ends_refused. }
  rewrite refuse_false. unfold bind at 1, lift at 1.
  destruct (response_capabilities _) as [names|e] eqn:Hcap.
  - eexists _, _. split; [done|].
    left. split_and!; [by repeat constructor | by destruct Hu | done].
  - eexists _, _. split; [done|].
    apply ends_refused; [|done]. by apply capabilities_fail in Hcap.
Qed.

(** A call that is refused before it begins. *)
Definition refused {A} (op : client_op A) (c : Client.HostClient) : Prop :=
  exists e, op c = Some (Err e, c) /\ completes (A := unit) (Err e) = false.

Lemma require_hello_cases {A} (k : client_op A) c :
  bind require_hello (fun _ => k) c = k c \/ refused (bind require_hello (fun _ => k)) c.
Proof.
  unfold refused, require_hello, bind, read, refuse_if.
  destruct (Client.hello_complete c); cbn; [by left | right; by eexists].
Qed.

Lemma checked_cases {A B} (r : HostClientResult A) (k : client_op B) c :
  (forall e, r = Err e -> completes (A := unit) (Err e) = false) ->
  bind (lift r) (fun _ => k) c = k c \/ refused (bind (lift r) (fun _ => k)) c.
Proof.
  intros H. unfold refused, bind, lift. destruct r as [a|e]; [by left | right].
  exists e. by split; [|apply H].
Qed.

Lemma valid_id_fails id e :
  validate_client_request_id id = Err e -> completes (A := unit) (Err e) = false.
Proof. unfold validate_client_request_id. by destruct (validate_request_id id); [|intros [= <-]]. Qed.

Lemma single_ends op c call result c' :
  op c = Some (result, c') -> ends_in_step c call [result] c' ->
  exists results c', single op c = Some (results, c') /\ ends_in_step c call results c'.
Proof. intros E H. unfold single. rewrite E. by eexists _, _. Qed.

Lemma single_refused op c call :
  usable c -> refused op c ->
  exists results c', single op c = Some (results, c') /\ ends_in_step c call results c'.
Proof.
  intros Hc (e & E & He). eapply single_ends; [done|]. apply ends_refused; [done|].
  by apply left_same.
Qed.

(** One timed request. *)
Lemma timed_ends timer timeout_ms op call id c :
  usable c -> call_ids c call = [id] ->
  (exists result c', op c = Some (result, c') /\ exchanged id c result c') ->
  exists result c', timed timer timeout_ms op c = Some (result, c')
    /\ ends_in_step c call [result] c'.
Proof.
  intros Hc Hid Hop. destruct (timed_usable timer timeout_ms op c (exchanged id c) Hc)
    as (result & c' & E & Hcase); [done|].
  exists result, c'. split; [done|].
  destruct Hcase as [Hx|(e & -> & He & Hu)]; [by eapply exchanged_ends|].
  apply ends_refused; [done | by right].
Qed.

Lemma try_each_fails {A} (f : A -> HostClientResult unit) l e :
  (forall a e, f a = Err e -> completes (A := unit) (Err e) = false) ->
  try_each f l = Err e -> completes (A := unit) (Err e) = false.
Proof.
  intros H. induction l as [|a l IH]; [done|]. cbn. destruct (f a) eqn:Hf; [done|].
  cbn. intros [= <-]. by eapply H.
Qed.

Lemma publishers_fail publishers requests e :
  publishers_distinct publishers requests = Err e -> completes (A := unit) (Err e) = false.
Proof.
  revert publishers. induction requests as [|[[id method] params] requests IH]; intros publishers; [done|].
  cbn. destruct (shared_memory_handoff_slot _ _); [|apply IH].
  case_bool_decide; [by intros [= <-] | apply IH].
Qed.

Lemma check_batch_fails transport requests e :
  check_batch transport requests = Err e -> completes (A := unit) (Err e) = false.
Proof.
  unfold check_batch. destruct (_ <? _); [by intros [= <-]|].
  destruct (existsb _ _); [by intros [= <-]|].
  destruct (validate_shared_memory_batch_handoffs transport requests) eqn:Hs; cbn.
  2: { intros [= <-]. destruct transport; [done|]. by eapply publishers_fail. }
  destruct (try_each _ _) eqn:Hids; cbn.
  - case_bool_decide; [done | by intros [= <-]].
  - intros [= <-]. eapply try_each_fails; [|done]. intros request e'. apply valid_id_fails.
Qed.

Lemma guarded_batch requests c :
  usable c ->
  exists out c', guarded (do? ids := send_all requests in run? flush in receive_all ids) c
      = Some (out, c')
    /\ ((exists received, out = Ok (map into_result received)
           /\ Forall2 answers (map batch_id requests) received
           /\ usable c' /\ whole_frames (arriving c) (arriving c'))
        \/ exists e, out = Err e /\ completes (A := unit) (Err e) = false /\ unusable c').
Proof.
  intros [Hready Hidle].
  set (op := do? ids := send_all requests in _).
  destruct (guarded_usable op Ok c _ Hready (runs_batch requests (in_flight c) Hidle))
    as (out & c1 & state & E & Hcase).
  rewrite <- (guarded_ext op _ c) in E.
  2: { intros s. unfold bind at 1, lift. by destruct (op s) as [[[a|e] s']|]. }
  eexists _, _. split; [exact E|].
  destruct Hcase as [[(results & (received & -> & Hall & Hs & Hw & _) & ->) ->]|[Hf ->]].
  - left. exists received. by split_and!.
  - right. destruct out as [|e]; [done|]. by exists e.
Qed.

Lemma batch_usable requests c :
  usable c ->
  exists results c', perform (CallBatch requests) c = Some (results, c')
    /\ ends_in_step c (CallBatch requests) results c'.
Proof.
  intros Hc. cbn [perform]. unfold request_batch_with_ids_all.
  assert (forall op : client_op (list call_result), refused op c ->
    exists results c', match op c with
      | Some (Ok results, c') => Some (results, c')
      | Some (Err error, c') => Some ([Err error], c')
      | None => None
      end = Some (results, c') /\ ends_in_step c (CallBatch requests) results c') as Hrefused.
  { intros op (e & -> & He). eexists _, _. split; [done|]. apply ends_refused; [done | by apply left_same]. }
  edestruct @require_hello_cases as [E|E]; [rewrite E; clear E | by apply Hrefused].
  rewrite bind_read.
  edestruct @checked_cases as [E|E]; [intros e; apply check_batch_fails | rewrite E; clear E | by apply Hrefused].
  destruct (guarded_batch requests c Hc) as (out & c' & -> & [(received & -> & Hall & Hu & Hw)|(e & -> & He & Hu)]).
  - eexists _, _. split; [done|]. left. split; [|done]. cbn [call_ids].
    apply Forall2_fmap_r. eapply Forall2_impl; [done|]. intros id r. apply into_result_answer.
  - eexists _, _. split; [done|]. apply ends_refused; [done | by right].
Qed.

(** ** Every call returns *)

Lemma total_loop {A B} (round : A -> client_op (A + B)) fuel a :
  (forall a, total (round a)) -> total (loop fuel round a).
Proof. intros Hr. revert a. induction fuel; intros a; cbn [loop]; total; done. Qed.

(** From any connection, tracked or not: a round consumes bytes. *)
Lemma runs_receive_round_shrinks id c :
  runs (receive_round id tt) c (fun _ c' => (length (arriving c') < length (arriving c))%nat).
Proof.
  unfold receive_round. apply runs_bind. eapply runs_mono; [apply runs_receive_response|].
  intros r c1 (_ & Hlt & _). apply runs_bind, runs_read, runs_bind, runs_refuse_if. intros _.
  case_bool_decide.
  - by apply runs_bind, runs_modify, runs_ret.
  - apply runs_bind, runs_read, runs_bind, runs_modify, runs_bind, runs_refuse_if. intros _.
    by apply runs_ret.
Qed.

Lemma runs_receive_loop_ends n id c :
  (length (arriving c) < n)%nat ->
  runs (loop n (receive_round id) tt) c (fun r _ => is_Some r).
Proof.
  revert c. induction n as [|n IH]; intros c Hn; [lia|]. cbn [loop]. apply runs_bind.
  eapply runs_mono; [apply runs_receive_round_shrinks|]. intros [[]|r] c1 Hlt.
  - apply IH. lia.
  - by apply runs_ret.
Qed.

Lemma total_runs {A} (m : client_op A) :
  (forall c, runs m c (fun _ _ => True)) -> total m.
Proof. intros H c. specialize (H c). unfold runs in H. by destruct (m c) as [[[]]|]. Qed.

Lemma total_receive_round id u : total (receive_round id u).
Proof.
  apply total_runs. intros c. destruct u.
  eapply runs_mono; [apply runs_receive_round_shrinks | done].
Qed.

Lemma total_receive_raw id : total (receive_for_request_raw id).
Proof.
  unfold receive_for_request_raw, take_pending. apply total_bind; [total|].
  intros [r|]; [total|]. apply total_runs. intros c. apply runs_bind, runs_read, runs_bind.
  eapply runs_mono; [apply runs_receive_loop_ends; unfold receive_rounds; lia|].
  by intros o c' [r ->].
Qed.
#[local] Hint Resolve total_receive_raw : total.

Lemma total_receive id : total (receive_for_request id).
Proof. unfold receive_for_request. total. Qed.
#[local] Hint Resolve total_receive : total.

Lemma total_refuse_if b e : total (refuse_if b e : client_op unit).
Proof. unfold refuse_if. total. Qed.
#[local] Hint Resolve total_refuse_if : total.

Lemma total_send_unflushed id method params :
  total (send_request_unflushed_with_id id method params).
Proof.
  unfold send_request_unflushed_with_id, register_outstanding_request. total.
  intros c. unfold send_frame. by destruct (write_frame_unflushed _ _ _) as [w r].
Qed.
#[local] Hint Resolve total_send_unflushed : total.

Lemma total_send id method params : total (send_request_with_id id method params).
Proof. unfold send_request_with_id, flush. total. Qed.
#[local] Hint Resolve total_send : total.

Lemma total_send_numbered method params : total (send_request method params).
Proof. unfold send_request, next_request_id. total. Qed.
#[local] Hint Resolve total_send_numbered : total.

Lemma total_guarded {A} (op : client_op A) : total op -> total (guarded op).
Proof.
  intros H. unfold guarded, begin_request_operation, finish_request_operation. total; done.
Qed.

Lemma total_timed {A} timer timeout_ms (op : client_op A) : total op -> total (timed timer timeout_ms op).
Proof. intros H. unfold timed, begin_request_operation. total; done. Qed.

Lemma total_receive_or_cancel cancel id : total (receive_or_cancel cancel id).
Proof.
  unfold receive_or_cancel. destruct cancel; total. apply total_loop. apply total_receive_round.
Qed.
#[local] Hint Resolve total_receive_or_cancel : total.

Lemma total_send_all requests : total (send_all requests).
Proof. induction requests as [|[[id method] params] requests IH]; cbn [send_all]; total; done. Qed.
Lemma total_receive_all ids : total (receive_all ids).
Proof. induction ids as [|id ids IH]; cbn [receive_all]; total; done. Qed.

Lemma perform_total call c : perform call c <> None.
Proof.
  assert (forall op : client_op HostResponse.HostResponse, total op -> single op c <> None)
    as Hsingle.
  { intros op H. specialize (H c). unfold single. by destruct (op c) as [[]|]. }
  destruct call; cbn [perform]; try apply Hsingle.
  - unfold hello, request_inner. total. apply total_guarded. total.
  - unfold request_with_timeout, request_inner, require_hello. total.
    apply total_timed, total_guarded. total.
  - unfold request_with_id_and_timeout, request_inner_with_id, require_hello. total.
    apply total_timed, total_guarded. total.
  - assert (total (request_batch_with_ids_all requests)) as H.
    { unfold request_batch_with_ids_all, require_hello, flush. total.
      apply total_guarded. total; [apply total_send_all | apply total_receive_all]. }
    specialize (H c). by destruct (request_batch_with_ids_all requests c) as [[[]]|].
  - unfold request_with_cancel, require_hello. total. apply total_guarded. total.
  - unfold wait_for_window_with_cancel, require_hello. total. apply total_guarded. total.
Qed.

(** ** Cancelled calls *)

(** The operation ends, with a result that [post] allows. *)
Definition ends {A} (m : client_op A) (c : Client.HostClient)
    (post : HostClientResult A -> Client.HostClient -> Prop) : Prop :=
  match m c with Some (result, c') => post result c' | None => False end.

Lemma ends_mono {A} (m : client_op A) c (post post' : HostClientResult A -> _ -> Prop) :
  ends m c post -> (forall r c', post r c' -> post' r c') -> ends m c post'.
Proof. unfold ends. destruct (m c) as [[r c']|]; eauto. Qed.
Lemma ends_runs {A} (m : client_op A) c (Q : A -> Client.HostClient -> Prop) :
  runs m c Q ->
  ends m c (fun r c' => match r with
                        | Ok a => Q a c'
                        | Err e => completes (A := A) (Err e) = false
                        end).
Proof. unfold runs, ends. by destruct (m c) as [[[a|e] c']|]. Qed.
Lemma ends_total {A} (m : client_op A) c : total m -> ends m c (fun _ _ => True).
Proof. intros H. specialize (H c). unfold ends. by destruct (m c) as [[]|]. Qed.
Lemma ends_lift {A} (r : HostClientResult A) c (post : HostClientResult A -> _ -> Prop) :
  post r c -> ends (lift r) c post.
Proof. done. Qed.
(** After the first operation: it runs on, or it failed here. *)
Lemma ends_bind {A B} (m : client_op A) (k : A -> client_op B) c Q
    (post : HostClientResult B -> Client.HostClient -> Prop) :
  runs m c Q ->
  (forall e c', completes (A := B) (Err e) = false -> post (Err e) c') ->
  (forall a c', Q a c' -> ends (k a) c' post) -> ends (bind m k) c post.
Proof.
  unfold runs, ends, bind. intros Hm He Hk. destruct (m c) as [[[a|e] c']|]; [|auto|done].
  by apply Hk.
Qed.
(** The same for an operation whose errors are results. *)
Lemma ends_attempt {A B} (m : client_op A) (k : HostClientResult A -> client_op B) c Q
    (post : HostClientResult B -> Client.HostClient -> Prop) :
  ends m c Q -> (forall r c', Q r c' -> ends (k r) c' post) -> ends (bind (attempt m) k) c post.
Proof.
  unfold ends, bind, attempt. intros Hm Hk. destruct (m c) as [[r c']|]; [by apply Hk | done].
Qed.

(** One response, as its result. *)
Lemma ends_receive id c :
  tracked c ->
  ends (receive_for_request id) c (fun r c' =>
    is_answer id r /\ handed_out id c c' \/ completes r = false).
Proof.
  intros Htr. unfold receive_for_request. eapply ends_bind.
  - by apply runs_receive_for_request_raw.
  - auto.
  - intros r c' [Ha Hout]. apply ends_lift. left. split; [by apply into_result_answer | done].
Qed.

(** Some rounds: the response was handed out, or it is still awaited. *)
Definition some_rounds (id : string) (c : Client.HostClient)
    (response : option Received.ReceivedResponse) (c' : Client.HostClient) : Prop :=
  match response with
  | Some r => answers id r /\ handed_out id c c'
  | None => tracked c'
      /\ Client.outstanding_request_ids c' = Client.outstanding_request_ids c
      /\ whole_frames (arriving c) (arriving c')
      /\ Client.next_request_id c' = Client.next_request_id c
      /\ Client.hello_complete c' = Client.hello_complete c
  end.

Lemma runs_some_rounds n id c :
  tracked c -> Client.pending_responses c !! id = None ->
  runs (loop n (receive_round id) tt) c (some_rounds id c).
Proof.
  revert c. induction n as [|n IH]; intros c Htr Hid; cbn [loop]; [by apply runs_ret|].
  apply runs_bind. eapply runs_mono; [by apply runs_receive_round|].
  intros [[]|r] c1 [_ H1]; [|by apply runs_ret].
  destruct H1 as (Hid1 & Htr1 & Ho & Hw & Hwr & Hnx & Hh).
  eapply runs_mono; [by apply IH|]. intros [r|] c2.
  - intros (Hr & Htr2 & Ho2 & Hw2 & Hwr2 & Hnx2 & Hh2). split; [done|].
    split_and!; [done | | by etrans | congruence..]. by rewrite Ho2, Ho.
  - intros (Htr2 & Ho2 & Hw2 & Hnx2 & Hh2).
    split_and!; [done | congruence | by etrans | congruence..].
Qed.

(** How a call that is cancelled between two frames may end under the guard: its own
    response, with everything handed out; a refused cancellation; an error here. *)
Definition cancelled_end (id cancel_id : string) (c : Client.HostClient)
    (result : call_result) (c' : Client.HostClient) : Prop :=
  is_answer id result /\ settled c c'
  \/ (exists e, result = Err e /\ is_answer cancel_id (Err e))
  \/ completes result = false.

(** The operation [rest] takes over when the call is cancelled: it awaits the response. *)
Lemma ends_cancellable at_ method params (rest : string -> client_op HostResponse.HostResponse) c :
  let id := generated_id (Client.next_request_id c) in
  let next := saturating_add (Client.next_request_id c) 1 in
  idle c -> Cancelled.bytes at_ = 0%nat ->
  (forall c1, tracked c1 -> Client.outstanding_request_ids c1 = {[id]} ->
     Client.next_request_id c1 = next ->
     ends (rest id) c1 (cancelled_end id (generated_id next) c1)) ->
  ends (do? request_id := send_request method params in
        do? received := receive_or_cancel (Some at_) request_id in
        match received with
        | Some received => lift (into_result received)
        | None => rest request_id
        end) c (cancelled_end id (generated_id next) c).
Proof.
  intros id next Hidle Hbytes Hrest.
  assert (forall e c', completes (A := HostResponse.HostResponse) (Err e) = false ->
    cancelled_end id (generated_id next) c (Err e) c') as Hfail by (right; right; done).
  eapply (ends_bind _ _ _ (fun id' c1 => id' = id /\ tracked c1
    /\ Client.pending_responses c1 !! id = None
    /\ Client.outstanding_request_ids c1 = {[id]} /\ Client.reader c1 = Client.reader c
    /\ Client.next_request_id c1 = next
    /\ Client.hello_complete c1 = Client.hello_complete c)); [|done|].
  { unfold send_request, next_request_id.
    apply runs_bind, runs_bind, runs_read, runs_bind, runs_modify, runs_ret.
    match goal with |- runs _ ?s _ => set (c0 := s); assert (idle c0) as Hidle0 by exact Hidle end.
    eapply runs_mono; [apply runs_send_request_with_id|]. intros id' c1 [-> Hs].
    pose proof (sent_tracked _ _ _ Hs (idle_tracked _ Hidle0)) as Htr.
    destruct Hs as (_ & Hp0 & Ho & Hp & Hr & Hn & Hh). destruct Hidle0 as [Hout Hpend].
    rewrite Hpend in Hp. rewrite Hout in Ho.
    split_and!; [done | done | by rewrite Hp, lookup_empty | | done..].
    rewrite Ho. apply leibniz_equiv. set_solver. }
  intros id' c1 (-> & Htr & Hp & Ho & Hr & Hn & Hh). cbn [receive_or_cancel].
  apply (ends_bind _ _ _ (some_rounds id c1)); [|done|].
  { apply runs_bind. eapply runs_mono; [by apply (runs_some_rounds (Cancelled.rounds at_) id c1)|].
    intros [r|] c2 H; [by apply runs_ret|].
    apply runs_bind, runs_modify, runs_ret. rewrite Hbytes.
    assert (consume_bytes 0 c2 = c2) as -> by (unfold consume_bytes; by destruct c2 as [[]]).
    exact H. }
  intros [r|] c2.
  - intros (Ha & Htr2 & Ho2 & Hw2 & _ & Hn2 & Hh2). apply ends_lift. left.
    split; [by apply into_result_answer|]. split_and!; [|by rewrite <- Hr|congruence].
    apply tracked_idle; [done|]. rewrite Ho2, Ho. set_solver.
  - intros (Htr2 & Ho2 & Hw2 & Hn2 & Hh2).
    eapply ends_mono; [apply Hrest; [done | congruence | congruence]|].
    intros result c3 [[Ha (Hi & Hw3 & Hh3)]|[H|H]]; [left | by right; left | by right; right].
    split; [done|]. split_and!; [done | | by rewrite Hh3, Hh2]. rewrite <- Hr. by etrans.
Qed.

Lemma answers_apart id id' r : is_answer id r -> is_answer id' r -> id = id'.
Proof. intros (v & Hv & Hi) (v' & Hv' & Hi'). congruence. Qed.

(** The request for the cancellation, sent while the response under [id] is awaited. *)
Lemma runs_send_cancel id method params c :
  tracked c -> Client.outstanding_request_ids c = {[id]} ->
  runs (send_request method params) c (fun cancel_id c1 =>
    cancel_id = generated_id (Client.next_request_id c) /\ cancel_id <> id
    /\ tracked c1 /\ Client.outstanding_request_ids c1 = {[cancel_id; id]}
    /\ Client.reader c1 = Client.reader c
    /\ Client.hello_complete c1 = Client.hello_complete c).
Proof.
  intros Htr Hout. unfold send_request, next_request_id.
  apply runs_bind, runs_bind, runs_read, runs_bind, runs_modify, runs_ret.
  match goal with |- runs _ ?s _ => set (c0 := s); assert (tracked c0) as Htr0 by exact Htr end.
  eapply runs_mono; [apply runs_send_request_with_id|]. intros cancel_id c1 [-> Hs].
  pose proof (sent_tracked _ _ _ Hs Htr0) as Htr1.
  destruct Hs as (Hnin & _ & Ho & _ & Hr & _ & Hh). cbn in *. rewrite Hout in *.
  split_and!; [done | set_solver | done | done | done | done].
Qed.

(** Both responses handed out. *)
Lemma both_settled id cancel_id c c1 c2 :
  Client.outstanding_request_ids c = {[cancel_id; id]} ->
  handed_out cancel_id c c1 -> handed_out id c1 c2 -> settled c c2.
Proof.
  intros Ho (Htr1 & Ho1 & Hw1 & _ & _ & Hh1) (Htr2 & Ho2 & Hw2 & _ & _ & Hh2).
  split_and!; [|by etrans|congruence].
  apply tracked_idle; [done|]. rewrite Ho2, Ho1, Ho. apply leibniz_equiv. set_solver.
Qed.

Lemma settled_from c c1 c2 :
  Client.reader c1 = Client.reader c -> Client.hello_complete c1 = Client.hello_complete c ->
  settled c1 c2 -> settled c c2.
Proof. intros Hr Hh (Hi & Hw & Hh'). rewrite Hr in Hw. split_and!; [done.. | congruence]. Qed.

(** A response that is an error, as the result. *)
Lemma error_end id cancel_id c c' (r : call_result) e :
  is_answer cancel_id r -> r = Err e -> cancelled_end id cancel_id c (Err e) c'.
Proof. intros Ha ->. right. left. by exists e. Qed.

Lemma ends_cancel_request id cancel_params c :
  tracked c -> Client.outstanding_request_ids c = {[id]} ->
  ends (do? cancel_id := send_request "cancel" cancel_params in
        do? cancel_result := attempt (receive_for_request cancel_id) in
        do? request_result := attempt (receive_for_request id) in
        run? lift cancel_result in
        lift request_result) c
    (cancelled_end id (generated_id (Client.next_request_id c)) c).
Proof.
  intros Htr Hout. set (cid := generated_id _). eapply ends_bind.
  { by apply runs_send_cancel. }
  { intros e c' He. by right; right. }
  intros cancel_id c1 (-> & Hne & Htr1 & Ho1 & Hr1 & Hh1). fold cid in Hne, Ho1 |- *.
  eapply ends_attempt; [by apply ends_receive|].
  intros [answer|e] c2 Hfirst.
  - destruct Hfirst as [[_ Hout2]|]; [|done].
    eapply ends_attempt; [apply ends_receive, Hout2|]. intros result c3 Hsecond.
    unfold ends, bind, lift. destruct Hsecond as [[Ha Hout3]|He]; [left | by right; right].
    split; [done|]. eapply settled_from; [done | done | by eapply both_settled].
  - eapply ends_attempt; [apply ends_total, total_receive|]. intros result c3 _.
    unfold ends, bind, lift. destruct Hfirst as [[Ha _]|He]; [|by right; right].
    by eapply error_end.
Qed.

Lemma ends_cancel_wait id cancel_params c :
  tracked c -> Client.outstanding_request_ids c = {[id]} ->
  ends (do? cancel_id := send_request "cancel_window_wait" cancel_params in
        run? receive_for_request cancel_id in
        receive_for_request id) c
    (cancelled_end id (generated_id (Client.next_request_id c)) c).
Proof.
  intros Htr Hout. set (cid := generated_id _). eapply ends_bind.
  { by apply runs_send_cancel. }
  { intros e c' He. by right; right. }
  intros cancel_id c1 (-> & Hne & Htr1 & Ho1 & Hr1 & Hh1). fold cid in Hne, Ho1 |- *.
  pose proof (ends_receive cid c1 Htr1) as Hfirst. unfold ends, bind in *.
  destruct (receive_for_request cid c1) as [[[answer|e] c2]|]; [| |done].
  - destruct Hfirst as [[_ Hout2]|]; [|done].
    pose proof (ends_receive id c2 (proj1 Hout2)) as Hsecond. unfold ends in Hsecond.
    destruct (receive_for_request id c2) as [[result c3]|]; [|done].
    destruct Hsecond as [[Ha Hout3]|He]; [left | by right; right].
    split; [done|]. eapply settled_from; [done | done | by eapply both_settled].
  - destruct Hfirst as [[Ha _]|He]; [|by right; right]. by eapply error_end.
Qed.

Lemma guarded_ends {A} (op : client_op A) c post :
  Client.connection_state c = CONNECTION_READY -> ends op (in_flight c) post ->
  exists result c1, guarded op c = Some (result, c1 <| Client.connection_state :=
      if completes result then CONNECTION_READY else CONNECTION_UNUSABLE |>)
    /\ post result c1.
Proof.
  intros Hc. unfold ends, guarded, begin_request_operation, bind, read, modify, attempt,
    finish_request_operation, lift. rewrite Hc. unfold in_flight. cbn.
  destruct (op _) as [[result c1]|]; [|done]. intros H. exists result, c1. by split.
Qed.

(** A cancellable call whose cancellation comes between two frames, or not at all. *)
Lemma cancellable_usable cancel method params rest c :
  usable c -> (forall at_, cancel = Some at_ -> Cancelled.bytes at_ = 0%nat) ->
  let id := generated_id (Client.next_request_id c) in
  let next := saturating_add (Client.next_request_id c) 1 in
  (forall c1, tracked c1 -> Client.outstanding_request_ids c1 = {[id]} ->
     Client.next_request_id c1 = next ->
     ends (rest id) c1 (cancelled_end id (generated_id next) c1)) ->
  exists result c', guarded
      (do? request_id := send_request method params in
       do? received := receive_or_cancel cancel request_id in
       match received with
       | Some received => lift (into_result received)
       | None => rest request_id
       end) c = Some (result, c')
    /\ (exchanged id c result c'
        \/ is_Some cancel /\ exists e, result = Err e /\ is_answer (generated_id next) (Err e)).
Proof.
  intros Hc Hbytes id next Hrest. destruct cancel as [at_|].
  - destruct Hc as [Hready Hidle].
    destruct (guarded_ends _ c _ Hready (ends_cancellable at_ method params rest (in_flight c)
      Hidle (Hbytes at_ eq_refl) Hrest)) as (result & c1 & E & H).
    eexists _, _. split; [exact E|]. destruct H as [[Ha (Hi & Hw & _)]|[(e & -> & Ha)|He]].
    + left. left. assert (completes result = true) as ->.
      { destruct Ha as (v & Hv & _). by destruct result as [|[]]. }
      by split_and!.
    + right. by split; [eexists | exists e].
    + left. right. rewrite He. destruct result as [|e]; [done|]. by exists e.
  - destruct (request_inner_usable method params c Hc) as (result & c' & E & H).
    exists result, c'. split; [|by left]. rewrite <- E. apply guarded_ext. intros s.
    unfold receive_or_cancel, receive_for_request, bind.
    destruct (send_request method params s) as [[[id'|e] s1]|]; [|done..].
    by destruct (receive_for_request_raw id' s1) as [[[r|e] s2]|].
Qed.

Lemma plain_usable call c :
  usable c -> match call with
              | CallWithCancel _ _ _ _ | CallWaitWithCancel _ _ => False
              | _ => True
              end ->
  exists results c', perform call c = Some (results, c') /\ ends_in_step c call results c'.
Proof.
  intros Hc Hplain.
  destruct call as [name|timer method params ms|timer id method params ms|requests| |];
    [..|done|done].
  - destruct (hello_usable name c Hc) as (result & c' & E & H). by eapply single_ends.
  - cbn [perform]. unfold request_with_timeout.
    edestruct @require_hello_cases as [E|E]; [|by apply (single_refused _ _ _ Hc E)].
    destruct (timed_ends timer ms _ (CallRequest timer method params ms) _ c Hc eq_refl
      (request_inner_usable method params c Hc)) as (result & c' & E' & H).
    eapply single_ends; [by rewrite E | done].
  - cbn [perform]. unfold request_with_id_and_timeout.
    edestruct @require_hello_cases as [E|E]; [|by apply (single_refused _ _ _ Hc E)].
    edestruct (@checked_cases unit HostResponse.HostResponse) as [E2|E2];
      [intros e; apply valid_id_fails | | apply (single_refused _ _ _ Hc)].
    + destruct (timed_ends timer ms _ (CallRequestWithId timer id method params ms) _ c Hc eq_refl
        (request_inner_with_id_usable id method params c Hc)) as (result & c' & E' & H).
      eapply single_ends; [by rewrite E, E2 | done].
    + unfold refused in *. by rewrite E.
  - by apply batch_usable.
Qed.

Lemma cancellable_ends cancel method params rest call c :
  usable c -> ~ torn call -> cancelled_at call = cancel ->
  call_ids c call = [generated_id (Client.next_request_id c)] ->
  (forall c1, tracked c1 ->
     Client.outstanding_request_ids c1 = {[generated_id (Client.next_request_id c)]} ->
     ends (rest (generated_id (Client.next_request_id c))) c1
       (cancelled_end (generated_id (Client.next_request_id c))
          (generated_id (Client.next_request_id c1)) c1)) ->
  exists results c', single
      (run? require_hello in guarded
         (do? request_id := send_request method params in
          do? received := receive_or_cancel cancel request_id in
          match received with
          | Some received => lift (into_result received)
          | None => rest request_id
          end)) c = Some (results, c')
    /\ (ends_in_step c call results c' \/ cancellation_refused c call results).
Proof.
  intros Hc Htorn Hcancel Hids Hrest.
  edestruct (@require_hello_cases HostResponse.HostResponse) as [E|E];
    [|destruct (single_refused _ _ call Hc E) as (results & c' & E' & H); by eauto].
  unfold single. rewrite E. destruct (cancellable_usable cancel method params rest c Hc)
    as (result & c' & -> & [Hx|(Hs & e & -> & Ha)]).
  - intros at_ ->. destruct (Nat.eq_dec (Cancelled.bytes at_) 0); [done|].
    destruct Htorn. by exists at_.
  - intros c1 Htr Ho <-. by apply Hrest.
  - eexists _, _. split; [done|]. left. by eapply exchanged_ends.
  - eexists _, _. split; [done|]. right. unfold cancellation_refused. rewrite Hcancel. eauto.
Qed.

Lemma call_usable call c :
  usable c -> ~ torn call ->
  exists results c', perform call c = Some (results, c')
    /\ (ends_in_step c call results c' \/ cancellation_refused c call results).
Proof.
  intros Hc Htorn. destruct call as [| | | |cancel method params cancel_params|cancel params];
    [edestruct plain_usable as (results & c' & E & H); [exact Hc | | by eauto]; done ..| |].
  - apply (cancellable_ends cancel method params (fun id =>
      do? cancel_id := send_request "cancel" cancel_params in
      do? cancel_result := attempt (receive_for_request cancel_id) in
      do? request_result := attempt (receive_for_request id) in
      run? lift cancel_result in
      lift request_result)); try done.
    intros c1 Htr Ho. by apply ends_cancel_request.
  - apply (cancellable_ends cancel "wait_for_window" params (fun id =>
      do? cancel_id := send_request "cancel_window_wait" (Object [("wait_id", Str id)]) in
      run? receive_for_request cancel_id in
      receive_for_request id)); try done.
    intros c1 Htr Ho. by apply ends_cancel_wait.
Qed.

Lemma call_unusable call c :
  unusable c -> exists e, perform call c = Some ([Err e], c)
    /\ completes (A := unit) (Err e) = false.
Proof.
  intros Hc.
  assert (forall op : client_op HostResponse.HostResponse, refused op c -> exists e,
    single op c = Some ([Err e], c) /\ completes (A := unit) (Err e) = false) as Hsingle.
  { intros op (e & E & He). exists e. unfold single. by rewrite E. }
  assert (forall A (op : client_op A), refused (guarded op) c) as Hguarded
    by (intros A op; destruct (guarded_refused op c Hc) as (e & ? & ?); by exists e).
  assert (forall A timer ms (op : client_op A), refused (timed timer ms (guarded op)) c) as Htimed.
  { intros A [progress|] ms op; [|apply Hguarded].
    unfold refused, timed, begin_request_operation, bind, read, throw. rewrite Hc. by eexists. }
  destruct call as [name|timer method params ms|timer id method params ms|requests|
    cancel method params cancel_params|cancel params];
    cbn [perform]; [apply Hsingle..| |apply Hsingle|apply Hsingle].
  - unfold hello. unfold refused. rewrite bind_read.
    destruct (Client.hello_complete c); [by eexists|]. rewrite refuse_false, bind_read.
    destruct (Hguarded _ (do? id := send_request "hello" (Object
      [("protocol_version", Number (PosInt HOST_PROTOCOL_VERSION)); ("client_name", Str name);
       ("snapshot_transport", Str (as_wire_name (Client.snapshot_transport c)))]) in
      receive_for_request id)) as (e & E & He).
    exists e. unfold bind at 1. unfold request_inner. by rewrite E.
  - unfold request_with_timeout. edestruct @require_hello_cases as [E|E]; [|exact E].
    unfold refused. rewrite E. apply Htimed.
  - unfold request_with_id_and_timeout. edestruct @require_hello_cases as [E|E]; [|exact E].
    unfold refused. rewrite E.
    edestruct (@checked_cases unit HostResponse.HostResponse) as [E2|E2];
      [intros e; apply valid_id_fails | rewrite E2; apply Htimed | exact E2].
  - assert (refused (request_batch_with_ids_all requests) c) as (e & E & He);
      [|exists e; by rewrite E].
    unfold request_batch_with_ids_all. edestruct @require_hello_cases as [E|E]; [|exact E].
    unfold refused. rewrite E, bind_read.
    edestruct @checked_cases as [E2|E2];
      [intros e; apply check_batch_fails | rewrite E2; apply Hguarded | exact E2].
  - unfold request_with_cancel. edestruct @require_hello_cases as [E|E]; [|exact E].
    unfold refused. rewrite E. apply Hguarded.
  - unfold wait_for_window_with_cancel. edestruct @require_hello_cases as [E|E]; [|exact E].
    unfold refused. rewrite E. apply Hguarded.
Qed.

(** A call that no cancellation puts out of step. *)
Definition calm_step (c c' : Client.HostClient) : Prop :=
  exists call results, perform call c = Some (results, c')
    /\ ~ torn call /\ ~ cancellation_refused c call results.

Lemma calm_runs start c :
  usable start -> rtc calm_step start c ->
  usable c /\ whole_frames (arriving start) (arriving c) \/ unusable c.
Proof.
  intros Hstart Hreach.
  cut (usable start /\ whole_frames (arriving start) (arriving start) \/ unusable start);
    [|left; split; [done | constructor]].
  generalize (arriving start) at 1 3. intros from.
  clear Hstart. induction Hreach as [c|c c1 c2 (call & results & E & Ht & Hr) _ IH]; [done|].
  intros [[Hu Hw]|Hu]; apply IH.
  - destruct (call_usable call c Hu Ht) as (results' & c' & E' & H). rewrite E in E'.
    injection E' as <- <-.
    destruct H as [[(_ & Hu' & Hw')|(e & _ & _ & [[Hu' Hw']|Hu'])]|H];
      [left; split; [done | by etrans] | left; split; [done | by etrans] | by right | done].
  - destruct (call_unusable call c Hu) as (e & E' & _). rewrite E in E'. injection E' as _ ->.
    by right.
Qed.

(** C9: a connection answers its calls, or is closed to them.  In whatever state a
    connection is, whatever the Host sends, however often requests time out or waits are
    cancelled, every call of a client returns.  From a new connection on, as long as no
    cancellation falls in the middle of a frame and the Host refuses none, the connection
    is either unusable, or nothing is in flight or left over between calls and the reader
    is at the end of a frame.  A call on such a usable connection has for each of its
    requests, in order, the response that carries its id, and leaves the connection
    usable; or fails by itself with one error; or is cancelled and has for its result the
    Host's refusal of the cancellation, the one end that can leave a response unread.
    Once a connection is unusable it remains so: a call fails and moves no byte. *)
Theorem connection_answers_or_closes reader writer transport c call :
  (rtc calm_step (from_stream_with_transport reader writer transport) c ->
     usable c /\ whole_frames (Reader.arriving reader) (arriving c) \/ unusable c)
  /\ exists results c', perform call c = Some (results, c')
       /\ (usable c -> ~ torn call ->
            ends_in_step c call results c' \/ cancellation_refused c call results)
       /\ (unusable c ->
            c' = c /\ exists e, results = [Err e] /\ completes (A := unit) (Err e) = false).
Proof.
  split; [intros Hreach; refine (calm_runs _ _ _ Hreach); by split|].
  pose proof (perform_total call c) as Htotal.
  destruct (perform call c) as [[results c']|] eqn:E; [|done].
  exists results, c'. split; [done|]. split.
  - intros Hu Ht. destruct (call_usable call c Hu Ht) as (results' & c'' & E' & H).
    rewrite E in E'. by injection E' as <- <-.
  - intros Hu. destruct (call_unusable call c Hu) as (e & E' & He). rewrite E in E'.
    injection E' as -> ->. eauto.
Qed.
End Correlation.

(** ** The answers to a batch *)

Definition frame_of (body : list Z) : list Z := u32_to_be_bytes (len body) ++ body.

Section Batches.
Context `{JT : JsonText}.

(** The bytes with which the Host sends a response. *)
Definition sent_as (r : Received.ReceivedResponse) (bytes : list Z) : Prop :=
  filed r
  /\ exists body, valid_payload MAX_JSON_FRAME_BYTES body
    /\ from_slice body = Ok (Received.value r)
    /\ match Received.binary_attachment r with
       | Some attachment =>
           bytes = frame_of body ++ frame_of attachment
           /\ valid_payload MAX_BINARY_FRAME_BYTES attachment
           /\ binary_attachment_length (Received.value r) = Some (len attachment)
       | None => bytes = frame_of body /\ binary_attachment_length (Received.value r) = None
       end.

Definition with_arriving (bytes : list Z) (c : Client.HostClient) : Client.HostClient :=
  c <| Client.reader := {| Reader.arriving := bytes;
                           Reader.ending := Reader.ending (Client.reader c) |} |>.

Lemma receive_frame_sent body rest max c :
  valid_payload max body -> arriving c = frame_of body ++ rest ->
  receive_frame max c = Some (Ok (Some body), with_arriving rest c).
Proof.
  intros Hv Ha. unfold receive_frame.
  replace (Client.reader c) with {| Reader.arriving := frame_of body ++ rest;
    Reader.ending := Reader.ending (Client.reader c) |}
    by (rewrite <- Ha; by destruct (Client.reader c)).
  unfold frame_of. by rewrite read_frame_app.
Qed.

Lemma bind_step {A B} (m : client_op A) (k : A -> client_op B) c a c1 :
  m c = Some (Ok a, c1) -> bind m k c = k a c1.
Proof. unfold bind. by intros ->. Qed.

Lemma receive_attachment_sent attachment rest c :
  valid_payload MAX_BINARY_FRAME_BYTES attachment ->
  arriving c = frame_of attachment ++ rest ->
  receive_attachment (len attachment) c = Some (Ok attachment, with_arriving rest c).
Proof.
  intros Hv Ha. unfold receive_attachment.
  rewrite (bind_step _ _ _ _ _ (receive_frame_sent _ _ _ _ Hv Ha)).
  unfold bind, lift, refuse_if, ret. cbn. by rewrite Z.eqb_refl.
Qed.

Lemma receive_response_sent r bytes rest c :
  sent_as r bytes -> arriving c = bytes ++ rest ->
  receive_response c = Some (Ok r, with_arriving rest c).
Proof.
  intros (Hf & body & Hv & Hs & Hatt) Ha. unfold receive_response.
  destruct r as [id v [attachment|]]; unfold filed in Hf;
    cbn [Received.value Received.request_id Received.binary_attachment] in *.
  - destruct Hatt as (-> & Hva & Hl). rewrite <- app_assoc in Ha.
    rewrite (bind_step _ _ _ _ _ (receive_frame_sent _ _ _ _ Hv Ha)).
    erewrite bind_step by done. erewrite bind_step by (unfold lift, parse_response; by rewrite Hs).
    rewrite Hl. erewrite bind_step by (erewrite bind_step by
      (by apply (receive_attachment_sent attachment rest)); done).
    by erewrite bind_step by (unfold lift; by rewrite Hf).
  - destruct Hatt as (-> & Hl).
    rewrite (bind_step _ _ _ _ _ (receive_frame_sent _ _ _ _ Hv Ha)).
    erewrite bind_step by done. erewrite bind_step by (unfold lift, parse_response; by rewrite Hs).
    rewrite Hl. erewrite bind_step by done.
    by erewrite bind_step by (unfold lift; by rewrite Hf).
Qed.

(** The responses that will be handed out: the ones that are pending, and the ones whose
    bytes arrive before [rest]. *)
Record awaiting (all : gmap string Received.ReceivedResponse) (rest : list Z)
    (arrivals : list Received.ReceivedResponse) (c : Client.HostClient) : Prop := {
  awaiting_outstanding : Client.outstanding_request_ids c = dom all;
  awaiting_ids : map_Forall (fun id r => Received.request_id r = id) all;
  awaiting_bytes : exists bytes, Forall2 sent_as arrivals bytes
    /\ arriving c = concat bytes ++ rest;
  awaiting_split : forall id r, all !! id = Some r
    <-> Client.pending_responses c !! id = Some r \/ r ∈ arrivals /\ Received.request_id r = id;
  awaiting_distinct : NoDup (map Received.request_id arrivals);
  awaiting_new : forall r, r ∈ arrivals ->
    Client.pending_responses c !! Received.request_id r = None;
}.

Definition without (id : string) (all : gmap string Received.ReceivedResponse)
    (rest : list Z) (c : Client.HostClient) : Prop :=
  exists arrivals, awaiting (delete id all) rest arrivals c.

(** What an operation that hands out does not touch. *)
Definition same_writer (c c' : Client.HostClient) : Prop :=
  Client.writer c' = Client.writer c.

Lemma receive_round_awaiting all rest r arrivals id c :
  awaiting all rest (r :: arrivals) c -> Client.pending_responses c !! id = None ->
  exists c', same_writer c c'
    /\ (Received.request_id r = id
          /\ receive_round id tt c = Some (Ok (inr r), c') /\ awaiting (delete id all) rest arrivals c'
        \/ Received.request_id r <> id
          /\ receive_round id tt c = Some (Ok (inl tt), c') /\ awaiting all rest arrivals c'
          /\ Client.pending_responses c' !! id = None).
Proof.
  intros [Ho Hids (bs & Hsent & Harr) Hsplit Hnd Hnew] Hid.
  inversion Hsent as [|? b ? bs' Hb Hbs]; subst. cbn [concat] in Harr. rewrite <- app_assoc in Harr.
  cbn [map] in Hnd. apply NoDup_cons in Hnd as [Hfresh Hnd].
  assert (all !! Received.request_id r = Some r) as Hall by (apply Hsplit; right; split; [by left | done]).
  assert (Received.request_id r ∈ dom all) as Hdom by (by eapply elem_of_dom_2).
  pose proof (Hnew r ltac:(by left)) as Hrnew.
  unfold receive_round. rewrite (bind_step _ _ _ _ _ (receive_response_sent _ _ _ _ Hb Harr)).
  erewrite bind_step by done. cbn [with_arriving Client.outstanding_request_ids].
  erewrite bind_step by (unfold with_arriving; cbn; rewrite Ho; by rewrite bool_decide_eq_true_2).
  case_bool_decide as Heq.
  - eexists. split; [|left; split; [done|]; split; [done|]]; [done|]. split; cbn.
    + rewrite Ho, dom_delete_L. done.
    + by apply map_Forall_delete.
    + by exists bs'.
    + intros id' r'. rewrite lookup_delete_Some, Hsplit, elem_of_cons. split.
      * intros [Hne [?|[[->|Hin] Hr']]]; [by left | congruence | by right].
      * intros [Hp|[Hin Hr']].
        { split; [|by left]. intros <-. by rewrite Hid in Hp. }
        split; [|by right; auto]. intros <-. apply Hfresh. rewrite Heq, <- Hr'.
        by apply list_elem_of_fmap_2.
    + done.
    + intros r' Hr'. apply Hnew. by right.
  - erewrite bind_step by done. erewrite bind_step by done. cbn [with_arriving].
    erewrite bind_step by (unfold with_arriving; cbn; by rewrite Hrnew).
    eexists. split; [|right; split; [done|]; split; [done|]]; [done|]. split.
    + split; cbn; try done; [by exists bs' | |].
      * intros id' r'. rewrite Hsplit, elem_of_cons, lookup_insert_Some. split.
        { intros [Hp|[[->|Hin] <-]]; [|by auto|by auto].
          left. destruct (decide (Received.request_id r = id')) as [<-|]; [congruence | by right]. }
        intros [[[<- ->]|[_ Hp]]|[Hin <-]]; auto.
      * intros r' Hr'. rewrite lookup_insert_ne; [by apply Hnew; right|].
        intros Hr. apply Hfresh. rewrite Hr. by apply list_elem_of_fmap_2.
    + cbn. by rewrite lookup_insert_ne.
Qed.

Lemma receive_loop_awaiting fuel all rest arrivals id r c :
  awaiting all rest arrivals c -> all !! id = Some r ->
  Client.pending_responses c !! id = None -> (length arrivals <= fuel)%nat ->
  exists c', loop fuel (receive_round id) tt c = Some (Ok (Some r), c')
    /\ same_writer c c' /\ without id all rest c'.
Proof.
  revert fuel c. induction arrivals as [|r1 arrivals IH]; intros fuel c Haw Hall Hid Hfuel.
  { apply (awaiting_split _ _ _ _ Haw) in Hall as [Hp|[Hin _]]; [congruence | by inversion Hin]. }
  destruct fuel as [|fuel]; cbn [length] in Hfuel; [lia|]. cbn [loop].
  destruct (receive_round_awaiting _ _ _ _ id _ Haw Hid)
    as (c1 & Hw & [(Hr & E & Haw1)|(Hr & E & Haw1 & Hid1)]); rewrite (bind_step _ _ _ _ _ E).
  - exists c1. assert (all !! id = Some r1) as Hr1
      by (apply (awaiting_split _ _ _ _ Haw); right; split; [by left | done]).
    replace r with r1 by congruence. split; [done|]. split; [done|]. by exists arrivals.
  - destruct (IH fuel c1 Haw1 Hall Hid1 ltac:(lia)) as (c2 & E2 & Hw2 & H2).
    exists c2. split; [done|]. split; [|done]. unfold same_writer in *. congruence.
Qed.

Lemma sent_as_not_empty r bytes : sent_as r bytes -> (1 <= length bytes)%nat.
Proof.
  intros (_ & body & _ & _ & H). destruct (Received.binary_attachment r);
    [destruct H as (-> & _)|destruct H as (-> & _)]; cbn; lia.
Qed.

Lemma arrivals_length arrivals bytes :
  Forall2 sent_as arrivals bytes -> (length arrivals <= length (concat bytes))%nat.
Proof.
  induction 1 as [|r b arrivals bytes Hr _ IH]; [done|]. cbn. rewrite length_app.
  apply sent_as_not_empty in Hr. lia.
Qed.

Lemma receive_raw_awaiting all rest arrivals id r c :
  awaiting all rest arrivals c -> all !! id = Some r ->
  exists c', receive_for_request_raw id c = Some (Ok r, c')
    /\ same_writer c c' /\ without id all rest c'.
Proof.
  intros Haw Hall. unfold receive_for_request_raw, take_pending.
  destruct (Client.pending_responses c !! id) as [r'|] eqn:Hid.
  - assert (all !! id = Some r') as Hr' by (apply (awaiting_split _ _ _ _ Haw); by left).
    replace r' with r in * by congruence.
    eexists. split.
    { erewrite bind_step; [|erewrite bind_step by done; rewrite Hid; done]. done. }
    split; [done|]. exists arrivals. destruct Haw as [Ho Hids Hbytes Hsplit Hnd Hnew]. split; cbn; try done.
    + by rewrite Ho, dom_delete_L.
    + by apply map_Forall_delete.
    + intros id' q. rewrite !lookup_delete_Some, Hsplit. split; [tauto|].
      intros [?|[Hin Hq]]; [tauto|]. split; [|by auto]. intros <-.
      specialize (Hnew q Hin). rewrite Hq in Hnew. congruence.
    + intros q Hq. rewrite lookup_delete_None. right. by apply Hnew.
  - destruct (awaiting_bytes _ _ _ _ Haw) as (bs & Hsent & Harr).
    destruct (receive_loop_awaiting (receive_rounds c) all rest arrivals id r c)
      as (c' & E & Hw & Hwo); [done..| |].
    { unfold receive_rounds. rewrite Harr, length_app. apply arrivals_length in Hsent. lia. }
    exists c'. split; [|done].
    erewrite bind_step by (erewrite bind_step by done; by rewrite Hid).
    cbv iota beta. erewrite bind_step by done. by erewrite bind_step by done.
Qed.

Lemma receive_all_awaiting all rest arrivals ids c :
  awaiting all rest arrivals c -> NoDup ids -> dom all = list_to_set ids ->
  exists responses c', receive_all ids c = Some (Ok (map into_result responses), c')
    /\ Forall2 (fun id r => all !! id = Some r) ids responses
    /\ same_writer c c' /\ exists arrivals', awaiting ∅ rest arrivals' c'.
Proof.
  revert all arrivals c. induction ids as [|id ids IH]; intros all arrivals c Haw Hnd Hdom.
  { exists [], c. apply dom_empty_inv_L in Hdom as ->. split_and!; [done | constructor | done | by exists arrivals]. }
  apply NoDup_cons in Hnd as [Hfresh Hnd]. cbn [receive_all].
  assert (is_Some (all !! id)) as [r Hr] by (apply elem_of_dom; rewrite Hdom; set_solver).
  destruct (receive_raw_awaiting _ _ _ _ _ _ Haw Hr) as (c1 & E & Hw & arrivals1 & Haw1).
  destruct (IH _ _ _ Haw1 Hnd) as (responses & c2 & E2 & Hall & Hw2 & Hend).
  { rewrite dom_delete_L, Hdom. cbn. apply leibniz_equiv. set_solver. }
  exists (r :: responses), c2. split_and!.
  - rewrite (bind_step _ _ _ _ _ E). by rewrite (bind_step _ _ _ _ _ E2).
  - constructor; [done|]. eapply Forall2_impl; [done|]. intros id' r' H.
    by apply lookup_delete_Some in H as [_ H].
  - unfold same_writer in *. congruence.
  - done.
Qed.

(** The bytes of a request. *)
Definition sends (request : batch_request) (body : list Z) : Prop :=
  to_vec (request_value request.1.1 request.1.2 request.2) = Ok body
  /\ valid_payload MAX_JSON_FRAME_BYTES body.

Definition with_sent (id : string) (body : list Z) (c : Client.HostClient) : Client.HostClient :=
  c <| Client.outstanding_request_ids := {[id]} ∪ Client.outstanding_request_ids c |>
    <| Client.writer := {| Writer.written := Writer.written (Client.writer c) ++ frame_of body;
                           Writer.breaks_after := None |} |>.

Lemma send_one request body c :
  sends request body -> validate_client_request_id request.1.1 = Ok tt ->
  Writer.breaks_after (Client.writer c) = None ->
  (Z.of_nat (size (Client.outstanding_request_ids c)) < MAX_PARALLEL_DISCOVERY_REQUESTS)%Z ->
  request.1.1 ∉ Client.outstanding_request_ids c ->
  Client.pending_responses c = ∅ ->
  send_request_unflushed_with_id request.1.1 request.1.2 request.2 c
  = Some (Ok request.1.1, with_sent request.1.1 body c).
Proof.
  intros [Hvec Hv] Hid Hw Hsize Hnew Hp.
  unfold send_request_unflushed_with_id. rewrite Hid. erewrite bind_step by done.
  erewrite bind_step.
  2: { unfold register_outstanding_request. erewrite bind_step by done.
    erewrite bind_step by (by rewrite (proj2 (Z.leb_gt _ _) Hsize)).
    erewrite bind_step by done. erewrite bind_step by done. cbn.
    rewrite Hp, lookup_empty, bool_decide_eq_false_2 by done. done. }
  rewrite Hvec. erewrite bind_step by done.
  erewrite bind_step; [done|]. unfold send_frame. cbn.
  pose proof (write_frame_unbroken (Writer.written (Client.writer c)) body _ Hv) as E.
  unfold write_frame in E. replace (Client.writer c) with
    {| Writer.written := Writer.written (Client.writer c); Writer.breaks_after := None |}
    by (rewrite <- Hw; by destruct (Client.writer c)).
  destruct (write_frame_unflushed _ _ _) as [w [[]|e]]; [|done]. injection E as ->.
  unfold with_sent. cbn. by rewrite Hp.
Qed.

Lemma send_all_sends requests bodies c :
  Forall2 sends requests bodies ->
  (forall request, request ∈ requests -> validate_client_request_id (batch_id request) = Ok tt) ->
  Writer.breaks_after (Client.writer c) = None ->
  NoDup (map batch_id requests) ->
  (forall id, id ∈ map batch_id requests -> id ∉ Client.outstanding_request_ids c) ->
  (Z.of_nat (size (Client.outstanding_request_ids c)) + len requests
    <= MAX_PARALLEL_DISCOVERY_REQUESTS)%Z ->
  Client.pending_responses c = ∅ ->
  exists c', send_all requests c = Some (Ok (map batch_id requests), c')
    /\ Client.outstanding_request_ids c'
       = list_to_set (map batch_id requests) ∪ Client.outstanding_request_ids c
    /\ Client.pending_responses c' = ∅ /\ Client.reader c' = Client.reader c
    /\ Client.writer c' = {| Writer.written := Writer.written (Client.writer c)
                               ++ concat (map frame_of bodies);
                             Writer.breaks_after := None |}.
Proof.
  intros Hs. revert c. induction Hs as [|request body requests bodies Hr Hs IH];
    intros c Hid Hw Hnd Hnew Hsize Hp.
  { exists c. cbn. split_and!; [done | apply leibniz_equiv; set_solver | done | done |].
    rewrite app_nil_r, <- Hw. by destruct (Client.writer c). }
  cbn [map] in Hnd. apply NoDup_cons in Hnd as [Hfresh Hnd].
  assert (len (request :: requests) = 1 + len requests) as Hlen by (unfold len; cbn; lia).
  assert (0 <= len requests) by apply len_nonneg.
  pose proof (send_one request body c Hr (Hid request ltac:(by left)) Hw ltac:(lia)
    (Hnew _ ltac:(cbn; by left)) Hp) as E.
  destruct (IH (with_sent request.1.1 body c)) as (c' & E' & Ho & Hp' & Hrd & Hwr).
  - intros q Hq. apply Hid. by right.
  - done.
  - done.
  - intros id Hin. cbn. intros [->%elem_of_singleton|Hout]%elem_of_union; [by apply Hfresh|].
    apply (Hnew id); [cbn; by right | done].
  - cbn. rewrite size_union_alt, size_singleton.
    pose proof (subseteq_size (Client.outstanding_request_ids c ∖ {[request.1.1]})
      (Client.outstanding_request_ids c) ltac:(set_solver)). lia.
  - done.
  - exists c'. destruct request as [[id method] params]. cbn [send_all fst snd] in *.
    split_and!; [| | done..|].
    + rewrite (bind_step _ _ _ _ _ E). by rewrite (bind_step _ _ _ _ _ E').
    + rewrite Ho. cbn. apply leibniz_equiv. set_solver.
    + rewrite Hwr. cbn. by rewrite <- app_assoc.
Qed.

Definition by_id (arrivals : list Received.ReceivedResponse)
    : gmap string Received.ReceivedResponse :=
  list_to_map (map (fun r => (Received.request_id r, r)) arrivals).

Lemma by_id_lookup arrivals id r :
  NoDup (map Received.request_id arrivals) ->
  by_id arrivals !! id = Some r <-> r ∈ arrivals /\ Received.request_id r = id.
Proof.
  intros Hnd. unfold by_id. rewrite <- elem_of_list_to_map.
  - rewrite list_elem_of_fmap. split.
    + by intros (r' & [= -> ->] & ?).
    + intros [? <-]. by exists r.
  - by rewrite <- list_fmap_compose.
Qed.

Lemma dom_by_id arrivals :
  NoDup (map Received.request_id arrivals) ->
  dom (by_id arrivals) = list_to_set (map Received.request_id arrivals).
Proof.
  intros Hnd. apply leibniz_equiv. intros id. rewrite elem_of_dom, elem_of_list_to_set. split.
  - intros [r [Hin <-]%by_id_lookup]; [|done]. by apply list_elem_of_fmap_2.
  - intros (r & -> & Hin)%list_elem_of_fmap. exists r. by apply by_id_lookup.
Qed.

Lemma handed_out_all arrivals ids responses :
  NoDup (map Received.request_id arrivals) -> ids ≡ₚ map Received.request_id arrivals ->
  Forall2 (fun id r => by_id arrivals !! id = Some r) ids responses ->
  map Received.request_id responses = ids /\ responses ≡ₚ arrivals.
Proof.
  intros Hnd Hperm Hall.
  assert (map Received.request_id responses = ids) as Hids.
  { clear Hperm. induction Hall as [|id r ids responses H _ IH]; [done|]. cbn.
    apply by_id_lookup in H as [_ ->]; [|done]. by rewrite IH. }
  split; [done|]. apply NoDup_Permutation.
  - apply (NoDup_fmap_1 Received.request_id). change (NoDup (map Received.request_id responses)).
    by rewrite Hids, Hperm.
  - by apply NoDup_fmap_1 in Hnd.
  - intros r. split.
    + intros Hr. apply list_elem_of_lookup in Hr as [i Hi].
      destruct (Forall2_lookup_r _ _ _ _ _ Hall Hi) as (id & _ & H).
      by apply by_id_lookup in H as [? _].
    + intros Hr. assert (Received.request_id r ∈ ids) as Hin
        by (rewrite Hperm; by apply list_elem_of_fmap_2).
      apply list_elem_of_lookup in Hin as [i Hi].
      destruct (Forall2_lookup_l _ _ _ _ _ Hall Hi) as (r' & Hi' & H).
      assert (by_id arrivals !! Received.request_id r = Some r) as H' by (by apply by_id_lookup).
      replace r with r' by congruence. by eapply list_elem_of_lookup_2.
Qed.

Lemma check_batch_ok transport requests :
  check_batch transport requests = Ok tt ->
  len requests <= MAX_PARALLEL_DISCOVERY_REQUESTS /\ NoDup (map batch_id requests)
  /\ forall request, request ∈ requests -> validate_client_request_id (batch_id request) = Ok tt.
Proof.
  unfold check_batch. destruct (_ <? _) eqn:Hlen; [done|]. destruct (existsb _ _); [done|].
  intros H. apply rbind_ok in H as ([] & _ & H). apply rbind_ok in H as ([] & Hids & H).
  case_bool_decide; [|done]. split_and!; [lia | done | by apply try_each_ok].
Qed.

Lemma awaiting_nothing rest arrivals c :
  awaiting ∅ rest arrivals c -> idle c /\ arriving c = rest.
Proof.
  intros [Ho _ (bytes & Hsent & Harr) Hsplit _ _]. split.
  - split; [by rewrite Ho, dom_empty_L|]. apply map_empty. intros id.
    destruct (Client.pending_responses c !! id) as [r|] eqn:Hr; [|done].
    assert ((∅ : gmap string Received.ReceivedResponse) !! id = Some r) as H by (apply Hsplit; by left).
    by rewrite lookup_empty in H.
  - destruct Hsent as [|r b arrivals bytes _ _]; [done|].
    assert ((∅ : gmap string Received.ReceivedResponse) !! Received.request_id r = Some r) as H
      by (apply Hsplit; right; split; [by left | done]).
    by rewrite lookup_empty in H.
Qed.

(** C19: the answers to a batch come back in the order of its requests.  On a usable
    connection, a batch that is allowed is sent in one piece, one frame for each request;
    whatever the order in which the Host sends the responses, with their attachments, the
    result is these responses, each in the place of the request with its id; and the
    connection is usable then, with exactly the bytes unread that followed them. *)
Theorem batch_is_answered_in_order requests bodies arrivals rest c :
  usable c -> Client.hello_complete c = true ->
  check_batch (Client.snapshot_transport c) requests = Ok tt ->
  Writer.breaks_after (Client.writer c) = None -> Forall2 sends requests bodies ->
  map batch_id requests ≡ₚ map Received.request_id arrivals ->
  (exists bytes, Forall2 sent_as arrivals bytes /\ arriving c = concat bytes ++ rest) ->
  exists responses c',
    request_batch_with_ids_all requests c = Some (Ok (map into_result responses), c')
    /\ responses ≡ₚ arrivals /\ map Received.request_id responses = map batch_id requests
    /\ usable c' /\ arriving c' = rest
    /\ Writer.written (Client.writer c')
       = Writer.written (Client.writer c) ++ concat (map frame_of bodies).
Proof.
  intros [Hready [Hout Hpend]] Hhello Hcheck Hw Hsends Hperm Hbytes.
  destruct (check_batch_ok _ _ Hcheck) as (Hlen & Hnd & Hids).
  assert (NoDup (map Received.request_id arrivals)) as Hnd' by (by rewrite <- Hperm).
  assert (Client.outstanding_request_ids (in_flight c) = ∅) as Hout' by done.
  destruct (send_all_sends requests bodies (in_flight c)) as (c1 & E1 & Ho1 & Hp1 & Hr1 & Hw1);
    try done; [by rewrite Hout'; set_solver | by rewrite Hout', size_empty|].
  assert (dom (by_id arrivals) = list_to_set (map batch_id requests)) as Hdom.
  { rewrite dom_by_id by done. apply leibniz_equiv. by rewrite Hperm. }
  destruct (receive_all_awaiting (by_id arrivals) rest arrivals (map batch_id requests) c1)
    as (responses & c2 & E2 & Hall & Hw2 & arrivals' & Haw); [|done..|].
  { split; try done.
    - rewrite Ho1, Hout', Hdom. apply leibniz_equiv. set_solver.
    - intros id r H. by apply by_id_lookup in H as [_ ?].
    - by rewrite Hr1.
    - intros id r. rewrite by_id_lookup, Hp1, lookup_empty by done. naive_solver.
    - intros r _. by rewrite Hp1. }
  destruct (handed_out_all _ _ _ Hnd' Hperm Hall) as [Hmap Hresp].
  apply awaiting_nothing in Haw as [Hidle Harr].
  exists responses, (c2 <| Client.connection_state := CONNECTION_READY |>).
  split; [|split_and!; try done; cbn; by rewrite Hw2, Hw1].
  unfold request_batch_with_ids_all, require_hello.
  erewrite bind_step by (erewrite bind_step by done; by rewrite Hhello).
  erewrite bind_step by done. erewrite bind_step by (unfold lift; by rewrite Hcheck).
  unfold guarded. erewrite bind_step.
  2: { unfold begin_request_operation. erewrite bind_step by done. by rewrite Hready. }
  fold (in_flight c). erewrite bind_step.
  2: { unfold attempt. rewrite (bind_step _ _ _ _ _ E1). erewrite bind_step by done. by rewrite E2. }
  done.
Qed.
End Batches.

(** ** Task sessions *)

Module LogicalTaskSession.
Record LogicalTaskSession : Type := {
  client : Client.HostClient;
  session_id : string;
  task_grant_id : string;
  window_capability : string;
  target : value;
  idle_timeout_ms : Z;
}.

#[global] Instance LogicalTaskSession_settable : Settable LogicalTaskSession := fun s => {|
  client := client s; session_id := session_id s; task_grant_id := task_grant_id s;
  window_capability := window_capability s; target := target s;
  idle_timeout_ms := idle_timeout_ms s |}.
End LogicalTaskSession.
Module Task := LogicalTaskSession.

Abbreviation task_op A := (eff Task.LogicalTaskSession ClientError.HostClientError A).

Definition on_client {A} (op : client_op A) : task_op A :=
  on_part Task.client (fun client session => session <| Task.client := client |>) op.

(** One round of the [for] over the credentials. *)
Definition bind_credential (fields : list (string * value)) (credential : string * string)
    : HostClientResult (list (string * value)) :=
  let '(key, expected) := credential in
  match field fields key with
  | Some actual =>
      if as_str actual != Some expected
      then client_error ("logical task request cannot override " +:+ key)
      else Ok fields
  | None => Ok (set_field fields key (Str expected))
  end.

Definition bind_task_credentials (params : value)
    (session_id task_grant_id window_capability : string) : HostClientResult value :=
  let? fields := ok_or (as_object params)
    (ClientError.Protocol "logical task request params must be a JSON object") in
  let? fields := bind_credential fields ("session_id", session_id) in
  let? fields := bind_credential fields ("task_grant_id", task_grant_id) in
  let? fields := bind_credential fields ("window_capability", window_capability) in
  Ok (Object fields).

Definition managed_methods : list string := ["hello"; "open_session"; "stop_session"].

Section Tasks.
Context `{JT : JsonText}.

(** The parameters of a request of a task. *)
Definition bound_params (method : string) (params : value) : task_op value :=
  run? refuse_if (method ∈? managed_methods)
    (ClientError.Protocol (method +:+ " is managed by LogicalTaskSession")) in
  do? self := read (fun self => self) in
  lift (bind_task_credentials params (Task.session_id self) (Task.task_grant_id self)
          (Task.window_capability self)).

Definition task_request (method : string) (params : value) : task_op HostResponse.HostResponse :=
  do? params := bound_params method params in
  on_client (request method params).

Definition task_request_with_timeout (timer : option Progress.Progress) (method : string)
    (params : value) (timeout_ms : Z) : task_op HostResponse.HostResponse :=
  do? params := bound_params method params in
  on_client (request_with_timeout timer method params timeout_ms).

(** [Ok]: the client is the one of the session then. *)
Definition close : task_op unit :=
  do? session_id := read Task.session_id in
  run? on_client (request "stop_session" (Object [("session_id", Str session_id)])) in
  ret tt.

(** [as_str().filter(|value| !value.is_empty())], and the same for positive numbers. *)
Definition as_nonempty_str (v : value) : option string :=
  match as_str v with Some s => if str_is_empty s then None else Some s | None => None end.
Definition as_positive (v : value) : option Z :=
  match as_u64 v with Some n => if 0 <? n then Some n else None | None => None end.

(** What the response to [open_session] says of the session: its capability and target. *)
Definition opened_session (session_id : string) (v : value) : HostClientResult (string * value) :=
  let? returned_session_id := ok_or (as_str v.["session_id"])
    (ClientError.Protocol "open_session response omitted session_id") in
  if returned_session_id != session_id
  then client_error "open_session response changed the logical task session id"
  else
  let? window_capability := ok_or (as_nonempty_str v.["window_capability"])
    (ClientError.Protocol "open_session response omitted window_capability") in
  let? target := ok_or
    (match get v "target" with Some t => if is_object t then Some t else None | None => None end)
    (ClientError.Protocol "open_session response omitted target identity") in
  if is_none (get target "process_id" ≫= as_positive)
     || is_none (get target "window_handle" ≫= as_positive)
  then client_error "open_session response target identity is not an exact PID/HWND"
  else Ok (window_capability, target).

Definition open_logical_task_session (session_id : string) (grant : value)
    (idle_timeout_ms : Z) : client_op Task.LogicalTaskSession :=
  run? refuse_if (negb ((MIN_SESSION_IDLE_TIMEOUT_MS <=? idle_timeout_ms)
                        && (idle_timeout_ms <=? MAX_SESSION_IDLE_TIMEOUT_MS)))
    (ClientError.Protocol ("idle_timeout_ms must be between "
       +:+ show MIN_SESSION_IDLE_TIMEOUT_MS +:+ " and " +:+ show MAX_SESSION_IDLE_TIMEOUT_MS)) in
  do? task_grant_id := lift (ok_or (get grant "task_grant_id" ≫= as_nonempty_str)
    (ClientError.Protocol "logical task grant requires a non-empty task_grant_id")) in
  do? response := request "open_session" (Object
    [("session_id", Str session_id); ("grant", grant);
     ("idle_timeout_ms", Number (PosInt idle_timeout_ms))]) in
  do? (window_capability, target) :=
    lift (opened_session session_id (HostResponse.value response)) in
  do? client := read (fun client => client) in
  ret {| Task.client := client; Task.session_id := session_id;
         Task.task_grant_id := task_grant_id; Task.window_capability := window_capability;
         Task.target := target; Task.idle_timeout_ms := idle_timeout_ms |}.
End Tasks.

(** The parameters that are sent name the session of the task, its grant and its
    capability, and are otherwise the caller's. *)
Lemma bind_credential_ok fields key expected fields' :
  bind_credential fields (key, expected) = Ok fields' ->
  (exists v, field fields' key = Some v /\ as_str v = Some expected)
  /\ forall other, other <> key -> field fields' other = field fields other.
Proof.
  unfold bind_credential. destruct (field fields key) as [v|] eqn:Hk.
  - case_bool_decide as Hv; [|done]. intros [= <-]. split; [by exists v | done].
  - intros [= <-]. split; [exists (Str expected); by rewrite field_set_field|].
    intros other Hne. by apply field_set_field_ne.
Qed.

Lemma bind_task_credentials_ok params session_id task_grant_id window_capability params' :
  bind_task_credentials params session_id task_grant_id window_capability = Ok params' ->
  get params' "session_id" ≫= as_str = Some session_id
  /\ get params' "task_grant_id" ≫= as_str = Some task_grant_id
  /\ get params' "window_capability" ≫= as_str = Some window_capability
  /\ forall key, key ∉ ["session_id"; "task_grant_id"; "window_capability"] ->
       get params' key = get params key.
Proof.
  unfold bind_task_credentials. intros H.
  apply rbind_ok in H as (fields & Hobj%ok_or_ok & H).
  apply rbind_ok in H as (f1 & [(v1 & H1 & E1) K1]%bind_credential_ok & H).
  apply rbind_ok in H as (f2 & [(v2 & H2 & E2) K2]%bind_credential_ok & H).
  apply rbind_ok in H as (f3 & [(v3 & H3 & E3) K3]%bind_credential_ok & [= <-]).
  destruct params; try done. injection Hobj as <-. cbn [get]. split_and!.
  - rewrite K3, K2, H1 by done. done.
  - rewrite K3, H2 by done. done.
  - by rewrite H3.
  - intros key Hkey. rewrite K3, K2, K1 by set_solver. done.
Qed.

(** ** Sample connections *)

Module ClientSamples.

Definition response (kind id : string) : value :=
  Object [("type", Str kind); ("request_id", Str id)].

(** Every request is the byte 1; a byte of the Host stands for a response. *)
#[local] Instance sample_json : JsonText := {
  to_vec _ := Ok [1];
  from_slice body :=
    match body with
    | [1] => Ok (response "hello" "cua-client-1")
    | [2] => Ok (response "pong" "a")
    | [3] => Ok (response "apps" "b")
    | [4] => Ok (response "window" "cua-client-1")
    | [5] => Ok (response "error" "cua-client-2")
    | _ => Err "expected value"
    end;
}.

Definition frame (n : Z) : list Z := [0; 0; 0; 1; n].

Definition sample_client (bytes : list Z) : Client.HostClient :=
  from_stream_with_transport {| Reader.arriving := bytes; Reader.ending := UnexpectedEof |}
    {| Writer.written := []; Writer.breaks_after := None |} BinaryFrame.
Definition sample_greeted (bytes : list Z) : Client.HostClient :=
  (sample_client bytes) <| Client.hello_complete := true |>.

Definition sample_requests : list batch_request :=
  [("a", "ping", Object []); ("b", "list_apps", Object [])].

(** The Host answers the second request first. *)
Lemma batch_is_answered_in_order_witness :
  exists responses c',
    request_batch_with_ids_all sample_requests (sample_greeted (frame 3 ++ frame 2 ++ [0; 0]))
    = Some (Ok (map into_result responses), c')
    /\ map Received.request_id responses = ["a"; "b"] /\ usable c' /\ arriving c' = [0; 0].
Proof.
  set (received id kind := {| Received.request_id := id; Received.value := response kind id;
                              Received.binary_attachment := None |}).
  destruct (batch_is_answered_in_order sample_requests [[1]; [1]]
    [received "b" "apps"; received "a" "pong"] [0; 0]
    (sample_greeted (frame 3 ++ frame 2 ++ [0; 0])))
    as (responses & c' & E & _ & Hids & Hu & Harr & _).
  - by split.
  - reflexivity.
  - vm_compute. reflexivity.
  - reflexivity.
  - repeat constructor; vm_compute; congruence.
  - apply Permutation_swap.
  - exists [frame 3; frame 2]. split; [|reflexivity].
    constructor; [|constructor; [|constructor]]; (split; [reflexivity|]);
      [exists [3] | exists [2]];
      (split; [repeat split; vm_compute; congruence | by split]).
  - exists responses, c'. by split_and!.
Defined.

(** After the handshake a request times out; the next call is refused. *)
Lemma connection_answers_or_closes_witness :
  exists c, rtc calm_step (sample_client (frame 1)) c
    /\ Client.connection_state c = CONNECTION_UNUSABLE
    /\ exists e, perform (CallWaitWithCancel None (Object [])) c = Some ([Err e], c).
Proof.
  set (progress := {| Progress.reader := Client.reader (sample_client []);
    Progress.writer := Client.writer (sample_client []); Progress.pending_responses := ∅;
    Progress.outstanding_request_ids := ∅; Progress.next_request_id := 3 |}).
  destruct (perform (CallHello "agent") (sample_client (frame 1))) as [[hello c1]|] eqn:E1;
    [|vm_compute in E1; discriminate E1].
  destruct (perform (CallRequest (Some progress) "doctor" (Object []) 100) c1)
    as [[answer c2]|] eqn:E2; [|vm_compute in E1; injection E1 as <- <-; vm_compute in E2; discriminate E2].
  assert (rtc calm_step (sample_client (frame 1)) c2) as Hreach.
  { eapply rtc_l; [eexists _, _; split; [exact E1|]|
      apply rtc_once; eexists _, _; split; [exact E2|]];
      (split; [by intros (at_ & [=] & _) | by intros [[at_ [=]] _]]). }
  assert (unusable c2) as Hun.
  { vm_compute in E1. injection E1 as <- <-. vm_compute in E2. by injection E2 as <- <-. }
  exists c2. split; [exact Hreach|]. split; [exact Hun|].
  destruct (connection_answers_or_closes {| Reader.arriving := frame 1; Reader.ending := UnexpectedEof |}
    {| Writer.written := []; Writer.breaks_after := None |} BinaryFrame c2
    (CallWaitWithCancel None (Object [])))
    as (Hcalm & results & c' & E & _ & Hclosed).
  destruct (Hcalm Hreach) as [[[Hready _] _]|_];
    [unfold unusable in Hun; by rewrite Hready in Hun|].
  destruct (Hclosed Hun) as (-> & e & -> & _). by exists e.
Defined.

(** The wait for a window ends as it is cancelled: its response comes first, and the Host
    knows no such wait any more.  The refusal is returned, the response is left over, and
    the connection counts as usable. *)
Lemma refused_cancellation_leaves_a_response :
  exists e c, wait_for_window_with_cancel (Some {| Cancelled.rounds := 0; Cancelled.bytes := 0 |})
      (Object []) (sample_greeted (frame 4 ++ frame 5)) = Some (Err e, c)
    /\ Client.connection_state c = CONNECTION_READY
    /\ Client.outstanding_request_ids c = {["cua-client-1"]}
    /\ option_map Received.value (Client.pending_responses c !! "cua-client-1")
       = Some (response "window" "cua-client-1").
Proof. eexists _, _. split; [vm_compute; reflexivity|]. repeat split; by vm_compute. Qed.

(** The Host refuses a cancellation and the transport breaks in the next frame: the refusal
    hides the broken transport, and the connection counts as usable. *)
Lemma refused_cancellation_hides_a_broken_transport :
  exists e c, request_with_cancel (Some {| Cancelled.rounds := 0; Cancelled.bytes := 0 |})
      "wait_for" (Object []) (Object []) (sample_greeted (frame 5 ++ [0; 0; 0; 9; 9]))
    = Some (Err e, c)
    /\ Client.connection_state c = CONNECTION_READY
    /\ Reader.arriving (Client.reader c) = []
    /\ Client.outstanding_request_ids c = {["cua-client-1"]}.
Proof. eexists _, _. split; [vm_compute; reflexivity|]. repeat split; by vm_compute. Qed.
End ClientSamples.
