(* ===== verification/NativeInput.v ===== *)
(** * Native input: what the boundary of the physical input sees and does
    ([crates/dcc-cua-platform-windows/src/physical_input_fence.rs],
     [exact_window_state.rs], [visible_capture.rs], [native_capture_popup.rs])

    The measurements of a window, the events that are injected, and the calls of the
    operating system, which an oracle answers.  From the history of the calls one reads
    which events reached the system, and so which keys and buttons are held down. *)

From S2P Require Import Prelude Records Effects RustStr Calls.

(** ** Measurements *)

(** [[i32; 4]]: left, top, width and height. *)
Abbreviation rect := (Z * Z * Z * Z)%type.
Abbreviation point := (Z * Z)%type.

Module UiaTarget.
Record UiaTarget : Type := { process_id : Z; window_handle : Z }.
End UiaTarget.

Module PixelInstance.
Record ExactWindowPixelInstanceEvidence : Type := {
  process_creation_time_100ns : Z;
  window_thread_id : Z;
  window_class_hash : Z;
  owner_window_handle : Z;
}.
#[global] Instance instance_eq_dec : EqDecision ExactWindowPixelInstanceEvidence.
Proof. solve_decision. Defined.
End PixelInstance.

Module NativeState.
Record ExactWindowNativeState : Type := {
  process_id : Z;
  window_handle : Z;
  bounds : option rect;
  visible_bounds : option rect;
  dpi : Z;
  visible : bool;
  minimized : bool;
  maximized : bool;
  foreground : bool;
  instance : PixelInstance.ExactWindowPixelInstanceEvidence;
}.
#[global] Instance state_eq_dec : EqDecision ExactWindowNativeState.
Proof. solve_decision. Defined.
#[global] Instance state_settable : Settable ExactWindowNativeState := fun s => {|
  process_id := process_id s; window_handle := window_handle s; bounds := bounds s;
  visible_bounds := visible_bounds s; dpi := dpi s; visible := visible s;
  minimized := minimized s; maximized := maximized s; foreground := foreground s;
  instance := instance s |}.
End NativeState.

Module VisibleReason.
Inductive VisibleWindowCaptureReason : Type :=
| NativeReadFailed | TargetUnavailable | TargetNotVisible | TargetMinimized
| TargetBoundsInvalid | TargetOutsideDesktop | RootCloakingUnavailable
| RootBoundsUnavailable | RootBoundsInvalid | RootEnumerationIncomplete | TargetNotReached
| TargetBoundsChanged | RootOverlap.
#[global] Instance reason_eq_dec : EqDecision VisibleWindowCaptureReason.
Proof. solve_decision. Defined.
End VisibleReason.

Module RootBounds.
Inductive RootBoundsRole : Type := TargetRoot | AboveTargetRoot.
Inductive RootBoundsClass : Type := Positive | ZeroArea | Inverted | Overflow.
Record RootBoundsFailureDiagnostic : Type := {
  root_role : RootBoundsRole;
  proof_target_root_window_handle : Z;
  dwm_raw_rect_edges : rect;
  dwm_classification : RootBoundsClass;
  visible : bool;
  cloaked : option Z;
  win32_read_after_dwm_rejection : bool;
  win32_raw_rect_edges : option rect;
  win32_classification : option RootBoundsClass;
  win32_os_error : option Z;
  zero_area_status_mismatch : option bool;
}.
End RootBounds.

Module VisibleDiagnostic.
Record VisibleWindowCaptureDiagnostic : Type := {
  reason : VisibleReason.VisibleWindowCaptureReason;
  target_bounds : option rect;
  blocker_process_id : option Z;
  blocker_window_handle : option Z;
  blocker_bounds : option rect;
  cloaked : option Z;
  os_error : option Z;
  root_bounds_failure : option RootBounds.RootBoundsFailureDiagnostic;
}.
End VisibleDiagnostic.

Module PixelEvidence.
Record ExactWindowPixelEvidence : Type := {
  process_id : Z;
  window_handle : Z;
  bounds : rect;
  visible_bounds : rect;
  dpi : Z;
  visible : bool;
  minimized : bool;
  unobscured : bool;
  visibility_failure : option VisibleDiagnostic.VisibleWindowCaptureDiagnostic;
  instance : PixelInstance.ExactWindowPixelInstanceEvidence;
}.
End PixelEvidence.

Module PointEvidence.
Record ExactWindowPointEvidence : Type := {
  visible : bool;
  hit_window_handle : option Z;
  hit_process_id : option Z;
  hit_root_window_handle : option Z;
  hit_is_target_or_child : bool;
  redacted_regions : list rect;
}.
End PointEvidence.

(** *** Captured popups *)

Module FocusState.
Record FocusState : Type := {
  active : Z;
  foreground : Z;
  focus : Z;
  focus_root : Z;
  focus_instance : PixelInstance.ExactWindowPixelInstanceEvidence;
  capture : Z;
  flags : Z;
  enabled : bool;
  visible : bool;
}.
#[global] Instance focus_eq_dec : EqDecision FocusState.
Proof. solve_decision. Defined.
End FocusState.

Module PopupProof.
Record NativeCapturePopupProof : Type := {
  root : NativeState.ExactWindowNativeState;
  capture : NativeState.ExactWindowNativeState;
  overlays : list NativeState.ExactWindowNativeState;
  redacted_regions : list rect;
  focus : FocusState.FocusState;
  ordered_occluders : list NativeState.ExactWindowNativeState;
  desktop : rect;
}.
#[global] Instance proof_eq_dec : EqDecision NativeCapturePopupProof.
Proof. solve_decision. Defined.
#[global] Instance proof_settable : Settable NativeCapturePopupProof := fun p => {|
  root := root p; capture := capture p; overlays := overlays p;
  redacted_regions := redacted_regions p; focus := focus p;
  ordered_occluders := ordered_occluders p; desktop := desktop p |}.
End PopupProof.

Module PopupRefusal.
Inductive NativeCapturePopupRefusal : Type :=
| InvalidSelection | RootUnavailable | RootNotUsable | GuiStateUnavailable
| FocusOutsideRoot | CaptureNotSelected | PopupUnavailable | PopupIdentityMismatch
| PopupNotUsable | EnumerationIncomplete | UnselectedOccluder | NativeStateChanged
| NativeStateUnavailable.
#[global] Instance refusal_eq_dec : EqDecision NativeCapturePopupRefusal.
Proof. solve_decision. Defined.
End PopupRefusal.

Module PopupReadError.
Record NativeCapturePopupReadError : Type := {
  reason : PopupRefusal.NativeCapturePopupRefusal;
  target_bounds : option rect;
  blocker : option (Z * Z * rect);
}.
End PopupReadError.

Module PopupDiagnostic.
Record NativeCapturePopupInputDiagnostic : Type := {
  reason : PopupRefusal.NativeCapturePopupRefusal;
  target_process_id : Z;
  target_window_handle : Z;
  target_bounds : option rect;
  blocker_process_id : option Z;
  blocker_window_handle : option Z;
  blocker_bounds : option rect;
}.
End PopupDiagnostic.

(** ** Events *)

Inductive WindowsPointerButton : Type := Left | Right | Middle.
#[global] Instance button_eq_dec : EqDecision WindowsPointerButton.
Proof. solve_decision. Defined.

(** The flag says that the key or button goes up. *)
Module Event.
Inductive Event : Type :=
| Key (key : Z) (up : bool)
| Unicode (unit : Z) (up : bool)
| Mouse (button : WindowsPointerButton) (up : bool)
| Move (x y : Z).
#[global] Instance event_eq_dec : EqDecision Event.
Proof. solve_decision. Defined.
End Event.
Abbreviation event := Event.Event.

Definition release (self : event) : option event :=
  match self with
  | Event.Key key false => Some (Event.Key key true)
  | Event.Unicode unit false => Some (Event.Unicode unit true)
  | Event.Mouse button false => Some (Event.Mouse button true)
  | _ => None
  end.

Definition is_release (self : event) : bool :=
  match self with
  | Event.Key _ true | Event.Unicode _ true | Event.Mouse _ true => true
  | _ => false
  end.

(** ** Calls *)

(** [SendInput] answers how many of the events it inserted, in their order.  The clock and
    the sleeps are in nanoseconds. *)
Inductive native_call : Type -> Type :=
| InputAvailable : native_call bool
| Interrupted : native_call bool
| ReadPixelEvidence (target : UiaTarget.UiaTarget)
    : native_call (option PixelEvidence.ExactWindowPixelEvidence)
| ReadPointEvidence (target : UiaTarget.UiaTarget) (p : point)
    : native_call (option PointEvidence.ExactWindowPointEvidence)
| ReadNativeState (target : UiaTarget.UiaTarget)
    : native_call (option NativeState.ExactWindowNativeState)
| ReadDesktop : native_call rect
| ReadPopupProof (target : UiaTarget.UiaTarget) (selected : list Z)
    : native_call (result PopupReadError.NativeCapturePopupReadError
                     PopupProof.NativeCapturePopupProof)
| PopupTeardownPending (expected : PopupProof.NativeCapturePopupProof) : native_call bool
| CaptureEndedWithRootFocus (target : UiaTarget.UiaTarget) : native_call (option bool)
| SetCursorPos (p : point) : native_call bool
| SendInput (events : list event) : native_call Z
| Now : native_call Z
| Sleep (nanoseconds : Z) : native_call unit
| EnterDpiScope : native_call bool
| LeaveDpiScope : native_call unit.

Abbreviation native_history := (history native_call).
Abbreviation native_world := (oracle native_call).

(** ** What a history says *)

(** A call that changes the machine. *)
Definition is_dispatch (c : {A & (native_call A * A)%type}) : bool :=
  match projT2 c with
  | (SetCursorPos _, _) | (SendInput _, _) => true
  | _ => false
  end.

(** The events of a call that reached the system. *)
Definition accepted (c : {A & (native_call A * A)%type}) : list event :=
  match c with
  | existT _ (call, answer) =>
      match call in native_call A return A -> list event with
      | SendInput events => fun inserted => take (Z.to_nat inserted) events
      | _ => fun _ => []
      end answer
  end.

Definition injected (h : native_history) : list event := concat (map accepted h).

(** Whether what [press] presses is down after the events. *)
Definition held (press : event) (events : list event) : bool :=
  fold_left (fun down e =>
    if e == press then true else if Some e == release press then false else down)
    events false.
