(* ===== verification/PhysicalInput.v ===== *)
(** * Guarded physical input
    ([crates/dcc-cua-platform-windows/src/physical_input_fence.rs])

    Clicks, drags, key presses and text reach the system through a boundary that proves
    the captured window again before every mutation, and releases what is still down when
    an operation ends. *)

From S2P Require Import Prelude Records Effects RustStr Calls NativeInput.

(** ** Data *)

Module Fence.
Record WindowsPhysicalInputFence : Type := {
  target : UiaTarget.UiaTarget;
  native_instance : PixelInstance.ExactWindowPixelInstanceEvidence;
  native_window_bounds : rect;
  native_visible_bounds : rect;
  window_dpi : Z;
}.
End Fence.

Module Reason.
Inductive WindowsPhysicalInputFailureReason : Type :=
| InvalidRequest | TargetUnavailable | InstanceChanged | BoundsChanged | DpiChanged
| TargetHidden | TargetMinimized | TargetNotForeground | TargetOccluded
| PointOutsideTarget | TargetOutsideDesktop | DesktopUnavailable | InjectionIncomplete
| Interrupted.
#[global] Instance reason_eq_dec : EqDecision WindowsPhysicalInputFailureReason.
Proof. solve_decision. Defined.
End Reason.
Abbreviation reason := Reason.WindowsPhysicalInputFailureReason.

Module Operation.
Inductive WindowsGuardedInputOperation : Type := Click | Drag | Keypress | Text.
End Operation.

Module Outcome.
Record WindowsGuardedInputOutcome : Type := {
  operation : Operation.WindowsGuardedInputOperation;
  mutation_attempted : bool;
  cursor_move_attempted : bool;
  cursor_move_succeeded : bool;
  requested_events : Z;
  inserted_events : Z;
  cleanup_requested_events : Z;
  cleanup_inserted_events : Z;
  delivery_completed : bool;
  post_dispatch_validated : bool;
  fresh_observation_required : bool;
}.
#[global] Instance outcome_settable : Settable WindowsGuardedInputOutcome := fun o => {|
  operation := operation o; mutation_attempted := mutation_attempted o;
  cursor_move_attempted := cursor_move_attempted o;
  cursor_move_succeeded := cursor_move_succeeded o;
  requested_events := requested_events o; inserted_events := inserted_events o;
  cleanup_requested_events := cleanup_requested_events o;
  cleanup_inserted_events := cleanup_inserted_events o;
  delivery_completed := delivery_completed o;
  post_dispatch_validated := post_dispatch_validated o;
  fresh_observation_required := fresh_observation_required o |}.

Definition new (operation : Operation.WindowsGuardedInputOperation)
    : WindowsGuardedInputOutcome := {|
  operation := operation; mutation_attempted := false; cursor_move_attempted := false;
  cursor_move_succeeded := false; requested_events := 0; inserted_events := 0;
  cleanup_requested_events := 0; cleanup_inserted_events := 0; delivery_completed := false;
  post_dispatch_validated := false; fresh_observation_required := true |}.
End Outcome.

(** [dcc_cua_protocol::native_input_diagnostic]. *)
Module FenceDiagnostic.
Record NativeInputFenceDiagnostic : Type := {
  schema_version : Z;
  authorizes_input : bool;
  target_process_id : Z;
  target_window_handle : Z;
  point : option NativeInput.point;
  unobscured : bool;
  point_proof_complete : bool;
  point_visible : option bool;
  hit_window_handle : option Z;
  hit_process_id : option Z;
  hit_root_window_handle : option Z;
  hit_is_target_or_child : option bool;
  redacted_rectangles : list rect;
  redaction_count : Z;
  redactions_complete : bool;
}.
End FenceDiagnostic.
Definition MAX_NATIVE_INPUT_DIAGNOSTIC_REGIONS : Z := 16.

Module Rejected.
Record RejectedFenceDiagnostic : Type := {
  sample : FenceDiagnostic.NativeInputFenceDiagnostic;
  visibility_failure : option VisibleDiagnostic.VisibleWindowCaptureDiagnostic;
}.
End Rejected.

Module GuardedError.
Record WindowsGuardedInputError : Type := {
  reason : reason;
  outcome : Outcome.WindowsGuardedInputOutcome;
  native_input_fence : option FenceDiagnostic.NativeInputFenceDiagnostic;
  visibility_failure : option VisibleDiagnostic.VisibleWindowCaptureDiagnostic;
  native_capture_popup : option PopupDiagnostic.NativeCapturePopupInputDiagnostic;
}.
End GuardedError.

Definition is_pre_dispatch (self : GuardedError.WindowsGuardedInputError) : bool :=
  negb (Outcome.mutation_attempted (GuardedError.outcome self)).

Module Receipt.
Record MutationReceipt : Type := {
  requested : Z;
  inserted : Z;
  cursor_attempted : bool;
  cursor_succeeded : bool;
}.
End Receipt.

(** ** Diagnostics of a rejected fence *)

Definition new_rejected (fence : Fence.WindowsPhysicalInputFence) (p : option point)
    (evidence : PixelEvidence.ExactWindowPixelEvidence) : Rejected.RejectedFenceDiagnostic := {|
  Rejected.sample := {|
    FenceDiagnostic.schema_version := 1;
    FenceDiagnostic.authorizes_input := false;
    FenceDiagnostic.target_process_id := UiaTarget.process_id (Fence.target fence);
    FenceDiagnostic.target_window_handle := UiaTarget.window_handle (Fence.target fence);
    FenceDiagnostic.point := p;
    FenceDiagnostic.unobscured := PixelEvidence.unobscured evidence;
    FenceDiagnostic.point_proof_complete := false;
    FenceDiagnostic.point_visible := None;
    FenceDiagnostic.hit_window_handle := None;
    FenceDiagnostic.hit_process_id := None;
    FenceDiagnostic.hit_root_window_handle := None;
    FenceDiagnostic.hit_is_target_or_child := None;
    FenceDiagnostic.redacted_rectangles := [];
    FenceDiagnostic.redaction_count := 0;
    FenceDiagnostic.redactions_complete := false |};
  Rejected.visibility_failure := PixelEvidence.visibility_failure evidence |}.

Definition attach_point (self : Rejected.RejectedFenceDiagnostic)
    (p : PointEvidence.ExactWindowPointEvidence) : Rejected.RejectedFenceDiagnostic :=
  let sample := Rejected.sample self in
  let regions := PointEvidence.redacted_regions p in {|
  Rejected.sample := {|
    FenceDiagnostic.schema_version := FenceDiagnostic.schema_version sample;
    FenceDiagnostic.authorizes_input := FenceDiagnostic.authorizes_input sample;
    FenceDiagnostic.target_process_id := FenceDiagnostic.target_process_id sample;
    FenceDiagnostic.target_window_handle := FenceDiagnostic.target_window_handle sample;
    FenceDiagnostic.point := FenceDiagnostic.point sample;
    FenceDiagnostic.unobscured := FenceDiagnostic.unobscured sample;
    FenceDiagnostic.point_proof_complete := true;
    FenceDiagnostic.point_visible := Some (PointEvidence.visible p);
    FenceDiagnostic.hit_window_handle := PointEvidence.hit_window_handle p;
    FenceDiagnostic.hit_process_id := PointEvidence.hit_process_id p;
    FenceDiagnostic.hit_root_window_handle := PointEvidence.hit_root_window_handle p;
    FenceDiagnostic.hit_is_target_or_child := Some (PointEvidence.hit_is_target_or_child p);
    FenceDiagnostic.redacted_rectangles :=
      take (Z.to_nat MAX_NATIVE_INPUT_DIAGNOSTIC_REGIONS) regions;
    FenceDiagnostic.redaction_count := len regions mod 2 ^ 32;
    FenceDiagnostic.redactions_complete :=
      len regions <=? MAX_NATIVE_INPUT_DIAGNOSTIC_REGIONS |};
  Rejected.visibility_failure := Rejected.visibility_failure self |}.

(** ** The fence *)

Definition point_inside (p : point) (bounds : rect) : bool :=
  let '(x, y) := p in
  let '(l, t, width, height) := bounds in
  (0 <? width) && (0 <? height) && (l <=? x) && (t <=? y)
  && (x <? l + width) && (y <? t + height).

Definition physical_rectangle_within_desktop (target desktop : rect) : bool :=
  let '(l, t, w, h) := target in
  let '(dl, dt, dw, dh) := desktop in
  (0 <? w) && (0 <? h) && (0 <? dw) && (0 <? dh) && (dl <=? l) && (dt <=? t)
  && (l + w <=? dl + dw) && (t + h <=? dt + dh).

(** [bounds[2] <= 4 || bounds[3] <= 4]. *)
Definition too_small (bounds : rect) : bool :=
  let '(_, _, width, height) := bounds in (width <=? 4) || (height <=? 4).

(** A root that overlaps the window elsewhere than at the point. *)
Definition root_overlap (evidence : PixelEvidence.ExactWindowPixelEvidence) : bool :=
  is_some_and (fun proof => VisibleDiagnostic.reason proof == VisibleReason.RootOverlap)
    (PixelEvidence.visibility_failure evidence).

Definition validate_physical_metadata (fence : Fence.WindowsPhysicalInputFence)
    (evidence : PixelEvidence.ExactWindowPixelEvidence)
    (state : NativeState.ExactWindowNativeState) (desktop : rect) (p : option point)
    (point_unobscured : bool) : result reason unit :=
  let target := Fence.target fence in
  let process_id := UiaTarget.process_id target in
  let window_handle := UiaTarget.window_handle target in
  let instance := Fence.native_instance fence in
  if (process_id =? 0) || (window_handle =? 0)
     || (PixelInstance.process_creation_time_100ns instance =? 0)
     || (PixelInstance.window_thread_id instance =? 0)
     || (Fence.window_dpi fence =? 0)
     || too_small (Fence.native_window_bounds fence)
     || too_small (Fence.native_visible_bounds fence)
  then Err Reason.InvalidRequest
  else if negb (PixelEvidence.process_id evidence =? process_id)
     || negb (PixelEvidence.window_handle evidence =? window_handle)
     || negb (NativeState.process_id state =? process_id)
     || negb (NativeState.window_handle state =? window_handle)
     || (PixelEvidence.instance evidence != instance)
     || (NativeState.instance state != instance)
  then Err Reason.InstanceChanged
  else if (PixelEvidence.bounds evidence != Fence.native_window_bounds fence)
     || (NativeState.bounds state != Some (Fence.native_window_bounds fence))
     || (PixelEvidence.visible_bounds evidence != Fence.native_visible_bounds fence)
     || (NativeState.visible_bounds state != Some (Fence.native_visible_bounds fence))
  then Err Reason.BoundsChanged
  else if negb (PixelEvidence.dpi evidence =? Fence.window_dpi fence)
     || negb (NativeState.dpi state =? Fence.window_dpi fence)
  then Err Reason.DpiChanged
  else if PixelEvidence.minimized evidence || NativeState.minimized state
  then Err Reason.TargetMinimized
  else if negb (PixelEvidence.visible evidence) || negb (NativeState.visible state)
  then Err Reason.TargetHidden
  else if negb (NativeState.foreground state)
  then Err Reason.TargetNotForeground
  else
  let proven_point := point_unobscured && root_overlap evidence in
  let visible :=
    if is_some p then point_unobscured && (PixelEvidence.unobscured evidence || proven_point)
    else PixelEvidence.unobscured evidence in
  if negb visible then Err Reason.TargetOccluded
  else if negb (physical_rectangle_within_desktop
                  (PixelEvidence.visible_bounds evidence) desktop)
  then Err Reason.TargetOutsideDesktop
  else if is_some_and (fun p => negb (point_inside p (Fence.native_window_bounds fence))
       || negb (point_inside p (PixelEvidence.visible_bounds evidence))
       || negb (point_inside p desktop)) p
  then Err Reason.PointOutsideTarget
  else Ok tt.

(** ** Backends *)

Abbreviation phys B A := (eff (native_history * B) reason A).

(** What an operation needs of the system.  A dispatch is preceded by a check, unless it
    only releases. *)
Class InputBackend (B : Type) : Type := {
  capture_popup_rejection : B -> option PopupDiagnostic.NativeCapturePopupInputDiagnostic;
  rejection_diagnostic : B -> option Rejected.RejectedFenceDiagnostic;
  check : Fence.WindowsPhysicalInputFence -> option point -> phys B unit;
  mutate : Fence.WindowsPhysicalInputFence -> option point -> list event -> option point ->
           bool -> phys B Receipt.MutationReceipt;
  interrupted : phys B bool;
  elapsed_ms : phys B Z;
  pause : Z -> phys B unit;
}.

(** Its gate and its interruption flag are answered by the world. *)
Module NativeBackend.
Record NativeBackend : Type := {
  started : Z;
  rejection : option Rejected.RejectedFenceDiagnostic;
}.
#[global] Instance backend_settable : Settable NativeBackend := fun b => {|
  started := started b; rejection := rejection b |}.
End NativeBackend.

(** Nanoseconds in a millisecond. *)
Definition NANOS : Z := 1000000.

Section Boundary.
Context (world : native_world).

(** [gate().map_err(..)?] and [if interrupted() { return Err(..) }]. *)
Definition input_available {B} : phys B unit :=
  do? available := ask world InputAvailable in
  refuse_if (negb available) Reason.DesktopUnavailable.
Definition not_interrupted {B} : phys B unit :=
  do? interrupted := ask world Interrupted in
  refuse_if interrupted Reason.Interrupted.

Definition read_final_state {B} (fence : Fence.WindowsPhysicalInputFence)
    : phys B NativeState.ExactWindowNativeState :=
  do? state := ask world (ReadNativeState (Fence.target fence)) in
  lift (ok_or state Reason.TargetUnavailable).

Definition check_physical_fence {B} (fence : Fence.WindowsPhysicalInputFence)
    (p : option point) (read_proof : phys B (PixelEvidence.ExactWindowPixelEvidence * bool))
    : phys B unit :=
  run? not_interrupted in
  run? input_available in
  do? (evidence, point_unobscured) := read_proof in
  run? input_available in
  do? desktop := ask world ReadDesktop in
  do? state := read_final_state fence in
  run? not_interrupted in
  lift (validate_physical_metadata fence evidence state desktop p point_unobscured).

Definition final_physical_boundary {B A} (cleanup_only releases_only : bool)
    (check : phys B unit) (dispatch : phys B A) : phys B A :=
  run? (if cleanup_only then refuse_if (negb releases_only) Reason.InvalidRequest else check) in
  dispatch.

Definition send_input {B} (events : list event) : phys B Receipt.MutationReceipt :=
  do? inserted := ask world (SendInput events) in
  ret {| Receipt.requested := len events; Receipt.inserted := inserted;
         Receipt.cursor_attempted := false; Receipt.cursor_succeeded := false |}.

Definition dispatch {B} (events : list event) (cursor : option point)
    : phys B Receipt.MutationReceipt :=
  match cursor with
  | Some p =>
      do? succeeded := ask world (SetCursorPos p) in
      ret {| Receipt.requested := 0; Receipt.inserted := 0;
             Receipt.cursor_attempted := true; Receipt.cursor_succeeded := succeeded |}
  | None => send_input events
  end.

(** [Instant::elapsed], and its milliseconds, [u64::MAX] at most. *)
Definition elapsed_since {S E} (started : Z) : eff (native_history * S) E Z :=
  do? now := ask world Now in ret (Z.max 0 (now - started)).
Definition elapsed_ms_of {B} (started : B -> Z) : phys B Z :=
  do? started := silent (read started) in
  do? elapsed := elapsed_since started in
  ret (Z.min U64_MAX (elapsed / NANOS)).
Definition sleep_ms {B} (milliseconds : Z) : phys B unit :=
  ask world (Sleep (milliseconds * NANOS)).

(** *** The backend of a window *)

(** The closure that reads the proof, with the [diagnostic] it captures as its state. *)
Definition read_proof (fence : Fence.WindowsPhysicalInputFence) (p : option point)
    : phys (option Rejected.RejectedFenceDiagnostic)
        (PixelEvidence.ExactWindowPixelEvidence * bool) :=
  let target := Fence.target fence in
  do? evidence := ask world (ReadPixelEvidence target) in
  do? evidence := lift (ok_or evidence Reason.TargetUnavailable) in
  let sample := new_rejected fence p evidence in
  do? (point_unobscured, sample) :=
    match p with
    | Some p =>
        if PixelEvidence.unobscured evidence || root_overlap evidence
        then
          do? proof := ask world (ReadPointEvidence target p) in
          ret match proof with
              | Some proof => (Ok (PointEvidence.visible proof), attach_point sample proof)
              | None => (Err Reason.TargetUnavailable, sample)
              end
        else ret (Ok false, sample)
    | None => ret (Ok false, sample)
    end in
  run? silent (modify (fun _ => Some sample)) in
  do? visible := lift point_unobscured in
  ret (evidence, visible).

Definition native_check (fence : Fence.WindowsPhysicalInputFence) (p : option point)
    : phys NativeBackend.NativeBackend unit :=
  do? (result, diagnostic) :=
    with_local None (check_physical_fence fence p (read_proof fence p)) in
  run? silent (modify (fun self => self <| NativeBackend.rejection :=
    if is_err result then diagnostic else None |>)) in
  lift result.

(** The packets of the events are built before the boundary. *)
Definition native_mutate (fence : Fence.WindowsPhysicalInputFence) (p : option point)
    (events : list event) (cursor : option point) (cleanup_only : bool)
    : phys NativeBackend.NativeBackend Receipt.MutationReceipt :=
  let releases_only :=
    is_none cursor && negb (bool_decide (events = [])) && forallb is_release events in
  final_physical_boundary cleanup_only releases_only (native_check fence p)
    (dispatch events cursor).

#[export] Instance native_backend : InputBackend NativeBackend.NativeBackend := {|
  capture_popup_rejection := fun _ => None;
  rejection_diagnostic := NativeBackend.rejection;
  check := native_check;
  mutate := native_mutate;
  interrupted := ask world Interrupted;
  elapsed_ms := elapsed_ms_of NativeBackend.started;
  pause := sleep_ms |}.
End Boundary.

(** ** Transactions *)

Module Transaction.
Record Transaction (B : Type) : Type := {
  backend : B;
  fence : Fence.WindowsPhysicalInputFence;
  point : option NativeInput.point;
  outcome : Outcome.WindowsGuardedInputOutcome;
  pending_releases : list event;
}.
Arguments backend {B}. Arguments fence {B}. Arguments point {B}. Arguments outcome {B}.
Arguments pending_releases {B}.
#[global] Instance transaction_settable B : Settable (Transaction B) := fun t => {|
  backend := backend t; fence := fence t; point := point t; outcome := outcome t;
  pending_releases := pending_releases t |}.
End Transaction.
Module Tx := Transaction.

(** [rposition(..)] and [remove(..)]: the last occurrence goes. *)
Fixpoint remove_last (e : event) (pending : list event) : list event :=
  match pending with
  | [] => []
  | x :: pending =>
      if e ∈? pending then x :: remove_last e pending
      else if x == e then pending else x :: pending
  end.

(** What an event that was inserted leaves to be released. *)
Definition track (pending : list event) (e : event) : list event :=
  match release e with
  | Some r => pending ++ [r]
  | None => if is_release e then remove_last e pending else pending
  end.

(** [+=] on a [u32]. *)
Definition add_u32 (a b : Z) : Z := (a + b) mod 2 ^ 32.

Definition incomplete (receipt : Receipt.MutationReceipt) : bool :=
  negb (Receipt.inserted receipt =? Receipt.requested receipt)
  || (Receipt.cursor_attempted receipt && negb (Receipt.cursor_succeeded receipt)).

Definition attempted (receipt : Receipt.MutationReceipt)
    (outcome : Outcome.WindowsGuardedInputOutcome) : Outcome.WindowsGuardedInputOutcome :=
  outcome
    <| Outcome.mutation_attempted := true |>
    <| Outcome.cursor_move_attempted :=
         Outcome.cursor_move_attempted outcome || Receipt.cursor_attempted receipt |>
    <| Outcome.cursor_move_succeeded :=
         Outcome.cursor_move_succeeded outcome || Receipt.cursor_succeeded receipt |>
    <| Outcome.requested_events :=
         add_u32 (Outcome.requested_events outcome) (Receipt.requested receipt) |>
    <| Outcome.inserted_events :=
         add_u32 (Outcome.inserted_events outcome) (Receipt.inserted receipt) |>.

Definition cleaned_up (receipt : Receipt.MutationReceipt)
    (outcome : Outcome.WindowsGuardedInputOutcome) : Outcome.WindowsGuardedInputOutcome :=
  outcome
    <| Outcome.cleanup_requested_events :=
         add_u32 (Outcome.cleanup_requested_events outcome) (Receipt.requested receipt) |>
    <| Outcome.cleanup_inserted_events :=
         add_u32 (Outcome.cleanup_inserted_events outcome) (Receipt.inserted receipt) |>.

Section Operations.
Context {B : Type} `{IB : InputBackend B}.

Abbreviation tx A := (eff (native_history * Tx.Transaction B) reason A).

Definition on_backend {E A} (m : eff (native_history * B) E A)
    : eff (native_history * Tx.Transaction B) E A :=
  on_focus Tx.backend (fun b t => t <| Tx.backend := b |>) m.

Definition tx_mutate (events : list event) (cursor : option point) : tx unit :=
  do? self := silent (read (fun self => self)) in
  do? receipt := on_backend (mutate (Tx.fence self) (Tx.point self) events cursor false) in
  run? silent (modify (fun self => self
    <| Tx.outcome := attempted receipt (Tx.outcome self) |>
    <| Tx.pending_releases :=
         fold_left track (take (Z.to_nat (Receipt.inserted receipt)) events)
           (Tx.pending_releases self) |>)) in
  refuse_if (incomplete receipt) Reason.InjectionIncomplete.

(** One batch of releases, the last press first. *)
Definition cleanup : tx unit :=
  do? self := silent (read (fun self => self)) in
  match Tx.pending_releases self with
  | [] => ret tt
  | _ =>
      do? receipt := on_backend
        (mutate (Tx.fence self) (Tx.point self) (rev (Tx.pending_releases self)) None true) in
      run? silent (modify (fun self => self
        <| Tx.outcome := cleaned_up receipt (Tx.outcome self) |>
        <| Tx.pending_releases := [] |>)) in
      refuse_if (negb (Receipt.requested receipt =? Receipt.inserted receipt))
        Reason.InjectionIncomplete
  end.

(** [Result::and], [Result::and_then]: the first error stands. *)
Definition finish (result : result reason unit)
    : eff (native_history * Tx.Transaction B) GuardedError.WindowsGuardedInputError
        Outcome.WindowsGuardedInputOutcome :=
  do? cleanup := attempt cleanup in
  do? result :=
    match result, cleanup with
    | Err e, _ | Ok _, Err e => ret (Err e)
    | Ok _, Ok _ =>
        do? self := silent (read (fun self => self)) in
        attempt (on_backend (check (Tx.fence self) (Tx.point self)))
    end in
  match result with
  | Ok _ =>
      run? silent (modify (fun self => self <| Tx.outcome := (Tx.outcome self)
        <| Outcome.delivery_completed := true |>
        <| Outcome.post_dispatch_validated := true |> |>)) in
      silent (read Tx.outcome)
  | Err reason =>
      do? self := silent (read (fun self => self)) in
      let diagnostic := rejection_diagnostic (Tx.backend self) in
      throw {| GuardedError.reason := reason;
               GuardedError.outcome := Tx.outcome self;
               GuardedError.native_input_fence :=
                 diagnostic ≫= fun diagnostic => Some (Rejected.sample diagnostic);
               GuardedError.visibility_failure := diagnostic ≫= Rejected.visibility_failure;
               GuardedError.native_capture_popup :=
                 capture_popup_rejection (Tx.backend self) |}
  end.

Definition tx_of (fence : Fence.WindowsPhysicalInputFence) (p : option point)
    (operation : Operation.WindowsGuardedInputOperation) (backend : B) : Tx.Transaction B := {|
  Tx.backend := backend; Tx.fence := fence; Tx.point := p;
  Tx.outcome := Outcome.new operation; Tx.pending_releases := [] |}.

(** [let mut transaction = ..; let result = (|| { body })(); transaction.finish(result)]. *)
Definition guarded (fence : Fence.WindowsPhysicalInputFence) (p : option point)
    (operation : Operation.WindowsGuardedInputOperation) (body : tx unit)
    : eff (native_history * B) GuardedError.WindowsGuardedInputError
        Outcome.WindowsGuardedInputOutcome :=
  on_part (fun s => (s.1, tx_of fence p operation s.2)) (fun s _ => (s.1, Tx.backend s.2))
    (do? result := attempt body in finish result).
End Operations.

(** ** Keys *)

Definition VK_SHIFT : Z := 16.
Definition VK_CONTROL : Z := 17.
Definition VK_MENU : Z := 18.
Definition VK_LWIN : Z := 91.
Definition VK_RETURN : Z := 13.

Definition modifier_virtual_key (modifier : string) : option Z :=
  let name := to_ascii_lowercase (trim modifier) in
  if name ∈? ["ctrl"; "control"] then Some VK_CONTROL
  else if name == "shift" then Some VK_SHIFT
  else if name ∈? ["alt"; "menu"; "option"] then Some VK_MENU
  else if name ∈? ["win"; "meta"; "windows"; "cmd"; "command"] then Some VK_LWIN
  else None.

(** The [match] on the name; [VK_F1] is 112. *)
Definition named_keys : list (list string * Z) :=
  [(["enter"; "return"], VK_RETURN); (["tab"], 9); (["escape"; "esc"], 27);
   (["space"; " "], 32); (["backspace"; "back"], 8); (["delete"; "del"], 46);
   (["up"], 38); (["down"], 40); (["left"], 37); (["right"], 39); (["home"], 36);
   (["end"], 35); (["pageup"; "pgup"], 33); (["pagedown"; "pgdn"], 34);
   (["f1"], 112); (["f2"], 113); (["f3"], 114); (["f4"], 115); (["f5"], 116);
   (["f6"], 117); (["f7"], 118); (["f8"], 119); (["f9"], 120); (["f10"], 121);
   (["f11"], 122); (["f12"], 123)].

(** [virtual_key(key).ok()]. *)
Definition virtual_key (key : string) : option Z :=
  let normalized := to_ascii_lowercase (trim key) in
  match List.find (fun '(names, _) => normalized ∈? names) named_keys with
  | Some (_, value) => Some value
  | None =>
      match normalized with
      | String a EmptyString =>
          if is_ascii_alphanumeric (byte_of a) then Some (byte_of (upper_byte a)) else None
      | _ => None
      end
  end.

Fixpoint collect_keys (modifiers_only : bool) (result : list Z) (keys : list string)
    : Prelude.result reason (list Z) :=
  match keys with
  | [] => Ok result
  | key :: keys =>
      let? value := ok_or
        (or_else (modifier_virtual_key key)
           (if modifiers_only then None else virtual_key key)) Reason.InvalidRequest in
      if value ∈? result then Err Reason.InvalidRequest
      else collect_keys modifiers_only (result ++ [value]) keys
  end.

Definition checked_keys (keys : list string) (modifiers_only : bool)
    : result reason (list Z) :=
  if (16 <? len keys) || (negb modifiers_only && bool_decide (keys = []))
  then Err Reason.InvalidRequest
  else collect_keys modifiers_only [] keys.

(** ** Operations *)

Definition key_downs (keys : list Z) : list event := map (fun key => Event.Key key false) keys.
Definition key_ups (keys : list Z) : list event := map (fun key => Event.Key key true) keys.

(** [char::encode_utf16]. *)
Definition encode_utf16 (c : Z) : list Z :=
  if c <? 65536 then [c]
  else let c := c - 65536 in
       [Z.lor 55296 (Z.shiftr c 10); Z.lor 56320 (Z.land c 1023)].

Definition CR : Z := 13.
Definition LF : Z := 10.

Definition char_events (character : Z) : list event :=
  if character ∈? [CR; LF] then [Event.Key VK_RETURN false; Event.Key VK_RETURN true]
  else flat_map (fun unit => [Event.Unicode unit false; Event.Unicode unit true])
         (encode_utf16 character).

Fixpoint chars_events (previous_cr : bool) (characters : list Z) : list event :=
  match characters with
  | [] => []
  | character :: characters =>
      if (character =? LF) && previous_cr then chars_events false characters
      else char_events character ++ chars_events (character =? CR) characters
  end.

Definition text_events (text : string) : result reason (list event) :=
  if str_is_empty text || (4096 <? utf16_count text) then Err Reason.InvalidRequest
  else Ok (chars_events false (chars text)).

(** The rounds of a wait of [duration] milliseconds: each but the last lets some time
    pass. *)
Definition wait_rounds (duration : Z) : nat := S (S (Z.to_nat duration)).

Section Runs.
Context {B : Type} `{IB : InputBackend B}.

Abbreviation tx A := (eff (native_history * Tx.Transaction B) reason A).
Abbreviation guarded_result :=
  (eff (native_history * B) GuardedError.WindowsGuardedInputError
     Outcome.WindowsGuardedInputOutcome).

Definition tx_check (p : option point) : tx unit :=
  do? self := silent (read (fun self => self)) in
  on_backend (check (Tx.fence self) p).

(** [while elapsed < deadline { still()?; pause(..) }]. *)
Definition wait_round (deadline : Z) (still : tx unit) (_ : unit) : tx (unit + unit) :=
  do? elapsed := on_backend elapsed_ms in
  if elapsed <? deadline
  then
    run? still in
    do? elapsed := on_backend elapsed_ms in
    run? on_backend (pause (Z.min (saturating_sub deadline elapsed) 20)) in
    ret (inl tt)
  else ret (inr tt).

(** [None]: the clock stands still. *)
Definition wait_until (rounds : nat) (deadline : Z) (still : tx unit) : tx unit :=
  do? done := loop rounds (wait_round deadline still) tt in
  match done with Some _ => ret tt | None => panic end.

(** [for index in 0..count]. *)
Fixpoint click_times (count : nat) (batch : list event) : tx unit :=
  match count with
  | O => ret tt
  | S count =>
      run? tx_mutate batch None in
      match count with
      | O => ret tt
      | S _ =>
          run? on_backend (pause 80) in
          click_times count batch
      end
  end.

Definition click_batch (p : point) (button : WindowsPointerButton) : list event :=
  [Event.Move p.1 p.2; Event.Mouse button false; Event.Mouse button true].

Definition click_body (p : point) (count : Z) (button : WindowsPointerButton)
    (modifiers : list string) : tx unit :=
  run? refuse_if (negb ((1 <=? count) && (count <=? 2))) Reason.InvalidRequest in
  do? modifiers := lift (checked_keys modifiers true) in
  run? tx_mutate [] (Some p) in
  run? (if bool_decide (modifiers = []) then ret tt
        else tx_mutate (key_downs modifiers) None) in
  click_times (Z.to_nat count) (click_batch p button).

Definition run_click (fence : Fence.WindowsPhysicalInputFence) (p : point) (count : Z)
    (button : WindowsPointerButton) (modifiers : list string) : guarded_result :=
  guarded fence (Some p) Operation.Click (click_body p count button modifiers).

Fixpoint check_points (points : list point) : tx unit :=
  match points with
  | [] => ret tt
  | p :: points => run? tx_check (Some p) in check_points points
  end.

(** The moves to the points from number [index] on; the button went down at [started]. *)
Fixpoint drag_path (started duration_ms segments index : Z) (points : list point) : tx unit :=
  match points with
  | [] => ret tt
  | p :: points =>
      let deadline := saturating_add started (duration_ms * index / segments) in
      run? wait_until (wait_rounds duration_ms) deadline
        (do? at_ := silent (read Tx.point) in tx_check at_) in
      run? silent (modify (fun self => self <| Tx.point := Some p |>)) in
      run? tx_mutate [Event.Move p.1 p.2] None in
      drag_path started duration_ms segments (index + 1) points
  end.

Definition drag_body (points : list point) (duration_ms : Z)
    (button : WindowsPointerButton) : tx unit :=
  match points with
  | start :: path =>
      run? refuse_if (negb ((2 <=? len points) && (len points <=? 201))
          || negb ((1 <=? duration_ms) && (duration_ms <=? 10000))
          || (Some start == last points)) Reason.InvalidRequest in
      run? check_points points in
      run? tx_mutate [] (Some start) in
      run? tx_mutate [Event.Mouse button false] None in
      do? started := on_backend elapsed_ms in
      run? drag_path started duration_ms (len points - 1) 1 path in
      tx_mutate [Event.Mouse button true] None
  | [] => throw Reason.InvalidRequest
  end.

Definition run_drag (fence : Fence.WindowsPhysicalInputFence) (points : list point)
    (duration_ms : Z) (button : WindowsPointerButton) : guarded_result :=
  guarded fence (head points) Operation.Drag (drag_body points duration_ms button).

Definition keypress_body (keys : list string) (duration : option Z) : tx unit :=
  do? keys := lift (checked_keys keys false) in
  run? refuse_if (is_some_and (fun duration => (duration =? 0) || (60000 <? duration))
    duration) Reason.InvalidRequest in
  match duration with
  | Some duration =>
      run? tx_mutate (key_downs keys) None in
      do? started := on_backend elapsed_ms in
      wait_until (wait_rounds duration) (saturating_add started duration)
        (do? stop := on_backend interrupted in
         run? refuse_if stop Reason.Interrupted in
         tx_check None)
  | None => tx_mutate (key_downs keys ++ key_ups (rev keys)) None
  end.

Definition run_keypress (fence : Fence.WindowsPhysicalInputFence) (keys : list string)
    (duration : option Z) : guarded_result :=
  guarded fence None Operation.Keypress (keypress_body keys duration).

Definition text_body (text : string) : tx unit :=
  do? events := lift (text_events text) in
  tx_mutate events None.

Definition run_text (fence : Fence.WindowsPhysicalInputFence) (text : string)
    : guarded_result :=
  guarded fence None Operation.Text (text_body text).
End Runs.

(** [_dpi] lives until the operation has ended. *)
Definition with_dpi {B} (world : native_world)
    (operation : Operation.WindowsGuardedInputOperation) (backend : Z -> B)
    (run : eff (native_history * B) GuardedError.WindowsGuardedInputError
             Outcome.WindowsGuardedInputOutcome)
    : eff (native_history * unit) GuardedError.WindowsGuardedInputError
        Outcome.WindowsGuardedInputOutcome :=
  do? entered := ask world EnterDpiScope in
  run? refuse_if (negb entered) {|
    GuardedError.reason := Reason.TargetUnavailable;
    GuardedError.outcome := Outcome.new operation;
    GuardedError.native_input_fence := None;
    GuardedError.visibility_failure := None;
    GuardedError.native_capture_popup := None |} in
  do? started := ask world Now in
  do? (result, _) := with_local (backend started) run in
  run? ask world LeaveDpiScope in
  lift result.

Section Sends.
Context (world : native_world).

Definition with_native_backend (operation : Operation.WindowsGuardedInputOperation) :=
  with_dpi world operation (fun started =>
    {| NativeBackend.started := started; NativeBackend.rejection := None |}).

Definition send_guarded_click fence p count button modifiers :=
  with_native_backend Operation.Click
    (run_click (IB := native_backend world) fence p count button modifiers).
Definition send_guarded_drag fence points duration_ms button :=
  with_native_backend Operation.Drag
    (run_drag (IB := native_backend world) fence points duration_ms button).
Definition send_guarded_keypress fence keys hold_duration_ms :=
  with_native_backend Operation.Keypress
    (run_keypress (IB := native_backend world) fence keys hold_duration_ms).
Definition send_guarded_text fence text :=
  with_native_backend Operation.Text (run_text (IB := native_backend world) fence text).
End Sends.
