(* ===== verification/CapturePopupInput.v ===== *)
(** * Keyboard input to a captured popup
    ([crates/dcc-cua-platform-windows/src/physical_input_fence/capture_popup.rs])

    A second backend of the guarded input: keys and text for a popup that has the mouse
    capture and was observed together with its root.  After the keys have been released
    the popup may be closing, and the last check waits for it, for a moment and without
    accepting anything new. *)

From S2P Require Import Prelude Records Effects RustStr Calls NativeInput PhysicalInput.

(** ** Checks *)

(** [matches_completed_keyboard_postcheck]: only the geometry of the popups may differ. *)
Definition copy_geometry (expected observed : NativeState.ExactWindowNativeState)
    : NativeState.ExactWindowNativeState :=
  expected <| NativeState.bounds := NativeState.bounds observed |>
           <| NativeState.visible_bounds := NativeState.visible_bounds observed |>.

(** [for (expected, observed) in a.iter_mut().zip(b)]. *)
Fixpoint copy_geometries (expected observed : list NativeState.ExactWindowNativeState)
    : list NativeState.ExactWindowNativeState :=
  match expected, observed with
  | e :: expected, o :: observed => copy_geometry e o :: copy_geometries expected observed
  | _, _ => expected
  end.

Definition matches_completed_keyboard_postcheck
    (self current : PopupProof.NativeCapturePopupProof) : bool :=
  let permitted := self
    <| PopupProof.capture :=
         copy_geometry (PopupProof.capture self) (PopupProof.capture current) |>
    <| PopupProof.overlays :=
         copy_geometries (PopupProof.overlays self) (PopupProof.overlays current) |>
    <| PopupProof.ordered_occluders :=
         copy_geometries (PopupProof.ordered_occluders self)
           (PopupProof.ordered_occluders current) |>
    <| PopupProof.redacted_regions := PopupProof.redacted_regions current |> in
  permitted == current.

(** [NativeCapturePopupReadError::diagnostic]. *)
Definition popup_diagnostic (self : PopupReadError.NativeCapturePopupReadError)
    (target : NativeState.ExactWindowNativeState)
    : PopupDiagnostic.NativeCapturePopupInputDiagnostic := {|
  PopupDiagnostic.reason := PopupReadError.reason self;
  PopupDiagnostic.target_process_id := NativeState.process_id target;
  PopupDiagnostic.target_window_handle := NativeState.window_handle target;
  PopupDiagnostic.target_bounds :=
    or_else (PopupReadError.target_bounds self) (NativeState.visible_bounds target);
  PopupDiagnostic.blocker_process_id :=
    PopupReadError.blocker self ≫= fun entry => Some entry.1.1;
  PopupDiagnostic.blocker_window_handle :=
    PopupReadError.blocker self ≫= fun entry => Some entry.1.2;
  PopupDiagnostic.blocker_bounds :=
    PopupReadError.blocker self ≫= fun entry => Some entry.2 |}.

Definition validate_root_fence (fence : Fence.WindowsPhysicalInputFence)
    (state : NativeState.ExactWindowNativeState) : result reason unit :=
  let target := Fence.target fence in
  if negb (NativeState.process_id state =? UiaTarget.process_id target)
     || negb (NativeState.window_handle state =? UiaTarget.window_handle target)
     || (NativeState.instance state != Fence.native_instance fence)
  then Err Reason.InstanceChanged
  else if (NativeState.bounds state != Some (Fence.native_window_bounds fence))
     || (NativeState.visible_bounds state != Some (Fence.native_visible_bounds fence))
  then Err Reason.BoundsChanged
  else if negb (NativeState.dpi state =? Fence.window_dpi fence) then Err Reason.DpiChanged
  else if negb (NativeState.visible state) then Err Reason.TargetHidden
  else if NativeState.minimized state then Err Reason.TargetMinimized
  else if negb (NativeState.foreground state) then Err Reason.TargetNotForeground
  else Ok tt.

(** [for event in events] over the presses that are not released yet. *)
Fixpoint releases_match (pending events : list event) : bool :=
  match events with
  | [] => bool_decide (pending = [])
  | e :: events =>
      match release e with
      | Some r => releases_match (pending ++ [r]) events
      | None => if e ∈? pending then releases_match (remove_last e pending) events else false
      end
  end.

Definition keyboard_release_completed (events : list event)
    (receipt : Receipt.MutationReceipt) (cleanup_only : bool) : bool :=
  if bool_decide (events = [])
     || negb (Receipt.requested receipt =? Receipt.inserted receipt)
  then false
  else if cleanup_only then forallb is_release events
  else releases_match [] events.

Definition validate_current_proof (expected current : PopupProof.NativeCapturePopupProof)
    (completed_keyboard : bool) : result reason unit :=
  if (current == expected)
     || (completed_keyboard && matches_completed_keyboard_postcheck expected current)
  then Ok tt else Err Reason.InstanceChanged.

Definition may_wait_for_completed_popup (settling : bool)
    (refusal : option PopupRefusal.NativeCapturePopupRefusal) : bool :=
  is_some_and (fun r =>
    r ∈? [PopupRefusal.PopupNotUsable; PopupRefusal.PopupUnavailable;
          PopupRefusal.NativeStateUnavailable]) refusal
  || (settling && is_some_and (fun r => r == PopupRefusal.CaptureNotSelected) refusal).

(** ** The backend *)

Module CapturePopupBackend.
Record CapturePopupBackend : Type := {
  proof : PopupProof.NativeCapturePopupProof;
  started : Z;
  closed_postcheck_allowed : bool;
  rejection : option PopupDiagnostic.NativeCapturePopupInputDiagnostic;
}.
#[global] Instance backend_settable : Settable CapturePopupBackend := fun b => {|
  proof := proof b; started := started b;
  closed_postcheck_allowed := closed_postcheck_allowed b; rejection := rejection b |}.
End CapturePopupBackend.
Module Popup := CapturePopupBackend.

Section Backend.
Context (world : native_world).

Abbreviation popup_op A := (phys Popup.CapturePopupBackend A).

Definition check_capture_popup_fence {B} (fence : Fence.WindowsPhysicalInputFence)
    (read_complete_proof : phys B unit) : phys B unit :=
  run? not_interrupted world in
  run? input_available world in
  run? read_complete_proof in
  run? input_available world in
  do? state := read_final_state world fence in
  run? not_interrupted world in
  lift (validate_root_fence fence state).

(** What the popup and its root look like after the popup has closed. *)
Definition read_closed {B} (fence : Fence.WindowsPhysicalInputFence) : phys B unit :=
  let target := Fence.target fence in
  do? ended := ask world (CaptureEndedWithRootFocus target) in
  do? ended := lift (ok_or ended Reason.TargetUnavailable) in
  run? refuse_if (negb ended) Reason.TargetOccluded in
  do? evidence := ask world (ReadPixelEvidence target) in
  do? evidence := lift (ok_or evidence Reason.TargetUnavailable) in
  run? refuse_if (negb (PixelEvidence.unobscured evidence)) Reason.TargetOccluded in
  do? state := read_final_state world fence in
  do? desktop := ask world ReadDesktop in
  lift (validate_physical_metadata fence evidence state desktop None false).

(** The closure that reads the proof, with the [rejection] it captures as its state. *)
Definition read_popup_proof (expected : PopupProof.NativeCapturePopupProof)
    (fence : Fence.WindowsPhysicalInputFence) (allow_closed : bool)
    : phys (option PopupDiagnostic.NativeCapturePopupInputDiagnostic) unit :=
  let selected := map NativeState.window_handle (PopupProof.overlays expected) in
  do? proof := ask world (ReadPopupProof (Fence.target fence) selected) in
  match proof with
  | Ok proof => lift (validate_current_proof expected proof allow_closed)
  | Err error =>
      run? silent (modify (fun _ =>
        Some (popup_diagnostic error (PopupProof.root expected)))) in
      if allow_closed then read_closed fence else throw Reason.TargetOccluded
  end.

Definition check_mode_once (fence : Fence.WindowsPhysicalInputFence) (allow_closed : bool)
    : popup_op unit :=
  do? expected := silent (read Popup.proof) in
  run? lift (validate_root_fence fence (PopupProof.root expected)) in
  do? (result, rejection) := with_local None
    (check_capture_popup_fence fence (read_popup_proof expected fence allow_closed)) in
  run? silent (modify (fun self => self <| Popup.rejection :=
    if result == Err Reason.TargetOccluded then rejection else None |>)) in
  lift result.

(** Whether the popup is only closing, while the check has refused it. *)
Definition teardown_unchanged (fence : Fence.WindowsPhysicalInputFence) : popup_op unit :=
  do? expected := silent (read Popup.proof) in
  check_capture_popup_fence fence
    (do? pending := ask world (PopupTeardownPending expected) in
     refuse_if (negb pending) Reason.TargetOccluded).

(** The closure [read] of a postcheck. *)
Definition read_postcheck (fence : Fence.WindowsPhysicalInputFence)
    (allow_closed settling : bool) : popup_op (result reason unit * bool) :=
  do? result := attempt (check_mode_once fence allow_closed) in
  do? rejection := silent (read Popup.rejection) in
  if negb allow_closed
     || (result != Err Reason.TargetOccluded)
     || negb (may_wait_for_completed_popup settling
                (rejection ≫= fun rejection => Some (PopupDiagnostic.reason rejection)))
  then ret (result, false)
  else
    do? unchanged := attempt (teardown_unchanged fence) in
    match unchanged with
    | Ok _ => ret (result, true)
    | Err reason => ret (Err reason, false)
    end.

Definition POSTCHECK : Z := 100 * NANOS.

(** One round of [for attempt in 0..=20], from its number and [settling]. *)
Definition postcheck_round {B} (completed_keyboard : bool)
    (read : bool -> phys B (result reason unit * bool)) (elapsed : phys B Z)
    (started : Z) (at_ : Z * bool) : phys B (Z * bool + result reason unit) :=
  let '(attempt, settling) := at_ in
  do? late :=
    if settling then do? now := elapsed in ret (POSTCHECK <=? Z.max 0 (now - started))
    else ret false in
  if late then throw Reason.TargetOccluded
  else
  do? (result, unchanged_teardown) := read settling in
  do? now := elapsed in
  let expired := POSTCHECK <=? Z.max 0 (now - started) in
  if is_ok result && settling && expired then throw Reason.TargetOccluded
  else if negb completed_keyboard || (result != Err Reason.TargetOccluded)
          || negb unchanged_teardown || expired || (attempt =? 20)
  then ret (inr result)
  else
    do? now := elapsed in
    run? ask world (Sleep (Z.min (5 * NANOS)
      (Z.max 0 (POSTCHECK - Z.max 0 (now - started))))) in
    ret (inl (attempt + 1, true)).

Definition completed_popup_postcheck {B} (completed_keyboard : bool)
    (read : bool -> phys B (result reason unit * bool)) (elapsed : phys B Z) : phys B unit :=
  do? started := elapsed in
  do? result := loop 21 (postcheck_round completed_keyboard read elapsed started) (0, false) in
  match result with Some result => lift result | None => panic end.

Definition check_mode (fence : Fence.WindowsPhysicalInputFence) (allow_closed : bool)
    : popup_op unit :=
  do? started := ask world Now in
  completed_popup_postcheck allow_closed (read_postcheck fence allow_closed)
    (elapsed_since world started).

Definition popup_check (fence : Fence.WindowsPhysicalInputFence) (p : option point)
    : popup_op unit :=
  run? refuse_if (is_some p) Reason.InvalidRequest in
  do? allowed := silent (read Popup.closed_postcheck_allowed) in
  check_mode fence allowed.

Definition is_pointer_event (e : event) : bool :=
  match e with Event.Mouse _ _ | Event.Move _ _ => true | _ => false end.

Definition popup_mutate (fence : Fence.WindowsPhysicalInputFence) (p : option point)
    (events : list event) (cursor : option point) (cleanup_only : bool)
    : popup_op Receipt.MutationReceipt :=
  run? refuse_if (is_some p || is_some cursor || existsb is_pointer_event events)
    Reason.InvalidRequest in
  let releases_only := negb (bool_decide (events = [])) && forallb is_release events in
  do? receipt := final_physical_boundary cleanup_only releases_only
    (check_mode fence false) (send_input world events) in
  run? silent (modify (fun self => self <| Popup.closed_postcheck_allowed :=
    keyboard_release_completed events receipt cleanup_only |>)) in
  ret receipt.

#[export] Instance capture_popup_backend : InputBackend Popup.CapturePopupBackend := {|
  capture_popup_rejection := Popup.rejection;
  rejection_diagnostic := fun _ => None;
  check := popup_check;
  mutate := popup_mutate;
  interrupted := ask world Interrupted;
  elapsed_ms := elapsed_ms_of world Popup.started;
  pause := sleep_ms world |}.

Definition with_capture_popup_backend (operation : Operation.WindowsGuardedInputOperation)
    (proof : PopupProof.NativeCapturePopupProof) :=
  with_dpi world operation (fun started => {|
    Popup.proof := proof; Popup.started := started;
    Popup.closed_postcheck_allowed := false; Popup.rejection := None |}).

Definition send_guarded_capture_popup_keypress fence proof keys hold_duration_ms :=
  with_capture_popup_backend Operation.Keypress proof
    (run_keypress (IB := capture_popup_backend) fence keys hold_duration_ms).
Definition send_guarded_capture_popup_text fence proof text :=
  with_capture_popup_backend Operation.Text proof
    (run_text (IB := capture_popup_backend) fence text).
End Backend.
