(* ===== verification/GuardedEvidence.v ===== *)
(** * What guarded input relies on, and what it is asked for

    The proof of a captured window, condition by condition, and the events that a request
    for clicks, drags, keys or text stands for, written down without the code: with the
    lemmas that the checks and the plans of [PhysicalInput] and [CapturePopupInput] mean
    nothing else. *)

From S2P Require Import Prelude Records RustStr NativeInput PhysicalInput CapturePopupInput.

(** ** A window that is as it was captured *)

(** The point is in the rectangle, which has an area. *)
Definition inside (p : point) (bounds : rect) : Prop :=
  let '(x, y) := p in
  let '(l, t, width, height) := bounds in
  l <= x < l + width /\ t <= y < t + height.

Definition within (inner outer : rect) : Prop :=
  let '(l, t, width, height) := inner in
  let '(ol, ot, owidth, oheight) := outer in
  0 < width /\ 0 < height /\ ol <= l /\ l + width <= ol + owidth
  /\ ot <= t /\ t + height <= ot + oheight.

(** Larger than a border. *)
Definition sizeable (bounds : rect) : Prop :=
  let '(_, _, width, height) := bounds in 4 < width /\ 4 < height.

(** What the fence of an operation names. *)
Record names_window (fence : Fence.WindowsPhysicalInputFence) : Prop := {
  names_process : UiaTarget.process_id (Fence.target fence) <> 0;
  names_handle : UiaTarget.window_handle (Fence.target fence) <> 0;
  names_creation : PixelInstance.process_creation_time_100ns (Fence.native_instance fence) <> 0;
  names_thread : PixelInstance.window_thread_id (Fence.native_instance fence) <> 0;
  names_dpi : Fence.window_dpi fence <> 0;
  names_bounds : sizeable (Fence.native_window_bounds fence);
  names_visible_bounds : sizeable (Fence.native_visible_bounds fence);
}.

(** The state the system reports is that of the window in the fence, in front and shown. *)
Record proven_state (fence : Fence.WindowsPhysicalInputFence)
    (state : NativeState.ExactWindowNativeState) : Prop := {
  state_process : NativeState.process_id state = UiaTarget.process_id (Fence.target fence);
  state_handle :
    NativeState.window_handle state = UiaTarget.window_handle (Fence.target fence);
  state_instance : NativeState.instance state = Fence.native_instance fence;
  state_bounds : NativeState.bounds state = Some (Fence.native_window_bounds fence);
  state_visible_bounds :
    NativeState.visible_bounds state = Some (Fence.native_visible_bounds fence);
  state_dpi : NativeState.dpi state = Fence.window_dpi fence;
  state_visible : NativeState.visible state = true;
  state_not_minimized : NativeState.minimized state = false;
  state_foreground : NativeState.foreground state = true;
}.

(** The point is shown, and inside the window and the desktop; what else covers the window
    is another root, away from the point. *)
Record proven_point (fence : Fence.WindowsPhysicalInputFence)
    (evidence : PixelEvidence.ExactWindowPixelEvidence) (desktop : rect) (p : point)
    (shown : bool) : Prop := {
  point_shown : shown = true;
  point_unobscured : PixelEvidence.unobscured evidence = true
    \/ exists failure, PixelEvidence.visibility_failure evidence = Some failure
         /\ VisibleDiagnostic.reason failure = VisibleReason.RootOverlap;
  point_in_window : inside p (Fence.native_window_bounds fence);
  point_in_visible : inside p (PixelEvidence.visible_bounds evidence);
  point_in_desktop : inside p desktop;
}.

(** The pixels and the state are those of the window in the fence, within the desktop, and
    nothing covers it, or not the point. *)
Record proven_window (fence : Fence.WindowsPhysicalInputFence)
    (evidence : PixelEvidence.ExactWindowPixelEvidence)
    (state : NativeState.ExactWindowNativeState) (desktop : rect) (p : option point)
    (shown : bool) : Prop := {
  window_named : names_window fence;
  window_state : proven_state fence state;
  pixels_process : PixelEvidence.process_id evidence = UiaTarget.process_id (Fence.target fence);
  pixels_handle :
    PixelEvidence.window_handle evidence = UiaTarget.window_handle (Fence.target fence);
  pixels_instance : PixelEvidence.instance evidence = Fence.native_instance fence;
  pixels_bounds : PixelEvidence.bounds evidence = Fence.native_window_bounds fence;
  pixels_visible_bounds :
    PixelEvidence.visible_bounds evidence = Fence.native_visible_bounds fence;
  pixels_dpi : PixelEvidence.dpi evidence = Fence.window_dpi fence;
  pixels_visible : PixelEvidence.visible evidence = true;
  pixels_not_minimized : PixelEvidence.minimized evidence = false;
  pixels_in_desktop : within (PixelEvidence.visible_bounds evidence) desktop;
  pixels_unobscured :
    match p with
    | Some p => proven_point fence evidence desktop p shown
    | None => PixelEvidence.unobscured evidence = true
    end;
}.

Lemma point_inside_spec p bounds : point_inside p bounds = true -> inside p bounds.
Proof.
  destruct p as [x y], bounds as [[[l t] w] h]. unfold point_inside, inside.
  rewrite !andb_true_iff. lia.
Qed.
Lemma within_spec inner outer :
  physical_rectangle_within_desktop inner outer = true -> within inner outer.
Proof.
  destruct inner as [[[l t] w] h], outer as [[[ol ot] ow] oh].
  unfold physical_rectangle_within_desktop, within. rewrite !andb_true_iff. lia.
Qed.
Lemma sizeable_spec bounds : too_small bounds = false -> sizeable bounds.
Proof.
  destruct bounds as [[[l t] w] h]. unfold too_small, sizeable. rewrite orb_false_iff. lia.
Qed.
Lemma root_overlap_spec evidence :
  root_overlap evidence = true ->
  exists failure, PixelEvidence.visibility_failure evidence = Some failure
    /\ VisibleDiagnostic.reason failure = VisibleReason.RootOverlap.
Proof.
  unfold root_overlap. destruct (PixelEvidence.visibility_failure evidence) as [failure|];
    [|done]. cbn. intros H%bool_decide_eq_true. eauto.
Qed.

(** One guard: its condition did not hold. *)
Ltac guard_passed H E :=
  match type of H with
  | (if ?b then Err _ else _) = Ok _ => destruct b eqn:E; [discriminate H|]
  end.
Ltac passed E := rewrite ?orb_false_iff in E; reflect_all.

Lemma validated_window fence evidence state desktop p shown :
  validate_physical_metadata fence evidence state desktop p shown = Ok tt ->
  proven_window fence evidence state desktop p shown.
Proof.
  unfold validate_physical_metadata. cbv zeta. intros H.
  guard_passed H E1. guard_passed H E2. guard_passed H E3. guard_passed H E4.
  guard_passed H E5. guard_passed H E6. guard_passed H E7. guard_passed H E8.
  guard_passed H E9. guard_passed H E10. clear H.
  assert (match p with
          | Some p => proven_point fence evidence desktop p shown
          | None => PixelEvidence.unobscured evidence = true
          end) as Hpoint.
  { destruct p as [p|]; [|by apply negb_false_iff]. cbn in E8, E10.
    rewrite negb_false_iff, andb_true_iff, orb_true_iff, andb_true_iff in E8.
    rewrite !orb_false_iff, !negb_false_iff in E10.
    constructor; [tauto | | apply point_inside_spec; tauto ..].
    destruct E8 as [_ [?|[_ ?%root_overlap_spec]]]; auto. }
  apply negb_false_iff, within_spec in E9. clear E8 E10. reflect_all.
  constructor; [constructor | constructor | ..]; auto using sizeable_spec.
Qed.

Lemma validated_root fence state :
  validate_root_fence fence state = Ok tt -> proven_state fence state.
Proof.
  unfold validate_root_fence. cbv zeta. intros H.
  guard_passed H E1. guard_passed H E2. guard_passed H E3. guard_passed H E4.
  guard_passed H E5. guard_passed H E6. clear H. reflect_all. by constructor.
Qed.

(** ** Releases *)

(** The event lets go of what the other presses. *)
Definition lets_go (press up : event) : Prop :=
  match press, up with
  | Event.Key key false, Event.Key key' true => key = key'
  | Event.Unicode unit false, Event.Unicode unit' true => unit = unit'
  | Event.Mouse button false, Event.Mouse button' true => button = button'
  | _, _ => False
  end.

(** Down after the events: the last of the two was the press. *)
Definition still_down (press up : event) (events : list event) : bool :=
  fold_left (fun down e =>
    if bool_decide (e = press) then true else if bool_decide (e = up) then false else down)
    events false.

Lemma lets_go_release press up : lets_go press up -> release press = Some up.
Proof. destruct press as [? []|? []|? []|], up as [? []|? []|? []|]; cbn; try done; by intros ->. Qed.

Lemma still_down_held press up events :
  lets_go press up -> still_down press up events = held press events.
Proof.
  intros Hr%lets_go_release. unfold still_down, held. rewrite Hr.
  induction events as [|e events IH] using rev_ind; [done|].
  rewrite !fold_left_app. cbn. rewrite IH.
  by rewrite (bool_decide_ext (Some e = Some up) (e = up)) by naive_solver.
Qed.

Lemma is_release_spec e : is_release e = true -> exists press, lets_go press e.
Proof.
  destruct e as [key []|unit []|button []|]; cbn; try done; intros _;
    [exists (Event.Key key false) | exists (Event.Unicode unit false) |
     exists (Event.Mouse button false)]; done.
Qed.

(** ** Keys *)

(** By name, without regard to case and surrounding space. *)
Inductive modifier_key : string -> Z -> Prop :=
| control name : name ∈ ["ctrl"; "control"] -> modifier_key name 0x11
| shift : modifier_key "shift" 0x10
| alt name : name ∈ ["alt"; "menu"; "option"] -> modifier_key name 0x12
| windows name : name ∈ ["win"; "meta"; "windows"; "cmd"; "command"] -> modifier_key name 0x5B.

Inductive ordinary_key : string -> Z -> Prop :=
| enter name : name ∈ ["enter"; "return"] -> ordinary_key name 0x0D
| tab : ordinary_key "tab" 0x09
| escape name : name ∈ ["escape"; "esc"] -> ordinary_key name 0x1B
| space name : name ∈ ["space"; " "] -> ordinary_key name 0x20
| backspace name : name ∈ ["backspace"; "back"] -> ordinary_key name 0x08
| delete name : name ∈ ["delete"; "del"] -> ordinary_key name 0x2E
| left_arrow : ordinary_key "left" 0x25
| up_arrow : ordinary_key "up" 0x26
| right_arrow : ordinary_key "right" 0x27
| down_arrow : ordinary_key "down" 0x28
| home : ordinary_key "home" 0x24
| end_ : ordinary_key "end" 0x23
| page_up name : name ∈ ["pageup"; "pgup"] -> ordinary_key name 0x21
| page_down name : name ∈ ["pagedown"; "pgdn"] -> ordinary_key name 0x22
| function n : 1 <= n <= 12 -> ordinary_key ("f" +:+ show n) (0x6F + n)
| digit a : 48 <= byte_of a <= 57 -> ordinary_key (String a "") (byte_of a)
| capital a : 65 <= byte_of a <= 90 -> ordinary_key (String a "") (byte_of a)
| letter a : 97 <= byte_of a <= 122 -> ordinary_key (String a "") (byte_of a - 32).

Definition named_key (modifiers_only : bool) (key : string) (code : Z) : Prop :=
  let name := to_ascii_lowercase (trim key) in
  modifier_key name code \/ modifiers_only = false /\ ordinary_key name code.

(** Each key is pressed once. *)
Definition named_keys_are (modifiers_only : bool) (keys : list string) (codes : list Z) : Prop :=
  Forall2 (named_key modifiers_only) keys codes /\ NoDup codes.

Lemma modifier_spec name code :
  modifier_virtual_key name = Some code -> modifier_key (to_ascii_lowercase (trim name)) code.
Proof.
  unfold modifier_virtual_key. cbv zeta. intros H. repeat guard_step H; injection H as <-;
    reflect_all.
  - by apply control.
  - match goal with E : _ = "shift" |- _ => rewrite E end. apply shift.
  - by apply alt.
  - by apply windows.
Qed.

Lemma ordinary_table :
  Forall (fun entry => forall name, name ∈ entry.1 -> ordinary_key name entry.2) named_keys.
Proof.
  assert (forall n, 1 <= n <= 12 -> forall name, name ∈ ["f" +:+ show n] ->
    ordinary_key name (0x6F + n)) as Hf.
  { intros n Hn name ->%list_elem_of_singleton. by apply function. }
  unfold named_keys. repeat apply Forall_cons_2; cbn [fst snd].
  27: constructor.
  all: try (intros name; first [apply enter | apply escape | apply space | apply backspace
    | apply delete | apply page_up | apply page_down]).
  all: try (intros name ->%list_elem_of_singleton; constructor).
  - apply (Hf 1). lia.
  - apply (Hf 2). lia.
  - apply (Hf 3). lia.
  - apply (Hf 4). lia.
  - apply (Hf 5). lia.
  - apply (Hf 6). lia.
  - apply (Hf 7). lia.
  - apply (Hf 8). lia.
  - apply (Hf 9). lia.
  - apply (Hf 10). lia.
  - apply (Hf 11). lia.
  - apply (Hf 12). lia.
Qed.

Lemma character_key a :
  is_ascii_alphanumeric (byte_of a) = true -> ordinary_key (String a "") (byte_of (upper_byte a)).
Proof.
  intros H. assert (byte_of (upper_byte a)
    = if (97 <=? byte_of a) && (byte_of a <=? 122) then byte_of a - 32 else byte_of a) as ->.
  { destruct a as [[] [] [] [] [] [] [] []]; vm_compute; reflexivity. }
  unfold is_ascii_alphanumeric, is_ascii_digit, is_ascii_upper, is_ascii_lower in H.
  rewrite !orb_true_iff, !andb_true_iff in H.
  destruct (_ && _) eqn:E; reflect_all; [apply letter; lia|].
  destruct H as [[H|H]|H]; [apply digit | apply capital | exfalso]; lia.
Qed.

Lemma virtual_key_spec key code :
  virtual_key key = Some code -> ordinary_key (to_ascii_lowercase (trim key)) code.
Proof.
  unfold virtual_key. cbv zeta. set (name := to_ascii_lowercase (trim key)).
  destruct (List.find _ named_keys) as [[names value]|] eqn:E.
  - intros [= <-]. apply List.find_some in E as [Hin Hname]. reflect_all.
    pose proof ordinary_table as Htable. rewrite Forall_forall in Htable.
    apply (Htable (names, value)); [by apply list_elem_of_In | done].
  - destruct name as [|a [|]]; try done. destruct (is_ascii_alphanumeric (byte_of a)) eqn:Ha;
      [|done]. intros [= <-]. by apply character_key.
Qed.

Lemma collect_keys_spec modifiers_only keys codes all :
  collect_keys modifiers_only codes keys = Ok all -> NoDup codes ->
  exists new, all = codes ++ new /\ Forall2 (named_key modifiers_only) keys new /\ NoDup all.
Proof.
  revert codes. induction keys as [|key keys IH]; intros codes H Hnodup; cbn in H.
  { injection H as <-. exists []. rewrite app_nil_r. by split_and!. }
  apply rbind_ok in H as (code & Hcode%ok_or_ok & H).
  destruct (code ∈? codes) eqn:Hin; [done|]. reflect_all.
  apply IH in H as (new & -> & Hall & Hn).
  - exists (code :: new). rewrite <- app_assoc in *. split_and!; [done | | done].
    constructor; [|done]. unfold named_key, or_else in *.
    destruct (modifier_virtual_key key) eqn:Em.
    + injection Hcode as <-. left. by apply modifier_spec.
    + destruct modifiers_only; [done|]. right. split; [done | by apply virtual_key_spec].
  - apply NoDup_app. split_and!; [done | set_solver | apply NoDup_singleton].
Qed.

Lemma checked_keys_spec keys modifiers_only codes :
  checked_keys keys modifiers_only = Ok codes -> named_keys_are modifiers_only keys codes.
Proof.
  unfold checked_keys. destruct (_ || _); [done|].
  intros (new & -> & H)%collect_keys_spec; [exact H | constructor].
Qed.

(** ** Text *)

(** What is typed for a text: a return, or a UTF-16 unit. *)
Inductive stroke : Type := Return | Unit (unit : Z).

(** A line break is a CR, an LF, or both in this order; a character above the basic plane
    is a surrogate pair. *)
Inductive strokes : list Z -> list stroke -> Prop :=
| strokes_nil : strokes [] []
| strokes_crlf rest out : strokes rest out -> strokes (13 :: 10 :: rest) (Return :: out)
| strokes_cr rest out : head rest <> Some 10 -> strokes rest out ->
    strokes (13 :: rest) (Return :: out)
| strokes_lf rest out : strokes rest out -> strokes (10 :: rest) (Return :: out)
| strokes_basic c rest out : c <> 10 -> c <> 13 -> c < 0x10000 -> strokes rest out ->
    strokes (c :: rest) (Unit c :: out)
| strokes_pair high low rest out :
    0xD800 <= high <= 0xDBFF -> 0xDC00 <= low <= 0xDFFF -> strokes rest out ->
    strokes (0x10000 + 0x400 * (high - 0xD800) + (low - 0xDC00) :: rest)
      (Unit high :: Unit low :: out).

(** Each goes down and up again. *)
Definition stroke_events (s : stroke) : list event :=
  match s with
  | Return => [Event.Key 0x0D false; Event.Key 0x0D true]
  | Unit u => [Event.Unicode u false; Event.Unicode u true]
  end.

(** A Rust [str] holds scalar values only. *)
Definition is_utf8 (text : string) : Prop := Forall (fun c => c <= 0x10FFFF) (chars text).

Lemma lor_above a b n : 0 <= n -> 0 <= b < 2 ^ n -> Z.lor (a * 2 ^ n) b = a * 2 ^ n + b.
Proof.
  intros Hn Hb. assert (Z.land (a * 2 ^ n) b = 0) as Hland.
  { apply Z.bits_inj'. intros m Hm. rewrite Z.land_spec, Z.bits_0.
    destruct (Z.lt_ge_cases m n).
    - by rewrite Z.mul_pow2_bits_low by lia.
    - assert (Z.testbit b m = false) as ->; [|apply andb_false_r].
      apply Z.testbit_false; [lia|]. rewrite Z.div_small; [done|].
      split; [lia|]. eapply Z.lt_le_trans; [apply Hb|]. apply Z.pow_le_mono_r; lia. }
  rewrite (Z.add_nocarry_lxor _ _ Hland). symmetry. by apply Z.lxor_lor.
Qed.

Lemma encode_pair c :
  0x10000 <= c <= 0x10FFFF ->
  exists high low, encode_utf16 c = [high; low]
    /\ 0xD800 <= high <= 0xDBFF /\ 0xDC00 <= low <= 0xDFFF
    /\ c = 0x10000 + 0x400 * (high - 0xD800) + (low - 0xDC00).
Proof.
  intros Hc. unfold encode_utf16. destruct (c <? 65536) eqn:E; [lia|]. cbv zeta.
  set (d := c - 65536). rewrite Z.shiftr_div_pow2 by lia.
  change 1023 with (Z.ones 10). rewrite Z.land_ones by lia. change (2 ^ 10) with 1024.
  pose proof (Z.div_mod d 1024 ltac:(lia)). pose proof (Z.mod_pos_bound d 1024 ltac:(lia)).
  assert (0 <= d / 1024 < 1024) by (subst d; split; [apply Z.div_pos; lia | apply Z.div_lt_upper_bound; lia]).
  change 55296 with (54 * 2 ^ 10). change 56320 with (55 * 2 ^ 10).
  rewrite !lor_above by (change (2 ^ 10) with 1024; lia). change (2 ^ 10) with 1024.
  eexists _, _. split; [done|]. subst d. lia.
Qed.

Lemma events_after_cr characters :
  head characters <> Some 10 -> chars_events true characters = chars_events false characters.
Proof.
  destruct characters as [|c rest]; [done|]. cbn. intros Hc. rewrite andb_false_r.
  destruct (c =? LF) eqn:E; [|done]. destruct Hc. unfold LF in E. f_equal. lia.
Qed.

(** A character that is no line break. *)
Lemma char_strokes c rest out :
  c <> 10 -> c <> 13 -> c <= 0x10FFFF -> strokes rest out ->
  exists typed, strokes (c :: rest) (typed ++ out)
    /\ char_events c = concat (map stroke_events typed).
Proof.
  intros H10 H13 Hc Hrest. unfold char_events.
  destruct (c ∈? [CR; LF]) eqn:E; [reflect_all; unfold CR, LF in *; set_solver|].
  destruct (Z.lt_ge_cases c 0x10000) as [Hlt|Hge].
  - exists [Unit c]. split; [by apply strokes_basic|]. unfold encode_utf16.
    by rewrite (proj2 (Z.ltb_lt c 65536)).
  - destruct (encode_pair c ltac:(lia)) as (high & low & -> & Hh & Hl & ->).
    exists [Unit high; Unit low]. split; [by apply strokes_pair | done].
Qed.

Lemma chars_strokes n characters :
  (length characters <= n)%nat -> Forall (fun c => c <= 0x10FFFF) characters ->
  exists out, strokes characters out
    /\ chars_events false characters = concat (map stroke_events out).
Proof.
  revert characters. induction n as [|n IH]; intros [|c characters] Hlen Hall; cbn in Hlen;
    [by exists []; split; [constructor|] | lia | by exists []; split; [constructor|] |].
  apply Forall_cons in Hall as [Hc Hall].
  destruct (IH characters ltac:(lia) Hall) as (out & Hout & Hev).
  cbn [chars_events]. rewrite andb_false_r. destruct (decide (c = 13)) as [->|H13].
  - change (13 =? CR) with true. change (char_events 13) with (stroke_events Return).
    destruct characters as [|c' rest].
    { exists [Return]. split; [apply strokes_cr; [done | constructor] | done]. }
    destruct (decide (c' = 10)) as [->|H10].
    + apply Forall_cons in Hall as [_ Hall]. cbn in Hlen.
      destruct (IH rest ltac:(lia) Hall) as (out' & Hout' & Hev').
      exists (Return :: out'). split; [by apply strokes_crlf|]. cbn. by rewrite <- Hev'.
    + assert (head (c' :: rest) <> Some 10) as Hhead by (cbn; congruence).
      exists (Return :: out). split; [by apply strokes_cr|].
      rewrite events_after_cr by done. cbn [map concat]. by rewrite <- Hev.
  - assert ((c =? CR) = false) as -> by (unfold CR; lia). rewrite Hev.
    destruct (decide (c = 10)) as [->|H10].
    + exists (Return :: out). by split; [apply strokes_lf|].
    + destruct (char_strokes c characters out H10 H13 Hc Hout) as (typed & Hs & ->).
      exists (typed ++ out). split; [done|]. by rewrite map_app, concat_app.
Qed.

Lemma text_events_spec text events :
  text_events text = Ok events -> is_utf8 text ->
  exists out, strokes (chars text) out /\ events = concat (map stroke_events out).
Proof.
  unfold text_events. destruct (_ || _); [done|]. intros [= <-] Hutf8.
  by eapply chars_strokes.
Qed.
