(* ===== verification/GuardedTransaction.v ===== *)
(** * Guarded transactions

    A backend of [PhysicalInput] keeps a contract: it proves the target before every
    mutation.  An operation over a backend that keeps it leaves nothing pressed, has
    injected what was asked for if it succeeds, and comes to an end. *)

From S2P Require Import Prelude Records Effects RustStr Calls NativeInput PhysicalInput.

(** ** Events and their releases *)

Lemma release_is_release e r : release e = Some r -> is_release r = true /\ release r = None.
Proof. destruct e as [k []|u []|b []|x y]; naive_solver. Qed.

Lemma release_injective e e' r : release e = Some r -> release e' = Some r -> e = e'.
Proof. destruct e as [? []|? []|? []|], e' as [? []|? []|? []|]; naive_solver. Qed.

Lemma released_is_no_press e r : release e = Some r -> is_release e = false.
Proof. destruct e as [? []|? []|? []|]; naive_solver. Qed.

Lemma held_snoc press l e :
  held press (l ++ [e])
  = if e == press then true else if Some e == release press then false else held press l.
Proof. unfold held. by rewrite fold_left_app. Qed.

Lemma elem_of_remove_last e x l : x ∈ remove_last e l -> x ∈ l.
Proof.
  induction l as [|y l IH]; simpl; [done|]. repeat case_bool_decide; set_solver.
Qed.

Lemma remove_last_other e x l : x ∈ l -> x <> e -> x ∈ remove_last e l.
Proof.
  induction l as [|y l IH]; simpl; [done|]. intros H Hne.
  repeat case_bool_decide; set_solver.
Qed.

Lemma remove_last_snoc e l : remove_last e (l ++ [e]) = l.
Proof.
  induction l as [|y l IH]; simpl.
  - by rewrite (bool_decide_eq_true_2 (e = e)) by done.
  - rewrite (bool_decide_eq_true_2 (e ∈ l ++ [e])) by set_solver. by rewrite IH.
Qed.

Definition to_release (events : list event) : list event := fold_left track events [].

Lemma to_release_snoc l e : to_release (l ++ [e]) = track (to_release l) e.
Proof. unfold to_release. by rewrite fold_left_app. Qed.

Lemma fold_track_app l pending :
  forall l', fold_left track (l ++ l') pending = fold_left track l' (fold_left track l pending).
Proof. intros l'. by rewrite fold_left_app. Qed.

(** What is held is to be released, and only releases are. *)
Lemma held_to_release press r l :
  release press = Some r -> held press l = true -> r ∈ to_release l.
Proof.
  intros Hr. induction l as [|e l IH] using rev_ind; [done|].
  rewrite held_snoc, to_release_snoc. unfold track.
  destruct (decide (e = press)) as [->|Hne].
  - intros _. rewrite Hr. set_solver.
  - rewrite bool_decide_eq_false_2 by done.
    destruct (decide (Some e = release press)) as [He|Hne2].
    + rewrite bool_decide_eq_true_2 by done. done.
    + rewrite bool_decide_eq_false_2 by done. intros H%IH.
      destruct (release e); [set_solver|]. destruct (is_release e); [|done].
      apply remove_last_other; [done|]. congruence.
Qed.

Lemma to_release_releases l : Forall (fun e => is_release e = true) (to_release l).
Proof.
  induction l as [|e l IH] using rev_ind; [constructor|].
  rewrite to_release_snoc. unfold track. destruct (release e) eqn:Er.
  - apply Forall_app. split; [done|]. constructor; [|done]. by eapply release_is_release.
  - destruct (is_release e); [|done]. apply Forall_forall.
    intros x Hx%elem_of_remove_last. rewrite Forall_forall in IH. by apply IH.
Qed.

(** Releases only release, and each of them does. *)
Lemma held_releases press r l released :
  release press = Some r -> Forall (fun e => is_release e = true) released ->
  held press (l ++ released) = if bool_decide (r ∈ released) then false else held press l.
Proof.
  intros Hr. induction released as [|e released IH] using rev_ind; intros H.
  - by rewrite app_nil_r.
  - apply Forall_app in H as [H He]. apply Forall_inv in He.
    rewrite app_assoc, held_snoc, IH by done. rewrite Hr.
    assert (e <> press) as Hne.
    { intros ->. apply released_is_no_press in Hr. congruence. }
    rewrite (bool_decide_eq_false_2 (e = press)) by done.
    destruct (decide (e = r)) as [->|Hner].
    + by rewrite !bool_decide_eq_true_2 by set_solver.
    + rewrite (bool_decide_eq_false_2 (Some e = Some r)) by congruence.
      erewrite bool_decide_ext; [done|]. set_solver.
Qed.

(** ** The history of the dispatches *)

Abbreviation a_call := {A & (native_call A * A)%type}.

Lemma injected_app h1 h2 : injected (h1 ++ h2) = injected h1 ++ injected h2.
Proof. unfold injected. by rewrite map_app, concat_app. Qed.

Lemma accepted_dispatch c : is_dispatch c = false -> accepted c = [].
Proof. destruct c as [A [call a]]. by destruct call. Qed.

Lemma injected_quiet h : of_interest_in is_dispatch h = [] -> injected h = [].
Proof.
  induction h as [|c h IH]; [done|]. unfold of_interest_in. simpl.
  destruct (is_dispatch c) eqn:E; [done|]. intros H%IH.
  unfold injected in *. simpl. by rewrite accepted_dispatch.
Qed.

Lemma quiet_no_dispatch h before c after :
  of_interest_in is_dispatch h = [] -> h = before ++ c :: after -> is_dispatch c = false.
Proof.
  intros H ->. destruct (is_dispatch c) eqn:E; [|done].
  unfold of_interest_in in H. rewrite List.filter_app in H. simpl in H. rewrite E in H.
  by apply app_eq_nil in H as [_ ?].
Qed.

(** A mutation in the given history: the call and the receipt. *)
Definition sent (world : native_world) (events : list event) (cursor : option point)
    (h : native_history) : a_call :=
  match cursor with
  | Some p => asked (SetCursorPos p) (world bool h (SetCursorPos p))
  | None => asked (SendInput events) (world Z h (SendInput events))
  end.

Definition receipt_of (world : native_world) (events : list event) (cursor : option point)
    (h : native_history) : Receipt.MutationReceipt :=
  match cursor with
  | Some p => {| Receipt.requested := 0; Receipt.inserted := 0;
                 Receipt.cursor_attempted := true;
                 Receipt.cursor_succeeded := world bool h (SetCursorPos p) |}
  | None => {| Receipt.requested := len events;
               Receipt.inserted := world Z h (SendInput events);
               Receipt.cursor_attempted := false; Receipt.cursor_succeeded := false |}
  end.

Lemma dispatch_sends {B} world events cursor h (b : B) :
  dispatch world events cursor (h, b)
  = Some (Ok (receipt_of world events cursor h), (h ++ [sent world events cursor h], b)).
Proof. by destruct cursor. Qed.

Lemma sent_is_dispatch world events cursor h : is_dispatch (sent world events cursor h) = true.
Proof. by destruct cursor. Qed.

(** Where a mutation goes. *)
Definition destination (e : event) : option point :=
  match e with Event.Move x y => Some (x, y) | _ => None end.
Definition destinations (c : a_call) : list point :=
  match projT2 c with
  | (SetCursorPos p, _) => [p]
  | (SendInput events, _) => omap destination events
  | _ => []
  end.
Definition aimed (p : option point) (c : a_call) : Prop :=
  Forall (fun q => p = Some q) (destinations c).

Definition aims (p : option point) (events : list event) (cursor : option point) : Prop :=
  match cursor with
  | Some q => events = [] /\ p = Some q
  | None => Forall (fun q => p = Some q) (omap destination events)
  end.

Lemma sent_aimed world p events cursor h :
  aims p events cursor -> aimed p (sent world events cursor h).
Proof. destruct cursor; simpl; [|done]. intros [_ H]. repeat constructor. done. Qed.

(** ** What is left when an operation has ended *)

(** The batch that releases what was pressed, the last mutation of all. *)
Definition is_cleanup (c : a_call) (after : native_history) : Prop :=
  of_interest_in is_dispatch after = []
  /\ exists releases inserted, c = asked (SendInput releases) inserted
     /\ Forall (fun e => is_release e = true) releases.

(** The system has taken a part of the clean-up only. *)
Definition left_by_cleanup (new : native_history) (r : event) : Prop :=
  exists before releases inserted after,
    new = before ++ asked (SendInput releases) inserted :: after
    /\ is_cleanup (asked (SendInput releases) inserted) after
    /\ r ∈ drop (Z.to_nat inserted) releases.

Abbreviation guarded_outcome :=
  (result GuardedError.WindowsGuardedInputError Outcome.WindowsGuardedInputOutcome).

(** Every mutation was proven where it went, by the calls just before it, or is the
    clean-up; what is still held is what the system did not take of the clean-up, and the
    operation failed then; and an error is one before the dispatch only if nothing was
    mutated. *)
Record safe (proven_at : option point -> native_history -> Prop) (start new : native_history)
    (r : guarded_outcome) : Prop := {
  safe_proven before c after : new = before ++ c :: after -> is_dispatch c = true ->
    (exists p, proven_at p (start ++ before) /\ aimed p c) \/ is_cleanup c after;
  safe_released press up : release press = Some up -> held press (injected new) = true ->
    is_err r = true /\ left_by_cleanup new up;
  safe_attempted e : r = Err e -> is_pre_dispatch e = true ->
    of_interest_in is_dispatch new = [];
}.

(** ** The contract of a backend

    In a valid state, a check asks without mutating; a mutation is refused, or sent right
    after calls that prove the target; and what was pressed can be released. *)
Class GuardedBackend {B : Type} (IB : InputBackend B) (world : native_world) : Type := {
  valid : B -> Prop;
  epoch : Z;
  supports : option point -> event -> bool;
  proven : Fence.WindowsPhysicalInputFence -> option point -> native_history -> Prop;
  supports_point p q e : supports (Some p) e = supports (Some q) e;
  supports_release p e r : release e = Some r -> supports p e = true -> supports p r = true;
  check_law f p h b : valid b ->
    exists r new b', check f p (h, b) = Some (r, (h ++ new, b')) /\ valid b'
      /\ of_interest_in is_dispatch new = [];
  mutate_law f p events cursor h b : valid b ->
    exists r new b', of_interest_in is_dispatch new = [] /\ valid b'
      /\ ((is_err r = true
           /\ mutate f p events cursor false (h, b) = Some (r, (h ++ new, b')))
          \/ (proven f p (h ++ new) /\ Forall (fun e => supports p e = true) events
              /\ mutate f p events cursor false (h, b)
                 = Some (Ok (receipt_of world events cursor (h ++ new)),
                         (h ++ new ++ [sent world events cursor (h ++ new)], b'))));
  cleanup_law f p events h b : valid b -> events <> [] ->
    Forall (fun e => is_release e = true) events ->
    Forall (fun e => supports p e = true) events ->
    exists b', valid b'
      /\ mutate f p events None true (h, b)
         = Some (Ok (receipt_of world events None h),
                 (h ++ [sent world events None h], b'));
  interrupted_law : interrupted = ask world Interrupted;
  elapsed_law h b : valid b -> elapsed_ms (h, b) = elapsed_ms_of world (fun _ => epoch) (h, b);
  pause_law milliseconds : pause milliseconds = sleep_ms world milliseconds;
}.

(** ** Invariants of a transaction *)

Section Transaction.
Context {B : Type} {IB : InputBackend B} {world : native_world}
  {GB : GuardedBackend IB world} (start : native_history)
  (fence : Fence.WindowsPhysicalInputFence).

Abbreviation tx A := (eff (native_history * Tx.Transaction B) reason A).
Abbreviation tx_state := (native_history * Tx.Transaction B)%type.

(** Every mutation since the start was proven where it went. *)
Definition proven_each (new : native_history) : Prop :=
  forall before c after, new = before ++ c :: after -> is_dispatch c = true ->
  exists p, proven fence p (start ++ before) /\ aimed p c.

Record since_start (p : option point) (l : list event) (new : native_history)
    (s : tx_state) : Prop := {
  since_history : s.1 = start ++ new;
  since_valid : valid (Tx.backend s.2);
  since_fence : Tx.fence s.2 = fence;
  since_point : Tx.point s.2 = p;
  since_injected : injected new = l;
  since_pending : Tx.pending_releases s.2 = to_release l;
  since_supports : Forall (fun e => supports p e = true) (to_release l);
  since_proven : proven_each new;
  since_attempted : Outcome.mutation_attempted (Tx.outcome s.2) = false ->
                    of_interest_in is_dispatch new = [];
}.
Definition inv (p : option point) (l : list event) (s : tx_state) : Prop :=
  exists new, since_start p l new s.

(** After a success the point and the events are the given ones. *)
Definition ends {A} (p : option point) (l : list event) (r : result reason A) (s : tx_state)
    : Prop :=
  exists p' l', inv p' l' s /\ (is_ok r = true -> p' = p /\ l' = l).

Definition hoare {A} (P : tx_state -> Prop) (m : tx A)
    (Q : result reason A -> tx_state -> Prop) : Prop :=
  forall s r s', P s -> m s = Some (r, s') -> Q r s'.

Lemma hoare_ret {A} p l (a : A) : hoare (inv p l) (ret a) (ends p l).
Proof. intros s r s' H [= <- <-]. by eexists _, _. Qed.
Lemma hoare_throw {A} p l p' l' e : hoare (inv p l) (throw e : tx A) (ends p' l').
Proof. intros s r s' H [= <- <-]. by eexists _, _. Qed.
Lemma hoare_lift {A} p l (x : result reason A) : hoare (inv p l) (lift x) (ends p l).
Proof. intros s r s' H [= <- <-]. by eexists _, _. Qed.
Lemma hoare_refuse p l b e : hoare (inv p l) (refuse_if b e) (ends p l).
Proof. destruct b; [apply hoare_throw | apply hoare_ret]. Qed.
Lemma hoare_bind {A C} p l p1 l1 p2 l2 (m : tx A) (k : A -> tx C) :
  hoare (inv p l) m (ends p1 l1) -> (forall a, hoare (inv p1 l1) (k a) (ends p2 l2)) ->
  hoare (inv p l) (bind m k) (ends p2 l2).
Proof.
  intros Hm Hk s r s' Hs [(e & s1 & H1 & [= -> ->]) | (a & s1 & H1 & H2)]%bind_some.
  - destruct (Hm _ _ _ Hs H1) as (p' & l' & Hi & _). by exists p', l'.
  - destruct (Hm _ _ _ Hs H1) as (p' & l' & Hi & He). destruct (He eq_refl) as [-> ->].
    exact (Hk a _ _ _ Hi H2).
Qed.
Lemma hoare_lift_bind {A C} p l p2 l2 (x : result reason A) (k : A -> tx C) :
  (forall a, x = Ok a -> hoare (inv p l) (k a) (ends p2 l2)) ->
  hoare (inv p l) (bind (lift x) k) (ends p2 l2).
Proof.
  intros Hk. destruct x as [a|e]; [by apply (Hk a) | by apply hoare_throw].
Qed.
Lemma hoare_read {A C} p l p2 l2 (f : _ -> A) (k : A -> tx C) :
  (forall a, hoare (inv p l) (k a) (ends p2 l2)) ->
  hoare (inv p l) (bind (silent (read f)) k) (ends p2 l2).
Proof. intros Hk [h t] r s' Hs H. exact (Hk (f t) _ _ _ Hs H). Qed.

(** An operation of the backend that asks only. *)
Definition only_asks {E A} (m : eff (native_history * B) E A) : Prop :=
  forall h b, valid b -> exists r new b', m (h, b) = Some (r, (h ++ new, b')) /\ valid b'
    /\ of_interest_in is_dispatch new = [].

Lemma since_quiet p l new h t quiet b' :
  since_start p l new (h, t) -> valid b' -> of_interest_in is_dispatch quiet = [] ->
  since_start p l (new ++ quiet) (h ++ quiet, t <| Tx.backend := b' |>).
Proof.
  intros [H1 H2 H3 H4 H5 H6 H7 H8 H9] Hb Hq. split; simpl in *; try done.
  - by rewrite H1, app_assoc.
  - by rewrite injected_app, (injected_quiet quiet Hq), app_nil_r.
  - intros before c after E Hc.
    apply app_eq_app in E as (x & [[-> E]|[-> E]]).
    + destruct x as [|c' x]; simpl in E.
      * exfalso. symmetry in E. apply (quiet_no_dispatch quiet [] c after) in Hq; [congruence | done].
      * injection E as <- ->. exact (H8 _ _ _ eq_refl Hc).
    + exfalso. apply (quiet_no_dispatch quiet x c after) in Hq; [congruence | done].
  - intros Ho. by rewrite of_interest_app, (H9 Ho), Hq.
Qed.

Lemma hoare_asks {A} p l (m : eff (native_history * B) reason A) :
  only_asks m -> hoare (inv p l) (on_backend m) (ends p l).
Proof.
  intros Hm [h t] r [h' t'] [new Hs] (b' & E & ->)%on_focus_some.
  destruct (Hm h (Tx.backend t)) as (r1 & quiet & b1 & E1 & Hb & Hq);
    [apply (since_valid _ _ _ _ Hs)|].
  rewrite E1 in E. injection E as <- <- <-.
  exists p, l. split; [|done]. exists (new ++ quiet). by apply since_quiet.
Qed.

Lemma asks_check f p : only_asks (check f p).
Proof. intros h b Hb. by apply check_law. Qed.
Lemma asks_ask {E A} (c : native_call A) :
  (forall a, is_dispatch (asked c a) = false) -> only_asks (E := E) (ask world c).
Proof.
  intros Hc h b Hb. eexists _, _, _. split; [done|]. split; [done|]. simpl. by rewrite Hc.
Qed.
Lemma asks_interrupted : only_asks interrupted.
Proof. rewrite interrupted_law. by apply asks_ask. Qed.
Lemma asks_pause n : only_asks (pause n).
Proof. rewrite pause_law. by apply asks_ask. Qed.
Lemma asks_elapsed : only_asks elapsed_ms.
Proof.
  intros h b Hb. rewrite elapsed_law by done. by eexists _, [asked Now _], _.
Qed.

(** The events of an answered call. *)
Lemma take_inserted (events : list event) n :
  n = len events -> take (Z.to_nat n) events = events.
Proof. intros ->. unfold len. rewrite Nat2Z.id. apply firstn_all. Qed.

Lemma since_sent p l new h t quiet b' events cursor :
  since_start p l new (h, t) -> valid b' -> of_interest_in is_dispatch quiet = [] ->
  proven fence p (h ++ quiet) -> aims p events cursor ->
  Forall (fun e => supports p e = true) events ->
  let receipt := receipt_of world events cursor (h ++ quiet) in
  since_start p (l ++ take (Z.to_nat (Receipt.inserted receipt)) events)
    ((new ++ quiet) ++ [sent world events cursor (h ++ quiet)])
    (h ++ quiet ++ [sent world events cursor (h ++ quiet)],
     t <| Tx.backend := b' |>
       <| Tx.outcome := attempted receipt (Tx.outcome t) |>
       <| Tx.pending_releases :=
            fold_left track (take (Z.to_nat (Receipt.inserted receipt)) events)
              (Tx.pending_releases t) |>).
Proof.
  intros Hs Hb Hq Hp Ha Hsup receipt.
  pose proof (since_quiet _ _ _ _ _ _ _ Hs Hb Hq) as [H1 H2 H3 H4 H5 H6 H7 H8 H9].
  simpl in *. split; simpl; try done.
  - by rewrite app_assoc, H1, <- !app_assoc.
  - rewrite injected_app, H5. f_equal. destruct cursor; simpl.
    + destruct Ha as [-> _]. done.
    + unfold injected. simpl. by rewrite app_nil_r.
  - rewrite H6. unfold to_release. by rewrite fold_left_app.
  - set (some := take _ events).
    assert (Forall (fun e => supports p e = true) some) as Hsome by by apply Forall_take.
    clearbody some. revert H7. unfold to_release. rewrite fold_left_app.
    generalize (fold_left track l []). induction Hsome as [|e some He Hsome IH]; [done|].
    intros pending H. apply IH. unfold track. destruct (release e) as [r|] eqn:Er.
    + apply Forall_app. split; [done|]. constructor; [|done]. by eapply supports_release.
    + destruct (is_release e); [|done]. apply Forall_forall.
      intros x Hx%elem_of_remove_last. rewrite Forall_forall in H. by apply H.
  - intros before c after E Hc.
    apply app_eq_app in E as (x & [[E1 E2]|[-> E2]]).
    + destruct x as [|c' x]; simpl in E2.
      * injection E2 as -> ->. rewrite app_nil_r in E1. subst before. exists p.
        split; [by rewrite <- H1 | by apply sent_aimed].
      * injection E2 as -> ->. exact (H8 _ _ _ E1 Hc).
    + destruct x as [|c' x]; simpl in E2.
      * injection E2 as <- <-. exists p. rewrite app_nil_r, <- H1.
        split; [done | by apply sent_aimed].
      * injection E2 as _ E2. by destruct x.
Qed.

(** A mutation that succeeds has injected all its events. *)
Lemma hoare_mutate p l events cursor :
  aims p events cursor -> hoare (inv p l) (tx_mutate events cursor) (ends p (l ++ events)).
Proof.
  intros Ha [h t] r s' [new Hs] H.
  assert (H2 := H). unfold tx_mutate, silent, on_part, read, bind at 1 in H2. simpl in H2.
  pose proof (since_fence _ _ _ _ Hs) as Hf. pose proof (since_point _ _ _ _ Hs) as Hpt.
  simpl in Hf, Hpt. rewrite Hf, Hpt in H2. clear H.
  destruct (mutate_law fence p events cursor h (Tx.backend t)) as
    (r1 & quiet & b1 & Hq & Hb & [[Hr E] | (Hp & Hsup & E)]);
    [apply (since_valid _ _ _ _ Hs)| |];
    unfold on_backend, on_focus, on_part, bind in H2; simpl in H2; rewrite E in H2.
  - destruct r1 as [?|e]; [done|]. injection H2 as <- <-.
    exists p, l. split; [|done]. exists (new ++ quiet). by apply since_quiet.
  - simpl in H2.
    assert (inv p (l ++ take (Z.to_nat (Receipt.inserted
              (receipt_of world events cursor (h ++ quiet)))) events) s') as Hi.
    { destruct (refuse_if_state _ _ _ _ _ H2). eexists. by eapply since_sent. }
    eexists p, _. split; [exact Hi|]. intros Hok. split; [done|].
    destruct r as [[]|]; [|done]. apply refuse_if_ok in H2 as [H2 _].
    unfold incomplete in H2. reflect_all. f_equal. destruct cursor; simpl in *.
    + destruct Ha as [-> _]. done.
    + apply take_inserted. lia.
Qed.

(** *** The parts of the operations *)

Lemma hoare_check p l q : hoare (inv p l) (tx_check q) (ends p l).
Proof. apply hoare_read. intros self. apply hoare_asks, asks_check. Qed.

Lemma hoare_wait p l rounds deadline still :
  hoare (inv p l) still (ends p l) ->
  hoare (inv p l) (wait_until rounds deadline still) (ends p l).
Proof.
  intros Hstill. eapply hoare_bind; [|intros [[]|]; [apply hoare_ret | by intros s r s']].
  induction rounds as [|rounds IH]; [apply hoare_ret|]. cbn [loop].
  eapply hoare_bind; [|intros [[]|[]]; [exact IH | apply hoare_ret]].
  eapply hoare_bind; [apply hoare_asks, asks_elapsed | intros elapsed].
  destruct (_ <? _); [|apply hoare_ret].
  eapply hoare_bind; [exact Hstill | intros _].
  eapply hoare_bind; [apply hoare_asks, asks_elapsed | intros elapsed'].
  eapply hoare_bind; [apply hoare_asks, asks_pause | intros _]. apply hoare_ret.
Qed.

Lemma hoare_clicks p l count batch :
  aims p batch None ->
  hoare (inv p l) (click_times count batch) (ends p (l ++ concat (replicate count batch))).
Proof.
  intros Ha. revert l. induction count as [|count IH]; intros l; simpl.
  - rewrite app_nil_r. apply hoare_ret.
  - eapply hoare_bind; [by apply hoare_mutate | intros _].
    destruct count as [|count]; [simpl; rewrite app_nil_r; apply hoare_ret|].
    eapply hoare_bind; [apply hoare_asks, asks_pause | intros _].
    rewrite app_assoc. apply IH.
Qed.

Lemma hoare_check_points p l points : hoare (inv p l) (check_points points) (ends p l).
Proof.
  induction points as [|q points IH]; [apply hoare_ret|].
  eapply hoare_bind; [apply hoare_check | intros _; exact IH].
Qed.

(** Moving on to another point of a path. *)
Lemma hoare_point q q' l :
  hoare (inv (Some q) l) (silent (modify (fun self => self <| Tx.point := Some q' |>)))
    (ends (Some q') l).
Proof.
  intros [h t] r [h' t'] [new Hs] [Hm ->]%silent_some. injection Hm as <- <-.
  exists (Some q'), l. split; [|done]. exists new.
  destruct Hs as [H1 H2 H3 H4 H5 H6 H7 H8 H9]. split; simpl in *; try done.
  eapply Forall_impl; [exact H7|]. intros e He. by rewrite <- (supports_point q).
Qed.

Definition moves (path : list point) : list event := map (fun p => Event.Move p.1 p.2) path.

Lemma app_cons_moves l q path :
  l ++ moves (q :: path) = (l ++ [Event.Move q.1 q.2]) ++ moves path.
Proof. by rewrite <- app_assoc. Qed.

Lemma hoare_drag_path q l started duration segments index path :
  hoare (inv (Some q) l) (drag_path started duration segments index path)
    (ends (Some (List.last path q)) (l ++ moves path)).
Proof.
  revert q l index. induction path as [|q' path IH]; intros q l index; cbn [drag_path].
  - rewrite app_nil_r. apply hoare_ret.
  - eapply hoare_bind.
    { apply hoare_wait. apply hoare_read. intros at_. apply hoare_check. }
    intros _. eapply hoare_bind; [apply hoare_point | intros _].
    eapply hoare_bind.
    { apply (hoare_mutate (Some q') l [Event.Move q'.1 q'.2] None).
      repeat constructor. by destruct q'. }
    intros _. specialize (IH q' (l ++ [Event.Move q'.1 q'.2]) (index + 1)).
    rewrite last_cons_default, app_cons_moves. exact IH.
Qed.

Lemma rev_releases l : Forall (fun e => is_release e = true) (rev (to_release l)).
Proof. apply Forall_rev, to_release_releases. Qed.

Lemma cleanup_cases p l new h t r h' t' :
  since_start p l new (h, t) -> cleanup (h, t) = Some (r, (h', t')) ->
  valid (Tx.backend t')
  /\ Outcome.mutation_attempted (Tx.outcome t') = Outcome.mutation_attempted (Tx.outcome t)
  /\ (to_release l = [] /\ h' = h
      \/ exists inserted, to_release l <> []
           /\ h' = h ++ [asked (SendInput (rev (to_release l))) inserted]
           /\ (is_ok r = true -> inserted = len (rev (to_release l)))).
Proof.
  intros [H1 Hv H3 H4 H5 Hp Hsup H8 H9] H. simpl in *.
  unfold cleanup, silent, on_part, read, bind at 1 in H. simpl in H. rewrite Hp, H4 in H.
  destruct (to_release l) as [|x pending] eqn:El.
  { injection H as <- <- <-. by eauto 6. }
  destruct (cleanup_law (Tx.fence t) p (rev (x :: pending)) h (Tx.backend t)) as (b & Hb & E);
    [done| | | |].
  - intros Hn. apply (f_equal length) in Hn. rewrite length_rev in Hn. done.
  - rewrite <- El. apply rev_releases.
  - by apply Forall_rev.
  - unfold on_backend, on_focus, on_part, bind in H; cbn [fst snd] in H. rewrite E in H.
    cbn [silent on_part modify fst snd] in H.
    destruct r as [[]|e].
    + apply refuse_if_ok in H as [Hi [= -> ->]]. simpl. split_and!; [done..|].
      right. eexists. split_and!; [done..|]. intros _. reflect_all. simpl in Hi. lia.
    + apply refuse_if_state in H as [= <- <-]. simpl. split_and!; [done..|].
      right. eexists. split_and!; [done..|]. done.
Qed.

(** What [finish] does after the clean-up mutates nothing. *)
Lemma finish_ends result h t r h' t' :
  (forall cleaned h1 t1, cleanup (h, t) = Some (cleaned, (h1, t1)) -> valid (Tx.backend t1)) ->
  finish result (h, t) = Some (r, (h', t')) ->
  exists cleaned h1 t1 quiet, cleanup (h, t) = Some (cleaned, (h1, t1))
    /\ h' = h1 ++ quiet /\ of_interest_in is_dispatch quiet = []
    /\ (is_ok r = true -> is_ok result = true /\ is_ok cleaned = true)
    /\ forall e, r = Err e -> Outcome.mutation_attempted (GuardedError.outcome e)
         = Outcome.mutation_attempted (Tx.outcome t1).
Proof.
  intros Hv H. unfold finish, attempt in H. unfold bind at 1 in H.
  destruct (cleanup (h, t)) as [[cleaned [h1 t1]]|]; [|done].
  specialize (Hv _ _ _ eq_refl). exists cleaned, h1, t1.
  destruct result as [[]|e].
  2: { exists []. injection H as <- <- <-. rewrite app_nil_r. naive_solver. }
  destruct cleaned as [[]|e].
  2: { exists []. injection H as <- <- <-. rewrite app_nil_r. naive_solver. }
  destruct (check_law (Tx.fence t1) (Tx.point t1) h1 (Tx.backend t1) Hv)
    as (r1 & quiet & b & E & _ & Hq).
  unfold bind, silent, on_part, read, on_backend, on_focus in H. cbn [fst snd] in H.
  unfold on_part in H. cbn [fst snd] in H. rewrite E in H. cbn [fst snd] in H.
  exists quiet. destruct r1 as [[]|e]; injection H as <- <- <-; naive_solver.
Qed.

(** Nothing is to be released: the clean-up does nothing. *)
Lemma safe_nothing_pending p l new h t quiet (r : guarded_outcome) :
  since_start p l new (h, t) -> to_release l = [] -> of_interest_in is_dispatch quiet = [] ->
  (forall e, r = Err e -> Outcome.mutation_attempted (GuardedError.outcome e)
     = Outcome.mutation_attempted (Tx.outcome t)) ->
  safe (proven fence) start (new ++ quiet) r /\ injected (new ++ quiet) = l.
Proof.
  intros [Hh _ _ _ Hinj _ _ Hproven Hatt] Hnil Hq Hout. cbn [fst snd] in *.
  assert (injected (new ++ quiet) = l) as Hi
    by (rewrite injected_app, (injected_quiet _ Hq), app_nil_r; done).
  split; [split|done].
  - intros before c after [(x & -> & ->) | (x & -> & Hx)]%cons_app_eq Hd.
    + left. exact (Hproven _ _ _ eq_refl Hd).
    + rewrite (quiet_no_dispatch _ _ _ _ Hq Hx) in Hd. done.
  - intros press up Hup. rewrite Hi. intros Hheld.
    apply (held_to_release _ _ _ Hup) in Hheld. rewrite Hnil in Hheld.
    by apply elem_of_nil in Hheld.
  - intros e -> Hpre. rewrite of_interest_app, Hq, app_nil_r. apply Hatt.
    unfold is_pre_dispatch in Hpre. rewrite (Hout e eq_refl) in Hpre. reflect_all. congruence.
Qed.

(** What the clean-up has not released, the system did not take. *)
Lemma held_after_cleanup l inserted press up :
  release press = Some up ->
  held press (l ++ take (Z.to_nat inserted) (rev (to_release l))) = true ->
  up ∈ drop (Z.to_nat inserted) (rev (to_release l)).
Proof.
  intros Hup. rewrite held_releases with (r := up); [|done|apply Forall_take, rev_releases].
  case_bool_decide as Htake; [done|]. intros Hheld.
  apply (held_to_release _ _ _ Hup) in Hheld.
  assert (up ∈ rev (to_release l)) as Hrev
    by by rewrite list_elem_of_In, <- in_rev, <- list_elem_of_In.
  rewrite <- (take_drop (Z.to_nat inserted) (rev (to_release l))) in Hrev.
  by apply elem_of_app in Hrev as [?|?].
Qed.

Lemma safe_cleaned_up p l new h t inserted quiet (r : guarded_outcome) :
  let c := asked (SendInput (rev (to_release l))) inserted in
  since_start p l new (h, t) -> to_release l <> [] -> of_interest_in is_dispatch quiet = [] ->
  (forall e, r = Err e -> Outcome.mutation_attempted (GuardedError.outcome e)
     = Outcome.mutation_attempted (Tx.outcome t)) ->
  (is_ok r = true -> inserted = len (rev (to_release l))) ->
  safe (proven fence) start (new ++ [c] ++ quiet) r
  /\ injected (new ++ [c] ++ quiet)
     = l ++ take (Z.to_nat inserted) (rev (to_release l)).
Proof.
  intros c [Hh _ _ _ Hinj _ _ Hproven Hatt] Hne Hq Hout Hins. cbn [fst snd] in *.
  assert (is_cleanup c quiet) as Hcl.
  { split; [done|]. eexists _, _. split; [done|]. apply rev_releases. }
  assert (injected (new ++ [c] ++ quiet)
          = l ++ take (Z.to_nat inserted) (rev (to_release l))) as Hi.
  { rewrite !injected_app, (injected_quiet _ Hq), app_nil_r, Hinj.
    unfold injected. simpl. by rewrite app_nil_r. }
  split; [split|done].
  - intros before d after Heq Hd.
    apply cons_app_eq in Heq as [(x & -> & ->) | (x & -> & Hx)].
    + left. exact (Hproven _ _ _ eq_refl Hd).
    + right. destruct x as [|d' x]; simpl in Hx.
      { injection Hx as <- <-. done. }
      injection Hx as <- Hx. rewrite (quiet_no_dispatch _ _ _ _ Hq Hx) in Hd. done.
  - intros press up Hup. rewrite Hi. intros Hdrop%(held_after_cleanup _ _ _ _ Hup). split.
    + destruct r as [o|]; [|done]. exfalso. rewrite (Hins eq_refl) in Hdrop. unfold len in Hdrop.
      rewrite Nat2Z.id, skipn_all in Hdrop. by apply elem_of_nil in Hdrop.
    + exists new, (rev (to_release l)), inserted, quiet. done.
  - intros e -> Hpre. exfalso. apply Hne.
    unfold is_pre_dispatch in Hpre. rewrite (Hout e eq_refl) in Hpre. reflect_all.
    by rewrite <- Hinj, (injected_quiet _ (Hatt Hpre)).
Qed.

Lemma start_inv p op b : valid b -> inv p [] (start, tx_of fence p op b).
Proof.
  intros Hb. exists []. split; simpl; try done.
  - by rewrite app_nil_r.
  - intros before c after Hn. by destruct before.
Qed.

Lemma guarded_safe p op (body : tx unit) b r h' b' p' l :
  valid b -> (hoare (inv p []) body (ends p' l)) ->
  guarded fence p op body (start, b) = Some (r, (h', b')) ->
  exists new, h' = start ++ new /\ safe (proven fence) start new r
    /\ (is_ok r = true -> injected new = l ++ rev (to_release l)).
Proof.
  intros Hb Hbody H. unfold guarded, on_part in H. cbn [fst snd] in H.
  unfold bind, attempt in H.
  destruct (body (start, tx_of fence p op b)) as [[result [h t]]|] eqn:E; [|done].
  destruct (finish result (h, t)) as [[r1 [h2 t2]]|] eqn:Ef; [|done].
  injection H as <- <- <-.
  destruct (Hbody _ _ _ (start_inv p op b Hb) E) as (p1 & l1 & [new Hs] & Hok).
  assert (Hv := fun cleaned h1 t1 Hc =>
    proj1 (cleanup_cases p1 l1 new h t cleaned h1 t1 Hs Hc)).
  apply (finish_ends _ _ _ _ _ _ Hv) in Ef as
    (cleaned & h1 & t1 & quiet & Ec & -> & Hq & Hfin & Hout). clear Hv.
  apply (cleanup_cases p1 l1 new) in Ec as (_ & Hat & Hc); [|done].
  rewrite Hat in Hout. pose proof (since_history _ _ _ _ Hs) as Hh. cbn [fst] in Hh. subst h.
  destruct Hc as [[Hnil ->] | (inserted & Hne & -> & Hins)].
  - destruct (safe_nothing_pending _ _ _ _ _ _ _ Hs Hnil Hq Hout) as [Hsafe Hi].
    exists (new ++ quiet). rewrite <- app_assoc. split_and!; [done..|].
    intros [Hr _]%Hfin. destruct (Hok Hr) as [-> ->]. by rewrite Hi, Hnil, app_nil_r.
  - destruct (safe_cleaned_up _ _ _ _ _ inserted _ r1 Hs Hne Hq Hout) as [Hsafe Hi].
    { intros Hr. by apply Hins, Hfin. }
    eexists. split; [by rewrite <- !app_assoc|]. split; [exact Hsafe|].
    intros Hr. destruct (Hfin Hr) as [Hres Hcl]. destruct (Hok Hres) as [-> ->].
    rewrite Hi, (Hins Hcl). by rewrite take_inserted.
Qed.
End Transaction.

(** ** What an operation asks for *)

Inductive guarded_op : Type :=
| Click (p : point) (count : Z) (button : WindowsPointerButton) (modifiers : list string)
| Drag (points : list point) (duration_ms : Z) (button : WindowsPointerButton)
| Keypress (keys : list string) (duration : option Z)
| Text (text : string).

Definition run_op {B} {IB : InputBackend B} (fence : Fence.WindowsPhysicalInputFence)
    (op : guarded_op)
    : eff (native_history * B) GuardedError.WindowsGuardedInputError
        Outcome.WindowsGuardedInputOutcome :=
  match op with
  | Click p count button modifiers => run_click fence p count button modifiers
  | Drag points duration_ms button => run_drag fence points duration_ms button
  | Keypress keys duration => run_keypress fence keys duration
  | Text text => run_text fence text
  end.

(** The events of an operation, the releases of its clean-up included. *)
Definition planned (op : guarded_op) : result reason (list event) :=
  match op with
  | Click p count button modifiers =>
      let? modifiers := checked_keys modifiers true in
      Ok (key_downs modifiers
          ++ concat (replicate (Z.to_nat count) (click_batch p button))
          ++ key_ups (rev modifiers))
  | Drag points _ button =>
      Ok ([Event.Mouse button false] ++ moves (tail points) ++ [Event.Mouse button true])
  | Keypress keys _ =>
      let? keys := checked_keys keys false in Ok (key_downs keys ++ key_ups (rev keys))
  | Text text => text_events text
  end.

(** Events that leave nothing pressed. *)
Definition neutral (l : list event) : Prop :=
  forall pending, fold_left track l pending = pending.

Lemma neutral_nil : neutral [].
Proof. done. Qed.
Lemma neutral_app l1 l2 : neutral l1 -> neutral l2 -> neutral (l1 ++ l2).
Proof. intros H1 H2 pending. by rewrite fold_left_app, H1, H2. Qed.
Lemma neutral_pair press r : release press = Some r -> neutral [press; r].
Proof.
  intros Hr pending. simpl. unfold track. rewrite Hr.
  destruct (release_is_release _ _ Hr) as [-> ->]. apply remove_last_snoc.
Qed.
Lemma neutral_replicate n l : neutral l -> neutral (concat (replicate n l)).
Proof. intros H. induction n as [|n IH]; [done|]. by apply neutral_app. Qed.

Lemma track_downs keys pending :
  fold_left track (key_downs keys) pending = pending ++ key_ups keys.
Proof.
  revert pending. induction keys as [|key keys IH]; intros pending; simpl.
  - by rewrite app_nil_r.
  - rewrite IH. unfold track. simpl. by rewrite <- app_assoc.
Qed.
Lemma track_ups keys pending :
  fold_left track (key_ups (rev keys)) (pending ++ key_ups keys) = pending.
Proof.
  induction keys as [|key keys IH] using rev_ind; [by rewrite app_nil_r|].
  rewrite rev_app_distr. unfold key_ups in *. rewrite !map_app, app_assoc.
  cbn [rev app map fold_left]. unfold track at 2. cbn [release is_release].
  by rewrite remove_last_snoc.
Qed.

Lemma neutral_click p button : neutral (click_batch p button).
Proof. intros pending. apply (neutral_pair (Event.Mouse button false)). done. Qed.
Lemma neutral_moves path : neutral (moves path).
Proof. induction path as [|p path IH]; [done|]. exact IH. Qed.
Lemma neutral_keys keys : neutral (key_downs keys ++ key_ups (rev keys)).
Proof. intros pending. by rewrite fold_left_app, track_downs, track_ups. Qed.

Lemma neutral_units units :
  neutral (flat_map (fun unit => [Event.Unicode unit false; Event.Unicode unit true]) units).
Proof.
  induction units as [|unit units IH]; [done|].
  apply (neutral_app [_; _]); [by apply neutral_pair | done].
Qed.
Lemma neutral_chars previous_cr characters : neutral (chars_events previous_cr characters).
Proof.
  revert previous_cr. induction characters as [|c characters IH]; intros previous_cr; [done|].
  cbn [chars_events]. destruct (_ && _); [apply IH|]. apply neutral_app; [|apply IH].
  unfold char_events. destruct (_ ∈? _); [by apply neutral_pair | apply neutral_units].
Qed.
Lemma neutral_text text events : text_events text = Ok events -> neutral events.
Proof.
  unfold text_events. destruct (_ || _); [done|]. intros [= <-]. apply neutral_chars.
Qed.

Lemma to_release_neutral l1 l2 : neutral l2 -> to_release (l1 ++ l2) = to_release l1.
Proof. intros H. unfold to_release. by rewrite fold_left_app, H. Qed.
Lemma to_release_nothing l : neutral l -> to_release l = [].
Proof. intros H. apply H. Qed.
Lemma to_release_downs keys : to_release (key_downs keys) = key_ups keys.
Proof. unfold to_release. by rewrite track_downs. Qed.

Lemma no_destinations_keys keys p : aims p (key_downs keys ++ key_ups (rev keys)) None.
Proof.
  unfold aims. rewrite omap_app. apply Forall_app. split.
  - induction keys as [|key keys IH]; [constructor | exact IH].
  - generalize (rev keys). intros l. induction l as [|key l IH]; [constructor | exact IH].
Qed.
Lemma no_destinations_downs keys p : aims p (key_downs keys) None.
Proof. induction keys as [|key keys IH]; [constructor | exact IH]. Qed.
Lemma no_destinations_chars b l p : aims p (chars_events b l) None.
Proof.
  revert b. induction l as [|c l IH]; intros b; [constructor|]. cbn [chars_events].
  destruct (_ && _); [apply IH|]. unfold aims. rewrite omap_app.
  apply Forall_app. split; [|apply IH]. unfold char_events.
  destruct (_ ∈? _); [constructor|].
  induction (encode_utf16 c) as [|unit units IHu]; [constructor | exact IHu].
Qed.

Section Safety.
Context {B : Type} {IB : InputBackend B} {world : native_world}
  {GB : GuardedBackend IB world} (start : native_history)
  (fence : Fence.WindowsPhysicalInputFence).

Definition did_as_planned (op : guarded_op) (new : native_history) : Prop :=
  planned op = Ok (injected new).

Definition safely_done (op : guarded_op) (r : guarded_outcome) (h' : native_history) : Prop :=
  exists new, h' = start ++ new /\ safe (proven fence) start new r
    /\ (is_ok r = true -> did_as_planned op new).

(** An operation whose body injects the given events before the clean-up. *)
Lemma op_safe op body p p' l b r h' b' operation :
  valid b -> hoare (inv start fence p []) body (ends start fence p' l) ->
  planned op = Ok (l ++ rev (to_release l)) ->
  guarded fence p operation body (start, b) = Some (r, (h', b')) -> safely_done op r h'.
Proof.
  intros Hb Hbody Hplan H. eapply guarded_safe in H as (new & Hn & Hs & Hok); [|done..].
  exists new. split_and!; [done..|]. intros Hr. unfold did_as_planned. by rewrite Hok.
Qed.

(** One whose request is refused: its body does not succeed. *)
Lemma op_refused op body p b r h' b' operation :
  valid b -> (forall l, hoare (inv start fence p []) body (ends start fence p l)) ->
  guarded fence p operation body (start, b) = Some (r, (h', b')) -> safely_done op r h'.
Proof.
  intros Hb Hbody H.
  destruct (guarded_safe _ _ _ _ _ _ _ _ _ _ _ Hb (Hbody []) H) as (new & -> & Hs & H1).
  destruct (guarded_safe _ _ _ _ _ _ _ _ _ _ _ Hb (Hbody [Event.Move 0 0]) H)
    as (new' & E & _ & H2).
  apply app_inv_head in E as <-. exists new. split_and!; [done..|].
  intros Hr. specialize (H1 Hr). specialize (H2 Hr). simpl in *. congruence.
Qed.

Abbreviation injects p body p' l :=
  (hoare (inv start fence p []) body (ends start fence p' l)).

Lemma click_injects p count button modifiers keys :
  checked_keys modifiers true = Ok keys ->
  injects (Some p) (click_body p count button modifiers) (Some p)
    (key_downs keys ++ concat (replicate (Z.to_nat count) (click_batch p button))).
Proof.
  intros Ek. eapply hoare_bind; [apply hoare_refuse | intros _].
  rewrite Ek. apply hoare_lift_bind. intros ? [= <-].
  eapply hoare_bind; [by apply (hoare_mutate _ _ (Some p) [] [] (Some p)) | intros _].
  eapply hoare_bind.
  { instantiate (1 := key_downs keys). case_bool_decide as Hk.
    - rewrite Hk. apply hoare_ret.
    - apply (hoare_mutate _ _ _ []), no_destinations_downs. }
  intros _. apply hoare_clicks. simpl. repeat constructor. by destruct p.
Qed.

Lemma drag_injects p path duration_ms button :
  injects (Some p) (drag_body (p :: path) duration_ms button) (Some (List.last path p))
    (([Event.Mouse button false] ++ moves path) ++ [Event.Mouse button true]).
Proof.
  eapply hoare_bind; [apply hoare_refuse | intros _].
  eapply hoare_bind; [apply hoare_check_points | intros _].
  eapply hoare_bind; [by apply (hoare_mutate _ _ (Some p) [] [] (Some p)) | intros _].
  eapply hoare_bind.
  { by apply (hoare_mutate _ _ (Some p) [] [Event.Mouse button false] None); constructor. }
  intros _. eapply hoare_bind; [apply hoare_asks, asks_elapsed | intros started].
  eapply hoare_bind; [apply hoare_drag_path | intros _].
  apply (hoare_mutate _ _ _ _ [Event.Mouse button true] None). constructor.
Qed.

(** What a key press injects before its clean-up. *)
Definition pressed (keys : list Z) (duration : option Z) : list event :=
  if is_some duration then key_downs keys else key_downs keys ++ key_ups (rev keys).

Lemma keypress_injects keys duration codes :
  checked_keys keys false = Ok codes ->
  injects None (keypress_body keys duration) None (pressed codes duration).
Proof.
  intros Ek. unfold keypress_body. rewrite Ek. apply hoare_lift_bind. intros ? [= <-].
  eapply hoare_bind; [apply hoare_refuse | intros _].
  destruct duration as [duration|]; [|apply (hoare_mutate _ _ _ []), no_destinations_keys].
  eapply hoare_bind; [apply (hoare_mutate _ _ _ []), no_destinations_downs | intros _].
  eapply hoare_bind; [apply hoare_asks, asks_elapsed | intros started].
  apply hoare_wait.
  eapply hoare_bind; [apply hoare_asks, asks_interrupted | intros stop].
  eapply hoare_bind; [apply hoare_refuse | intros _]. apply hoare_check.
Qed.

Lemma text_injects text events :
  text_events text = Ok events -> injects None (text_body text) None events.
Proof.
  intros Et. unfold text_body. rewrite Et. apply hoare_lift_bind. intros ? [= <-].
  apply (hoare_mutate _ _ _ []). revert Et. unfold text_events.
  destruct (_ || _); [done|]. intros [= <-]. apply no_destinations_chars.
Qed.

(** A request that is not understood injects nothing. *)
Lemma refused_injects op p l :
  is_err (planned op) = true -> match op with
  | Click q count button modifiers => injects p (click_body q count button modifiers) p l
  | Drag _ _ _ => True
  | Keypress keys duration => injects p (keypress_body keys duration) p l
  | Text text => injects p (text_body text) p l
  end.
Proof.
  destruct op as [q count button modifiers|? ? ?|keys duration|text]; simpl; [|done|..]; intros He.
  - eapply hoare_bind; [apply hoare_refuse | intros _].
    apply hoare_lift_bind. intros a Ha. by rewrite Ha in He.
  - apply hoare_lift_bind. intros a Ha. by rewrite Ha in He.
  - apply hoare_lift_bind. intros a Ha. by rewrite Ha in He.
Qed.

Lemma click_safe p count button modifiers b r h' b' :
  valid b -> run_click fence p count button modifiers (start, b) = Some (r, (h', b')) ->
  safely_done (Click p count button modifiers) r h'.
Proof.
  intros Hb H. destruct (checked_keys modifiers true) as [keys|e] eqn:Ek.
  - eapply op_safe in H; [exact H | done | by apply click_injects|].
    simpl. rewrite Ek. simpl. rewrite to_release_neutral by apply neutral_replicate, neutral_click.
    rewrite to_release_downs. unfold key_ups. by rewrite map_rev, <- app_assoc.
  - eapply op_refused in H; [exact H | done |]. intros l.
    apply (refused_injects (Click p count button modifiers)). simpl. by rewrite Ek.
Qed.

Lemma neutral_drag path button :
  neutral (([Event.Mouse button false] ++ moves path) ++ [Event.Mouse button true]).
Proof.
  intros pending. rewrite !fold_left_app, neutral_moves, <- fold_left_app.
  by apply (neutral_pair (Event.Mouse button false)).
Qed.

Lemma drag_safe points duration_ms button b r h' b' :
  valid b -> run_drag fence points duration_ms button (start, b) = Some (r, (h', b')) ->
  safely_done (Drag points duration_ms button) r h'.
Proof.
  intros Hb H. destruct points as [|p path].
  - eapply op_refused in H; [exact H | done |]. intros l. apply hoare_throw.
  - eapply op_safe in H; [exact H | done | apply drag_injects |].
    rewrite to_release_nothing by apply neutral_drag. by rewrite app_nil_r.
Qed.

Lemma keypress_safe keys duration b r h' b' :
  valid b -> run_keypress fence keys duration (start, b) = Some (r, (h', b')) ->
  safely_done (Keypress keys duration) r h'.
Proof.
  intros Hb H. destruct (checked_keys keys false) as [codes|e] eqn:Ek.
  - eapply op_safe in H; [exact H | done | by apply keypress_injects |].
    simpl. rewrite Ek. simpl. unfold pressed. destruct duration; simpl.
    + rewrite to_release_downs. unfold key_ups. by rewrite map_rev.
    + rewrite (to_release_nothing _ (neutral_keys codes)). by rewrite app_nil_r.
  - eapply op_refused in H; [exact H | done |]. intros l.
    apply (refused_injects (Keypress keys duration)). simpl. by rewrite Ek.
Qed.

Lemma text_safe text b r h' b' :
  valid b -> run_text fence text (start, b) = Some (r, (h', b')) ->
  safely_done (Text text) r h'.
Proof.
  intros Hb H. destruct (text_events text) as [events|e] eqn:Et.
  - eapply op_safe in H; [exact H | done | by apply text_injects |].
    simpl. rewrite Et. rewrite (to_release_nothing _ (neutral_text _ _ Et)).
    by rewrite app_nil_r.
  - eapply op_refused in H; [exact H | done |]. intros l.
    apply (refused_injects (Text text)). simpl. by rewrite Et.
Qed.

Lemma run_op_safe op b r h' b' :
  valid b -> run_op fence op (start, b) = Some (r, (h', b')) -> safely_done op r h'.
Proof.
  intros Hb H. destruct op; [by eapply click_safe | by eapply drag_safe
    | by eapply keypress_safe | by eapply text_safe].
Qed.
End Safety.

(** ** Operations come to an end *)

(** A clock that does not go back, and sleeps that are not cut short. *)
Record keeps_time (world : native_world) : Prop := {
  clock_forward h c : world Z h Now <= world Z (h ++ [c]) Now;
  clock_slept h d : world Z h Now + d <= world Z (h ++ [asked (Sleep d) (world unit h (Sleep d))]) Now;
}.

Section Returns.
Context {B : Type} {IB : InputBackend B} {world : native_world}
  {GB : GuardedBackend IB world} (Htime : keeps_time world).

Abbreviation tx A := (eff (native_history * Tx.Transaction B) reason A).
Abbreviation tx_state := (native_history * Tx.Transaction B)%type.

Definition ms (h : native_history) : Z :=
  Z.min U64_MAX (Z.max 0 (world Z h Now - epoch) / NANOS).

Lemma ms_forward h c : ms h <= ms (h ++ [c]).
Proof using Htime.
  unfold ms. pose proof (clock_forward _ Htime h c).
  assert (Z.max 0 (world Z h Now - epoch) / NANOS
          <= Z.max 0 (world Z (h ++ [c]) Now - epoch) / NANOS)
    by (apply Z.div_le_mono; unfold NANOS; lia). lia.
Qed.
Lemma ms_forward_all h new : ms h <= ms (h ++ new).
Proof using Htime.
  revert h. induction new as [|c new IH]; intros h; [rewrite app_nil_r; lia|].
  specialize (IH (h ++ [c])). rewrite <- app_assoc in IH. pose proof (ms_forward h c).
  simpl in IH. lia.
Qed.
Lemma now_forward_all h new : world Z h Now <= world Z (h ++ new) Now.
Proof using Htime.
  revert h. induction new as [|c new IH]; intros h; [rewrite app_nil_r; lia|].
  specialize (IH (h ++ [c])). rewrite <- app_assoc in IH.
  pose proof (clock_forward _ Htime h c). simpl in IH. lia.
Qed.
Lemma ms_slept h n :
  0 <= n -> epoch <= world Z h Now -> Z.min U64_MAX (ms h + n)
            <= ms (h ++ [asked (Sleep (n * NANOS)) (world unit h (Sleep (n * NANOS)))]).
Proof using Htime.
  intros Hn He. unfold ms. pose proof (clock_slept _ Htime h (n * NANOS)) as H.
  set (now' := world Z (h ++ _) Now) in *.
  assert (Z.max 0 (world Z h Now - epoch) / NANOS + n <= Z.max 0 (now' - epoch) / NANOS).
  { rewrite <- Z.div_add by done. apply Z.div_le_mono; unfold NANOS in *; lia. }
  lia.
Qed.
Lemma ms_nonneg h : 0 <= ms h <= U64_MAX.
Proof.
  unfold ms. assert (0 <= Z.max 0 (world Z h Now - epoch) / NANOS)
    by (apply Z.div_pos; unfold NANOS; lia). unfold U64_MAX in *. lia.
Qed.

(** The backend is valid, and it is at least the given time. *)
Definition later (a : Z) (s : tx_state) : Prop :=
  valid (Tx.backend s.2) /\ epoch <= world Z s.1 Now /\ a <= ms s.1.

Lemma later_forward a h new (t t' : Tx.Transaction B) :
  later a (h, t) -> valid (Tx.backend t') -> later a (h ++ new, t').
Proof using Htime.
  intros (_ & He & Ha) Hv. split; [done|]. simpl in *.
  pose proof (ms_forward_all h new). pose proof (now_forward_all h new). lia.
Qed.

Definition comes_back {A} (P : tx_state -> Prop) (m : tx A) (Q : A -> tx_state -> Prop) : Prop :=
  forall s, P s -> exists r s', m s = Some (r, s') /\ forall a, r = Ok a -> Q a s'.

Lemma back_ret {A} P (a : A) : comes_back P (ret a) (fun _ => P).
Proof. intros s Hs. exists (Ok a), s. done. Qed.
Lemma back_throw {A} P e Q : comes_back P (throw e : tx A) Q.
Proof. intros s Hs. by exists (Err e), s. Qed.
Lemma back_lift {A} P (x : result reason A) : comes_back P (lift x) (fun _ => P).
Proof. intros s Hs. by exists x, s. Qed.
Lemma back_refuse P b e : comes_back P (refuse_if b e) (fun _ => P).
Proof. destruct b; [apply back_throw | apply back_ret]. Qed.
Lemma back_bind {A C} P R Q (m : tx A) (k : A -> tx C) :
  comes_back P m R -> (forall a, comes_back (R a) (k a) Q) -> comes_back P (bind m k) Q.
Proof.
  intros Hm Hk s Hs. destruct (Hm s Hs) as (r & s1 & E & H1). unfold bind. rewrite E.
  destruct r as [a|e]; [by apply (Hk a), H1 | by exists (Err e), s1].
Qed.
Lemma back_lift_bind {A C} P Q (x : result reason A) (k : A -> tx C) :
  (forall a, x = Ok a -> comes_back P (k a) Q) -> comes_back P (bind (lift x) k) Q.
Proof. intros Hk. destruct x; [by apply Hk | apply back_throw]. Qed.
Lemma back_read {A C} P Q (f : _ -> A) (k : A -> tx C) :
  (forall a, comes_back P (k a) Q) -> comes_back P (bind (silent (read f)) k) Q.
Proof. intros Hk [h t] Hs. exact (Hk (f t) _ Hs). Qed.

Lemma back_asks {A} a (m : eff (native_history * B) reason A) :
  only_asks (world := world) m -> comes_back (later a) (on_backend m) (fun _ => later a).
Proof using Htime.
  intros Hm [h t] Hs. destruct (Hm h (Tx.backend t) (proj1 Hs)) as (r & new & b & E & Hb & _).
  exists r, (h ++ new, t <| Tx.backend := b |>). unfold on_backend, on_focus, on_part.
  cbn [fst snd] in *. rewrite E. split; [done|]. intros x _. by eapply later_forward.
Qed.
Lemma back_mutate a events cursor :
  comes_back (later a) (tx_mutate events cursor) (fun _ => later a).
Proof using Htime.
  apply back_bind with (R := fun _ => later a).
  { intros [h t] Hs. by eexists _, _. }
  intros self. apply back_bind with (R := fun _ => later a).
  2: { intros receipt. apply back_bind with (R := fun _ => later a).
    - intros [h t] Hs. by eexists _, _.
    - intros _. apply back_refuse. }
  intros [h t] Hs.
  destruct (mutate_law (Tx.fence self) (Tx.point self) events cursor h (Tx.backend t) (proj1 Hs))
    as (r & new & b & _ & Hb & [[_ E]|(_ & _ & E)]);
    unfold on_backend, on_focus, on_part; cbn [fst snd] in *; rewrite E;
    eexists _, _; (split; [done|]); intros x _; by eapply later_forward.
Qed.
Lemma back_elapsed a :
  comes_back (later a) (on_backend elapsed_ms)
    (fun e s => a <= e <= U64_MAX /\ later e s).
Proof using Htime.
  intros [h t] (Hv & He & Ha). unfold on_backend, on_focus, on_part. cbn [fst snd] in *.
  rewrite elapsed_law by done. eexists _, _. split; [reflexivity|]. intros e [= <-].
  pose proof (ms_nonneg h). split; [split; [exact Ha | apply H]|].
  apply (later_forward _ h _ t); [|done]. split_and!; [done | done | unfold ms; simpl; lia].
Qed.
Lemma back_pause a n :
  0 <= n -> comes_back (later a) (on_backend (pause n)) (fun _ => later (Z.min U64_MAX (a + n))).
Proof using Htime.
  intros Hn [h t] (Hv & He & Ha). rewrite pause_law. eexists _, _. split; [reflexivity|].
  intros _ _. simpl in *. pose proof (ms_slept h n Hn He).
  split_and!; [done | | simpl; lia]. etrans; [exact He | apply now_forward_all].
Qed.

Lemma back_weaken {A} (P P' : tx_state -> Prop) (Q Q' : A -> tx_state -> Prop) m :
  (forall s, P' s -> P s) -> (forall a s, Q a s -> Q' a s) -> comes_back P m Q ->
  comes_back P' m Q'.
Proof. intros HP HQ H s Hs. destruct (H s (HP s Hs)) as (r & s' & E & H'). eauto 8. Qed.

Lemma later_weaken a b s : a <= b -> later b s -> later a s.
Proof. intros Hab (Hv & He & Hb). split_and!; [done | done | lia]. Qed.

(** A wait has as many rounds as it needs. *)
Lemma back_wait_loop a deadline still fuel :
  (forall a, comes_back (later a) still (fun _ => later a)) ->
  deadline <= U64_MAX -> Z.max 0 (deadline - a) < Z.of_nat fuel ->
  comes_back (later a) (loop fuel (wait_round deadline still) tt)
    (fun done s => done = Some tt /\ later a s).
Proof using Htime.
  intros Hstill Hd. revert a. induction fuel as [|fuel IH]; intros a Hf; [lia|].
  cbn [loop]. apply back_bind with (R := fun next s => match next with
    | inl _ => exists a', a <= a' /\ Z.max 0 (deadline - a') < Z.of_nat fuel /\ later a' s
    | inr _ => later a s
    end).
  2: { intros [[]|[]].
    - intros s (a' & Ha & Hm & Hs). destruct (IH a' Hm s Hs) as (r & s' & E & H).
      exists r, s'. split; [done|]. intros x Hx. destruct (H x Hx) as [-> Hl].
      split; [done|]. by eapply later_weaken.
    - intros s Hs. by exists (Ok (Some tt)), s; split; [|intros ? [= <-]]. }
  unfold wait_round. eapply back_bind; [apply back_elapsed|]. intros e1.
  destruct (Z.ltb_spec e1 deadline) as [Hlt|Hge].
  2: { intros s [He Hs]. exists (Ok (inr tt)), s. split; [done|]. intros ? [= <-].
    eapply later_weaken; [|done]. lia. }
  intros s [He1 Hs]. revert s Hs. eapply back_bind; [apply Hstill|]. intros [].
  eapply back_bind; [apply back_elapsed|]. intros e2 s [He2 Hs]. revert s Hs.
  eapply back_bind; [apply back_pause; unfold saturating_sub; lia|]. intros [] s Hs.
  exists (Ok (inl tt)), s. split; [done|]. intros ? [= <-].
  eexists. split_and!; [| | exact Hs]; unfold saturating_sub; lia.
Qed.

Lemma back_wait a n deadline still :
  (forall a, comes_back (later a) still (fun _ => later a)) ->
  deadline <= U64_MAX -> deadline <= a + n ->
  comes_back (later a) (wait_until (wait_rounds n) deadline still) (fun _ => later a).
Proof using Htime.
  intros Hstill Hd Ha. eapply back_bind.
  - apply back_wait_loop; [done..|]. unfold wait_rounds. lia.
  - intros done s [-> Hs]. by exists (Ok tt), s.
Qed.

Lemma back_check a q : comes_back (later a) (tx_check q) (fun _ => later a).
Proof using Htime. apply back_read. intros self. apply back_asks, asks_check. Qed.

Lemma back_clicks a count batch :
  comes_back (later a) (click_times count batch) (fun _ => later a).
Proof using Htime.
  induction count as [|count IH]; [apply back_ret|]. cbn [click_times].
  eapply back_bind; [apply back_mutate|]. intros []. destruct count; [apply back_ret|].
  eapply back_bind; [apply back_asks, asks_pause|]. intros []. exact IH.
Qed.

Lemma back_check_points a points :
  comes_back (later a) (check_points points) (fun _ => later a).
Proof using Htime.
  induction points as [|q points IH]; [apply back_ret|].
  eapply back_bind; [apply back_check | intros []; exact IH].
Qed.

Lemma segment_bound duration index segments :
  0 <= duration -> 0 <= index <= segments -> 0 < segments ->
  duration * index / segments <= duration.
Proof. intros Hd Hi Hs. apply Z.div_le_upper_bound; nia. Qed.

Lemma back_drag_path started duration segments index path :
  0 <= duration -> 0 < segments -> 0 <= index -> index + len path <= segments + 1 ->
  started <= U64_MAX ->
  comes_back (later started) (drag_path started duration segments index path)
    (fun _ => later started).
Proof using Htime.
  intros Hd Hseg. revert index. induction path as [|q path IH]; intros index Hi Hl Hst;
    [apply back_ret|].
  cbn [drag_path]. unfold len in *. cbn [length] in Hl.
  assert (duration * index / segments <= duration) by (apply segment_bound; lia).
  eapply back_bind.
  { apply back_wait; [| |].
    - intros a. apply back_read. intros at_. apply back_check.
    - unfold saturating_add. lia.
    - unfold saturating_add. lia. }
  intros []. eapply back_bind with (R := fun _ => later started).
  { intros [h t] Hs. eexists _, _. split; [reflexivity|]. intros _ _. exact Hs. }
  intros _. eapply back_bind; [apply back_mutate|]. intros []. apply IH; lia.
Qed.

(** The end of an operation. *)
Lemma cleanup_back start fence p l new h t :
  since_start start fence p l new (h, t) -> exists r s', cleanup (h, t) = Some (r, s').
Proof.
  intros [H1 Hv H3 H4 H5 Hp Hsup H8 H9]. simpl in *.
  unfold cleanup, silent, on_part, read, bind at 1. simpl. rewrite Hp, H4.
  destruct (to_release l) as [|x pending] eqn:El; [by eexists _, _|].
  destruct (cleanup_law (Tx.fence t) p (rev (x :: pending)) h (Tx.backend t)) as (b & Hb & E);
    [done| | | |].
  - intros Hn. apply (f_equal length) in Hn. rewrite length_rev in Hn. done.
  - rewrite <- El. apply rev_releases.
  - by apply Forall_rev.
  - unfold on_backend, on_focus, on_part, bind; cbn [fst snd]. rewrite E.
    cbn [silent on_part modify fst snd]. unfold refuse_if. destruct (negb _); by eexists _, _.
Qed.

Lemma finish_back start fence p l new h t result :
  since_start start fence p l new (h, t) -> exists r s', finish result (h, t) = Some (r, s').
Proof.
  intros Hs. destruct (cleanup_back _ _ _ _ _ _ _ Hs) as (cleaned & [h1 t1] & E).
  destruct (cleanup_cases _ _ _ _ _ _ _ _ _ _ Hs E) as [Hv _].
  unfold finish, attempt. unfold bind at 1. rewrite E.
  destruct result as [[]|e]; [|by eexists _, _].
  destruct cleaned as [[]|e]; [|by eexists _, _].
  destruct (check_law (Tx.fence t1) (Tx.point t1) h1 (Tx.backend t1) Hv)
    as (r1 & quiet & b & E1 & _).
  unfold bind, silent, on_part, read, on_backend, on_focus. cbn [fst snd].
  unfold on_part. cbn [fst snd]. rewrite E1. cbn [fst snd].
  destruct r1; by eexists _, _.
Qed.

Lemma guarded_back start fence p op (body : tx unit) b p' l Q :
  valid b -> epoch <= world Z start Now ->
  hoare (inv start fence p []) body (ends start fence p' l) ->
  comes_back (later 0) body Q ->
  exists r s', guarded fence p op body (start, b) = Some (r, s').
Proof.
  intros Hb He Hbody Hback.
  destruct (Hback (start, tx_of fence p op b)) as (result & [h t] & E & _).
  { split_and!; [done | done | apply ms_nonneg]. }
  destruct (Hbody _ _ _ (start_inv start fence p op b Hb) E) as (p1 & l1 & [new Hs] & _).
  destruct (finish_back _ _ _ _ _ _ _ result Hs) as (r & s' & Ef).
  unfold guarded, on_part. cbn [fst snd]. unfold bind, attempt. rewrite E, Ef.
  by eexists _, _.
Qed.

Lemma click_back p count button modifiers :
  comes_back (later 0) (click_body p count button modifiers) (fun _ => later 0).
Proof using Htime.
  eapply back_bind; [apply back_refuse | intros []].
  apply back_lift_bind. intros keys _.
  eapply back_bind; [apply back_mutate | intros []].
  eapply back_bind with (R := fun _ => later 0).
  { destruct (bool_decide _); [apply back_ret | apply back_mutate]. }
  intros _. apply back_clicks.
Qed.

Lemma drag_back points duration_ms button :
  comes_back (later 0) (drag_body points duration_ms button) (fun _ _ => True).
Proof using Htime.
  destruct points as [|p path]; [apply back_throw|]. unfold drag_body.
  destruct (negb ((2 <=? len (p :: path)) && _) || _ || _) eqn:Hr; [apply back_throw|].
  eapply back_bind; [apply back_ret | intros []].
  eapply back_bind; [apply back_check_points | intros []].
  eapply back_bind; [apply back_mutate | intros []].
  eapply back_bind; [apply back_mutate | intros []].
  eapply back_bind; [apply back_elapsed|]. intros started s [Hst Hs]. revert s Hs.
  reflect_all. unfold len in *. cbn [length] in *.
  eapply back_bind; [apply back_drag_path; unfold len; cbn [length]; lia|]. intros [].
  eapply back_weaken; [done | | apply back_mutate]. done.
Qed.

Lemma keypress_back keys duration :
  comes_back (later 0) (keypress_body keys duration) (fun _ _ => True).
Proof using Htime.
  apply back_lift_bind. intros codes _.
  eapply back_bind; [apply back_refuse | intros []].
  destruct duration as [duration|]; [|eapply back_weaken; [done | | apply back_mutate]; done].
  eapply back_bind; [apply back_mutate | intros []].
  eapply back_bind; [apply back_elapsed|]. intros started s [Hst Hs]. revert s Hs.
  eapply back_weaken; [done | | apply back_wait]; [done | | unfold saturating_add; lia..].
  intros a. eapply back_bind; [apply back_asks, asks_interrupted | intros stop].
  eapply back_bind; [apply back_refuse | intros []]. apply back_check.
Qed.

Lemma text_back text : comes_back (later 0) (text_body text) (fun _ => later 0).
Proof using Htime. apply back_lift_bind. intros events _. apply back_mutate. Qed.

Lemma run_op_back start fence op b :
  valid b -> epoch <= world Z start Now -> exists r s', run_op fence op (start, b) = Some (r, s').
Proof using Htime.
  intros Hb He. destruct op as [p count button modifiers|points duration_ms button|keys duration|text].
  - destruct (checked_keys modifiers true) as [ks|e] eqn:Ek; eapply guarded_back; try done;
      [by apply click_injects | apply click_back | | apply click_back].
    apply (refused_injects _ _ (Click p count button modifiers) _ []). simpl. by rewrite Ek.
  - destruct points as [|p path]; eapply guarded_back; try done;
      [apply (hoare_throw _ _ _ [] None []) | apply drag_back
      | apply drag_injects | apply drag_back].
  - destruct (checked_keys keys false) as [ks|e] eqn:Ek; eapply guarded_back; try done;
      [by apply keypress_injects | apply keypress_back | | apply keypress_back].
    apply (refused_injects _ _ (Keypress keys duration) _ []). simpl. by rewrite Ek.
  - destruct (text_events text) as [ks|e] eqn:Ek; eapply guarded_back; try done;
      [by apply text_injects | apply text_back | | apply text_back].
    apply (refused_injects _ _ (Text text) _ []). simpl. by rewrite Ek.
Qed.
End Returns.
