(* ===== verification/GuardedInput.v ===== *)
(** * What guarded input does

    The backend of a window and the backend of a captured popup keep the contract of
    [GuardedTransaction], so that its theorems hold of the operations of the platform. *)

From S2P Require Import Prelude Records Effects RustStr Calls NativeInput PhysicalInput CapturePopupInput GuardedEvidence GuardedTransaction.

(** ** The two backends keep the contract *)

(** [m] asks and comes back, and [Phi] holds of a success and the calls before it. *)
Definition asks_for {S A} (Phi : A -> native_history -> S -> Prop)
    (m : eff (native_history * S) reason A) (h : native_history) (s : S) : Prop :=
  exists r new s', m (h, s) = Some (r, (h ++ new, s'))
    /\ of_interest_in is_dispatch new = [] /\ forall a, r = Ok a -> Phi a (h ++ new) s'.

Section Asks.
Context {world : native_world} {S : Type}.

Lemma asks_for_ret {A} Phi (a : A) h (s : S) : Phi a h s -> asks_for Phi (ret a) h s.
Proof.
  intros H. exists (Ok a), [], s. rewrite app_nil_r. split_and!; [done..|]. by intros ? [= <-].
Qed.
Lemma asks_for_throw {A} Phi e h (s : S) : asks_for (A := A) Phi (throw e) h s.
Proof. exists (Err e), [], s. by rewrite app_nil_r. Qed.
Lemma asks_for_lift {A} Phi (x : result reason A) h (s : S) :
  (forall a, x = Ok a -> Phi a h s) -> asks_for Phi (lift x) h s.
Proof. intros H. destruct x; [by apply asks_for_ret, H | by apply asks_for_throw]. Qed.
Lemma asks_for_bind {A C} Phi Psi (m : eff (native_history * S) reason A)
    (k : A -> eff (native_history * S) reason C) h s :
  asks_for Phi m h s ->
  (forall a h' s', Phi a h' s' -> asks_for Psi (k a) h' s') ->
  asks_for Psi (bind m k) h s.
Proof.
  intros (r & new & s' & E & Hq & H) Hk. destruct r as [a|e].
  - destruct (Hk a _ _ (H a eq_refl)) as (r & new' & s'' & E' & Hq' & H').
    exists r, (new ++ new'), s''. rewrite app_assoc. split_and!; [| |done].
    + unfold bind. rewrite E. exact E'.
    + by rewrite of_interest_app, Hq, Hq'.
  - exists (Err e), new, s'. unfold bind. rewrite E. done.
Qed.
Lemma asks_for_ask {A C} Psi (c : native_call A) (k : A -> eff (native_history * S) reason C)
    h s :
  (forall a, is_dispatch (asked c a) = false) ->
  (forall a, asks_for Psi (k a) (h ++ [asked c a]) s) ->
  asks_for Psi (bind (ask world c) k) h s.
Proof.
  intros Hc Hk. destruct (Hk (world A h c)) as (r & new & s' & E & Hq & H).
  exists r, (asked c (world A h c) :: new), s'. rewrite <- app_assoc in E, H.
  split_and!; [exact E | | exact H].
  unfold of_interest_in in *. simpl. by rewrite Hc.
Qed.
Lemma asks_for_refuse {A} Psi b e (k : unit -> eff (native_history * S) reason A) h s :
  (b = false -> asks_for Psi (k tt) h s) -> asks_for Psi (bind (refuse_if b e) k) h s.
Proof. intros H. destruct b; [apply asks_for_throw | by apply H]. Qed.
Lemma asks_for_lift_bind {A C} Psi (x : result reason A)
    (k : A -> eff (native_history * S) reason C) h s :
  (forall a, x = Ok a -> asks_for Psi (k a) h s) -> asks_for Psi (bind (lift x) k) h s.
Proof. intros H. destruct x; [by apply H | apply asks_for_throw]. Qed.
Lemma asks_for_ret_bind {A C} Psi (a : A) (k : A -> eff (native_history * S) reason C) h s :
  asks_for Psi (k a) h s -> asks_for Psi (bind (ret a) k) h s.
Proof. done. Qed.
Lemma asks_for_weaken {A} (Phi Psi : A -> native_history -> S -> Prop)
    (m : eff (native_history * S) reason A) h s :
  (forall a h' s', Phi a h' s' -> Psi a h' s') -> asks_for Phi m h s -> asks_for Psi m h s.
Proof. intros HP (r & new & s' & E & Hq & H). exists r, new, s'. naive_solver. Qed.
Lemma asks_for_assoc {A C D} Psi (m : eff (native_history * S) reason A)
    (f : A -> eff (native_history * S) reason C) (k : C -> eff (native_history * S) reason D) h s :
  asks_for Psi (bind m (fun a => bind (f a) k)) h s ->
  asks_for Psi (bind (bind m f) k) h s.
Proof.
  intros (r & new & s' & E & H). exists r, new, s'. by rewrite bind_assoc.
Qed.
End Asks.

Definition point_proof (fence : Fence.WindowsPhysicalInputFence) (p : option point)
    (calls : native_history) (visible : bool) : Prop :=
  calls = [] /\ visible = false
  \/ exists q proof, p = Some q
       /\ calls = [asked (ReadPointEvidence (Fence.target fence) q) (Some proof)]
       /\ visible = PointEvidence.visible proof.

(** The calls end with a complete proof of the window, and the point in it. *)
Definition native_proven (fence : Fence.WindowsPhysicalInputFence) (p : option point)
    (h : native_history) : Prop :=
  exists before evidence calls visible desktop state,
    h = before
        ++ [asked Interrupted false; asked InputAvailable true;
            asked (ReadPixelEvidence (Fence.target fence)) (Some evidence)]
        ++ calls
        ++ [asked InputAvailable true; asked ReadDesktop desktop;
            asked (ReadNativeState (Fence.target fence)) (Some state);
            asked Interrupted false]
    /\ point_proof fence p calls visible
    /\ proven_window fence evidence state desktop p visible.

Section Native.
Context {world : native_world}.

Lemma read_proof_asks fence p h x :
  asks_for (fun '(evidence, visible) h' _ => exists calls,
      h' = h ++ asked (ReadPixelEvidence (Fence.target fence)) (Some evidence) :: calls
      /\ point_proof fence p calls visible)
    (read_proof world fence p) h x.
Proof.
  unfold read_proof. apply asks_for_ask; [done|]. intros [evidence|]; [|apply asks_for_throw].
  apply asks_for_lift_bind. intros ? [= <-].
  set (h1 := h ++ _). cbv zeta.
  assert (forall calls, h ++ asked (ReadPixelEvidence (Fence.target fence)) (Some evidence) :: calls
                        = h1 ++ calls) as Hh1 by (intros calls; by unfold h1; rewrite <- app_assoc).
  apply asks_for_bind with (Phi := fun '(shown, sample) h' _ =>
    forall visible, shown = Ok visible -> exists calls, h' = h1 ++ calls
      /\ point_proof fence p calls visible).
  - destruct p as [p|]; [destruct (_ || _)|].
    + apply asks_for_ask; [done|]. intros [proof|]; apply asks_for_ret; [|done].
      intros visible [= <-]. eexists. split; [done|]. right. eauto.
    + apply asks_for_ret. intros visible [= <-]. exists []. rewrite app_nil_r. by split; [|left].
    + apply asks_for_ret. intros visible [= <-]. exists []. rewrite app_nil_r. by split; [|left].
  - intros [shown sample] h' s' Hshown.
    apply asks_for_bind with (Phi := fun _ h2 _ => h2 = h').
    + exists (Ok tt), [], (Some sample). rewrite app_nil_r. naive_solver.
    + intros _ ? s2 ->. apply asks_for_lift_bind. intros visible Hv.
      apply asks_for_ret. destruct (Hshown _ Hv) as (calls & -> & Hp).
      exists calls. by rewrite Hh1.
Qed.

Lemma native_check_asks fence p h b :
  asks_for (fun _ h' b' => native_proven fence p h')
    (native_check world fence p) h b
  /\ forall r h' b', native_check world fence p (h, b) = Some (r, (h', b')) ->
       NativeBackend.started b' = NativeBackend.started b.
Proof.
  assert (forall x, asks_for (fun _ h' _ => native_proven fence p h')
    (check_physical_fence world fence p (read_proof world fence p)) h x) as Hcheck.
  { intros x. unfold check_physical_fence, not_interrupted, input_available, read_final_state.
    apply asks_for_assoc, asks_for_ask; [done|]. intros stop. apply asks_for_refuse. intros ->.
    apply asks_for_assoc, asks_for_ask; [done|]. intros available.
    apply asks_for_refuse. intros ->%negb_false_iff.
    eapply asks_for_bind; [apply read_proof_asks|].
    intros [evidence visible] h1 s1 (calls & -> & Hp).
    apply asks_for_assoc, asks_for_ask; [done|]. intros available.
    apply asks_for_refuse. intros ->%negb_false_iff.
    apply asks_for_ask; [done|]. intros desktop.
    apply asks_for_assoc, asks_for_ask; [done|]. intros [state|]; [|apply asks_for_throw].
    apply asks_for_lift_bind. intros ? [= <-].
    apply asks_for_assoc, asks_for_ask; [done|]. intros stop. apply asks_for_refuse. intros ->.
    apply asks_for_lift. intros [] Hv. exists h, evidence, calls, visible, desktop, state.
    split_and!; [by rewrite <- !app_assoc | done | by apply validated_window]. }
  destruct (Hcheck None) as (r & new & x & E & Hq & Hok).
  assert (native_check world fence p (h, b)
    = Some (r, (h ++ new, b <| NativeBackend.rejection := if is_err r then x else None |>))) as Ec.
  { unfold native_check, bind, with_local. cbn [fst snd]. rewrite E. done. }
  split.
  - eexists _, _, _. split_and!; [exact Ec | done | done].
  - intros r' h' b' E'. rewrite Ec in E'. by injection E' as <- <- <-.
Qed.
End Native.

#[export] Instance native_contract (world : native_world) (t0 : Z)
    : GuardedBackend (native_backend world) world.
Proof.
  refine {| valid := fun b => NativeBackend.started b = t0; epoch := t0;
            supports := fun _ _ => true; proven := native_proven |}; try done.
  - intros f p h b Hb. destruct (native_check_asks (world := world) f p h b)
      as [(r & new & b' & E & Hq & _) Hst].
    exists r, new, b'. split_and!; [exact E | | done]. by rewrite (Hst _ _ _ E).
  - intros f p events cursor h b Hb. destruct (native_check_asks (world := world) f p h b)
      as [(r & new & b' & E & Hq & Hok) Hst].
    apply Hst in E as Hb'. destruct r as [[]|e].
    + exists (Ok (receipt_of world events cursor (h ++ new))), new, b'.
      split_and!; [done | congruence |]. right.
      split_and!; [by eapply Hok | by apply Forall_forall |].
      cbn [mutate native_backend]. unfold native_mutate, final_physical_boundary, bind.
      rewrite E, app_assoc. apply dispatch_sends.
    + exists (Err e), new, b'. split_and!; [done | congruence |]. left. split; [done|].
      cbn [mutate native_backend]. unfold native_mutate, final_physical_boundary, bind.
      by rewrite E.
  - intros f p events h b Hb Hne Hrel _. exists b. split; [done|].
    cbn [mutate native_backend]. unfold native_mutate, final_physical_boundary.
    rewrite (bool_decide_eq_false_2 (events = [])) by done.
    replace (forallb is_release events) with true; [apply dispatch_sends|].
    symmetry. apply forallb_true. intros e He. rewrite Forall_forall in Hrel. by apply Hrel.
  - intros h b Hb. cbn [elapsed_ms native_backend]. unfold elapsed_ms_of.
    by rewrite <- Hb.
Defined.

(** *** The popup *)

Section Popup.
Context {world : native_world} (expected : PopupProof.NativeCapturePopupProof).

(** The calls end with the expected proof of the popup, and its root. *)
Definition popup_calls (fence : Fence.WindowsPhysicalInputFence)
    (state : NativeState.ExactWindowNativeState) : native_history :=
  [asked Interrupted false; asked InputAvailable true;
   asked (ReadPopupProof (Fence.target fence)
            (map NativeState.window_handle (PopupProof.overlays expected))) (Ok expected);
   asked InputAvailable true; asked (ReadNativeState (Fence.target fence)) (Some state);
   asked Interrupted false].

Definition popup_read (fence : Fence.WindowsPhysicalInputFence) (h : native_history) : Prop :=
  exists before state, h = before ++ popup_calls fence state
    /\ proven_state fence state /\ proven_state fence (PopupProof.root expected).

Definition popup_proven (fence : Fence.WindowsPhysicalInputFence) (p : option point)
    (h : native_history) : Prop :=
  p = None /\ exists before now, h = before ++ [asked Now now] /\ popup_read fence before.

Lemma asks_for_attempt {S A} Phi (m : eff (native_history * S) reason A) h s :
  asks_for Phi m h s ->
  asks_for (fun r h' s' => forall a, r = Ok a -> Phi a h' s') (attempt m) h s.
Proof.
  intros (r & new & s' & E & Hq & H). exists (Ok r), new, s'. unfold attempt. rewrite E.
  split_and!; [done..|]. by intros ? [= <-].
Qed.
Lemma asks_for_read {S A C} Psi (f : S -> A) (k : A -> eff (native_history * S) reason C) h s :
  asks_for Psi (k (f s)) h s -> asks_for Psi (bind (silent (read f)) k) h s.
Proof. done. Qed.
Lemma asks_for_modify {S C} Psi (f : S -> S) (k : unit -> eff (native_history * S) reason C) h s :
  asks_for Psi (k tt) h (f s) -> asks_for Psi (bind (silent (modify f)) k) h s.
Proof. done. Qed.
Lemma asks_for_local {S T A C} Phi Psi (x : T) (m : eff (native_history * T) reason A)
    (k : result reason A * T -> eff (native_history * S) reason C) h s :
  asks_for Phi m h x ->
  (forall r h' x', (forall a, r = Ok a -> Phi a h' x') -> asks_for Psi (k (r, x')) h' s) ->
  asks_for Psi (bind (with_local x m) k) h s.
Proof.
  intros (r & new & x' & E & Hq & H) Hk.
  apply asks_for_bind with (Phi := fun rx h' s' =>
    s' = s /\ forall a, rx.1 = Ok a -> Phi a h' rx.2).
  - exists (Ok (r, x')), new, s. unfold with_local. rewrite E. split_and!; [done..|].
    by intros ? [= <-].
  - intros [r1 x1] h' s' [-> H1]. by apply Hk.
Qed.

Lemma fence_asks {S} fence (read : eff (native_history * S) reason unit) Phi h s :
  (forall h1 s1, asks_for (fun _ h2 _ => Phi h1 h2) read h1 s1) ->
  asks_for (fun _ h' _ => exists h1 h2 state,
      h1 = h ++ [asked Interrupted false; asked InputAvailable true] /\ Phi h1 h2
      /\ h' = h2 ++ [asked InputAvailable true; asked (ReadNativeState (Fence.target fence))
                       (Some state); asked Interrupted false]
      /\ proven_state fence state)
    (check_capture_popup_fence world fence read) h s.
Proof.
  intros Hread. unfold check_capture_popup_fence, not_interrupted, input_available, read_final_state.
  apply asks_for_assoc, asks_for_ask; [done|]. intros stop. apply asks_for_refuse. intros ->.
  apply asks_for_assoc, asks_for_ask; [done|]. intros available.
  apply asks_for_refuse. intros ->%negb_false_iff.
  eapply asks_for_bind; [apply Hread|]. intros [] h2 s2 H2.
  apply asks_for_assoc, asks_for_ask; [done|]. intros available.
  apply asks_for_refuse. intros ->%negb_false_iff.
  apply asks_for_assoc, asks_for_ask; [done|]. intros [state|]; [|apply asks_for_throw].
  apply asks_for_lift_bind. intros ? [= <-].
  apply asks_for_assoc, asks_for_ask; [done|]. intros stop. apply asks_for_refuse. intros ->.
  apply asks_for_lift. intros [] Hv. eexists _, h2, state.
  split_and!; [reflexivity | | | by apply validated_root].
  - by rewrite <- app_assoc in H2.
  - by rewrite <- !app_assoc.
Qed.

Lemma read_popup_proof_asks fence allow_closed h x :
  asks_for (fun _ h' _ => allow_closed = false ->
      h' = h ++ [asked (ReadPopupProof (Fence.target fence)
                   (map NativeState.window_handle (PopupProof.overlays expected))) (Ok expected)])
    (read_popup_proof world expected fence allow_closed) h x.
Proof.
  unfold read_popup_proof. apply asks_for_ask; [done|]. intros [proof|error].
  - apply asks_for_lift. intros [] Hv ->. unfold validate_current_proof in Hv.
    destruct (_ || _) eqn:Hb; [|done]. rewrite andb_false_l, orb_false_r in Hb.
    apply bool_decide_eq_true in Hb. by subst.
  - apply asks_for_modify. destruct allow_closed; [|apply asks_for_throw].
    unfold read_closed, read_final_state.
    apply asks_for_ask; [done|]. intros ended. apply asks_for_lift_bind. intros [] _.
    2: apply asks_for_throw. apply asks_for_refuse. intros _.
    apply asks_for_ask; [done|]. intros evidence. apply asks_for_lift_bind. intros ? _.
    apply asks_for_refuse. intros _.
    apply asks_for_assoc, asks_for_ask; [done|]. intros state.
    apply asks_for_lift_bind. intros ? _.
    apply asks_for_ask; [done|]. intros desktop. by apply asks_for_lift.
Qed.

Lemma check_once_asks fence allow_closed h b :
  Popup.proof b = expected ->
  asks_for (fun _ h' _ => allow_closed = false -> popup_read fence h')
    (check_mode_once world fence allow_closed) h b.
Proof.
  intros Hb. unfold check_mode_once. apply asks_for_read. rewrite Hb.
  apply asks_for_lift_bind. intros [] Hroot.
  eapply asks_for_local.
  { apply fence_asks with (Phi := fun h1 h2 => allow_closed = false ->
      h2 = h1 ++ [asked (ReadPopupProof (Fence.target fence)
        (map NativeState.window_handle (PopupProof.overlays expected))) (Ok expected)]).
    intros h1 s1. apply (read_popup_proof_asks fence allow_closed h1 s1). }
  intros r h' x' Hr. apply asks_for_modify. apply asks_for_lift. intros [] -> Ha.
  destruct (Hr tt eq_refl) as (h1 & h2 & state & -> & H2 & -> & Hv).
  rewrite (H2 Ha). exists h, state. unfold popup_calls.
  split_and!; [by rewrite <- !app_assoc | done | by apply validated_root].
Qed.

(** No operation changes the proof and the start of a backend. *)
Definition same_popup (s s' : native_history * Popup.CapturePopupBackend) : Prop :=
  Popup.proof s'.2 = Popup.proof s.2 /\ Popup.started s'.2 = Popup.started s.2.
#[local] Instance same_popup_preorder : PreOrder same_popup.
Proof. split; [done|]. unfold same_popup. intros s1 s2 s3 [-> ->] [-> ->]. done. Qed.

Lemma same_ask {A} (c : native_call A) :
  respects same_popup (ask (E := reason) world c).
Proof. intros [h s] r [h' s'] (_ & _ & ->)%ask_some. done. Qed.
Lemma same_read {E A} (f : Popup.CapturePopupBackend -> A) :
  respects same_popup (silent (E := E) (call := native_call) (read f)).
Proof. intros [h s] r [h' s'] [[_ ->]%read_some ->]%silent_some. done. Qed.
Lemma same_modify (f : Popup.CapturePopupBackend -> Popup.CapturePopupBackend) :
  (forall b, Popup.proof (f b) = Popup.proof b /\ Popup.started (f b) = Popup.started b) ->
  respects same_popup (silent (E := reason) (call := native_call) (modify f)).
Proof. intros Hf [h s] r [h' s'] [Hm ->]%silent_some. injection Hm as _ <-. apply Hf. Qed.
Lemma same_local {T A} (x : T) (m : eff (native_history * T) reason A) :
  respects same_popup (with_local (F := reason) x m).
Proof. intros [h s] r [h' s'] (_ & _ & _ & _ & ->)%with_local_some. done. Qed.
#[local] Hint Resolve same_ask same_read same_local : respects.
#[local] Hint Extern 1 (respects same_popup (silent (modify _))) =>
  (apply same_modify; done) : respects.

Lemma same_check_once fence allow_closed :
  respects same_popup (check_mode_once world fence allow_closed).
Proof. unfold check_mode_once. respects. Qed.
Lemma same_fence fence (read : eff (native_history * Popup.CapturePopupBackend) reason unit) :
  respects same_popup read -> respects same_popup (check_capture_popup_fence world fence read).
Proof.
  intros Hr. unfold check_capture_popup_fence, not_interrupted, input_available, read_final_state.
  respects.
Qed.
#[local] Hint Resolve same_check_once : respects.
Lemma same_postcheck fence allow_closed settling :
  respects same_popup (read_postcheck world fence allow_closed settling).
Proof. unfold read_postcheck, teardown_unchanged. respects; apply same_fence; respects. Qed.
#[local] Hint Resolve same_postcheck : respects.
Lemma same_check_mode fence allow_closed :
  respects same_popup (check_mode world fence allow_closed).
Proof.
  unfold check_mode, completed_popup_postcheck, elapsed_since. respects.
  unfold postcheck_round. respects.
Qed.

Lemma postcheck_asks fence allow_closed settling h b :
  Popup.proof b = expected ->
  asks_for (fun res h' _ => res.1 = Ok tt -> allow_closed = false -> popup_read fence h')
    (read_postcheck world fence allow_closed settling) h b.
Proof.
  intros Hb. unfold read_postcheck.
  eapply asks_for_bind; [by apply asks_for_attempt, check_once_asks|].
  intros result h1 s1 Hread. apply asks_for_read. destruct (_ || _) eqn:Hw.
  - apply asks_for_ret. intros Hr. simpl in Hr. subst. eauto.
  - eapply asks_for_bind.
    { apply asks_for_attempt. unfold teardown_unchanged. apply asks_for_read.
      eapply fence_asks with (Phi := fun _ _ => True). intros h2 s2.
      apply asks_for_ask; [done|]. intros [].
      - by apply asks_for_ret.
      - apply asks_for_throw. }
    intros [[]|e] h2 s2 _; apply asks_for_ret; [|done].
    intros _ ->. done.
Qed.

(** The rounds of a postcheck end, at the latest with the one numbered 20. *)
Lemma rounds_ask {S} fence completed (read : bool -> eff (native_history * S) reason _)
    (started t0 : Z) (P : S -> Prop) fuel :
  (forall settling h s, P s -> asks_for (fun res h' s' => P s' /\
     (res.1 = Ok tt -> completed = false -> popup_read fence h')) (read settling) h s) ->
  forall attempt settling h s, P s -> attempt + Z.of_nat fuel = 21 -> 0 <= attempt <= 20 ->
  asks_for (fun res h' _ => exists r, res = Some r /\
      (r = Ok tt -> completed = false ->
       exists before now, h' = before ++ [asked Now now] /\ popup_read fence before))
    (loop fuel (postcheck_round world completed read (elapsed_since world t0) started)
       (attempt, settling)) h s.
Proof.
  intros Hread. induction fuel as [|fuel IH]; intros attempt settling h s Hs Hn Ha; [lia|].
  cbn [loop].
  apply asks_for_bind with (Phi := fun next h' s' => match next with
    | inl (attempt', _) => P s' /\ attempt' = attempt + 1 /\ attempt <> 20
    | inr r => r = Ok tt -> completed = false ->
        exists before now, h' = before ++ [asked Now now] /\ popup_read fence before
    end).
  2: { intros [[attempt' settling']|r] h' s'.
    - intros (Hs' & -> & H20). apply IH; [done | lia | lia].
    - intros H. apply asks_for_ret. eauto. }
  unfold postcheck_round, elapsed_since.
  apply asks_for_bind with (Phi := fun _ _ s' => P s').
  { destruct settling; [|by apply asks_for_ret].
    apply asks_for_assoc, asks_for_ask; [done|]. intros now. by apply asks_for_ret_bind, asks_for_ret. }
  intros late h1 s1 Hs1. destruct late; [apply asks_for_throw|].
  eapply asks_for_bind; [by apply Hread|].
  intros [result unchanged] h2 s2 [Hs2 Hok]. simpl in Hok.
  apply asks_for_assoc, asks_for_ask; [done|]. intros now.
  apply asks_for_ret_bind. destruct (_ && _ : bool); [apply asks_for_throw|].
  destruct (_ || _ : bool) eqn:Hend.
  - apply asks_for_ret. intros -> Hc. eauto.
  - apply asks_for_assoc, asks_for_ask; [done|]. intros now'.
    apply asks_for_ret_bind, asks_for_ask; [done|]. intros []. apply asks_for_ret.
    reflect_all. split_and!; [done | lia | done].
Qed.

Lemma asks_for_same {A} Phi (m : eff (native_history * Popup.CapturePopupBackend) reason A) h b :
  respects same_popup m -> asks_for Phi m h b ->
  asks_for (fun a h' b' => Phi a h' b' /\ same_popup (h, b) (h', b')) m h b.
Proof.
  intros Hm (r & new & b' & E & Hq & H). exists r, new, b'. split_and!; [done..|].
  intros a Ha. split; [by apply H|]. apply Hm in E. done.
Qed.

Lemma check_mode_asks fence allow_closed h b :
  Popup.proof b = expected ->
  asks_for (fun _ h' _ => allow_closed = false -> popup_proven fence None h')
    (check_mode world fence allow_closed) h b.
Proof.
  intros Hb. unfold check_mode. apply asks_for_ask; [done|]. intros t0.
  unfold completed_popup_postcheck, elapsed_since at 1.
  apply asks_for_assoc, asks_for_ask; [done|]. intros now. apply asks_for_ret_bind.
  eapply asks_for_bind.
  { apply (rounds_ask fence allow_closed _ _ t0 (fun b => Popup.proof b = expected) 21);
      [|done | done | done].
    intros settling h1 s1 Hs1. eapply asks_for_weaken;
      [|apply asks_for_same; [apply same_postcheck | by apply postcheck_asks]].
    simpl. intros res h2 s2 [H [Hp _]]. simpl in Hp. split; [congruence | done]. }
  intros [r|] h1 s1 (r1 & Hr1 & H1); [|done]. injection Hr1 as <-.
  apply asks_for_lift. intros [] -> Ha. split; [done|]. by apply H1.
Qed.
End Popup.

Lemma popup_receipt_law (world : native_world) expected t0 f events h b :
  Popup.proof b = expected /\ Popup.started b = t0 ->
  exists b', (Popup.proof b' = expected /\ Popup.started b' = t0)
    /\ (do? receipt := send_input world events in
        run? silent (modify (fun self => self <| Popup.closed_postcheck_allowed := f receipt |>)) in
        ret receipt) (h, b)
       = Some (Ok (receipt_of world events None h), (h ++ [sent world events None h], b'))
         :> option (result reason _ * _).
Proof. intros Hb. eexists. split; [|reflexivity]. done. Qed.

#[export] Instance popup_contract (world : native_world)
    (expected : PopupProof.NativeCapturePopupProof) (t0 : Z)
    : GuardedBackend (capture_popup_backend world) world.
Proof.
  refine {| valid := fun b => Popup.proof b = expected /\ Popup.started b = t0; epoch := t0;
            supports := fun p e => is_none p && negb (is_pointer_event e);
            proven := popup_proven expected |}; try done.
  - intros p e r Hr. destruct e as [? []|? []|? []|]; simpl in Hr; simplify_eq; done.
  - intros f p h b [Hb Ht]. cbn [check capture_popup_backend]. unfold popup_check.
    destruct p as [p|].
    { exists (Err Reason.InvalidRequest), [], b. by rewrite app_nil_r. }
    destruct (asks_for_same _ _ h b (same_check_mode (world := world) f (Popup.closed_postcheck_allowed b))
      (check_mode_asks (world := world) expected f _ h b Hb)) as (r & new & b' & E & Hq & _).
    exists r, new, b'. split_and!; [exact E | | | done];
      apply same_check_mode in E as [? ?]; simpl in *; congruence.
  - intros f p events cursor h b [Hb Ht]. cbn [mutate capture_popup_backend].
    unfold popup_mutate.
    destruct (is_some p || is_some cursor || existsb is_pointer_event events) eqn:Hr.
    { exists (Err Reason.InvalidRequest), [], b. rewrite app_nil_r. split_and!; [done..|]. by left. }
    destruct p; [done|]. destruct cursor; [done|]. simpl in Hr.
    destruct (check_mode_asks (world := world) expected f false h b Hb)
      as (r & new & b' & E & Hq & Hok).
    assert (Popup.proof b' = expected /\ Popup.started b' = t0) as Hb'
      by (apply same_check_mode in E as [? ?]; simpl in *; split; congruence).
    destruct r as [[]|e].
    + destruct (popup_receipt_law world expected t0
        (fun receipt => keyboard_release_completed events receipt false) events (h ++ new) b' Hb')
        as (b2 & Hb2 & E2).
      exists (Ok (receipt_of world events None (h ++ new))), new, b2.
      split_and!; [done | apply Hb2 | apply Hb2 |]. right.
      split_and!; [by eapply Hok | |].
      * apply Forall_forall. intros e He. rewrite existsb_false in Hr. by rewrite Hr.
      * unfold refuse_if, final_physical_boundary. rewrite app_assoc, <- E2.
        unfold bind at 1 2 3. cbn [ret]. rewrite E. done.
    + exists (Err e), new, b'. split_and!; [done | apply Hb' | apply Hb' |]. left. split; [done|].
      unfold refuse_if, final_physical_boundary, bind. cbn [ret]. by rewrite E.
  - intros f p events h b Hb Hne Hrel Hsup. cbn [mutate capture_popup_backend].
    destruct (popup_receipt_law world expected t0
      (fun receipt => keyboard_release_completed events receipt true) events h b Hb)
      as (b2 & Hb2 & E2).
    exists b2. split; [done|]. rewrite <- E2. unfold popup_mutate, final_physical_boundary.
    assert (forall e, e ∈ events -> is_none p && negb (is_pointer_event e) = true) as Hs
      by by apply Forall_forall.
    assert (is_some p || is_some (A := point) None || existsb is_pointer_event events = false) as ->.
    { apply orb_false_iff. split.
      - destruct events as [|e0 events]; [done|].
        destruct p; [by specialize (Hs e0 (list_elem_of_here _ _)) | done].
      - apply existsb_false. intros e He. specialize (Hs e He). reflect_all. tauto. }
    rewrite (bool_decide_eq_false_2 (events = [])) by done.
    replace (forallb is_release events) with true; [done|].
    symmetry. apply forallb_true. intros e He. rewrite Forall_forall in Hrel. by apply Hrel.
  - intros h b [_ Hb]. cbn [elapsed_ms capture_popup_backend]. unfold elapsed_ms_of.
    by rewrite <- Hb.
Defined.

(** ** The guarded operations of the platform *)

Inductive guarded_call : Type :=
| SendClick (p : point) (count : Z) (button : WindowsPointerButton) (modifiers : list string)
| SendDrag (points : list point) (duration_ms : Z) (button : WindowsPointerButton)
| SendKeypress (keys : list string) (hold_duration_ms : option Z)
| SendText (text : string)
| SendCapturePopupKeypress (proof : PopupProof.NativeCapturePopupProof) (keys : list string)
    (hold_duration_ms : option Z)
| SendCapturePopupText (proof : PopupProof.NativeCapturePopupProof) (text : string).

Definition perform (world : native_world) (fence : Fence.WindowsPhysicalInputFence)
    (call : guarded_call)
    : eff (native_history * unit) GuardedError.WindowsGuardedInputError
        Outcome.WindowsGuardedInputOutcome :=
  match call with
  | SendClick p count button modifiers =>
      send_guarded_click world fence p count button modifiers
  | SendDrag points duration_ms button => send_guarded_drag world fence points duration_ms button
  | SendKeypress keys hold => send_guarded_keypress world fence keys hold
  | SendText text => send_guarded_text world fence text
  | SendCapturePopupKeypress proof keys hold =>
      send_guarded_capture_popup_keypress world fence proof keys hold
  | SendCapturePopupText proof text => send_guarded_capture_popup_text world fence proof text
  end.

Definition op_of (call : guarded_call) : guarded_op :=
  match call with
  | SendClick p count button modifiers => Click p count button modifiers
  | SendDrag points duration_ms button => Drag points duration_ms button
  | SendKeypress keys hold | SendCapturePopupKeypress _ keys hold => Keypress keys hold
  | SendText text | SendCapturePopupText _ text => Text text
  end.

(** The proof a mutation of the call needs. *)
Definition proof_for (call : guarded_call) (fence : Fence.WindowsPhysicalInputFence)
    : option point -> native_history -> Prop :=
  match call with
  | SendCapturePopupKeypress proof _ _ | SendCapturePopupText proof _ => popup_proven proof fence
  | _ => native_proven fence
  end.

Definition operation_of (call : guarded_call) : Operation.WindowsGuardedInputOperation :=
  match op_of call with
  | Click _ _ _ _ => Operation.Click
  | Drag _ _ _ => Operation.Drag
  | Keypress _ _ => Operation.Keypress
  | Text _ => Operation.Text
  end.

(** [safe] and the events do not depend on calls around that mutate nothing. *)
Lemma safe_around proven_at start before new after r :
  of_interest_in is_dispatch before = [] -> of_interest_in is_dispatch after = [] ->
  safe proven_at (start ++ before) new r -> safe proven_at start (before ++ new ++ after) r.
Proof.
  intros Hb Ha [Hp Hr Hat]. split.
  - intros b c a E Hc. apply cons_app_eq in E as [(x & -> & ->) | (x & -> & E)].
    + rewrite (quiet_no_dispatch _ b c x Hb eq_refl) in Hc. done.
    + apply cons_app_eq in E as [(y & -> & ->) | (y & -> & E)].
      * rewrite app_assoc. destruct (Hp x c y eq_refl Hc) as [?|[Hq Hcl]]; [by left|].
        right. split; [by rewrite of_interest_app, Hq, Ha | done].
      * rewrite (quiet_no_dispatch _ y c a Ha E) in Hc. done.
  - intros press up Hup. rewrite !injected_app, (injected_quiet _ Hb), (injected_quiet _ Ha),
      app_nil_r. intros Hheld. destruct (Hr press up Hup Hheld) as [He (x & rel & ins & y & -> & [Hq Hcl] & Hin)].
    split; [done|]. exists (before ++ x), rel, ins, (y ++ after).
    split; [by rewrite <- !app_assoc|]. split; [|done].
    split; [by rewrite of_interest_app, Hq, Ha | done].
  - intros e He Hpre. by rewrite !of_interest_app, Hb, Ha, (Hat e He Hpre).
Qed.

Section Dpi.
Context {B : Type} {IB : InputBackend B} (world : native_world)
  (fence : Fence.WindowsPhysicalInputFence) (op : guarded_op)
  (operation : Operation.WindowsGuardedInputOperation) (backend : Z -> B)
  (GB : forall t0 : Z, GuardedBackend IB world)
  (Hvalid : forall t0, valid (GuardedBackend := GB t0) (backend t0)).

Lemma with_dpi_safe proven_at h r h' :
  (forall t0, proven (GuardedBackend := GB t0) fence = proven_at) ->
  with_dpi world operation backend (run_op fence op) (h, tt) = Some (r, (h', tt)) ->
  exists new, h' = h ++ new /\ safe proven_at h new r
    /\ (is_ok r = true -> planned op = Ok (injected new)).
Proof using Hvalid.
  intros HP H. unfold with_dpi in H. unfold bind at 1, ask at 1 in H. cbn [fst snd] in H.
  destruct (world bool h EnterDpiScope) eqn:Ed.
  2: { injection H as <- <-. exists [asked EnterDpiScope false]. split_and!; [done| |done].
    split; [|by intros press up _ Hheld|done]. intros b c a E Hc. exfalso.
    by rewrite (quiet_no_dispatch [asked EnterDpiScope false] b c a eq_refl E) in Hc. }
  unfold refuse_if, bind at 1, ret in H. cbn [negb] in H.
  unfold bind at 1, ask at 1 in H. cbn [fst snd] in H.
  set (t0 := world Z _ Now) in H. set (h1 := (h ++ _) ++ _) in H.
  unfold bind at 1, with_local in H. cbn [fst snd] in H.
  destruct (run_op fence op (pair (A := native_history) h1 (backend t0)))
    as [[r1 [h2 b2]]|] eqn:E; [|done].
  pose proof (run_op_safe (GB := GB t0) h1 fence op (backend t0) r1 h2 b2 (Hvalid t0) E)
    as (new & -> & Hs & Hok).
  cbn in H. injection H as <- <-. rewrite HP in Hs.
  exists ([asked EnterDpiScope true; asked Now t0] ++ new ++ [asked LeaveDpiScope
    (world unit (h1 ++ new) LeaveDpiScope)]).
  split_and!.
  - unfold h1. by rewrite <- !app_assoc.
  - apply safe_around; [done | done |]. unfold h1 in Hs. by rewrite <- app_assoc in Hs.
  - intros Hr. rewrite (Hok Hr), !injected_app. by rewrite app_nil_r.
Qed.

Lemma with_dpi_back h :
  keeps_time world -> (forall t0, epoch (GuardedBackend := GB t0) = t0) ->
  exists r h', with_dpi world operation backend (run_op fence op) (h, tt) = Some (r, (h', tt)).
Proof using Hvalid.
  intros Ht He. unfold with_dpi. unfold bind at 1, ask at 1. cbn [fst snd].
  destruct (world bool h EnterDpiScope) eqn:Ed; [|by eexists _, _].
  unfold refuse_if, bind at 1, ret. cbn [negb].
  unfold bind at 1, ask at 1. cbn [fst snd].
  set (t0 := world Z _ Now). set (h1 := (h ++ _) ++ _).
  destruct (run_op_back (GB := GB t0) Ht h1 fence op (backend t0) (Hvalid t0))
    as (r & [h2 b2] & E).
  { rewrite He. apply (clock_forward _ Ht). }
  unfold bind at 1, with_local. cbn [fst snd]. rewrite E. by eexists _, _.
Qed.
End Dpi.

Lemma perform_safe world fence call h r h' :
  perform world fence call (h, tt) = Some (r, (h', tt)) ->
  exists new, h' = h ++ new /\ safe (proof_for call fence) h new r
    /\ (is_ok r = true -> planned (op_of call) = Ok (injected new)).
Proof.
  intros H. destruct call as [p n b m|ps d b|ks d|tx|pf ks d|pf tx].
  1: by eapply (with_dpi_safe world fence (Click p n b m) _ _ (native_contract world)) in H; [exact H | |].
  1: by eapply (with_dpi_safe world fence (Drag ps d b) _ _ (native_contract world)) in H; [exact H | |].
  1: by eapply (with_dpi_safe world fence (Keypress ks d) _ _ (native_contract world)) in H; [exact H | |].
  1: by eapply (with_dpi_safe world fence (Text tx) _ _ (native_contract world)) in H; [exact H | |].
  1: by eapply (with_dpi_safe world fence (Keypress ks d) _ _ (popup_contract world pf)) in H; [exact H | |].
  1: by eapply (with_dpi_safe world fence (Text tx) _ _ (popup_contract world pf)) in H; [exact H | |].
Qed.

Lemma perform_back world fence call h :
  keeps_time world -> exists r h', perform world fence call (h, tt) = Some (r, (h', tt)).
Proof.
  intros Ht. destruct call as [p n b m|ps d b|ks d|tx|pf ks d|pf tx].
  - by apply (with_dpi_back world fence (Click p n b m) _ _ (native_contract world)).
  - by apply (with_dpi_back world fence (Drag ps d b) _ _ (native_contract world)).
  - by apply (with_dpi_back world fence (Keypress ks d) _ _ (native_contract world)).
  - by apply (with_dpi_back world fence (Text tx) _ _ (native_contract world)).
  - by apply (with_dpi_back world fence (Keypress ks d) _ _ (popup_contract world pf)).
  - by apply (with_dpi_back world fence (Text tx) _ _ (popup_contract world pf)).
Qed.

(** The last mutation, which only lets go of what was pressed. *)
Definition last_release (c : a_call) (after : native_history) : Prop :=
  of_interest_in is_dispatch after = []
  /\ exists releases inserted, c = asked (SendInput releases) inserted
     /\ forall e, e ∈ releases -> exists press, lets_go press e.

(** The system took only a part of it. *)
Definition not_let_go (new : native_history) (up : event) : Prop :=
  exists before releases inserted after,
    new = before ++ asked (SendInput releases) inserted :: after
    /\ last_release (asked (SendInput releases) inserted) after
    /\ up ∈ drop (Z.to_nat inserted) releases.

Lemma cleanup_releases c after : is_cleanup c after -> last_release c after.
Proof.
  intros (Hq & releases & inserted & -> & Hall). split; [done|]. eexists _, _.
  split; [done|]. rewrite Forall_forall in Hall. intros e He. by apply is_release_spec, Hall.
Qed.

(** C10: nothing stays pressed that the system lets go of, and nothing is touched without
    proof.  Whatever the system, the window and the user's interruptions answer, an operation
    of the guarded input moves the cursor or injects events only right after calls that have
    proven the captured window: the pixels read and the state reported are those of the
    process, the window and the instance in the fence, with its bounds and its resolution,
    shown, in the foreground and within the desktop; and nothing covers it, or the very
    point it moves to is visible and inside the window and the desktop.  For a captured
    popup they are the complete proof of the observation and the state of its root.  The
    one exception is its last mutation, which only releases.  If a key, a character or a
    button is still down at the end, the operation has failed, and the system has taken only
    a part of that last release.  An error that says that nothing was attempted is right. *)
Theorem guarded_input_is_proven_and_released world fence call h r h' :
  perform world fence call (h, tt) = Some (r, (h', tt)) ->
  exists new, h' = h ++ new
    /\ (forall before c after, new = before ++ c :: after -> is_dispatch c = true ->
          (exists p, proof_for call fence p (h ++ before) /\ aimed p c) \/ last_release c after)
    /\ (forall press up, lets_go press up -> still_down press up (injected new) = true ->
          is_err r = true /\ not_let_go new up)
    /\ (forall e, r = Err e ->
          Outcome.mutation_attempted (GuardedError.outcome e) = false ->
          of_interest_in is_dispatch new = []).
Proof.
  intros H. destruct (perform_safe _ _ _ _ _ _ H) as (new & Hn & [Hp Hr Ha] & _).
  exists new. split_and!; [done | | |].
  - intros before c after E Hc. destruct (Hp _ _ _ E Hc); eauto using cleanup_releases.
  - intros press up Hup. rewrite (still_down_held _ _ _ Hup). intros Hheld.
    destruct (Hr _ _ (lets_go_release _ _ Hup) Hheld)
      as [He (before & releases & inserted & after & E & Hc & Hin)].
    split; [done|]. exists before, releases, inserted, after.
    eauto using cleanup_releases.
  - intros e -> Hm. apply (Ha e); [done|]. unfold is_pre_dispatch. by rewrite Hm.
Qed.

(** What a call asks for, as events. *)
Definition asked_for (call : guarded_call) (events : list event) : Prop :=
  match call with
  | SendClick p count button modifiers => exists codes,
      named_keys_are true modifiers codes
      /\ events = map (fun code => Event.Key code false) codes
           ++ concat (replicate (Z.to_nat count)
                [Event.Move p.1 p.2; Event.Mouse button false; Event.Mouse button true])
           ++ map (fun code => Event.Key code true) (rev codes)
  | SendDrag points _ button =>
      events = [Event.Mouse button false]
        ++ map (fun p => Event.Move p.1 p.2) (tail points) ++ [Event.Mouse button true]
  | SendKeypress keys _ | SendCapturePopupKeypress _ keys _ => exists codes,
      named_keys_are false keys codes
      /\ events = map (fun code => Event.Key code false) codes
           ++ map (fun code => Event.Key code true) (rev codes)
  | SendText text | SendCapturePopupText _ text => is_utf8 text ->
      exists typed, strokes (chars text) typed /\ events = concat (map stroke_events typed)
  end.

Lemma planned_asked call events : planned (op_of call) = Ok events -> asked_for call events.
Proof.
  destruct call; cbn; [| | | apply text_events_spec | | apply text_events_spec].
  - intros (codes & Hc%checked_keys_spec & H)%rbind_ok. injection H as <-. by exists codes.
  - by intros [= <-].
  - intros (codes & Hc%checked_keys_spec & H)%rbind_ok. injection H as <-. by exists codes.
  - intros (codes & Hc%checked_keys_spec & H)%rbind_ok. injection H as <-. by exists codes.
Qed.

(** C11: an operation of the guarded input comes to an end, and a success is what was asked.
    With a clock that does not go back and sleeps that are not cut short, every operation
    returns: the waits of a drag and of a held key end with their deadlines, and the check
    of a closing popup after twenty rounds.  If it succeeds, the events that reached the
    system are exactly those of the request, in their order: the modifiers, by their
    virtual-key codes, the clicks, and the modifiers up again; the button, each point of
    the path, and the button up; the keys down and, in the reverse order, up; every UTF-16
    unit of the text, surrogate pairs included, with one return for each line break, be it
    a CR, an LF or both. *)
Theorem guarded_input_arrives world fence call h :
  keeps_time world ->
  exists r h', perform world fence call (h, tt) = Some (r, (h', tt))
    /\ forall outcome, r = Ok outcome ->
         exists new, h' = h ++ new /\ asked_for call (injected new)
           /\ forall press up, lets_go press up -> still_down press up (injected new) = false.
Proof.
  intros Ht. destruct (perform_back world fence call h Ht) as (r & h' & E).
  exists r, h'. split; [done|]. intros outcome ->.
  destruct (perform_safe _ _ _ _ _ _ E) as (new & Hn & [_ Hr _] & Hok).
  exists new. split_and!; [done | by apply planned_asked, Hok|].
  intros press up Hup. rewrite (still_down_held _ _ _ Hup).
  destruct (held press (injected new)) eqn:Hheld; [|done].
  by destruct (Hr press up (lets_go_release _ _ Hup) Hheld) as [? _].
Qed.

(** ** Sample operations *)

Module InputSamples.

Definition sample_instance : PixelInstance.ExactWindowPixelInstanceEvidence := {|
  PixelInstance.process_creation_time_100ns := 133; PixelInstance.window_thread_id := 8;
  PixelInstance.window_class_hash := 77; PixelInstance.owner_window_handle := 0 |}.
Definition sample_fence : Fence.WindowsPhysicalInputFence := {|
  Fence.target := {| UiaTarget.process_id := 42; UiaTarget.window_handle := 9001 |};
  Fence.native_instance := sample_instance;
  Fence.native_window_bounds := (100, 100, 640, 480);
  Fence.native_visible_bounds := (108, 100, 624, 472);
  Fence.window_dpi := 96 |}.
Definition sample_evidence : PixelEvidence.ExactWindowPixelEvidence := {|
  PixelEvidence.process_id := 42; PixelEvidence.window_handle := 9001;
  PixelEvidence.bounds := (100, 100, 640, 480);
  PixelEvidence.visible_bounds := (108, 100, 624, 472);
  PixelEvidence.dpi := 96; PixelEvidence.visible := true; PixelEvidence.minimized := false;
  PixelEvidence.unobscured := true; PixelEvidence.visibility_failure := None;
  PixelEvidence.instance := sample_instance |}.
Definition sample_point : PointEvidence.ExactWindowPointEvidence := {|
  PointEvidence.visible := true; PointEvidence.hit_window_handle := Some 9001;
  PointEvidence.hit_process_id := Some 42; PointEvidence.hit_root_window_handle := Some 9001;
  PointEvidence.hit_is_target_or_child := true; PointEvidence.redacted_regions := [] |}.
Definition sample_state : NativeState.ExactWindowNativeState := {|
  NativeState.process_id := 42; NativeState.window_handle := 9001;
  NativeState.bounds := Some (100, 100, 640, 480);
  NativeState.visible_bounds := Some (108, 100, 624, 472);
  NativeState.dpi := 96; NativeState.visible := true; NativeState.minimized := false;
  NativeState.maximized := false; NativeState.foreground := true;
  NativeState.instance := sample_instance |}.

(** The time slept so far. *)
Definition slept (h : native_history) : Z :=
  fold_right (fun c now => match projT2 c with (Sleep d, _) => Z.max 0 d | _ => 0 end + now) 0 h.

(** A window that stays as it was captured; the system inserts [limit] events at a time. *)
Definition sample_world (limit : Z) : native_world := fun A h c =>
  match c in native_call A return A with
  | InputAvailable => true
  | Interrupted => false
  | ReadPixelEvidence _ => Some sample_evidence
  | ReadPointEvidence _ _ => Some sample_point
  | ReadNativeState _ => Some sample_state
  | ReadDesktop => (0, 0, 1920, 1080)
  | ReadPopupProof _ _ => Err {| PopupReadError.reason := PopupRefusal.PopupUnavailable;
      PopupReadError.target_bounds := None; PopupReadError.blocker := None |}
  | PopupTeardownPending _ => false
  | CaptureEndedWithRootFocus _ => Some true
  | SetCursorPos _ => true
  | SendInput events => Z.min limit (len events)
  | Now => slept h
  | Sleep _ => tt
  | EnterDpiScope => true
  | LeaveDpiScope => tt
  end.

(** A drag over three points, and two keys that are held. *)
Definition sample_drag : guarded_call := SendDrag [(200, 200); (210, 220); (300, 300)] 30 Left.
Definition sample_hold : guarded_call := SendKeypress ["ctrl"; "s"] (Some 50).

Lemma sample_keeps_time limit : keeps_time (sample_world limit).
Proof.
  assert (forall h h', slept (h ++ h') = slept h + slept h') as Happ.
  { intros h h'. induction h as [|c h IH]; [done|]. simpl. rewrite IH. lia. }
  split; simpl.
  - intros h [A [c a]]. rewrite Happ. destruct c; simpl; lia.
  - intros h d. rewrite Happ. simpl. lia.
Qed.

Lemma guarded_input_is_proven_and_released_witness :
  match perform (sample_world 1) sample_fence (SendClick (200, 200) 1 Left ["shift"]) ([], tt) with
  | Some (r, (h', tt)) =>
      is_err r = true /\ injected h' <> []
      /\ exists new, h' = [] ++ new /\ forall press up,
           lets_go press up -> still_down press up (injected new) = true ->
           is_err r = true /\ not_let_go new up
  | None => False
  end.
Proof.
  destruct (perform (sample_world 1) sample_fence (SendClick (200, 200) 1 Left ["shift"]) ([], tt))
    as [[r [h' []]]|] eqn:E; [|vm_compute in E; discriminate].
  split; [|split].
  - vm_compute in E. injection E as <- <-. reflexivity.
  - vm_compute in E. injection E as <- <-. vm_compute. discriminate.
  - destruct (guarded_input_is_proven_and_released _ _ _ _ _ _ E) as (new & Hn & _ & H & _).
    exists new. split; [exact Hn | exact H].
Defined.

Lemma guarded_input_arrives_witness :
  keeps_time (sample_world 100)
  /\ exists r h', perform (sample_world 100) sample_fence sample_hold ([], tt) = Some (r, (h', tt))
     /\ is_ok r = true
     /\ injected h' = key_downs [VK_CONTROL; 83] ++ key_ups [83; VK_CONTROL].
Proof.
  split; [apply sample_keeps_time|].
  destruct (guarded_input_arrives (sample_world 100) sample_fence sample_hold []
    (sample_keeps_time 100)) as (r & h' & E & _).
  exists r, h'. split; [exact E|]. vm_compute in E. injection E as <- <-.
  split; reflexivity.
Defined.

(** A drag in which the button goes up with its last event. *)
Lemma sample_drag_arrives :
  match perform (sample_world 100) sample_fence sample_drag ([], tt) with
  | Some (Ok outcome, (h', tt)) =>
      Outcome.delivery_completed outcome = true
      /\ planned (op_of sample_drag) = Ok (injected h')
  | _ => False
  end.
Proof. vm_compute. split; reflexivity. Qed.
End InputSamples.
